(* ===== verification/_CoqProject ===== *)
-Q . S2P
Prelude.v
Boost.v
HttpTypes.v
HttpUrl.v
HttpExecute.v
HttpLogic.v
HttpInvariant.v
HttpSafety.v
HttpSplit.v
HttpCallbacks.v
HttpBytes.v
HttpProtocol.v
HttpRoundTrip.v
HttpConnection.v
HttpPipeline.v
HttpServing.v
FibpClient.v
FibpClientSpec.v
HttpResponseTrip.v
FibpHttpClient.v
RequestParser.v
FibpGateway.v
HttpCall.v
FibpClientMgr.v
FibpClientMgrSpec.v
FibpTransactionMgr.v
FibpForwardManager.v
FibpForwardManagerSpec.v
FibpServiceCall.v
FibpServiceInfo.v
FibpServiceInfoSpec.v
FibpServiceMgr.v
FibpServiceMgrSpec.v
FibpPortForward.v
FibpPortForwardSpec.v
FibpDirectoryCall.v
FiberPool.v
FiberPoolSpec.v
FiberPoolLimit.v
FiberDriverConnection.v
FiberDriverConnectionSpec.v
FibpLogger.v
FibpLoggerSpec.v
CommandsController.v
CommandsControllerSpec.v
FibpRpcServer.v
ByteSizeParser.v
AsyncMultiIOServicesServer.v
MultiThreadObjMgr.v
FibpPortForwardConnection.v
FibpLoggerStats.v
XmlConfigParser.v
XmlConfigSpec.v
FibpServerProcess.v
FiberPoolMgr.v
FiberManager.v
FiberQueues.v
FiberScheduler.v
FiberSchedulerOk.v
FiberManagerSpec.v
FiberSync.v
FiberSyncSpec.v
FiberSyncTidy.v
FiberQueueNodes.v
FiberUnboundedQueue.v
FiberUnboundedQueueSpec.v
FiberBoundedQueue.v
FiberBoundedQueueSpec.v
FiberBarrier.v
FiberFuture.v
FiberFutureSpec.v
FiberTimedMutex.v
FibpServerMain.v
FibpServerHelpers.v
FibpServerMainSpec.v
