(* ===== verification/Prelude.v ===== *)
(** * fiberproxy: a verification library

    fiberproxy is a proxy between the clients of a site and its services.  An
    HTTP (or driver) connection of the server parses a request, routes it to a
    controller, and the controller asks the forward manager to call one or
    several services.  The forward manager picks a backend from the service
    directory, takes a connection of the client manager, sends the request in
    the protocol of the service (HTTP, MessagePack-RPC or a raw framing), waits
    in a fiber for the response, retries, falls back on a cache, and hands the
    answer to the connection, which prints it.  Everything a thread does runs
    in cooperative fibers, taken from the fiber pool of the thread.

    ** The files

    Paths are relative to [src/source]; [fs] is [core/fiber-server] and [fm] is
    [core/forward-manager].

    - [Prelude]: bytes, machine integers, notations, generic lemmas.
    - [Boost]: the class [BoostStrings] of the [boost::algorithm] functions the
      code calls, with [reference_strings], an instance.
    - The HTTP parser, [fs/http_parser.{h,cpp}].  [HttpTypes]: the structs,
      enums and character tables.  [HttpExecute]: [http_parser_execute], one
      definition per [case] of its [switch], both loops, the [goto]s and the
      macros that call the callbacks, in a monad over the parser, the local
      pointers and the callbacks' state.  [HttpUrl]: [http_parser_parse_url].
      [HttpLogic]: weakest preconditions for that monad.  [HttpInvariant],
      [HttpSafety]: the invariant, termination, absence of failed assertions
      and of reads out of bounds.  [HttpSplit]: a buffer may be cut anywhere.
      [HttpCallbacks]: what the callbacks keep true.  [HttpBytes]: the language
      of the parser, byte by byte, for clients that collect data.
    - Messages, [fs/HttpProtocolHandler.{h,cpp}].  [HttpProtocol]: requests,
      responses, both [operator<<], both [parser_impl].  [HttpRoundTrip],
      [HttpResponseTrip], [HttpPipeline]: what is printed is parsed back.
    - The server's connection, [fs/HttpConnection.{h,cpp}].  [HttpConnection]:
      [createContext], routing, [write_rsp], the error answers, [shutdown], as
      a handler of the parser and as a system of events; the router, the
      controllers and the JSON library are the class [Driver].  [HttpServing]:
      its theorems.
    - The clients, [fm/FibpClient.{h,cpp}] and [fm/FibpClientFuture.{h,cpp}].
      [FibpClient]: [ClientSession], [FibpClientFuture], and the two
      multiplexing clients (Modules [Raw] and [Rpc]; MessagePack is the classes
      [Msgpack] and [MsgpackBuffer]).  [FibpClientSpec]: their theorems.
      [FibpHttpClient]: the HTTP client.
    - The client manager, [fm/FibpClientMgr.{h,cpp}].  [FibpClientMgr],
      [FibpClientMgrSpec].
    - The forward manager, [fm/FibpForwardManager.{h,cpp}],
      [fm/FibpTransactionMgr.{h,cpp}], [fm/FibpServiceCache.{h,cpp}].
      [FibpTransactionMgr], [FibpForwardManager], [FibpForwardManagerSpec].  The
      directory and the connections are the class [Backends], izenelib's cache
      is the class [ConcurrentCache].
    - The service directory, [fm/FibpServiceMgr.{h,cpp}].  [FibpServiceInfo]: JSON
      values and what is read from the answers of the coordination service;
      [FibpServiceInfoSpec]: what they mean.  [FibpServiceMgr]: the watching
      fibers as a system of polls, and [get_service_address];
      [FibpServiceMgrSpec]: its theorems.
    - Port forwarding, [fm/FibpPortForwardMgr.{h,cpp}], the fourth fiber of
      [fm/FibpServiceMgr.cpp] and [fs/FibpPortForwardConnection.cpp].
      [FibpPortForward], [FibpPortForwardSpec].
    - The controllers, [process/controllers].  [RequestParser]: the path form
      of a call, from [RequestParser.cpp].  [CommandsController],
      [CommandsControllerSpec]: the JSON form, the handlers, the rendering of
      responses and the list of forwarded ports, over a class of izenelib's
      [Value].
    - The other ways in.  [FiberDriverConnection], [FiberDriverConnectionSpec]:
      the connection of izenelib's driver protocol,
      [fs/FiberDriverConnection.{h,cpp}].  [FibpRpcServer]: the dispatch of
      MessagePack-RPC requests, [fs/FibpRpcServer.cpp].
      [FibpPortForwardConnection]: the two fibers that relay a forwarded
      connection, [fs/FibpPortForwardConnection.cpp].
      [AsyncMultiIOServicesServer]: accepting connections,
      [fs/AsyncMultiIOServicesServer.h].
    - The log of service calls, [core/log-manager/FibpLogger.{h,cpp}].
      [FibpLogger], [FibpLoggerSpec]; [FibpLoggerStats]: the statistics, with the
      fiber of [fm/FibpServiceMgr.cpp] that reports them.
    - The process.  [XmlConfigParser], [XmlConfigSpec]: the configuration,
      [process/common/XmlConfigParser.{h,cpp}]; [FibpServerProcess]: from the
      options and the configuration to the servers, [process].
      [FibpServerMain], [FibpServerHelpers], [FibpServerMainSpec]: the threads from
      [main] to its end, with the signal thread, the loops of the servers, and the
      helper threads that the exit hook stops and joins
      ([process/FibpServerMain.cpp], [process/common/OnSignal.cpp],
      [fs/Fiber{Driver,Http}ServerV2.cpp], the [stop]s of [fm] and their threads).
      [ByteSizeParser]: sizes such as 1.5 GB, [core/common/ByteSizeParser.cpp].
    - The compositions.  [HttpCall]: the HTTP client against a connection of a
      server.  [FibpGateway]: connection, request parser and HTTP client, from
      a request of a user to the request of the service.  [FibpServiceCall]:
      forward manager, client manager, HTTP client, network, connection and
      handler of the service; [net_backends] is the instance of [Backends].
      [FibpDirectoryCall]: calls and forwarded connections through the
      directory.
    - The fiber pool, [fs/FiberPool.hpp], with the queue of the condition
      variable of [core/boost-fiber/condition.cpp].  [FiberPool],
      [FiberPoolSpec], [FiberPoolLimit]; [FiberPoolMgr]: the pools of a server's
      threads; [MultiThreadObjMgr]: objects per thread,
      [core/common/MultiThreadObjMgr.hpp].
    - The fiber scheduler, which the repository has changed in its copy of
      Boost.Fiber ([core/boost-fiber/fiber_manager.cpp],
      [detail/worker_fiber.{hpp,cpp}], [detail/waiting_queue.hpp],
      [detail/fifo.hpp]).  [FiberManager]: the fibers as a heap of records with
      links, every operation pointer by pointer.  [FiberQueues]: what the
      operations do to the lists that the links form.  [FiberScheduler]: a
      scheduler with two lists and no pointers, and the simulation of each
      operation; [FiberSchedulerOk]: its invariant; [FiberManagerSpec]: the
      theorems.
    - What fibers wait with, also in [core/boost-fiber].  [FiberSync],
      [FiberSyncSpec]: the mutex and the condition variable on the scheduler;
      [FiberSyncTidy]: critical sections on one thread; [FiberTimedMutex]: the
      mutex with deadlines.  [FiberQueueNodes], [FiberUnboundedQueue],
      [FiberUnboundedQueueSpec], [FiberBoundedQueue], [FiberBoundedQueueSpec]: the
      two queues and their linked nodes.  [FiberBarrier]: the barrier.
      [FiberFuture], [FiberFutureSpec]: shared states with their reference counts,
      promises, futures and packaged tasks.

    ** The theorems

    - The parser returns on every input whatever the callbacks do, reads no
      table out of bounds, keeps its counters bounded, and does not depend on
      how the stream was cut ([execute_returns], [reachable_bounds],
      [execute_consumes_all], [execute_split]).
    - What one side prints the other side parses ([request_round_trip],
      [response_round_trip], [requests_served_in_order], [parse_url_splits]);
      where it does not, a theorem says so ([status_message_swallows_header]).
    - A connection whose handlers answer before they return implements a server
      that answers in order ([connection_serves_in_order],
      [one_answer_per_request]); with asynchronous handlers it does not
      ([pipelined_responses_overtake]).
    - A client's result is explained by what happened on its connection
      ([results_explained], [raw_responses_reach_their_requests],
      [read_error_fails_all_waiting]); reading by [handle_read] implements the
      abstract steps until bytes that are no MessagePack end the process
      ([rpc_reading_refines_steps], [malformed_response_terminates]).
    - Connections are conserved and limited ([clients_conserved],
      [client_limit]).
    - A call ends after at most three attempts, its failure is never silent,
      a cached answer was given before, and a call of several services is
      joined ([single_call_concludes], [no_silent_failure],
      [cached_answers_were_given], [calls_are_joined]).
    - The directory holds what the last answers said, and consecutive lookups go
      round the hosts ([directory_follows_answers], [lookups_go_round]), as long as
      no two services share a key ([clashes]); what makes it stale
      ([cluster_never_changes]) or ends the process ([bad_index_terminates]).
      The open ports are those somebody asked for ([ports_follow_keys]), and
      agents keep what they had ([agents_keep_ports]).
    - The compositions: [http_call_answered], [gateway_forwards],
      [service_call_answered], [retries_try_different_hosts],
      [forwarded_to_healthy_host]; what the gateway changes
      ([trailing_slash_lost]).
    - The pool loses no task, starts them in order, finds a fiber for the
      oldest, up to its size, at which it can deadlock
      ([tasks_start_once_in_order], [no_task_stranded],
      [scheduling_leaves_ready_fiber], [pool_size_bounded],
      [full_pool_starts_nothing]).  Each thread has its own objects
      ([objects_per_thread]).
    - The scheduler's linked lists implement a scheduler with two lists, no
      assertion of it fails and no pointer dangles, every due fiber is woken and
      every ready one runs ([scheduler_refines_lists], [no_wakeup_lost],
      [ready_fiber_runs]); what interruption breaks ([interrupted_join_fails]).
    - The mutex on it has one holder at a time, its waiters are queued or ready,
      a free one is taken, and no assertion fails ([mutual_exclusion],
      [sleeper_is_queued], [free_mutex_taken], [sync_never_fails]); fibers that
      are not suspended with a mutex never wait for one
      ([critical_sections_atomic]), so that the members of the classes below,
      which lock and do not suspend, are single steps.  With deadlines a wakeup
      can be lost ([timed_lock_loses_wakeup], [timed_reader_strands]).
    - The queues pass values on in order ([unbounded_queue_fifo],
      [bounded_queue_fifo]) and wake their readers ([no_reader_stranded]); the
      bounded one fills up for good ([bounded_queue_fills_up]).  A barrier holds
      its fibers until all have come ([barrier_synchronizes]).  A future delivers
      the one result of its promise to all who wait for it ([future_delivers],
      [waiting_readers_return]), whose state lives as long as somebody points to
      it, unless a task is reset ([reset_keeps_exception]).
    - A signal to quit ends the process when both servers are in their loops, and
      every join of the exit hook comes to an end ([shutdown_completes]); it is
      lost when it comes earlier ([early_signal_lost]).
    - A driver connection answers every form once, and in order when it has no
      pool and its handlers do not wait ([driver_answers_each_form_once],
      [driver_serves_in_order]); the RPC server passes calls on unchanged
      ([rpc_gateway_transparent]); a request for several services is answered
      completely ([multi_call_answered], [json_calls_printable]); a relay copies
      in order ([relay_faithful]), and uses a destroyed socket when the client
      closes ([client_close_uses_destroyed_socket]).
    - What is posted to the log service are the finished calls, each once and in
      order, and a finished call is posted ([log_is_faithful],
      [finished_calls_are_sent], [reported_averages]), unless a malformed
      request stops the log ([malformed_request_stops_log]).
    - A configuration document is read as the configuration it describes, and
      the servers get its ports ([process_initialized]); a size is exact or an
      overflow is reported ([byte_size_exact]).

    ** Modelling

    - Integers are [Z] with the wrap-around of their width written out ([wrap]);
      a [char] is an [ascii], read as signed or unsigned where the code does.
      A pointer into a buffer is the list from it to the end of the buffer.
    - Undefined behaviour (a failed assertion, a read out of bounds, an
      overflow of a buffer) is a value of its own ([Undefined], [None]), never
      a default.  Uninitialised memory is an argument.  An exception that leaves a
      fiber ends the process ([detail/trampoline.hpp] calls [std::terminate]): the
      directory has [None] for it, the RPC client [Terminated].
    - Fibers are cooperative: a step of a component is what runs between two
      points at which its fiber can be suspended.  Connecting and writing are
      one such span in the client models: how they end is an argument.  In
      [FibpServiceCall] each call meets a connection of the service that is
      between two requests.
    - Fuel.  The loop around the [switch] of the parser gets [reexecute_fuel],
      4: a byte is dispatched at most three times.  The loop over the buffer is
      structural.  [Rpc.handle_read] gets the bytes and reads that are left,
      since every round consumes one.  [retry_loop] gets 4 for three attempts.
      [push_loop] and [move_to_loop] get the number of fibers.
      In each case a theorem says that the fuel is enough.

    ** Not modelled

    - izenelib, Boost, MessagePack, Thrift and rapidjson are not in the
      repository: what is used of them is a parameter, a class with documented
      laws, and each class has an instance.
    - Of Boost.Fiber ([core/boost-fiber]) recursive mutexes, fiber-specific
      storage, the stealing of work between threads and the interruption of
      fibers that wait for a mutex or a condition are not modelled, nor are the
      branches for a main fiber that waits.  The specialisations of the futures
      for references and [void] are the general case without its value.  The
      switching of stacks and the glue to Asio ([fs/{loop,spawn,yield}.hpp]) are
      below the level of the models.
    - The connections to a log server ([core/fibp-net]), the lines written to
      the log and the opening of sockets are input and output.
      [core/common/JobScheduler] is used by nothing and is built on a queue of
      izenelib.  [FiberDriverConnection]'s asynchronous members and
      [FibpLogger::sendLog] are called by nothing.  The routes are registered by
      generated code.
    - Arithmetic of [double]: what is used of it is a class.
    - Timing: a timeout is an event that may occur, not a date; only the
      scheduler has deadlines.
    - Races between threads, other than the appends to the pool's list and the
      accesses by which the process is stopped (there the handlers that use a
      client manager while the hook destroys it are left out): the scheduler and what is built on
      it are those of one thread.  The first versions of the servers
      ([fs/Fiber{Driver,Http}Server.cpp]) are not used by the process. *)

From Stdlib Require Export ZArith Lia Bool Ascii.
From stdpp Require Export base tactics numbers list gmap strings.
From stdpp Require Import options.

#[global] Open Scope Z_scope.

(** ** Bytes

    A C++ [char] is an [ascii]; a [std::string] or a [char] buffer is a list
    of them.  [uc] and [sc] are the two readings of a [char] as an integer:
    [(unsigned char) c], and the signed promotion of x86. *)

Abbreviation bytes := (list ascii).

Declare Scope byte_scope.
Delimit Scope byte_scope with byte.
#[global] Open Scope byte_scope.

Infix "==" := Ascii.eqb (at level 70, no associativity) : byte_scope.
Notation "x '!=' y" := (negb (Ascii.eqb x y)) (at level 70, no associativity) : byte_scope.

Definition uc (c : ascii) : Z := Z.of_N (N_of_ascii c).
Definition sc (c : ascii) : Z := if uc c <? 128 then uc c else uc c - 256.
Definition of_code (z : Z) : ascii := ascii_of_N (Z.to_N z).

(** String literals as byte lists. *)
Definition b (s : string) : bytes := String.list_ascii_of_string s.
Arguments b s%_string_scope.

Definition NUL : ascii := "000"%char.
Definition HT : ascii := "009"%char.
Definition LF : ascii := "010"%char.
Definition FF : ascii := "012"%char.
Definition CR : ascii := "013"%char.
Definition SP : ascii := " "%char.
Definition DQUOTE : ascii := "034"%char.
Definition CRLF : bytes := [CR; LF].

(** ** Machine integers: a value of a [w]-bit unsigned type is kept modulo [2^w]. *)

Definition wrap (w : Z) (z : Z) : Z := z mod 2 ^ w.
Abbreviation w8 := (wrap 8).
Abbreviation w16 := (wrap 16).
Abbreviation w32 := (wrap 32).
Abbreviation w64 := (wrap 64).

Lemma wrap_small w z : 0 <= z < 2 ^ w -> wrap w z = z.
Proof. apply Z.mod_small. Qed.

Lemma wrap_bound w z : 0 <= w -> 0 <= wrap w z < 2 ^ w.
Proof. intros. apply Z.mod_pos_bound. lia. Qed.

(** ** Exhaustive checks over the 256 bytes *)

Definition all_bytes : bytes := map ascii_of_nat (seq 0 256).

Lemma forall_bytes (P : ascii -> bool) :
  forallb P all_bytes = true -> forall c, P c = true.
Proof.
  intros H c. eapply forallb_forall in H; [exact H|].
  rewrite <- (ascii_nat_embedding c). apply in_map, in_seq.
  pose proof (nat_ascii_bounded c). lia.
Qed.

Lemma uc_bound c : 0 <= uc c < 256.
Proof. unfold uc. pose proof (N_ascii_bounded c). lia. Qed.

Lemma sc_bound c : -128 <= sc c < 128.
Proof. unfold sc. pose proof (uc_bound c). case_match eqn:E; lia. Qed.

Lemma eqb_bytes_refl c : (c == c) = true.
Proof. apply Ascii.eqb_refl. Qed.

(** ** Automation *)

Create HintDb fibp.

(** Turns the boolean tests of the code into propositions. *)
Ltac to_prop :=
  repeat match goal with
  | H : andb _ _ = true |- _ => apply andb_true_iff in H as [? ?]
  | H : orb _ _ = false |- _ => apply orb_false_iff in H as [? ?]
  | H : orb _ _ = true |- _ => apply orb_true_iff in H
  | H : andb _ _ = false |- _ => apply andb_false_iff in H
  | H : negb _ = true |- _ => apply negb_true_iff in H
  | H : negb _ = false |- _ => apply negb_false_iff in H
  | H : (_ <? _) = true |- _ => apply Z.ltb_lt in H
  | H : (_ <? _) = false |- _ => apply Z.ltb_ge in H
  | H : (_ <=? _) = true |- _ => apply Z.leb_le in H
  | H : (_ <=? _) = false |- _ => apply Z.leb_gt in H
  | H : (_ =? _) = true |- _ => apply Z.eqb_eq in H
  | H : (_ =? _) = false |- _ => apply Z.eqb_neq in H
  | H : (_ >? _) = true |- _ => rewrite Z.gtb_ltb in H
  | H : (_ >? _) = false |- _ => rewrite Z.gtb_ltb in H
  | H : Ascii.eqb _ _ = true |- _ => apply Ascii.eqb_eq in H
  | H : Ascii.eqb _ _ = false |- _ => apply Ascii.eqb_neq in H
  end.

(** Splits the goal on the innermost test it still contains. *)
Ltac split_if :=
  match goal with
  | |- context [if ?c then _ else _] =>
      lazymatch c with context [if _ then _ else _] => fail | _ => destruct c eqn:? end
  end.

(** ** Suffixes: pointers that only move forward *)

Lemma suffix_trans {A} (x y z : list A) : x `suffix_of` y -> y `suffix_of` z -> x `suffix_of` z.
Proof. intros. by transitivity y. Qed.

Lemma suffix_tail {A} (x : list A) : tail x `suffix_of` x.
Proof. destruct x; [done|]. by apply suffix_cons_r. Qed.

Lemma suffix_tail_of {A} (x y : list A) : x `suffix_of` y -> tail x `suffix_of` y.
Proof. apply suffix_trans, suffix_tail. Qed.

#[export] Hint Resolve suffix_nil suffix_tail suffix_tail_of suffix_cons_r : fibp.

Lemma suffix_drop_of {A} n (x y : list A) : x `suffix_of` y -> drop n x `suffix_of` y.
Proof. intros. eapply suffix_trans; [apply suffix_drop|done]. Qed.

Lemma drop_nonempty {A} n (x : list A) : (n < length x)%nat -> drop n x <> [].
Proof. intros H E%(f_equal length). rewrite length_drop in E. cbn in E. lia. Qed.

#[export] Hint Resolve suffix_drop_of : fibp.

(** ** Decimal numbers *)

(** What [ostream << n] prints for a non-negative integer. *)
Definition digit (n : Z) : ascii := of_code (48 + n).

Fixpoint dec_aux (fuel : nat) (n : Z) : bytes :=
  match fuel with
  | O => []
  | S fuel => if n <? 10 then [digit n] else dec_aux fuel (n / 10) ++ [digit (n mod 10)]
  end.

Definition dec (n : Z) : bytes := dec_aux (S (Z.to_nat (Z.log2 n))) n.

(** A signed integer. *)
Definition dec_signed (n : Z) : bytes := if n <? 0 then "-"%char :: dec (- n) else dec n.

(** The value of a string of digits read after the value [acc]. *)
Definition digit_value (c : ascii) : Z := sc c - 48.
Definition digits_value (acc : Z) (w : bytes) : Z :=
  foldl (fun acc c => acc * 10 + digit_value c) acc w.

Definition is_digit (c : ascii) : bool := (48 <=? sc c) && (sc c <=? 57).

Lemma digit_ok n : 0 <= n <= 9 -> is_digit (digit n) = true /\ digit_value (digit n) = n.
Proof.
  intros H.
  assert (forallb (fun k => is_digit (digit (Z.of_nat k)) && (digit_value (digit (Z.of_nat k)) =? Z.of_nat k))
            (seq 0 10) = true) as Hall by (vm_compute; reflexivity).
  eapply forallb_forall in Hall; [|apply in_seq; split; [apply le_0_n|]; instantiate (1 := Z.to_nat n); lia].
  rewrite Z2Nat.id in Hall by lia. by to_prop.
Qed.

Lemma digits_value_app acc w w' :
  digits_value acc (w ++ w') = digits_value (digits_value acc w) w'.
Proof. apply foldl_app. Qed.

Lemma dec_aux_ok fuel n :
  0 <= n < 10 ^ Z.of_nat fuel -> (0 < fuel)%nat ->
  dec_aux fuel n <> [] /\ Forall (fun c => is_digit c = true) (dec_aux fuel n)
  /\ digits_value 0 (dec_aux fuel n) = n.
Proof.
  revert n. induction fuel as [|fuel IH]; intros n Hn Hf; [lia|]. cbn [dec_aux].
  destruct (n <? 10) eqn:E; to_prop.
  - destruct (digit_ok n ltac:(lia)) as [? Hv]. split_and!; [done|by constructor|].
    cbn. by rewrite Hv.
  - rewrite Nat2Z.inj_succ, Z.pow_succ_r in Hn by lia.
    assert (0 <= n / 10 < 10 ^ Z.of_nat fuel) as Hd
      by (split; [apply Z.div_pos; lia|apply Z.div_lt_upper_bound; lia]).
    destruct fuel as [|fuel]; [cbn in Hd; pose proof (Z.div_le_lower_bound n 10 1); lia|].
    destruct (IH (n / 10) Hd ltac:(lia)) as (Hne & Hall & Hval).
    destruct (digit_ok (n mod 10) ltac:(pose proof (Z.mod_pos_bound n 10); lia)) as [? Hv].
    split_and!.
    + intros [? _]%app_eq_nil. done.
    + apply Forall_app. auto.
    + rewrite digits_value_app, Hval. cbn. rewrite Hv. pose proof (Z_div_mod_eq_full n 10). lia.
Qed.

Lemma dec_ok n :
  0 <= n ->
  dec n <> [] /\ Forall (fun c => is_digit c = true) (dec n) /\ digits_value 0 (dec n) = n.
Proof.
  intros Hn. apply dec_aux_ok; [|lia]. split; [done|].
  destruct (Z.eq_dec n 0) as [->|]; [by vm_compute|].
  pose proof (Z.log2_spec n ltac:(lia)) as [_ Hl].
  rewrite Nat2Z.inj_succ, Z2Nat.id by apply Z.log2_nonneg.
  eapply Z.lt_le_trans; [exact Hl|].
  apply Z.pow_le_mono_l. split; [lia|]. lia.
Qed.

Lemma digits_value_bound acc w :
  0 <= acc -> Forall (fun c => is_digit c = true) w -> acc <= digits_value acc w.
Proof.
  revert acc. induction w as [|c w IH]; intros acc Ha Hw; [cbn; lia|].
  inversion Hw as [|? ? Hc Hw']; subst. cbn [digits_value foldl].
  unfold is_digit in Hc. to_prop. unfold digit_value at 2.
  etransitivity; [|apply IH; [|done]]; lia.
Qed.

Lemma dec_aux_head fuel n :
  1 <= n < 10 ^ Z.of_nat fuel -> (0 < fuel)%nat ->
  exists c w, dec_aux fuel n = c :: w /\ 1 <= digit_value c.
Proof.
  revert n. induction fuel as [|fuel IH]; intros n Hn Hf; [lia|]. cbn [dec_aux].
  destruct (n <? 10) eqn:E; to_prop.
  - exists (digit n), []. split; [done|]. destruct (digit_ok n ltac:(lia)). lia.
  - rewrite Nat2Z.inj_succ, Z.pow_succ_r in Hn by lia.
    assert (1 <= n / 10 < 10 ^ Z.of_nat fuel) as Hd
      by (split; [apply Z.div_le_lower_bound; lia|apply Z.div_lt_upper_bound; lia]).
    destruct fuel as [|fuel]; [cbn in Hd; lia|].
    destruct (IH (n / 10) Hd ltac:(lia)) as (c & w & -> & Hc). eauto.
Qed.

(** No leading zero. *)
Lemma dec_head n : 1 <= n -> exists c w, dec n = c :: w /\ 1 <= digit_value c.
Proof.
  intros Hn. apply dec_aux_head; [|lia]. split; [done|].
  pose proof (Z.log2_spec n ltac:(lia)) as [_ Hl].
  rewrite Nat2Z.inj_succ, Z2Nat.id by apply Z.log2_nonneg.
  eapply Z.lt_le_trans; [exact Hl|]. apply Z.pow_le_mono_l. split; [lia|]. lia.
Qed.

Lemma dec_signed_nonneg n : 0 <= n -> dec_signed n = dec n.
Proof. unfold dec_signed. intros. by replace (n <? 0) with false by lia. Qed.
