(* ===== verification/Boost.v ===== *)
(** * The string algorithms of Boost

    [boost::algorithm] is outside the repository: the components take what they
    use of it as the class [BoostStrings], whose laws are the documented
    behaviour of [iequals], [trim_if], [split] (with [token_compress_on]) and
    [to_lower] in the classic locale.  [reference_strings] shows that the laws
    can be met. *)

From stdpp Require Import options.
From S2P Require Import Prelude.

(** [std::tolower] of the classic locale. *)
Definition tolower (c : ascii) : ascii :=
  if (65 <=? uc c) && (uc c <=? 90) then of_code (uc c + 32) else c.

(** A string that neither begins nor ends with a character of [p]. *)
Definition bare (p : ascii -> bool) (s : bytes) : Prop :=
  (forall c, head s = Some c -> p c = false) /\ (forall c, last s = Some c -> p c = false).

(** Runs of separators, and text without any. *)
Abbreviation separators p := (Forall (fun c => p c = true)).
Abbreviation no_separator p := (Forall (fun c => p c = false)).

Class BoostStrings := {
  iequals : bytes -> bytes -> bool;
  iequals_spec x y : iequals x y = true <-> map tolower x = map tolower y;
  to_lower : bytes -> bytes;
  to_lower_spec s : to_lower s = map tolower s;
  trim_if : (ascii -> bool) -> bytes -> bytes;
  trim_if_spec p l s r :
    separators p l -> separators p r -> bare p s -> trim_if p (l ++ s ++ r) = s;
  split_compress : (ascii -> bool) -> bytes -> list bytes;
  split_token p t : no_separator p t -> split_compress p t = [t];
  split_next p t seps rest :
    no_separator p t -> separators p seps -> seps <> [] ->
    (forall c, head rest = Some c -> p c = false) ->
    split_compress p (t ++ seps ++ rest) = t :: split_compress p rest
}.

Lemma iequals_false {boost : BoostStrings} x y :
  map tolower x <> map tolower y -> iequals x y = false.
Proof. intros H. destruct (iequals x y) eqn:E; [|done]. by apply iequals_spec in E. Qed.

(** [boost::is_any_of] of one character. *)
Definition is_char (a : ascii) (c : ascii) : bool := (c == a)%byte.
Abbreviation is_slash := (is_char "/"%char).

(** ** The laws can be met *)

Fixpoint drop_while (p : ascii -> bool) (s : bytes) : bytes :=
  match s with
  | [] => []
  | c :: s' => if p c then drop_while p s' else s
  end.

Fixpoint tokens_from (p : ascii -> bool) (cur : bytes) (after_sep : bool) (s : bytes) : list bytes :=
  match s with
  | [] => [rev cur]
  | c :: s =>
      if p c then (if after_sep then tokens_from p cur true s else rev cur :: tokens_from p [] true s)
      else tokens_from p (c :: cur) false s
  end.

Lemma drop_while_all p l s : separators p l -> drop_while p (l ++ s) = drop_while p s.
Proof. induction 1 as [|c l Hc _ IH]; [done|]. cbn. by rewrite Hc. Qed.

Lemma drop_while_bare p s : (forall c, head s = Some c -> p c = false) -> drop_while p s = s.
Proof. intros H. destruct s as [|c s]; [done|]. cbn. by rewrite (H c). Qed.

Definition trim_reference (p : ascii -> bool) (s : bytes) : bytes :=
  rev (drop_while p (rev (drop_while p s))).

Lemma trim_reference_spec p l s r :
  separators p l -> separators p r -> bare p s -> trim_reference p (l ++ s ++ r) = s.
Proof.
  intros Hl Hr [Hh Hlast]. unfold trim_reference. rewrite (drop_while_all _ l) by done.
  destruct (decide (s = [])) as [->|Hs].
  - cbn. replace r with (r ++ []) by apply app_nil_r. by rewrite drop_while_all.
  - rewrite (drop_while_bare p (s ++ r)) by (by destruct s).
    rewrite rev_app_distr, drop_while_all by (by apply Forall_rev).
    rewrite drop_while_bare; [by rewrite rev_involutive|].
    intros c. rewrite <- (rev_involutive s) in Hlast. destruct (rev s) as [|z s']; [done|].
    cbn in *. rewrite last_snoc in Hlast. intros [= ->]. by apply Hlast.
Qed.

Lemma tokens_token p t cur flag s : no_separator p t ->
  tokens_from p cur flag (t ++ s)
  = tokens_from p (rev t ++ cur) (match t with [] => flag | _ => false end) s.
Proof.
  intros H. revert cur flag. induction H as [|c t Hc _ IH]; intros cur flag; [done|].
  cbn. rewrite Hc, IH, <- app_assoc. by destruct t.
Qed.

Lemma tokens_separators p seps rest cur : separators p seps ->
  tokens_from p cur true (seps ++ rest) = tokens_from p cur true rest.
Proof. induction 1 as [|c seps Hc _ IH]; [done|]. cbn. by rewrite Hc. Qed.

Lemma tokens_flag p rest cur : (forall c, head rest = Some c -> p c = false) ->
  tokens_from p cur true rest = tokens_from p cur false rest.
Proof. destruct rest as [|c rest]; [done|]. intros H. cbn. by rewrite (H c). Qed.

#[local, refine] Instance reference_strings : BoostStrings := {|
  iequals x y := bool_decide (map tolower x = map tolower y);
  to_lower := map tolower;
  trim_if := trim_reference;
  split_compress p := tokens_from p [] false
|}.
Proof.
  - intros x y. apply bool_decide_eq_true.
  - done.
  - apply trim_reference_spec.
  - intros p t H. rewrite <- (app_nil_r t) at 1. rewrite tokens_token by done. cbn.
    by rewrite app_nil_r, rev_involutive.
  - intros p t seps rest Ht Hs Hne Hr. rewrite tokens_token by done.
    destruct seps as [|c seps]; [done|]. inversion_clear Hs as [|?? Hc Hs']. cbn.
    rewrite Hc, app_nil_r, rev_involutive. destruct t; cbn; f_equal;
      rewrite tokens_separators by done; by apply tokens_flag.
Defined.

(** ** The laws determine the functions

    Every implementation of [trim_if] and [split] that obeys the laws computes
    what the reference does, so that the components' theorems can evaluate it. *)

Implicit Types (p : ascii -> bool) (s : bytes).

Lemma drop_while_spec p s : exists l,
  s = l ++ drop_while p s /\ separators p l
  /\ (forall c, head (drop_while p s) = Some c -> p c = false).
Proof.
  induction s as [|c s (l & Hs & Hl & Hh)]; [by exists []|]. cbn. destruct (p c) eqn:Hc.
  - exists (c :: l). split; [by rewrite Hs at 1|]. split; [by constructor|done].
  - exists []. split; [done|]. split; [done|]. by intros ? [= <-].
Qed.

Lemma trim_decompose p s : exists l r,
  s = l ++ trim_reference p s ++ r /\ separators p l /\ separators p r
  /\ bare p (trim_reference p s).
Proof.
  destruct (drop_while_spec p s) as (l & Hs & Hl & Hh).
  destruct (drop_while_spec p (rev (drop_while p s))) as (r & Hr & Hsr & Hlast).
  exists l, (rev r). unfold trim_reference. rewrite <- rev_app_distr, <- Hr, rev_involutive.
  split; [done|]. split; [done|]. split; [by apply Forall_rev|].
  set (m := drop_while p (rev (drop_while p s))) in *. split; intros c Hc.
  - apply Hh. rewrite <- (rev_involutive (drop_while p s)), Hr, rev_app_distr.
    destruct (rev m); [done|exact Hc].
  - apply Hlast. destruct m as [|z m]; [done|]. cbn in Hc. by rewrite last_snoc in Hc.
Qed.

Lemma split_decompose p s :
  no_separator p s \/ exists t seps rest,
    s = t ++ seps ++ rest /\ no_separator p t /\ separators p seps /\ seps <> []
    /\ (forall c, head rest = Some c -> p c = false).
Proof.
  induction s as [|c s IH]; [by left|]. destruct (p c) eqn:Hc.
  - right. destruct (drop_while_spec p (c :: s)) as (l & Hs & Hl & Hh).
    exists [], l, (drop_while p (c :: s)). repeat split; try done.
    intros ->. cbn in Hs. rewrite Hc in Hs. apply (f_equal length) in Hs.
    destruct (drop_while_spec p s) as (l' & Hs' & _). apply (f_equal length) in Hs'.
    rewrite length_app in Hs'. cbn in Hs. lia.
  - destruct IH as [H|(t & seps & rest & -> & Ht & IH)]; [by left; constructor|].
    right. exists (c :: t), seps, rest. split; [done|]. split; [by constructor|done].
Qed.

Section Unique.
Context {boost : BoostStrings}.

Lemma trim_if_reference p s : trim_if p s = trim_reference p s.
Proof.
  destruct (trim_decompose p s) as (l & r & Hs & Hl & Hr & Hm).
  rewrite Hs at 1. by apply trim_if_spec.
Qed.

Lemma split_reference p s : split_compress p s = tokens_from p [] false s.
Proof.
  remember (length s) as n eqn:Hn. revert s Hn. induction (lt_wf n) as [n _ IH]. intros s ->.
  destruct (split_decompose p s) as [H|(t & seps & rest & -> & Ht & Hs & Hne & Hr)].
  - rewrite split_token by done. symmetry. by apply (@split_token reference_strings).
  - rewrite split_next by done.
    assert (length rest < length (t ++ seps ++ rest))%nat as Hlt
      by (rewrite !length_app; destruct seps; [done|cbn; lia]).
    rewrite (IH _ Hlt rest eq_refl). symmetry. by apply (@split_next reference_strings).
Qed.
End Unique.

(** The non-empty maximal runs without a separator. *)
Definition words (p : ascii -> bool) (s : bytes) : list bytes :=
  filter (fun t => t <> []) (tokens_from p [] false s).

Lemma words_next p t seps rest :
  no_separator p t -> t <> [] -> separators p seps -> (seps <> [] \/ rest = []) ->
  words p (t ++ seps ++ rest) = t :: words p rest.
Proof.
  intros Ht Hne Hs H. unfold words.
  assert (tokens_from p [] false (t ++ seps ++ rest)
          = t :: (if decide (seps ++ rest = []) then [] else tokens_from p [] true rest)) as ->.
  { rewrite tokens_token, app_nil_r by done. destruct seps as [|c seps].
    - destruct H as [H| ->]; [done|]. cbn. by rewrite rev_involutive.
    - inversion_clear Hs as [|?? Hc Hs']. rewrite decide_False by done. cbn.
      rewrite Hc, rev_involutive. destruct t; [done|]. f_equal. by apply tokens_separators. }
  rewrite filter_cons_True by exact Hne. f_equal.
  destruct (decide (seps ++ rest = [])) as [E|E].
  - apply app_eq_nil in E as [_ ->]. done.
  - clear. destruct rest as [|c rest]; [done|]. cbn. destruct (p c); [|done].
    rewrite filter_cons_False by (by intros H'; apply H'). done.
Qed.

Lemma words_leading p seps rest : separators p seps -> words p (seps ++ rest) = words p rest.
Proof.
  intros Hs. unfold words. destruct seps as [|c seps]; [done|]. inversion_clear Hs as [|?? Hc Hs'].
  cbn. rewrite Hc, filter_cons_False by naive_solver. rewrite tokens_separators by done.
  destruct rest as [|d rest]; [done|]. cbn. destruct (p d); [|done].
  by rewrite filter_cons_False by (by intros H'; apply H').
Qed.

(** A non-empty bare string is a word, or a word, separators and a bare string. *)
Lemma bare_ind p (P : bytes -> Prop) :
  (forall t, t <> [] -> no_separator p t -> P t) ->
  (forall t seps rest, t <> [] -> no_separator p t -> separators p seps -> seps <> [] ->
     rest <> [] -> bare p rest -> P rest -> P (t ++ seps ++ rest)) ->
  forall s, s <> [] -> bare p s -> P s.
Proof.
  intros Hone Hnext s. remember (length s) as n eqn:Hn. revert s Hn.
  induction (lt_wf n) as [n _ IH]. intros s -> Hs [Hh Hl].
  destruct (split_decompose p s) as [H|(t & seps & rest & -> & Ht & Hsep & Hne & Hr)]; [by apply Hone|].
  assert (t <> []) as Ht'.
  { intros ->. destruct seps as [|c seps]; [done|]. inversion_clear Hsep as [|?? Hc].
    by rewrite (Hh c) in Hc. }
  assert (rest <> []) as Hrest.
  { intros ->. destruct seps as [|c seps _] using rev_ind; [done|].
    apply Forall_app in Hsep as [_ Hc]. apply Forall_inv in Hc.
    rewrite (Hl c) in Hc; [done|]. by rewrite app_nil_r, (assoc_L (++)), last_snoc. }
  apply Hnext; [done..| |].
  - split; [done|]. intros c Hc. apply Hl. by rewrite !last_app, Hc.
  - eapply IH; [|reflexivity|done|].
    + rewrite !length_app. destruct t; [done|]. cbn. lia.
    + split; [done|]. intros c Hc. apply Hl. by rewrite !last_app, Hc.
Qed.

Lemma words_one p t r : t <> [] -> no_separator p t -> separators p r -> words p (t ++ r) = [t].
Proof. intros Hne Ht Hr. rewrite <- (app_nil_r r). rewrite words_next by (try done; by right). done. Qed.

Lemma tokens_bare p s : s <> [] -> bare p s -> tokens_from p [] false s = words p s.
Proof.
  revert s. apply bare_ind.
  - intros t Hne Ht. transitivity [t]; [by apply (@split_token reference_strings)|].
    symmetry. rewrite <- (app_nil_r t) at 1. by apply words_one.
  - intros t seps rest Hne Ht Hsep Hs Hr Hb IH.
    rewrite words_next by (try done; by left). rewrite <- IH.
    apply (@split_next reference_strings); try done. apply Hb.
Qed.

Lemma words_trailing p s r : s <> [] -> bare p s -> separators p r -> words p (s ++ r) = words p s.
Proof.
  intros Hs Hb Hr. revert s Hs Hb. apply bare_ind.
  - intros t Hne Ht. rewrite words_one by done. rewrite <- (app_nil_r t) at 2. by rewrite words_one.
  - intros t seps rest Hne Ht Hsep Hs Hrest Hb IH. rewrite <- !app_assoc.
    rewrite !words_next by (try done; by left). by rewrite IH.
Qed.

(** Trimming and splitting a string gives its words, or one empty token. *)
Lemma split_trim {boost : BoostStrings} p s :
  split_compress p (trim_if p s) = match words p s with [] => [[]] | w => w end.
Proof.
  rewrite split_reference, trim_if_reference.
  destruct (trim_decompose p s) as (l & r & Hs & Hl & Hr & Hb).
  set (m := trim_reference p s) in *. rewrite Hs, words_leading by done.
  destruct (decide (m = [])) as [->|Hm].
  - cbn [app]. rewrite <- (app_nil_r r), words_leading by done. done.
  - rewrite words_trailing, tokens_bare by done. destruct (words p m) eqn:E; [|done].
    rewrite <- tokens_bare in E by done. destruct m as [|c m]; [done|].
    exfalso. revert E. clear. generalize (@nil ascii) at 1, false. generalize (c :: m). clear.
    intros s. induction s as [|c s IH]; intros cur f; cbn; [done|].
    destruct (p c); [destruct f; [apply IH|done]|apply IH].
Qed.
