(* ===== verification/HttpTypes.v ===== *)
(** * The data of [http_parser.h] / [http_parser.cpp]

    The enumerations, the [http_parser] struct with the widths of its bit
    fields, the character tables and the character-class macros (strict mode,
    the default of [HTTP_PARSER_STRICT]). *)

From stdpp Require Import options.
From S2P Require Import Prelude.

(** ** Enumerations *)

(** [enum http_method] ([HTTP_METHOD_MAP]). *)
Inductive http_method :=
| HTTP_DELETE | HTTP_GET | HTTP_HEAD | HTTP_POST | HTTP_PUT
| HTTP_CONNECT | HTTP_OPTIONS | HTTP_TRACE
| HTTP_COPY | HTTP_LOCK | HTTP_MKCOL | HTTP_MOVE | HTTP_PROPFIND
| HTTP_PROPPATCH | HTTP_SEARCH | HTTP_UNLOCK
| HTTP_REPORT | HTTP_MKACTIVITY | HTTP_CHECKOUT | HTTP_MERGE
| HTTP_MSEARCH | HTTP_NOTIFY | HTTP_SUBSCRIBE | HTTP_UNSUBSCRIBE
| HTTP_PATCH | HTTP_PURGE
| HTTP_MKCALENDAR.

(** [method_strings], indexed by the enumeration. *)
Definition method_strings (m : http_method) : bytes :=
  b match m with
    | HTTP_DELETE => "DELETE" | HTTP_GET => "GET" | HTTP_HEAD => "HEAD"
    | HTTP_POST => "POST" | HTTP_PUT => "PUT" | HTTP_CONNECT => "CONNECT"
    | HTTP_OPTIONS => "OPTIONS" | HTTP_TRACE => "TRACE" | HTTP_COPY => "COPY"
    | HTTP_LOCK => "LOCK" | HTTP_MKCOL => "MKCOL" | HTTP_MOVE => "MOVE"
    | HTTP_PROPFIND => "PROPFIND" | HTTP_PROPPATCH => "PROPPATCH"
    | HTTP_SEARCH => "SEARCH" | HTTP_UNLOCK => "UNLOCK" | HTTP_REPORT => "REPORT"
    | HTTP_MKACTIVITY => "MKACTIVITY" | HTTP_CHECKOUT => "CHECKOUT"
    | HTTP_MERGE => "MERGE" | HTTP_MSEARCH => "M-SEARCH" | HTTP_NOTIFY => "NOTIFY"
    | HTTP_SUBSCRIBE => "SUBSCRIBE" | HTTP_UNSUBSCRIBE => "UNSUBSCRIBE"
    | HTTP_PATCH => "PATCH" | HTTP_PURGE => "PURGE" | HTTP_MKCALENDAR => "MKCALENDAR"
    end.
Arguments method_strings : simpl never.

Inductive http_parser_type := HTTP_REQUEST | HTTP_RESPONSE | HTTP_BOTH.

(** [enum flags]. *)
Definition F_CHUNKED : Z := Z.shiftl 1 0.
Definition F_CONNECTION_KEEP_ALIVE : Z := Z.shiftl 1 1.
Definition F_CONNECTION_CLOSE : Z := Z.shiftl 1 2.
Definition F_TRAILING : Z := Z.shiftl 1 3.
Definition F_UPGRADE : Z := Z.shiftl 1 4.
Definition F_SKIPBODY : Z := Z.shiftl 1 5.

(** The C test [flags & F]. *)
Definition has_flag (flags f : Z) : bool := negb (Z.land flags f =? 0).

(** [enum http_errno] ([HTTP_ERRNO_MAP]). *)
Inductive http_errno :=
| HPE_OK
| HPE_CB_message_begin | HPE_CB_url | HPE_CB_header_field | HPE_CB_header_value
| HPE_CB_headers_complete | HPE_CB_body | HPE_CB_message_complete | HPE_CB_status
| HPE_INVALID_EOF_STATE | HPE_HEADER_OVERFLOW | HPE_CLOSED_CONNECTION
| HPE_INVALID_VERSION | HPE_INVALID_STATUS | HPE_INVALID_METHOD | HPE_INVALID_URL
| HPE_INVALID_HOST | HPE_INVALID_PORT | HPE_INVALID_PATH | HPE_INVALID_QUERY_STRING
| HPE_INVALID_FRAGMENT | HPE_LF_EXPECTED | HPE_INVALID_HEADER_TOKEN
| HPE_INVALID_CONTENT_LENGTH | HPE_INVALID_CHUNK_SIZE | HPE_INVALID_CONSTANT
| HPE_INVALID_INTERNAL_STATE | HPE_STRICT | HPE_PAUSED | HPE_UNKNOWN.

(** [enum state], in the order of the source. *)
Inductive state :=
| s_dead
| s_start_req_or_res | s_res_or_resp_H | s_start_res
| s_res_H | s_res_HT | s_res_HTT | s_res_HTTP
| s_res_first_http_major | s_res_http_major | s_res_first_http_minor | s_res_http_minor
| s_res_first_status_code | s_res_status_code | s_res_status_start | s_res_status
| s_res_line_almost_done
| s_start_req
| s_req_method | s_req_spaces_before_url | s_req_schema | s_req_schema_slash
| s_req_schema_slash_slash | s_req_server_start | s_req_server | s_req_server_with_at
| s_req_path | s_req_query_string_start | s_req_query_string | s_req_fragment_start
| s_req_fragment | s_req_http_start | s_req_http_H | s_req_http_HT | s_req_http_HTT
| s_req_http_HTTP | s_req_first_http_major | s_req_http_major | s_req_first_http_minor
| s_req_http_minor | s_req_line_almost_done
| s_header_field_start | s_header_field | s_header_value_discard_ws
| s_header_value_discard_ws_almost_done | s_header_value_discard_lws
| s_header_value_start | s_header_value | s_header_value_lws
| s_header_almost_done
| s_chunk_size_start | s_chunk_size | s_chunk_parameters | s_chunk_size_almost_done
| s_headers_almost_done | s_headers_done
| s_chunk_data | s_chunk_data_almost_done | s_chunk_data_done
| s_body_identity | s_body_identity_eof
| s_message_done.

(** [PARSING_HEADER(state)] is [state <= s_headers_done]: the states the
    enumeration lists after [s_headers_done] are the body states. *)
Definition PARSING_HEADER (s : state) : bool :=
  match s with
  | s_chunk_data | s_chunk_data_almost_done | s_chunk_data_done
  | s_body_identity | s_body_identity_eof | s_message_done => false
  | _ => true
  end.

(** [enum header_states]. *)
Inductive header_states :=
| h_general | h_C | h_CO | h_CON
| h_matching_connection | h_matching_proxy_connection | h_matching_content_length
| h_matching_transfer_encoding | h_matching_upgrade
| h_connection | h_content_length | h_transfer_encoding | h_upgrade
| h_matching_transfer_encoding_chunked | h_matching_connection_keep_alive
| h_matching_connection_close
| h_transfer_encoding_chunked | h_connection_keep_alive | h_connection_close.

(** [enum http_host_state]. *)
Inductive http_host_state :=
| s_http_host_dead | s_http_userinfo_start | s_http_userinfo | s_http_host_start
| s_http_host_v6_start | s_http_host | s_http_host_v6 | s_http_host_v6_end
| s_http_host_port_start | s_http_host_port.

#[export] Instance http_method_eq_dec : EqDecision http_method.
Proof. solve_decision. Defined.
#[export] Instance http_parser_type_eq_dec : EqDecision http_parser_type.
Proof. solve_decision. Defined.
#[export] Instance http_errno_eq_dec : EqDecision http_errno.
Proof. solve_decision. Defined.
#[export] Instance state_eq_dec : EqDecision state.
Proof. solve_decision. Defined.
#[export] Instance header_states_eq_dec : EqDecision header_states.
Proof. solve_decision. Defined.
#[export] Instance http_host_state_eq_dec : EqDecision http_host_state.
Proof. solve_decision. Defined.

(** The C comparison of two values of an enumeration. *)
Definition enum_eqb {A} `{EqDecision A} (x y : A) : bool := bool_decide (x = y).
Infix "=e" := enum_eqb (at level 70, no associativity) : byte_scope.

Lemma enum_eqb_refl {A} `{EqDecision A} (x : A) : (x =e x) = true.
Proof. by apply bool_decide_eq_true. Qed.

Lemma enum_eqb_eq {A} `{EqDecision A} (x y : A) : (x =e y) = true -> x = y.
Proof. apply bool_decide_eq_true. Qed.

Lemma enum_eqb_neq {A} `{EqDecision A} (x y : A) : (x =e y) = false -> x <> y.
Proof. apply bool_decide_eq_false. Qed.

(** ** The parser struct *)

(** [struct http_parser]; [data] is the callbacks' own state and is passed
    beside it. *)
Record http_parser := mk_parser {
  p_type : http_parser_type;      (* : 2 *)
  p_flags : Z;                    (* : 6 *)
  p_state : state;                (* : 8 *)
  p_header_state : header_states; (* : 8 *)
  p_index : Z;                    (* : 8 *)
  p_nread : Z;                    (* uint32_t *)
  p_content_length : Z;           (* uint64_t *)
  p_http_major : Z;               (* unsigned short *)
  p_http_minor : Z;               (* unsigned short *)
  p_status_code : Z;              (* : 16 *)
  p_method : http_method;         (* : 8 *)
  p_http_errno : http_errno;      (* : 7 *)
  p_upgrade : bool                (* : 1 *)
}.

(** Assignments to the fields, truncated to the field's width. *)
Definition set_type (v : http_parser_type) (r : http_parser) : http_parser :=
  mk_parser v (p_flags r) (p_state r) (p_header_state r) (p_index r) (p_nread r) (p_content_length r) (p_http_major r) (p_http_minor r) (p_status_code r) (p_method r) (p_http_errno r) (p_upgrade r).
Definition set_flags (v : Z) (r : http_parser) : http_parser :=
  mk_parser (p_type r) (wrap 6 v) (p_state r) (p_header_state r) (p_index r) (p_nread r) (p_content_length r) (p_http_major r) (p_http_minor r) (p_status_code r) (p_method r) (p_http_errno r) (p_upgrade r).
Definition set_state (v : state) (r : http_parser) : http_parser :=
  mk_parser (p_type r) (p_flags r) v (p_header_state r) (p_index r) (p_nread r) (p_content_length r) (p_http_major r) (p_http_minor r) (p_status_code r) (p_method r) (p_http_errno r) (p_upgrade r).
Definition set_header_state (v : header_states) (r : http_parser) : http_parser :=
  mk_parser (p_type r) (p_flags r) (p_state r) v (p_index r) (p_nread r) (p_content_length r) (p_http_major r) (p_http_minor r) (p_status_code r) (p_method r) (p_http_errno r) (p_upgrade r).
Definition set_index (v : Z) (r : http_parser) : http_parser :=
  mk_parser (p_type r) (p_flags r) (p_state r) (p_header_state r) (w8 v) (p_nread r) (p_content_length r) (p_http_major r) (p_http_minor r) (p_status_code r) (p_method r) (p_http_errno r) (p_upgrade r).
Definition set_nread (v : Z) (r : http_parser) : http_parser :=
  mk_parser (p_type r) (p_flags r) (p_state r) (p_header_state r) (p_index r) (w32 v) (p_content_length r) (p_http_major r) (p_http_minor r) (p_status_code r) (p_method r) (p_http_errno r) (p_upgrade r).
Definition set_content_length (v : Z) (r : http_parser) : http_parser :=
  mk_parser (p_type r) (p_flags r) (p_state r) (p_header_state r) (p_index r) (p_nread r) (w64 v) (p_http_major r) (p_http_minor r) (p_status_code r) (p_method r) (p_http_errno r) (p_upgrade r).
Definition set_http_major (v : Z) (r : http_parser) : http_parser :=
  mk_parser (p_type r) (p_flags r) (p_state r) (p_header_state r) (p_index r) (p_nread r) (p_content_length r) (w16 v) (p_http_minor r) (p_status_code r) (p_method r) (p_http_errno r) (p_upgrade r).
Definition set_http_minor (v : Z) (r : http_parser) : http_parser :=
  mk_parser (p_type r) (p_flags r) (p_state r) (p_header_state r) (p_index r) (p_nread r) (p_content_length r) (p_http_major r) (w16 v) (p_status_code r) (p_method r) (p_http_errno r) (p_upgrade r).
Definition set_status_code (v : Z) (r : http_parser) : http_parser :=
  mk_parser (p_type r) (p_flags r) (p_state r) (p_header_state r) (p_index r) (p_nread r) (p_content_length r) (p_http_major r) (p_http_minor r) (w16 v) (p_method r) (p_http_errno r) (p_upgrade r).
Definition set_method (v : http_method) (r : http_parser) : http_parser :=
  mk_parser (p_type r) (p_flags r) (p_state r) (p_header_state r) (p_index r) (p_nread r) (p_content_length r) (p_http_major r) (p_http_minor r) (p_status_code r) v (p_http_errno r) (p_upgrade r).
Definition set_http_errno (v : http_errno) (r : http_parser) : http_parser :=
  mk_parser (p_type r) (p_flags r) (p_state r) (p_header_state r) (p_index r) (p_nread r) (p_content_length r) (p_http_major r) (p_http_minor r) (p_status_code r) (p_method r) v (p_upgrade r).
Definition set_upgrade (v : bool) (r : http_parser) : http_parser :=
  mk_parser (p_type r) (p_flags r) (p_state r) (p_header_state r) (p_index r) (p_nread r) (p_content_length r) (p_http_major r) (p_http_minor r) (p_status_code r) (p_method r) (p_http_errno r) v.

Definition ULLONG_MAX : Z := 2 ^ 64 - 1.
Definition HTTP_MAX_HEADER_SIZE : Z := 80 * 1024.

(** ** Character tables *)

(** [tokens[256]]: the token characters of RFC 2616, lower-cased.  The
    initialiser lists the first 128 entries; C zero-fills the others. *)
Definition tokens : bytes :=
  let z := NUL in
  [z; z; z; z; z; z; z; z;
   z; z; z; z; z; z; z; z;
   z; z; z; z; z; z; z; z;
   z; z; z; z; z; z; z; z;
   z; "!"; z; "#"; "$"; "%"; "&"; "'";
   z; z; "*"; "+"; z; "-"; "."; z;
   "0"; "1"; "2"; "3"; "4"; "5"; "6"; "7";
   "8"; "9"; z; z; z; z; z; z;
   z; "a"; "b"; "c"; "d"; "e"; "f"; "g";
   "h"; "i"; "j"; "k"; "l"; "m"; "n"; "o";
   "p"; "q"; "r"; "s"; "t"; "u"; "v"; "w";
   "x"; "y"; "z"; z; z; z; "^"; "_";
   "`"; "a"; "b"; "c"; "d"; "e"; "f"; "g";
   "h"; "i"; "j"; "k"; "l"; "m"; "n"; "o";
   "p"; "q"; "r"; "s"; "t"; "u"; "v"; "w";
   "x"; "y"; "z"; z; "|"; z; "~"; z]%char.

(** [unhex[256]]: the initialiser lists 128 entries, so the upper half is 0. *)
Definition unhex_init : list Z :=
  [-1;-1;-1;-1;-1;-1;-1;-1;-1;-1;-1;-1;-1;-1;-1;-1;
   -1;-1;-1;-1;-1;-1;-1;-1;-1;-1;-1;-1;-1;-1;-1;-1;
   -1;-1;-1;-1;-1;-1;-1;-1;-1;-1;-1;-1;-1;-1;-1;-1;
    0; 1; 2; 3; 4; 5; 6; 7; 8; 9;-1;-1;-1;-1;-1;-1;
   -1;10;11;12;13;14;15;-1;-1;-1;-1;-1;-1;-1;-1;-1;
   -1;-1;-1;-1;-1;-1;-1;-1;-1;-1;-1;-1;-1;-1;-1;-1;
   -1;10;11;12;13;14;15;-1;-1;-1;-1;-1;-1;-1;-1;-1;
   -1;-1;-1;-1;-1;-1;-1;-1;-1;-1;-1;-1;-1;-1;-1;-1].

Definition unhex (c : ascii) : Z := nth (Z.to_nat (uc c)) unhex_init 0.

Definition row (l : list Z) : Z := foldr Z.lor 0 l.

(** [normal_url_char[32]] in strict mode ([T(v)] is 0); 16 rows listed, the
    other 16 zero. *)
Definition normal_url_char : list Z :=
  map row
  [ [0;0;0;0;0;0;0;0];
    [0;0;0;0;0;0;0;0];
    [0;0;0;0;0;0;0;0];
    [0;0;0;0;0;0;0;0];
    [0;2;4;0;16;32;64;128];
    [1;2;4;8;16;32;64;128];
    [1;2;4;8;16;32;64;128];
    [1;2;4;8;16;32;64;0];
    [1;2;4;8;16;32;64;128];
    [1;2;4;8;16;32;64;128];
    [1;2;4;8;16;32;64;128];
    [1;2;4;8;16;32;64;128];
    [1;2;4;8;16;32;64;128];
    [1;2;4;8;16;32;64;128];
    [1;2;4;8;16;32;64;128];
    [1;2;4;8;16;32;64;0] ].

(** [BIT_AT(a, i)]. *)
Definition BIT_AT (a : list Z) (i : Z) : bool :=
  negb (Z.land (nth (Z.to_nat (Z.shiftr i 3)) a 0) (Z.shiftl 1 (Z.land i 7)) =? 0).

(** ** Character classes *)

Definition LOWER (c : ascii) : ascii := of_code (Z.lor (uc c) 32).
Definition IS_ALPHA (c : ascii) : bool :=
  (uc "a" <=? uc (LOWER c)) && (uc (LOWER c) <=? uc "z").
Definition IS_NUM (c : ascii) : bool := (sc "0" <=? sc c) && (sc c <=? sc "9").
Definition IS_ALPHANUM (c : ascii) : bool := IS_ALPHA c || IS_NUM c.
Definition IS_HEX (c : ascii) : bool :=
  IS_NUM c || ((uc "a" <=? uc (LOWER c)) && (uc (LOWER c) <=? uc "f")).
Definition IS_MARK (c : ascii) : bool :=
  (c == "-") || (c == "_") || (c == ".") || (c == "!") || (c == "~")
  || (c == "*") || (c == "'") || (c == "(") || (c == ")").
Definition IS_USERINFO_CHAR (c : ascii) : bool :=
  IS_ALPHANUM c || IS_MARK c || (c == "%") || (c == ";") || (c == ":")
  || (c == "&") || (c == "=") || (c == "+") || (c == "$") || (c == ",").
Definition TOKEN (c : ascii) : ascii := nth (Z.to_nat (uc c)) tokens NUL.
Definition IS_URL_CHAR (c : ascii) : bool := BIT_AT normal_url_char (uc c).
Definition IS_HOST_CHAR (c : ascii) : bool :=
  IS_ALPHANUM c || (c == ".") || (c == "-").

(** ** [parse_url_char] *)

(** The byte-by-byte URL automaton; [s_dead] is the error state. *)
Definition parse_url_char (s : state) (ch : ascii) : state :=
  if (ch == SP) || (ch == CR) || (ch == LF) then s_dead
  else if (ch == HT) || (ch == FF) then s_dead
  else
    let server :=
      if ch == "/" then s_req_path
      else if ch == "?" then s_req_query_string_start
      else if ch == "@" then s_req_server_with_at
      else if IS_USERINFO_CHAR ch || (ch == "[") || (ch == "]") then s_req_server
      else s_dead in
    match s with
    | s_req_spaces_before_url =>
        if (ch == "/") || (ch == "*") then s_req_path
        else if IS_ALPHA ch then s_req_schema
        else s_dead
    | s_req_schema =>
        if IS_ALPHA ch then s
        else if ch == ":" then s_req_schema_slash
        else s_dead
    | s_req_schema_slash =>
        if ch == "/" then s_req_schema_slash_slash else s_dead
    | s_req_schema_slash_slash =>
        if ch == "/" then s_req_server_start else s_dead
    | s_req_server_with_at =>
        if ch == "@" then s_dead else server
    | s_req_server_start | s_req_server => server
    | s_req_path =>
        if IS_URL_CHAR ch then s
        else if ch == "?" then s_req_query_string_start
        else if ch == "#" then s_req_fragment_start
        else s_dead
    | s_req_query_string_start | s_req_query_string =>
        if IS_URL_CHAR ch then s_req_query_string
        else if ch == "?" then s_req_query_string
        else if ch == "#" then s_req_fragment_start
        else s_dead
    | s_req_fragment_start =>
        if IS_URL_CHAR ch then s_req_fragment
        else if ch == "?" then s_req_fragment
        else if ch == "#" then s
        else s_dead
    | s_req_fragment =>
        if IS_URL_CHAR ch then s
        else if (ch == "?") || (ch == "#") then s
        else s_dead
    | _ => s_dead
    end.

(** ** Message-level predicates and initialisation *)

(** [http_message_needs_eof]. *)
Definition http_message_needs_eof (p : http_parser) : bool :=
  if p_type p =e HTTP_REQUEST then false
  else if (p_status_code p / 100 =? 1) || (p_status_code p =? 204)
          || (p_status_code p =? 304) || has_flag (p_flags p) F_SKIPBODY then false
  else if has_flag (p_flags p) F_CHUNKED || negb (p_content_length p =? ULLONG_MAX)
  then false
  else true.

(** [http_should_keep_alive]. *)
Definition http_should_keep_alive (p : http_parser) : bool :=
  if (p_http_major p >? 0) && (p_http_minor p >? 0) then
    if has_flag (p_flags p) F_CONNECTION_CLOSE then false
    else negb (http_message_needs_eof p)
  else
    if negb (has_flag (p_flags p) F_CONNECTION_KEEP_ALIVE) then false
    else negb (http_message_needs_eof p).

(** The macros [start_state] and [NEW_MESSAGE()] (strict mode). *)
Definition start_state (p : http_parser) : state :=
  if p_type p =e HTTP_REQUEST then s_start_req else s_start_res.
Definition NEW_MESSAGE (p : http_parser) : state :=
  if http_should_keep_alive p then start_state p else s_dead.

(** [http_parser_init]: [memset] to zero, then type, state and errno. *)
Definition http_parser_init (t : http_parser_type) : http_parser :=
  mk_parser t 0
    (match t with
     | HTTP_REQUEST => s_start_req
     | HTTP_RESPONSE => s_start_res
     | HTTP_BOTH => s_start_req_or_res
     end)
    h_general 0 0 0 0 0 0 HTTP_DELETE HPE_OK false.

(** [http_parser_pause]: [None] is the failing assertion on a parser in an
    error state. *)
Definition http_parser_pause (p : http_parser) (paused : bool) : option http_parser :=
  match p_http_errno p with
  | HPE_OK | HPE_PAUSED =>
      Some (set_http_errno (if paused then HPE_PAUSED else HPE_OK) p)
  | _ => None
  end.

Definition http_body_is_final (p : http_parser) : bool := p_state p =e s_message_done.

Definition http_method_str (m : http_method) : bytes := method_strings m.
