(* ===== verification/HttpUrl.v ===== *)
(** * URL splitting: [http_parser_parse_url] and [http_parse_host]

    Offsets and lengths are the 16-bit fields of [struct http_parser_url].
    The struct is an argument, because the callers pass one that is not
    initialised; a read outside the readable memory [buf] is [None]. *)

From stdpp Require Import options.
From S2P Require Import Prelude HttpTypes.

(** [enum http_parser_url_fields] without [UF_MAX]. *)
Inductive url_field :=
| UF_SCHEMA | UF_HOST | UF_PORT | UF_PATH | UF_QUERY | UF_FRAGMENT | UF_USERINFO.

#[export] Instance url_field_eq_dec : EqDecision url_field.
Proof. solve_decision. Defined.

Definition UF_num (f : url_field) : Z :=
  match f with
  | UF_SCHEMA => 0 | UF_HOST => 1 | UF_PORT => 2 | UF_PATH => 3
  | UF_QUERY => 4 | UF_FRAGMENT => 5 | UF_USERINFO => 6
  end.

Definition UF_bit (f : url_field) : Z := Z.shiftl 1 (UF_num f).

(** [struct http_parser_url]. *)
Record http_parser_url := mk_url {
  field_set : Z;                     (* uint16_t *)
  u_port : Z;                        (* uint16_t *)
  field_data : url_field -> Z * Z    (* off, len: uint16_t *)
}.

Definition off (u : http_parser_url) (f : url_field) : Z := fst (field_data u f).
Definition len (u : http_parser_url) (f : url_field) : Z := snd (field_data u f).
Definition is_field_set (u : http_parser_url) (f : url_field) : bool :=
  has_flag (field_set u) (UF_bit f).

Definition set_data (f : url_field) (o l : Z) (u : http_parser_url) : http_parser_url :=
  mk_url (field_set u) (u_port u)
    (fun g => if g =e f then (w16 o, w16 l) else field_data u g).
Definition set_field (f : url_field) (u : http_parser_url) : http_parser_url :=
  mk_url (w16 (Z.lor (field_set u) (UF_bit f))) (u_port u) (field_data u).
Definition incr_len (f : url_field) (u : http_parser_url) : http_parser_url :=
  set_data f (off u f) (len u f + 1) u.
Definition set_url_port (v : Z) (u : http_parser_url) : http_parser_url :=
  mk_url (field_set u) (w16 v) (field_data u).

(** ** [http_parse_host_char] *)

Definition http_parse_host_char (s : http_host_state) (ch : ascii) : http_host_state :=
  let host_v6_end := if ch == ":" then s_http_host_port_start else s_http_host_dead in
  let host_v6_start :=
    if IS_HEX ch || (ch == ":") || (ch == ".") then s_http_host_v6 else s_http_host_dead in
  match s with
  | s_http_userinfo | s_http_userinfo_start =>
      if ch == "@" then s_http_host_start
      else if IS_USERINFO_CHAR ch then s_http_userinfo
      else s_http_host_dead
  | s_http_host_start =>
      if ch == "[" then s_http_host_v6_start
      else if IS_HOST_CHAR ch then s_http_host
      else s_http_host_dead
  | s_http_host => if IS_HOST_CHAR ch then s_http_host else host_v6_end
  | s_http_host_v6_end => host_v6_end
  | s_http_host_v6 => if ch == "]" then s_http_host_v6_end else host_v6_start
  | s_http_host_v6_start => host_v6_start
  | s_http_host_port | s_http_host_port_start =>
      if IS_NUM ch then s_http_host_port else s_http_host_dead
  | _ => s_http_host_dead
  end.

(** ** [http_parse_host] *)

(** The [switch (new_s)] of the loop body, at offset [i]. *)
Definition host_field (s new_s : http_host_state) (i : Z) (u : http_parser_url)
  : http_parser_url :=
  match new_s with
  | s_http_host | s_http_host_v6 =>
      let u := if negb (s =e new_s) then set_data UF_HOST i (len u UF_HOST) u else u in
      incr_len UF_HOST u
  | s_http_host_port =>
      let u := if negb (s =e new_s) then set_field UF_PORT (set_data UF_PORT i 0 u) else u in
      incr_len UF_PORT u
  | s_http_userinfo =>
      let u := if negb (s =e new_s) then set_field UF_USERINFO (set_data UF_USERINFO i 0 u)
               else u in
      incr_len UF_USERINFO u
  | _ => u
  end.

(** The end states that mean a truncated authority. *)
Definition host_incomplete (s : http_host_state) : bool :=
  match s with
  | s_http_host_start | s_http_host_v6_start | s_http_host_v6
  | s_http_host_port_start | s_http_userinfo | s_http_userinfo_start => true
  | _ => false
  end.

(** [n] bytes from offset [i]; [None] is a read outside [buf]. *)
Fixpoint host_loop (buf : bytes) (n : nat) (i : Z) (s : http_host_state) (u : http_parser_url)
  : option (Z * http_parser_url) :=
  match n with
  | O => Some (if host_incomplete s then 1 else 0, u)
  | S n =>
      match buf !! Z.to_nat i with
      | None => None
      | Some ch =>
          let new_s := http_parse_host_char s ch in
          if new_s =e s_http_host_dead then Some (1, u)
          else host_loop buf n (i + 1) new_s (host_field s new_s i u)
      end
  end.

Definition http_parse_host (buf : bytes) (u : http_parser_url) (found_at : bool)
  : option (Z * http_parser_url) :=
  let n := len u UF_HOST in
  let u := set_data UF_HOST (off u UF_HOST) 0 u in
  host_loop buf (Z.to_nat n) (off u UF_HOST)
    (if found_at then s_http_userinfo_start else s_http_host_start) u.

(** ** [http_parser_parse_url] *)

(** The field a URL state belongs to: [inl true] fails, [inl false] is a
    delimiter to skip, [inr] a field. *)
Definition url_state_field (s : state) : bool + url_field :=
  match s with
  | s_req_schema_slash | s_req_schema_slash_slash | s_req_server_start
  | s_req_query_string_start | s_req_fragment_start => inl false
  | s_req_schema => inr UF_SCHEMA
  | s_req_server_with_at | s_req_server => inr UF_HOST
  | s_req_path => inr UF_PATH
  | s_req_query_string => inr UF_QUERY
  | s_req_fragment => inr UF_FRAGMENT
  | _ => inl true
  end.

(** The loop over the bytes [rest] from offset [i]; the result is [true] on
    [return 1]. *)
Fixpoint url_loop (rest : bytes) (i : Z) (s : state) (old_uf : option url_field)
    (found_at : bool) (u : http_parser_url) : bool * bool * http_parser_url :=
  match rest with
  | [] => (false, found_at, u)
  | ch :: rest =>
      let s := parse_url_char s ch in
      match url_state_field s with
      | inl true => (true, found_at, u)
      | inl false => url_loop rest (i + 1) s old_uf found_at u
      | inr uf =>
          let found_at := found_at || (s =e s_req_server_with_at) in
          if bool_decide (old_uf = Some uf)
          then url_loop rest (i + 1) s old_uf found_at (incr_len uf u)
          else url_loop rest (i + 1) s (Some uf) found_at (set_field uf (set_data uf i 1 u))
      end
  end.

(** [strtoul(s, NULL, 10)] on a string that starts with a digit: the value of
    the leading digits, saturated; [None] if the memory ends in the number. *)
Definition ULONG_MAX : Z := 2 ^ 64 - 1.
Fixpoint strtoul (acc : Z) (s : bytes) : option Z :=
  match s with
  | [] => None
  | c :: s =>
      if IS_NUM c then strtoul (Z.min ULONG_MAX (acc * 10 + (sc c - sc "0"))) s
      else Some acc
  end.

Definition http_parser_parse_url (buf : bytes) (buflen : nat) (is_connect : bool)
    (u : http_parser_url) : option (Z * http_parser_url) :=
  let u := mk_url 0 0 (field_data u) in
  let '(failed, found_at, u) :=
    url_loop (take buflen buf) 0
      (if is_connect then s_req_server_start else s_req_spaces_before_url) None false u in
  if (failed : bool) then Some (1, u)
  else
    let after_host (u : http_parser_url) :=
      if is_connect && negb (field_set u =? Z.lor (UF_bit UF_HOST) (UF_bit UF_PORT))
      then Some (1, u)
      else if is_field_set u UF_PORT then
        match strtoul 0 (drop (Z.to_nat (off u UF_PORT)) buf) with
        | None => None
        | Some v => if v >? 65535 then Some (1, u) else Some (0, set_url_port v u)
        end
      else Some (0, u) in
    if has_flag (field_set u) (Z.lor (UF_bit UF_SCHEMA) (UF_bit UF_HOST)) then
      match http_parse_host buf u found_at with
      | None => None
      | Some (r, u) => if negb (r =? 0) then Some (1, u) else after_host u
      end
    else after_host u.

(** The bytes of a field. *)
Definition url_field_bytes (buf : bytes) (u : http_parser_url) (f : url_field) : bytes :=
  take (Z.to_nat (len u f)) (drop (Z.to_nat (off u f)) buf).

(** ** Origin-form targets *)

Definition path_char (c : ascii) : Prop := IS_URL_CHAR c = true.
Definition query_char (c : ascii) : Prop := IS_URL_CHAR c = true \/ c = "?"%char.

Lemma url_char_stays st c :
  path_char c -> st = s_req_path \/ st = s_req_query_string_start \/ st = s_req_query_string ->
  parse_url_char st c = match st with s_req_path => s_req_path | _ => s_req_query_string end.
Proof.
  unfold path_char. intros Hc Hst.
  pose proof (forall_bytes (fun c => negb (IS_URL_CHAR c)
    || (negb ((c == SP) || (c == CR) || (c == LF)) && negb ((c == HT) || (c == FF))))
    ltac:(vm_compute; reflexivity) c) as H. cbv beta in H. rewrite Hc in H. cbn [negb orb] in H.
  apply andb_true_iff in H as [H1%negb_true_iff H2%negb_true_iff].
  unfold parse_url_char. rewrite H1, H2.
  destruct Hst as [->|[->| ->]]; cbv beta iota zeta; by rewrite Hc.
Qed.
Lemma query_char_stays st c :
  query_char c -> st = s_req_query_string_start \/ st = s_req_query_string ->
  parse_url_char st c = s_req_query_string.
Proof.
  intros [Hc| ->] Hst; [rewrite url_char_stays by tauto|]; by destruct Hst as [-> | ->].
Qed.

(** The request target "path" or "path?query" of the client's requests. *)
Definition target (path query : bytes) : bytes :=
  path ++ match query with [] => [] | q => b "?" ++ q end.

(** [path] starts with a slash or is an asterisk form, and [path] and [query]
    are made of the characters the parser accepts there. *)
Record target_ok (path query : bytes) : Prop := {
  path_start : exists c p, path = c :: p /\ (c = "/"%char \/ c = "*"%char) /\ Forall path_char p;
  query_chars : Forall query_char query
}.

(** A run of bytes of one field. *)
Lemma url_loop_run uf st w rest i fa u :
  Forall (fun c => parse_url_char st c = st) w -> url_state_field st = inr uf ->
  (st =e s_req_server_with_at) = false ->
  0 <= off u uf < 65536 -> 0 <= len u uf -> len u uf + Z.of_nat (length w) < 65536 ->
  exists u', url_loop (w ++ rest) i st (Some uf) fa u
             = url_loop rest (i + Z.of_nat (length w)) st (Some uf) fa u'
    /\ field_set u' = field_set u /\ off u' uf = off u uf
    /\ len u' uf = len u uf + Z.of_nat (length w)
    /\ (forall g, g <> uf -> field_data u' g = field_data u g).
Proof.
  intros Hw Hst Hat. revert i u. induction w as [|c w IH]; intros i u Ho Hl0 Hl.
  { exists u. cbn [app length]. change (Z.of_nat 0) with 0. rewrite !Z.add_0_r. by split_and!. }
  apply Forall_cons in Hw as [Hc Hw]. cbn [length] in Hl.
  assert (off (incr_len uf u) uf = off u uf /\ len (incr_len uf u) uf = len u uf + 1) as [Eo El].
  { split; unfold off, len in *; cbn [incr_len set_data field_data]; rewrite enum_eqb_refl; cbn [fst snd];
      by apply wrap_small; change (2 ^ 16) with 65536; lia. }
  destruct (IH Hw (i + 1) (incr_len uf u)) as (u' & E & H1 & H2 & H3 & H4); [lia..|].
  exists u'. split_and!.
  - cbn [app url_loop]. rewrite Hc, Hst, Hat, orb_false_r. rewrite bool_decide_true by done.
    rewrite E. f_equal. cbn [length]. lia.
  - done.
  - lia.
  - cbn [length]. lia.
  - intros g Hg. rewrite H4 by done. unfold incr_len, set_data. cbn.
    replace (g =e uf) with false; [done|]. symmetry. by apply bool_decide_eq_false.
Qed.

(** A byte that starts a new field. *)
Lemma url_loop_new uf st st' c rest i old u :
  parse_url_char st c = st' -> url_state_field st' = inr uf -> (st' =e s_req_server_with_at) = false ->
  old <> Some uf ->
  url_loop (c :: rest) i st old false u
  = url_loop rest (i + 1) st' (Some uf) false (set_field uf (set_data uf i 1 u)).
Proof.
  intros Hc Hst Hat Hold. cbn [url_loop]. rewrite Hc, Hst, Hat. cbn [orb].
  by rewrite bool_decide_false.
Qed.

Lemma url_loop_skip st st' c rest i old fa u :
  parse_url_char st c = st' -> url_state_field st' = inl false ->
  url_loop (c :: rest) i st old fa u = url_loop rest (i + 1) st' old fa u.
Proof. intros Hc Hst. cbn [url_loop]. by rewrite Hc, Hst. Qed.

Lemma set_field_data uf i u :
  0 <= i < 65536 ->
  off (set_field uf (set_data uf i 1 u)) uf = i /\ len (set_field uf (set_data uf i 1 u)) uf = 1
  /\ (forall g, g <> uf -> field_data (set_field uf (set_data uf i 1 u)) g = field_data u g).
Proof.
  intros Hi. unfold off, len, set_field, set_data. cbn [field_data].
  rewrite enum_eqb_refl. cbn [fst snd]. rewrite wrap_small by (change (2 ^ 16) with 65536; lia).
  split_and!; [done..|]. intros g Hg. replace (g =e uf) with false; [done|].
  symmetry. by apply bool_decide_eq_false.
Qed.

Lemma path_chars_stay w : Forall path_char w -> Forall (fun c => parse_url_char s_req_path c = s_req_path) w.
Proof. intros H. eapply Forall_impl; [exact H|]. intros c Hc. by rewrite url_char_stays by auto. Qed.

Lemma query_chars_stay w :
  Forall query_char w -> Forall (fun c => parse_url_char s_req_query_string c = s_req_query_string) w.
Proof. intros H. eapply Forall_impl; [exact H|]. intros c Hc. by apply query_char_stays; auto. Qed.

(** What the struct holds after parsing "path" or "path?query". *)
Record splits (u : http_parser_url) (path query : bytes) : Prop := {
  splits_set : field_set u = match query with [] => 8 | _ => 24 end;
  splits_path : off u UF_PATH = 0 /\ len u UF_PATH = Z.of_nat (length path);
  splits_query : query <> [] -> off u UF_QUERY = Z.of_nat (length path) + 1
                                /\ len u UF_QUERY = Z.of_nat (length query)
}.

Lemma url_loop_target path query u :
  target_ok path query -> Z.of_nat (length (target path query)) < 65536 ->
  exists u', url_loop (target path query) 0 s_req_spaces_before_url None false (mk_url 0 0 (field_data u))
             = (false, false, u') /\ splits u' path query.
Proof.
  intros [(c & p & -> & Hc & Hp) Hq] Hl. unfold target in *.
  rewrite length_app in Hl. cbn [length] in Hl. cbn [app].
  rewrite (url_loop_new UF_PATH _ s_req_path); [|by destruct Hc as [-> | ->]|done..].
  destruct (set_field_data UF_PATH 0 (mk_url 0 0 (field_data u)) ltac:(lia)) as (H1 & H2 & H3).
  set (u1 := set_field UF_PATH _) in *.
  destruct (url_loop_run UF_PATH s_req_path p (match query with [] => [] | q => b "?" ++ q end)
    (0 + 1) false u1) as (u2 & E & F1 & F2 & F3 & F4);
    [by apply path_chars_stay|done|done|lia|lia|lia|].
  rewrite E. clear E. destruct query as [|c' q].
  - exists u2. split; [done|]. split; [by rewrite F1|cbn [length]; lia|done].
  - apply Forall_cons in Hq as [Hc' Hq]. cbn [length] in Hl. change (length (b "?" ++ c' :: q)) with (S (S (length q))) in Hl.
    cbn [b String.list_ascii_of_string app].
    rewrite (url_loop_skip _ s_req_query_string_start) by done.
    rewrite (url_loop_new UF_QUERY _ s_req_query_string); [|by apply query_char_stays; auto|done..].
    set (i := 0 + 1 + Z.of_nat (length p) + 1) in *.
    destruct (set_field_data UF_QUERY i u2 ltac:(lia)) as (G1 & G2 & G3).
    set (u3 := set_field UF_QUERY _) in *.
    destruct (url_loop_run UF_QUERY s_req_query_string q [] (i + 1) false u3)
      as (u4 & E & I1 & I2 & I3 & I4); [by apply query_chars_stay|done|done|lia|lia|lia|].
    rewrite app_nil_r in E. rewrite E. exists u4. split; [done|]. split.
    + rewrite I1. subst u3. cbn [field_set set_field set_data]. by rewrite F1.
    + unfold off, len in *. rewrite I4, G3 by done. cbn [length]. lia.
    + intros _. cbn [length]. lia.
Qed.

(** The URL splitter recovers the path and the query the client printed:
    for every target "path?query" of at most 65535 bytes the parse succeeds,
    no host or port is found, and the path (and, when there is one, the query)
    are exactly the client's.  [rest] is whatever follows in memory, [u] the
    contents of the uninitialised struct. *)
Theorem parse_url_splits path query rest u :
  target_ok path query -> Z.of_nat (length (target path query)) < 65536 ->
  exists u', http_parser_parse_url (target path query ++ rest) (length (target path query)) false u
             = Some (0, u')
    /\ is_field_set u' UF_HOST = false /\ is_field_set u' UF_PORT = false
    /\ is_field_set u' UF_PATH = true
    /\ url_field_bytes (target path query) u' UF_PATH = path
    /\ is_field_set u' UF_QUERY = negb (bool_decide (query = []))
    /\ (query <> [] -> url_field_bytes (target path query) u' UF_QUERY = query).
Proof.
  intros Ht Hl. destruct (url_loop_target path query u Ht Hl) as (u' & E & [Hs [Ho Hn] Hq]).
  exists u'. unfold http_parser_parse_url. rewrite take_app_length, E.
  split.
  { unfold is_field_set. rewrite Hs. by destruct query. }
  unfold is_field_set. rewrite Hs. split_and!; try (by destruct query).
  - unfold url_field_bytes. rewrite Ho, Hn. unfold target.
    change (Z.to_nat 0) with 0%nat. rewrite drop_0.
    by rewrite Nat2Z.id, take_app_length.
  - intros Hne. destruct (Hq Hne) as [Hqo Hqn]. unfold url_field_bytes. rewrite Hqo, Hqn.
    unfold target. destruct query as [|c q]; [done|].
    replace (Z.to_nat (Z.of_nat (length path) + 1)) with (length path + 1)%nat by lia.
    rewrite Nat2Z.id, <- drop_drop, drop_app_length. cbn [b String.list_ascii_of_string app drop].
    by apply take_ge.
Qed.
