(* ===== verification/HttpExecute.v ===== *)
(** * [http_parser_execute]

    The 1300-line function of [http_parser.cpp], one definition per [case] of
    its [switch (parser->state)].  It is written in a small monad over the
    parser struct, the local pointers and the callbacks' state; its control
    flow ([goto reexecute_byte], [goto error], [return]) is the [flow] type.

    A pointer into the buffer is the list of bytes from it to the end of the
    buffer: [*p] is the head, [p++] the tail, [p - mark] the difference of the
    two lengths.  A failed [assert] and a read past the end of a string
    constant are the flow [Undefined]. *)

From stdpp Require Import options.
From S2P Require Import Prelude HttpTypes.

(** ** Callbacks and settings *)

(** What a callback does: its return value, whether it pauses the parser with
    [http_parser_pause(parser, 1)], and its own state afterwards. *)
Definition cb_result (D : Type) : Type := (Z * bool * D)%type.
Definition http_cb (D : Type) : Type := http_parser -> D -> cb_result D.
Definition http_data_cb (D : Type) : Type := http_parser -> bytes -> D -> cb_result D.

(** The callbacks that receive data, one per local mark of the function. *)
Inductive data_for := FOR_header_field | FOR_header_value | FOR_url | FOR_body | FOR_status.
Inductive notify_for := FOR_message_begin | FOR_message_complete.

(** [struct http_parser_settings]; [None] is a null function pointer. *)
Record http_parser_settings (D : Type) := mk_settings {
  on_message_begin : option (http_cb D);
  on_url : option (http_data_cb D);
  on_status : option (http_data_cb D);
  on_header_field : option (http_data_cb D);
  on_header_value : option (http_data_cb D);
  on_headers_complete : option (http_cb D);
  on_body : option (http_data_cb D);
  on_message_complete : option (http_cb D)
}.
Arguments mk_settings {D}.
Arguments on_message_begin {D}.
Arguments on_url {D}.
Arguments on_status {D}.
Arguments on_header_field {D}.
Arguments on_header_value {D}.
Arguments on_headers_complete {D}.
Arguments on_body {D}.
Arguments on_message_complete {D}.

Definition data_cb {D} (s : http_parser_settings D) (k : data_for) : option (http_data_cb D) :=
  match k with
  | FOR_header_field => on_header_field s
  | FOR_header_value => on_header_value s
  | FOR_url => on_url s
  | FOR_body => on_body s
  | FOR_status => on_status s
  end.

Definition notify_cb {D} (s : http_parser_settings D) (k : notify_for) : option (http_cb D) :=
  match k with
  | FOR_message_begin => on_message_begin s
  | FOR_message_complete => on_message_complete s
  end.

Definition HPE_CB_data (k : data_for) : http_errno :=
  match k with
  | FOR_header_field => HPE_CB_header_field
  | FOR_header_value => HPE_CB_header_value
  | FOR_url => HPE_CB_url
  | FOR_body => HPE_CB_body
  | FOR_status => HPE_CB_status
  end.

Definition HPE_CB_notify (k : notify_for) : http_errno :=
  match k with
  | FOR_message_begin => HPE_CB_message_begin
  | FOR_message_complete => HPE_CB_message_complete
  end.

(** ** The machine *)

(** The five local marks, null or a pointer. *)
Record marks := mk_marks {
  header_field_mark : option bytes;
  header_value_mark : option bytes;
  url_mark : option bytes;
  body_mark : option bytes;
  status_mark : option bytes
}.

Definition no_marks : marks := mk_marks None None None None None.

Definition get_mark (k : data_for) (m : marks) : option bytes :=
  match k with
  | FOR_header_field => header_field_mark m
  | FOR_header_value => header_value_mark m
  | FOR_url => url_mark m
  | FOR_body => body_mark m
  | FOR_status => status_mark m
  end.

Definition set_mark (k : data_for) (v : option bytes) (m : marks) : marks :=
  match k, m with
  | FOR_header_field, mk_marks _ hv u bd s => mk_marks v hv u bd s
  | FOR_header_value, mk_marks hf _ u bd s => mk_marks hf v u bd s
  | FOR_url, mk_marks hf hv _ bd s => mk_marks hf hv v bd s
  | FOR_body, mk_marks hf hv u _ s => mk_marks hf hv u v s
  | FOR_status, mk_marks hf hv u bd _ => mk_marks hf hv u bd v
  end.

Record mstate (D : Type) := mk_mstate {
  m_parser : http_parser;  (* *parser *)
  m_p : bytes;             (* p *)
  m_marks : marks;
  m_data : D               (* what parser->data points to *)
}.
Arguments mk_mstate {D}.
Arguments m_parser {D}.
Arguments m_p {D}.
Arguments m_marks {D}.
Arguments m_data {D}.

Inductive flow (A : Type) :=
| Normal (a : A)       (* fall through, or [break] out of the switch *)
| Reexecute            (* goto reexecute_byte *)
| Goto_error           (* goto error *)
| Return (q : bytes)   (* return q - data *)
| Undefined            (* failed assertion or out-of-bounds read *)
| Out_of_fuel.
Arguments Normal {A} a.
Arguments Reexecute {A}.
Arguments Goto_error {A}.
Arguments Return {A} q.
Arguments Undefined {A}.
Arguments Out_of_fuel {A}.

Definition exec (D A : Type) : Type := mstate D -> flow A * mstate D.

Definition ret {D A} (a : A) : exec D A := fun s => (Normal a, s).
Definition bind {D A B} (m : exec D A) (k : A -> exec D B) : exec D B :=
  fun s =>
    match m s with
    | (Normal a, s') => k a s'
    | (Reexecute, s') => (Reexecute, s')
    | (Goto_error, s') => (Goto_error, s')
    | (Return q, s') => (Return q, s')
    | (Undefined, s') => (Undefined, s')
    | (Out_of_fuel, s') => (Out_of_fuel, s')
    end.

Declare Scope exec_scope.
Delimit Scope exec_scope with exec.
#[global] Open Scope exec_scope.
Notation "x <- m ;; k" := (bind m (fun x => k))
  (at level 100, m at next level, k at level 200, right associativity) : exec_scope.
Notation "m ;; k" := (bind m (fun _ => k))
  (at level 100, k at level 200, right associativity) : exec_scope.

Section Primitives.
Context {D : Type} (settings : http_parser_settings D).

Definition break : exec D unit := ret tt.
Definition goto_error {A} : exec D A := fun s => (Goto_error, s).
Definition goto_reexecute_byte {A} : exec D A := fun s => (Reexecute, s).
Definition return_ {A} (q : bytes) : exec D A := fun s => (Return q, s).
Definition undefined {A} : exec D A := fun s => (Undefined, s).
Definition assert (c : bool) : exec D unit := if c then ret tt else undefined.

Definition parser_ : exec D http_parser := fun s => (Normal (m_parser s), s).
Definition p_ : exec D bytes := fun s => (Normal (m_p s), s).
Definition modify (f : http_parser -> http_parser) : exec D unit :=
  fun s => (Normal tt, mk_mstate (f (m_parser s)) (m_p s) (m_marks s) (m_data s)).
Definition set_p (q : bytes) : exec D unit :=
  fun s => (Normal tt, mk_mstate (m_parser s) q (m_marks s) (m_data s)).

Definition SET_ERRNO (e : http_errno) : exec D unit := modify (set_http_errno e).
Definition error (e : http_errno) : exec D unit := SET_ERRNO e ;; goto_error.
Definition goto_state (s : state) : exec D unit := modify (set_state s).

(** [MARK(FOR)]: non-destructive if the mark is already set. *)
Definition MARK (k : data_for) : exec D unit :=
  fun s =>
    match get_mark k (m_marks s) with
    | Some _ => (Normal tt, s)
    | None => (Normal tt, mk_mstate (m_parser s) (m_p s)
                            (set_mark k (Some (m_p s)) (m_marks s)) (m_data s))
    end.

(** The parser after a callback: the callback may have paused it, and a
    non-zero return value sets the callback's error. *)
Definition after_cb (e : http_errno) (code : Z) (paused : bool) (p : http_parser) : http_parser :=
  let p := if paused then set_http_errno HPE_PAUSED p else p in
  if code =? 0 then p else set_http_errno e p.

(** [CALLBACK_NOTIFY_(FOR, ER)]; [er] is the pointer whose offset is returned. *)
Definition CALLBACK_NOTIFY_ (k : notify_for) (er : bytes) : exec D unit :=
  p <- parser_ ;;
  assert (p_http_errno p =e HPE_OK) ;;
  match notify_cb settings k with
  | None => ret tt
  | Some cb =>
      fun s =>
        let '(code, paused, d) := cb (m_parser s) (m_data s) in
        let p := after_cb (HPE_CB_notify k) code paused (m_parser s) in
        let s' := mk_mstate p (m_p s) (m_marks s) d in
        if p_http_errno p =e HPE_OK then (Normal tt, s') else (Return er, s')
  end.

Definition CALLBACK_NOTIFY (k : notify_for) : exec D unit :=
  p <- p_ ;; CALLBACK_NOTIFY_ k (tail p).
Definition CALLBACK_NOTIFY_NOADVANCE (k : notify_for) : exec D unit :=
  p <- p_ ;; CALLBACK_NOTIFY_ k p.

(** [CALLBACK_DATA_(FOR, LEN, ER)]; [stop] is the pointer [mark + LEN]. *)
Definition CALLBACK_DATA_ (k : data_for) (stop er : bytes) : exec D unit :=
  p <- parser_ ;;
  assert (p_http_errno p =e HPE_OK) ;;
  fun s =>
    match get_mark k (m_marks s) with
    | None => (Normal tt, s)
    | Some mark =>
        let cleared := set_mark k None (m_marks s) in
        match data_cb settings k with
        | None => (Normal tt, mk_mstate (m_parser s) (m_p s) cleared (m_data s))
        | Some cb =>
            let '(code, paused, d) :=
              cb (m_parser s) (take (length mark - length stop)%nat mark) (m_data s) in
            let p := after_cb (HPE_CB_data k) code paused (m_parser s) in
            if p_http_errno p =e HPE_OK
            then (Normal tt, mk_mstate p (m_p s) cleared d)
            else (Return er, mk_mstate p (m_p s) (m_marks s) d)
        end
    end.

Definition CALLBACK_DATA (k : data_for) : exec D unit :=
  p <- p_ ;; CALLBACK_DATA_ k p (tail p).
Definition CALLBACK_DATA_NOADVANCE (k : data_for) : exec D unit :=
  p <- p_ ;; CALLBACK_DATA_ k p p.

(** [STRICT_CHECK(cond)]. *)
Definition STRICT_CHECK (cond : bool) : exec D unit :=
  if cond then error HPE_STRICT else ret tt.

(** [parser->state = NEW_MESSAGE()]. *)
Definition new_message : exec D unit := p <- parser_ ;; goto_state (NEW_MESSAGE p).

End Primitives.

(** ** The cases of [switch (parser->state)] *)

Section Cases.
Context {D : Type} (settings : http_parser_settings D).

Abbreviation exec := (exec D).
Abbreviation CALLBACK_NOTIFY := (CALLBACK_NOTIFY settings).
Abbreviation CALLBACK_DATA := (CALLBACK_DATA settings).
Abbreviation CALLBACK_DATA_NOADVANCE := (CALLBACK_DATA_NOADVANCE settings).

(** [s[i]] for a C string constant: the terminating NUL is readable. *)
Definition char_at (s : bytes) (i : Z) : exec ascii :=
  if (0 <=? i) && (i <=? Z.of_nat (length s))
  then ret (nth (Z.to_nat i) s NUL)
  else undefined.

Definition case_s_dead (ch : ascii) : exec unit :=
  if (ch == CR) || (ch == LF) then break
  else error HPE_CLOSED_CONNECTION.

Definition case_s_start_req_or_res (ch : ascii) : exec unit :=
  if (ch == CR) || (ch == LF) then break
  else
    modify (set_flags 0) ;;
    modify (set_content_length ULLONG_MAX) ;;
    if ch == "H" then
      goto_state s_res_or_resp_H ;;
      CALLBACK_NOTIFY FOR_message_begin
    else
      modify (set_type HTTP_REQUEST) ;;
      goto_state s_start_req ;;
      goto_reexecute_byte.

Definition case_s_res_or_resp_H (ch : ascii) : exec unit :=
  if ch == "T" then
    modify (set_type HTTP_RESPONSE) ;;
    goto_state s_res_HT
  else if ch != "E" then error HPE_INVALID_CONSTANT
  else
    modify (set_type HTTP_REQUEST) ;;
    modify (set_method HTTP_HEAD) ;;
    modify (set_index 2) ;;
    goto_state s_req_method.

Definition case_s_start_res (ch : ascii) : exec unit :=
  modify (set_flags 0) ;;
  modify (set_content_length ULLONG_MAX) ;;
  (if ch == "H" then goto_state s_res_H
   else if (ch == CR) || (ch == LF) then ret tt
   else error HPE_INVALID_CONSTANT) ;;
  CALLBACK_NOTIFY FOR_message_begin.

(** The four [STRICT_CHECK]ed letters of "HTTP/" after the first "H". *)
Definition case_expect (want : ascii) (next : state) (ch : ascii) : exec unit :=
  STRICT_CHECK (ch != want) ;;
  goto_state next.

Definition case_s_res_first_http_major (ch : ascii) : exec unit :=
  if (sc ch <? sc "0") || (sc ch >? sc "9") then error HPE_INVALID_VERSION
  else
    modify (set_http_major (sc ch - sc "0")) ;;
    goto_state s_res_http_major.

(** The shared body of [s_res_http_major] and [s_req_http_major]. *)
Definition case_http_major (next : state) (ch : ascii) : exec unit :=
  if ch == "." then goto_state next
  else if negb (IS_NUM ch) then error HPE_INVALID_VERSION
  else
    modify (fun p => set_http_major (p_http_major p * 10) p) ;;
    modify (fun p => set_http_major (p_http_major p + (sc ch - sc "0")) p) ;;
    p <- parser_ ;;
    if p_http_major p >? 999 then error HPE_INVALID_VERSION else break.

(** [s_res_first_http_minor] and [s_req_first_http_minor]. *)
Definition case_first_http_minor (next : state) (ch : ascii) : exec unit :=
  if negb (IS_NUM ch) then error HPE_INVALID_VERSION
  else
    modify (set_http_minor (sc ch - sc "0")) ;;
    goto_state next.

Definition add_http_minor (ch : ascii) : exec unit :=
  if negb (IS_NUM ch) then error HPE_INVALID_VERSION
  else
    modify (fun p => set_http_minor (p_http_minor p * 10) p) ;;
    modify (fun p => set_http_minor (p_http_minor p + (sc ch - sc "0")) p) ;;
    p <- parser_ ;;
    if p_http_minor p >? 999 then error HPE_INVALID_VERSION else break.

Definition case_s_res_http_minor (ch : ascii) : exec unit :=
  if ch == SP then goto_state s_res_first_status_code
  else add_http_minor ch.

Definition case_s_res_first_status_code (ch : ascii) : exec unit :=
  if negb (IS_NUM ch) then
    if ch == SP then break else error HPE_INVALID_STATUS
  else
    modify (set_status_code (sc ch - sc "0")) ;;
    goto_state s_res_status_code.

Definition case_s_res_status_code (ch : ascii) : exec unit :=
  if negb (IS_NUM ch) then
    if ch == SP then goto_state s_res_status_start
    else if ch == CR then goto_state s_res_line_almost_done
    else if ch == LF then goto_state s_header_field_start
    else error HPE_INVALID_STATUS
  else
    modify (fun p => set_status_code (p_status_code p * 10) p) ;;
    modify (fun p => set_status_code (p_status_code p + (sc ch - sc "0")) p) ;;
    p <- parser_ ;;
    if p_status_code p >? 999 then error HPE_INVALID_STATUS else break.

Definition case_s_res_status_start (ch : ascii) : exec unit :=
  if ch == CR then goto_state s_res_line_almost_done
  else if ch == LF then goto_state s_header_field_start
  else
    MARK FOR_status ;;
    goto_state s_res_status ;;
    modify (set_index 0).

Definition case_s_res_status (ch : ascii) : exec unit :=
  if ch == CR then
    goto_state s_res_line_almost_done ;; CALLBACK_DATA FOR_status
  else if ch == LF then
    goto_state s_header_field_start ;; CALLBACK_DATA FOR_status
  else break.

(** The method an initial letter selects; [None] is the [default] label. *)
Definition start_method (ch : ascii) : option http_method :=
  if ch == "C" then Some HTTP_CONNECT
  else if ch == "D" then Some HTTP_DELETE
  else if ch == "G" then Some HTTP_GET
  else if ch == "H" then Some HTTP_HEAD
  else if ch == "L" then Some HTTP_LOCK
  else if ch == "M" then Some HTTP_MKCOL
  else if ch == "N" then Some HTTP_NOTIFY
  else if ch == "O" then Some HTTP_OPTIONS
  else if ch == "P" then Some HTTP_POST
  else if ch == "R" then Some HTTP_REPORT
  else if ch == "S" then Some HTTP_SUBSCRIBE
  else if ch == "T" then Some HTTP_TRACE
  else if ch == "U" then Some HTTP_UNLOCK
  else None.

Definition case_s_start_req (ch : ascii) : exec unit :=
  if (ch == CR) || (ch == LF) then break
  else
    modify (set_flags 0) ;;
    modify (set_content_length ULLONG_MAX) ;;
    if negb (IS_ALPHA ch) then error HPE_INVALID_METHOD
    else
      modify (set_method HTTP_DELETE) ;;
      modify (set_index 1) ;;
      match start_method ch with
      | None => error HPE_INVALID_METHOD
      | Some m =>
          modify (set_method m) ;;
          goto_state s_req_method ;;
          CALLBACK_NOTIFY FOR_message_begin
      end.

(** The method the prefix read so far turns into when [ch] does not extend the
    current one; [None] is [HPE_INVALID_METHOD]. *)
Definition method_alternative (m : http_method) (index : Z) (ch : ascii) : option http_method :=
  if m =e HTTP_CONNECT then
    if (index =? 1) && (ch == "H") then Some HTTP_CHECKOUT
    else if (index =? 2) && (ch == "P") then Some HTTP_COPY
    else None
  else if m =e HTTP_MKCOL then
    if (index =? 1) && (ch == "O") then Some HTTP_MOVE
    else if (index =? 1) && (ch == "E") then Some HTTP_MERGE
    else if (index =? 1) && (ch == "-") then Some HTTP_MSEARCH
    else if (index =? 2) && (ch == "A") then Some HTTP_MKACTIVITY
    else if (index =? 3) && (ch == "A") then Some HTTP_MKCALENDAR
    else None
  else if m =e HTTP_SUBSCRIBE then
    if (index =? 1) && (ch == "E") then Some HTTP_SEARCH else None
  else if (index =? 1) && (m =e HTTP_POST) then
    if ch == "R" then Some HTTP_PROPFIND
    else if ch == "U" then Some HTTP_PUT
    else if ch == "A" then Some HTTP_PATCH
    else None
  else if index =? 2 then
    if m =e HTTP_PUT then
      if ch == "R" then Some HTTP_PURGE else None
    else if m =e HTTP_UNLOCK then
      if ch == "S" then Some HTTP_UNSUBSCRIBE else None
    else None
  else if (index =? 4) && (m =e HTTP_PROPFIND) && (ch == "P") then Some HTTP_PROPPATCH
  else None.

Definition case_s_req_method (ch : ascii) : exec unit :=
  if ch == NUL then error HPE_INVALID_METHOD
  else
    p <- parser_ ;;
    c <- char_at (method_strings (p_method p)) (p_index p) ;;
    (if (ch == SP) && (c == NUL) then goto_state s_req_spaces_before_url
     else if ch == c then ret tt
     else
       match method_alternative (p_method p) (p_index p) ch with
       | Some m => modify (set_method m)
       | None => error HPE_INVALID_METHOD
       end) ;;
    modify (fun p => set_index (p_index p + 1) p).

(** [parser->state = parse_url_char(parser->state, ch)] and its error check. *)
Definition url_step (ch : ascii) : exec unit :=
  p <- parser_ ;;
  goto_state (parse_url_char (p_state p) ch) ;;
  p <- parser_ ;;
  if p_state p =e s_dead then error HPE_INVALID_URL else break.

Definition case_s_req_spaces_before_url (ch : ascii) : exec unit :=
  if ch == SP then break
  else
    MARK FOR_url ;;
    p <- parser_ ;;
    (if p_method p =e HTTP_CONNECT then goto_state s_req_server_start else ret tt) ;;
    url_step ch.

(** [s_req_schema], [s_req_schema_slash], [s_req_schema_slash_slash] and
    [s_req_server_start]: no white space allowed here. *)
Definition case_url_no_space (ch : ascii) : exec unit :=
  if (ch == SP) || (ch == CR) || (ch == LF) then error HPE_INVALID_URL
  else url_step ch.

(** [s_req_server] to [s_req_fragment]. *)
Definition case_url_rest (ch : ascii) : exec unit :=
  if ch == SP then
    goto_state s_req_http_start ;; CALLBACK_DATA FOR_url
  else if (ch == CR) || (ch == LF) then
    modify (set_http_major 0) ;;
    modify (set_http_minor 9) ;;
    goto_state (if ch == CR then s_req_line_almost_done else s_header_field_start) ;;
    CALLBACK_DATA FOR_url
  else url_step ch.

Definition case_s_req_http_start (ch : ascii) : exec unit :=
  if ch == "H" then goto_state s_req_http_H
  else if ch == SP then break
  else error HPE_INVALID_CONSTANT.

Definition case_s_req_first_http_major (ch : ascii) : exec unit :=
  if (sc ch <? sc "1") || (sc ch >? sc "9") then error HPE_INVALID_VERSION
  else
    modify (set_http_major (sc ch - sc "0")) ;;
    goto_state s_req_http_major.

Definition case_s_req_http_minor (ch : ascii) : exec unit :=
  if ch == CR then goto_state s_req_line_almost_done
  else if ch == LF then goto_state s_header_field_start
  else add_http_minor ch.

Definition case_s_req_line_almost_done (ch : ascii) : exec unit :=
  if ch != LF then error HPE_LF_EXPECTED
  else goto_state s_header_field_start.

Definition case_s_header_field_start (ch : ascii) : exec unit :=
  if ch == CR then goto_state s_headers_almost_done
  else if ch == LF then goto_state s_headers_almost_done ;; goto_reexecute_byte
  else
    let c := TOKEN ch in
    if c == NUL then error HPE_INVALID_HEADER_TOKEN
    else
      MARK FOR_header_field ;;
      modify (set_index 0) ;;
      goto_state s_header_field ;;
      modify (set_header_state
        (if c == "c" then h_C
         else if c == "p" then h_matching_proxy_connection
         else if c == "t" then h_matching_transfer_encoding
         else if c == "u" then h_matching_upgrade
         else h_general)).

Definition CONNECTION : bytes := b "connection".
Definition PROXY_CONNECTION : bytes := b "proxy-connection".
Definition CONTENT_LENGTH : bytes := b "content-length".
Definition TRANSFER_ENCODING : bytes := b "transfer-encoding".
Definition UPGRADE : bytes := b "upgrade".
Definition CHUNKED : bytes := b "chunked".
Definition KEEP_ALIVE : bytes := b "keep-alive".
Definition CLOSE : bytes := b "close".

Definition to_header_state (h : header_states) : exec unit := modify (set_header_state h).
Definition next_index : exec unit := modify (fun p => set_index (p_index p + 1) p).

(** One character of a keyword: [parser->index++], then
    [index > sizeof(WORD)-1 || c != WORD[index]] leaves the match and
    [index == sizeof(WORD)-2] completes it ([sizeof] counts the NUL). *)
Definition match_word (word : bytes) (c : ascii) (complete : header_states) : exec unit :=
  next_index ;;
  p <- parser_ ;;
  if p_index p >? Z.of_nat (length word) then to_header_state h_general
  else
    w <- char_at word (p_index p) ;;
    if c != w then to_header_state h_general
    else if p_index p =? Z.of_nat (length word) - 1 then to_header_state complete
    else break.

(** The [switch (parser->header_state)] of [s_header_field]. *)
Definition header_field_char (ch c : ascii) : exec unit :=
  p <- parser_ ;;
  match p_header_state p with
  | h_general => break
  | h_C => next_index ;; to_header_state (if c == "o" then h_CO else h_general)
  | h_CO => next_index ;; to_header_state (if c == "n" then h_CON else h_general)
  | h_CON =>
      next_index ;;
      to_header_state (if c == "n" then h_matching_connection
                       else if c == "t" then h_matching_content_length
                       else h_general)
  | h_matching_connection => match_word CONNECTION c h_connection
  | h_matching_proxy_connection => match_word PROXY_CONNECTION c h_connection
  | h_matching_content_length => match_word CONTENT_LENGTH c h_content_length
  | h_matching_transfer_encoding => match_word TRANSFER_ENCODING c h_transfer_encoding
  | h_matching_upgrade => match_word UPGRADE c h_upgrade
  | h_connection | h_content_length | h_transfer_encoding | h_upgrade =>
      if ch != SP then to_header_state h_general else break
  | _ => assert false
  end.

Definition case_s_header_field (ch : ascii) : exec unit :=
  let c := TOKEN ch in
  if c != NUL then header_field_char ch c
  else if ch == ":" then
    goto_state s_header_value_discard_ws ;; CALLBACK_DATA FOR_header_field
  else if ch == CR then
    goto_state s_header_almost_done ;; CALLBACK_DATA FOR_header_field
  else if ch == LF then
    goto_state s_header_field_start ;; CALLBACK_DATA FOR_header_field
  else error HPE_INVALID_HEADER_TOKEN.

Definition case_s_header_value_start (ch : ascii) : exec unit :=
  MARK FOR_header_value ;;
  goto_state s_header_value ;;
  modify (set_index 0) ;;
  let c := LOWER ch in
  p <- parser_ ;;
  match p_header_state p with
  | h_upgrade =>
      modify (fun p => set_flags (Z.lor (p_flags p) F_UPGRADE) p) ;;
      to_header_state h_general
  | h_transfer_encoding =>
      to_header_state (if "c"%char == c then h_matching_transfer_encoding_chunked
                       else h_general)
  | h_content_length =>
      if negb (IS_NUM ch) then error HPE_INVALID_CONTENT_LENGTH
      else modify (set_content_length (sc ch - sc "0"))
  | h_connection =>
      to_header_state (if c == "k" then h_matching_connection_keep_alive
                       else if c == "c" then h_matching_connection_close
                       else h_general)
  | _ => to_header_state h_general
  end.

(** Falls through into [s_header_value_start]. *)
Definition case_s_header_value_discard_ws (ch : ascii) : exec unit :=
  if (ch == SP) || (ch == HT) then break
  else if ch == CR then goto_state s_header_value_discard_ws_almost_done
  else if ch == LF then goto_state s_header_value_discard_lws
  else case_s_header_value_start ch.

(** The [h_content_length] case of [s_header_value]. *)
Definition content_length_char (ch : ascii) : exec unit :=
  if ch == SP then break
  else if negb (IS_NUM ch) then error HPE_INVALID_CONTENT_LENGTH
  else
    p <- parser_ ;;
    let t := p_content_length p in
    let t := w64 (t * 10) in
    let t := w64 (t + (sc ch - sc "0")) in
    if (ULLONG_MAX - 10) / 10 <? p_content_length p then error HPE_INVALID_CONTENT_LENGTH
    else modify (set_content_length t).

Definition header_value_char (ch : ascii) : exec unit :=
  let c := LOWER ch in
  p <- parser_ ;;
  match p_header_state p with
  | h_general => break
  | h_connection | h_transfer_encoding => assert false
  | h_content_length => content_length_char ch
  | h_matching_transfer_encoding_chunked => match_word CHUNKED c h_transfer_encoding_chunked
  | h_matching_connection_keep_alive => match_word KEEP_ALIVE c h_connection_keep_alive
  | h_matching_connection_close => match_word CLOSE c h_connection_close
  | h_transfer_encoding_chunked | h_connection_keep_alive | h_connection_close =>
      if ch != SP then to_header_state h_general else break
  | _ => goto_state s_header_value ;; to_header_state h_general
  end.

Definition case_s_header_value (ch : ascii) : exec unit :=
  if ch == CR then
    goto_state s_header_almost_done ;; CALLBACK_DATA FOR_header_value
  else if ch == LF then
    goto_state s_header_almost_done ;;
    CALLBACK_DATA_NOADVANCE FOR_header_value ;;
    goto_reexecute_byte
  else header_value_char ch.

Definition case_s_header_almost_done (ch : ascii) : exec unit :=
  STRICT_CHECK (ch != LF) ;;
  goto_state s_header_value_lws.

Definition case_s_header_value_lws (ch : ascii) : exec unit :=
  if (ch == SP) || (ch == HT) then
    goto_state s_header_value_start ;; goto_reexecute_byte
  else
    p <- parser_ ;;
    (match p_header_state p with
     | h_connection_keep_alive =>
         modify (fun p => set_flags (Z.lor (p_flags p) F_CONNECTION_KEEP_ALIVE) p)
     | h_connection_close =>
         modify (fun p => set_flags (Z.lor (p_flags p) F_CONNECTION_CLOSE) p)
     | h_transfer_encoding_chunked =>
         modify (fun p => set_flags (Z.lor (p_flags p) F_CHUNKED) p)
     | _ => ret tt
     end) ;;
    goto_state s_header_field_start ;;
    goto_reexecute_byte.

Definition case_s_header_value_discard_ws_almost_done (ch : ascii) : exec unit :=
  STRICT_CHECK (ch != LF) ;;
  goto_state s_header_value_discard_lws.

Definition case_s_header_value_discard_lws (ch : ascii) : exec unit :=
  if (ch == SP) || (ch == HT) then goto_state s_header_value_discard_ws
  else
    MARK FOR_header_value ;;
    goto_state s_header_field_start ;;
    CALLBACK_DATA_NOADVANCE FOR_header_value ;;
    goto_reexecute_byte.

(** The call of [on_headers_complete]: 0 continues, 1 skips the body, any
    other value is an error. *)
Definition call_headers_complete : exec unit :=
  match on_headers_complete settings with
  | None => ret tt
  | Some cb =>
      r <- (fun s =>
              let '(code, paused, d) := cb (m_parser s) (m_data s) in
              let p := if (paused : bool) then set_http_errno HPE_PAUSED (m_parser s) else m_parser s in
              (Normal code, mk_mstate p (m_p s) (m_marks s) d)) ;;
      if r =? 0 then ret tt
      else if r =? 1 then modify (fun p => set_flags (Z.lor (p_flags p) F_SKIPBODY) p)
      else
        SET_ERRNO HPE_CB_headers_complete ;;
        p <- p_ ;; return_ p
  end.

Definition case_s_headers_almost_done (ch : ascii) : exec unit :=
  STRICT_CHECK (ch != LF) ;;
  p <- parser_ ;;
  if has_flag (p_flags p) F_TRAILING then
    new_message ;;
    CALLBACK_NOTIFY FOR_message_complete
  else
    goto_state s_headers_done ;;
    modify (fun p => set_upgrade (has_flag (p_flags p) F_UPGRADE
                                  || (p_method p =e HTTP_CONNECT)) p) ;;
    call_headers_complete ;;
    p <- parser_ ;;
    if negb (p_http_errno p =e HPE_OK) then (q <- p_ ;; return_ q)
    else goto_reexecute_byte.

Definition message_complete : exec unit :=
  new_message ;; CALLBACK_NOTIFY FOR_message_complete.

Definition case_s_headers_done (ch : ascii) : exec unit :=
  STRICT_CHECK (ch != LF) ;;
  modify (set_nread 0) ;;
  p <- parser_ ;;
  if p_upgrade p then
    message_complete ;;
    (q <- p_ ;; return_ (tail q))
  else if has_flag (p_flags p) F_SKIPBODY then message_complete
  else if has_flag (p_flags p) F_CHUNKED then goto_state s_chunk_size_start
  else if p_content_length p =? 0 then message_complete
  else if negb (p_content_length p =? ULLONG_MAX) then goto_state s_body_identity
  else if (p_type p =e HTTP_REQUEST) || negb (http_message_needs_eof p)
  then message_complete
  else goto_state s_body_identity_eof.

(** [to_read = MIN(content_length, (data + len) - p)], [MARK(body)],
    [content_length -= to_read], [p += to_read - 1]. *)
Definition read_body : exec unit :=
  q <- p_ ;;
  p <- parser_ ;;
  let to_read := Z.min (p_content_length p) (Z.of_nat (length q)) in
  assert (negb (p_content_length p =? 0) && negb (p_content_length p =? ULLONG_MAX)) ;;
  MARK FOR_body ;;
  modify (set_content_length (p_content_length p - to_read)) ;;
  set_p (drop (Z.to_nat (to_read - 1)) q).

Definition case_s_body_identity : exec unit :=
  read_body ;;
  p <- parser_ ;;
  if p_content_length p =? 0 then
    goto_state s_message_done ;;
    (q <- p_ ;; CALLBACK_DATA_ settings FOR_body (tail q) q) ;;
    goto_reexecute_byte
  else break.

(** Read until EOF: [p = data + len - 1]. *)
Definition case_s_body_identity_eof : exec unit :=
  MARK FOR_body ;;
  q <- p_ ;;
  set_p (drop (length q - 1)%nat q).

Definition case_s_message_done : exec unit := message_complete.

Definition assert_chunked : exec unit :=
  p <- parser_ ;; assert (has_flag (p_flags p) F_CHUNKED).

Definition case_s_chunk_size_start (ch : ascii) : exec unit :=
  p <- parser_ ;;
  assert (p_nread p =? 1) ;;
  assert_chunked ;;
  let unhex_val := unhex ch in
  if unhex_val =? -1 then error HPE_INVALID_CHUNK_SIZE
  else
    modify (set_content_length unhex_val) ;;
    goto_state s_chunk_size.

Definition case_s_chunk_size (ch : ascii) : exec unit :=
  assert_chunked ;;
  if ch == CR then goto_state s_chunk_size_almost_done
  else
    let unhex_val := unhex ch in
    if unhex_val =? -1 then
      if (ch == ";") || (ch == SP) then goto_state s_chunk_parameters
      else error HPE_INVALID_CHUNK_SIZE
    else
      p <- parser_ ;;
      let t := p_content_length p in
      let t := w64 (t * 16) in
      let t := w64 (t + unhex_val) in
      if (ULLONG_MAX - 16) / 16 <? p_content_length p then error HPE_INVALID_CONTENT_LENGTH
      else modify (set_content_length t).

Definition case_s_chunk_parameters (ch : ascii) : exec unit :=
  assert_chunked ;;
  if ch == CR then goto_state s_chunk_size_almost_done else break.

Definition case_s_chunk_size_almost_done (ch : ascii) : exec unit :=
  assert_chunked ;;
  STRICT_CHECK (ch != LF) ;;
  modify (set_nread 0) ;;
  p <- parser_ ;;
  if p_content_length p =? 0 then
    modify (fun p => set_flags (Z.lor (p_flags p) F_TRAILING) p) ;;
    goto_state s_header_field_start
  else goto_state s_chunk_data.

Definition case_s_chunk_data : exec unit :=
  assert_chunked ;;
  read_body ;;
  p <- parser_ ;;
  if p_content_length p =? 0 then goto_state s_chunk_data_almost_done else break.

Definition case_s_chunk_data_almost_done (ch : ascii) : exec unit :=
  assert_chunked ;;
  p <- parser_ ;;
  assert (p_content_length p =? 0) ;;
  STRICT_CHECK (ch != CR) ;;
  goto_state s_chunk_data_done ;;
  CALLBACK_DATA FOR_body.

Definition case_s_chunk_data_done (ch : ascii) : exec unit :=
  assert_chunked ;;
  STRICT_CHECK (ch != LF) ;;
  modify (set_nread 0) ;;
  goto_state s_chunk_size_start.

(** The [switch] itself. *)
Definition dispatch (st : state) (ch : ascii) : exec unit :=
  match st with
  | s_dead => case_s_dead ch
  | s_start_req_or_res => case_s_start_req_or_res ch
  | s_res_or_resp_H => case_s_res_or_resp_H ch
  | s_start_res => case_s_start_res ch
  | s_res_H => case_expect "T" s_res_HT ch
  | s_res_HT => case_expect "T" s_res_HTT ch
  | s_res_HTT => case_expect "P" s_res_HTTP ch
  | s_res_HTTP => case_expect "/" s_res_first_http_major ch
  | s_res_first_http_major => case_s_res_first_http_major ch
  | s_res_http_major => case_http_major s_res_first_http_minor ch
  | s_res_first_http_minor => case_first_http_minor s_res_http_minor ch
  | s_res_http_minor => case_s_res_http_minor ch
  | s_res_first_status_code => case_s_res_first_status_code ch
  | s_res_status_code => case_s_res_status_code ch
  | s_res_status_start => case_s_res_status_start ch
  | s_res_status => case_s_res_status ch
  | s_res_line_almost_done => case_expect LF s_header_field_start ch
  | s_start_req => case_s_start_req ch
  | s_req_method => case_s_req_method ch
  | s_req_spaces_before_url => case_s_req_spaces_before_url ch
  | s_req_schema | s_req_schema_slash | s_req_schema_slash_slash
  | s_req_server_start => case_url_no_space ch
  | s_req_server | s_req_server_with_at | s_req_path | s_req_query_string_start
  | s_req_query_string | s_req_fragment_start | s_req_fragment => case_url_rest ch
  | s_req_http_start => case_s_req_http_start ch
  | s_req_http_H => case_expect "T" s_req_http_HT ch
  | s_req_http_HT => case_expect "T" s_req_http_HTT ch
  | s_req_http_HTT => case_expect "P" s_req_http_HTTP ch
  | s_req_http_HTTP => case_expect "/" s_req_first_http_major ch
  | s_req_first_http_major => case_s_req_first_http_major ch
  | s_req_http_major => case_http_major s_req_first_http_minor ch
  | s_req_first_http_minor => case_first_http_minor s_req_http_minor ch
  | s_req_http_minor => case_s_req_http_minor ch
  | s_req_line_almost_done => case_s_req_line_almost_done ch
  | s_header_field_start => case_s_header_field_start ch
  | s_header_field => case_s_header_field ch
  | s_header_value_discard_ws => case_s_header_value_discard_ws ch
  | s_header_value_discard_ws_almost_done => case_s_header_value_discard_ws_almost_done ch
  | s_header_value_discard_lws => case_s_header_value_discard_lws ch
  | s_header_value_start => case_s_header_value_start ch
  | s_header_value => case_s_header_value ch
  | s_header_value_lws => case_s_header_value_lws ch
  | s_header_almost_done => case_s_header_almost_done ch
  | s_chunk_size_start => case_s_chunk_size_start ch
  | s_chunk_size => case_s_chunk_size ch
  | s_chunk_parameters => case_s_chunk_parameters ch
  | s_chunk_size_almost_done => case_s_chunk_size_almost_done ch
  | s_headers_almost_done => case_s_headers_almost_done ch
  | s_headers_done => case_s_headers_done ch
  | s_chunk_data => case_s_chunk_data
  | s_chunk_data_almost_done => case_s_chunk_data_almost_done ch
  | s_chunk_data_done => case_s_chunk_data_done ch
  | s_body_identity => case_s_body_identity
  | s_body_identity_eof => case_s_body_identity_eof
  | s_message_done => case_s_message_done
  end.

(** ** The loop *)

(** The label [reexecute_byte] and the jumps back to it.
    [HttpSafety.execute_returns] shows that a byte is never dispatched more
    than [reexecute_fuel] times. *)
Definition reexecute_fuel : nat := 4.

Fixpoint reexecute_byte (fuel : nat) (ch : ascii) (s : mstate D) : flow unit * mstate D :=
  match fuel with
  | O => (Out_of_fuel, s)
  | S fuel =>
      match dispatch (p_state (m_parser s)) ch s with
      | (Reexecute, s') => reexecute_byte fuel ch s'
      | r => r
      end
  end.

(** [if (PARSING_HEADER(parser->state)) ...] at the top of the loop body. *)
Definition count_header_byte : exec unit :=
  p <- parser_ ;;
  if PARSING_HEADER (p_state p) then
    modify (fun p => set_nread (p_nread p + 1) p) ;;
    p <- parser_ ;;
    if p_nread p >? HTTP_MAX_HEADER_SIZE then error HPE_HEADER_OVERFLOW else ret tt
  else ret tt.

(** One iteration of [for (p=data; p != data + len; p++)]. *)
Definition loop_body (ch : ascii) : exec unit :=
  count_header_byte ;;
  reexecute_byte reexecute_fuel ch ;;
  q <- p_ ;; set_p (tail q).

(** [p] advances by at least one byte per iteration, so [length data] is
    enough fuel (shown with the invariant). *)
Fixpoint for_loop (fuel : nat) (s : mstate D) : flow unit * mstate D :=
  match m_p s with
  | [] => (Normal tt, s)
  | ch :: _ =>
      match fuel with
      | O => (Out_of_fuel, s)
      | S fuel => bind (loop_body ch) (fun _ => for_loop fuel) s
      end
  end.

(** The callbacks for the marks left when the bytes have run out. *)
Definition is_set (m : option bytes) : Z := match m with Some _ => 1 | None => 0 end.

Definition flush_marks : exec unit :=
  (fun s =>
     assert (is_set (header_field_mark (m_marks s)) + is_set (header_value_mark (m_marks s))
             + is_set (url_mark (m_marks s)) + is_set (body_mark (m_marks s))
             + is_set (status_mark (m_marks s)) <=? 1) s) ;;
  CALLBACK_DATA_NOADVANCE FOR_header_field ;;
  CALLBACK_DATA_NOADVANCE FOR_header_value ;;
  CALLBACK_DATA_NOADVANCE FOR_url ;;
  CALLBACK_DATA_NOADVANCE FOR_body ;;
  CALLBACK_DATA_NOADVANCE FOR_status.

(** The marks a call starts with: the state says whether the previous call
    stopped inside a header field, a header value, a URL or a status line. *)
Definition start_marks (st : state) (data : bytes) : marks :=
  let m := if st =e s_header_field then set_mark FOR_header_field (Some data) no_marks
           else no_marks in
  let m := if st =e s_header_value then set_mark FOR_header_value (Some data) m else m in
  match st with
  | s_req_path | s_req_schema | s_req_schema_slash | s_req_schema_slash_slash
  | s_req_server_start | s_req_server | s_req_server_with_at
  | s_req_query_string_start | s_req_query_string
  | s_req_fragment_start | s_req_fragment => set_mark FOR_url (Some data) m
  | s_res_status => set_mark FOR_status (Some data) m
  | _ => m
  end.

(** [SET_ERRNO(HPE_UNKNOWN)] at the label [error] when nothing was set. *)
Definition error_errno (p : http_parser) : http_parser :=
  if p_http_errno p =e HPE_OK then set_http_errno HPE_UNKNOWN p else p.

(** The loop, the leftover callbacks and the [error] label: the pointer whose
    offset is returned, or [None] for an undefined step. *)
Definition run (s : mstate D) : option (bytes * http_parser * D) :=
  match bind (for_loop (length (m_p s))) (fun _ => flush_marks) s with
  | (Normal _, s') => Some ([], m_parser s', m_data s')
  | (Goto_error, s') => Some (m_p s', error_errno (m_parser s'), m_data s')
  | (Return q, s') => Some (q, m_parser s', m_data s')
  | (Reexecute, _) | (Undefined, _) | (Out_of_fuel, _) => None
  end.

(** [if (len == 0)]. *)
Definition execute_eof (p : http_parser) (d : D) : option (nat * http_parser * D) :=
  match p_state p with
  | s_body_identity_eof =>
      match CALLBACK_NOTIFY_NOADVANCE settings FOR_message_complete
              (mk_mstate p [] no_marks d) with
      | (Normal _, s') | (Return _, s') => Some (0%nat, m_parser s', m_data s')
      | _ => None
      end
  | s_dead | s_start_req_or_res | s_start_res | s_start_req => Some (0%nat, p, d)
  | _ => Some (1%nat, set_http_errno HPE_INVALID_EOF_STATE p, d)
  end.

(** [http_parser_execute]: the number of bytes parsed, the parser and the
    callbacks' state; [None] if an assertion fails or a read is out of bounds. *)
Definition http_parser_execute (p : http_parser) (d : D) (data : bytes)
  : option (nat * http_parser * D) :=
  if negb (p_http_errno p =e HPE_OK) then Some (0%nat, p, d)
  else
    match data with
    | [] => execute_eof p d
    | _ =>
        match run (mk_mstate p data (start_marks (p_state p) data) d) with
        | Some (q, p', d') => Some ((length data - length q)%nat, p', d')
        | None => None
        end
    end.

End Cases.
