(* ===== verification/HttpLogic.v ===== *)
(** * A program logic for the parser's monad

    Weakest preconditions for [exec]: [wp m N E s] says that running [m] from
    [s] either falls through with a value satisfying [N] or leaves the
    enclosing code through an [exit] satisfying [E].  There is one rule per
    primitive; the tactic [wp] applies them and splits the tests. *)

From stdpp Require Import options.
From S2P Require Import Prelude HttpTypes HttpExecute.

Inductive exit :=
| X_reexecute | X_error | X_return (q : bytes) | X_undefined | X_out_of_fuel.

Definition wp {D A} (m : exec D A) (N : A -> mstate D -> Prop)
    (E : exit -> mstate D -> Prop) (s : mstate D) : Prop :=
  match m s with
  | (Normal a, s') => N a s'
  | (Reexecute, s') => E X_reexecute s'
  | (Goto_error, s') => E X_error s'
  | (Return q, s') => E (X_return q) s'
  | (Undefined, s') => E X_undefined s'
  | (Out_of_fuel, s') => E X_out_of_fuel s'
  end.

(** The errors a paused parser can come back from. *)
Definition resumable (e : http_errno) : bool :=
  match e with HPE_OK | HPE_PAUSED => true | _ => false end.

(** The errors the function itself raises with [goto error]. *)
Definition syntax_error (e : http_errno) : bool :=
  match e with
  | HPE_OK | HPE_PAUSED
  | HPE_CB_message_begin | HPE_CB_url | HPE_CB_header_field | HPE_CB_header_value
  | HPE_CB_headers_complete | HPE_CB_body | HPE_CB_message_complete | HPE_CB_status => false
  | _ => true
  end.

Lemma syntax_error_final e : syntax_error e = true -> resumable e = false.
Proof. by destruct e. Qed.

Section Rules.
Context {D : Type} (settings : http_parser_settings D).
Implicit Types (s : mstate D) (E : exit -> mstate D -> Prop).

Lemma wp_ret {A} (a : A) N E s : N a s -> wp (ret a) N E s.
Proof. done. Qed.

Lemma wp_bind {A B} (m : exec D A) (k : A -> exec D B) N E s :
  wp m (fun a => wp (k a) N E) E s -> wp (bind m k) N E s.
Proof. unfold wp, bind. destruct (m s) as [[] s']; done. Qed.

Lemma wp_mono {A} (m : exec D A) (N N' : A -> mstate D -> Prop) E E' s :
  (forall a s', N a s' -> N' a s') -> (forall x s', E x s' -> E' x s') ->
  wp m N E s -> wp m N' E' s.
Proof. unfold wp. intros HN HE. destruct (m s) as [[] s']; auto. Qed.

Lemma wp_break N E s : N tt s -> wp break N E s.
Proof. done. Qed.

Lemma wp_goto_error {A} (N : A -> _) E s : E X_error s -> wp goto_error N E s.
Proof. done. Qed.

Lemma wp_goto_reexecute_byte {A} (N : A -> _) E s :
  E X_reexecute s -> wp goto_reexecute_byte N E s.
Proof. done. Qed.

Lemma wp_return {A} q (N : A -> _) E s : E (X_return q) s -> wp (return_ q) N E s.
Proof. done. Qed.

Lemma wp_assert c N E s : c = true -> N tt s -> wp (assert c) N E s.
Proof. by intros ->. Qed.

Lemma wp_parser N E s : N (m_parser s) s -> wp parser_ N E s.
Proof. done. Qed.

Lemma wp_p N E s : N (m_p s) s -> wp p_ N E s.
Proof. done. Qed.

Lemma wp_modify f N E s :
  N tt (mk_mstate (f (m_parser s)) (m_p s) (m_marks s) (m_data s)) -> wp (modify f) N E s.
Proof. done. Qed.

Lemma wp_set_p q N E s :
  N tt (mk_mstate (m_parser s) q (m_marks s) (m_data s)) -> wp (set_p q) N E s.
Proof. done. Qed.

Lemma wp_error e N E s :
  E X_error (mk_mstate (set_http_errno e (m_parser s)) (m_p s) (m_marks s) (m_data s)) ->
  wp (error e) N E s.
Proof. done. Qed.

Lemma wp_MARK k N E s :
  (forall m, m = match get_mark k (m_marks s) with
                 | Some _ => m_marks s
                 | None => set_mark k (Some (m_p s)) (m_marks s)
                 end ->
             N tt (mk_mstate (m_parser s) (m_p s) m (m_data s))) ->
  wp (MARK k) N E s.
Proof.
  unfold wp, MARK. intros H. specialize (H _ eq_refl).
  destruct (get_mark k (m_marks s)); destruct s; exact H.
Qed.

Lemma wp_char_at str i N E s :
  0 <= i <= Z.of_nat (length str) ->
  N (nth (Z.to_nat i) str NUL) s -> wp (char_at str i) N E s.
Proof.
  unfold char_at. intros Hi H.
  replace ((0 <=? i) && (i <=? Z.of_nat (length str))) with true; [done|].
  symmetry. apply andb_true_intro; split; apply Z.leb_le; lia.
Qed.

(** A callback either lets the parser run on, or stops it with an error. *)
Lemma wp_CALLBACK_NOTIFY_ k er N E s :
  p_http_errno (m_parser s) = HPE_OK ->
  (forall d, N tt (mk_mstate (m_parser s) (m_p s) (m_marks s) d)) ->
  (forall e d, e <> HPE_OK ->
     E (X_return er) (mk_mstate (set_http_errno e (m_parser s)) (m_p s) (m_marks s) d)) ->
  wp (CALLBACK_NOTIFY_ settings k er) N E s.
Proof.
  intros Hok HN HE. unfold CALLBACK_NOTIFY_.
  apply wp_bind, wp_parser, wp_bind, wp_assert; [by rewrite Hok|].
  destruct (notify_cb settings k) as [cb|].
  - unfold wp. destruct (cb _ _) as [[code paused] d].
    unfold after_cb. destruct paused, (code =? 0); cbn.
    + by apply HE.
    + destruct k; by apply (HE _).
    + rewrite Hok. cbn. apply HN.
    + destruct k; by apply (HE _).
  - apply wp_ret. specialize (HN (m_data s)). by destruct s.
Qed.

Lemma wp_CALLBACK_DATA_ k stop er N E s :
  p_http_errno (m_parser s) = HPE_OK ->
  (forall d, N tt (mk_mstate (m_parser s) (m_p s) (set_mark k None (m_marks s)) d)) ->
  (forall e d, e <> HPE_OK ->
     E (X_return er) (mk_mstate (set_http_errno e (m_parser s)) (m_p s) (m_marks s) d)) ->
  wp (CALLBACK_DATA_ settings k stop er) N E s.
Proof.
  intros Hok HN HE. unfold CALLBACK_DATA_.
  apply wp_bind, wp_parser, wp_bind, wp_assert; [by rewrite Hok|].
  unfold wp. destruct (get_mark k (m_marks s)) as [mark|] eqn:Hm.
  - destruct (data_cb settings k) as [cb|]; [|apply HN].
    destruct (cb _ _ _) as [[code paused] d].
    unfold after_cb. destruct paused, (code =? 0); cbn.
    + by apply HE.
    + destruct k; by apply (HE _).
    + rewrite Hok. cbn. apply HN.
    + destruct k; by apply (HE _).
  - specialize (HN (m_data s)).
    replace (set_mark k None (m_marks s)) with (m_marks s) in HN; [by destruct s|].
    destruct k, (m_marks s); cbn in *; by subst.
Qed.

(** A keyword character leaves the header state alone, gives up the match or
    completes it; the string is never read out of bounds, whatever the index. *)
Lemma wp_match_word word c complete N E s :
  (forall h i, h = h_general \/ h = complete \/ h = p_header_state (m_parser s) ->
     0 <= i < 256 ->
     N tt (mk_mstate (set_header_state h (set_index i (m_parser s)))
             (m_p s) (m_marks s) (m_data s))) ->
  wp (match_word word c complete) N E s.
Proof.
  intros H. unfold match_word, next_index, to_header_state.
  apply wp_bind, wp_modify, wp_bind, wp_parser. cbn.
  pose proof (wrap_bound 8 (p_index (m_parser s) + 1) ltac:(lia)) as Hw.
  assert (forall h, N tt (mk_mstate (set_header_state h (set_index (p_index (m_parser s) + 1) (m_parser s)))
             (m_p s) (m_marks s) (m_data s)) <->
          N tt (mk_mstate (set_header_state h (set_index (w8 (p_index (m_parser s) + 1)) (m_parser s)))
             (m_p s) (m_marks s) (m_data s))) as Heq.
  { intros h. unfold set_index. by rewrite (wrap_small 8 (w8 _)). }
  destruct (_ >? _) eqn:Hgt; [apply wp_modify, Heq, H; auto|].
  to_prop. apply wp_bind, wp_char_at; [lia|].
  split_if; [apply wp_modify, Heq, H; auto|].
  split_if; [apply wp_modify, Heq, H; auto|].
  apply wp_break. specialize (H (p_header_state (m_parser s)) _ ltac:(auto) Hw).
  apply Heq in H. exact H.
Qed.

(** [on_headers_complete] may pause the parser, skip the body, or fail. *)
Lemma wp_call_headers_complete N E s :
  p_http_errno (m_parser s) = HPE_OK ->
  (forall e d, resumable e = true ->
     N tt (mk_mstate (set_http_errno e (m_parser s)) (m_p s) (m_marks s) d)) ->
  (forall e d, resumable e = true ->
     N tt (mk_mstate (set_flags (Z.lor (p_flags (m_parser s)) F_SKIPBODY)
                        (set_http_errno e (m_parser s))) (m_p s) (m_marks s) d)) ->
  (forall d, E (X_return (m_p s))
     (mk_mstate (set_http_errno HPE_CB_headers_complete (m_parser s)) (m_p s) (m_marks s) d)) ->
  wp (call_headers_complete settings) N E s.
Proof.
  intros Hok H0 H1 HE. unfold call_headers_complete.
  assert (set_http_errno HPE_OK (m_parser s) = m_parser s) as Hid
    by (destruct (m_parser s); cbn in *; by subst).
  destruct (on_headers_complete settings) as [cb|]; cycle 1.
  { apply wp_ret. specialize (H0 HPE_OK (m_data s) eq_refl).
    rewrite Hid in H0. by destruct s. }
  apply wp_bind. unfold wp at 1. destruct (cb _ _) as [[code paused] d].
  destruct (code =? 0); [|destruct (code =? 1)].
  - apply wp_ret. destruct paused; [by apply (H0 HPE_PAUSED)|].
    specialize (H0 HPE_OK d eq_refl). by rewrite Hid in H0.
  - apply wp_modify. destruct paused; [by apply (H1 HPE_PAUSED)|].
    specialize (H1 HPE_OK d eq_refl). by rewrite Hid in H1.
  - apply wp_bind, wp_modify, wp_bind, wp_p, wp_return. by destruct paused.
Qed.

End Rules.

(** ** Symbolic execution *)

(** Runs the head of a [wp] goal.  Tests split the goal; the side conditions
    of assertions, string reads and callbacks are left to the caller. *)
Ltac wp_step :=
  lazymatch goal with
  | |- wp (bind _ _) _ _ _ => apply wp_bind
  | |- wp (ret _) _ _ _ => apply wp_ret
  | |- wp break _ _ _ => apply wp_break
  | |- wp goto_error _ _ _ => apply wp_goto_error
  | |- wp goto_reexecute_byte _ _ _ => apply wp_goto_reexecute_byte
  | |- wp (return_ _) _ _ _ => apply wp_return
  | |- wp (error _) _ _ _ => apply wp_error
  | |- wp (assert _) _ _ _ => apply wp_assert
  | |- wp parser_ _ _ _ => apply wp_parser
  | |- wp p_ _ _ _ => apply wp_p
  | |- wp (modify _) _ _ _ => apply wp_modify
  | |- wp (goto_state _) _ _ _ => unfold goto_state
  | |- wp (SET_ERRNO _) _ _ _ => unfold SET_ERRNO
  | |- wp new_message _ _ _ => unfold new_message
  | |- wp (set_p _) _ _ _ => apply wp_set_p
  | |- wp (MARK _) _ _ _ => apply wp_MARK; intros ? ->
  | |- wp (char_at _ _) _ _ _ => apply wp_char_at
  | |- wp (match_word _ _ _) _ _ _ =>
      apply wp_match_word;
      let Hh := fresh in intros ? ? Hh ?; destruct Hh as [->|[->| ->]]
  | |- wp (call_headers_complete _) _ _ _ =>
      apply wp_call_headers_complete; [| intros ? ? ? | intros ? ? ? | intros ?]
  | |- wp (STRICT_CHECK _) _ _ _ => unfold STRICT_CHECK
  | |- wp (CALLBACK_NOTIFY _ _) _ _ _ => unfold CALLBACK_NOTIFY
  | |- wp (CALLBACK_NOTIFY_ _ _ _) _ _ _ => apply wp_CALLBACK_NOTIFY_; [| intros ? | intros ? ? ?]
  | |- wp (CALLBACK_DATA _ _) _ _ _ => unfold CALLBACK_DATA
  | |- wp (CALLBACK_DATA_NOADVANCE _ _) _ _ _ => unfold CALLBACK_DATA_NOADVANCE
  | |- wp (CALLBACK_DATA_ _ _ _ _) _ _ _ => apply wp_CALLBACK_DATA_; [| intros ? | intros ? ? ?]
  | |- wp (if ?c then _ else _) _ _ _ => destruct c eqn:?
  | |- wp (match ?h with _ => _ end) _ _ _ => destruct h eqn:?
  | |- wp (let x := ?v in _) _ _ _ => cbv zeta
  end; cbn beta.

(** Evaluates the projections and assignments of the machine state. *)
Ltac reduce :=
  lazy beta iota delta [m_parser m_p m_marks m_data get_mark set_mark
       header_field_mark header_value_mark url_mark body_mark status_mark
       p_type p_flags p_state p_header_state p_index p_nread p_content_length
       p_http_major p_http_minor p_status_code p_method p_http_errno p_upgrade
       set_type set_flags set_state set_header_state set_index set_nread
       set_content_length set_http_major set_http_minor set_status_code set_method
       set_http_errno set_upgrade tail].

(** Opens the definitions of the cases. *)
Ltac open_case :=
  unfold case_s_dead, case_s_start_req_or_res, case_s_res_or_resp_H, case_s_start_res,
    case_expect, case_s_res_first_http_major, case_http_major, case_first_http_minor,
    add_http_minor, case_s_res_http_minor, case_s_res_first_status_code,
    case_s_res_status_code, case_s_res_status_start, case_s_res_status,
    case_s_start_req, case_s_req_method, url_step, case_s_req_spaces_before_url,
    case_url_no_space, case_url_rest, case_s_req_http_start, case_s_req_first_http_major,
    case_s_req_http_minor, case_s_req_line_almost_done, case_s_header_field_start,
    to_header_state, next_index, header_field_char, case_s_header_field,
    case_s_header_value_discard_ws, case_s_header_value_start,
    content_length_char, header_value_char, case_s_header_value, case_s_header_almost_done,
    case_s_header_value_lws, case_s_header_value_discard_ws_almost_done,
    case_s_header_value_discard_lws, case_s_headers_almost_done,
    message_complete, case_s_headers_done, read_body, case_s_body_identity,
    case_s_body_identity_eof, case_s_message_done, message_complete, assert_chunked,
    case_s_chunk_size_start, case_s_chunk_size, case_s_chunk_parameters,
    case_s_chunk_size_almost_done, case_s_chunk_data, case_s_chunk_data_almost_done,
    case_s_chunk_data_done.
