(* ===== verification/HttpInvariant.v ===== *)
(** * The invariant of the HTTP parser

    What [http_parser_execute] keeps true of the parser struct and of its
    local marks between two bytes, and what follows from it: no assertion of
    the function can fail, no keyword or method string is read out of bounds,
    both loops terminate. *)

From stdpp Require Import options.
From S2P Require Import Prelude HttpTypes HttpExecute HttpLogic.

(** ** Statement *)

(** The [header_state] values the [switch] of [s_header_field] handles. *)
Definition field_header_state (h : header_states) : bool :=
  match h with
  | h_matching_transfer_encoding_chunked | h_matching_connection_keep_alive
  | h_matching_connection_close | h_transfer_encoding_chunked
  | h_connection_keep_alive | h_connection_close => false
  | _ => true
  end.

(** The ones [s_header_value] does not assert against. *)
Definition value_header_state (h : header_states) : bool :=
  match h with h_connection | h_transfer_encoding => false | _ => true end.

(** What each state knows; [n] is the value of [nread] expected in
    [s_chunk_size_start] (0 between two bytes, 1 once the byte is counted). *)
Definition state_inv (n : Z) (p : http_parser) : Prop :=
  match p_state p with
  | s_req_method =>
      0 <= p_index p <= Z.of_nat (length (method_strings (p_method p)))
  | s_header_field => field_header_state (p_header_state p) = true
  | s_header_value => value_header_state (p_header_state p) = true
  | s_chunk_size_start => p_nread p = n /\ has_flag (p_flags p) F_CHUNKED = true
  | s_chunk_size | s_chunk_parameters | s_chunk_size_almost_done =>
      p_content_length p < ULLONG_MAX /\ has_flag (p_flags p) F_CHUNKED = true
  | s_chunk_data =>
      0 < p_content_length p < ULLONG_MAX /\ has_flag (p_flags p) F_CHUNKED = true
  | s_chunk_data_almost_done =>
      p_content_length p = 0 /\ has_flag (p_flags p) F_CHUNKED = true
  | s_chunk_data_done => has_flag (p_flags p) F_CHUNKED = true
  | s_body_identity => 0 < p_content_length p < ULLONG_MAX
  | _ => True
  end.

Record inv_at (n : Z) (p : http_parser) : Prop := mk_inv_at {
  inv_flags : 0 <= p_flags p < 64;
  inv_nread : 0 <= p_nread p <= HTTP_MAX_HEADER_SIZE;
  inv_content_length : 0 <= p_content_length p <= ULLONG_MAX;
  inv_major : 0 <= p_http_major p <= 999;
  inv_minor : 0 <= p_http_minor p <= 999;
  inv_status : 0 <= p_status_code p <= 999;
  inv_index : 0 <= p_index p < 256;
  inv_state : state_inv n p
}.

(** The invariant between two calls. *)
Definition parser_inv (p : http_parser) : Prop :=
  resumable (p_http_errno p) = true -> inv_at 0 p.

(** The state in which each mark may be set. *)
Definition live (k : data_for) (st : state) : bool :=
  match k, st with
  | FOR_header_field, s_header_field => true
  | FOR_header_value, s_header_value => true
  | FOR_url, (s_req_path | s_req_schema | s_req_schema_slash | s_req_schema_slash_slash
             | s_req_server_start | s_req_server | s_req_server_with_at
             | s_req_query_string_start | s_req_query_string
             | s_req_fragment_start | s_req_fragment) => true
  | FOR_status, s_res_status => true
  | FOR_body, (s_body_identity | s_body_identity_eof | s_chunk_data
              | s_chunk_data_almost_done) => true
  | _, _ => false
  end.

(** A mark is only set in the states that use it, and points at or before
    [q]; all marks but the one of the body are always set there. *)
Definition mark_ok (k : data_for) (st : state) (q : bytes) (o : option bytes) : Prop :=
  match o with
  | Some mark => live k st = true /\ q `suffix_of` mark
  | None => match k with FOR_body => True | _ => live k st = false end
  end.

Definition marks_ok (st : state) (q : bytes) (m : marks) : Prop :=
  mark_ok FOR_header_field st q (header_field_mark m) /\
  mark_ok FOR_header_value st q (header_value_mark m) /\
  mark_ok FOR_url st q (url_mark m) /\
  mark_ok FOR_body st q (body_mark m) /\
  mark_ok FOR_status st q (status_mark m).

Record good {D} (n : Z) (s : mstate D) : Prop := mk_good {
  good_inv : inv_at n (m_parser s);
  good_errno : p_http_errno (m_parser s) = HPE_OK;
  good_marks : marks_ok (p_state (m_parser s)) (m_p s) (m_marks s)
}.

(** A bound on the remaining jumps to [reexecute_byte]. *)
Definition rank (st : state) : nat :=
  match st with
  | s_header_value_lws | s_header_value_discard_lws
  | s_body_identity | s_body_identity_eof | s_chunk_data => 3
  | s_header_field_start => 2
  | s_start_req_or_res | s_headers_almost_done | s_header_value => 1
  | _ => 0
  end.

(** What one [dispatch] leaves, by way of leaving. *)
Definition dispatched {D} (s s' : mstate D) : Prop :=
  good 0 s' /\ m_p s' <> [] /\ m_p s' `suffix_of` m_p s.

Definition exited {D} (s : mstate D) (x : exit) (s' : mstate D) : Prop :=
  match x with
  | X_reexecute =>
      good 1 s' /\ m_p s' <> [] /\ m_p s' `suffix_of` m_p s
      /\ (rank (p_state (m_parser s')) < rank (p_state (m_parser s)))%nat
  | X_error =>
      syntax_error (p_http_errno (m_parser s')) = true /\ m_p s' `suffix_of` m_p s
  | X_return q =>
      parser_inv (m_parser s') /\ q `suffix_of` m_p s
      /\ (p_http_errno (m_parser s') = HPE_OK -> p_upgrade (m_parser s') = true)
  | X_undefined | X_out_of_fuel => False
  end.

(** ** Facts about bytes and keywords *)

Lemma IS_NUM_range ch : IS_NUM ch = true -> 0 <= sc ch - sc "0" <= 9.
Proof. unfold IS_NUM. intros. to_prop. change (sc "9") with 57 in *. change (sc "0") with 48 in *. lia. Qed.

Lemma unhex_range ch : -1 <= unhex ch <= 15.
Proof.
  pose proof (forall_bytes (fun c => (-1 <=? unhex c) && (unhex c <=? 15))
                ltac:(vm_compute; reflexivity) ch) as H.
  cbv beta in H. to_prop. lia.
Qed.

Lemma method_alternative_length m i ch m' :
  method_alternative m i ch = Some m' ->
  0 <= i /\ i + 1 <= Z.of_nat (length (method_strings m')).
Proof.
  unfold method_alternative. intros H.
  repeat match type of H with
  | (if ?c then _ else _) = _ => destruct c eqn:?
  end; simplify_eq; to_prop; subst; vm_compute; intuition congruence.
Qed.

Lemma method_strings_short m : (1 <= length (method_strings m) <= 11)%nat.
Proof. destruct m; vm_compute; lia. Qed.

Lemma method_index_next m i ch :
  0 <= i -> (ch == NUL) = false -> (ch == nth (Z.to_nat i) (method_strings m) NUL) = true ->
  i + 1 <= Z.of_nat (length (method_strings m)).
Proof.
  intros Hi Hn He. apply Ascii.eqb_neq in Hn. apply Ascii.eqb_eq in He.
  destruct (decide (Z.to_nat i < length (method_strings m))%nat); [lia|].
  rewrite nth_overflow in He by lia. contradiction.
Qed.

(** ** Every case preserves the invariant *)

Ltac wrap_facts :=
  repeat match goal with
  | |- context [wrap ?w ?z] =>
      lazymatch goal with
      | _ : 0 <= wrap w z < _ |- _ => fail
      | _ => pose proof (wrap_bound w z ltac:(lia))
      end
  end.

Ltac unwrap :=
  repeat match goal with
  | |- context [wrap ?w ?z] => rewrite (wrap_small w z) by lia
  | H : context [wrap ?w ?z] |- _ => rewrite (wrap_small w z) in H by lia
  end.

Ltac consts :=
  change ((ULLONG_MAX - 16) / 16) with 1152921504606846974 in *;
  change ((ULLONG_MAX - 10) / 10) with 1844674407370955160 in *;
  unfold ULLONG_MAX, HTTP_MAX_HEADER_SIZE in *;
  change (2 ^ 64) with 18446744073709551616 in *; change (2 ^ 32) with 4294967296 in *;
  change (2 ^ 16) with 65536 in *; change (2 ^ 8) with 256 in *; change (2 ^ 6) with 64 in *;
  change (sc "0") with 48 in *; change (sc "1") with 49 in *; change (sc "9") with 57 in *.

Ltac arith :=
  wrap_facts; consts;
  first [ lia | unwrap; lia
        | rewrite ?andb_true_iff, ?negb_true_iff, ?Z.eqb_neq, ?Z.eqb_eq; lia ].

Ltac nonempty := solve [discriminate | assumption | apply drop_nonempty; cbn; lia].
Ltac suff :=
  solve [ reflexivity | assumption
        | eapply suffix_trans; eassumption
        | eauto using suffix_trans with fibp ].

Lemma NEW_MESSAGE_cases p :
  NEW_MESSAGE p = s_start_req \/ NEW_MESSAGE p = s_start_res \/ NEW_MESSAGE p = s_dead.
Proof. unfold NEW_MESSAGE, start_state. repeat split_if; auto. Qed.

Lemma parse_url_char_live st ch :
  parse_url_char st ch = s_dead \/ live FOR_url (parse_url_char st ch) = true.
Proof. unfold parse_url_char. destruct st; repeat split_if; auto. Qed.

Section Preservation.
Context {D : Type} (settings : http_parser_settings D).

Ltac enter :=
  intros [[ty fl st hs idx nr cl mj mn sc_ me er up] q [hf hv u bd ss] d] ch c0 rest Hst Hq
    [[Hfl Hnr Hcl Hmj Hmn Hsc Hidx Hinv] Hok (Hm1 & Hm2 & Hm3 & Hm4 & Hm5)];
  cbn in Hst, Hq, Hfl, Hnr, Hcl, Hmj, Hmn, Hsc, Hidx, Hok, Hm1, Hm2, Hm3, Hm4, Hm5;
  subst st q er; unfold state_inv in Hinv; cbn in Hinv; unfold mark_ok in *;
  destruct hf as [?|]; try discriminate; try (destruct Hm1; discriminate);
  destruct hv as [?|]; try discriminate; try (destruct Hm2; discriminate);
  destruct u as [?|]; try discriminate; try (destruct Hm3; discriminate);
  destruct bd as [?|]; try discriminate; try (destruct Hm4; discriminate);
  destruct ss as [?|]; try discriminate; try (destruct Hm5; discriminate);
  repeat match goal with H : _ /\ _ |- _ => destruct H end;
  cbn [dispatch]; open_case.

Ltac marks_tac := cbn; repeat split; auto; suff.

Ltac field_tac :=
  unfold state_inv; reduce; first [ done | assumption | arith | subst; done | split; [arith | assumption] ].

Ltac good_tac := split; [split; field_tac | done | marks_tac].

(** The states chosen by a function of the parser or of the byte. *)
Ltac next_states :=
  match goal with
  | |- dispatched _ (mk_mstate (mk_parser _ _ (if ?c then _ else _) _ _ _ _ _ _ _ _ _ _) _ _ _) =>
      destruct c eqn:?
  | |- dispatched _ (mk_mstate (mk_parser _ _ _ (if ?c then _ else _) _ _ _ _ _ _ _ _ _) _ _ _) =>
      destruct c eqn:?
  | |- exited _ _ (mk_mstate (mk_parser _ _ (if ?c then _ else _) _ _ _ _ _ _ _ _ _ _) _ _ _) =>
      destruct c eqn:?
  | |- context [NEW_MESSAGE ?p] =>
      let E := fresh in destruct (NEW_MESSAGE_cases p) as [E|[E|E]]; rewrite E; clear E
  | H : (parse_url_char ?st ?ch =e s_dead) = false |- _ =>
      apply enum_eqb_neq in H;
      let E := fresh in
      destruct (parse_url_char_live st ch) as [E|E]; [contradiction|];
      generalize dependent (parse_url_char st ch);
      intros [] ? ?; try discriminate
  | H : negb (?e =e HPE_OK) = false |- _ =>
      apply negb_false_iff in H; apply enum_eqb_eq in H; subst e
  | H : negb (?e =e HPE_OK) = true |- _ =>
      apply negb_true_iff in H; apply enum_eqb_neq in H
  | H : IS_NUM _ = true |- _ => apply IS_NUM_range in H
  | H : negb (IS_NUM _) = false |- _ => apply negb_false_iff in H
  end.

Ltac leave :=
  to_prop;
  lazymatch goal with
  | |- dispatched _ _ => split_and!; [reduce; good_tac | nonempty | suff]
  | |- exited _ X_error _ => split; [done | suff]
  | |- exited _ (X_return _) _ => 
      split_and!; [intros ?; split; field_tac | suff | reduce; first [done | congruence]]
  | |- exited _ X_reexecute _ => split_and!; [reduce; good_tac | nonempty | suff | cbn; lia]
  end.

Ltac solve_case :=
  enter; repeat (first [next_states | wp_step | progress open_case]; reduce); try done; try assumption;
  try solve [leave | arith].

(** [ch] is the byte read at the top of the loop; after a jump back from the
    end of a body, [p] has moved past it. *)
Definition preserved (st : state) : Prop :=
  forall (s : mstate D) (ch c0 : ascii) rest,
    p_state (m_parser s) = st -> m_p s = c0 :: rest -> good 1 s ->
    wp (dispatch settings st ch) (fun _ => dispatched s) (exited s) s.



Lemma preserved_simple st :
  match st with s_start_req | s_req_method | s_header_field | s_header_value
              | s_chunk_size_start | s_chunk_size | s_body_identity | s_body_identity_eof
              | s_chunk_data => False
              | _ => True end -> preserved st.
Proof. destruct st; try done; intros _; solve_case. Qed.

Lemma preserved_header st : st = s_header_field \/ st = s_header_value -> preserved st.
Proof. intros [-> | ->]; solve_case. Qed.

Lemma preserved_chunk_size st : st = s_chunk_size_start \/ st = s_chunk_size -> preserved st.
Proof. intros [-> | ->]; solve_case. all: pose proof (unhex_range ch); leave. Qed.
Lemma preserved_start_req : preserved s_start_req.
Proof. solve_case. all: pose proof (method_strings_short h); leave. Qed.
Lemma preserved_body st : st = s_body_identity \/ st = s_body_identity_eof \/ st = s_chunk_data -> preserved st.
Proof. intros [-> | [-> | ->]]; solve_case. Qed.
Lemma preserved_req_method : preserved s_req_method.
Proof.
  solve_case.
  - pose proof (method_index_next me idx ch ltac:(done) Heqb Heqb1).
    pose proof (method_strings_short me). leave.
  - apply method_alternative_length in Heqo.
    pose proof (method_strings_short h). leave.
Qed.

Lemma dispatch_preserved st : preserved st.
Proof.
  destruct st; auto using preserved_header, preserved_chunk_size, preserved_start_req,
    preserved_body, preserved_req_method; by apply preserved_simple.
Qed.

End Preservation.
