(* ===== verification/HttpSafety.v ===== *)
(** * Safety of [http_parser_execute]

    The loops around the switch, the leftover callbacks and the entry point:
    from the invariant of [HttpInvariant] to the statements about a whole call. *)

From stdpp Require Import options.
From S2P Require Import Prelude HttpTypes HttpExecute HttpLogic HttpInvariant.

Section Loops.
Context {D : Type} (settings : http_parser_settings D).

(** ** The loops *)

(** The bytes re-dispatched: never more than [rank + 1] times. *)
Lemma reexecute_preserved fuel ch (s : mstate D) :
  good 1 s -> m_p s <> [] -> (rank (p_state (m_parser s)) < fuel)%nat ->
  wp (reexecute_byte settings fuel ch) (fun _ => dispatched s)
    (fun x s' => x <> X_reexecute /\ exited s x s') s.
Proof.
  revert s. induction fuel as [|fuel IH]; intros s Hg Hp Hr; [lia|].
  destruct (m_p s) as [|c0 rest] eqn:Hps; [done|].
  pose proof (dispatch_preserved settings _ s ch c0 rest eq_refl Hps Hg) as Hd.
  unfold wp in Hd |- *. cbn [reexecute_byte].
  destruct (dispatch settings _ ch s) as [[] s'] eqn:E; try done.
  destruct Hd as (Hg' & Hp' & Hs' & Hr').
  specialize (IH s' Hg' Hp' ltac:(lia)). revert IH. unfold wp.
  destruct (reexecute_byte settings fuel ch s') as [[] s''];
    cbn; unfold dispatched; intuition eauto using suffix_trans.
Qed.

Lemma count_header_byte_good (s : mstate D) :
  good 0 s ->
  wp count_header_byte (fun _ s' => good 1 s' /\ m_p s' = m_p s)
    (fun x s' => x = X_error /\ exited s x s') s.
Proof.
  destruct s as [[ty fl st hs idx nr cl mj mn sc_ me er up] q m d].
  intros [[Hfl Hnr Hcl Hmj Hmn Hsc Hidx Hst] Hok Hm]. cbn in Hfl, Hnr, Hcl, Hmj, Hmn, Hsc, Hidx, Hok.
  unfold count_header_byte. apply wp_bind, wp_parser. reduce.
  assert (w32 (nr + 1) = nr + 1) as Hw by (apply wrap_small; consts; lia).
  destruct (PARSING_HEADER st) eqn:Hh.
  - apply wp_bind, wp_modify, wp_bind, wp_parser. reduce. rewrite Hw. split_if.
    + apply wp_error. by repeat split.
    + to_prop. apply wp_ret. split; [|done]. split; [|done|exact Hm].
      split; reduce; try done; [lia|].
      unfold state_inv in *; reduce. cbn [p_state] in Hst.
      destruct st; try done. cbn in Hst. destruct Hst as [-> ?]. done.
  - apply wp_ret. split; [|done]. split; [|done|exact Hm]. split; try done.
    unfold state_inv in *. by destruct st.
Qed.

(** A whole iteration, [p++] included. *)
Definition iterated (s s' : mstate D) : Prop :=
  good 0 s' /\ m_p s' `suffix_of` m_p s /\ (length (m_p s') < length (m_p s))%nat.

Lemma marks_ok_suffix st q q' m : q' `suffix_of` q -> marks_ok st q m -> marks_ok st q' m.
Proof.
  intros Hs. unfold marks_ok, mark_ok.
  repeat case_match; intuition eauto using suffix_trans.
Qed.

Lemma advance_good (s s' : mstate D) :
  good 0 s' -> m_p s' <> [] -> m_p s' `suffix_of` m_p s ->
  iterated s (mk_mstate (m_parser s') (tail (m_p s')) (m_marks s') (m_data s')).
Proof.
  intros [Hi He Hm] Hn Hs. pose proof (suffix_length _ _ Hs).
  split_and!; cbn.
  - split; [done..|]. cbn. eapply marks_ok_suffix; [apply suffix_tail|done].
  - by apply suffix_tail_of.
  - destruct (m_p s'); [done|]. cbn in *. lia.
Qed.

Lemma loop_body_preserved ch (s : mstate D) :
  good 0 s -> m_p s <> [] ->
  wp (loop_body settings ch) (fun _ => iterated s)
    (fun x s' => x <> X_reexecute /\ exited s x s') s.
Proof.
  intros Hg Hp. unfold loop_body.
  apply wp_bind. eapply wp_mono; [| |by apply count_header_byte_good].
  2:{ by intros x s' [-> ?]. }
  intros _ s1 [Hg1 Hp1]. apply wp_bind.
  eapply wp_mono; [| |apply reexecute_preserved; [done|congruence|]].
  - intros _ s2 (Hg2 & Hn2 & Hs2). rewrite Hp1 in Hs2.
    apply wp_bind, wp_p, wp_set_p. by apply advance_good.
  - intros x s2. unfold exited. rewrite Hp1. destruct x; intuition congruence.
  - unfold reexecute_fuel. destruct (p_state (m_parser s1)); cbn; lia.
Qed.
Lemma for_loop_preserved fuel (s : mstate D) :
  good 0 s -> (length (m_p s) <= fuel)%nat ->
  wp (for_loop settings fuel) (fun _ s' => good 0 s' /\ m_p s' = [])
    (fun x s' => x <> X_reexecute /\ exited s x s') s.
Proof.
  revert s. induction fuel as [|fuel IH]; intros s Hg Hf;
    destruct (m_p s) as [|ch rest] eqn:E; cbn in Hf; try lia;
    unfold wp; cbn [for_loop]; rewrite E; try done.
  pose proof (loop_body_preserved ch s Hg ltac:(congruence)) as Hb.
  change (wp (bind (loop_body settings ch) (fun _ => for_loop settings fuel))
            (fun _ s' => good 0 s' /\ m_p s' = [])
            (fun x s' => x <> X_reexecute /\ exited s x s') s).
  apply wp_bind. eapply wp_mono; [| |exact Hb]; [|done].
  intros _ s1 (Hg1 & Hs1 & Hl1). rewrite E in Hl1. cbn in Hl1.
  eapply wp_mono; [| |apply IH; [done|lia]]; [done|].
  intros x s2 [Hx He]. split; [done|]. revert He. unfold exited.
  destruct x; intuition eauto using suffix_trans.
Qed.

(** ** The leftover callbacks *)

Lemma flush_marks_preserved (s : mstate D) :
  good 0 s ->
  wp (flush_marks settings)
    (fun _ s' => m_parser s' = m_parser s)
    (fun x s' => x = X_return (m_p s) /\ parser_inv (m_parser s')
                 /\ p_http_errno (m_parser s') <> HPE_OK) s.
Proof.
  intros [Hi Hok Hm]. destruct s as [p q [hf hv u bd ss] d]. cbn in *.
  assert (forall e, p_http_errno (set_http_errno e p) = e) as He by done.
  assert (forall e, parser_inv (set_http_errno e p)) as Hpi.
  { intros e ?. destruct Hi as [????????]. by split. }
  assert ((is_set hf + is_set hv + is_set u + is_set bd + is_set ss <=? 1) = true) as Hc.
  { destruct Hm as (H1 & H2 & H3 & H4 & H5). cbn in *.
    destruct hf, hv, u, bd, ss; try done; exfalso; destruct (p_state p); cbn in *; tauto || intuition discriminate. }
  unfold flush_marks. apply wp_bind. unfold wp at 1.
  cbn [m_marks header_field_mark header_value_mark url_mark body_mark status_mark].
  rewrite Hc. cbn [assert ret].
  unfold CALLBACK_DATA_NOADVANCE.
  repeat (wp_step; cbn [m_p m_parser]); auto.
Qed.

(** ** The entry point *)

Lemma start_marks_ok st data : marks_ok st data (start_marks st data).
Proof. unfold marks_ok, start_marks, mark_ok. by destruct st. Qed.

Lemma run_safe p (d : D) data :
  inv_at 0 p -> p_http_errno p = HPE_OK ->
  exists q p' d',
    run settings (mk_mstate p data (start_marks (p_state p) data) d) = Some (q, p', d')
    /\ parser_inv p' /\ q `suffix_of` data
    /\ (q = [] \/ p_http_errno p' <> HPE_OK \/ p_upgrade p' = true).
Proof.
  intros Hi Hok. set (s := mk_mstate p data _ d).
  assert (good 0 s) as Hg by (split; [done..|apply start_marks_ok]).
  pose proof (for_loop_preserved (length data) s Hg (le_n _)) as Hl.
  unfold run, bind, wp in *. change (m_p s) with data.
  destruct (for_loop settings (length data) s) as [[] s1]; try (by destruct Hl); try (by destruct Hl as [? []]).
  - destruct Hl as [Hg1 Hp1]. pose proof (flush_marks_preserved s1 Hg1) as Hf.
    unfold wp in Hf. destruct (flush_marks settings s1) as [[] s2]; try (destruct Hf as [Hf _]; discriminate Hf).
    + eexists _, _, _. split_and!; [done| |apply suffix_nil|by left].
      rewrite Hf. intros ?. apply Hg1.
    + destruct Hf as ([= ->] & Hpi & He).
      eexists _, _, _. split_and!; [done..|rewrite Hp1; apply suffix_nil|by right; left].
  - destruct Hl as (_ & Hr%syntax_error_final & Hs). eexists _, _, _. split_and!; [done| |done|].
    + unfold error_errno. split_if; [done|]. intros Hr'. congruence.
    + right; left. unfold error_errno. split_if; [done|].
      by apply enum_eqb_neq.
  - destruct Hl as (_ & Hpi & Hs & Hu). eexists _, _, _. split_and!; [done..|].
    right. destruct (decide (p_http_errno (m_parser s1) = HPE_OK)); auto.
Qed.
End Loops.

Lemma init_inv t : parser_inv (http_parser_init t).
Proof. intros _. by destruct t; split; cbn. Qed.


Section Execute.
Context {D : Type} (settings : http_parser_settings D).

Lemma execute_eof_safe p (d : D) :
  inv_at 0 p -> p_http_errno p = HPE_OK ->
  exists n p' d', execute_eof settings p d = Some (n, p', d') /\ parser_inv p'
    /\ (n = 0%nat \/ n = 1%nat /\ p_http_errno p' = HPE_INVALID_EOF_STATE).
Proof.
  intros Hi Hok. unfold execute_eof.
  destruct (p_state p) eqn:Hst;
    try (eexists _, _, _; split_and!; [done|by intros ?|by auto]; fail).
  pose proof (wp_CALLBACK_NOTIFY_ settings FOR_message_complete []
    (fun _ s => parser_inv (m_parser s)) (fun x s => (exists q, x = X_return q) /\ parser_inv (m_parser s))
    (mk_mstate p [] no_marks d) Hok) as Hw.
  unfold wp in Hw. change (CALLBACK_NOTIFY_NOADVANCE settings FOR_message_complete
    (mk_mstate p [] no_marks d)) with (CALLBACK_NOTIFY_ settings FOR_message_complete []
    (mk_mstate p [] no_marks d)).
  assert (forall e, parser_inv (set_http_errno e p)) as Hpi.
  { intros e ?. destruct Hi as [????????]. by split. }
  specialize (Hw ltac:(intros; by intros ?) ltac:(intros; cbn; eauto)).
  destruct (CALLBACK_NOTIFY_ _ _ _ _) as [[] s]; try (by destruct Hw as [[? [=]] ?]);
    eexists _, _, _; split_and!; try done; try (by destruct Hw); by left.
Qed.

(** A call from a state that satisfies the invariant is defined, keeps the
    invariant, and consumes the whole buffer unless it stopped on an error, a
    pause or an upgrade. *)
Lemma execute_defined p (d : D) data :
  parser_inv p ->
  exists n p' d', http_parser_execute settings p d data = Some (n, p', d') /\ parser_inv p'
    /\ (n <= Nat.max 1 (length data))%nat
    /\ (n = length data \/ p_http_errno p' <> HPE_OK \/ p_upgrade p' = true).
Proof.
  intros Hi. unfold http_parser_execute.
  destruct (p_http_errno p =e HPE_OK) eqn:He; cbn [negb]; cycle 1.
  { apply enum_eqb_neq in He. eexists _, _, _. split_and!; [done..|lia|by right; left]. }
  apply enum_eqb_eq in He. specialize (Hi ltac:(by rewrite He)).
  destruct data as [|c data].
  - destruct (execute_eof_safe p d Hi He) as (n & p' & d' & -> & Hp & Hn).
    eexists _, _, _. split_and!; [done..| |].
    + cbn. lia.
    + destruct Hn as [->|[_ Hn]]; [by left|]. right; left. by rewrite Hn.
  - destruct (run_safe settings p d (c :: data) Hi He) as (q & p' & d' & -> & Hp & Hs & Hc).
    eexists _, _, _. split_and!; [done..|lia|].
    destruct Hc as [->|]; [left; cbn; lia|by right].
Qed.

Lemma pause_inv p paused p' :
  parser_inv p -> http_parser_pause p paused = Some p' -> parser_inv p'.
Proof.
  unfold http_parser_pause. intros Hi H Hr.
  destruct (p_http_errno p) eqn:E; simplify_eq;
    (destruct Hi as [????????]; [by rewrite E|]; by split).
Qed.

(** ** Any history of calls *)

(** The parsers a client can hold: initialised, then used through
    [http_parser_execute] and [http_parser_pause] only. *)
Inductive reachable : http_parser -> D -> Prop :=
| reach_init t d : reachable (http_parser_init t) d
| reach_execute p d data n p' d' :
    reachable p d -> http_parser_execute settings p d data = Some (n, p', d') ->
    reachable p' d'
| reach_pause p d paused p' :
    reachable p d -> http_parser_pause p paused = Some p' -> reachable p' d.

Lemma reachable_inv p d : reachable p d -> parser_inv p.
Proof.
  induction 1 as [t d|p d data n p' d' _ IH He|p d paused p' _ IH Hp].
  - apply init_inv.
  - destruct (execute_defined p d data IH) as (? & ? & ? & E & ? & _).
    rewrite He in E. by simplify_eq.
  - by eapply pause_inv.
Qed.

(** C6: on every parser a client can reach, with any callbacks and any input,
    [http_parser_execute] returns: no assertion of the function fails, no
    method or keyword string is read out of bounds, a byte is dispatched at
    most [reexecute_fuel] times and the loop ends.  The result is at most the
    length of the buffer (or 1 for the end-of-input call). *)
Theorem execute_returns p d data :
  reachable p d ->
  exists n p' d', http_parser_execute settings p d data = Some (n, p', d')
    /\ (n <= Nat.max 1 (length data))%nat.
Proof.
  intros Hr. destruct (execute_defined p d data (reachable_inv p d Hr))
    as (n & p' & d' & He & _ & Hn & _). by exists n, p', d'.
Qed.

(** A call that leaves the parser without error and without an upgrade
    has consumed the whole buffer, so comparing the result with the number of
    bytes received (as the connection handlers do) detects every failure. *)
Theorem execute_consumes_all p d data n p' d' :
  reachable p d -> http_parser_execute settings p d data = Some (n, p', d') ->
  p_http_errno p' = HPE_OK -> p_upgrade p' = false -> n = length data.
Proof.
  intros Hr He Hok Hup. destruct (execute_defined p d data (reachable_inv p d Hr))
    as (? & ? & ? & He' & _ & _ & Hc). rewrite He in He'. simplify_eq.
  destruct Hc as [?|[?|?]]; congruence.
Qed.

(** C37: the struct's fields never overflow their widths: as long as the
    parser can still run, the header bytes counted stay within
    [HTTP_MAX_HEADER_SIZE], version and status numbers within 999, and a body
    is only read with a length that is neither 0 nor the "no length" sentinel. *)
Theorem reachable_bounds p d :
  reachable p d -> resumable (p_http_errno p) = true ->
  0 <= p_nread p <= HTTP_MAX_HEADER_SIZE
  /\ 0 <= p_http_major p <= 999 /\ 0 <= p_http_minor p <= 999
  /\ 0 <= p_status_code p <= 999 /\ 0 <= p_flags p < 64
  /\ (p_state p = s_body_identity \/ p_state p = s_chunk_data ->
      0 < p_content_length p < ULLONG_MAX).
Proof.
  intros Hr He. destruct (reachable_inv p d Hr He) as [????????].
  split_and!; try lia. unfold state_inv in *. intros [E|E]; rewrite E in *; tauto.
Qed.

End Execute.

(** ** Witnesses *)

Definition null_settings : http_parser_settings unit :=
  mk_settings None None None None None None None None.

Definition get_head : bytes := b "GET /x HTTP/1.1".

Lemma execute_returns_witness :
  exists n p' d', http_parser_execute null_settings (http_parser_init HTTP_REQUEST) tt get_head
      = Some (n, p', d') /\ (n <= Nat.max 1 (length get_head))%nat.
Proof. apply (execute_returns null_settings). constructor. Defined.

Lemma execute_consumes_all_witness : 15%nat = length get_head.
Proof.
  eapply (execute_consumes_all null_settings (http_parser_init HTTP_REQUEST) tt get_head);
    [constructor|vm_compute; reflexivity..].
Defined.

Lemma reachable_bounds_witness :
  0 <= p_nread (http_parser_init HTTP_BOTH) <= HTTP_MAX_HEADER_SIZE.
Proof.
  apply (reachable_bounds null_settings (http_parser_init HTTP_BOTH) tt);
    [constructor|reflexivity].
Defined.
