(* ===== verification/HttpSplit.v ===== *)
(** * Splitting the input of [http_parser_execute]

    The connection handlers feed the parser whatever the socket delivers, so
    a message arrives cut at arbitrary places.  This file shows that the cuts
    do not matter: parsing [a ++ b] in one call and parsing [a] then [b] end
    in the same parser and the same callback state, for the callbacks that
    treat consecutive pieces of one datum as their concatenation
    ([Streaming]).

    There are two simulations.  [ext]: a byte is processed in the same way
    whatever follows it in the buffer (except in a body, which is read in one
    step).  [ahead]: a run with bytes pending behind a mark and a run that
    has already delivered them stay in step. *)

From stdpp Require Import options.
From S2P Require Import Prelude HttpTypes HttpExecute HttpLogic HttpInvariant HttpSafety.

(** What the parser's client promises: the data callbacks succeed, do not
    pause, and two consecutive calls are one call on the concatenation.  The
    notification callbacks are unrestricted. *)
Class Streaming {D} (settings : http_parser_settings D) := {
  on_data : data_for -> bytes -> D -> D;
  data_cb_streams k : data_cb settings k = Some (fun _ w d => (0, false, on_data k w d));
  on_data_app k w1 w2 d : on_data k w2 (on_data k w1 d) = on_data k (w1 ++ w2) d
}.

(** The states whose step reads more than one byte. *)
Definition reads_body (st : state) : bool :=
  match st with s_body_identity | s_body_identity_eof | s_chunk_data => true | _ => false end.

(** ** Bytes after the end of the buffer *)

Section Extension.
Context {D : Type} (settings : http_parser_settings D) (rest : bytes).
Implicit Types s : mstate D.

Definition ext_mark (o : option bytes) : option bytes := (.++ rest) <$> o.
Definition ext_marks (m : marks) : marks :=
  mk_marks (ext_mark (header_field_mark m)) (ext_mark (header_value_mark m))
    (ext_mark (url_mark m)) (ext_mark (body_mark m)) (ext_mark (status_mark m)).
Definition ext (s : mstate D) : mstate D :=
  mk_mstate (m_parser s) (m_p s ++ rest) (ext_marks (m_marks s)) (m_data s).
Definition ext_flow {A} (f : flow A) : flow A :=
  match f with Return q => Return (q ++ rest) | _ => f end.
Definition ext_result {A} (r : flow A * mstate D) : flow A * mstate D :=
  (ext_flow (fst r), ext (snd r)).

(** [m] does the same in the longer buffer, and stays inside the shorter one. *)
Definition ext_ok {A} (m : exec D A) : Prop :=
  forall s, m_p s <> [] -> m (ext s) = ext_result (m s) /\ m_p (snd (m s)) <> [].

Lemma ext_marks_get k m : get_mark k (ext_marks m) = ext_mark (get_mark k m).
Proof. by destruct k, m. Qed.

Lemma ext_marks_set k o m : set_mark k (ext_mark o) (ext_marks m) = ext_marks (set_mark k o m).
Proof. by destruct k, m. Qed.

Lemma ext_bind {A B} (m : exec D A) (k : A -> exec D B) :
  ext_ok m -> (forall a, ext_ok (k a)) -> ext_ok (bind m k).
Proof.
  intros Hm Hk s Hs. destruct (Hm s Hs) as [Em Hp]. unfold bind. rewrite Em.
  destruct (m s) as [[] s']; cbn in *; try done. by apply Hk.
Qed.

Lemma ext_ret {A} (a : A) : ext_ok (ret a).
Proof. by intros s. Qed.
Lemma ext_goto_error {A} : ext_ok (A := A) goto_error.
Proof. by intros s. Qed.
Lemma ext_goto_reexecute_byte {A} : ext_ok (A := A) goto_reexecute_byte.
Proof. by intros s. Qed.
Lemma ext_assert c : ext_ok (assert c).
Proof. by destruct c; intros s. Qed.
Lemma ext_parser : ext_ok parser_.
Proof. by intros s. Qed.
Lemma ext_modify f : ext_ok (modify f).
Proof. by intros s. Qed.
Lemma ext_char_at w i : ext_ok (char_at w i).
Proof. unfold char_at. split_if; by intros s. Qed.
Lemma ext_return_p {A} : ext_ok (q <- p_ ;; return_ (A := A) q).
Proof. by intros s. Qed.
Lemma ext_return_tail {A} : ext_ok (q <- p_ ;; return_ (A := A) (tail q)).
Proof. intros [p [|c q] m d] Hs; by cbn in *. Qed.

Lemma ext_MARK k : ext_ok (MARK k).
Proof.
  intros s Hs. unfold MARK, ext. cbn [m_marks m_p m_parser m_data].
  rewrite ext_marks_get. destruct (get_mark k (m_marks s)); [done|].
  cbn [ext_mark fmap option_fmap option_map]. split; [|done].
  unfold ext_result, ext; cbn. do 2 f_equal. apply (ext_marks_set k (Some (m_p s))).
Qed.

Lemma ext_CALLBACK_NOTIFY k : ext_ok (CALLBACK_NOTIFY settings k).
Proof.
  intros [p [|c q] m d] Hs; [done|]. unfold CALLBACK_NOTIFY, CALLBACK_NOTIFY_, bind, p_, parser_, ext.
  cbn [m_p m_parser m_marks m_data]. destruct (p_http_errno p =e HPE_OK); [|done].
  cbn [assert ret]. destruct (notify_cb settings k) as [cb|]; [|done]. cbn.
  destruct (cb p d) as [[code paused] d']. by split_if.
Qed.

Lemma ext_take (m q : bytes) :
  take (length (m ++ rest) - length (q ++ rest))%nat (m ++ rest)
  = take (length m - length q)%nat m.
Proof.
  rewrite !length_app, take_app_le by lia. f_equal. lia.
Qed.

Lemma ext_CALLBACK_DATA_ k er er' s :
  er' = er ++ rest -> m_p s <> [] ->
  CALLBACK_DATA_ settings k (m_p s ++ rest) er' (ext s)
  = ext_result (CALLBACK_DATA_ settings k (m_p s) er s)
  /\ m_p (snd (CALLBACK_DATA_ settings k (m_p s) er s)) <> [].
Proof.
  intros -> Hs. unfold CALLBACK_DATA_, bind, parser_, ext. cbn [m_p m_parser m_marks m_data].
  destruct (p_http_errno (m_parser s) =e HPE_OK); [|done]. cbn [assert ret].
  cbn [m_p m_parser m_marks m_data]. rewrite ext_marks_get.
  destruct (get_mark k (m_marks s)) as [mark|]; [|done]. cbn [ext_mark fmap option_fmap option_map].
  destruct (data_cb settings k) as [cb|].
  - rewrite ext_take. destruct (cb _ _ _) as [[code paused] d]. split_if; [|done].
    split; [|done]. unfold ext_result, ext; cbn. do 2 f_equal. apply (ext_marks_set k None).
  - split; [|done]. unfold ext_result, ext; cbn. do 2 f_equal. apply (ext_marks_set k None).
Qed.

Lemma ext_CALLBACK_DATA k : ext_ok (CALLBACK_DATA settings k).
Proof.
  intros s Hs. apply ext_CALLBACK_DATA_; [|done]. cbn. by destruct (m_p s).
Qed.
Lemma ext_CALLBACK_DATA_NOADVANCE k : ext_ok (CALLBACK_DATA_NOADVANCE settings k).
Proof. intros s Hs. by apply ext_CALLBACK_DATA_. Qed.

Lemma ext_call_headers_complete : ext_ok (call_headers_complete settings).
Proof.
  unfold call_headers_complete. destruct (on_headers_complete settings) as [cb|]; [|apply ext_ret].
  apply ext_bind.
  - intros s Hs. cbn. destruct (cb _ _) as [[code paused] d]. done.
  - intros r. repeat split_if; auto using ext_ret, ext_modify.
    apply ext_bind; [apply ext_modify|]. intros _. apply ext_return_p.
Qed.

(** The rules follow the structure of the code. *)
Ltac ext_step :=
  lazymatch goal with
  | |- ext_ok (bind p_ (fun q => return_ q)) => apply ext_return_p
  | |- ext_ok (bind p_ (fun q => return_ (tail q))) => apply ext_return_tail
  | |- ext_ok (bind _ _) => apply ext_bind; [|intros ?]
  | |- ext_ok (ret _) => apply ext_ret
  | |- ext_ok break => apply ext_ret
  | |- ext_ok goto_error => apply ext_goto_error
  | |- ext_ok goto_reexecute_byte => apply ext_goto_reexecute_byte
  | |- ext_ok (assert _) => apply ext_assert
  | |- ext_ok parser_ => apply ext_parser
  | |- ext_ok (modify _) => apply ext_modify
  | |- ext_ok (goto_state _) => apply ext_modify
  | |- ext_ok (SET_ERRNO _) => apply ext_modify
  | |- ext_ok (error _) => unfold error
  | |- ext_ok (STRICT_CHECK _) => unfold STRICT_CHECK
  | |- ext_ok new_message => unfold new_message
  | |- ext_ok (match_word _ _ _) => unfold match_word
  | |- ext_ok (char_at _ _) => apply ext_char_at
  | |- ext_ok (MARK _) => apply ext_MARK
  | |- ext_ok (CALLBACK_NOTIFY _ _) => apply ext_CALLBACK_NOTIFY
  | |- ext_ok (CALLBACK_DATA _ _) => apply ext_CALLBACK_DATA
  | |- ext_ok (CALLBACK_DATA_NOADVANCE _ _) => apply ext_CALLBACK_DATA_NOADVANCE
  | |- ext_ok (call_headers_complete _) => apply ext_call_headers_complete
  | |- ext_ok (if ?c then _ else _) => destruct c
  | |- ext_ok (match ?h with _ => _ end) => destruct h
  | |- ext_ok (let x := ?v in _) => cbv zeta
  end; cbn beta.

Lemma ext_dispatch st ch : reads_body st = false -> ext_ok (dispatch settings st ch).
Proof.
  destruct st; try discriminate; intros _; cbn [dispatch];
    repeat (open_case; ext_step).
Qed.

(** A jump to [reexecute_byte] never enters a body state. *)
Lemma reexecuted_not_body s s' ch :
  good 1 s -> m_p s <> [] -> dispatch settings (p_state (m_parser s)) ch s = (Reexecute, s') ->
  good 1 s' /\ m_p s' <> [] /\ reads_body (p_state (m_parser s')) = false.
Proof.
  intros Hg Hp E. destruct (m_p s) as [|c0 q] eqn:Hq; [done|].
  pose proof (dispatch_preserved settings _ s ch c0 q eq_refl Hq Hg) as Hd.
  unfold wp in Hd. rewrite E in Hd. destruct Hd as (? & ? & _ & Hr). split_and!; try done.
  destruct (p_state (m_parser s)), (p_state (m_parser s')); cbn in *; done || lia.
Qed.

Definition ext_first (ch : ascii) (s : mstate D) : Prop :=
  dispatch settings (p_state (m_parser s)) ch (ext s)
  = ext_result (dispatch settings (p_state (m_parser s)) ch s)
  /\ m_p (snd (dispatch settings (p_state (m_parser s)) ch s)) <> [].

Lemma ext_reexecute fuel ch s :
  good 1 s -> m_p s <> [] -> ext_first ch s ->
  reexecute_byte settings fuel ch (ext s) = ext_result (reexecute_byte settings fuel ch s)
  /\ m_p (snd (reexecute_byte settings fuel ch s)) <> [].
Proof.
  revert s. induction fuel as [|fuel IH]; intros s Hg Hp [Hf Hp']; [done|].
  cbn [reexecute_byte]. change (m_parser (ext s)) with (m_parser s). rewrite Hf.
  destruct (dispatch settings (p_state (m_parser s)) ch s) as [[] s'] eqn:E;
    cbn [ext_result ext_flow fst snd] in *; try done.
  destruct (reexecuted_not_body _ _ _ Hg Hp E) as (? & ? & ?). apply IH; [done..|].
  by apply ext_dispatch.
Qed.

Lemma ext_count_header_byte : ext_ok count_header_byte.
Proof. unfold count_header_byte. repeat ext_step. Qed.

Lemma count_header_byte_state s :
  p_state (m_parser (snd (count_header_byte s))) = p_state (m_parser s).
Proof. unfold count_header_byte, bind, parser_. repeat (cbn; split_if); done. Qed.

Lemma ext_bind_at {A B} (m : exec D A) (k : A -> exec D B) s :
  m (ext s) = ext_result (m s) ->
  (forall a s', m s = (Normal a, s') -> k a (ext s') = ext_result (k a s')) ->
  bind m k (ext s) = ext_result (bind m k s).
Proof. unfold bind. intros ->. destruct (m s) as [[] s']; cbn; auto. Qed.

Lemma ext_loop_body ch s :
  good 0 s -> m_p s <> [] ->
  (forall s1, count_header_byte s = (Normal tt, s1) -> ext_first ch s1) ->
  loop_body settings ch (ext s) = ext_result (loop_body settings ch s).
Proof.
  intros Hg Hp Hb. unfold loop_body. apply ext_bind_at; [by apply ext_count_header_byte|].
  intros [] s1 E1. pose proof (count_header_byte_good s Hg) as Hc.
  unfold wp in Hc. rewrite E1 in Hc. cbn in Hc. destruct Hc as [Hg1 Hp1].
  rewrite <- Hp1 in Hp.
  destruct (ext_reexecute reexecute_fuel ch s1 Hg1 Hp (Hb _ E1)) as [Er Hp2].
  apply ext_bind_at; [done|]. intros ? s2 E2. rewrite E2 in Hp2.
  unfold ext, ext_result; cbn in *. do 2 f_equal. by destruct (m_p s2).
Qed.

(** Outside of bodies every byte is processed on its own. *)
Lemma ext_first_no_body ch s s1 :
  m_p s <> [] -> reads_body (p_state (m_parser s)) = false ->
  count_header_byte s = (Normal tt, s1) -> ext_first ch s1.
Proof.
  intros Hp Hb E. pose proof (count_header_byte_state s) as Hst.
  destruct (ext_count_header_byte s Hp) as [_ Hp1]. rewrite E in Hst, Hp1. cbn in Hst, Hp1.
  rewrite <- Hst in Hb. by apply ext_dispatch.
Qed.

End Extension.

(** ** Bytes delivered early *)

Section Ahead.
Context {D : Type} (settings : http_parser_settings D) `{!Streaming settings}.
Implicit Types s : mstate D.

(** The run on the left has bytes [w] pending behind the mark of [k]; the run
    on the right started a new call after [w], whose callback it has made. *)
Inductive ahead (k : data_for) : mstate D -> mstate D -> Prop :=
| ahead_same s : ahead k s s
| ahead_mark p q w m d :
    q `suffix_of` m ->
    ahead k (mk_mstate p q (set_mark k (Some (w ++ m)) no_marks) d)
            (mk_mstate p q (set_mark k (Some m) no_marks) (on_data k w d)).

(** The same for the mark of a body, which a new call does not set at once. *)
Inductive ahead_body : mstate D -> mstate D -> Prop :=
| ahead_unmarked p q w d :
    ahead_body (mk_mstate p q (set_mark FOR_body (Some (w ++ q)) no_marks) d)
               (mk_mstate p q no_marks (on_data FOR_body w d)).

Definition body_rel s s' : Prop := ahead_body s s' \/ ahead FOR_body s s'.

(** The two runs leave a piece of code in the same way. *)
Definition same_result (R : mstate D -> mstate D -> Prop) {A} (r r' : flow A * mstate D) : Prop :=
  match r, r' with
  | (Normal a, s), (Normal a', s') => a = a' /\ R s s'
  | (Reexecute, s), (Reexecute, s') => R s s'
  | (Goto_error, s), (Goto_error, s') => m_parser s = m_parser s' /\ m_p s = m_p s'
  | (Return q, s), (Return q', s') => q = q' /\ m_parser s = m_parser s' /\ m_data s = m_data s'
  | (Undefined, _), (Undefined, _) | (Out_of_fuel, _), (Out_of_fuel, _) => True
  | _, _ => False
  end.

Definition ahead_at {A} (k : data_for) (m : exec D A) s s' : Prop :=
  same_result (ahead k) (m s) (m s').

Lemma same_result_refl {A} R (r : flow A * mstate D) :
  (forall s, R s s) -> same_result R r r.
Proof. destruct r as [[] s]; cbn; auto. Qed.

Lemma same_result_mono {A} (R R' : mstate D -> mstate D -> Prop) (r r' : flow A * mstate D) :
  (forall s s', R s s' -> R' s s') -> same_result R r r' -> same_result R' r r'.
Proof. destruct r as [[] s], r' as [[] s']; cbn; intuition auto. Qed.

Lemma same_result_bind {A B} R R' (m : exec D A) (k : A -> exec D B) s s' :
  same_result R' (m s) (m s') ->
  (forall t t', m s = (Reexecute, t) -> R' t t' -> R t t') ->
  (forall a t t', m s = (Normal a, t) -> R' t t' -> same_result R (k a t) (k a t')) ->
  same_result R (bind m k s) (bind m k s').
Proof.
  unfold bind. intros Hm HR Hk.
  destruct (m s) as [[] t] eqn:E, (m s') as [[] t'] eqn:E'; cbn in Hm |- *; auto; try done.
  destruct Hm as [<- Ht]. by apply Hk.
Qed.

Lemma ahead_fields k s s' : ahead k s s' -> m_parser s = m_parser s' /\ m_p s = m_p s'.
Proof. by destruct 1. Qed.

Lemma ahead_bind {A B} k (m : exec D A) (f : A -> exec D B) s s' :
  ahead_at k m s s' -> (forall a t t', ahead k t t' -> ahead_at k (f a) t t') ->
  ahead_at k (bind m f) s s'.
Proof. intros Hm Hf. eapply same_result_bind; [exact Hm|done|]. intros. by apply Hf. Qed.

(** Code that leaves marks and callbacks alone. *)
Lemma ahead_ret {A} k (a : A) s s' : ahead k s s' -> ahead_at k (ret a) s s'.
Proof. by split. Qed.
Lemma ahead_goto_reexecute_byte {A} k s s' :
  ahead k s s' -> ahead_at (A := A) k goto_reexecute_byte s s'.
Proof. done. Qed.
Lemma ahead_modify k f s s' : ahead k s s' -> ahead_at k (modify f) s s'.
Proof. destruct 1; (split; [done|]); [apply ahead_same|by apply ahead_mark]. Qed.
Lemma ahead_parser k s s' : ahead k s s' -> ahead_at k parser_ s s'.
Proof. intros H. destruct (ahead_fields _ _ _ H). by split. Qed.
Lemma ahead_assert k c s s' : ahead k s s' -> ahead_at k (assert c) s s'.
Proof. intros. by destruct c. Qed.
Lemma ahead_char_at k w i s s' : ahead k s s' -> ahead_at k (char_at w i) s s'.
Proof. intros. unfold char_at. split_if; [|done]. by split. Qed.
Lemma ahead_error k e s s' : ahead k s s' -> ahead_at k (error e) s s'.
Proof. destruct 1; by cbn. Qed.

Lemma get_set_mark k o m : get_mark k (set_mark k o m) = o.
Proof. by destruct k, m. Qed.

Lemma clear_mark k o : set_mark k None (set_mark k o no_marks) = no_marks.
Proof. by destruct k. Qed.

(** What a data callback does when its mark is set. *)
Lemma streaming_CALLBACK_DATA_ k stop er p q m d :
  CALLBACK_DATA_ settings k stop er (mk_mstate p q (set_mark k (Some m) no_marks) d)
  = if p_http_errno p =e HPE_OK
    then (Normal tt, mk_mstate p q no_marks
                       (on_data k (take (length m - length stop)%nat m) d))
    else (Undefined, mk_mstate p q (set_mark k (Some m) no_marks) d).
Proof.
  unfold CALLBACK_DATA_, bind, parser_. cbn [m_parser m_marks m_data m_p].
  destruct (p_http_errno p =e HPE_OK) eqn:He; [|done].
  cbn [assert ret m_parser m_marks m_data m_p]. rewrite get_set_mark, data_cb_streams.
  unfold after_cb. cbn. by rewrite He, clear_mark.
Qed.

Lemma on_data_split k w (m q : bytes) d :
  q `suffix_of` m ->
  on_data k (take (length (w ++ m) - length q)%nat (w ++ m)) d
  = on_data k (take (length m - length q)%nat m) (on_data k w d).
Proof.
  intros Hs%suffix_length. rewrite on_data_app. f_equal.
  rewrite length_app, take_app_ge by lia. do 2 f_equal. lia.
Qed.

(** After the mark's callback the two runs agree. *)
Lemma ahead_CALLBACK_DATA_ k stop er s s' :
  ahead k s s' -> stop `suffix_of` m_p s -> ahead_at k (CALLBACK_DATA_ settings k stop er) s s'.
Proof.
  intros [] Hs; [apply same_result_refl, ahead_same|]. cbn in Hs. unfold ahead_at.
  rewrite !streaming_CALLBACK_DATA_, on_data_split by eauto using suffix_trans.
  split_if; [apply same_result_refl, ahead_same|done].
Qed.

Lemma ahead_CALLBACK_DATA k s s' : ahead k s s' -> ahead_at k (CALLBACK_DATA settings k) s s'.
Proof.
  intros H. destruct (ahead_fields _ _ _ H) as [_ Hp].
  unfold ahead_at, CALLBACK_DATA, bind, p_. rewrite <- Hp. by apply ahead_CALLBACK_DATA_.
Qed.

Lemma ahead_CALLBACK_DATA_NOADVANCE k s s' :
  ahead k s s' -> ahead_at k (CALLBACK_DATA_NOADVANCE settings k) s s'.
Proof.
  intros H. destruct (ahead_fields _ _ _ H) as [_ Hp].
  unfold ahead_at, CALLBACK_DATA_NOADVANCE, bind, p_. rewrite <- Hp. by apply ahead_CALLBACK_DATA_.
Qed.

Ltac ahead_step :=
  lazymatch goal with
  | |- ahead_at _ (bind _ _) _ _ => apply ahead_bind; [|intros ? ? ? ?]
  | |- ahead_at _ (ret _) _ _ => by apply ahead_ret
  | |- ahead_at _ break _ _ => by apply ahead_ret
  | |- ahead_at _ goto_reexecute_byte _ _ => by apply ahead_goto_reexecute_byte
  | |- ahead_at _ (assert _) _ _ => by apply ahead_assert
  | |- ahead_at _ parser_ _ _ => by apply ahead_parser
  | |- ahead_at _ (modify _) _ _ => by apply ahead_modify
  | |- ahead_at _ (goto_state _) _ _ => by apply ahead_modify
  | |- ahead_at _ (error _) _ _ => by apply ahead_error
  | |- ahead_at _ (STRICT_CHECK _) _ _ => unfold STRICT_CHECK
  | |- ahead_at _ (match_word _ _ _) _ _ => unfold match_word
  | |- ahead_at _ (char_at _ _) _ _ => by apply ahead_char_at
  | |- ahead_at ?k (CALLBACK_DATA _ ?k) _ _ => by apply ahead_CALLBACK_DATA
  | |- ahead_at ?k (CALLBACK_DATA_NOADVANCE _ ?k) _ _ => by apply ahead_CALLBACK_DATA_NOADVANCE
  | |- ahead_at _ (if ?c then _ else _) _ _ => destruct c
  | |- ahead_at _ (match ?h with _ => _ end) _ _ => destruct h
  | |- ahead_at _ (let x := ?v in _) _ _ => cbv zeta
  end; cbn beta.

(** The states with a live mark, the body apart. *)
Lemma ahead_dispatch_live k st ch s s' :
  live k st = true -> reads_body st = false -> ahead k s s' ->
  ahead_at k (dispatch settings st ch) s s'.
Proof.
  destruct k, st; try discriminate; intros _ _ H; cbn [dispatch]; repeat (open_case; ahead_step).
Qed.

(** ** Bodies *)

Lemma body_rel_same s : body_rel s s.
Proof. right. apply ahead_same. Qed.

Lemma body_rel_fields s s' : body_rel s s' -> m_parser s = m_parser s' /\ m_p s = m_p s'.
Proof. intros [[]|H]; [done|by eapply ahead_fields]. Qed.

(** A step in which the right-hand run sets its mark. *)
Lemma body_rel_MARK s s' :
  body_rel s s' -> same_result (ahead FOR_body) (MARK FOR_body s) (MARK FOR_body s').
Proof.
  intros [[p q w d]|[]].
  - split; [done|]. by apply (ahead_mark FOR_body p q w q d).
  - apply same_result_refl, ahead_same.
  - split; [done|]. by apply ahead_mark.
Qed.

Lemma ahead_set_p k q s s' : ahead k s s' -> q `suffix_of` m_p s -> ahead_at k (set_p q) s s'.
Proof.
  intros [] Hs; (split; [done|]); [apply ahead_same|].
  apply ahead_mark. by eapply suffix_trans.
Qed.

Lemma body_rel_assert_chunked s s' :
  body_rel s s' -> same_result body_rel (assert_chunked s) (assert_chunked s').
Proof.
  intros H. destruct (body_rel_fields _ _ H) as [Hp _].
  unfold assert_chunked, bind, parser_. rewrite Hp. by destruct (has_flag _ _); cbn.
Qed.

Lemma bind_p {A} (k : bytes -> exec D A) s : bind p_ k s = k (m_p s) s.
Proof. done. Qed.
Lemma bind_parser {A} (k : http_parser -> exec D A) s : bind parser_ k s = k (m_parser s) s.
Proof. done. Qed.
Lemma bind_assert {A} c (k : unit -> exec D A) s :
  bind (assert c) k s = if c then k tt s else (Undefined, s).
Proof. by destruct c. Qed.

Lemma body_rel_read_body s s' :
  body_rel s s' -> same_result (ahead FOR_body) (read_body s) (read_body s').
Proof.
  intros H. destruct (body_rel_fields _ _ H) as [Hp Hq].
  unfold read_body. rewrite !bind_p, !bind_parser, !bind_assert, <- Hp, <- Hq.
  split_if; [|done].
  eapply same_result_bind; [by apply body_rel_MARK|done|]. intros [] t t' E Ht.
  assert (m_p t = m_p s) as Hq'.
  { unfold MARK in E. case_match; by simplify_eq. }
  eapply same_result_bind; [by apply ahead_modify|done|]. intros [] t1 t1' E1 Ht1.
  apply ahead_set_p; [done|]. unfold modify in E1. simplify_eq. cbn.
  rewrite Hq'. apply suffix_drop.
Qed.

Lemma body_rel_dispatch st ch s s' :
  reads_body st = true \/ st = s_chunk_data_almost_done -> body_rel s s' ->
  ahead_at FOR_body (dispatch settings st ch) s s'.
Proof.
  intros Hst H. destruct (body_rel_fields _ _ H) as [Hp Hq].
  destruct st; try (by destruct Hst); unfold ahead_at; cbn [dispatch].
  - (* s_chunk_data *)
    eapply same_result_bind; [by apply body_rel_assert_chunked| |].
    { intros t t' E. unfold assert_chunked in E. rewrite bind_parser in E. by destruct (has_flag _ _). }
    intros _ t t' _ Ht.
    eapply same_result_bind; [by apply body_rel_read_body|done|]. intros _ t1 t1' _ Ht1.
    change (ahead_at FOR_body
      (bind parser_ (fun p => if p_content_length p =? 0 then goto_state s_chunk_data_almost_done else break)) t1 t1').
    repeat ahead_step.
  - (* s_chunk_data_almost_done *)
    destruct H as [[p q w d]|H]; cycle 1.
    { change (ahead_at FOR_body (case_s_chunk_data_almost_done settings ch) s s').
      repeat (open_case; ahead_step). }
    unfold case_s_chunk_data_almost_done, assert_chunked, bind, parser_, STRICT_CHECK, goto_state, modify.
    cbn [m_parser m_p m_marks m_data].
    destruct (has_flag _ _); [|done]. cbn [assert ret m_parser m_p m_marks m_data].
    destruct (_ =? 0); [|done]. cbn [assert ret m_parser m_p m_marks m_data].
    destruct (negb _); [done|]. cbn [ret m_parser m_p m_marks m_data].
    unfold CALLBACK_DATA. rewrite !bind_p, streaming_CALLBACK_DATA_. cbn [m_p].
    unfold CALLBACK_DATA_. rewrite bind_parser, bind_assert. cbn [m_parser m_marks get_mark no_marks body_mark].
    split_if; [|done]. rewrite length_app, Nat.add_sub, take_app_length.
    apply same_result_refl, ahead_same.
  - (* s_body_identity *)
    eapply same_result_bind; [by apply body_rel_read_body|done|]. intros _ t1 t1' _ Ht1.
    apply ahead_bind; [ahead_step|]. intros pa t2 t2' Ht2.
    destruct (ahead_fields _ _ _ Ht2) as [_ Hp2].
    split_if; [|by apply ahead_ret]. apply ahead_bind; [ahead_step|]. intros _ t3 t3' Ht3.
    apply ahead_bind; [|intros; ahead_step].
    destruct (ahead_fields _ _ _ Ht3) as [_ Hp3]. unfold ahead_at. rewrite !bind_p, <- Hp3.
    apply ahead_CALLBACK_DATA_; [done|]. apply suffix_tail.
  - (* s_body_identity_eof *)
    eapply same_result_bind; [by apply body_rel_MARK|done|]. intros [] t t' E Ht.
    destruct (ahead_fields _ _ _ Ht) as [_ Hp2].
    rewrite !bind_p, <- Hp2. apply ahead_set_p; [done|]. apply suffix_drop.
Qed.

(** ** The loops in step *)

Definition ahead_some s s' : Prop := exists k, ahead k s s'.
Definition in_step s s' : Prop := ahead_body s s' \/ ahead_some s s'.

Lemma ahead_some_same s : ahead_some s s.
Proof. exists FOR_url. apply ahead_same. Qed.

Lemma in_step_fields s s' : in_step s s' -> m_parser s = m_parser s' /\ m_p s = m_p s'.
Proof. intros [[]|[k H]]; [done|by eapply ahead_fields]. Qed.

Lemma good_live n k (s : mstate D) mark :
  good n s -> get_mark k (m_marks s) = Some mark -> live k (p_state (m_parser s)) = true.
Proof.
  intros [_ _ (H1 & H2 & H3 & H4 & H5)] E. destruct k; cbn in E.
  - rewrite E in H1. apply H1.
  - rewrite E in H2. apply H2.
  - rewrite E in H3. apply H3.
  - rewrite E in H4. apply H4.
  - rewrite E in H5. apply H5.
Qed.

Lemma live_body st :
  live FOR_body st = true -> reads_body st = true \/ st = s_chunk_data_almost_done.
Proof. destruct st; cbn; auto. Qed.

Lemma live_reads_body k st : live k st = true -> reads_body st = true -> k = FOR_body.
Proof. by destruct k, st. Qed.

Lemma in_step_dispatch n ch s s' :
  good n s -> in_step s s' ->
  same_result ahead_some (dispatch settings (p_state (m_parser s)) ch s)
    (dispatch settings (p_state (m_parser s)) ch s').
Proof.
  intros Hg [H|[k H]].
  - eapply same_result_mono, body_rel_dispatch; [by eexists| |by left]. apply live_body.
    destruct H as [p q w d]. by eapply good_live.
  - destruct H as [s|p q w m d Hs]; [apply same_result_refl, ahead_some_same|].
    pose proof (good_live _ k _ _ Hg (get_set_mark k _ _)) as Hl. cbn [m_parser] in *.
    destruct (reads_body (p_state p)) eqn:Hb.
    + pose proof (live_reads_body _ _ Hl Hb) as ->.
      eapply same_result_mono, body_rel_dispatch; [by eexists|by left|].
      right. by apply ahead_mark.
    + eapply same_result_mono; [|apply (ahead_dispatch_live k); [done..|by apply ahead_mark]].
      by eexists.
Qed.

Lemma in_step_reexecute fuel ch s s' :
  good 1 s -> m_p s <> [] -> in_step s s' ->
  same_result ahead_some (reexecute_byte settings fuel ch s) (reexecute_byte settings fuel ch s').
Proof.
  revert s s'. induction fuel as [|fuel IH]; intros s s' Hg Hq H; [done|]. cbn [reexecute_byte].
  destruct (in_step_fields _ _ H) as [Hp _]. rewrite <- Hp.
  pose proof (in_step_dispatch 1 ch s s' Hg H) as Hd.
  destruct (dispatch settings (p_state (m_parser s)) ch s) as [[] t] eqn:E,
    (dispatch settings (p_state (m_parser s)) ch s') as [[] t']; cbn in Hd; try done.
  destruct (reexecuted_not_body settings _ _ _ Hg Hq E) as (? & ? & _).
  apply IH; [done..|by right].
Qed.

Lemma in_step_count s s' :
  in_step s s' -> same_result in_step (count_header_byte s) (count_header_byte s').
Proof.
  intros [[p q w d]|[k [s0|p q w m d Hs]]].
  - unfold count_header_byte. rewrite !bind_parser. cbn [m_parser].
    split_if; [|by split; [|left]]. unfold bind, modify, parser_. cbn [m_parser m_p m_marks m_data].
    split_if; [done|]. split; [done|]. by left.
  - apply same_result_refl. intros; right; apply ahead_some_same.
  - unfold count_header_byte. rewrite !bind_parser. cbn [m_parser].
    split_if; [|by split; [|right; exists k; apply ahead_mark]].
    unfold bind, modify, parser_. cbn [m_parser m_p m_marks m_data].
    split_if; [done|]. split; [done|]. right. exists k. by apply ahead_mark.
Qed.

Lemma ahead_some_advance s s' :
  ahead_some s s' ->
  same_result ahead_some ((q <- p_ ;; set_p (tail q)) s) ((q <- p_ ;; set_p (tail q)) s').
Proof.
  intros [k H]. rewrite !bind_p. destruct (ahead_fields _ _ _ H) as [_ <-].
  eapply same_result_mono, ahead_set_p; [by eexists|done|apply suffix_tail].
Qed.

Lemma in_step_loop_body ch s s' :
  good 0 s -> m_p s <> [] -> in_step s s' ->
  same_result ahead_some (loop_body settings ch s) (loop_body settings ch s').
Proof.
  intros Hg Hq H. unfold loop_body.
  pose proof (count_header_byte_good s Hg) as Hc. unfold wp in Hc.
  eapply same_result_bind; [by apply in_step_count| |].
  { intros t t' E. rewrite E in Hc. by destruct Hc. }
  intros [] t t' E Ht. rewrite E in Hc. destruct Hc as [Hg1 Hp1].
  eapply same_result_bind; [apply in_step_reexecute; [done|congruence|done]|done|].
  intros _ t1 t1' _ Ht1. by apply ahead_some_advance.
Qed.

Lemma in_step_for_loop fuel s s' :
  good 0 s -> in_step s s' ->
  same_result in_step (for_loop settings fuel s) (for_loop settings fuel s').
Proof.
  revert s s'. induction fuel as [|fuel IH]; intros s s' Hg H;
    destruct (in_step_fields _ _ H) as [_ Hq]; cbn [for_loop]; rewrite <- Hq;
    destruct (m_p s) as [|ch q] eqn:E; try (by split); try done.
  eapply same_result_bind; [apply in_step_loop_body; [done|congruence|done]|by right|].
  intros [] t t' Et Ht. apply IH; [|by right].
  pose proof (loop_body_preserved settings ch s Hg ltac:(congruence)) as Hl.
  unfold wp in Hl. rewrite Et in Hl. apply Hl.
Qed.

(** ** The end of a call *)

Ltac pick k := solve [exists k; eexists; split_and!; [reflexivity|assumption..]].

(** A parser that is at rest has no mark, or the one of its state. *)
Lemma good_marks_shape n (s : mstate D) :
  good n s ->
  (m_marks s = no_marks /\ (forall k, k <> FOR_body -> live k (p_state (m_parser s)) = false))
  \/ exists k m, m_marks s = set_mark k (Some m) no_marks
       /\ live k (p_state (m_parser s)) = true /\ m_p s `suffix_of` m.
Proof.
  destruct s as [p q [hf hv u bd ss] d]. intros [_ _ (H1 & H2 & H3 & H4 & H5)]. unfold mark_ok in *.
  cbn [m_marks m_p m_parser header_field_mark header_value_mark url_mark body_mark status_mark] in *.
  assert (forall k k', live k (p_state p) = true -> live k' (p_state p) = true -> k = k') as Hu.
  { intros [] [] ??; destruct (p_state p); done. }
  destruct hf as [m1|], hv as [m2|], u as [m3|], bd as [m4|], ss as [m5|]; cbv iota in *;
    repeat match goal with H : _ /\ _ |- _ => destruct H end;
    try (left; split; [done|]; intros []; done);
    try (right; first [pick FOR_header_field | pick FOR_header_value | pick FOR_url
                      | pick FOR_body | pick FOR_status]);
    match goal with
    | H : live ?k ?st = true, H' : live ?k' ?st = true |- _ =>
        lazymatch k with k' => fail | _ => discriminate (Hu _ _ H H') end
    end.
Qed.

Lemma CALLBACK_DATA_unmarked k p q m (d : D) :
  p_http_errno p = HPE_OK -> get_mark k m = None ->
  CALLBACK_DATA_NOADVANCE settings k (mk_mstate p q m d) = (Normal tt, mk_mstate p q m d).
Proof.
  intros Hok Hm. unfold CALLBACK_DATA_NOADVANCE, CALLBACK_DATA_, bind, p_, parser_.
  cbn [m_p m_parser m_marks m_data]. rewrite Hok. cbn [enum_eqb assert ret].
  change (assert (HPE_OK =e HPE_OK) ?x) with (Normal tt, x). cbn [m_marks]. by rewrite Hm.
Qed.

Lemma CALLBACK_DATA_marked k p q m (d : D) :
  p_http_errno p = HPE_OK ->
  CALLBACK_DATA_NOADVANCE settings k (mk_mstate p q (set_mark k (Some m) no_marks) d)
  = (Normal tt, mk_mstate p q no_marks (on_data k (take (length m - length q)%nat m) d)).
Proof.
  intros Hok. unfold CALLBACK_DATA_NOADVANCE. rewrite bind_p, streaming_CALLBACK_DATA_, Hok. done.
Qed.

Lemma bind_normal {A B} (m : exec D A) (k : A -> exec D B) s a s' :
  m s = (Normal a, s') -> bind m k s = k a s'.
Proof. unfold bind. by intros ->. Qed.

Ltac flush_data Hok :=
  first [ apply CALLBACK_DATA_unmarked; [exact Hok|reflexivity]
        | refine (CALLBACK_DATA_marked _ _ _ _ _ Hok) ].
Ltac flush_step Hok := first [flush_data Hok | erewrite bind_normal by flush_data Hok].

Lemma flush_no_marks p q (d : D) :
  p_http_errno p = HPE_OK ->
  flush_marks settings (mk_mstate p q no_marks d) = (Normal tt, mk_mstate p q no_marks d).
Proof. intros Hok. unfold flush_marks. erewrite bind_normal by done. repeat flush_step Hok. Qed.

Lemma flush_one_mark k p q m (d : D) :
  p_http_errno p = HPE_OK ->
  flush_marks settings (mk_mstate p q (set_mark k (Some m) no_marks) d)
  = (Normal tt, mk_mstate p q no_marks (on_data k (take (length m - length q)%nat m) d)).
Proof.
  intros Hok. unfold flush_marks. erewrite bind_normal by by destruct k.
  destruct k; repeat flush_step Hok.
Qed.

(** Two runs in step deliver the same at the end. *)
Lemma in_step_flush s s' :
  p_http_errno (m_parser s) = HPE_OK -> m_p s = [] -> in_step s s' ->
  flush_marks settings s = flush_marks settings s'.
Proof.
  intros Hok Hq Hr. revert Hok Hq.
  destruct Hr as [[p q w d]|[k [s0|p q w m d Hs]]]; [|done|]; cbn [m_parser m_p]; intros Hok ->.
  - rewrite flush_one_mark, flush_no_marks by done.
    by rewrite app_nil_r, Nat.sub_0_r, firstn_all.
  - rewrite !flush_one_mark by done. by rewrite on_data_split.
Qed.

(** The results of [run] agree; the callback state may differ after a syntax
    error, which discards what is pending. *)
Definition same_run (r r' : option (bytes * http_parser * D)) : Prop :=
  match r, r' with
  | Some (q, p, d), Some (q', p', d') =>
      q = q' /\ p = p' /\ (syntax_error (p_http_errno p) = false -> d = d')
  | None, None => True
  | _, _ => False
  end.

Lemma in_step_run s s' : good 0 s -> in_step s s' -> same_run (run settings s) (run settings s').
Proof.
  intros Hg H. destruct (in_step_fields _ _ H) as [_ Hq].
  pose proof (for_loop_preserved settings (length (m_p s)) s Hg (le_n _)) as Hl.
  pose proof (in_step_for_loop (length (m_p s)) s s' Hg H) as Hr.
  unfold run, bind. rewrite <- Hq. unfold wp in Hl.
  destruct (for_loop settings _ s) as [[] t], (for_loop settings _ s') as [[] t']; cbn in Hr, Hl;
    try (by destruct Hr); try (by destruct Hl as [? []]); try done.
  - destruct Hr as [_ Hr], Hl as [Hg1 Hp1].
    rewrite (in_step_flush t t'); [|apply Hg1|done|done].
    by destruct (flush_marks settings t') as [[] t''].
  - destruct Hr as [Hr1 Hr2], Hl as [_ [Hs _]]. rewrite <- Hr1, <- Hr2.
    split_and!; try done. unfold error_errno. split_if; [done|]. intros. congruence.
  - destruct Hr as (-> & -> & ->). done.
Qed.

(** ** One byte at a time *)

(** The machine at the start of a call. *)
Definition start p (data : bytes) (d : D) : mstate D :=
  mk_mstate p data (start_marks (p_state p) data) d.

Lemma start_ext rest p data d : start p (data ++ rest) d = ext rest (start p data d).
Proof. unfold start, ext, start_marks. cbn. f_equal. by destruct (p_state p). Qed.

Lemma start_good p data d :
  inv_at 0 p -> p_http_errno p = HPE_OK -> good 0 (start p data d).
Proof. intros. split; [done..|apply start_marks_ok]. Qed.

Lemma start_marks_live k st data :
  live k st = true ->
  start_marks st data = match k with FOR_body => no_marks | _ => set_mark k (Some data) no_marks end.
Proof. by destruct k, st. Qed.

Lemma start_marks_dead st data :
  (forall k, k <> FOR_body -> live k st = false) -> start_marks st data = no_marks.
Proof.
  intros H. pose proof (H FOR_header_field). pose proof (H FOR_header_value).
  pose proof (H FOR_url). pose proof (H FOR_status). clear H.
  destruct st; cbn in *; try done; exfalso; intuition discriminate.
Qed.

Lemma good_ext n rest (s : mstate D) : good n s -> good n (ext rest s).
Proof.
  assert (forall k st q o, mark_ok k st q o -> mark_ok k st (q ++ rest) (ext_mark rest o)) as H.
  { intros k st q [m|]; cbn; [|done]. intros [? [w ->]]. split; [done|].
    exists w. by rewrite (assoc app). }
  intros [Hi He (H1 & H2 & H3 & H4 & H5)]. split; [done..|]. cbn. repeat split; by apply H.
Qed.

(** Ending a call and starting the next one keeps the two runs in step. *)
Lemma restart_in_step rest (s : mstate D) :
  good 0 s -> m_p s = [] ->
  exists d, flush_marks settings s = (Normal tt, mk_mstate (m_parser s) [] no_marks d)
    /\ in_step (ext rest s) (start (m_parser s) rest d).
Proof.
  intros Hg Hq. pose proof (good_errno _ _ Hg) as Hok.
  destruct (good_marks_shape 0 s Hg) as [[Hm Hl]|(k & m & Hm & Hl & Hs)];
    destruct s as [p q ms d]; cbn in Hq, Hm, Hok, Hl; subst q ms.
  - exists d. rewrite flush_no_marks by done. split; [done|].
    unfold start. cbn. rewrite start_marks_dead by done. right. apply ahead_some_same.
  - exists (on_data k m d). rewrite flush_one_mark by done. cbn. rewrite Nat.sub_0_r, firstn_all.
    split; [done|]. unfold start, ext. cbn [m_parser m_p m_marks m_data app].
    rewrite (start_marks_live k) by done.
    replace (ext_marks rest _) with (set_mark k (Some (m ++ rest)) no_marks) by by destruct k.
    destruct k; try (right; eexists; by apply ahead_mark). left. constructor.
Qed.

(** More fuel than bytes does not change the loop. *)
Lemma for_loop_fuel f f' (s : mstate D) :
  good 0 s -> (length (m_p s) <= f)%nat -> (length (m_p s) <= f')%nat ->
  for_loop settings f s = for_loop settings f' s.
Proof.
  revert f' s. induction f as [|f IH]; intros f' s Hg Hf Hf'.
  - destruct (m_p s) eqn:E; cbn in Hf; [|lia]. destruct f'; cbn [for_loop]; by rewrite E.
  - destruct f' as [|f']; [destruct (m_p s) eqn:E; cbn in Hf'; [|lia]; cbn [for_loop]; by rewrite E|].
    cbn [for_loop]. destruct (m_p s) as [|ch q] eqn:E; [done|].
    pose proof (loop_body_preserved settings ch s Hg ltac:(congruence)) as Hl.
    unfold bind, wp in *. destruct (loop_body settings ch s) as [[] t]; try done.
    destruct Hl as (Hgt & _ & Hlt). rewrite E in Hlt. cbn in Hlt, Hf, Hf'. apply IH; [done|lia..].
Qed.

(** One iteration of the loop of [run]. *)
Lemma run_step ch q (s t : mstate D) :
  good 0 s -> m_p s = ch :: q -> loop_body settings ch s = (Normal tt, t) ->
  run settings s = run settings t.
Proof.
  intros Hg Hq E. pose proof (loop_body_preserved settings ch s Hg ltac:(congruence)) as Hl.
  unfold wp in Hl. rewrite E in Hl. destruct Hl as (Hgt & _ & Hlt).
  unfold run, bind. rewrite Hq. cbn [length for_loop]. rewrite Hq.
  unfold bind. rewrite E. rewrite Hq in Hlt. cbn in Hlt.
  by rewrite (for_loop_fuel (length q) (length (m_p t)) t) by (done || lia).
Qed.

(** ** A byte of a body *)

(** The parser after the first byte of a longer piece of body. *)
Definition after_body_byte (p : http_parser) : http_parser :=
  match p_state p with
  | s_body_identity_eof => p
  | _ => set_content_length (p_content_length p - 1) p
  end.

(** Whether the body goes on after this byte. *)
Definition body_goes_on (p : http_parser) : Prop :=
  p_state p = s_body_identity_eof \/ 1 < p_content_length p.

Lemma read_body_explicit p c q m (d : D) :
  0 < p_content_length p < ULLONG_MAX ->
  let n := Z.min (p_content_length p) (Z.of_nat (length (c :: q))) in
  read_body (mk_mstate p (c :: q) m d)
  = (Normal tt, mk_mstate (set_content_length (p_content_length p - n) p)
       (drop (Z.to_nat (n - 1)) (c :: q))
       (match body_mark m with Some _ => m | None => set_mark FOR_body (Some (c :: q)) m end) d).
Proof.
  intros Hc n. unfold read_body. rewrite bind_p, bind_parser, bind_assert. cbn [m_parser m_p].
  replace (negb (p_content_length p =? 0) && negb (p_content_length p =? ULLONG_MAX)) with true
    by (symmetry; apply andb_true_iff; rewrite !negb_true_iff, !Z.eqb_neq; lia).
  unfold bind, MARK. cbn [m_marks get_mark]. by destruct (body_mark m).
Qed.

Lemma set_content_length_twice a a' p :
  set_content_length a (set_content_length a' p) = set_content_length a p.
Proof. done. Qed.

Lemma read_body_grows p c q (d : D) :
  1 < p_content_length p < ULLONG_MAX -> q <> [] ->
  read_body (mk_mstate p (c :: q) no_marks d)
  = read_body (mk_mstate (set_content_length (p_content_length p - 1) p) q
                 (set_mark FOR_body (Some (c :: q)) no_marks) d).
Proof.
  intros Hc Hq. destruct q as [|c' q]; [done|].
  assert (p_content_length (set_content_length (p_content_length p - 1) p) = p_content_length p - 1)
    as Hc' by (apply wrap_small; unfold ULLONG_MAX in *; lia).
  rewrite !read_body_explicit by (rewrite ?Hc'; lia). rewrite Hc'.
  rewrite set_content_length_twice. cbn [body_mark set_mark no_marks length].
  do 2 f_equal; [f_equal; lia|].
  replace (Z.to_nat (Z.min (p_content_length p) (Z.of_nat (S (S (length q)))) - 1))
    with (S (Z.to_nat (Z.min (p_content_length p - 1) (Z.of_nat (S (length q))) - 1))) by lia.
  done.
Qed.

Lemma bind_cong {A B} (m m' : exec D A) (k : A -> exec D B) s s' :
  m s = m' s' -> bind m k s = bind m' k s'.
Proof. unfold bind. by intros ->. Qed.

Lemma bind_assert_chunked {A} (k : unit -> exec D A) s :
  has_flag (p_flags (m_parser s)) F_CHUNKED = true -> bind assert_chunked k s = k tt s.
Proof. intros H. unfold assert_chunked, bind, parser_. by rewrite H. Qed.

Lemma dispatch_body_grows p c q (d : D) ch ch' :
  reads_body (p_state p) = true -> state_inv 0 p -> body_goes_on p -> q <> [] ->
  dispatch settings (p_state p) ch (mk_mstate p (c :: q) no_marks d)
  = dispatch settings (p_state p) ch'
      (mk_mstate (after_body_byte p) q (set_mark FOR_body (Some (c :: q)) no_marks) d).
Proof.
  unfold state_inv, body_goes_on, after_body_byte. intros Hb Hi Hg Hq.
  destruct (p_state p) eqn:Hst; try discriminate; cbn [dispatch].
  - destruct Hi as [Hi Hf], Hg as [?|Hg]; [done|].
    unfold case_s_chunk_data. rewrite !bind_assert_chunked by done. apply bind_cong, read_body_grows; [lia|done].
  - destruct Hg as [?|Hg]; [done|]. apply bind_cong, read_body_grows; [lia|done].
  - destruct q as [|c' q]; [done|].
    unfold case_s_body_identity_eof, bind, MARK, p_, set_p. cbn. by rewrite Nat.sub_0_r.
Qed.

(** The one-byte call in the middle of a body. *)
Lemma loop_body_one_byte p c ch (d : D) :
  reads_body (p_state p) = true -> state_inv 0 p -> body_goes_on p ->
  loop_body settings ch (mk_mstate p [c] no_marks d)
  = (Normal tt, mk_mstate (after_body_byte p) [] (set_mark FOR_body (Some [c]) no_marks) d).
Proof.
  unfold state_inv, body_goes_on, after_body_byte. intros Hb Hi Hg.
  unfold loop_body. erewrite bind_normal; cycle 1.
  { unfold count_header_byte. rewrite bind_parser. cbn [m_parser].
    replace (PARSING_HEADER (p_state p)) with false by by destruct (p_state p). done. }
  assert (0 < p_content_length p < ULLONG_MAX -> 1 < p_content_length p ->
    forall k : unit -> exec D unit, bind read_body k (mk_mstate p [c] no_marks d)
    = k tt (mk_mstate (set_content_length (p_content_length p - 1) p) [c]
              (set_mark FOR_body (Some [c]) no_marks) d)) as Hr.
  { intros Hc1 Hc2 k. erewrite bind_normal by by apply read_body_explicit.
    cbn [length body_mark no_marks]. by rewrite (Z.min_r _ (Z.of_nat 1)) by lia. }
  assert (0 < p_content_length p < ULLONG_MAX -> 1 < p_content_length p ->
    (p_content_length (set_content_length (p_content_length p - 1) p) =? 0) = false) as Hz.
  { intros. cbn. rewrite wrap_small by (unfold ULLONG_MAX in *; lia). lia. }
  rewrite (bind_normal _ _ _ tt (mk_mstate (after_body_byte p) [c] (set_mark FOR_body (Some [c]) no_marks) d));
    [unfold after_body_byte; by rewrite ?bind_p|].
  unfold reexecute_fuel, after_body_byte. cbn [reexecute_byte m_parser].
  destruct (p_state p) eqn:Hst; try discriminate; cbn [dispatch]; [| |done].
  - destruct Hi as [Hi Hf], Hg as [?|Hg]; [done|]. unfold case_s_chunk_data.
    rewrite bind_assert_chunked, Hr, bind_parser by done. cbn [m_parser]. by rewrite Hz.
  - destruct Hg as [?|Hg]; [done|]. unfold case_s_body_identity.
    rewrite Hr, bind_parser by done. cbn [m_parser]. by rewrite Hz.
Qed.

Lemma bind_modify {A} f (k : unit -> exec D A) s :
  bind (modify f) k s = k tt (mk_mstate (f (m_parser s)) (m_p s) (m_marks s) (m_data s)).
Proof. done. Qed.

Lemma bind_last_byte {A} p c q (d : D) (k : unit -> exec D A) :
  p_http_errno p = HPE_OK ->
  bind (bind p_ (fun q => CALLBACK_DATA_ settings FOR_body (tail q) q)) k
    (mk_mstate p (c :: q) (set_mark FOR_body (Some (c :: q)) no_marks) d)
  = k tt (mk_mstate p (c :: q) no_marks (on_data FOR_body [c] d)).
Proof.
  intros Hok. erewrite bind_normal; [done|]. rewrite bind_p, streaming_CALLBACK_DATA_, Hok.
  cbn [m_p tail length]. by rewrite Nat.sub_succ_l, Nat.sub_diag by lia.
Qed.

(** The last byte of a body, too. *)
Lemma ext_first_last_byte rest p c ch (d : D) :
  reads_body (p_state p) = true -> state_inv 0 p -> ~ body_goes_on p -> p_http_errno p = HPE_OK ->
  ext_first settings rest ch (mk_mstate p [c] no_marks d).
Proof using Type*.
  unfold state_inv, body_goes_on, ext_first, ext. intros Hb Hi Hg Hok.
  cbn [m_parser m_p m_marks m_data app].
  assert (forall q, 0 < p_content_length p < ULLONG_MAX -> p_state p <> s_body_identity_eof ->
    read_body (mk_mstate p (c :: q) no_marks d)
    = (Normal tt, mk_mstate (set_content_length 0 p) (c :: q)
                    (set_mark FOR_body (Some (c :: q)) no_marks) d)) as Hr.
  { intros q Hc Hs. rewrite read_body_explicit by done. cbn [body_mark no_marks].
    assert (p_content_length p = 1) as -> by (destruct (Z.lt_ge_cases 1 (p_content_length p)); intuition lia).
    by rewrite (Z.min_l 1) by (cbn; lia). }
  assert (forall q (k : unit -> exec D unit),
    0 < p_content_length p < ULLONG_MAX -> p_state p <> s_body_identity_eof ->
    bind read_body k (mk_mstate p (c :: q) no_marks d)
    = k tt (mk_mstate (set_content_length 0 p) (c :: q) (set_mark FOR_body (Some (c :: q)) no_marks) d))
    as Hb' by (intros; by erewrite bind_normal by by apply Hr).
  destruct (p_state p) eqn:Hst; try discriminate; cbn [dispatch]; [| |tauto].
  - destruct Hi as [Hi Hf]. unfold case_s_chunk_data.
    change (ext_marks rest no_marks) with no_marks.
    by rewrite !bind_assert_chunked, !Hb' by done.
  - unfold case_s_body_identity. change (ext_marks rest no_marks) with no_marks.
    rewrite !Hb', !bind_parser by done. cbn [m_parser].
    change (p_content_length (set_content_length 0 p) =? 0) with true. cbv iota.
    unfold goto_state. rewrite !bind_modify. cbn [m_parser m_p m_marks m_data].
    rewrite !bind_last_byte by done. done.
Qed.

Lemma bind_reexecute {A B} (m : exec D A) (k : A -> exec D B) s s' :
  (forall t, m s <> (Reexecute, t)) -> bind m k s = (Reexecute, s') ->
  exists a t, m s = (Normal a, t) /\ k a t = (Reexecute, s').
Proof. unfold bind. intros Hm E. destruct (m s) as [[] t] eqn:Em; simplify_eq; eauto; by edestruct Hm. Qed.

Lemma read_body_falls_through s t : read_body s <> (Reexecute, t).
Proof.
  unfold read_body. rewrite bind_p, bind_parser, bind_assert. split_if; [|done].
  unfold bind, MARK. by destruct (get_mark FOR_body (m_marks s)).
Qed.

(** The only jump out of a body goes to [s_message_done]. *)
Lemma body_reexecutes st ch s s' :
  reads_body st = true -> dispatch settings st ch s = (Reexecute, s') ->
  p_state (m_parser s') = s_message_done.
Proof using Type*.
  destruct st; try discriminate; intros _; cbn [dispatch].
  - unfold case_s_chunk_data, assert_chunked. intros E.
    apply bind_reexecute in E as ([] & t & _ & E);
      [|intros; rewrite bind_parser; by destruct (has_flag _ _)].
    apply bind_reexecute in E as ([] & t' & _ & E); [|apply read_body_falls_through].
    rewrite bind_parser in E. by destruct (_ =? 0).
  - unfold case_s_body_identity. intros E.
    apply bind_reexecute in E as ([] & t' & _ & E); [|apply read_body_falls_through].
    rewrite bind_parser in E. destruct (_ =? 0); [|done]. unfold goto_state in E.
    rewrite bind_modify in E. unfold bind at 1, CALLBACK_DATA_ in E.
    rewrite bind_p, bind_parser, bind_assert in E. cbn [m_parser m_p m_marks] in E.
    destruct (_ =e _); [|done]. destruct (get_mark _ _); [|by injection E as <-].
    rewrite data_cb_streams in E. unfold after_cb in E. cbn in E. destruct (_ =e _); [by injection E as <-|done].
  - intros E. unfold case_s_body_identity_eof, bind, MARK, p_, set_p in E.
    destruct (get_mark _ _); discriminate E.
Qed.

Lemma message_done_falls_through s t : case_s_message_done settings s <> (Reexecute, t).
Proof.
  unfold case_s_message_done, message_complete, new_message, goto_state. unfold bind at 1.
  rewrite bind_parser. cbn [modify]. unfold CALLBACK_NOTIFY, CALLBACK_NOTIFY_.
  rewrite bind_p, bind_parser, bind_assert. split_if; [|done].
  destruct (notify_cb settings _) as [cb|]; [|done].
  destruct (cb _ _) as [[? ?] ?]. by split_if.
Qed.

Lemma reexecute_body_grows p c q (d : D) ch ch' :
  reads_body (p_state p) = true -> state_inv 0 p -> body_goes_on p -> q <> [] ->
  loop_body settings ch (mk_mstate p (c :: q) no_marks d)
  = loop_body settings ch'
      (mk_mstate (after_body_byte p) q (set_mark FOR_body (Some (c :: q)) no_marks) d).
Proof using Type*.
  intros Hb Hi Hg Hq.
  assert (p_state (after_body_byte p) = p_state p) as Hst
    by (unfold after_body_byte; destruct (p_state p) eqn:E; done).
  assert (forall p' q' m', p_state p' = p_state p ->
    count_header_byte (mk_mstate p' q' m' d) = (Normal tt, mk_mstate p' q' m' d)) as Hc.
  { intros p' q' m' E. unfold count_header_byte. rewrite bind_parser. cbn [m_parser]. rewrite E.
    by destruct (p_state p). }
  unfold loop_body. rewrite !(bind_normal _ _ _ _ _ (Hc _ _ _ eq_refl)).
  rewrite !(bind_normal _ _ _ _ _ (Hc _ _ _ Hst)). apply bind_cong.
  unfold reexecute_fuel. cbn [reexecute_byte m_parser]. rewrite Hst.
  rewrite (dispatch_body_grows p c q d ch ch') by done.
  destruct (dispatch _ _ _ _) as [[] s'] eqn:E; try done.
  rewrite (body_reexecutes _ _ _ _ Hb E). cbn [dispatch].
  pose proof (message_done_falls_through s') as Hm.
  destruct (case_s_message_done settings s') as [[] t]; try done. by edestruct Hm.
Qed.

(** ** The first byte of a call *)

(** After the first byte [c], the call on [c :: rest] goes on like a call on
    [rest]; or it has stopped like the call on [c]. *)
Definition first_byte_ok p c (d : D) : Prop :=
  exists q p1 d1, run settings (start p [c] d) = Some (q, p1, d1)
  /\ ((q = [] /\ inv_at 0 p1 /\ p_http_errno p1 = HPE_OK
       /\ forall rest, rest <> [] ->
          same_run (run settings (start p (c :: rest) d)) (run settings (start p1 rest d1)))
      \/ ((p_http_errno p1 <> HPE_OK \/ p_upgrade p1 = true)
          /\ forall rest, run settings (start p (c :: rest) d) = Some (q ++ rest, p1, d1))).

Lemma run_ended (s : mstate D) ch q0 :
  m_p s = ch :: q0 ->
  run settings s = match loop_body settings ch s with
                   | (Normal _, t) =>
                       match bind (for_loop settings (length q0)) (fun _ => flush_marks settings) t with
                       | (Normal _, s') => Some ([], m_parser s', m_data s')
                       | (Goto_error, s') => Some (m_p s', error_errno (m_parser s'), m_data s')
                       | (Return q, s') => Some (q, m_parser s', m_data s')
                       | _ => None
                       end
                   | (Goto_error, s') => Some (m_p s', error_errno (m_parser s'), m_data s')
                   | (Return q, s') => Some (q, m_parser s', m_data s')
                   | _ => None
                   end.
Proof.
  intros E. unfold run, bind. rewrite E. cbn [length for_loop]. rewrite E. unfold bind.
  destruct (loop_body settings ch s) as [[] t]; try done.
Qed.

Lemma restart_ok p c (d : D) s1 :
  inv_at 0 p -> p_http_errno p = HPE_OK ->
  loop_body settings c (start p [c] d) = (Normal tt, s1) ->
  (forall rest, rest <> [] -> run settings (start p (c :: rest) d) = run settings (ext rest s1)) ->
  first_byte_ok p c d.
Proof using Type*.
  intros Hi Hok E Er. pose proof (start_good p [c] d Hi Hok) as Hg.
  pose proof (loop_body_preserved settings c _ Hg ltac:(done)) as Hl.
  unfold wp in Hl. rewrite E in Hl. destruct Hl as (Hg1 & _ & Hq1). cbn in Hq1.
  assert (m_p s1 = []) as Hq by (destruct (m_p s1); [done|cbn in Hq1; lia]).
  destruct (restart_in_step [] s1 Hg1 Hq) as (d1 & Hf & _).
  exists [], (m_parser s1), d1. split.
  - rewrite (run_ended _ c []), E by done. unfold bind. cbn [length for_loop]. rewrite Hq.
    by rewrite Hf.
  - left. split_and!; [done|apply Hg1..|]. intros rest Hr. rewrite Er by done.
    destruct (restart_in_step rest s1 Hg1 Hq) as (d1' & Hf' & Hs').
    rewrite Hf in Hf'. injection Hf' as <-. apply in_step_run; [by apply good_ext|done].
Qed.

(** In the middle of a body. *)
Lemma first_byte_in_body p c (d : D) :
  inv_at 0 p -> p_http_errno p = HPE_OK -> reads_body (p_state p) = true -> body_goes_on p ->
  first_byte_ok p c d.
Proof using Type*.
  intros Hi Hok Hb Hgo. assert (state_inv 0 p) as Hsi by apply Hi.
  assert (forall data, start p data d = mk_mstate p data no_marks d) as Hm
    by (intros; unfold start; f_equal; by destruct (p_state p)).
  eapply restart_ok; [done..|rewrite Hm; by apply loop_body_one_byte|].
  intros [|r rest] Hr; [done|]. rewrite Hm.
  pose proof (start_good p [c] d Hi Hok) as Hg. rewrite Hm in Hg.
  pose proof (loop_body_preserved settings c _ Hg ltac:(done)) as Hl. unfold wp in Hl.
  rewrite loop_body_one_byte in Hl by done. destruct Hl as (Hg1 & _).
  pose proof (good_ext 0 (r :: rest) _ Hg1) as Hg2.
  rewrite (run_ended _ c (r :: rest)), (run_ended _ r rest) by done.
  rewrite (reexecute_body_grows p c (r :: rest) d c r) by done.
  change (ext (r :: rest) _) with
    (mk_mstate (after_body_byte p) (r :: rest) (set_mark FOR_body (Some (c :: r :: rest)) no_marks) d)
    in Hg2 |- *.
  pose proof (loop_body_preserved settings r _ Hg2 ltac:(done)) as Hl2. unfold wp in Hl2.
  destruct (loop_body settings r _) as [[] t]; try done.
  destruct Hl2 as (Hgt & _ & Hlt). cbn in Hlt. unfold bind.
  by rewrite (for_loop_fuel (length (r :: rest)) (length rest) t) by (done || cbn; lia).
Qed.

(** Elsewhere. *)
Lemma loop_body_start_ext p c rest (d : D) :
  inv_at 0 p -> p_http_errno p = HPE_OK -> ~ (reads_body (p_state p) = true /\ body_goes_on p) ->
  loop_body settings c (start p (c :: rest) d)
  = ext_result rest (loop_body settings c (start p [c] d)).
Proof using Type*.
  intros Hi Hok Hn. change (c :: rest) with ([c] ++ rest). rewrite start_ext.
  apply ext_loop_body; [by apply start_good|done|]. intros s1 E1.
  destruct (reads_body (p_state p)) eqn:Hb.
  - assert (start p [c] d = mk_mstate p [c] no_marks d) as Hs
      by (unfold start; f_equal; by destruct (p_state p)).
    assert (s1 = start p [c] d) as ->.
    { unfold count_header_byte in E1. rewrite bind_parser in E1. cbn [m_parser start] in E1.
      replace (PARSING_HEADER (p_state p)) with false in E1 by by destruct (p_state p).
      by injection E1. }
    rewrite Hs. apply ext_first_last_byte; [done|apply Hi|tauto|done].
  - by apply (ext_first_no_body settings rest c (start p [c] d)).
Qed.

Lemma first_byte p c (d : D) :
  inv_at 0 p -> p_http_errno p = HPE_OK -> first_byte_ok p c d.
Proof using Type*.
  intros Hi Hok. destruct (decide (reads_body (p_state p) = true /\ body_goes_on p)) as [[Hb Hgo]|Hn];
    [by apply first_byte_in_body|].
  pose proof (fun rest => loop_body_start_ext p c rest d Hi Hok Hn) as Hx.
  pose proof (loop_body_preserved settings c _ (start_good p [c] d Hi Hok) ltac:(done)) as Hl.
  unfold wp in Hl. destruct (loop_body settings c (start p [c] d)) as [[] s1] eqn:E; cbn in Hl, Hx.
  - destruct a. eapply restart_ok; [done..|exact E|]. intros rest _.
    eapply run_step; [by apply start_good|done|apply Hx].
  - by destruct Hl.
  - destruct Hl as (_ & Hs & _). eexists _, _, _.
    rewrite (run_ended _ c []), E by done. split; [done|]. right. split.
    + left. unfold error_errno. split_if; [done|]. intros Hn'. by rewrite Hn' in Hs.
    + intros rest. by rewrite (run_ended _ c rest), Hx.
  - destruct Hl as (_ & _ & _ & Hu). eexists _, _, _.
    rewrite (run_ended _ c []), E by done. split; [done|]. right. split.
    + destruct (decide (p_http_errno (m_parser s1) = HPE_OK)); auto.
    + intros rest. by rewrite (run_ended _ c rest), Hx.
  - by destruct Hl.
  - by destruct Hl.
Qed.

(** ** Any cut *)

Lemma same_run_trans r1 r2 r3 : same_run r1 r2 -> same_run r2 r3 -> same_run r1 r3.
Proof.
  destruct r1 as [[[??]?]|], r2 as [[[??]?]|], r3 as [[[??]?]|]; cbn; try done.
  intros (-> & -> & H1) (-> & -> & H2). split_and!; try done. intros. by rewrite H1, H2.
Qed.

Lemma run_split a b' p (d : D) p1 d1 :
  inv_at 0 p -> p_http_errno p = HPE_OK -> a <> [] -> b' <> [] ->
  run settings (start p a d) = Some ([], p1, d1) ->
  p_http_errno p1 = HPE_OK -> p_upgrade p1 = false ->
  same_run (run settings (start p (a ++ b') d)) (run settings (start p1 b' d1)) /\ inv_at 0 p1.
Proof using Type*.
  intros Hi Hok Ha Hb. revert p d Hi Hok. induction a as [|c a IH]; [done|].
  intros p d Hi Hok Hr Hok1 Hup.
  destruct (first_byte p c d Hi Hok) as (q & p0 & d0 & Hc & Hcase).
  destruct a as [|c' a].
  { rewrite Hr in Hc. injection Hc as <- <- <-.
    destruct Hcase as [(_ & ? & _ & Hs)|[[?|?] _]]; [|congruence..]. split; [by apply Hs|done]. }
  destruct Hcase as [(-> & Hi0 & Hok0 & Hs)|[Hn Hs]]; cycle 1.
  { rewrite Hs in Hr. injection Hr as _ <- _. destruct Hn; congruence. }
  pose proof (Hs (c' :: a) ltac:(done)) as Ha'. rewrite Hr in Ha'.
  destruct (run settings (start p0 (c' :: a) d0)) as [[[q1 p1'] d1']|] eqn:E; [|done].
  destruct Ha' as (<- & <- & Hd). rewrite <- Hd in E by by rewrite Hok1.
  destruct (IH ltac:(done) p0 d0 Hi0 Hok0 E Hok1 Hup) as [Hs' ?]. split; [|done].
  eapply same_run_trans; [by apply Hs|exact Hs'].
Qed.

Lemma execute_start p (d : D) data :
  p_http_errno p = HPE_OK -> data <> [] ->
  http_parser_execute settings p d data
  = match run settings (start p data d) with
    | Some (q, p', d') => Some ((length data - length q)%nat, p', d')
    | None => None
    end.
Proof. intros Hok Hd. unfold http_parser_execute. rewrite Hok. by destruct data. Qed.

(** A call that has consumed its input without error or upgrade. *)
Lemma execute_run_all p (d : D) data p1 d1 :
  p_http_errno p = HPE_OK -> data <> [] -> inv_at 0 p ->
  http_parser_execute settings p d data = Some (length data, p1, d1) ->
  run settings (start p data d) = Some ([], p1, d1).
Proof.
  intros Hok Hd Hi. rewrite execute_start by done.
  destruct (run_safe settings p d data Hi Hok) as (q & p' & d' & E & _ & Hs & _).
  unfold start. rewrite E. intros [= Hn -> ->]. do 3 f_equal.
  apply suffix_length in Hs. apply nil_length_inv.
  destruct data; [done|]. cbn in *. lia.
Qed.

(** Two calls as one. *)
Lemma execute_app p d a b' p1 d1 n p2 d2 :
  parser_inv p -> a <> [] -> b' <> [] ->
  http_parser_execute settings p d a = Some (length a, p1, d1) ->
  p_http_errno p1 = HPE_OK -> p_upgrade p1 = false ->
  http_parser_execute settings p1 d1 b' = Some (n, p2, d2) ->
  exists d2', http_parser_execute settings p d (a ++ b') = Some ((length a + n)%nat, p2, d2')
    /\ (syntax_error (p_http_errno p2) = false -> d2' = d2).
Proof using Type*.
  intros Hr Ha Hb E1 Hok1 Hup E2.
  destruct (decide (p_http_errno p = HPE_OK)) as [Hok|Hn]; cycle 1.
  { unfold http_parser_execute in E1. replace (p_http_errno p =e HPE_OK) with false in E1.
    - injection E1 as ? -> ->. by destruct a.
    - symmetry. by apply bool_decide_eq_false. }
  specialize (Hr ltac:(by rewrite Hok)).
  pose proof (execute_run_all _ _ _ _ _ Hok Ha Hr E1) as Er.
  destruct (run_split a b' p d p1 d1 Hr Hok Ha Hb Er Hok1 Hup) as [Hs Hi1].
  rewrite execute_start in E2 by done.
  assert (a ++ b' <> []) as Hab by by destruct a.
  rewrite execute_start by done.
  destruct (run_safe settings p1 d1 b' Hi1 Hok1) as (q & p' & d' & Eq & _ & Hq & _).
  unfold start in E2. rewrite Eq in E2. injection E2 as <- -> ->.
  change (run settings (mk_mstate _ _ _ _)) with (run settings (start p1 b' d1)) in Eq.
  rewrite Eq in Hs. destruct (run settings (start p (a ++ b') d)) as [[[q' p''] d'']|]; [|done].
  destruct Hs as (-> & -> & Hd). apply suffix_length in Hq.
  eexists. split; [|exact Hd]. do 3 f_equal. rewrite length_app. lia.
Qed.

(** C5: cutting the input does not change the parse.  If a call on [a] has
    consumed it without error or upgrade, then one call on [a ++ b] does what
    the call on [a] followed by a call on [b] does: it consumes the same
    number of bytes, leaves the same parser (error included) and, unless [b]
    contains a syntax error, the callbacks have built the same state. *)
Theorem execute_split p d a b' p1 d1 n p2 d2 :
  reachable settings p d -> a <> [] -> b' <> [] ->
  http_parser_execute settings p d a = Some (length a, p1, d1) ->
  p_http_errno p1 = HPE_OK -> p_upgrade p1 = false ->
  http_parser_execute settings p1 d1 b' = Some (n, p2, d2) ->
  exists d2', http_parser_execute settings p d (a ++ b') = Some ((length a + n)%nat, p2, d2')
    /\ (syntax_error (p_http_errno p2) = false -> d2' = d2).
Proof using Type*. intros Hr. apply execute_app. by eapply reachable_inv. Qed.

(** ** One byte per call *)

(** A call on one byte that goes well. *)
Definition byte (p : http_parser) (d : D) (c : ascii) : option (http_parser * D) :=
  match http_parser_execute settings p d [c] with
  | Some (1%nat, p', d') =>
      if (p_http_errno p' =e HPE_OK) && negb (p_upgrade p') then Some (p', d') else None
  | _ => None
  end.

Fixpoint feed (p : http_parser) (d : D) (w : bytes) : option (http_parser * D) :=
  match w with
  | [] => Some (p, d)
  | c :: w => pd ← byte p d c; feed (fst pd) (snd pd) w
  end.

Lemma feed_app p d w w' :
  feed p d (w ++ w') = feed p d w ≫= fun pd => feed (fst pd) (snd pd) w'.
Proof.
  revert p d. induction w as [|c w IH]; intros p d; [done|]. cbn.
  destruct (byte p d c) as [[p1 d1]|]; [apply IH|done].
Qed.

Lemma feed_step p d w w' p1 d1 r :
  feed p d w = Some (p1, d1) -> feed p1 d1 w' = r -> feed p d (w ++ w') = r.
Proof. rewrite feed_app. by intros ->. Qed.

Lemma byte_inv p d c p1 d1 :
  byte p d c = Some (p1, d1) ->
  http_parser_execute settings p d [c] = Some (1%nat, p1, d1)
  /\ p_http_errno p1 = HPE_OK /\ p_upgrade p1 = false.
Proof.
  unfold byte. destruct (http_parser_execute settings p d [c]) as [[[[|[|n]] p'] d']|]; try done.
  destruct (_ && _) eqn:E; [|done]. intros [= -> ->]. to_prop.
  split_and!; [done|by apply enum_eqb_eq|done].
Qed.

Lemma execute_inv p d data n p1 d1 :
  parser_inv p -> http_parser_execute settings p d data = Some (n, p1, d1) -> parser_inv p1.
Proof.
  intros Hi E. destruct (execute_defined settings p d data Hi) as (? & ? & ? & E' & ? & _).
  rewrite E in E'. by simplify_eq.
Qed.

(** A last call on [c] after the bytes [w] fed one by one is one call. *)
Lemma feed_execute p d w p1 d1 z n p2 d2 :
  parser_inv p -> feed p d w = Some (p1, d1) -> z <> [] ->
  http_parser_execute settings p1 d1 z = Some (n, p2, d2) ->
  exists d2', http_parser_execute settings p d (w ++ z) = Some ((length w + n)%nat, p2, d2')
    /\ (syntax_error (p_http_errno p2) = false -> d2' = d2).
Proof using Type*.
  revert p d. induction w as [|c w IH]; intros p d Hi Hf Hz Hx.
  { cbn in Hf. simplify_eq. eauto. }
  cbn in Hf. destruct (byte p d c) as [[p0 d0]|] eqn:E; [|done]. cbn in Hf.
  destruct (byte_inv _ _ _ _ _ E) as (Ec & Hok & Hup).
  pose proof (execute_inv _ _ _ _ _ _ Hi Ec) as Hi0.
  destruct (IH p0 d0 Hi0 Hf Hz Hx) as (d2' & E2 & Hd).
  destruct (execute_app p d [c] (w ++ z) p0 d0 (length w + n)%nat p2 d2') as (d3 & E3 & Hd3); try done.
  { by destruct w. }
  exists d3. split; [exact E3|]. intros Hs. by rewrite Hd3, Hd.
Qed.

Lemma feed_inv p d w p1 d1 : parser_inv p -> feed p d w = Some (p1, d1) -> parser_inv p1.
Proof.
  revert p d. induction w as [|c w IH]; intros p d Hi Hf; cbn in Hf; [by simplify_eq|].
  destruct (byte p d c) as [[p0 d0]|] eqn:E; [|done].
  apply byte_inv in E as (E & _). eauto using execute_inv.
Qed.

(** Bytes that go well one by one go well in one call. *)
Lemma feed_call p d w p1 d1 :
  parser_inv p -> w <> [] -> feed p d w = Some (p1, d1) ->
  http_parser_execute settings p d w = Some (length w, p1, d1)
  /\ p_http_errno p1 = HPE_OK /\ p_upgrade p1 = false.
Proof using Type*.
  intros Hi Hw Hf. destruct w as [|c w _] using rev_ind; [done|].
  rewrite feed_app in Hf. destruct (feed p d w) as [[p0 d0]|] eqn:E0; [|done].
  cbn in Hf. destruct (byte p0 d0 c) as [[p' d']|] eqn:E1; [|done]. cbn in Hf. simplify_eq.
  apply byte_inv in E1 as (Ex & Hok & Hup).
  destruct (feed_execute p d w p0 d0 [c] 1 p1 d1 Hi E0 ltac:(done) Ex) as (d2 & E & Hd).
  rewrite Hd in E by by rewrite Hok. by rewrite length_app.
Qed.


End Ahead.
