(* ===== verification/HttpCallbacks.v ===== *)
(** * What the callbacks keep true of their state

    A property of the callbacks' state that every successful callback keeps
    holds after every call of [http_parser_execute] that ends without error:
    the parser touches the state only through the callbacks. *)

From stdpp Require Import options.
From S2P Require Import Prelude HttpTypes HttpExecute HttpLogic HttpInvariant HttpSafety HttpSplit.

Section Keeps.
Context {D : Type} (settings : http_parser_settings D) (I : D -> Prop).
Implicit Types s : mstate D.

(** The obligation on each callback. *)
Record callbacks_keep : Prop := {
  keep_data k cb p w d code paused d' :
    data_cb settings k = Some cb -> cb p w d = (code, paused, d') -> I d -> code = 0 -> I d';
  keep_notify k cb p d code paused d' :
    notify_cb settings k = Some cb -> cb p d = (code, paused, d') -> I d -> code = 0 -> I d';
  keep_headers cb p d code paused d' :
    on_headers_complete settings = Some cb -> cb p d = (code, paused, d') -> I d -> I d'
}.

Context (Hcb : callbacks_keep).
Set Default Proof Using "Type*".

(** [m] keeps the property, unless it returns with an error. *)
Definition keeps {A} (m : exec D A) : Prop :=
  forall s, I (m_data s) ->
    match m s with
    | (Return _, s') => p_http_errno (m_parser s') = HPE_OK -> I (m_data s')
    | (_, s') => I (m_data s')
    end.

Lemma keeps_bind {A B} (m : exec D A) (k : A -> exec D B) :
  keeps m -> (forall a, keeps (k a)) -> keeps (bind m k).
Proof.
  intros Hm Hk s Hs. specialize (Hm s Hs). unfold bind.
  destruct (m s) as [[] s']; try done. by apply Hk.
Qed.

Lemma keeps_ret {A} (a : A) : keeps (ret a).
Proof. by intros s. Qed.
Lemma keeps_goto_error {A} : keeps (A := A) goto_error.
Proof. by intros s. Qed.
Lemma keeps_goto_reexecute_byte {A} : keeps (A := A) goto_reexecute_byte.
Proof. by intros s. Qed.
Lemma keeps_return {A} q : keeps (A := A) (return_ q).
Proof. by intros s Hs ?. Qed.
Lemma keeps_assert c : keeps (assert c).
Proof. by destruct c; intros s. Qed.
Lemma keeps_parser : keeps parser_.
Proof. by intros s. Qed.
Lemma keeps_p : keeps p_.
Proof. by intros s. Qed.
Lemma keeps_modify f : keeps (modify f).
Proof. by intros s. Qed.
Lemma keeps_set_p q : keeps (set_p q).
Proof. by intros s. Qed.
Lemma keeps_char_at w i : keeps (char_at w i).
Proof. unfold char_at. split_if; by intros s. Qed.
Lemma keeps_MARK k : keeps (MARK k).
Proof. intros s Hs. unfold MARK. by destruct (get_mark k (m_marks s)). Qed.

Lemma after_cb_ok e code paused p :
  e <> HPE_OK -> p_http_errno (after_cb e code paused p) = HPE_OK -> code = 0.
Proof. unfold after_cb. destruct (code =? 0) eqn:E; [by to_prop|]. by destruct paused. Qed.

Lemma keeps_CALLBACK_NOTIFY_ k er : keeps (CALLBACK_NOTIFY_ settings k er).
Proof.
  unfold CALLBACK_NOTIFY_. apply keeps_bind; [apply keeps_parser|]. intros p.
  apply keeps_bind; [apply keeps_assert|]. intros _.
  destruct (notify_cb settings k) as [cb|] eqn:E; [|apply keeps_ret].
  intros s Hs. destruct (cb _ _) as [[code paused] d'] eqn:Ec. cbn zeta.
  destruct (p_http_errno _ =e HPE_OK) eqn:Eo.
  - apply enum_eqb_eq, after_cb_ok in Eo; [|by destruct k]. cbn. by eapply keep_notify.
  - apply enum_eqb_neq in Eo. done.
Qed.

Lemma keeps_CALLBACK_NOTIFY k : keeps (CALLBACK_NOTIFY settings k).
Proof. apply keeps_bind; [apply keeps_p|]. intros q. apply keeps_CALLBACK_NOTIFY_. Qed.

Lemma keeps_CALLBACK_DATA_ k stop er : keeps (CALLBACK_DATA_ settings k stop er).
Proof.
  unfold CALLBACK_DATA_. apply keeps_bind; [apply keeps_parser|]. intros p.
  apply keeps_bind; [apply keeps_assert|]. intros _ s Hs.
  destruct (get_mark k (m_marks s)) as [mark|]; [|done].
  destruct (data_cb settings k) as [cb|] eqn:E; [|done].
  destruct (cb _ _ _) as [[code paused] d'] eqn:Ec. cbn zeta.
  destruct (p_http_errno _ =e HPE_OK) eqn:Eo.
  - apply enum_eqb_eq, after_cb_ok in Eo; [|by destruct k]. cbn. by eapply keep_data.
  - apply enum_eqb_neq in Eo. done.
Qed.

Lemma keeps_CALLBACK_DATA k : keeps (CALLBACK_DATA settings k).
Proof. apply keeps_bind; [apply keeps_p|]. intros q. apply keeps_CALLBACK_DATA_. Qed.
Lemma keeps_CALLBACK_DATA_NOADVANCE k : keeps (CALLBACK_DATA_NOADVANCE settings k).
Proof. apply keeps_bind; [apply keeps_p|]. intros q. apply keeps_CALLBACK_DATA_. Qed.

Lemma keeps_call_headers_complete : keeps (call_headers_complete settings).
Proof.
  unfold call_headers_complete. destruct (on_headers_complete settings) as [cb|] eqn:E; [|apply keeps_ret].
  apply keeps_bind.
  - intros s Hs. destruct (cb _ _) as [[code paused] d] eqn:Ec. cbn. by eapply keep_headers.
  - intros r. repeat split_if; [apply keeps_ret|apply keeps_modify|].
    apply keeps_bind; [apply keeps_modify|]. intros _.
    apply keeps_bind; [apply keeps_p|]. intros q. apply keeps_return.
Qed.

Ltac keeps_step :=
  lazymatch goal with
  | |- keeps (bind _ _) => apply keeps_bind; [|intros ?]
  | |- keeps (ret _) => apply keeps_ret
  | |- keeps break => apply keeps_ret
  | |- keeps goto_error => apply keeps_goto_error
  | |- keeps goto_reexecute_byte => apply keeps_goto_reexecute_byte
  | |- keeps (return_ _) => apply keeps_return
  | |- keeps (assert _) => apply keeps_assert
  | |- keeps parser_ => apply keeps_parser
  | |- keeps p_ => apply keeps_p
  | |- keeps (modify _) => apply keeps_modify
  | |- keeps (set_p _) => apply keeps_set_p
  | |- keeps (goto_state _) => apply keeps_modify
  | |- keeps (SET_ERRNO _) => apply keeps_modify
  | |- keeps (error _) => unfold error
  | |- keeps (STRICT_CHECK _) => unfold STRICT_CHECK
  | |- keeps new_message => unfold new_message
  | |- keeps (match_word _ _ _) => unfold match_word
  | |- keeps (char_at _ _) => apply keeps_char_at
  | |- keeps (MARK _) => apply keeps_MARK
  | |- keeps (CALLBACK_NOTIFY _ _) => apply keeps_CALLBACK_NOTIFY
  | |- keeps (CALLBACK_DATA _ _) => apply keeps_CALLBACK_DATA
  | |- keeps (CALLBACK_DATA_ _ _ _ _) => apply keeps_CALLBACK_DATA_
  | |- keeps (CALLBACK_DATA_NOADVANCE _ _) => apply keeps_CALLBACK_DATA_NOADVANCE
  | |- keeps (call_headers_complete _) => apply keeps_call_headers_complete
  | |- keeps (if ?c then _ else _) => destruct c
  | |- keeps (match ?h with _ => _ end) => destruct h
  | |- keeps (let x := ?v in _) => cbv zeta
  end; cbn beta.

Lemma keeps_dispatch st ch : keeps (dispatch settings st ch).
Proof. destruct st; cbn [dispatch]; repeat (open_case; keeps_step). Qed.

Lemma keeps_reexecute fuel ch : keeps (reexecute_byte settings fuel ch).
Proof.
  induction fuel as [|fuel IH]; intros s Hs; [done|]. cbn [reexecute_byte].
  pose proof (keeps_dispatch (p_state (m_parser s)) ch s Hs) as Hd.
  destruct (dispatch settings _ ch s) as [[] s']; try done. by apply IH.
Qed.

Lemma keeps_loop_body ch : keeps (loop_body settings ch).
Proof.
  unfold loop_body, count_header_byte.
  repeat first [apply keeps_reexecute | keeps_step].
Qed.

Lemma keeps_for_loop fuel : keeps (for_loop settings fuel).
Proof.
  induction fuel as [|fuel IH]; intros s Hs; cbn [for_loop]; destruct (m_p s) as [|ch q]; try done.
  revert s Hs. apply keeps_bind; [apply keeps_loop_body|by intros _].
Qed.

Lemma keeps_flush_marks : keeps (flush_marks settings).
Proof.
  unfold flush_marks. apply keeps_bind; [|intros; repeat keeps_step].
  intros s. apply keeps_assert.
Qed.

Lemma execute_keeps p d data n p' d' :
  http_parser_execute settings p d data = Some (n, p', d') -> I d ->
  p_http_errno p' = HPE_OK -> I d'.
Proof.
  unfold http_parser_execute. destruct (negb _); [by intros [= <- <- <-]|].
  destruct data as [|c data].
  - unfold execute_eof. intros E Hd Hok. destruct (p_state p); simplify_eq; try done.
    pose proof (keeps_CALLBACK_NOTIFY_ FOR_message_complete [] (mk_mstate p [] no_marks d) Hd) as Hk.
    change (CALLBACK_NOTIFY_NOADVANCE settings FOR_message_complete (mk_mstate p [] no_marks d))
      with (CALLBACK_NOTIFY_ settings FOR_message_complete [] (mk_mstate p [] no_marks d)) in E.
    destruct (CALLBACK_NOTIFY_ _ _ _ _) as [[] s']; simplify_eq; auto.
  - unfold run. intros E Hd Hok.
    pose proof (keeps_bind (for_loop settings (length (c :: data))) (fun _ => flush_marks settings)
      (keeps_for_loop _) (fun _ => keeps_flush_marks)
      (mk_mstate p (c :: data) (start_marks (p_state p) (c :: data)) d) Hd) as Hk.
    cbn [m_p] in E. destruct (bind _ _ _) as [[] s']; simplify_eq; auto.
Qed.
End Keeps.
