(* ===== verification/HttpBytes.v ===== *)
(** * The parser byte by byte

    With the cuts out of the way ([HttpSplit]), the language of the parser is
    described by calls on single bytes: what each state does with each class
    of bytes, and from there what it does with tokens, numbers, header lines
    and bodies.  The callbacks are those of a [Collecting] client. *)

From stdpp Require Import options.
From S2P Require Import Prelude HttpTypes HttpUrl HttpExecute HttpLogic HttpInvariant HttpSafety HttpSplit.

(** A client that collects data, with quiet notifications at the start of a
    message and at the end of the headers. *)
Class Collecting {D} (settings : http_parser_settings D) := {
  collecting_streaming :: Streaming settings;
  on_begin : D -> D;
  message_begin_cb : exists cb, on_message_begin settings = Some cb
    /\ forall p d, cb p d = (0, false, on_begin d);
  headers_complete_cb : exists cb, on_headers_complete settings = Some cb
    /\ forall p d, cb p d = (0, false, d)
}.

Section Bytes.
Context {D : Type} (settings : http_parser_settings D) `{!Collecting settings}.
Set Default Proof Using "Type*".
Implicit Types (d : D) (N : unit -> mstate D -> Prop).

Abbreviation byte := (byte settings).
Abbreviation feed := (feed settings).

(** ** Symbolic execution of one byte *)

Lemma wp_data_marked k stop er p q ms d m N E :
  p_http_errno p = HPE_OK -> get_mark k ms = Some m ->
  N tt (mk_mstate p q (set_mark k None ms) (on_data k (take (length m - length stop)%nat m) d)) ->
  wp (CALLBACK_DATA_ settings k stop er) N E (mk_mstate p q ms d).
Proof.
  intros Hok Hm HN. unfold wp, CALLBACK_DATA_, bind, parser_. cbn [m_parser m_p m_marks m_data].
  rewrite Hok. cbn [enum_eqb]. change (assert (HPE_OK =e HPE_OK) ?s) with (Normal tt, s).
  cbn [m_parser m_p m_marks m_data]. rewrite Hm, data_cb_streams. unfold after_cb. cbn -[get_mark set_mark].
  by rewrite Hok.
Qed.

Lemma wp_data_unmarked k stop er p q ms d N E :
  p_http_errno p = HPE_OK -> get_mark k ms = None ->
  N tt (mk_mstate p q ms d) -> wp (CALLBACK_DATA_ settings k stop er) N E (mk_mstate p q ms d).
Proof.
  intros Hok Hm HN. unfold wp, CALLBACK_DATA_, bind, parser_. cbn [m_parser m_p m_marks m_data].
  rewrite Hok. change (assert (HPE_OK =e HPE_OK) ?s) with (Normal tt, s).
  cbn [m_parser m_p m_marks m_data]. by rewrite Hm.
Qed.

Lemma wp_begin er p q ms d N E :
  p_http_errno p = HPE_OK -> N tt (mk_mstate p q ms (on_begin d)) ->
  wp (CALLBACK_NOTIFY_ settings FOR_message_begin er) N E (mk_mstate p q ms d).
Proof.
  intros Hok HN. unfold wp, CALLBACK_NOTIFY_, bind, parser_. cbn [m_parser m_p m_marks m_data].
  rewrite Hok. change (assert (HPE_OK =e HPE_OK) ?s) with (Normal tt, s).
  cbn [m_parser m_p m_marks m_data notify_cb].
  destruct message_begin_cb as (cb & -> & ->). unfold after_cb. cbn. by rewrite Hok.
Qed.

Lemma wp_headers_complete s N E : N tt s -> wp (call_headers_complete settings) N E s.
Proof.
  intros HN. unfold call_headers_complete. destruct headers_complete_cb as (cb & -> & Hcb).
  unfold wp, bind. rewrite Hcb. by destruct s.
Qed.

(** The machine at the start of the switch, for a header byte. *)
Lemma byte_wp p d c p' d' :
  PARSING_HEADER (p_state p) = true -> 0 <= p_nread p < HTTP_MAX_HEADER_SIZE ->
  p_http_errno p = HPE_OK -> p_http_errno p' = HPE_OK -> p_upgrade p' = false ->
  wp (reexecute_byte settings reexecute_fuel c)
    (fun _ s => m_p s = [c]
       /\ flush_marks settings (mk_mstate (m_parser s) [] (m_marks s) (m_data s))
          = (Normal tt, mk_mstate p' [] no_marks d'))
    (fun _ _ => False)
    (mk_mstate (set_nread (p_nread p + 1) p) [c] (start_marks (p_state p) [c]) d) ->
  byte p d c = Some (p', d').
Proof.
  intros Hh Hn Hok Hok' Hup Hw. unfold HttpSplit.byte. rewrite execute_start by done.
  assert (count_header_byte (start p [c] d)
    = (Normal tt, mk_mstate (set_nread (p_nread p + 1) p) [c] (start_marks (p_state p) [c]) d)) as Hc.
  { unfold count_header_byte, bind, parser_, modify, start. cbn [m_parser m_p m_marks m_data].
    rewrite Hh. cbn [m_parser m_p m_marks m_data p_nread set_nread].
    rewrite wrap_small by (consts; lia).
    by replace (p_nread p + 1 >? HTTP_MAX_HEADER_SIZE) with false by (symmetry; rewrite Z.gtb_ltb; lia). }
  unfold wp in Hw. destruct (reexecute_byte _ _ _ _) as [[[]| | | | |] s] eqn:E; try done.
  destruct Hw as [Hp Hf]. rewrite (run_ended settings _ c []) by done.
  unfold loop_body. rewrite (bind_normal _ _ _ _ _ Hc), (bind_normal _ _ _ _ _ E), bind_p, Hp.
  unfold set_p, bind. cbn [length for_loop m_p tail m_parser m_marks m_data]. rewrite Hf.
  cbn [fst snd m_parser m_data length Nat.sub]. by rewrite Hok', Hup.
Qed.

(** Decides the tests of the code from the facts in the context. *)
Ltac decide_test :=
  first [ reflexivity
        | assumption
        | symmetry; assumption
        | repeat match goal with
          | H : ?x = true |- context [?x] => rewrite H
          | H : ?x = false |- context [?x] => rewrite H
          end; reflexivity
        | rewrite ?Z.gtb_ltb; rewrite ?Z.ltb_ge, ?Z.ltb_lt; lia ].

Ltac run_step :=
  lazymatch goal with
  | |- wp (CALLBACK_DATA_ _ _ _ _) _ _ _ =>
      first [ eapply wp_data_marked; [done|reflexivity|] | eapply wp_data_unmarked; [done|reflexivity|] ]
  | |- wp (CALLBACK_NOTIFY_ _ FOR_message_begin _) _ _ _ => apply wp_begin; [done|]
  | |- wp (call_headers_complete _) _ _ _ => apply wp_headers_complete
  | |- wp (if ?t then _ else _) _ _ _ =>
      first [ replace t with false by (symmetry; decide_test)
            | replace t with true by (symmetry; decide_test) ]
  | |- wp (assert _) _ _ _ => apply wp_assert; [decide_test|]
  | |- wp (match_word _ _ _) _ _ _ => unfold match_word
  | |- wp (match _ with _ => _ end) _ _ _ => fail "stuck"
  | _ => wp_step
  end; cbn beta.

Lemma wp_reexecute_done fuel c s N E :
  wp (dispatch settings (p_state (m_parser s)) c) N (fun _ _ => False) s ->
  wp (reexecute_byte settings (S fuel) c) N E s.
Proof.
  unfold wp. cbn [reexecute_byte].
  by destruct (dispatch settings (p_state (m_parser s)) c s) as [[] s'].
Qed.

Lemma wp_reexecute_again fuel c s s' N E :
  dispatch settings (p_state (m_parser s)) c s = (Reexecute, s') ->
  wp (reexecute_byte settings fuel c) N E s' ->
  wp (reexecute_byte settings (S fuel) c) N E s.
Proof. unfold wp. cbn [reexecute_byte]. by intros ->. Qed.

Lemma flush_none p d :
  p_http_errno p = HPE_OK ->
  flush_marks settings (mk_mstate p [] no_marks d) = (Normal tt, mk_mstate p [] no_marks d).
Proof. apply (flush_no_marks settings). Qed.

Lemma flush_one k p m d :
  p_http_errno p = HPE_OK ->
  flush_marks settings (mk_mstate p [] (set_mark k (Some m) no_marks) d)
  = (Normal tt, mk_mstate p [] no_marks (on_data k m d)).
Proof. intros. rewrite (flush_one_mark settings) by done. cbn. by rewrite Nat.sub_0_r, firstn_all. Qed.

(** The parser of a message whose header is being read. *)
Definition header_parser ty fl st hs idx nr cl mj mn sc_ me : http_parser :=
  mk_parser ty fl st hs idx nr cl mj mn sc_ me HPE_OK false.

Ltac flush_tac :=
  split; [reflexivity|];
  first [ apply flush_none; reflexivity
        | apply (flush_one FOR_url); reflexivity
        | apply (flush_one FOR_header_field); reflexivity
        | apply (flush_one FOR_header_value); reflexivity
        | apply (flush_one FOR_status); reflexivity ].

Ltac eval_start_marks :=
  match goal with
  | |- context [start_marks ?st ?q] =>
      let m := eval vm_compute in (start_marks st q) in change (start_marks st q) with m
  end.

Lemma nread_next nr : 0 <= nr < HTTP_MAX_HEADER_SIZE -> w32 (nr + 1) = nr + 1.
Proof. intros. apply wrap_small. consts. lia. Qed.

Ltac byte_enter :=
  unfold header_parser in *; apply byte_wp; [reflexivity|cbn; done|reflexivity..|];
  reduce; rewrite nread_next by done; eval_start_marks.

Ltac dispatch_tac :=
  cbn [p_state m_parser dispatch];
  repeat (open_case; run_step; reduce); try flush_tac.

Ltac byte_tac := byte_enter; apply wp_reexecute_done; dispatch_tac.

(** ** The request line *)

Lemma url_char_plain st c :
  parse_url_char st c <> s_dead -> (c == SP) = false /\ (c == CR) = false /\ (c == LF) = false.
Proof.
  unfold parse_url_char. destruct (c == SP), (c == CR), (c == LF); try done; by intros [].
Qed.

(** Runs of bytes of one kind, after the bytes [u] already delivered. *)
Lemma feed_run (P : Z -> http_parser) k (Q : ascii -> Prop) w nr u d :
  (forall nr d c, 0 <= nr < HTTP_MAX_HEADER_SIZE -> Q c ->
     byte (P nr) d c = Some (P (nr + 1), on_data k [c] d)) ->
  Forall Q w -> 0 <= nr -> nr + Z.of_nat (length w) <= HTTP_MAX_HEADER_SIZE ->
  feed (P nr) (on_data k u d) w = Some (P (nr + Z.of_nat (length w)), on_data k (u ++ w) d).
Proof.
  intros HP. revert nr u. induction w as [|c w IH]; intros nr u Hw Hn Hl.
  { cbn. by rewrite Z.add_0_r, app_nil_r. }
  inversion Hw as [|? ? Hc Hw']; subst. cbn in Hl. cbn [HttpSplit.feed].
  rewrite HP by (done || lia). cbn [mbind option_bind fst snd]. rewrite on_data_app.
  rewrite IH by (done || lia). rewrite <- (assoc app). do 3 f_equal. cbn. lia.
Qed.

(** A byte in the middle of a URL. *)
Lemma byte_url_char ty fl st st' hs idx nr cl mj mn sc_ me d c :
  0 <= nr < HTTP_MAX_HEADER_SIZE ->
  st = s_req_path \/ st = s_req_query_string_start \/ st = s_req_query_string ->
  parse_url_char st c = st' -> (st' =e s_dead) = false ->
  byte (header_parser ty fl st hs idx nr cl mj mn sc_ me) d c
  = Some (header_parser ty fl st' hs idx (nr + 1) cl mj mn sc_ me, on_data FOR_url [c] d).
Proof.
  intros Hn Hst Hc Hd. pose proof (enum_eqb_neq _ _ Hd) as Hd'.
  assert (parse_url_char st c <> s_dead) as Hs by congruence.
  destruct (url_char_plain st c Hs) as (? & ? & ?).
  destruct Hst as [->|[->| ->]]; byte_tac; rewrite ?Hc, ?Hd; dispatch_tac.
Qed.

(** Its first byte. *)
Lemma byte_url_start ty fl hs idx nr cl mj mn sc_ me d c :
  0 <= nr < HTTP_MAX_HEADER_SIZE -> c = "/"%char \/ c = "*"%char -> (me =e HTTP_CONNECT) = false ->
  byte (header_parser ty fl s_req_spaces_before_url hs idx nr cl mj mn sc_ me) d c
  = Some (header_parser ty fl s_req_path hs idx (nr + 1) cl mj mn sc_ me, on_data FOR_url [c] d).
Proof. intros Hn [-> | ->] Hm; byte_tac. Qed.

Lemma byte_url_end ty fl st hs idx nr cl mj mn sc_ me d :
  0 <= nr < HTTP_MAX_HEADER_SIZE -> st = s_req_path \/ st = s_req_query_string ->
  byte (header_parser ty fl st hs idx nr cl mj mn sc_ me) d SP
  = Some (header_parser ty fl s_req_http_start hs idx (nr + 1) cl mj mn sc_ me, on_data FOR_url [] d).
Proof. intros Hn [-> | ->]; byte_tac. Qed.

Definition url_end_state (query : bytes) : state :=
  match query with [] => s_req_path | _ => s_req_query_string end.

Lemma feed_path ty fl hs idx nr cl mj mn sc_ me u d w :
  Forall path_char w -> 0 <= nr -> nr + Z.of_nat (length w) <= HTTP_MAX_HEADER_SIZE ->
  feed (header_parser ty fl s_req_path hs idx nr cl mj mn sc_ me) (on_data FOR_url u d) w
  = Some (header_parser ty fl s_req_path hs idx (nr + Z.of_nat (length w)) cl mj mn sc_ me,
          on_data FOR_url (u ++ w) d).
Proof.
  intros. apply (feed_run (fun nr => header_parser ty fl s_req_path hs idx nr cl mj mn sc_ me)
    FOR_url path_char); [|done..].
  intros. apply byte_url_char; [done|by left|by rewrite url_char_stays by tauto|done].
Qed.

Lemma feed_query ty fl hs idx nr cl mj mn sc_ me u d w :
  Forall query_char w -> 0 <= nr -> nr + Z.of_nat (length w) <= HTTP_MAX_HEADER_SIZE ->
  feed (header_parser ty fl s_req_query_string hs idx nr cl mj mn sc_ me) (on_data FOR_url u d) w
  = Some (header_parser ty fl s_req_query_string hs idx (nr + Z.of_nat (length w)) cl mj mn sc_ me,
          on_data FOR_url (u ++ w) d).
Proof.
  intros. apply (feed_run (fun nr => header_parser ty fl s_req_query_string hs idx nr cl mj mn sc_ me)
    FOR_url query_char); [|done..].
  intros. apply byte_url_char; [done|by right; right|by apply query_char_stays; auto|done].
Qed.

Lemma feed_target ty fl hs idx nr cl mj mn sc_ me d path query :
  target_ok path query -> (me =e HTTP_CONNECT) = false ->
  0 <= nr -> nr + Z.of_nat (length (target path query)) <= HTTP_MAX_HEADER_SIZE ->
  feed (header_parser ty fl s_req_spaces_before_url hs idx nr cl mj mn sc_ me) d (target path query)
  = Some (header_parser ty fl (url_end_state query) hs idx
            (nr + Z.of_nat (length (target path query))) cl mj mn sc_ me,
          on_data FOR_url (target path query) d).
Proof.
  intros [(c & p & -> & Hc & Hp) Hq] Hm Hn Hl. unfold target in *.
  rewrite length_app in Hl |- *. cbn [length] in Hl.
  eapply feed_step.
  { cbn [HttpSplit.feed]. rewrite byte_url_start by (done || lia). cbn [mbind option_bind fst snd].
    apply feed_path; [done|lia..]. }
  destruct query as [|c' q].
  { cbn. rewrite app_nil_r. do 2 f_equal. cbn. f_equal. lia. }
  inversion Hq as [|? ? Hc' Hq']; subst. change (b "?" ++ c' :: q) with ("?"%char :: c' :: q) in *.
  cbn [length] in Hl. cbn [HttpSplit.feed fst snd].
  rewrite (byte_url_char _ _ _ s_req_query_string_start); [|lia|by left|done|done].
  cbn [mbind option_bind fst snd]. rewrite on_data_app.
  rewrite (byte_url_char _ _ _ s_req_query_string);
    [|lia|by right; left|by apply query_char_stays; auto|done].
  cbn [mbind option_bind fst snd]. rewrite on_data_app. rewrite feed_query by (done || lia).
  do 2 f_equal; [f_equal; cbn [length]; lia|]. f_equal. cbn.
  by rewrite <- !(assoc app).
Qed.

(** " HTTP/" *)
Lemma feed_http ty fl st hs idx nr cl mj mn sc_ me d :
  st = s_req_path \/ st = s_req_query_string ->
  0 <= nr -> nr + 6 <= HTTP_MAX_HEADER_SIZE ->
  feed (header_parser ty fl st hs idx nr cl mj mn sc_ me) d (b " HTTP/")
  = Some (header_parser ty fl s_req_first_http_major hs idx (nr + 6) cl mj mn sc_ me,
          on_data FOR_url [] d).
Proof.
  intros Hst Hn Hl. change (b " HTTP/") with [SP; "H"; "T"; "T"; "P"; "/"]%char.
  assert (forall s s' c nr d, 0 <= nr < HTTP_MAX_HEADER_SIZE ->
    (s, s', c) ∈ [(s_req_http_start, s_req_http_H, "H"%char); (s_req_http_H, s_req_http_HT, "T"%char);
                  (s_req_http_HT, s_req_http_HTT, "T"%char); (s_req_http_HTT, s_req_http_HTTP, "P"%char);
                  (s_req_http_HTTP, s_req_first_http_major, "/"%char)] ->
    byte (header_parser ty fl s hs idx nr cl mj mn sc_ me) d c
    = Some (header_parser ty fl s' hs idx (nr + 1) cl mj mn sc_ me, d)) as Hs.
  { intros s s' c nr' d' Hr Hin. rewrite !elem_of_cons, elem_of_nil in Hin.
    repeat (destruct Hin as [Hin|Hin]; [simplify_eq; byte_tac|]). done. }
  cbn [HttpSplit.feed]. rewrite byte_url_end by (done || lia). cbn [mbind option_bind fst snd].
  rewrite (Hs s_req_http_start s_req_http_H) by (lia || set_solver). cbn [mbind option_bind fst snd].
  rewrite (Hs s_req_http_H s_req_http_HT) by (lia || set_solver). cbn [mbind option_bind fst snd].
  rewrite (Hs s_req_http_HT s_req_http_HTT) by (lia || set_solver). cbn [mbind option_bind fst snd].
  rewrite (Hs s_req_http_HTT s_req_http_HTTP) by (lia || set_solver). cbn [mbind option_bind fst snd].
  rewrite (Hs s_req_http_HTTP s_req_first_http_major) by (lia || set_solver).
  cbn [mbind option_bind fst snd]. do 3 f_equal. lia.
Qed.

(** ** Numbers *)

Lemma is_digit_facts c :
  is_digit c = true ->
  IS_NUM c = true /\ (c == ".") = false /\ (c == CR) = false /\ (c == LF) = false
  /\ (c == SP) = false /\ (c == HT) = false /\ 0 <= digit_value c <= 9.
Proof.
  intros H. split_and!; try (unfold is_digit, digit_value in *; to_prop; lia);
    try (destruct (c == _) eqn:E; [|done]; apply Ascii.eqb_eq in E; subst; discriminate H).
  exact H.
Qed.

Ltac digit_facts H :=
  let F := fresh in pose proof (is_digit_facts _ H) as F; destruct F as (? & ? & ? & ? & ? & ? & ?).

(** [nr + length w] header bytes are within the limit. *)
Definition fits (nr : Z) (w : bytes) : Prop :=
  0 <= nr /\ nr + Z.of_nat (length w) <= HTTP_MAX_HEADER_SIZE.

Lemma fits_cons nr c w : fits nr (c :: w) -> 0 <= nr < HTTP_MAX_HEADER_SIZE /\ fits (nr + 1) w.
Proof. unfold fits. cbn [length]. lia. Qed.

Lemma fits_app nr w w' : fits nr (w ++ w') -> fits nr w /\ fits (nr + Z.of_nat (length w)) w'.
Proof. unfold fits. rewrite length_app. lia. Qed.

(** A number read digit by digit by a state that keeps its value [v]. *)
Lemma feed_number (P : Z -> Z -> http_parser) w nr v bound d :
  (forall nr v d c, 0 <= nr < HTTP_MAX_HEADER_SIZE -> 0 <= v -> is_digit c = true ->
     v * 10 + digit_value c <= bound ->
     byte (P nr v) d c = Some (P (nr + 1) (v * 10 + digit_value c), d)) ->
  Forall (fun c => is_digit c = true) w -> fits nr w -> 0 <= v -> digits_value v w <= bound ->
  feed (P nr v) d w = Some (P (nr + Z.of_nat (length w)) (digits_value v w), d).
Proof.
  intros HP. revert nr v. induction w as [|c w IH]; intros nr v Hw Hf Hv Hb.
  { cbn. by rewrite Z.add_0_r. }
  inversion Hw as [|? ? Hc Hw']; subst. apply fits_cons in Hf as [Hn Hf].
  destruct (is_digit_facts c Hc) as (_ & _ & _ & _ & _ & _ & Hd).
  change (digits_value v (c :: w)) with (digits_value (v * 10 + digit_value c) w) in *.
  pose proof (digits_value_bound (v * 10 + digit_value c) w ltac:(lia) Hw').
  cbn [HttpSplit.feed]. rewrite HP by (done || lia). cbn [mbind option_bind fst snd].
  rewrite IH by (done || lia). do 3 f_equal. cbn [length]. lia.
Qed.

Ltac number_tac :=
  cbn [p_state m_parser dispatch];
  repeat (open_case; try change (sc "0") with 48; run_step; reduce;
          rewrite ?(wrap_small 16) by (consts; lia));
  flush_tac.

Lemma byte_first_major ty fl hs idx nr cl mj mn sc_ me d c :
  0 <= nr < HTTP_MAX_HEADER_SIZE -> is_digit c = true -> 1 <= digit_value c ->
  byte (header_parser ty fl s_req_first_http_major hs idx nr cl mj mn sc_ me) d c
  = Some (header_parser ty fl s_req_http_major hs idx (nr + 1) cl (digit_value c) mn sc_ me, d).
Proof.
  intros Hn Hc H1. digit_facts Hc. unfold digit_value in *. byte_enter. apply wp_reexecute_done.
  change (sc "0") with 48 in *. cbn [p_state m_parser dispatch]. open_case.
  change (sc "0") with 48. change (sc "1") with 49. change (sc "9") with 57.
  replace ((sc c <? 49) || (sc c >? 57)) with false
    by (symmetry; rewrite Z.gtb_ltb, orb_false_iff, !Z.ltb_ge; lia).
  repeat (run_step; reduce). rewrite wrap_small by (consts; lia). flush_tac.
Qed.

Lemma byte_major ty fl hs idx nr cl mn sc_ me v d c :
  0 <= nr < HTTP_MAX_HEADER_SIZE -> 0 <= v -> is_digit c = true -> v * 10 + digit_value c <= 999 ->
  byte (header_parser ty fl s_req_http_major hs idx nr cl v mn sc_ me) d c
  = Some (header_parser ty fl s_req_http_major hs idx (nr + 1) cl (v * 10 + digit_value c) mn sc_ me, d).
Proof.
  intros Hn Hv Hc H1. digit_facts Hc. unfold digit_value in *. byte_enter. apply wp_reexecute_done.
  number_tac.
Qed.

Lemma byte_first_minor ty fl hs idx nr cl mj mn sc_ me d c :
  0 <= nr < HTTP_MAX_HEADER_SIZE -> is_digit c = true ->
  byte (header_parser ty fl s_req_first_http_minor hs idx nr cl mj mn sc_ me) d c
  = Some (header_parser ty fl s_req_http_minor hs idx (nr + 1) cl mj (digit_value c) sc_ me, d).
Proof.
  intros Hn Hc. digit_facts Hc. unfold digit_value in *. byte_enter. apply wp_reexecute_done.
  number_tac.
Qed.

Lemma byte_minor ty fl hs idx nr cl mj sc_ me v d c :
  0 <= nr < HTTP_MAX_HEADER_SIZE -> 0 <= v -> is_digit c = true -> v * 10 + digit_value c <= 999 ->
  byte (header_parser ty fl s_req_http_minor hs idx nr cl mj v sc_ me) d c
  = Some (header_parser ty fl s_req_http_minor hs idx (nr + 1) cl mj (v * 10 + digit_value c) sc_ me, d).
Proof.
  intros Hn Hv Hc H1. digit_facts Hc. unfold digit_value in *. byte_enter. apply wp_reexecute_done.
  number_tac.
Qed.

Lemma digits_value_cons v c w : digits_value v (c :: w) = digits_value (v * 10 + digit_value c) w.
Proof. done. Qed.

Lemma byte_version_dot ty fl hs idx nr cl mj mn sc_ me d :
  0 <= nr < HTTP_MAX_HEADER_SIZE ->
  byte (header_parser ty fl s_req_http_major hs idx nr cl mj mn sc_ me) d "."
  = Some (header_parser ty fl s_req_first_http_minor hs idx (nr + 1) cl mj mn sc_ me, d).
Proof. intros. byte_tac. Qed.

Lemma byte_version_cr ty fl hs idx nr cl mj mn sc_ me d :
  0 <= nr < HTTP_MAX_HEADER_SIZE ->
  byte (header_parser ty fl s_req_http_minor hs idx nr cl mj mn sc_ me) d CR
  = Some (header_parser ty fl s_req_line_almost_done hs idx (nr + 1) cl mj mn sc_ me, d).
Proof. intros. byte_tac. Qed.

Lemma byte_request_line_lf ty fl hs idx nr cl mj mn sc_ me d :
  0 <= nr < HTTP_MAX_HEADER_SIZE ->
  byte (header_parser ty fl s_req_line_almost_done hs idx nr cl mj mn sc_ me) d LF
  = Some (header_parser ty fl s_header_field_start hs idx (nr + 1) cl mj mn sc_ me, d).
Proof. intros. byte_tac. Qed.

(** "MAJOR.MINOR" and the end of the request line. *)
Definition version (mj mn : Z) : bytes := dec_signed mj ++ b "." ++ dec_signed mn ++ CRLF.

Lemma feed_version ty fl hs idx nr cl mj0 mn0 sc_ me d mj mn :
  1 <= mj <= 999 -> 0 <= mn <= 999 -> fits nr (version mj mn) ->
  feed (header_parser ty fl s_req_first_http_major hs idx nr cl mj0 mn0 sc_ me) d (version mj mn)
  = Some (header_parser ty fl s_header_field_start hs idx
            (nr + Z.of_nat (length (version mj mn))) cl mj mn sc_ me, d).
Proof.
  intros Hmj Hmn. unfold version. rewrite !dec_signed_nonneg by lia. intros Hf.
  destruct (dec_ok mj ltac:(lia)) as (_ & Hd1 & Hv1), (dec_ok mn ltac:(lia)) as (Hne & Hd2 & Hv2).
  destruct (dec_head mj ltac:(lia)) as (c1 & w1 & E1 & Hc1). rewrite E1 in *.
  destruct (dec mn) as [|c2 w2]; [done|].
  apply Forall_cons in Hd1 as [Hx1 Hy1], Hd2 as [Hx2 Hy2].
  rewrite digits_value_cons, Z.add_0_l in Hv1, Hv2.
  digit_facts Hx1. digit_facts Hx2.
  unfold fits in Hf. rewrite !length_app in Hf |- *. cbn [length b String.list_ascii_of_string CRLF] in *.
  eapply feed_step.
  { cbn [HttpSplit.feed]. rewrite byte_first_major by (done || lia). cbn [mbind option_bind fst snd].
    apply (feed_number (fun nr v => header_parser ty fl s_req_http_major hs idx nr cl v mn0 sc_ me)
             w1 (nr + 1) _ 999); [|done|unfold fits; lia|lia|lia].
    intros. by apply byte_major. }
  eapply feed_step.
  { cbn [HttpSplit.feed]. rewrite byte_version_dot by lia. reflexivity. }
  eapply feed_step.
  { cbn [HttpSplit.feed fst snd]. rewrite byte_first_minor by (done || lia). cbn [mbind option_bind fst snd].
    apply (feed_number (fun nr v => header_parser ty fl s_req_http_minor hs idx nr cl _ v sc_ me)
             w2 _ _ 999); [|done|unfold fits; lia|lia|lia].
    intros. by apply byte_minor. }
  unfold CRLF. cbn [HttpSplit.feed fst snd].
  rewrite byte_version_cr by lia. cbn [mbind option_bind fst snd].
  rewrite byte_request_line_lf by lia. cbn [mbind option_bind fst snd].
  rewrite Hv1, Hv2. do 3 f_equal. lia.
Qed.
(** ** Header names *)

(** The header state after the first byte of a name, and after a further one;
    [c] is the lower-cased token byte. *)
Definition field_first (c : ascii) : header_states :=
  if c == "c" then h_C
  else if c == "p" then h_matching_proxy_connection
  else if c == "t" then h_matching_transfer_encoding
  else if c == "u" then h_matching_upgrade
  else h_general.

Definition match_next (word : bytes) (complete cur : header_states) (i : Z) (c : ascii)
  : header_states * Z :=
  (if c == nth (Z.to_nat (i + 1)) word NUL
   then if i + 1 =? Z.of_nat (length word) - 1 then complete else cur
   else h_general, i + 1).

Definition field_next (h : header_states) (i : Z) (c : ascii) : header_states * Z :=
  match h with
  | h_C => (if c == "o" then h_CO else h_general, i + 1)
  | h_CO => (if c == "n" then h_CON else h_general, i + 1)
  | h_CON => (if c == "n" then h_matching_connection
              else if c == "t" then h_matching_content_length else h_general, i + 1)
  | h_matching_connection => match_next CONNECTION h_connection h i c
  | h_matching_proxy_connection => match_next PROXY_CONNECTION h_connection h i c
  | h_matching_content_length => match_next CONTENT_LENGTH h_content_length h i c
  | h_matching_transfer_encoding => match_next TRANSFER_ENCODING h_transfer_encoding h i c
  | h_matching_upgrade => match_next UPGRADE h_upgrade h i c
  | _ => (h_general, i)
  end.

(** What the header state says about the bytes [w] of the name read so far. *)
Definition matching (word w : bytes) (i : Z) : Prop :=
  0 <= i /\ i + 1 < Z.of_nat (length word) /\ w = take (Z.to_nat (i + 1)) word.

Definition tracks (w : bytes) (h : header_states) (i : Z) : Prop :=
  match h with
  | h_general => True
  | h_C => w = b "c" /\ i = 0
  | h_CO => w = b "co" /\ i = 1
  | h_CON => w = b "con" /\ i = 2
  | h_matching_connection => matching CONNECTION w i
  | h_matching_proxy_connection => matching PROXY_CONNECTION w i
  | h_matching_content_length => matching CONTENT_LENGTH w i
  | h_matching_transfer_encoding => matching TRANSFER_ENCODING w i
  | h_matching_upgrade => matching UPGRADE w i
  | h_connection => w = CONNECTION \/ w = PROXY_CONNECTION
  | h_content_length => w = CONTENT_LENGTH
  | h_transfer_encoding => w = TRANSFER_ENCODING
  | h_upgrade => w = UPGRADE
  | _ => False
  end.

Lemma tracks_first c : tracks [c] (field_first c) 0.
Proof.
  unfold field_first.
  repeat (split_if; [match goal with H : (c == _) = true |- _ => apply Ascii.eqb_eq in H; subst end;
                     vm_compute; intuition congruence|]); done.
Qed.

Lemma match_next_tracks word complete cur w i c :
  matching word w i ->
  (forall w, tracks w complete 0 <-> tracks w complete (i + 1)) ->
  tracks word complete 0 ->
  (forall w, matching word w (i + 1) -> tracks w cur (i + 1)) ->
  tracks (w ++ [c]) (fst (match_next word complete cur i c)) (snd (match_next word complete cur i c)).
Proof.
  intros (Hi & Hl & ->) Hco Hc Hcur. unfold match_next. cbn [fst snd].
  destruct (c == _) eqn:E; [|done]. apply Ascii.eqb_eq in E.
  assert (take (Z.to_nat (i + 1)) word ++ [c] = take (Z.to_nat (i + 2)) word) as ->.
  { replace (Z.to_nat (i + 2)) with (S (Z.to_nat (i + 1))) by lia.
    rewrite (take_S_r _ _ c); [done|]. 
    destruct (lookup_lt_is_Some_2 word (Z.to_nat (i + 1)) ltac:(lia)) as [x Hx].
    rewrite nth_lookup, Hx in E. by subst. }
  destruct (i + 1 =? _) eqn:Hl'; to_prop.
  - apply Hco. rewrite take_ge by lia. done.
  - apply Hcur. split_and!; [lia..|]. do 2 f_equal. lia.
Qed.

Lemma field_next_tracks w h i c :
  tracks w h i -> tracks (w ++ [c]) (fst (field_next h i c)) (snd (field_next h i c)).
Proof.
  destruct h; cbn [tracks field_next]; try done; try (intros; exact I);
    try (intros Hm; apply match_next_tracks; [exact Hm|done|cbn; tauto|done]).
  - intros [-> ->]. cbn [fst snd]. split_if; [|done]. apply Ascii.eqb_eq in Heqb. by subst.
  - intros [-> ->]. cbn [fst snd]. split_if; [|done]. apply Ascii.eqb_eq in Heqb. by subst.
  - intros [-> ->]. cbn [fst snd]. repeat split_if; [| |done];
      match goal with H : (c == _) = true |- _ => apply Ascii.eqb_eq in H; subst end; by vm_compute.
Qed.

Lemma wp_match_word_next word c complete p q ms d N E :
  0 <= p_index p -> p_index p + 1 < Z.of_nat (length word) -> Z.of_nat (length word) < 256 ->
  N tt (mk_mstate (set_header_state (fst (match_next word complete (p_header_state p) (p_index p) c))
                     (set_index (p_index p + 1) p)) q ms d) ->
  wp (match_word word c complete) N E (mk_mstate p q ms d).
Proof.
  intros H0 H1 H2 HN. unfold match_word, next_index, to_header_state.
  apply wp_bind, wp_modify, wp_bind, wp_parser. cbn [m_parser p_index set_index].
  rewrite wrap_small by (consts; lia).
  replace (p_index p + 1 >? Z.of_nat (length word)) with false by (rewrite Z.gtb_ltb; lia).
  apply wp_bind, wp_char_at; [lia|]. unfold match_next in HN. cbn [fst] in HN.
  destruct (c == nth _ word NUL) eqn:Ec; cbn [negb]; [|by apply wp_modify].
  split_if; [by apply wp_modify|]. apply wp_break. by destruct p.
Qed.

Lemma matching_index word w i :
  matching word w i -> Z.of_nat (length word) < 256 ->
  0 <= i /\ i + 1 < Z.of_nat (length word) /\ w8 (i + 1) = i + 1.
Proof. unfold matching. intros (? & ? & _) ?. split_and!; [lia..|]. apply wrap_small. consts. lia. Qed.

(** The first byte of a name, and a further one. *)
Lemma byte_field_start ty fl hs idx nr cl mj mn sc_ me d c :
  0 <= nr < HTTP_MAX_HEADER_SIZE -> (TOKEN c == NUL) = false ->
  byte (header_parser ty fl s_header_field_start hs idx nr cl mj mn sc_ me) d c
  = Some (header_parser ty fl s_header_field (field_first (TOKEN c)) 0 (nr + 1) cl mj mn sc_ me,
          on_data FOR_header_field [c] d).
Proof.
  intros Hn Hc.
  assert ((c == CR) = false /\ (c == LF) = false) as [H1 H2].
  { split; (destruct (c == _) eqn:E; [apply Ascii.eqb_eq in E; subst; discriminate Hc|done]). }
  byte_tac.
Qed.

Lemma byte_field_char ty fl w hs idx nr cl mj mn sc_ me d c :
  0 <= nr < HTTP_MAX_HEADER_SIZE -> (TOKEN c == NUL) = false -> tracks w hs idx ->
  byte (header_parser ty fl s_header_field hs idx nr cl mj mn sc_ me) d c
  = Some (header_parser ty fl s_header_field (fst (field_next hs idx (TOKEN c)))
            (snd (field_next hs idx (TOKEN c))) (nr + 1) cl mj mn sc_ me,
          on_data FOR_header_field [c] d).
Proof.
  intros Hn Hc Ht.
  assert ((c == SP) = false) as H1
    by (destruct (c == _) eqn:E; [apply Ascii.eqb_eq in E; subst; discriminate Hc|done]).
  byte_enter; apply wp_reexecute_done; cbn [p_state m_parser dispatch]. open_case. cbv zeta.
  rewrite Hc. cbn [negb]. apply wp_bind, wp_parser. reduce.
  destruct hs; try (by destruct Ht); cbn [tracks] in Ht;
    lazymatch type of Ht with
    | matching _ _ _ =>
        apply matching_index in Ht as (? & ? & Hw); [|done];
        apply wp_match_word_next; [done|done|done|]; reduce; rewrite Hw; flush_tac
    | _ =>
        lazymatch type of Ht with _ /\ _ => destruct Ht as [-> ->] | _ => idtac end;
        unfold next_index, to_header_state; cbn [field_next];
        repeat (run_step; reduce); cbn [fst snd]; flush_tac
    end.
Qed.
Definition token_char (c : ascii) : Prop := (TOKEN c == NUL) = false.
Definition name_ok (w : bytes) : Prop := w <> [] /\ Forall token_char w.

Lemma feed_field ty fl u hs idx nr cl mj mn sc_ me v d w :
  Forall token_char w -> fits nr w -> tracks u hs idx ->
  let hi := foldl (fun hi c => field_next (fst hi) (snd hi) c) (hs, idx) (map TOKEN w) in
  feed (header_parser ty fl s_header_field hs idx nr cl mj mn sc_ me) (on_data FOR_header_field v d) w
  = Some (header_parser ty fl s_header_field (fst hi) (snd hi) (nr + Z.of_nat (length w)) cl mj mn sc_ me,
          on_data FOR_header_field (v ++ w) d).
Proof.
  revert u hs idx nr v. induction w as [|c w IH]; intros u hs idx nr v Hw Hf Ht hi.
  { cbn. rewrite Z.add_0_r, !app_nil_r. done. }
  apply Forall_cons in Hw as [Hc Hw]. apply fits_cons in Hf as [Hn Hf].
  cbn [HttpSplit.feed]. rewrite (byte_field_char _ _ u) by done. cbn [mbind option_bind].
  rewrite on_data_app. cbn [fst snd].
  rewrite (IH (u ++ [TOKEN c]) _ _ (nr + 1) (v ++ [c]) Hw Hf (field_next_tracks u hs idx (TOKEN c) Ht)).
  rewrite <- (assoc_L (++)). subst hi. cbn [map foldl fst snd].
  rewrite <- surjective_pairing. do 3 f_equal. cbn [length]. lia.
Qed.

(** The header state after a whole name. *)
Definition name_state (w : bytes) : header_states * Z :=
  match w with
  | [] => (h_general, 0)
  | c :: w => foldl (fun hi c => field_next (fst hi) (snd hi) c) (field_first c, 0) w
  end.

Lemma name_state_tracks w : w <> [] -> tracks w (fst (name_state w)) (snd (name_state w)).
Proof.
  destruct w as [|c w]; [done|]. intros _. cbn [name_state].
  assert (forall u hi, tracks u (fst hi) (snd hi) ->
    tracks (u ++ w) (fst (foldl (fun hi c => field_next (fst hi) (snd hi) c) hi w))
                    (snd (foldl (fun hi c => field_next (fst hi) (snd hi) c) hi w))) as H.
  { induction w as [|c' w IH]; intros u hi Hu; [by rewrite app_nil_r|].
    cbn [foldl]. change (c' :: w) with ([c'] ++ w). rewrite (assoc_L (++)).
    by apply IH, field_next_tracks. }
  apply (H [c] (field_first c, 0)), tracks_first.
Qed.

(** ** Between two header lines

    After a line the parser waits in one of three states: it does not know
    yet whether the line is continued.  [line_start] relates it to the parser
    at the start of a header field, with the line's flags and callbacks. *)

Definition lws_flags (hs : header_states) (fl : Z) : Z :=
  match hs with
  | h_connection_keep_alive => wrap 6 (Z.lor fl F_CONNECTION_KEEP_ALIVE)
  | h_connection_close => wrap 6 (Z.lor fl F_CONNECTION_CLOSE)
  | h_transfer_encoding_chunked => wrap 6 (Z.lor fl F_CHUNKED)
  | _ => fl
  end.

Inductive line_start ty fl nr cl mj mn sc_ me d : http_parser -> D -> Prop :=
| line_first hs idx :
    line_start ty fl nr cl mj mn sc_ me d
      (header_parser ty fl s_header_field_start hs idx nr cl mj mn sc_ me) d
| line_next fl0 hs idx :
    fl = lws_flags hs fl0 ->
    line_start ty fl nr cl mj mn sc_ me d
      (header_parser ty fl0 s_header_value_lws hs idx nr cl mj mn sc_ me) d
| line_next_empty d0 hs idx :
    d = on_data FOR_header_value [] d0 ->
    line_start ty fl nr cl mj mn sc_ me d
      (header_parser ty fl s_header_value_discard_lws hs idx nr cl mj mn sc_ me) d0.

Lemma wp_reexecute_step fuel c s (N : unit -> mstate D -> Prop) E :
  wp (dispatch settings (p_state (m_parser s)) c) N
    (fun x s' => match x with
                 | X_reexecute => wp (reexecute_byte settings fuel c) N E s'
                 | _ => E x s'
                 end) s ->
  wp (reexecute_byte settings (S fuel) c) N E s.
Proof.
  unfold wp. cbn [reexecute_byte].
  by destruct (dispatch settings (p_state (m_parser s)) c s) as [[] s'].
Qed.

Ltac again_tac := apply wp_reexecute_step; cbn [p_state m_parser dispatch];
  repeat (open_case; run_step; reduce).

Lemma byte_line_field ty fl nr cl mj mn sc_ me d p d0 c :
  line_start ty fl nr cl mj mn sc_ me d p d0 ->
  0 <= nr < HTTP_MAX_HEADER_SIZE -> token_char c ->
  byte p d0 c
  = Some (header_parser ty fl s_header_field (field_first (TOKEN c)) 0 (nr + 1) cl mj mn sc_ me,
          on_data FOR_header_field [c] d).
Proof.
  intros H Hn Hc. unfold token_char in Hc.
  assert ((c == CR) = false /\ (c == LF) = false /\ (c == SP) = false /\ (c == HT) = false)
    as (H1 & H2 & H3 & H4).
  { split_and!; (destruct (c == _) eqn:E; [apply Ascii.eqb_eq in E; subst; discriminate Hc|done]). }
  destruct H as [hs idx|fl0 hs idx ->|d0 hs idx ->].
  - by apply byte_field_start.
  - destruct hs; byte_enter; again_tac; apply wp_reexecute_done; dispatch_tac.
  - byte_enter; again_tac. apply wp_reexecute_done; dispatch_tac.
Qed.

Lemma byte_line_end ty fl nr cl mj mn sc_ me d p d0 :
  line_start ty fl nr cl mj mn sc_ me d p d0 -> 0 <= nr < HTTP_MAX_HEADER_SIZE ->
  exists hs idx, byte p d0 CR
    = Some (header_parser ty fl s_headers_almost_done hs idx (nr + 1) cl mj mn sc_ me, d).
Proof.
  intros [hs idx|fl0 hs idx ->|d1 hs idx ->] Hn; exists hs, idx.
  - byte_tac.
  - destruct hs; byte_enter; again_tac; apply wp_reexecute_done; dispatch_tac.
  - byte_enter; again_tac. apply wp_reexecute_done; dispatch_tac.
Qed.

(** ** Header lines *)

(** The names the parser gives a meaning to. *)
Definition special_name (w : bytes) : bool :=
  bool_decide (map TOKEN w ∈ [CONNECTION; PROXY_CONNECTION; CONTENT_LENGTH; TRANSFER_ENCODING; UPGRADE]).

Definition value_char (c : ascii) : Prop := (c == CR) = false /\ (c == LF) = false.
Definition value_ok (v : bytes) : Prop :=
  Forall value_char v /\ match v with c :: _ => (c == SP) = false /\ (c == HT) = false | [] => True end.

(** The header states without a meaning for the value. *)
Definition plain (h : header_states) : Prop :=
  match h with h_upgrade | h_transfer_encoding | h_content_length | h_connection => False | _ => True end.

Lemma tracks_plain w h i : tracks (map TOKEN w) h i -> special_name w = false -> plain h.
Proof.
  intros Ht Hs. apply bool_decide_eq_false in Hs. rewrite !elem_of_cons in Hs.
  destruct h; cbn in *; tauto.
Qed.

Lemma byte_colon ty fl hs idx nr cl mj mn sc_ me d :
  0 <= nr < HTTP_MAX_HEADER_SIZE ->
  byte (header_parser ty fl s_header_field hs idx nr cl mj mn sc_ me) d ":"
  = Some (header_parser ty fl s_header_value_discard_ws hs idx (nr + 1) cl mj mn sc_ me,
          on_data FOR_header_field [] d).
Proof. intros. byte_tac. Qed.

Lemma byte_value_space ty fl hs idx nr cl mj mn sc_ me d :
  0 <= nr < HTTP_MAX_HEADER_SIZE ->
  byte (header_parser ty fl s_header_value_discard_ws hs idx nr cl mj mn sc_ me) d SP
  = Some (header_parser ty fl s_header_value_discard_ws hs idx (nr + 1) cl mj mn sc_ me, d).
Proof. intros. byte_tac. Qed.

Lemma byte_value_start ty fl hs idx nr cl mj mn sc_ me d c :
  0 <= nr < HTTP_MAX_HEADER_SIZE -> value_ok [c] -> plain hs ->
  byte (header_parser ty fl s_header_value_discard_ws hs idx nr cl mj mn sc_ me) d c
  = Some (header_parser ty fl s_header_value h_general 0 (nr + 1) cl mj mn sc_ me,
          on_data FOR_header_value [c] d).
Proof.
  intros Hn [Hv [H1 H2]] Hp. apply Forall_singleton in Hv as [H3 H4].
  destruct hs; try (by destruct Hp); byte_tac.
Qed.

Lemma byte_value_char ty fl idx nr cl mj mn sc_ me d c :
  0 <= nr < HTTP_MAX_HEADER_SIZE -> value_char c ->
  byte (header_parser ty fl s_header_value h_general idx nr cl mj mn sc_ me) d c
  = Some (header_parser ty fl s_header_value h_general idx (nr + 1) cl mj mn sc_ me,
          on_data FOR_header_value [c] d).
Proof. intros Hn [H1 H2]. byte_tac. Qed.

Lemma byte_value_cr ty fl hs idx nr cl mj mn sc_ me d :
  0 <= nr < HTTP_MAX_HEADER_SIZE ->
  byte (header_parser ty fl s_header_value hs idx nr cl mj mn sc_ me) d CR
  = Some (header_parser ty fl s_header_almost_done hs idx (nr + 1) cl mj mn sc_ me,
          on_data FOR_header_value [] d).
Proof. intros. byte_tac. Qed.

Lemma byte_value_lf ty fl hs idx nr cl mj mn sc_ me d :
  0 <= nr < HTTP_MAX_HEADER_SIZE ->
  byte (header_parser ty fl s_header_almost_done hs idx nr cl mj mn sc_ me) d LF
  = Some (header_parser ty fl s_header_value_lws hs idx (nr + 1) cl mj mn sc_ me, d).
Proof. intros. byte_tac. Qed.

Lemma feed_value_end ty fl hs idx nr cl mj mn sc_ me d :
  0 <= nr -> nr + 2 <= HTTP_MAX_HEADER_SIZE ->
  feed (header_parser ty fl s_header_value hs idx nr cl mj mn sc_ me) d CRLF
  = Some (header_parser ty fl s_header_value_lws hs idx (nr + 2) cl mj mn sc_ me,
          on_data FOR_header_value [] d).
Proof.
  intros. unfold CRLF. cbn [HttpSplit.feed]. rewrite byte_value_cr by lia. cbn [mbind option_bind fst snd].
  rewrite byte_value_lf by lia. cbn [mbind option_bind fst snd]. do 3 f_equal. lia.
Qed.

Lemma feed_empty_value ty fl hs idx nr cl mj mn sc_ me d :
  0 <= nr -> nr + 2 <= HTTP_MAX_HEADER_SIZE ->
  feed (header_parser ty fl s_header_value_discard_ws hs idx nr cl mj mn sc_ me) d CRLF
  = Some (header_parser ty fl s_header_value_discard_lws hs idx (nr + 2) cl mj mn sc_ me, d).
Proof.
  intros. unfold CRLF. cbn [HttpSplit.feed].
  assert (forall s s' c nr, 0 <= nr < HTTP_MAX_HEADER_SIZE ->
    (s, s', c) ∈ [(s_header_value_discard_ws, s_header_value_discard_ws_almost_done, CR);
                  (s_header_value_discard_ws_almost_done, s_header_value_discard_lws, LF)] ->
    byte (header_parser ty fl s hs idx nr cl mj mn sc_ me) d c
    = Some (header_parser ty fl s' hs idx (nr + 1) cl mj mn sc_ me, d)) as Hs.
  { intros s s' c nr' Hr Hin. rewrite !elem_of_cons, elem_of_nil in Hin.
    repeat (destruct Hin as [Hin|Hin]; [simplify_eq; byte_tac|]). done. }
  rewrite (Hs _ s_header_value_discard_ws_almost_done) by (lia || set_solver).
  cbn [mbind option_bind fst snd].
  rewrite (Hs _ s_header_value_discard_lws) by (lia || set_solver).
  cbn [mbind option_bind fst snd]. do 3 f_equal. lia.
Qed.

(** A name, up to the white space after the colon. *)
Lemma feed_name ty fl nr cl mj mn sc_ me d p d0 name :
  line_start ty fl nr cl mj mn sc_ me d p d0 -> name_ok name -> fits nr (name ++ b ": ") ->
  feed p d0 (name ++ b ": ")
  = Some (header_parser ty fl s_header_value_discard_ws (fst (name_state (map TOKEN name)))
            (snd (name_state (map TOKEN name)))
            (nr + Z.of_nat (length (name ++ b ": "))) cl mj mn sc_ me,
          on_data FOR_header_field name d).
Proof.
  intros Hl [Hne Hall] Hf. destruct name as [|c w]; [done|].
  apply Forall_cons in Hall as [Hc Hw].
  apply fits_app in Hf as [Hf1 Hf2]. unfold fits in Hf2. cbn [length b String.list_ascii_of_string] in Hf2.
  apply fits_cons in Hf1 as [Hn Hf1].
  cbn [app HttpSplit.feed].
  erewrite byte_line_field by done. cbn [mbind option_bind fst snd].
  eapply feed_step; [by apply (feed_field ty fl [TOKEN c]), tracks_first|].
  cbn [b String.list_ascii_of_string HttpSplit.feed].
  rewrite byte_colon by lia. cbn [mbind option_bind fst snd]. rewrite byte_value_space by lia.
  cbn [mbind option_bind fst snd map name_state]. rewrite on_data_app, app_nil_r. do 3 f_equal.
  cbn [length]. rewrite length_app. cbn [length]. lia.
Qed.

(** A header line the parser gives no meaning to. *)
Lemma feed_header ty fl nr cl mj mn sc_ me d p d0 name value :
  line_start ty fl nr cl mj mn sc_ me d p d0 ->
  name_ok name -> special_name name = false -> value_ok value ->
  fits nr (name ++ b ": " ++ value ++ CRLF) ->
  exists p' d', feed p d0 (name ++ b ": " ++ value ++ CRLF) = Some (p', d')
    /\ line_start ty fl (nr + Z.of_nat (length (name ++ b ": " ++ value ++ CRLF))) cl mj mn sc_ me
         (on_data FOR_header_value value (on_data FOR_header_field name d)) p' d'.
Proof.
  intros Hl Hname Hsp [Hv Hv0] Hf.
  replace (name ++ b ": " ++ value ++ CRLF) with ((name ++ b ": ") ++ value ++ CRLF) in *
    by by rewrite <- (assoc_L (++)).
  pose proof Hf as Hf0. apply fits_app in Hf as [Hf1 Hf2].
  pose proof (feed_name ty fl nr cl mj mn sc_ me d p d0 name Hl Hname Hf1) as E.
  assert (plain (fst (name_state (map TOKEN name)))) as Hp.
  { eapply tracks_plain; [|done]. apply name_state_tracks. destruct Hname as [Hn _].
    by destruct name. }
  rewrite (length_app (name ++ b ": ")), Nat2Z.inj_add, Z.add_assoc.
  set (nr1 := nr + Z.of_nat (length (name ++ b ": "))) in *.
  destruct value as [|c v].
  - eexists _, _. split.
    + eapply feed_step; [exact E|]. cbn [app]. unfold fits in Hf2. cbn in Hf2.
      apply feed_empty_value; lia.
    + by apply line_next_empty.
  - apply Forall_cons in Hv as [Hc Hv]. apply fits_cons in Hf2 as [Hn Hf2].
    apply fits_app in Hf2 as [Hf2 Hf3]. unfold fits in Hf2, Hf3. cbn [length CRLF] in Hf3.
    eexists _, _. split.
    + eapply feed_step; [exact E|]. cbn [app HttpSplit.feed].
      rewrite byte_value_start; [|done|split; [by apply Forall_singleton|done]|done].
      cbn [mbind option_bind fst snd]. eapply feed_step.
      * apply (feed_run (fun nr => header_parser ty fl s_header_value h_general 0 nr cl mj mn sc_ me)
          FOR_header_value value_char v); [|done|lia|lia].
        intros. by apply byte_value_char.
      * apply feed_value_end; lia.
    + rewrite on_data_app, app_nil_r. replace (nr1 + Z.of_nat (length ((c :: v) ++ CRLF)))
        with (nr1 + 1 + Z.of_nat (length v) + 2) by (cbn; rewrite length_app; cbn; lia).
      by apply line_next.
Qed.

(** ** Content-Length *)

Lemma byte_length_start ty fl idx nr cl mj mn sc_ me d c :
  0 <= nr < HTTP_MAX_HEADER_SIZE -> is_digit c = true ->
  byte (header_parser ty fl s_header_value_discard_ws h_content_length idx nr cl mj mn sc_ me) d c
  = Some (header_parser ty fl s_header_value h_content_length 0 (nr + 1) (digit_value c) mj mn sc_ me,
          on_data FOR_header_value [c] d).
Proof.
  intros Hn Hc. digit_facts Hc. unfold digit_value in *. byte_enter. apply wp_reexecute_done.
  cbn [p_state m_parser dispatch].
  repeat (open_case; try change (sc "0") with 48; run_step; reduce;
          rewrite ?(wrap_small 64) by (consts; lia)).
  flush_tac.
Qed.

Lemma byte_length_char ty fl idx nr mj mn sc_ me v d c :
  0 <= nr < HTTP_MAX_HEADER_SIZE -> 0 <= v -> is_digit c = true ->
  v * 10 + digit_value c <= (ULLONG_MAX - 10) / 10 * 10 ->
  byte (header_parser ty fl s_header_value h_content_length idx nr v mj mn sc_ me) d c
  = Some (header_parser ty fl s_header_value h_content_length idx (nr + 1) (v * 10 + digit_value c)
            mj mn sc_ me, on_data FOR_header_value [c] d).
Proof.
  intros Hn Hv Hc Hb. digit_facts Hc. unfold digit_value in *. byte_enter. apply wp_reexecute_done.
  assert (((ULLONG_MAX - 10) / 10 <? v) = false) as Ht by (apply Z.ltb_ge; consts; lia).
  cbn [p_state m_parser dispatch].
  repeat (open_case; try change (sc "0") with 48; run_step; reduce;
          rewrite ?(wrap_small 64 (v * 10)) by (consts; lia);
          rewrite ?(wrap_small 64 (v * 10 + (sc c - 48))) by (consts; lia)).
  flush_tac.
Qed.

Lemma feed_length_digits ty fl idx nr mj mn sc_ me v u d w :
  Forall (fun c => is_digit c = true) w -> fits nr w -> 0 <= v ->
  digits_value v w <= (ULLONG_MAX - 10) / 10 * 10 ->
  feed (header_parser ty fl s_header_value h_content_length idx nr v mj mn sc_ me)
    (on_data FOR_header_value u d) w
  = Some (header_parser ty fl s_header_value h_content_length idx (nr + Z.of_nat (length w))
            (digits_value v w) mj mn sc_ me, on_data FOR_header_value (u ++ w) d).
Proof.
  revert nr v u. induction w as [|c w IH]; intros nr v u Hw Hf Hv Hb.
  { cbn. by rewrite Z.add_0_r, app_nil_r. }
  apply Forall_cons in Hw as [Hc Hw]. apply fits_cons in Hf as [Hn Hf].
  digit_facts Hc. rewrite digits_value_cons in *.
  pose proof (digits_value_bound (v * 10 + digit_value c) w ltac:(lia) Hw).
  cbn [HttpSplit.feed]. rewrite byte_length_char by (done || lia). cbn [mbind option_bind fst snd].
  rewrite on_data_app, IH by (done || lia). rewrite <- (assoc_L (++)). do 3 f_equal.
  cbn [length]. lia.
Qed.

Definition length_line (n : Z) : bytes := b "Content-Length: " ++ dec n ++ CRLF.

Lemma feed_length_line ty fl nr cl mj mn sc_ me d p d0 n :
  line_start ty fl nr cl mj mn sc_ me d p d0 ->
  0 <= n <= (ULLONG_MAX - 10) / 10 * 10 -> fits nr (length_line n) ->
  exists p' d', feed p d0 (length_line n) = Some (p', d')
    /\ line_start ty fl (nr + Z.of_nat (length (length_line n))) n mj mn sc_ me
         (on_data FOR_header_value (dec n) (on_data FOR_header_field (b "Content-Length") d)) p' d'.
Proof.
  intros Hl Hn Hf. unfold length_line in *.
  destruct (dec_ok n ltac:(lia)) as (Hne & Hd & Hv).
  change (b "Content-Length: ") with (b "Content-Length" ++ b ": ") in *.
  pose proof Hf as Hf0. apply fits_app in Hf as [Hf1 Hf2].
  rewrite length_app, Nat2Z.inj_add, Z.add_assoc.
  set (nr1 := nr + Z.of_nat (length (b "Content-Length" ++ b ": "))) in *.
  destruct (dec n) as [|c w] eqn:Ed; [done|]. apply Forall_cons in Hd as [Hc Hd].
  rewrite digits_value_cons, Z.add_0_l in Hv.
  apply fits_cons in Hf2 as [Hnr Hf2]. apply fits_app in Hf2 as [Hf2 Hf3].
  unfold fits in Hf3. cbn [length CRLF] in Hf3. digit_facts Hc.
  eexists _, _. split.
  - eapply feed_step.
    + eapply feed_name; [done| |done]. split; [done|]. by repeat (apply Forall_cons; split).
    + change (name_state (map TOKEN (b "Content-Length"))) with (h_content_length, 13).
      cbn [fst snd app HttpSplit.feed]. fold nr1. rewrite byte_length_start by done.
      cbn [mbind option_bind fst snd]. eapply feed_step.
      * apply feed_length_digits; [done|done|lia|lia].
      * apply feed_value_end; lia.
  - rewrite on_data_app, app_nil_r, Hv.
    replace (nr1 + Z.of_nat (length ((c :: w) ++ CRLF)))
      with (nr1 + 1 + Z.of_nat (length w) + 2) by (cbn; rewrite length_app; cbn; lia).
    by apply line_next.
Qed.

(** ** Connection *)

(** The header state after the first byte of a Connection value and after a
    further one; [c] is lower-cased. *)
Definition connection_first (c : ascii) : header_states :=
  if c == "k" then h_matching_connection_keep_alive
  else if c == "c" then h_matching_connection_close else h_general.

Definition connection_next (h : header_states) (i : Z) (c : ascii) : header_states * Z :=
  match h with
  | h_matching_connection_keep_alive => match_next KEEP_ALIVE h_connection_keep_alive h i c
  | h_matching_connection_close => match_next CLOSE h_connection_close h i c
  | _ => (h_general, i)
  end.

Lemma byte_connection_start ty fl idx nr cl mj mn sc_ me d c :
  0 <= nr < HTTP_MAX_HEADER_SIZE -> value_ok [c] ->
  byte (header_parser ty fl s_header_value_discard_ws h_connection idx nr cl mj mn sc_ me) d c
  = Some (header_parser ty fl s_header_value (connection_first (LOWER c)) 0 (nr + 1) cl mj mn sc_ me,
          on_data FOR_header_value [c] d).
Proof.
  intros Hn [Hv [H1 H2]]. apply Forall_singleton in Hv as [H3 H4]. byte_tac.
Qed.

Lemma byte_connection_char ty fl h idx nr cl mj mn sc_ me d c :
  0 <= nr < HTTP_MAX_HEADER_SIZE -> value_char c -> 0 <= idx ->
  h = h_matching_connection_keep_alive /\ idx + 1 < 10 \/ h = h_matching_connection_close /\ idx + 1 < 5 ->
  byte (header_parser ty fl s_header_value h idx nr cl mj mn sc_ me) d c
  = Some (header_parser ty fl s_header_value (fst (connection_next h idx (LOWER c))) (idx + 1) (nr + 1)
            cl mj mn sc_ me,
          on_data FOR_header_value [c] d).
Proof.
  intros Hn [H1 H2] Hi Hh.
  destruct Hh as [[-> Hl] | [-> Hl]]; byte_enter; apply wp_reexecute_done;
    cbn [p_state m_parser dispatch]; open_case; cbv zeta; rewrite H1, H2;
    apply wp_bind, wp_parser; reduce;
    apply wp_match_word_next; try done; reduce; rewrite (wrap_small 8) by (consts; lia); flush_tac.
Qed.

Definition connection_line (keep_alive : bool) : bytes :=
  b "Connection: " ++ (if keep_alive then b "Keep-Alive" else b "close") ++ CRLF.

Lemma feed_connection_word ty fl h idx nr cl mj mn sc_ me u d w h' :
  Forall value_char w -> fits nr w -> 0 <= idx ->
  (h = h_matching_connection_keep_alive /\ idx + Z.of_nat (length w) < 10
   \/ h = h_matching_connection_close /\ idx + Z.of_nat (length w) < 5) ->
  (forall w1 c w2, w = w1 ++ c :: w2 ->
     fst (connection_next h (idx + Z.of_nat (length w1)) (LOWER c)) = if decide (w2 = []) then h' else h) ->
  w <> [] ->
  feed (header_parser ty fl s_header_value h idx nr cl mj mn sc_ me) (on_data FOR_header_value u d) w
  = Some (header_parser ty fl s_header_value h' (idx + Z.of_nat (length w)) (nr + Z.of_nat (length w))
            cl mj mn sc_ me, on_data FOR_header_value (u ++ w) d).
Proof.
  revert nr idx u. induction w as [|c w IH]; intros nr idx u Hw Hf Hi Hh Hnext Hne; [done|].
  apply Forall_cons in Hw as [Hc Hw]. apply fits_cons in Hf as [Hn Hf]. cbn [length] in Hh.
  cbn [HttpSplit.feed]. rewrite byte_connection_char; [|done|done|done|lia || (destruct Hh as [[-> ?]|[-> ?]]; [left|right]; split; lia || done)].
  cbn [mbind option_bind fst snd]. rewrite on_data_app.
  pose proof (Hnext [] c w eq_refl) as H0. cbn [length] in H0. rewrite Z.add_0_r in H0. rewrite H0.
  destruct w as [|c' w].
  - cbn. do 3 f_equal; lia.
  - cbn [decide]. rewrite decide_False by done.
    rewrite IH; [|done|done|lia|cbn [length] in *; destruct Hh as [[-> ?]|[-> ?]]; [left|right]; split; lia || done| |done].
    + rewrite <- (assoc_L (++)). cbn [length]. do 3 f_equal; lia.
    + intros w1 c1 w2 E. rewrite <- (Hnext (c :: w1) c1 w2) by by rewrite E.
      cbn [length]. do 2 f_equal. lia.
Qed.

(** A value of a Connection header that sets [flag]. *)
Definition connection_word (word : bytes) (flag : Z) : Prop :=
  exists c w h h', word = c :: w /\ w <> []
    /\ Forall value_char (c :: w) /\ value_ok [c] /\ connection_first (LOWER c) = h
    /\ (h = h_matching_connection_keep_alive /\ 0 + Z.of_nat (length w) < 10
        \/ h = h_matching_connection_close /\ 0 + Z.of_nat (length w) < 5)
    /\ (forall w1 c w2, w = w1 ++ c :: w2 ->
          fst (connection_next h (0 + Z.of_nat (length w1)) (LOWER c)) = if decide (w2 = []) then h' else h)
    /\ forall fl, lws_flags h' fl = wrap 6 (Z.lor fl flag).

Ltac connection_word_tac :=
  split_and!; [done..|by repeat constructor|by repeat constructor|done|by (left + right)| |done];
  intros w1 c w2 Hw; cbn in Hw;
  repeat (destruct w1 as [|? w1]; [cbn in Hw; injection Hw as <- <-; reflexivity|cbn in Hw; injection Hw as <- Hw]);
  by destruct w1.

Lemma connection_word_keep_alive : connection_word (b "Keep-Alive") F_CONNECTION_KEEP_ALIVE.
Proof.
  exists "K"%char, (b "eep-Alive"), h_matching_connection_keep_alive, h_connection_keep_alive.
  connection_word_tac.
Qed.

Lemma connection_word_lower_keep_alive : connection_word (b "keep-alive") F_CONNECTION_KEEP_ALIVE.
Proof.
  exists "k"%char, (b "eep-alive"), h_matching_connection_keep_alive, h_connection_keep_alive.
  connection_word_tac.
Qed.

Lemma connection_word_close : connection_word (b "close") F_CONNECTION_CLOSE.
Proof.
  exists "c"%char, (b "lose"), h_matching_connection_close, h_connection_close.
  connection_word_tac.
Qed.

Lemma feed_connection_value ty fl nr cl mj mn sc_ me d p d0 word flag :
  line_start ty fl nr cl mj mn sc_ me d p d0 -> connection_word word flag ->
  fits nr (b "Connection: " ++ word ++ CRLF) ->
  exists p' d', feed p d0 (b "Connection: " ++ word ++ CRLF) = Some (p', d')
    /\ line_start ty (wrap 6 (Z.lor fl flag))
         (nr + Z.of_nat (length (b "Connection: " ++ word ++ CRLF))) cl mj mn sc_ me
         (on_data FOR_header_value word (on_data FOR_header_field (b "Connection") d)) p' d'.
Proof.
  intros Hl (c & w & h & h' & Ew & Hne & Hv & Hc & Hh & Hlen & Hnext & Hfl) Hf.
  change (b "Connection: ") with (b "Connection" ++ b ": ") in *.
  apply fits_app in Hf as [Hf1 Hf2].
  set (nr1 := nr + Z.of_nat (length (b "Connection" ++ b ": "))) in *.
  assert (feed p d0 (b "Connection" ++ b ": ")
    = Some (header_parser ty fl s_header_value_discard_ws h_connection 9 nr1 cl mj mn sc_ me,
            on_data FOR_header_field (b "Connection") d)) as E.
  { rewrite (feed_name ty fl nr cl mj mn sc_ me d) ; [done|done| |done].
    split; [done|]. by repeat (apply Forall_cons; split). }
  apply Forall_cons in Hv as [_ Hv]. rewrite Ew in *. apply fits_app in Hf2 as [Hf2 Hf3].
  apply fits_cons in Hf2 as [Hn Hf2]. unfold fits in Hf3. cbn [length CRLF] in Hf3.
  eexists _, _. split.
  - eapply feed_step; [exact E|]. cbn [app HttpSplit.feed].
    rewrite byte_connection_start by done. cbn [mbind option_bind fst snd]. rewrite Hh.
    eapply feed_step; [by apply feed_connection_word|]. apply feed_value_end; lia.
  - rewrite on_data_app, app_nil_r. rewrite !length_app. cbn [length CRLF].
    replace (nr + _) with (nr1 + 1 + Z.of_nat (length w) + 2)
      by (subst nr1; rewrite !length_app; cbn; lia).
    apply line_next. by rewrite Hfl.
Qed.

Lemma feed_connection_line ty fl nr cl mj mn sc_ me d p d0 keep_alive :
  line_start ty fl nr cl mj mn sc_ me d p d0 -> fits nr (connection_line keep_alive) ->
  exists p' d', feed p d0 (connection_line keep_alive) = Some (p', d')
    /\ line_start ty (wrap 6 (Z.lor fl (if keep_alive then F_CONNECTION_KEEP_ALIVE else F_CONNECTION_CLOSE)))
         (nr + Z.of_nat (length (connection_line keep_alive))) cl mj mn sc_ me
         (on_data FOR_header_value (if keep_alive then b "Keep-Alive" else b "close")
            (on_data FOR_header_field (b "Connection") d)) p' d'.
Proof.
  intros Hl Hf. unfold connection_line in *.
  eapply feed_connection_value; [done| |done].
  destruct keep_alive; [apply connection_word_keep_alive|apply connection_word_close].
Qed.

(** ** The status line of a successful response *)

(** "HTTP/1.1 200" as [operator<<] prints it, with the blank it writes for an
    empty message. *)
Definition status_line_200 : bytes := b "HTTP/1.1 200  " ++ CRLF.

Lemma byte_res_start fl hs idx nr cl mj mn sc_ me d :
  0 <= nr < HTTP_MAX_HEADER_SIZE ->
  byte (header_parser HTTP_RESPONSE fl s_start_res hs idx nr cl mj mn sc_ me) d "H"
  = Some (header_parser HTTP_RESPONSE 0 s_res_H hs idx (nr + 1) ULLONG_MAX mj mn sc_ me, on_begin d).
Proof. intros. byte_tac. Qed.

Lemma byte_status_start fl hs idx nr cl mj mn sc_ me d :
  0 <= nr < HTTP_MAX_HEADER_SIZE ->
  byte (header_parser HTTP_RESPONSE fl s_res_status_start hs idx nr cl mj mn sc_ me) d SP
  = Some (header_parser HTTP_RESPONSE fl s_res_status hs 0 (nr + 1) cl mj mn sc_ me, on_data FOR_status [SP] d).
Proof. intros. byte_tac. Qed.

Lemma byte_status_end fl hs idx nr cl mj mn sc_ me d :
  0 <= nr < HTTP_MAX_HEADER_SIZE ->
  byte (header_parser HTTP_RESPONSE fl s_res_status hs idx nr cl mj mn sc_ me) d CR
  = Some (header_parser HTTP_RESPONSE fl s_res_line_almost_done hs idx (nr + 1) cl mj mn sc_ me,
          on_data FOR_status [] d).
Proof. intros. byte_tac. Qed.

(** The steps that only check or count. *)
Lemma byte_status_line s s' c fl hs idx nr cl mj mn sc_ mj' mn' sc_' me d :
  0 <= nr < HTTP_MAX_HEADER_SIZE ->
  (s, s', c, (mj, mn, sc_), (mj', mn', sc_')) ∈
    [(s_res_H, s_res_HT, "T"%char, (mj, mn, sc_), (mj, mn, sc_));
     (s_res_HT, s_res_HTT, "T"%char, (mj, mn, sc_), (mj, mn, sc_));
     (s_res_HTT, s_res_HTTP, "P"%char, (mj, mn, sc_), (mj, mn, sc_));
     (s_res_HTTP, s_res_first_http_major, "/"%char, (mj, mn, sc_), (mj, mn, sc_));
     (s_res_first_http_major, s_res_http_major, "1"%char, (mj, mn, sc_), (1, mn, sc_));
     (s_res_http_major, s_res_first_http_minor, "."%char, (mj, mn, sc_), (mj, mn, sc_));
     (s_res_first_http_minor, s_res_http_minor, "1"%char, (mj, mn, sc_), (mj, 1, sc_));
     (s_res_http_minor, s_res_first_status_code, " "%char, (mj, mn, sc_), (mj, mn, sc_));
     (s_res_first_status_code, s_res_status_code, "2"%char, (mj, mn, sc_), (mj, mn, 2));
     (s_res_status_code, s_res_status_code, "0"%char, (mj, mn, 2), (mj, mn, 20));
     (s_res_status_code, s_res_status_code, "0"%char, (mj, mn, 20), (mj, mn, 200));
     (s_res_status_code, s_res_status_start, " "%char, (mj, mn, 200), (mj, mn, 200));
     (s_res_line_almost_done, s_header_field_start, LF, (mj, mn, sc_), (mj, mn, sc_))] ->
  byte (header_parser HTTP_RESPONSE fl s hs idx nr cl mj mn sc_ me) d c
  = Some (header_parser HTTP_RESPONSE fl s' hs idx (nr + 1) cl mj' mn' sc_' me, d).
Proof.
  intros Hr Hin. rewrite !elem_of_cons, elem_of_nil in Hin.
  repeat (destruct Hin as [Hin|Hin]; [simplify_eq; byte_tac|]). done.
Qed.

Lemma feed_cons p d c w p1 d1 r : byte p d c = Some (p1, d1) -> feed p1 d1 w = r -> feed p d (c :: w) = r.
Proof. intros E. cbn [HttpSplit.feed]. by rewrite E. Qed.

Lemma feed_status_line fl hs idx cl mj mn sc_ me d :
  feed (header_parser HTTP_RESPONSE fl s_start_res hs idx 0 cl mj mn sc_ me) d status_line_200
  = Some (header_parser HTTP_RESPONSE 0 s_header_field_start hs 0 16 ULLONG_MAX 1 1 200 me,
          on_data FOR_status [SP] (on_begin d)).
Proof.
  unfold status_line_200. cbn [b String.list_ascii_of_string app CRLF].
  eapply feed_cons; [by apply byte_res_start|].
  do 12 (eapply feed_cons; [apply byte_status_line; [consts; lia|by repeat constructor]|]).
  eapply feed_cons; [apply byte_status_start; consts; lia|].
  eapply feed_cons; [apply byte_status_end; consts; lia|]. rewrite on_data_app.
  eapply feed_cons; [apply byte_status_line; [consts; lia|by repeat constructor]|].
  by rewrite app_nil_r.
Qed.

(** ** The end of the header and the body *)

(** [on_message_complete] and what it leaves of the parser. *)
Definition complete (p : http_parser) (d : D) : http_parser * D :=
  let p := set_state (NEW_MESSAGE p) p in
  match on_message_complete settings with
  | None => (p, d)
  | Some cb => let '(code, paused, d') := cb p d in
               (after_cb HPE_CB_message_complete code paused p, d')
  end.

Lemma message_complete_spec p q ms d :
  p_http_errno p = HPE_OK ->
  message_complete settings (mk_mstate p q ms d)
  = (if p_http_errno (fst (complete p d)) =e HPE_OK then Normal tt else Return (tail q),
     mk_mstate (fst (complete p d)) q ms (snd (complete p d))).
Proof.
  intros Hok. unfold message_complete, new_message, goto_state, complete.
  unfold bind at 1 2. cbn [parser_ modify m_parser m_p m_marks m_data].
  set (p' := set_state (NEW_MESSAGE p) p). assert (p_http_errno p' = HPE_OK) as Hok' by done.
  unfold CALLBACK_NOTIFY, CALLBACK_NOTIFY_. rewrite bind_p, bind_parser, bind_assert.
  cbn [m_parser m_p m_marks m_data notify_cb]. rewrite Hok'. change (HPE_OK =e HPE_OK) with true. cbv iota.
  destruct (on_message_complete settings) as [cb|]; cbn [fst snd];
    [|change (p_http_errno p') with (p_http_errno p); rewrite Hok; reflexivity].
  cbn [m_parser m_p m_marks m_data]. destruct (cb p' d) as [[code paused] d'].
  cbn [fst snd HPE_CB_notify]. by split_if.
Qed.

(** Flags without a meaning for the body of a message with a length. *)
Definition body_flags (fl : Z) : Prop :=
  has_flag fl F_TRAILING = false /\ has_flag fl F_UPGRADE = false
  /\ has_flag fl F_SKIPBODY = false /\ has_flag fl F_CHUNKED = false.

(** The parser after the header. *)
Definition body_parser ty fl st hs idx cl mj mn sc_ me : http_parser :=
  mk_parser ty fl st hs idx 0 cl mj mn sc_ me HPE_OK false.

Lemma byte_header_end ty fl hs idx nr cl mj mn sc_ me d :
  0 <= nr < HTTP_MAX_HEADER_SIZE -> body_flags fl -> (me =e HTTP_CONNECT) = false ->
  0 < cl < ULLONG_MAX ->
  byte (header_parser ty fl s_headers_almost_done hs idx nr cl mj mn sc_ me) d LF
  = Some (body_parser ty fl s_body_identity hs idx cl mj mn sc_ me, d).
Proof.
  intros Hn (H1 & H2 & H3 & H4) Hm Hcl. unfold body_parser. byte_enter.
  again_tac. rewrite H2, Hm. apply wp_reexecute_done. dispatch_tac.
Qed.

(** A one-byte call that may end in a callback's error. *)
Lemma execute_wp p d c p' d' :
  p_http_errno p = HPE_OK ->
  wp (loop_body settings c)
    (fun _ s => s = mk_mstate p' [] no_marks d' /\ p_http_errno p' = HPE_OK)
    (fun x s => x = X_return [] /\ m_parser s = p' /\ m_data s = d') (start p [c] d) ->
  http_parser_execute settings p d [c] = Some (1%nat, p', d').
Proof.
  intros Hok Hw. rewrite execute_start by done. rewrite (run_ended settings _ c []) by done.
  unfold wp in Hw. destruct (loop_body settings c (start p [c] d)) as [[[]| | | | |] s]; try (by destruct Hw).
  - destruct Hw as [-> Hok']. unfold bind. cbn [for_loop length m_p].
    by rewrite (flush_no_marks settings) by done.
  - destruct Hw as ([= ->] & <- & <-). done.
Qed.

Lemma wp_message_complete p q ms d N E :
  p_http_errno p = HPE_OK ->
  (p_http_errno (fst (complete p d)) = HPE_OK ->
   N tt (mk_mstate (fst (complete p d)) q ms (snd (complete p d)))) ->
  E (X_return (tail q)) (mk_mstate (fst (complete p d)) q ms (snd (complete p d))) ->
  wp (message_complete settings) N E (mk_mstate p q ms d).
Proof.
  intros Hok HN HE. unfold wp. rewrite message_complete_spec by done.
  destruct (p_http_errno _ =e HPE_OK) eqn:E'; [|done]. apply HN. by apply enum_eqb_eq.
Qed.

Lemma wp_count_header p q ms d N E :
  PARSING_HEADER (p_state p) = true -> 0 <= p_nread p < HTTP_MAX_HEADER_SIZE ->
  N tt (mk_mstate (set_nread (p_nread p + 1) p) q ms d) ->
  wp count_header_byte N E (mk_mstate p q ms d).
Proof.
  intros Hh Hn HN. unfold count_header_byte. apply wp_bind, wp_parser. cbn [m_parser]. rewrite Hh.
  apply wp_bind, wp_modify, wp_bind, wp_parser. cbn [m_parser p_nread set_nread].
  rewrite wrap_small by (consts; lia).
  replace (p_nread p + 1 >? HTTP_MAX_HEADER_SIZE) with false by (rewrite Z.gtb_ltb; lia).
  by apply wp_ret.
Qed.

(** The empty line of a message without a body completes it. *)
Lemma execute_header_end ty fl hs idx nr mj mn sc_ me d :
  0 <= nr < HTTP_MAX_HEADER_SIZE -> body_flags fl -> (me =e HTTP_CONNECT) = false ->
  let r := complete (body_parser ty fl s_headers_done hs idx 0 mj mn sc_ me) d in
  http_parser_execute settings (header_parser ty fl s_headers_almost_done hs idx nr 0 mj mn sc_ me) d [LF]
  = Some (1%nat, fst r, snd r).
Proof.
  intros Hn (H1 & H2 & H3 & H4) Hm r. apply execute_wp; [done|].
  unfold start, header_parser. cbn [p_state]. eval_start_marks. unfold loop_body.
  apply wp_bind, wp_count_header; [done|done|]. reduce. rewrite nread_next by done.
  apply wp_bind. again_tac. rewrite H2, Hm. cbn [orb].
  apply wp_reexecute_step; cbn [p_state m_parser dispatch]. unfold case_s_headers_done.
  repeat (run_step; reduce).
  apply wp_message_complete; [done| |by repeat split].
  intros Hok. apply wp_bind, wp_p, wp_set_p. by split.
Qed.
(** A byte of the body that is not the last one. *)
Lemma byte_body ty fl hs idx cl mj mn sc_ me d c :
  1 < cl < ULLONG_MAX ->
  byte (body_parser ty fl s_body_identity hs idx cl mj mn sc_ me) d c
  = Some (body_parser ty fl s_body_identity hs idx (cl - 1) mj mn sc_ me, on_data FOR_body [c] d).
Proof.
  intros Hcl. unfold HttpSplit.byte. rewrite execute_start by done.
  rewrite (run_ended settings _ c []) by done.
  change (start (body_parser ty fl s_body_identity hs idx cl mj mn sc_ me) [c] d)
    with (mk_mstate (body_parser ty fl s_body_identity hs idx cl mj mn sc_ me) [c] no_marks d).
  rewrite (loop_body_one_byte settings) by (done || (unfold state_inv; cbn; lia) || (right; cbn; lia)).
  unfold bind. cbn [for_loop length m_p].
  rewrite (flush_one_mark settings) by done. unfold after_body_byte, body_parser. cbn -[wrap].
  unfold set_content_length. rewrite wrap_small by (consts; lia). done.
Qed.

(** The last byte of the body completes the message. *)
Lemma execute_body_end ty fl hs idx mj mn sc_ me d c :
  let r := complete (body_parser ty fl s_message_done hs idx 0 mj mn sc_ me) (on_data FOR_body [c] d) in
  http_parser_execute settings (body_parser ty fl s_body_identity hs idx 1 mj mn sc_ me) d [c]
  = Some (1%nat, fst r, snd r).
Proof.
  intros r. apply execute_wp; [done|]. unfold start, body_parser. cbn [p_state]. eval_start_marks.
  unfold loop_body. apply wp_bind. unfold count_header_byte.
  apply wp_bind, wp_parser. cbn [m_parser p_state PARSING_HEADER]. apply wp_ret.
  apply wp_bind. apply wp_reexecute_step. cbn [p_state m_parser dispatch].
  unfold case_s_body_identity, read_body. repeat (run_step; reduce).
  apply wp_reexecute_step. cbn [p_state m_parser dispatch]. unfold case_s_message_done.
  apply (wp_message_complete (body_parser ty fl s_message_done hs idx 0 mj mn sc_ me) [c] no_marks
           (on_data FOR_body [c] d)); [done| |].
  - intros Hok. apply wp_bind, wp_p, wp_set_p. by split.
  - by repeat split.
Qed.

Lemma feed_body ty fl hs idx cl mj mn sc_ me u d w :
  Z.of_nat (length w) < cl < ULLONG_MAX ->
  feed (body_parser ty fl s_body_identity hs idx cl mj mn sc_ me) (on_data FOR_body u d) w
  = Some (body_parser ty fl s_body_identity hs idx (cl - Z.of_nat (length w)) mj mn sc_ me,
          on_data FOR_body (u ++ w) d).
Proof.
  revert cl u. induction w as [|c w IH]; intros cl u Hl.
  { cbn. by rewrite Z.sub_0_r, app_nil_r. }
  cbn [length] in Hl. cbn [HttpSplit.feed]. rewrite byte_body by lia. cbn [mbind option_bind fst snd].
  rewrite on_data_app, IH by lia. rewrite <- (assoc_L (++)). do 3 f_equal. cbn [length]. lia.
Qed.

(** ** The method *)

Lemma byte_method_start ty fl hs idx cl mj mn sc_ me d c m :
  ty = HTTP_REQUEST -> (c == CR) = false -> (c == LF) = false -> IS_ALPHA c = true ->
  start_method c = Some m ->
  byte (header_parser ty fl s_start_req hs idx 0 cl mj mn sc_ me) d c
  = Some (header_parser ty 0 s_req_method hs 1 1 ULLONG_MAX mj mn sc_ m, on_begin d).
Proof.
  intros -> H1 H2 H3 Hm. unfold header_parser in *. apply byte_wp; [reflexivity|cbn; consts; lia|reflexivity..|].
  reduce. eval_start_marks. apply wp_reexecute_done. cbn [p_state m_parser dispatch].
  unfold case_s_start_req. rewrite Hm. repeat (run_step; reduce). flush_tac.
Qed.

(** The bytes of a method after the first one. *)
Lemma feed_method_rest hs mj mn sc_ m d c w :
  method_strings m = c :: w ->
  exists m0, start_method c = Some m0 /\
  feed (header_parser HTTP_REQUEST 0 s_req_method hs 1 1 ULLONG_MAX mj mn sc_ m0) d (w ++ [SP])
  = Some (header_parser HTTP_REQUEST 0 s_req_spaces_before_url hs (Z.of_nat (length w) + 2)
            (Z.of_nat (length w) + 2) ULLONG_MAX mj mn sc_ m, d).
Proof.
  intros H. destruct m; vm_compute in H; injection H as <- <-;
    (eexists; split; [reflexivity|vm_compute; reflexivity]).
Qed.

(** Every method of the table is recognised. *)
Lemma feed_method fl hs idx cl mj mn sc_ me d m :
  feed (header_parser HTTP_REQUEST fl s_start_req hs idx 0 cl mj mn sc_ me) d (method_strings m ++ [SP])
  = Some (header_parser HTTP_REQUEST 0 s_req_spaces_before_url hs
            (Z.of_nat (length (method_strings m)) + 1) (Z.of_nat (length (method_strings m)) + 1)
            ULLONG_MAX mj mn sc_ m, on_begin d).
Proof.
  destruct (method_strings m) as [|c w] eqn:E; [by destruct m|].
  destruct (feed_method_rest hs mj mn sc_ m (on_begin d) c w E) as (m0 & Hm0 & Hf).
  cbn [app HttpSplit.feed].
  assert ((c == CR) = false /\ (c == LF) = false /\ IS_ALPHA c = true) as (H1 & H2 & H3)
    by (destruct m; vm_compute in E; injection E as <- _; done).
  rewrite (byte_method_start _ _ _ _ _ _ _ _ _ _ _ m0) by done. cbn [mbind option_bind fst snd].
  rewrite Hf. cbn [length]. do 3 f_equal; lia.
Qed.

End Bytes.
