(* ===== verification/HttpProtocol.v ===== *)
(** * [HttpProtocolHandler]: requests, responses and the parser's callbacks

    The message types, the printers ([operator<<]), and the two [parser_impl]
    structs that turn the callbacks of [http_parser_execute] into a
    [request_t] or a [response_t].  Undefined behaviour of the C++ ([rbegin()]
    of an empty vector, an out-of-range table index, a buffer overflow of
    [sprintf]) is [None]. *)

From stdpp Require Import options.
From S2P Require Import Prelude Boost HttpTypes HttpExecute HttpUrl HttpSplit.

(** ** Messages *)

Definition header_t : Type := bytes * bytes.
Abbreviation headers_t := (list header_t).

(** [find_header]: the value of the first header with this name. *)
Definition find_header (headers : headers_t) (key : bytes) : bytes :=
  match list_find (fun h : header_t => fst h = key) headers with
  | Some (_, h) => snd h
  | None => []
  end.

(** [enum method] and [enum status_code] are kept as their integer values,
    because the code converts arbitrary integers to them. *)
Definition DELETE : Z := 0.
Definition GET : Z := 1.
Definition HEAD : Z := 2.
Definition POST : Z := 3.
Definition PUT : Z := 4.
Definition GATEWAY_TIMEOUT : Z := 504.
Definition OK : Z := 200.

Record request_t := mk_request {
  rq_http_major : Z;
  rq_http_minor : Z;
  rq_method : Z;
  rq_schema : bytes;
  rq_host : bytes;
  rq_port : Z;
  rq_path : bytes;
  rq_query : bytes;
  rq_headers : headers_t;
  rq_keep_alive : bool;
  rq_body : bytes
}.

(** The constructor [request_t()] and [request_t::clear]. *)
Definition request_init : request_t := mk_request 1 1 POST [] [] 0 [] [] [] false [].
Definition request_clear : request_t := mk_request 0 0 GET [] [] 0 [] [] [] false [].

Record response_t := mk_response {
  rs_http_major : Z;
  rs_http_minor : Z;
  rs_code : Z;
  rs_status_message : bytes;
  rs_headers : headers_t;
  rs_keep_alive : bool;
  rs_body : bytes
}.

(** [response_t()] and [response_t::clear] set the same values. *)
Definition response_clear : response_t := mk_response 1 1 GATEWAY_TIMEOUT [] [] false [].

Definition rq_with_headers (h : headers_t) (r : request_t) : request_t :=
  mk_request (rq_http_major r) (rq_http_minor r) (rq_method r) (rq_schema r) (rq_host r)
    (rq_port r) (rq_path r) (rq_query r) h (rq_keep_alive r) (rq_body r).
Definition rq_with_body (v : bytes) (r : request_t) : request_t :=
  mk_request (rq_http_major r) (rq_http_minor r) (rq_method r) (rq_schema r) (rq_host r)
    (rq_port r) (rq_path r) (rq_query r) (rq_headers r) (rq_keep_alive r) v.
Definition rs_with_headers (h : headers_t) (r : response_t) : response_t :=
  mk_response (rs_http_major r) (rs_http_minor r) (rs_code r) (rs_status_message r) h
    (rs_keep_alive r) (rs_body r).
Definition rs_with_body (v : bytes) (r : response_t) : response_t :=
  mk_response (rs_http_major r) (rs_http_minor r) (rs_code r) (rs_status_message r)
    (rs_headers r) (rs_keep_alive r) v.
Definition rs_with_status (v : bytes) (r : response_t) : response_t :=
  mk_response (rs_http_major r) (rs_http_minor r) (rs_code r) v (rs_headers r)
    (rs_keep_alive r) (rs_body r).

(** ** Printers *)

Definition SERVER_NAME : bytes := b "FibpServer 1.0".
Definition METHOD_STRING : list bytes := [b "DELETE"; b "GET"; b "HEAD"; b "POST"; b "PUT"].

Definition print_header (h : header_t) : bytes := fst h ++ b ": " ++ snd h ++ CRLF.

(** The client's [operator<<] for a request; [None] reads past [METHOD_STRING]. *)
Definition print_request (req : request_t) : option bytes :=
  if rq_method req <? 0 then None
  else
    m ← METHOD_STRING !! Z.to_nat (rq_method req);
    Some (m ++ b " " ++ rq_path req
          ++ (match rq_query req with [] => [] | q => b "?" ++ q end)
          ++ b " HTTP/" ++ dec_signed (rq_http_major req) ++ b "."
          ++ dec_signed (rq_http_minor req) ++ CRLF
          ++ mjoin (map print_header (rq_headers req))
          ++ b "Content-Length: " ++ dec (Z.of_nat (length (rq_body req))) ++ CRLF
          ++ (if rq_keep_alive req then b "Connection: Keep-Alive" ++ CRLF
              else b "Connection: close" ++ CRLF)
          ++ CRLF ++ rq_body req).

Section PrintResponse.
Context {boost : BoostStrings}.

(** The flags [server_found] and [content_len_found] after the headers. *)
Definition found_headers (headers : headers_t) : bool * bool :=
  foldl (fun '(server, len) (h : header_t) =>
           if iequals (fst h) (b "server") then (true, len)
           else if iequals (fst h) (b "content-length") then (server, true)
           else (server, len)) (false, false) headers.

(** [operator<<] for a response; [sprintf] has a buffer of ten bytes. *)
Definition print_response (resp : response_t) : option bytes :=
  let buf := dec (Z.of_nat (length (rs_body resp))) in
  if (length buf <? 10)%nat then
    let '(server_found, content_len_found) := found_headers (rs_headers resp) in
    Some (b "HTTP/1.1 " ++ dec_signed (rs_code resp) ++ b " "
          ++ (match rs_status_message resp with [] => b " " ++ CRLF | m => m end)
          ++ mjoin (map print_header (rs_headers resp))
          ++ (if server_found then [] else b "Server: " ++ SERVER_NAME ++ CRLF)
          ++ (if content_len_found then [] else b "Content-Length: " ++ buf ++ CRLF)
          ++ CRLF ++ rs_body resp)
  else None.

End PrintResponse.

(** ** Headers collected by the callbacks *)

(** [headers_.rbegin()->first] and [->second]: undefined on an empty vector. *)
Fixpoint update_last (f : header_t -> header_t) (l : headers_t) : option headers_t :=
  match l with
  | [] => None
  | [h] => Some [f h]
  | h :: l => l' ← update_last f l; Some (h :: l')
  end.

Lemma update_last_snoc f l h : update_last f (l ++ [h]) = Some (l ++ [f h]).
Proof. induction l as [|h' l IH]; [done|]. cbn. rewrite IH. by destruct (l ++ [h]) eqn:E; [destruct l|]. Qed.

Lemma update_last_nonempty f l : l <> [] -> exists l' h, l = l' ++ [h] /\ update_last f l = Some (l' ++ [f h]).
Proof.
  intros Hl. destruct l as [|x l _] using rev_ind; [done|]. exists l, x.
  by rewrite update_last_snoc.
Qed.

Lemma update_last_twice f g l :
  update_last f l ≫= update_last g = update_last (g ∘ f) l.
Proof.
  destruct l as [|x l _] using rev_ind; [done|]. rewrite !update_last_snoc. cbn.
  by rewrite update_last_snoc.
Qed.

Lemma update_last_ext f g l : (forall h, f h = g h) -> update_last f l = update_last g l.
Proof.
  intros H. destruct l as [|x l _] using rev_ind; [done|]. by rewrite !update_last_snoc, H.
Qed.

(** [parser_impl::parser_state]; the request parser uses [url], the response
    parser [status]. *)
Inductive parser_state :=
| st_none | st_start | st_url | st_status | st_field | st_value | st_body | st_end.

#[export] Instance parser_state_eq_dec : EqDecision parser_state.
Proof. solve_decision. Defined.

(** The bodies of [on_header_field] and [on_header_value], shared by the two
    parsers. *)
Definition add_header_field (st : parser_state) (w : bytes) (l : headers_t) : option headers_t :=
  if st =e st_field then update_last (fun h => (fst h ++ w, snd h)) l
  else Some (l ++ [(w, [])]).
Definition add_header_value (st : parser_state) (w : bytes) (l : headers_t) : option headers_t :=
  if st =e st_value then update_last (fun h => (fst h, snd h ++ w)) l
  else update_last (fun h => (fst h, w)) l.
Arguments add_header_field : simpl never.
Arguments add_header_value : simpl never.

Lemma add_header_field_app st w1 w2 l :
  add_header_field st w1 l ≫= add_header_field st_field w2 = add_header_field st (w1 ++ w2) l.
Proof.
  change (add_header_field st_field w2) with (update_last (fun h => (fst h ++ w2, snd h))).
  unfold add_header_field. split_if.
  - rewrite update_last_twice. apply update_last_ext. intros [x y]. cbn. by rewrite (assoc app).
  - cbn. by rewrite update_last_snoc.
Qed.

Lemma add_header_value_app st w1 w2 l :
  add_header_value st w1 l ≫= add_header_value st_value w2 = add_header_value st (w1 ++ w2) l.
Proof.
  change (add_header_value st_value w2) with (update_last (fun h => (fst h, snd h ++ w2))).
  unfold add_header_value. split_if;
    rewrite update_last_twice; apply update_last_ext; intros [x y]; cbn; by rewrite ?(assoc app).
Qed.

(** ** [request::parser_impl] *)

(** The number of a method in [enum http_method]: the conversion
    [(method)(parser_.method)]. *)
Definition method_num (m : http_method) : Z :=
  match m with
  | HTTP_DELETE => 0 | HTTP_GET => 1 | HTTP_HEAD => 2 | HTTP_POST => 3 | HTTP_PUT => 4
  | HTTP_CONNECT => 5 | HTTP_OPTIONS => 6 | HTTP_TRACE => 7 | HTTP_COPY => 8
  | HTTP_LOCK => 9 | HTTP_MKCOL => 10 | HTTP_MOVE => 11 | HTTP_PROPFIND => 12
  | HTTP_PROPPATCH => 13 | HTTP_SEARCH => 14 | HTTP_UNLOCK => 15 | HTTP_REPORT => 16
  | HTTP_MKACTIVITY => 17 | HTTP_CHECKOUT => 18 | HTTP_MERGE => 19 | HTTP_MSEARCH => 20
  | HTTP_NOTIFY => 21 | HTTP_SUBSCRIBE => 22 | HTTP_UNSUBSCRIBE => 23 | HTTP_PATCH => 24
  | HTTP_PURGE => 25 | HTTP_MKCALENDAR => 26
  end.

Module Request.

Section Impl.
(** The state of the owner of the parser, and its request handler [cb_]: what
    it returns, the session's request afterwards and its own state. *)
Context {H : Type} (cb_ : request_t -> H -> bool * request_t * H).
(** The uninitialised [http_parser_url u] of [on_msg_complete]. *)
Context (garbage : http_parser_url).

Record parser_impl := mk_impl {
  i_req : request_t;
  i_url : bytes;
  i_state : parser_state;
  i_should_continue : bool;
  i_owner : H
}.

Definition on_msg_begin (i : parser_impl) : parser_impl :=
  mk_impl request_clear [] st_start (i_should_continue i) (i_owner i).

Definition on_url (w : bytes) (i : parser_impl) : parser_impl :=
  mk_impl (i_req i) (if i_state i =e st_url then i_url i ++ w else w) st_url
    (i_should_continue i) (i_owner i).

Definition on_header_field (w : bytes) (i : parser_impl) : option parser_impl :=
  hs ← add_header_field (i_state i) w (rq_headers (i_req i));
  Some (mk_impl (rq_with_headers hs (i_req i)) (i_url i) st_field
          (i_should_continue i) (i_owner i)).

Definition on_header_value (w : bytes) (i : parser_impl) : option parser_impl :=
  hs ← add_header_value (i_state i) w (rq_headers (i_req i));
  Some (mk_impl (rq_with_headers hs (i_req i)) (i_url i) st_value
          (i_should_continue i) (i_owner i)).

Definition on_body (w : bytes) (i : parser_impl) : parser_impl :=
  mk_impl (rq_with_body (rq_body (i_req i) ++ w) (i_req i)) (i_url i) st_body
    (i_should_continue i) (i_owner i).

(** The request after [on_msg_complete], from the URL's fields.  [url_] is
    NUL-terminated, so one byte after it is readable; the result of
    [http_parser_parse_url] is ignored. *)
Definition complete_request (p : http_parser) (i : parser_impl) : option request_t :=
  r ← http_parser_parse_url (i_url i ++ [NUL]) (length (i_url i)) false garbage;
  let u := snd r in
  let req := i_req i in
  let field f old := if is_field_set u f then url_field_bytes (i_url i) u f else old in
  Some (mk_request (p_http_major p) (p_http_minor p) (method_num (p_method p))
          (rq_schema req) (field UF_HOST (rq_host req))
          (if is_field_set u UF_PORT then u_port u else 0)
          (field UF_PATH (rq_path req)) (field UF_QUERY (rq_query req))
          (rq_headers req) (http_should_keep_alive p) (rq_body req)).

Definition on_msg_complete (p : http_parser) (i : parser_impl) : option (Z * parser_impl) :=
  req ← complete_request p i;
  let '(continue, req, h) := cb_ req (i_owner i) in
  Some (if (continue : bool) then 0 else -1,
        mk_impl req (i_url i) st_end continue h).

(** [settings_]; the callbacks' state is [None] after undefined behaviour. *)
Abbreviation impl := (option parser_impl).

Definition data_callback (f : bytes -> parser_impl -> option parser_impl) : http_data_cb impl :=
  fun _ w i => (0, false, i ≫= f w).
Definition notify_callback (f : http_parser -> parser_impl -> option (Z * parser_impl))
  : http_cb impl :=
  fun p i => match i ≫= f p with
             | Some (code, i') => (code, false, Some i')
             | None => (0, false, None)
             end.

Definition settings_ : http_parser_settings impl :=
  mk_settings
    (Some (notify_callback (fun _ i => Some (0, on_msg_begin i))))
    (Some (data_callback (fun w i => Some (on_url w i))))
    (Some (data_callback (fun _ i => Some i)))
    (Some (data_callback on_header_field))
    (Some (data_callback on_header_value))
    (Some (notify_callback (fun _ i => Some (0, i))))
    (Some (data_callback (fun w i => Some (on_body w i))))
    (Some (notify_callback on_msg_complete)).

(** What the callback for each kind of data does. *)
Definition collect (k : data_for) (w : bytes) (i : impl) : impl :=
  i ≫= fun i => match k with
                | FOR_header_field => on_header_field w i
                | FOR_header_value => on_header_value w i
                | FOR_url => Some (on_url w i)
                | FOR_body => Some (on_body w i)
                | FOR_status => Some i
                end.

(** The parser's callbacks honour the contract of [Streaming]. *)
#[export] Instance settings_streaming : Streaming settings_.
Proof.
  refine {| on_data := collect |}.
  - by intros [].
  - intros k w1 w2 [i|]; [|done]. cbn. destruct k; cbn.
    + unfold on_header_field. pose proof (add_header_field_app (i_state i) w1 w2 (rq_headers (i_req i))) as E.
      destruct (add_header_field _ w1 _) as [hs|]; cbn in *; by rewrite <- E.
    + unfold on_header_value. pose proof (add_header_value_app (i_state i) w1 w2 (rq_headers (i_req i))) as E.
      destruct (add_header_value _ w1 _) as [hs|]; cbn in *; by rewrite <- E.
    + unfold on_url. cbn [i_req i_url i_state i_should_continue i_owner]. rewrite enum_eqb_refl.
      do 2 f_equal. destruct (i_state i =e st_url); [by rewrite (assoc app)|done].
    + unfold on_body. cbn. by rewrite (assoc app).
    + done.
Defined.

(** ** Reading from the socket *)

(** A completed [async_read_some]: an error other than [eof], or the bytes
    transferred (none at the end of the stream, at most [buf_size_]). *)
Inductive read_event := Read_error | Read (w : bytes).
Definition buf_size_ : nat := 1024.

(** Why a parser stopped reading, and the callbacks it has made. *)
Inductive parse_end := By_read_error | By_close | By_handler | Waiting.

(** [http_parser_init(&parser_, HTTP_REQUEST)] keeps only [data]. *)
Definition reset_parser : http_parser := http_parser_init HTTP_REQUEST.

(** [request_parser(socket, session)] and the first lines of [start_parse] and
    [do_parse]. *)
Definition new_impl (req : request_t) (h : H) : parser_impl := mk_impl req [] st_none true h.
Definition begin_parse (i : parser_impl) : parser_impl :=
  mk_impl (i_req i) (i_url i) st_none true (i_owner i).

Definition should_continue (i : impl) : bool :=
  match i with Some i => i_should_continue i | None => true end.

(** The body of the loop of [do_parse]: [inr] goes round again. *)
Definition parse_read (p : http_parser) (i : impl) (e : read_event)
  : option ((parse_end * impl) + (http_parser * impl)) :=
  match e with
  | Read_error => Some (inl (By_read_error, i))
  | Read w =>
      '(nparsed, p, i) ← http_parser_execute settings_ p i w;
      Some (if (length w =? 0)%nat then inl (By_close, i)
            else if negb (should_continue i) then inl (By_handler, i)
            else if negb (nparsed =? length w)%nat then inl (By_close, i)
            else inr (p, i))
  end.

(** [while (true)] over the reads that complete; the result is the reason, the
    state and the reads left. *)
Fixpoint parse_loop (p : http_parser) (i : impl) (reads : list read_event)
  : option (parse_end * http_parser * impl * list read_event) :=
  match reads with
  | [] => Some (Waiting, p, i, [])
  | e :: reads =>
      r ← parse_read p i e;
      match r with
      | inl (why, i) => Some (why, reset_parser, i, reads)
      | inr (p, i) => parse_loop p i reads
      end
  end.

Definition do_parse (i : parser_impl) (reads : list read_event)
  : option (parse_end * http_parser * impl * list read_event) :=
  parse_loop reset_parser (Some (begin_parse i)) reads.

(** [read_some_handler], the asynchronous variant: [true] has started another
    read. *)
Definition read_some_handler (p : http_parser) (i : impl) (e : read_event)
  : option (bool * parse_end * http_parser * impl) :=
  match e with
  | Read_error => Some (false, By_read_error, reset_parser, i)
  | Read w =>
      '(nparsed, p, i) ← http_parser_execute settings_ p i w;
      Some (if (length w =? 0)%nat then (false, By_close, reset_parser, i)
            else if negb (should_continue i) then (false, By_handler, reset_parser, i)
            else if negb (nparsed =? length w)%nat then (false, By_close, reset_parser, i)
            else (true, Waiting, p, i))
  end.

End Impl.
Arguments parser_impl : clear implicits.
End Request.

(** ** [response::parser_impl] *)

Module Response.

Record parser_impl := mk_impl {
  i_resp : response_t;
  i_state : parser_state;
  i_should_continue : bool
}.

Definition on_msg_begin (i : parser_impl) : parser_impl :=
  mk_impl response_clear st_start (i_should_continue i).

Definition on_status_complete (w : bytes) (i : parser_impl) : parser_impl :=
  mk_impl (rs_with_status (if i_state i =e st_status then rs_status_message (i_resp i) ++ w else w)
             (i_resp i)) st_status (i_should_continue i).

Definition on_header_field (w : bytes) (i : parser_impl) : option parser_impl :=
  hs ← add_header_field (i_state i) w (rs_headers (i_resp i));
  Some (mk_impl (rs_with_headers hs (i_resp i)) st_field (i_should_continue i)).

Definition on_header_value (w : bytes) (i : parser_impl) : option parser_impl :=
  hs ← add_header_value (i_state i) w (rs_headers (i_resp i));
  Some (mk_impl (rs_with_headers hs (i_resp i)) st_value (i_should_continue i)).

Definition on_body (w : bytes) (i : parser_impl) : parser_impl :=
  mk_impl (rs_with_body (rs_body (i_resp i) ++ w) (i_resp i)) st_body (i_should_continue i).

Definition on_msg_complete (p : http_parser) (i : parser_impl) : parser_impl :=
  let r := i_resp i in
  mk_impl (mk_response (p_http_major p) (p_http_minor p) (p_status_code p)
             (rs_status_message r) (rs_headers r) (http_should_keep_alive p) (rs_body r))
    st_end false.

Abbreviation impl := (option parser_impl).

Definition data_callback (f : bytes -> parser_impl -> option parser_impl) : http_data_cb impl :=
  fun _ w i => (0, false, i ≫= f w).
Definition notify_callback (f : http_parser -> parser_impl -> parser_impl) : http_cb impl :=
  fun p i => (0, false, f p <$> i).

Definition settings_ : http_parser_settings impl :=
  mk_settings
    (Some (notify_callback (fun _ => on_msg_begin)))
    (Some (data_callback (fun _ i => Some i)))
    (Some (data_callback (fun w i => Some (on_status_complete w i))))
    (Some (data_callback on_header_field))
    (Some (data_callback on_header_value))
    (Some (notify_callback (fun _ i => i)))
    (Some (data_callback (fun w i => Some (on_body w i))))
    (Some (notify_callback on_msg_complete)).

Definition collect (k : data_for) (w : bytes) (i : impl) : impl :=
  i ≫= fun i => match k with
                | FOR_header_field => on_header_field w i
                | FOR_header_value => on_header_value w i
                | FOR_url => Some i
                | FOR_body => Some (on_body w i)
                | FOR_status => Some (on_status_complete w i)
                end.

#[export] Instance settings_streaming : Streaming settings_.
Proof.
  refine {| on_data := collect |}.
  - by intros [].
  - intros k w1 w2 [i|]; [|done]. cbn. destruct k; cbn.
    + unfold on_header_field. pose proof (add_header_field_app (i_state i) w1 w2 (rs_headers (i_resp i))) as E.
      destruct (add_header_field _ w1 _) as [hs|]; cbn in *; by rewrite <- E.
    + unfold on_header_value. pose proof (add_header_value_app (i_state i) w1 w2 (rs_headers (i_resp i))) as E.
      destruct (add_header_value _ w1 _) as [hs|]; cbn in *; by rewrite <- E.
    + done.
    + unfold on_body. cbn. by rewrite (assoc app).
    + unfold on_status_complete. cbn [i_resp i_state i_should_continue]. rewrite enum_eqb_refl.
      destruct (i_state i =e st_status); cbn; [by rewrite (assoc app)|done].
Defined.

(** A completed read of the client's socket. *)
Inductive read_event := Read_error | Read (w : bytes).

(** [parse]: the value returned ([None] while it waits for the next read, or
    when the loop ends because the socket is closed elsewhere), the parser
    kept for the next response, and the state. *)
Fixpoint parse_loop (p : http_parser) (i : impl) (reads : list read_event)
  : option (option bool * http_parser * impl * list read_event) :=
  match reads with
  | [] => Some (None, p, i, [])
  | Read_error :: reads => Some (Some false, http_parser_init HTTP_RESPONSE, i, reads)
  | Read w :: reads =>
      '(nparsed, p, i) ← http_parser_execute settings_ p i w;
      if (length w =? 0)%nat then Some (Some true, http_parser_init HTTP_RESPONSE, i, reads)
      else if negb (match i with Some i => i_should_continue i | None => true end) then
        Some (Some true,
              match i with
              | Some i => if rs_keep_alive (i_resp i) then p else http_parser_init HTTP_RESPONSE
              | None => p
              end, i, reads)
      else if negb (nparsed =? length w)%nat
      then Some (Some false, http_parser_init HTTP_RESPONSE, i, reads)
      else parse_loop p i reads
  end.

Definition parse (p : http_parser) (resp : response_t) (reads : list read_event)
  : option (option bool * http_parser * impl * list read_event) :=
  parse_loop p (Some (mk_impl resp st_none true)) reads.

End Response.
