(* ===== verification/HttpRoundTrip.v ===== *)
(** * From the client's printer to the server's parser

    The bytes [operator<<] prints for a request are parsed back by
    [request::parser_impl], whatever the cuts of the network; the same for a
    response.  The statements say which messages survive the trip. *)

From stdpp Require Import options.
From S2P Require Import Prelude HttpTypes HttpUrl HttpExecute HttpLogic HttpInvariant HttpSafety.
From S2P Require Import Boost HttpSplit HttpBytes HttpCallbacks HttpProtocol.

(** ** The header of a message *)

Section Headers.
Context {D : Type} (settings : http_parser_settings D) `{!Collecting settings}.
Set Default Proof Using "Type*".

Abbreviation feed := (feed settings).
Abbreviation line_start := (line_start settings).

Definition deliver (d : D) (h : header_t) : D :=
  on_data FOR_header_value (snd h) (on_data FOR_header_field (fst h) d).

(** Headers the parser passes on without giving them a meaning. *)
Record header_ok (h : header_t) : Prop := {
  header_name : name_ok (fst h);
  header_general : special_name (fst h) = false;
  header_value : value_ok (snd h)
}.

Lemma feed_headers ty fl cl mj mn sc_ me hs nr d p d0 :
  Forall header_ok hs -> line_start ty fl nr cl mj mn sc_ me d p d0 ->
  fits nr (mjoin (map print_header hs)) ->
  exists p' d', feed p d0 (mjoin (map print_header hs)) = Some (p', d')
    /\ line_start ty fl (nr + Z.of_nat (length (mjoin (map print_header hs)))) cl mj mn sc_ me
         (foldl deliver d hs) p' d'.
Proof.
  revert nr d p d0. induction hs as [|h hs IH]; intros nr d p d0 Hok Hl Hf.
  { exists p, d0. cbn. rewrite Z.add_0_r. done. }
  apply Forall_cons in Hok as [[Hn Hs Hv] Hok]. cbn [map mjoin list_join] in *.
  pose proof Hf as Hf0. apply fits_app in Hf as [Hf1 Hf2].
  destruct (feed_header settings ty fl nr cl mj mn sc_ me d p d0 (fst h) (snd h) Hl Hn Hs Hv Hf1)
    as (p1 & d1 & E1 & Hl1).
  destruct (IH _ _ p1 d1 Hok Hl1 Hf2) as (p2 & d2 & E2 & Hl2).
  exists p2, d2. split; [eapply feed_step; [exact E1|exact E2]|].
  rewrite length_app, Nat2Z.inj_add, Z.add_assoc. exact Hl2.
Qed.

(** The lines the client always prints, and the CR of the empty line. *)
Definition client_lines (n : Z) (keep_alive : bool) : bytes :=
  length_line n ++ connection_line keep_alive.

Definition keep_alive_flags (keep_alive : bool) : Z :=
  if keep_alive then F_CONNECTION_KEEP_ALIVE else F_CONNECTION_CLOSE.

Lemma feed_header_block ty mj mn sc_ me hs nr cl d p d0 n keep_alive :
  Forall header_ok hs -> line_start ty 0 nr cl mj mn sc_ me d p d0 ->
  0 <= n <= (ULLONG_MAX - 10) / 10 * 10 ->
  fits nr (mjoin (map print_header hs) ++ client_lines n keep_alive ++ CRLF) ->
  exists h i nr', feed p d0 (mjoin (map print_header hs) ++ client_lines n keep_alive ++ [CR])
    = Some (header_parser ty (keep_alive_flags keep_alive) s_headers_almost_done h i nr' n mj mn sc_ me,
            deliver (deliver (foldl deliver d hs) (b "Content-Length", dec n))
              (b "Connection", if keep_alive then b "Keep-Alive" else b "close"))
    /\ 0 <= nr' < HTTP_MAX_HEADER_SIZE.
Proof.
  intros Hok Hl Hn Hf. unfold client_lines in *.
  apply fits_app in Hf as [Hf1 Hf]. rewrite <- (assoc_L (++)) in Hf.
  apply fits_app in Hf as [Hf2 Hf]. apply fits_app in Hf as [Hf3 Hf4].
  destruct (feed_headers ty 0 cl mj mn sc_ me hs nr d p d0 Hok Hl Hf1) as (p1 & d1 & E1 & Hl1).
  destruct (feed_length_line settings _ _ _ _ _ _ _ _ _ p1 d1 n Hl1 Hn Hf2) as (p2 & d2 & E2 & Hl2).
  destruct (feed_connection_line settings _ _ _ _ _ _ _ _ _ p2 d2 keep_alive Hl2 Hf3) as (p3 & d3 & E3 & Hl3).
  apply fits_cons in Hf4 as [Hn4 Hf4]. apply fits_cons in Hf4 as [Hn5 _].
  destruct (byte_line_end settings _ _ _ _ _ _ _ _ _ p3 d3 Hl3 Hn4) as (h & i & E4).
  exists h, i. eexists. split; [|exact Hn5].
  eapply feed_step; [exact E1|]. rewrite <- (assoc_L (++)). eapply feed_step; [exact E2|].
  eapply feed_step; [exact E3|]. cbn [HttpSplit.feed]. rewrite E4. cbn [mbind option_bind fst snd].
  by destruct keep_alive.
Qed.

(** ** A whole request *)

(** The request line, up to and including its line end. *)
Definition request_line (me : http_method) (path query : bytes) (mj mn : Z) : bytes :=
  (method_strings me ++ [SP]) ++ target path query ++ b " HTTP/" ++ version mj mn.

Lemma feed_request_line fl hs idx cl mj0 mn0 sc_ me0 d me path query mj mn :
  target_ok path query -> (me =e HTTP_CONNECT) = false -> 1 <= mj <= 999 -> 0 <= mn <= 999 ->
  fits 0 (request_line me path query mj mn) ->
  exists i, feed (header_parser HTTP_REQUEST fl s_start_req hs idx 0 cl mj0 mn0 sc_ me0) d
      (request_line me path query mj mn)
    = Some (header_parser HTTP_REQUEST 0 s_header_field_start hs i
              (Z.of_nat (length (request_line me path query mj mn))) ULLONG_MAX mj mn sc_ me,
            on_data FOR_url (target path query) (on_begin d)).
Proof.
  intros Ht Hm Hmj Hmn Hf. unfold request_line in *.
  apply fits_app in Hf as [Hf1 Hf]. apply fits_app in Hf as [Hf2 Hf]. apply fits_app in Hf as [Hf3 Hf4].
  rewrite !length_app in *. cbn [length] in *. unfold fits in Hf2, Hf3. rewrite Z.add_0_l in *.
  eexists. eapply feed_step; [apply feed_method|].
  eapply feed_step; [apply feed_target; [done|done|lia|]|].
  { replace (Z.of_nat (length (method_strings me)) + 1)
      with (Z.of_nat (length (method_strings me) + 1)) by lia. lia. }
  eapply feed_step.
  { apply feed_http; [by destruct query; [left|right]|lia|]. cbn [length b String.list_ascii_of_string] in Hf3. lia. }
  rewrite (feed_version settings); [|done|done|].
  - rewrite on_data_app, app_nil_r. do 3 f_equal. cbn [length b String.list_ascii_of_string]. lia.
  - unfold fits in *. cbn [length b String.list_ascii_of_string] in *. lia.
Qed.
(** The callback for a body, made only when there is one. *)
Definition deliver_body (w : bytes) (d : D) : D :=
  match w with [] => d | _ => on_data FOR_body w d end.

Lemma feed_body_from ty fl hs idx cl mj mn sc_ me d w :
  Z.of_nat (length w) < cl < ULLONG_MAX ->
  feed (body_parser ty fl s_body_identity hs idx cl mj mn sc_ me) d w
  = Some (body_parser ty fl s_body_identity hs idx (cl - Z.of_nat (length w)) mj mn sc_ me,
          deliver_body w d).
Proof.
  intros Hl. destruct w as [|c w].
  { cbn. by rewrite Z.sub_0_r. }
  cbn [length] in Hl. cbn [HttpSplit.feed]. rewrite (byte_body settings) by lia.
  cbn [mbind option_bind fst snd]. rewrite (feed_body settings) by lia.
  cbn [length deliver_body app]. do 3 f_equal. lia.
Qed.

(** The parser when the message is complete. *)
Definition completed ty fl hs idx mj mn sc_ me st : http_parser :=
  body_parser ty fl st hs idx 0 mj mn sc_ me.

(** From the empty line on: the last byte of the message makes the parser
    call [on_message_complete]. *)
Lemma finish_message ty fl h i nr mj mn sc_ me d body :
  0 <= nr < HTTP_MAX_HEADER_SIZE -> body_flags fl -> (me =e HTTP_CONNECT) = false ->
  Z.of_nat (length body) < ULLONG_MAX ->
  exists w c p1 d1 st, [LF] ++ body = w ++ [c]
    /\ feed (header_parser ty fl s_headers_almost_done h i nr (Z.of_nat (length body)) mj mn sc_ me) d w
       = Some (p1, d1)
    /\ http_parser_execute settings p1 d1 [c]
       = (let r := complete settings (completed ty fl h i mj mn sc_ me st) (deliver_body body d) in
          Some (1%nat, fst r, snd r))
    /\ exists v, d1 = deliver_body v d.
Proof.
  intros Hn Hfl Hm Hl. destruct body as [|c w _] using rev_ind.
  - exists [], LF, (header_parser ty fl s_headers_almost_done h i nr 0 mj mn sc_ me), d, s_headers_done.
    split_and!; [done..| |by exists []]. by apply execute_header_end.
  - exists (LF :: w), c, (body_parser ty fl s_body_identity h i 1 mj mn sc_ me), (deliver_body w d),
      s_message_done. rewrite length_app in Hl |- *. cbn [length] in *.
    split_and!; [done| | |by exists w].
    + cbn [HttpSplit.feed]. rewrite (byte_header_end settings) by (done || lia).
      cbn [mbind option_bind fst snd]. rewrite feed_body_from by lia. do 3 f_equal. lia.
    + rewrite (execute_body_end settings). cbn zeta. do 2 f_equal; f_equal;
        (destruct w; [done|cbn [deliver_body app]; by rewrite on_data_app]).
Qed.

Definition request_bytes me path query mj mn (hs : headers_t) (keep_alive : bool) (body : bytes) : bytes :=
  request_line me path query mj mn
  ++ (mjoin (map print_header hs) ++ client_lines (Z.of_nat (length body)) keep_alive ++ [CR])
  ++ [LF] ++ body.

(** What the callbacks have built when the request is complete. *)
Definition deliver_request path query (hs : headers_t) (keep_alive : bool) (body : bytes) (d : D) : D :=
  deliver_body body
    (deliver (deliver (foldl deliver (on_data FOR_url (target path query) (on_begin d)) hs)
                (b "Content-Length", dec (Z.of_nat (length body))))
       (b "Connection", if keep_alive then b "Keep-Alive" else b "close")).

Lemma keep_alive_flags_ok keep_alive : body_flags (keep_alive_flags keep_alive).
Proof. by destruct keep_alive. Qed.

Lemma feed_request fl hs0 idx cl mj0 mn0 sc_ me0 d me path query mj mn hs keep_alive body :
  target_ok path query -> (me =e HTTP_CONNECT) = false -> 1 <= mj <= 999 -> 0 <= mn <= 999 ->
  Forall header_ok hs -> Z.of_nat (length body) <= (ULLONG_MAX - 10) / 10 * 10 ->
  Z.of_nat (length (request_bytes me path query mj mn hs keep_alive body) - length body) <= HTTP_MAX_HEADER_SIZE ->
  exists w c p1 d1 h i st,
    request_bytes me path query mj mn hs keep_alive body = w ++ [c]
    /\ feed (header_parser HTTP_REQUEST fl s_start_req hs0 idx 0 cl mj0 mn0 sc_ me0) d w = Some (p1, d1)
    /\ http_parser_execute settings p1 d1 [c]
       = let r := complete settings (completed HTTP_REQUEST (keep_alive_flags keep_alive) h i mj mn sc_ me st)
                    (deliver_request path query hs keep_alive body d) in
         Some (1%nat, fst r, snd r).
Proof.
  intros Ht Hm Hmj Hmn Hhs Hb Hsize.
  assert (fits 0 (request_line me path query mj mn ++ mjoin (map print_header hs)
            ++ client_lines (Z.of_nat (length body)) keep_alive ++ CRLF)) as Hf.
  { unfold fits, request_bytes in *. rewrite !length_app in *. cbn [length CRLF] in *. lia. }
  apply fits_app in Hf as [Hf1 Hf2]. rewrite Z.add_0_l in Hf2.
  destruct (feed_request_line fl hs0 idx cl mj0 mn0 sc_ me0 d me path query mj mn)
    as (i1 & E1); [done..|].
  destruct (feed_header_block HTTP_REQUEST mj mn sc_ me hs _ ULLONG_MAX
              (on_data FOR_url (target path query) (on_begin d)) _ _ (Z.of_nat (length body)) keep_alive
              Hhs (line_first settings _ _ _ _ _ _ _ _ _ hs0 i1) ltac:(lia) Hf2)
    as (h & i & nr' & E2 & Hn').
  set (dh := deliver (deliver _ _) _) in E2.
  destruct (finish_message HTTP_REQUEST (keep_alive_flags keep_alive) h i nr' mj mn sc_ me dh body
              Hn' (keep_alive_flags_ok _) Hm ltac:(consts; lia)) as (w & c & p1 & d1 & st & E & Ef & Ex & _).
  exists (request_line me path query mj mn
    ++ (mjoin (map print_header hs) ++ client_lines (Z.of_nat (length body)) keep_alive ++ [CR]) ++ w),
    c, p1, d1, h, i, st. split_and!.
  - unfold request_bytes. rewrite E. by rewrite !(assoc_L (++)).
  - eapply feed_step; [exact E1|]. eapply feed_step; [exact E2|]. exact Ef.
  - exact Ex.
Qed.

End Headers.

(** ** Requests *)

Section RequestTrip.
Context {H : Type} (cb_ : request_t -> H -> bool * request_t * H) (garbage : http_parser_url).
Abbreviation settings := (Request.settings_ cb_ garbage).

#[export] Instance request_collecting : Collecting settings.
Proof.
  refine {| collecting_streaming := Request.settings_streaming cb_ garbage; on_begin := fmap Request.on_msg_begin |}.
  - by eexists; split; [reflexivity|]; intros p [i|].
  - by eexists; split; [reflexivity|]; intros p [i|].
Defined.

(** The requests the client can send and the server reads back: one of the
    five methods, a version the parser accepts, a target it accepts, no header
    that the client adds itself or that changes the framing, and sizes within
    the parser's limits. *)
Record sendable (req : request_t) : Prop := {
  send_method : 0 <= rq_method req <= 4;
  send_major : 1 <= rq_http_major req <= 999;
  send_minor : 0 <= rq_http_minor req <= 999;
  send_target : target_ok (rq_path req) (rq_query req);
  send_target_size : Z.of_nat (length (target (rq_path req) (rq_query req))) < 65536;
  send_headers : Forall header_ok (rq_headers req);
  send_body : Z.of_nat (length (rq_body req)) <= (ULLONG_MAX - 10) / 10 * 10;
  send_size : forall w, print_request req = Some w ->
    Z.of_nat (length w) <= HTTP_MAX_HEADER_SIZE + Z.of_nat (length (rq_body req))
}.

(** What the server's handler receives. *)
Definition received (req : request_t) : request_t :=
  mk_request (rq_http_major req) (rq_http_minor req) (rq_method req) [] [] 0
    (rq_path req) (rq_query req)
    (rq_headers req ++ [(b "Content-Length", dec (Z.of_nat (length (rq_body req))));
                        (b "Connection", if rq_keep_alive req then b "Keep-Alive" else b "close")])
    (rq_keep_alive req) (rq_body req).

Definition method_of (m : Z) : http_method :=
  match m with 0 => HTTP_DELETE | 1 => HTTP_GET | 2 => HTTP_HEAD | 3 => HTTP_POST | _ => HTTP_PUT end.

Lemma method_of_num m : 0 <= m <= 4 -> method_num (method_of m) = m /\ (method_of m =e HTTP_CONNECT) = false
  /\ METHOD_STRING !! Z.to_nat m = Some (method_strings (method_of m)).
Proof.
  intros Hm. assert (m = 0 \/ m = 1 \/ m = 2 \/ m = 3 \/ m = 4) as Hc by lia.
  destruct Hc as [->|[->|[->|[->| ->]]]]; by vm_compute.
Qed.

Lemma print_request_bytes req :
  0 <= rq_method req <= 4 ->
  print_request req
  = Some (request_bytes (method_of (rq_method req)) (rq_path req) (rq_query req) (rq_http_major req)
            (rq_http_minor req) (rq_headers req) (rq_keep_alive req) (rq_body req)).
Proof.
  intros Hm. destruct (method_of_num _ Hm) as (_ & _ & E). unfold print_request.
  replace (rq_method req <? 0) with false by lia. rewrite E. cbn [mbind option_bind].
  f_equal. unfold request_bytes, request_line, target, version, client_lines, length_line, connection_line.
  destruct (rq_query req), (rq_keep_alive req); rewrite <- !(assoc_L (++)); reflexivity.
Qed.
(** *** Reading it *)

Abbreviation impl := (option (Request.parser_impl H)).

(** Until the handler is called, nothing stops the reading loop. *)
Lemma callbacks_continue : callbacks_keep settings (fun i : impl => Request.should_continue i = true).
Proof.
  split.
  - intros k cb p w d code paused d' Hk. rewrite data_cb_streams in Hk. injection Hk as <-.
    intros [= <- <- <-] Hi _. destruct d as [i|]; [|by destruct k]. destruct k; cbn in *; try done.
    + unfold Request.on_header_field. by destruct (add_header_field _ _ _).
    + unfold Request.on_header_value. by destruct (add_header_value _ _ _).
  - intros k cb p d code paused d' Hk E Hi ->. destruct k; injection Hk as <-;
      unfold Request.notify_callback in E; destruct d as [i|]; cbn in E.
    + by injection E as <- <-.
    + by injection E as <- <-.
    + unfold Request.on_msg_complete in E. destruct (Request.complete_request garbage p i) as [req|]; cbn in E.
      * destruct (cb_ req (Request.i_owner i)) as [[continue req'] h']. cbn in E.
        injection E as E _ <-. cbn. by destruct continue.
      * by injection E as _ <-.
    + by injection E as <- <-.
  - intros cb p d code paused d' [= <-] E Hi. destruct d as [i|]; by injection E as _ _ <-.
Qed.

Lemma read_one p i x p' i' :
  x <> [] -> http_parser_execute settings p i x = Some (length x, p', i') ->
  Request.parse_read cb_ garbage p i (Request.Read x)
  = Some (if Request.should_continue i' then inr (p', i') else inl (Request.By_handler, i')).
Proof.
  intros Hx E. unfold Request.parse_read. rewrite E. cbn [mbind option_bind].
  replace (length x =? 0)%nat with false by (symmetry; by destruct x).
  rewrite Nat.eqb_refl. by destruct (Request.should_continue i').
Qed.

(** The loop over the pieces of a message whose last byte is [c]. *)
Lemma parse_loop_pieces xs p i w c p1 i1 p2 i2 :
  parser_inv p -> Request.should_continue i = true ->
  feed settings p i w = Some (p1, i1) ->
  http_parser_execute settings p1 i1 [c] = Some (1%nat, p2, i2) ->
  syntax_error (p_http_errno p2) = false ->
  Forall (fun x => x <> []) xs -> concat xs = w ++ [c] ->
  Request.parse_loop cb_ garbage p i (map Request.Read xs)
  = Some (if Request.should_continue i2 then (Request.Waiting, p2, i2, [])
          else (Request.By_handler, Request.reset_parser, i2, [])).
Proof.
  revert p i w. induction xs as [|x xs IH]; intros p i w Hp Hi Hf Hx Hs Hne Hc.
  { by destruct w. }
  apply Forall_cons in Hne as [Hx0 Hne]. cbn [concat] in Hc. cbn [map Request.parse_loop].
  destruct xs as [|y xs].
  - cbn in Hc. rewrite app_nil_r in Hc. subst x.
    destruct (feed_execute settings p i w p1 i1 [c] 1 p2 i2 Hp Hf ltac:(done) Hx) as (i2' & E & Hd).
    rewrite (Hd Hs) in E. rewrite (read_one _ _ _ p2 i2) by (rewrite ?length_app; done).
    cbn [mbind option_bind map Request.parse_loop]. by destruct (Request.should_continue i2).
  - assert (concat (y :: xs) <> []) as Hy by (apply Forall_cons in Hne as [? _]; cbn; by destruct y).
    assert (exists z, w = x ++ z /\ concat (y :: xs) = z ++ [c]) as (z & -> & Ez).
    { destruct (concat (y :: xs)) as [|c0 q _] using rev_ind; [done|]. exists q.
      rewrite (assoc_L (++)) in Hc. apply app_inj_tail in Hc as [-> ->]. done. }
    rewrite feed_app in Hf. destruct (feed settings p i x) as [[p0 i0]|] eqn:E0; [|done].
    cbn in Hf. destruct (feed_call settings p i x p0 i0 Hp Hx0 E0) as (Ex & Hok & Hup).
    assert (Request.should_continue i0 = true) as Hi0
      by by eapply (execute_keeps settings _ callbacks_continue).
    rewrite (read_one _ _ _ _ _ Hx0 Ex), Hi0. cbn [mbind option_bind].
    apply (IH p0 i0 z); try done. by eapply execute_inv.
Qed.

(** *** What the callbacks build *)

Lemma deliver_some (i : Request.parser_impl H) (h : header_t) :
  (Request.i_state i =e st_field) = false ->
  deliver settings (Some i) h
  = Some (Request.mk_impl (rq_with_headers (rq_headers (Request.i_req i) ++ [h]) (Request.i_req i))
            (Request.i_url i) st_value (Request.i_should_continue i) (Request.i_owner i)).
Proof.
  intros Hst. unfold deliver. cbn. unfold Request.on_header_field, add_header_field.
  rewrite Hst. cbn [mbind option_bind]. unfold Request.on_header_value, add_header_value.
  cbn [Request.i_state Request.i_req rq_headers rq_with_headers]. 
  change (st_field =e st_value) with false. cbv iota. rewrite update_last_snoc. by destruct h.
Qed.

Lemma deliver_all (i : Request.parser_impl H) hs :
  (Request.i_state i =e st_field) = false ->
  exists st, (st =e st_field) = false /\
  foldl (deliver settings) (Some i) hs
  = Some (Request.mk_impl (rq_with_headers (rq_headers (Request.i_req i) ++ hs) (Request.i_req i))
            (Request.i_url i) st (Request.i_should_continue i) (Request.i_owner i)).
Proof.
  revert i. induction hs as [|h hs IH]; intros i Hst; cbn [foldl].
  - exists (Request.i_state i). split; [done|]. rewrite app_nil_r. by destruct i as [[]].
  - rewrite deliver_some by done.
    match goal with |- context [foldl _ (Some ?i1) hs] => destruct (IH i1 eq_refl) as (st & Hst' & E) end.
    exists st. split; [done|]. rewrite E. cbn. by rewrite <- (assoc_L (++)).
Qed.

Lemma delivered path query hs keep_alive body (i : Request.parser_impl H) :
  exists st, deliver_request settings path query hs keep_alive body (Some i)
  = Some (Request.mk_impl
      (mk_request 0 0 GET [] [] 0 [] []
         (hs ++ [(b "Content-Length", dec (Z.of_nat (length body)));
                 (b "Connection", if keep_alive then b "Keep-Alive" else b "close")]) false body)
      (target path query) st (Request.i_should_continue i) (Request.i_owner i)).
Proof.
  unfold deliver_request. cbn [on_begin request_collecting fmap option_fmap option_map].
  set (i1 := Request.mk_impl request_clear (target path query) st_url (Request.i_should_continue i) (Request.i_owner i)).
  change (on_data FOR_url (target path query) (Some (Request.on_msg_begin i))) with (Some i1).
  destruct (deliver_all i1 hs eq_refl) as (st1 & Hst1 & ->).
  rewrite deliver_some by done. cbn [Request.i_req Request.i_url Request.i_should_continue Request.i_owner rq_headers rq_with_headers].
  rewrite deliver_some by done. subst i1. cbn.
  rewrite <- !(assoc_L (++)). destruct body as [|c body]; eexists; reflexivity.
Qed.

(** *** The handler's view *)

Lemma received_request req p (i : Request.parser_impl H) :
  sendable req -> p_http_major p = rq_http_major req -> p_http_minor p = rq_http_minor req ->
  method_num (p_method p) = rq_method req -> http_should_keep_alive p = rq_keep_alive req ->
  Request.i_url i = target (rq_path req) (rq_query req) ->
  Request.i_req i = mk_request 0 0 GET [] [] 0 [] [] (rq_headers (received req)) false (rq_body req) ->
  Request.complete_request garbage p i = Some (received req).
Proof.
  intros [_ _ _ Ht Hl _ _ _] H1 H2 H3 H4 Hu Hr. unfold Request.complete_request. rewrite Hu.
  destruct (parse_url_splits _ _ [NUL] garbage Ht Hl) as (u & -> & Hh & Hp & Hpa & Hpath & Hq & Hquery).
  cbn [mbind option_bind snd]. rewrite Hh, Hp, Hpa, Hpath, Hq, H1, H2, H3, H4, Hr.
  unfold received. cbn. f_equal. f_equal. destruct (rq_query req) as [|c q] eqn:Eq; [done|].
  cbn. by apply Hquery.
Qed.

Lemma keep_alive_trip ty h i st mj mn sc_ me keep_alive :
  ty = HTTP_REQUEST -> 1 <= mj -> 0 <= mn ->
  http_should_keep_alive (completed ty (keep_alive_flags keep_alive) h i mj mn sc_ me st) = keep_alive.
Proof.
  intros -> Hmj Hmn. unfold http_should_keep_alive, completed, body_parser. cbn.
  destruct (mj >? 0), (mn >? 0); cbn; by destruct keep_alive.
Qed.

(** What is left after the handler: its decision, and the parser's owner. *)
Definition after_handler (r : bool * request_t * H) (url : bytes) : Request.parser_impl H :=
  Request.mk_impl (snd (fst r)) url st_end (fst (fst r)) (snd r).

Lemma complete_trip req h i st sc_ (im : Request.parser_impl H) :
  sendable req -> Request.i_url im = target (rq_path req) (rq_query req) ->
  Request.i_req im = mk_request 0 0 GET [] [] 0 [] [] (rq_headers (received req)) false (rq_body req) ->
  let p := completed HTTP_REQUEST (keep_alive_flags (rq_keep_alive req)) h i
             (rq_http_major req) (rq_http_minor req) sc_ (method_of (rq_method req)) st in
  let r := complete settings p (Some im) in
  syntax_error (p_http_errno (fst r)) = false
  /\ snd r = Some (after_handler (cb_ (received req) (Request.i_owner im)) (Request.i_url im))
  /\ (fst (fst (cb_ (received req) (Request.i_owner im))) = true -> p_http_errno (fst r) = HPE_OK).
Proof.
  intros Hs Hu Hr p r. subst r. unfold complete. cbn [on_message_complete Request.settings_].
  unfold Request.notify_callback. cbn [mbind option_bind]. unfold Request.on_msg_complete.
  assert (http_should_keep_alive p = rq_keep_alive req) as Hk
    by (apply keep_alive_trip; [done|apply Hs..]).
  rewrite (received_request req); [| |done|done|apply method_of_num, Hs|done|done|done]; [|done].
  cbn [mbind option_bind]. destruct (cb_ _ _) as [[continue req'] h']. cbn [fst snd].
  by destruct continue.
Qed.

Lemma request_trip req i xs w :
  sendable req -> print_request req = Some w ->
  Forall (fun x => x <> []) xs -> concat xs = w ->
  let r := cb_ (received req) (Request.i_owner i) in
  exists p, Request.do_parse cb_ garbage i (map Request.Read xs)
    = Some (if fst (fst r) then Request.Waiting else Request.By_handler, p,
            Some (after_handler r (target (rq_path req) (rq_query req))), [])
    /\ (fst (fst r) = true -> p_http_errno p = HPE_OK).
Proof.
  intros Hs Hw Hne Hc r. pose proof Hs as [Hm Hmj Hmn Ht Hl Hh Hb Hsize]. subst w.
  rewrite print_request_bytes in Hw by done. injection Hw as Hw.
  destruct (method_of_num _ Hm) as (_ & Hconnect & _).
  set (i0 := Request.begin_parse i).
  destruct (feed_request settings 0 h_general 0 0 0 0 0 HTTP_DELETE (Some i0) (method_of (rq_method req))
              (rq_path req) (rq_query req) (rq_http_major req) (rq_http_minor req) (rq_headers req)
              (rq_keep_alive req) (rq_body req))
    as (w & c & p1 & d1 & h & idx & st & Ew & Ef & Ex); [done..| |].
  { rewrite Hw. pose proof (Hsize _ (print_request_bytes req Hm)) as Hz. rewrite Hw in Hz. assert (0 <= HTTP_MAX_HEADER_SIZE) by done. lia. }
  destruct (delivered (rq_path req) (rq_query req) (rq_headers req) (rq_keep_alive req) (rq_body req) i0)
    as (st1 & Ed). rewrite Ed in Ex. cbn zeta in Ex.
  match type of Ex with context [complete _ _ (Some ?im)] => set (i1 := im) in Ex end.
  destruct (complete_trip req h idx st 0 i1 Hs eq_refl eq_refl) as (Hsyn & Hd & Hok).
  cbn zeta in Hsyn, Hd, Hok. change (Request.i_owner i1) with (Request.i_owner i) in Hd, Hok.
  change (Request.i_url i1) with (target (rq_path req) (rq_query req)) in Hd. fold r in Hd, Hok.
  rewrite Hd in Ex.
  pose proof (parse_loop_pieces xs Request.reset_parser (Some i0) w c p1 d1 _ _ ltac:(apply init_inv)
    eq_refl Ef Ex Hsyn Hne ltac:(by rewrite <- Hw)) as E.
  unfold Request.do_parse. fold i0. rewrite E. cbn [Request.should_continue after_handler Request.i_should_continue].
  destruct (fst (fst r)); eexists; (split; [reflexivity|]); [exact Hok|done].
Qed.

(** C1: every request the client can send arrives.  The bytes printed by the
    client, cut by the network into any non-empty pieces, make the server's
    parser call its handler exactly once, with the request that was sent
    (method, version, path, query, headers, keep-alive and body) plus the two
    headers the printer adds; the handler's answer decides whether the parser
    stops or waits for the next request, and no byte is left unread. *)
Theorem request_round_trip req i xs w :
  sendable req -> print_request req = Some w ->
  Forall (fun x => x <> []) xs -> concat xs = w ->
  let r := cb_ (received req) (Request.i_owner i) in
  exists p, Request.do_parse cb_ garbage i (map Request.Read xs)
    = Some (if fst (fst r) then Request.Waiting else Request.By_handler, p,
            Some (after_handler r (target (rq_path req) (rq_query req))), [])
    /\ (fst (fst r) = true -> p_http_errno p = HPE_OK).
Proof. apply request_trip. Qed.

End RequestTrip.

(** ** Witnesses *)

Lemma parse_url_splits_witness :
  exists u', http_parser_parse_url (target (b "/a/b") (b "x=1?") ++ [NUL])
      (length (target (b "/a/b") (b "x=1?"))) false (mk_url 0 0 (fun _ => (7, 9))) = Some (0, u')
    /\ is_field_set u' UF_HOST = false /\ is_field_set u' UF_PORT = false
    /\ is_field_set u' UF_PATH = true
    /\ url_field_bytes (target (b "/a/b") (b "x=1?")) u' UF_PATH = b "/a/b"
    /\ is_field_set u' UF_QUERY = negb (bool_decide (b "x=1?" = []))
    /\ (b "x=1?" <> [] -> url_field_bytes (target (b "/a/b") (b "x=1?")) u' UF_QUERY = b "x=1?").
Proof.
  apply parse_url_splits; [|reflexivity]. split.
  - exists "/"%char, (b "a/b"). split_and!; [reflexivity|by left|by repeat constructor].
  - cbn. repeat (apply Forall_cons; split; [by (left; reflexivity) || (right; reflexivity)|]). constructor.
Defined.

(** A server that logs the requests it receives and closes afterwards. *)
Definition logging_cb (req : request_t) (log : list request_t) : bool * request_t * list request_t :=
  (rq_keep_alive req, request_init, log ++ [req]).

Definition no_url : http_parser_url := mk_url 0 0 (fun _ => (7, 9)).

Definition example_request : request_t :=
  mk_request 1 1 POST [] [] 0 (b "/svc/act") (b "a=1") [(b "Host", b "x.y"); (b "X-Empty", [])]
    false (b "hello").

Lemma example_target : target_ok (b "/svc/act") (b "a=1").
Proof.
  split.
  - exists "/"%char, (b "svc/act"). split_and!; [reflexivity|by left|by repeat constructor].
  - cbn. repeat (apply Forall_cons; split; [by (left; reflexivity) || (right; reflexivity)|]). constructor.
Qed.

Lemma example_sendable : sendable example_request.
Proof.
  split; [by vm_compute..|apply example_target|by vm_compute| |by vm_compute|].
  - repeat (apply Forall_cons; split); [..|constructor];
      (split; [split; [discriminate|by repeat constructor]|reflexivity|split; [by repeat constructor|done]]).
  - intros w Hw. vm_compute in Hw. injection Hw as <-. vm_compute. discriminate.
Qed.

Definition example_bytes : bytes :=
  match print_request example_request with Some w => w | None => [] end.

Lemma request_round_trip_witness :
  exists p, Request.do_parse logging_cb no_url (Request.new_impl request_init [])
      (map Request.Read [take 30 example_bytes; drop 30 example_bytes])
    = Some (Request.By_handler, p,
            Some (after_handler (false, request_init, [received example_request])
                    (b "/svc/act?a=1")), [])
    /\ (false = true -> p_http_errno p = HPE_OK).
Proof.
  apply (request_round_trip logging_cb no_url example_request (Request.new_impl request_init [])
           [take 30 example_bytes; drop 30 example_bytes] example_bytes).
  - exact example_sendable.
  - reflexivity.
  - repeat constructor; discriminate.
  - reflexivity.
Defined.

(** Cutting a request after its first line. *)
Lemma execute_split_witness :
  let settings := Request.settings_ logging_cb no_url in
  let i := Some (Request.new_impl request_init []) in
  let whole := http_parser_execute settings (http_parser_init HTTP_REQUEST) i example_bytes in
  match http_parser_execute settings (http_parser_init HTTP_REQUEST) i (take 26 example_bytes) with
  | Some (n1, p1, d1) =>
      match http_parser_execute settings p1 d1 (drop 26 example_bytes) with
      | Some (n, p2, d2) =>
          exists d2', http_parser_execute settings (http_parser_init HTTP_REQUEST) i
              (take 26 example_bytes ++ drop 26 example_bytes) = Some ((26 + n)%nat, p2, d2')
            /\ (syntax_error (p_http_errno p2) = false -> d2' = d2)
      | None => False
      end
  | None => False
  end.
Proof.
  intros settings i whole.
  destruct (http_parser_execute settings (http_parser_init HTTP_REQUEST) i (take 26 example_bytes))
    as [[[n1 p1] d1]|] eqn:E1; [|vm_compute in E1; discriminate].
  destruct (http_parser_execute settings p1 d1 (drop 26 example_bytes)) as [[[n p2] d2]|] eqn:E2;
    [|revert E2; vm_compute in E1; injection E1 as <- <- <-; vm_compute; discriminate].
  assert (n1 = 26%nat /\ p_http_errno p1 = HPE_OK /\ p_upgrade p1 = false) as (-> & Hok & Hup)
    by (vm_compute in E1; injection E1 as <- <- <-; auto).
  apply (execute_split settings (http_parser_init HTTP_REQUEST) i (take 26 example_bytes)
           (drop 26 example_bytes) p1 d1 n p2 d2); try assumption.
  - constructor.
  - vm_compute. discriminate.
  - vm_compute. discriminate.
Defined.

(** ** A status message is not terminated *)

Definition response_404 : response_t :=
  mk_response 1 1 404 (b "Not Found") [(b "A", b "b")] false (b "xyz").

(** [operator<<] writes no line end after a non-empty status message: the
    first header of the response arrives as part of the message. *)
Theorem status_message_swallows_header {boost : BoostStrings} :
  match print_response response_404 with
  | Some w =>
      match Response.parse (http_parser_init HTTP_RESPONSE) response_clear [Response.Read w] with
      | Some (Some true, _, Some i, []) =>
          rs_status_message (Response.i_resp i) = b "Not FoundA: b"
          /\ find_header (rs_headers (Response.i_resp i)) (b "A") = []
      | _ => False
      end
  | None => False
  end.
Proof.
  unfold print_response, found_headers. cbn [rs_headers response_404 foldl fst].
  rewrite !iequals_false by (vm_compute; discriminate). vm_compute. by split.
Qed.

Lemma status_message_swallows_header_witness :
  match @print_response reference_strings response_404 with
  | Some w =>
      match Response.parse (http_parser_init HTTP_RESPONSE) response_clear [Response.Read w] with
      | Some (Some true, _, Some i, []) =>
          rs_status_message (Response.i_resp i) = b "Not FoundA: b"
          /\ find_header (rs_headers (Response.i_resp i)) (b "A") = []
      | _ => False
      end
  | None => False
  end.
Proof. apply (@status_message_swallows_header reference_strings). Defined.
