(* ===== verification/HttpConnection.v ===== *)
(** * [HttpConnection]: routing a request and writing its response

    One HTTP connection of the server, as the request handler of
    [Request.do_parse] and as a system that reacts to requests, to the tasks it
    has scheduled in a fiber pool and to the completions of asynchronous
    handlers.  The controllers, the router and the JSON library are outside
    this component: they are the class [Driver] and the function [find]. *)

From stdpp Require Import options.
From S2P Require Import Prelude Boost HttpTypes HttpExecute HttpProtocol.

(** ** What [izenelib::driver] provides *)

Class Driver := {
  JsonRequest : Type;
  JsonResponse : Type;
  new_request : JsonRequest;
  new_response : JsonResponse;
  (** [asBool(header()["check_fibp_time"])] *)
  check_fibp_time : JsonRequest -> bool;
  (** [setSuccess(true)] *)
  setSuccess : JsonResponse -> JsonResponse;
  (** [[timers][total_server_time] = ...] *)
  set_total_server_time : Z -> JsonResponse -> JsonResponse;
  (** [writer_->write(jsonResponse_.get(), body_)] *)
  writer_write : JsonResponse -> bytes
}.

(** ** The session *)

Section Session.
Context {driver : Driver}.

Record session_t := mk_session {
  req_ : request_t;
  rsp_ : response_t;
  jsonRequest_ : JsonRequest;
  jsonResponse_ : JsonResponse
}.

Definition new_session : session_t :=
  mk_session request_init response_clear new_request new_response.

Definition with_req (r : request_t) (c : session_t) : session_t :=
  mk_session r (rsp_ c) (jsonRequest_ c) (jsonResponse_ c).
Definition with_rsp (r : response_t) (c : session_t) : session_t :=
  mk_session (req_ c) r (jsonRequest_ c) (jsonResponse_ c).
Definition with_jsonResponse (r : JsonResponse) (c : session_t) : session_t :=
  mk_session (req_ c) (rsp_ c) (jsonRequest_ c) r.
Definition rq_with_path (p : bytes) (r : request_t) : request_t :=
  mk_request (rq_http_major r) (rq_http_minor r) (rq_method r) (rq_schema r) (rq_host r)
    (rq_port r) p (rq_query r) (rq_headers r) (rq_keep_alive r) (rq_body r).

End Session.

(** ** Handlers

    What [invoke_raw] leaves behind, or [None] when it throws.  An
    asynchronous handler returns at once (or throws: [false]). *)
Section Handler.
Context {driver : Driver}.

Record invoked := mk_invoked {
  inv_jsonRequest : JsonRequest;
  inv_jsonResponse : JsonResponse;
  inv_body : bytes;
  inv_rsp_body : bytes
}.

Record handler (W : Type) := mk_handler {
  is_async : bool;
  invoke_raw : JsonRequest -> JsonResponse -> bytes -> bytes -> bytes -> Z -> W -> option invoked * W;
  invoke_raw_async : JsonRequest -> JsonResponse -> bytes -> bytes -> bytes -> Z -> W -> bool * W
}.

End Handler.
Arguments is_async {driver W}.
Arguments invoke_raw {driver W}.
Arguments invoke_raw_async {driver W}.

(** ** The connection *)

(** A member function returns, lets an exception escape, or has undefined
    behaviour. *)
Inductive outcome (A : Type) := Returns (a : A) | Throws | Undefined.
Arguments Returns {A}.
Arguments Throws {A}.
Arguments Undefined {A}.

Section Connection.
Context {boost : BoostStrings} {driver : Driver}.
(** The state of the application, the router, and which writes the peer
    refuses (given what was written before). *)
Context {W : Type} (find : bytes -> bytes -> option (handler W)) (write_fails : list bytes -> bytes -> bool).
(** [fiber_pool_] is set. *)
Context (fiber_pool_ : bool).

(** [c_parser]: the object [*req_parser_] is alive; [c_receiving]: the socket
    is not shut down; [c_written]: the completed writes, oldest first;
    [c_tasks]: the calls of [handleRequestFunc] scheduled in the pool;
    [c_pending]: the contexts held by running asynchronous handlers. *)
Record conn := mk_conn {
  c_next : session_t;
  c_parser : bool;
  c_receiving : bool;
  c_written : list bytes;
  c_tasks : list (bytes * bytes * session_t);
  c_pending : list session_t;
  c_world : W
}.

Definition with_next (s : session_t) (c : conn) : conn :=
  mk_conn s (c_parser c) (c_receiving c) (c_written c) (c_tasks c) (c_pending c) (c_world c).
Definition with_written (w : list bytes) (c : conn) : conn :=
  mk_conn (c_next c) (c_parser c) (c_receiving c) w (c_tasks c) (c_pending c) (c_world c).
Definition with_tasks (t : list (bytes * bytes * session_t)) (c : conn) : conn :=
  mk_conn (c_next c) (c_parser c) (c_receiving c) (c_written c) t (c_pending c) (c_world c).
Definition with_pending (t : list session_t) (c : conn) : conn :=
  mk_conn (c_next c) (c_parser c) (c_receiving c) (c_written c) (c_tasks c) t (c_world c).
Definition with_world (w : W) (c : conn) : conn :=
  mk_conn (c_next c) (c_parser c) (c_receiving c) (c_written c) (c_tasks c) (c_pending c) w.

Definition M (A : Type) : Type := conn -> outcome A * conn.
Definition ret {A} (a : A) : M A := fun c => (Returns a, c).
Definition bind {A B} (m : M A) (f : A -> M B) : M B := fun c =>
  match m c with
  | (Returns a, c) => f a c
  | (Throws, c) => (Throws, c)
  | (Undefined, c) => (Undefined, c)
  end.
(** [try { m } catch (const std::exception&) { k }] *)
Definition try_catch {A} (m : M A) (k : M A) : M A := fun c =>
  match m c with
  | (Throws, c) => k c
  | r => r
  end.
Definition modify (f : conn -> conn) : M unit := fun c => (Returns tt, f c).
Notation "x <- m ;; k" := (bind m (fun x => k)) (at level 100, m at next level, right associativity).
Notation "m ;;; k" := (bind m (fun _ => k)) (at level 100, right associativity).

(** [async_write] with a [yield] that has no error code throws on failure. *)
Definition async_write (w : bytes) : M unit := fun c =>
  if write_fails (c_written c) w then (Throws, c)
  else (Returns tt, with_written (c_written c ++ [w]) c).

Definition shutdown : M unit :=
  modify (fun c => mk_conn (c_next c) false false (c_written c) (c_tasks c) (c_pending c) (c_world c)).

Definition s_err_rsp_500 : bytes := b "HTTP/1.1 500 Internal Server Error" ++ CRLF.
Definition s_err_rsp_400 : bytes := b "HTTP/1.1 400 Bad Request" ++ CRLF.
Definition s_err_rsp_404 : bytes := b "HTTP/1.1 404 Not Found" ++ CRLF.

Definition error_rsp (rsp : bytes) : bytes := rsp ++ b "Content-Length: 0" ++ CRLF ++ CRLF.
Definition write_error_rsp (rsp : bytes) : M unit := async_write (error_rsp rsp) ;;; shutdown.

Definition after_write (context : session_t) : M unit :=
  if rq_keep_alive (req_ context) then ret tt else shutdown.

(** The response [write_rsp] prints; [elapsed] is the reading of the timer. *)
Definition final_rsp (elapsed : Z) (context : session_t) : response_t :=
  let json := if check_fibp_time (jsonRequest_ context)
              then set_total_server_time elapsed (jsonResponse_ context) else jsonResponse_ context in
  let r := rsp_ context in
  let body := match rs_body r with [] => writer_write json | w => w end in
  mk_response (rs_http_major r) (rs_http_minor r) OK (rs_status_message r)
    (rs_headers r ++ [(b "ContentType", b "application/json")]
     ++ (if rq_keep_alive (req_ context)
         then [(b "Connection", b "keep-alive"); (b "Keep-Alive", b "timeout=100")]
         else [(b "Connection", b "close")]))
    (rs_keep_alive r) body.

Definition write_rsp (elapsed : Z) (context : session_t) : M unit :=
  match print_response (final_rsp elapsed context) with
  | Some oss => async_write oss ;;; after_write context
  | None => fun c => (Undefined, c)
  end.

Definition createContext : M session_t := fun c => (Returns (c_next c), with_next new_session c).

Definition onReadError (is_eof : bool) : M unit :=
  if is_eof then ret tt
  else context <- createContext ;; write_error_rsp s_err_rsp_500.

(** The path given to the handlers. *)
Definition full_path (context : session_t) : bytes :=
  rq_path (req_ context) ++ match rq_query (req_ context) with [] => [] | q => b "?" ++ q end.

Definition invoke (h : handler W) (context : session_t) : M session_t := fun c =>
  match invoke_raw h (jsonRequest_ context) (jsonResponse_ context) (rq_body (req_ context))
          (rs_body (rsp_ context)) (full_path context) (rq_method (req_ context)) (c_world c) with
  | (None, w) => (Throws, with_world w c)
  | (Some i, w) =>
      (Returns (mk_session (rq_with_body (inv_body i) (req_ context))
                  (rs_with_body (inv_rsp_body i) (rsp_ context)) (inv_jsonRequest i)
                  (inv_jsonResponse i)), with_world w c)
  end.

Definition invoke_async (h : handler W) (context : session_t) : M unit := fun c =>
  match invoke_raw_async h (jsonRequest_ context) (jsonResponse_ context) (rq_body (req_ context))
          (rs_body (rsp_ context)) (full_path context) (rq_method (req_ context)) (c_world c) with
  | (false, w) => (Throws, with_world w c)
  | (true, w) => (Returns tt, with_pending (c_pending c ++ [context]) (with_world w c))
  end.

(** The context when the handler is called. *)
Definition prepared (context : session_t) : session_t :=
  with_rsp response_clear (with_jsonResponse (setSuccess (jsonResponse_ context)) context).

Definition handleRequestFunc (elapsed : Z) (controller action : bytes) (context : session_t) : M bool :=
  match find controller action with
  | None => write_error_rsp s_err_rsp_404 ;;; ret false
  | Some h =>
      try_catch
        ((if is_async h then invoke_async h (prepared context)
          else context <- invoke h (prepared context) ;; write_rsp elapsed context) ;;; ret true)
        (write_error_rsp s_err_rsp_500 ;;; ret false)
  end.

(** The controller, the action and the path [handleRequest] derives from a
    path; [None] where it answers 400. *)
Definition route (path : bytes) : option (bytes * bytes * bytes) :=
  match path with
  | [] => None
  | _ =>
      let path := trim_if is_slash path in
      match split_compress is_slash path with
      | [] => None
      | [controller] => Some (controller, [], path)
      | controller :: action :: _ => Some (controller, action, path)
      end
  end.

Definition handleRequest (elapsed : Z) (context : session_t) : M bool :=
  match route (rq_path (req_ context)) with
  | None => write_error_rsp s_err_rsp_400 ;;; ret false
  | Some (controller, action, path) =>
      let context := with_req (rq_with_path path (req_ context)) context in
      if fiber_pool_ then
        modify (fun c => with_tasks (c_tasks c ++ [(controller, action, context)]) c) ;;; ret true
      else handleRequestFunc elapsed controller action context
  end.

Definition request_cb (elapsed : Z) : M bool :=
  context <- createContext ;;
  r <- handleRequest elapsed context ;;
  ret (r && rq_keep_alive (req_ context)).

(** ** The handler of [Request.do_parse]

    [next_context_.req_] is the request the parser fills.  [Request] has no
    exceptions: [o_fault] says that one escaped, or that the behaviour is
    undefined; a member of the destroyed parser runs next when [c_parser] is
    [false] afterwards. *)
Record owner := mk_owner { o_conn : conn; o_fault : bool }.

Definition parser_cb (elapsed : Z) (req : request_t) (o : owner) : bool * request_t * owner :=
  let (r, c) := request_cb elapsed (with_next (with_req req (c_next (o_conn o))) (o_conn o)) in
  match r with
  | Returns keep => (keep, req_ (c_next c), mk_owner c (o_fault o))
  | _ => (false, req_ (c_next c), mk_owner c true)
  end.

(** ** The connection as a system

    What can happen to a connection besides a complete request: a fiber of the
    pool runs one of the scheduled tasks, an asynchronous handler completes
    with what it left in its context, a read fails, the client closes. *)
Inductive event :=
| Ev_request (elapsed : Z) (req : request_t)
| Ev_task (elapsed : Z) (n : nat)
| Ev_async (elapsed : Z) (n : nat) (json : JsonResponse) (rsp_body : bytes)
| Ev_read_error
| Ev_close.

(** [None]: the event cannot happen. *)
Definition on_event (e : event) (c : conn) : option (outcome unit * conn) :=
  match e with
  | Ev_request elapsed req =>
      if c_parser c then
        Some ((_ <- request_cb elapsed ;; ret tt) (with_next (with_req req (c_next c)) c))
      else None
  | Ev_task elapsed n =>
      '(controller, action, context) ← c_tasks c !! n;
      Some ((_ <- handleRequestFunc elapsed controller action context ;; ret tt)
              (with_tasks (delete n (c_tasks c)) c))
  | Ev_async elapsed n json rsp_body =>
      context ← c_pending c !! n;
      Some (write_rsp elapsed (with_jsonResponse json (with_rsp (rs_with_body rsp_body (rsp_ context)) context))
              (with_pending (delete n (c_pending c)) c))
  | Ev_read_error => if c_parser c then Some (onReadError false c) else None
  | Ev_close => if c_parser c then Some (shutdown c) else None
  end.

End Connection.
