(* ===== verification/HttpPipeline.v ===== *)
(** * A connection that carries many requests

    The parser between two messages is ready for the next one: any number of
    requests printed by the client, in one byte stream cut anywhere, reach the
    handler one by one and in order. *)

From stdpp Require Import options.
From S2P Require Import Prelude HttpTypes HttpUrl HttpExecute HttpInvariant HttpSafety.
From S2P Require Import HttpSplit HttpCallbacks HttpBytes HttpProtocol HttpRoundTrip.

Section Pipeline.
Context {H : Type} (cb_ : request_t -> H -> bool * request_t * H) (garbage : http_parser_url).
Abbreviation settings := (Request.settings_ cb_ garbage).

(** A parser that waits for the first byte of a request. *)
Definition idle (p : http_parser) : Prop :=
  exists fl hs idx cl mj mn sc_ me,
    p = header_parser HTTP_REQUEST fl s_start_req hs idx 0 cl mj mn sc_ me.

Lemma idle_init : idle Request.reset_parser.
Proof. by eexists _, _, _, _, _, _, _, _. Qed.

(** A request whose connection stays open and whose handler wants more. *)
Definition keeps_going (req : request_t) (h : H) : Prop :=
  rq_keep_alive req = true /\ fst (fst (cb_ (received req) h)) = true.

(** A handler that lets the parser go on leaves it where [NEW_MESSAGE] says. *)
Lemma complete_parser p i :
  p_http_errno p = HPE_OK -> p_http_errno (fst (complete settings p i)) = HPE_OK ->
  fst (complete settings p i) = set_state (NEW_MESSAGE p) p.
Proof.
  intros Hp. unfold complete. cbn [on_message_complete Request.settings_].
  unfold Request.notify_callback.
  destruct (i ≫= _) as [[code i']|]; [|done]. cbn [fst]. unfold after_cb.
  by destruct (code =? 0).
Qed.

Lemma feed_message req w p (i : Request.parser_impl H) :
  idle p -> sendable req -> print_request req = Some w -> keeps_going req (Request.i_owner i) ->
  exists p' i', feed settings p (Some i) w = Some (p', Some i') /\ idle p'
    /\ Request.i_owner i' = snd (cb_ (received req) (Request.i_owner i))
    /\ Request.i_should_continue i' = true.
Proof.
  intros (fl & hs0 & idx & cl & mj0 & mn0 & sc_ & me0 & ->) Hs Hw [Hk Hcb].
  pose proof Hs as [Hm Hmj Hmn Ht Hl Hh Hb Hsize].
  destruct (method_of_num _ Hm) as (_ & Hconnect & _).
  pose proof Hw as Hw0. rewrite print_request_bytes in Hw by done. injection Hw as Hw.
  destruct (feed_request settings fl hs0 idx cl mj0 mn0 sc_ me0 (Some i) (method_of (rq_method req))
              (rq_path req) (rq_query req) (rq_http_major req) (rq_http_minor req) (rq_headers req)
              (rq_keep_alive req) (rq_body req))
    as (w1 & c & p1 & d1 & h & ix & st & Ew & Ef & Ex); [done..| |].
  { rewrite Hw. pose proof (Hsize _ Hw0) as Hz. assert (0 <= HTTP_MAX_HEADER_SIZE) by done. lia. }
  destruct (delivered cb_ garbage (rq_path req) (rq_query req) (rq_headers req) (rq_keep_alive req)
              (rq_body req) i) as (st1 & Ed).
  rewrite Ed in Ex. cbn zeta in Ex.
  match type of Ex with context [complete _ _ (Some ?im)] => set (i1 := im) in Ex end.
  destruct (complete_trip cb_ garbage req h ix st sc_ i1 Hs eq_refl eq_refl) as (_ & Hd & Hok).
  cbn zeta in Hd, Hok. change (Request.i_owner i1) with (Request.i_owner i) in Hd, Hok.
  rewrite Hd in Ex. specialize (Hok Hcb).
  rewrite complete_parser in Ex, Hok by done.
  set (p2 := set_state _ _) in Ex, Hok.
  exists p2, (after_handler (cb_ (received req) (Request.i_owner i)) (Request.i_url i1)).
  split_and!; [|..].
  - rewrite <- Hw, Ew. eapply feed_step; [exact Ef|]. cbn [HttpSplit.feed]. unfold byte. rewrite Ex.
    cbn [fst snd]. rewrite Hok. done.
  - subst p2. unfold idle. unfold NEW_MESSAGE, start_state.
    rewrite keep_alive_trip by (done || lia). rewrite Hk.
    by eexists _, _, _, _, _, _, _, _.
  - done.
  - exact Hcb.
Qed.

(** The owner after all the requests have been handled; [None] when one of
    them ends the connection. *)
Fixpoint handle_all (reqs : list request_t) (h : H) : option H :=
  match reqs with
  | [] => Some h
  | req :: reqs =>
      let '(continue, _, h') := cb_ (received req) h in
      if rq_keep_alive req && continue then handle_all reqs h' else None
  end.

Lemma feed_messages reqs : forall ws p (i : Request.parser_impl H) h',
  idle p -> Forall sendable reqs -> map print_request reqs = map Some ws ->
  Request.i_should_continue i = true -> handle_all reqs (Request.i_owner i) = Some h' ->
  exists p' i', feed settings p (Some i) (concat ws) = Some (p', Some i')
    /\ Request.i_owner i' = h' /\ Request.i_should_continue i' = true.
Proof.
  induction reqs as [|req reqs IH]; intros [|w ws] p i h' Hp Hs Hw Hi Hh; try done.
  { exists p, i. cbn in *. by simplify_eq. }
  cbn in Hw. injection Hw as Hw Hws. apply Forall_cons in Hs as [Hs Hss].
  cbn [handle_all] in Hh. destruct (cb_ _ _) as [[continue req'] h1] eqn:Ecb.
  destruct (rq_keep_alive req) eqn:Hk, continue; try done.
  destruct (feed_message req w p i Hp Hs Hw) as (p1 & i1 & Ef & Hp1 & Ho & Hc1);
    [by split; [|rewrite Ecb]|]. rewrite Ecb in Ho. cbn in Ho.
  destruct (IH ws p1 i1 h') as (p2 & i2 & Ef2 & Ho2 & Hc2); [done..|by rewrite Ho|].
  exists p2, i2. cbn [concat]. split; [|done]. eapply feed_step; [exact Ef|exact Ef2].
Qed.

(** The reads of a byte stream that goes well. *)
Lemma parse_loop_feed xs p i w p' i' :
  parser_inv p -> Request.should_continue i = true ->
  feed settings p i w = Some (p', i') -> Forall (fun x => x <> []) xs -> concat xs = w ->
  Request.parse_loop cb_ garbage p i (map Request.Read xs) = Some (Request.Waiting, p', i', []).
Proof.
  revert p i w. induction xs as [|x xs IH]; intros p i w Hp Hi Hf Hne Hc; cbn in Hc; subst w.
  { cbn in *. by simplify_eq. }
  apply Forall_cons in Hne as [Hx Hne]. cbn [map Request.parse_loop].
  rewrite feed_app in Hf. destruct (feed settings p i x) as [[p1 i1]|] eqn:E; [|done]. cbn in Hf.
  destruct (feed_call settings p i x p1 i1 Hp Hx E) as (Ex & Hok & Hup).
  assert (Request.should_continue i1 = true) as Hi1
    by by eapply (execute_keeps settings _ (callbacks_continue cb_ garbage)).
  rewrite (read_one _ _ _ _ _ _ _ Hx Ex), Hi1. cbn [mbind option_bind].
  eapply (IH p1 i1); try done. by eapply execute_inv.
Qed.

Lemma requests_served reqs ws xs (i : Request.parser_impl H) h' :
  Forall sendable reqs -> map print_request reqs = map Some ws ->
  handle_all reqs (Request.i_owner i) = Some h' ->
  Forall (fun x => x <> []) xs -> concat xs = concat ws ->
  exists p i', Request.do_parse cb_ garbage i (map Request.Read xs)
    = Some (Request.Waiting, p, Some i', []) /\ Request.i_owner i' = h'.
Proof.
  intros Hs Hw Hh Hne Hc.
  destruct (feed_messages reqs ws Request.reset_parser (Request.begin_parse i) h')
    as (p & i' & Ef & Ho & _); [apply idle_init|done..|].
  exists p, i'. split; [|done]. unfold Request.do_parse.
  eapply parse_loop_feed; [apply init_inv|done|exact Ef|done|done].
Qed.

(** C12: a connection serves any number of requests.  The bytes the client
    prints for a list of requests that all ask to keep the connection, sent one
    after the other and cut by the network into any non-empty pieces, make the
    parser call its handler once per request, in the order they were sent, and
    wait for the next one. *)
Theorem requests_served_in_order reqs ws xs (i : Request.parser_impl H) h' :
  Forall sendable reqs -> map print_request reqs = map Some ws ->
  handle_all reqs (Request.i_owner i) = Some h' ->
  Forall (fun x => x <> []) xs -> concat xs = concat ws ->
  exists p i', Request.do_parse cb_ garbage i (map Request.Read xs)
    = Some (Request.Waiting, p, Some i', []) /\ Request.i_owner i' = h'.
Proof. apply requests_served. Qed.

End Pipeline.
