(* ===== verification/HttpServing.v ===== *)
(** * What an HTTP connection promises

    Routing by path segments, one response per request, in order on a
    connection without a pool, and what the error answers do. *)

From stdpp Require Import options.
From S2P Require Import Prelude Boost HttpTypes HttpUrl HttpExecute HttpInvariant HttpSafety.
From S2P Require Import HttpSplit HttpProtocol HttpRoundTrip HttpPipeline HttpConnection.

(** ** Routing *)

(** The controller and the action of a request are the first two non-empty
    segments of its path, however many slashes separate them; the path given to
    the handler is the request's without its leading and trailing slashes.
    Only the empty path is refused: the test on the number of elements never
    fails. *)
Theorem route_by_segments {boost : BoostStrings} path :
  (route path = None <-> path = [])
  /\ (path <> [] -> exists p l r,
        path = l ++ p ++ r /\ separators is_slash l /\ separators is_slash r /\ bare is_slash p
        /\ route path = Some (default [] (words is_slash path !! 0%nat),
                              default [] (words is_slash path !! 1%nat), p)).
Proof.
  destruct (decide (path = [])) as [->|Hne]; [by split|].
  destruct (trim_decompose is_slash path) as (l & r & Hp & Hl & Hr & Hb).
  assert (route path = Some (default [] (words is_slash path !! 0%nat),
            default [] (words is_slash path !! 1%nat), trim_reference is_slash path)) as Hroute.
  { unfold route. destruct path as [|c path]; [done|]. rewrite split_trim, trim_if_reference.
    destruct (words is_slash (c :: path)) as [|w1 [|w2 ws]]; done. }
  split.
  - rewrite Hroute. by split.
  - intros _. exists (trim_reference is_slash path), l, r. done.
Qed.

(** ** Symbolic execution of the member functions *)

Section Serving.
Context {boost : BoostStrings} {driver : Driver}.
Context {W : Type} (find : bytes -> bytes -> option (handler W)) (write_fails : list bytes -> bytes -> bool).
Abbreviation conn := (conn (W := W)).

(** The response of a synchronous handler to a request, and the application's
    state afterwards: what a server that handles one request at a time would
    answer. *)
Definition answer_rsp (elapsed : Z) (req : request_t) (w : W) : option (response_t * W) :=
  '(controller, action, path) ← route (rq_path req);
  h ← find controller action;
  if is_async h then None else
  let context := prepared (with_req (rq_with_path path req) new_session) in
  match invoke_raw h (jsonRequest_ context) (jsonResponse_ context) (rq_body req) []
          (full_path context) (rq_method req) w with
  | (None, _) => None
  | (Some i, w) =>
      Some (final_rsp elapsed
              (mk_session (rq_with_body (inv_body i) (req_ context))
                 (rs_with_body (inv_rsp_body i) response_clear) (inv_jsonRequest i) (inv_jsonResponse i)), w)
  end.

(** Its bytes. *)
Definition answer (elapsed : Z) (req : request_t) (w : W) : option (bytes * W) :=
  '(rsp, w) ← answer_rsp elapsed req w;
  out ← print_response rsp;
  Some (out, w).

(** One after the other. *)
Fixpoint answers (elapsed : Z) (reqs : list request_t) (w : W) : option (list bytes * W) :=
  match reqs with
  | [] => Some ([], w)
  | req :: reqs =>
      '(out, w) ← answer elapsed req w;
      '(outs, w) ← answers elapsed reqs w;
      Some (out :: outs, w)
  end.

Lemma answer_fields elapsed r1 r2 w :
  rq_path r1 = rq_path r2 -> rq_query r1 = rq_query r2 -> rq_method r1 = rq_method r2 ->
  rq_body r1 = rq_body r2 -> rq_keep_alive r1 = rq_keep_alive r2 ->
  answer elapsed r1 w = answer elapsed r2 w.
Proof.
  intros Hp Hq Hm Hb Hk. unfold answer, answer_rsp, full_path, prepared, final_rsp. cbn. rewrite Hp, Hq, Hm, Hb, Hk.
  done.
Qed.

Definition never_fails : Prop := forall ws w, write_fails ws w = false.

Lemma request_cb_answers elapsed req (c : conn) out w :
  never_fails -> c_next c = with_req req new_session -> rq_keep_alive req = true ->
  answer elapsed req (c_world c) = Some (out, w) ->
  request_cb find write_fails false elapsed c
  = (Returns true, mk_conn new_session (c_parser c) (c_receiving c) (c_written c ++ [out])
                     (c_tasks c) (c_pending c) w).
Proof.
  intros Hw Hn Hk Ha. unfold answer, answer_rsp in Ha.
  unfold request_cb, bind, createContext, ret. rewrite Hn. cbn [c_next].
  unfold handleRequest. cbn [req_ with_req].
  destruct (route (rq_path req)) as [[[controller action] path]|]; [|done]. cbn [mbind option_bind] in Ha.
  unfold handleRequestFunc. destruct (find controller action) as [h|]; [|done].
  cbn [mbind option_bind] in Ha. destruct (is_async h); [done|].
  unfold try_catch, bind, invoke, ret. cbn [c_world with_next].
  cbn [jsonRequest_ jsonResponse_ req_ rsp_ prepared with_req with_rsp with_jsonResponse new_session
       rq_with_path rq_body rq_method rs_body response_clear] in *.
  destruct (invoke_raw h _ _ _ _ _ _ _) as [[i|] w1]; [|done]. cbn [mbind option_bind] in Ha.
  unfold write_rsp. destruct (print_response _) as [out'|]; [|done]. cbn [mbind option_bind] in Ha.
  injection Ha as <- <-. unfold bind, async_write. rewrite Hw.
  unfold after_write. cbn [req_ rq_with_body rq_keep_alive]. cbn [rq_with_path rq_keep_alive].
  by rewrite Hk.
Qed.

(** ** A connection as an in-order server *)

(** The owner of the parser when the connection starts. *)
Definition fresh_conn (w : W) : conn := mk_conn new_session true true [] [] [] w.

Lemma handle_all_answers elapsed reqs : forall (o : owner) outs w',
  never_fails -> c_next (o_conn o) = new_session ->
  Forall (fun req => rq_keep_alive req = true) reqs ->
  answers elapsed reqs (c_world (o_conn o)) = Some (outs, w') ->
  handle_all (parser_cb find write_fails false elapsed) reqs o
  = Some (mk_owner (mk_conn new_session (c_parser (o_conn o)) (c_receiving (o_conn o))
                      (c_written (o_conn o) ++ outs) (c_tasks (o_conn o)) (c_pending (o_conn o)) w')
            (o_fault o)).
Proof.
  induction reqs as [|req reqs IH]; intros o outs w' Hw Hn Hk Ha.
  { cbn in *. injection Ha as <- <-. rewrite app_nil_r, <- Hn. by destruct o as [[] ?]. }
  apply Forall_cons in Hk as [Hk Hks]. cbn [answers] in Ha.
  destruct (answer elapsed req _) as [[out w1]|] eqn:E1; [|done]. cbn [mbind option_bind] in Ha.
  destruct (answers elapsed reqs w1) as [[outs1 w2]|] eqn:E2; [|done]. cbn in Ha. injection Ha as <- <-.
  cbn [handle_all]. unfold parser_cb at 1.
  rewrite (request_cb_answers elapsed (received req) _ out w1); [|done|cbn; by rewrite Hn|done|].
  - rewrite Hk. cbn [andb]. rewrite (IH _ outs1 w2); [|done..].
    cbn. by rewrite <- (assoc_L (++)).
  - cbn [with_next c_world]. rewrite <- E1. by apply answer_fields.
Qed.

End Serving.

Arguments fresh_conn {driver W}.

(** C4: with handlers that answer before they return, a keep-alive connection
    without a fiber pool is an in-order server.  The handlers of the requests are
    synchronous and do not throw ([answers] says what each of them makes of its
    request), the writes do not fail.  Then, however the requests' bytes are cut
    by the network, each request is answered exactly once, with what its handler
    produced in the state its predecessors left, and the responses are written in
    the order of the requests; nothing faults and the connection stays open.
    Asynchronous handlers may answer out of order: [pipelined_responses_overtake]. *)
Theorem connection_serves_in_order {boost : BoostStrings} {driver : Driver} {W}
    (find : bytes -> bytes -> option (handler W)) write_fails garbage elapsed reqs ws xs w outs w' :
  never_fails write_fails ->
  Forall sendable reqs -> Forall (fun req => rq_keep_alive req = true) reqs ->
  map print_request reqs = map Some ws -> Forall (fun x => x <> []) xs -> concat xs = concat ws ->
  answers find elapsed reqs w = Some (outs, w') ->
  exists p i, Request.do_parse (parser_cb find write_fails false elapsed) garbage
      (Request.new_impl request_init (mk_owner (fresh_conn w) false)) (map Request.Read xs)
    = Some (Request.Waiting, p, Some i, [])
    /\ Request.i_owner i = mk_owner (mk_conn new_session true true outs [] [] w') false.
Proof.
  intros Hw Hs Hk Hws Hne Hc Ha.
  eapply requests_served; [exact Hs|exact Hws| |exact Hne|exact Hc].
  rewrite (handle_all_answers find write_fails elapsed reqs _ outs w'); done.
Qed.

(** ** One answer per request *)

Section Balance.
Context {boost : BoostStrings} {driver : Driver}.
Context {W : Type} (find : bytes -> bytes -> option (handler W)) (write_fails : list bytes -> bytes -> bool).
Context (fiber_pool_ : bool).
Abbreviation conn := (conn (W := W)).

(** The answers given, and those still owed by the pool and by running
    handlers. *)
Definition answers_and_debts (c : conn) : nat :=
  length (c_written c) + length (c_tasks c) + length (c_pending c).

(** A member function that adds [n] answers or debts, or none when it throws. *)
Definition adds {A} (n : nat) (m : M A) : Prop :=
  forall c : conn, match m c with
            | (Returns _, c') => answers_and_debts c' = (answers_and_debts c + n)%nat
            | (Throws, c') => answers_and_debts c' = answers_and_debts c
            | (Undefined, _) => True
            end.

(** One that changes no answer and does not throw. *)
Definition silent {A} (m : M A) : Prop :=
  forall c : conn, exists a c', m c = (Returns a, c') /\ answers_and_debts c' = answers_and_debts c.

Lemma adds_bind {A B} n (m : M A) (f : A -> M B) :
  adds 0 m -> (forall a, adds n (f a)) -> adds n (bind m f).
Proof.
  intros Hm Hf c. unfold bind. specialize (Hm c). destruct (m c) as [[a| |] c1]; [|done..].
  specialize (Hf a c1). destruct (f a c1) as [[x| |] c2]; lia || done.
Qed.

Lemma adds_bind_silent {A B} n (m : M A) (f : A -> M B) :
  adds n m -> (forall a, silent (f a)) -> adds n (bind m f).
Proof.
  intros Hm Hf c. unfold bind. specialize (Hm c). destruct (m c) as [[a| |] c1]; [|done..].
  destruct (Hf a c1) as (x & c2 & -> & ->). done.
Qed.

Lemma adds_try {A} n (m k : M A) : adds n m -> adds n k -> adds n (try_catch m k).
Proof.
  intros Hm Hk c. unfold try_catch. specialize (Hm c). destruct (m c) as [[a| |] c1]; [done| |done].
  specialize (Hk c1). destruct (k c1) as [[x| |] c2]; lia || done.
Qed.

Lemma silent_ret {A} (a : A) : silent (ret a).
Proof. intros c. by exists a, c. Qed.

Lemma silent_shutdown : silent shutdown.
Proof. intros c. by eexists _, _. Qed.

Lemma silent_after_write context : silent (after_write context).
Proof. unfold after_write. split_if; [apply silent_ret|apply silent_shutdown]. Qed.

Lemma adds_ret {A} (a : A) : adds 0 (ret a).
Proof. intros c. cbn. lia. Qed.

Lemma adds_async_write w : adds 1 (async_write write_fails w).
Proof.
  intros c. unfold async_write. split_if; [done|]. unfold answers_and_debts. cbn.
  rewrite length_app. cbn. lia.
Qed.

Lemma adds_create_context : adds 0 createContext.
Proof. intros c. unfold answers_and_debts. cbn. lia. Qed.

Lemma adds_write_error_rsp rsp : adds 1 (write_error_rsp write_fails rsp).
Proof. apply adds_bind_silent; [apply adds_async_write|intros; apply silent_shutdown]. Qed.

Lemma adds_write_rsp elapsed context : adds 1 (write_rsp write_fails elapsed context).
Proof.
  unfold write_rsp. destruct (print_response _); [|done].
  apply adds_bind_silent; [apply adds_async_write|intros; apply silent_after_write].
Qed.

Lemma adds_invoke h context : adds 0 (invoke h context).
Proof.
  intros c. unfold invoke. destruct (invoke_raw _ _ _ _ _ _ _ _) as [[i|] w]; [|done].
  unfold answers_and_debts. cbn. lia.
Qed.

Lemma adds_invoke_async h context : adds 1 (invoke_async h context).
Proof.
  intros c. unfold invoke_async. destruct (invoke_raw_async _ _ _ _ _ _ _ _) as [[] w]; [|done].
  unfold answers_and_debts. cbn. rewrite length_app. cbn. lia.
Qed.

Lemma adds_handleRequestFunc elapsed controller action context :
  adds 1 (handleRequestFunc find write_fails elapsed controller action context).
Proof.
  unfold handleRequestFunc. destruct (find _ _) as [h|].
  - apply adds_try; apply adds_bind_silent; try (intros; apply silent_ret).
    + destruct (is_async h); [apply adds_invoke_async|].
      apply adds_bind; [apply adds_invoke|intros; apply adds_write_rsp].
    + apply adds_write_error_rsp.
  - apply adds_bind_silent; [apply adds_write_error_rsp|intros; apply silent_ret].
Qed.

Lemma adds_request_cb elapsed : adds 1 (request_cb find write_fails fiber_pool_ elapsed).
Proof.
  apply adds_bind; [apply adds_create_context|]. intros context.
  apply adds_bind_silent; [|intros; apply silent_ret].
  unfold handleRequest. destruct (route _) as [[[controller action] path]|].
  - destruct fiber_pool_; [|apply adds_handleRequestFunc].
    apply adds_bind_silent; [|intros; apply silent_ret].
    intros c. unfold answers_and_debts. cbn. rewrite length_app. cbn. lia.
  - apply adds_bind_silent; [apply adds_write_error_rsp|intros; apply silent_ret].
Qed.

(** The events that ask for an answer. *)
Definition asks (e : event) : nat :=
  match e with Ev_request _ _ | Ev_read_error => 1 | _ => 0 end.

Lemma event_balance e (c c' : conn) :
  on_event find write_fails fiber_pool_ e c = Some (Returns tt, c') ->
  answers_and_debts c' = (answers_and_debts c + asks e)%nat.
Proof.
  destruct e as [elapsed req|elapsed n|elapsed n json body| |]; cbn [on_event asks].
  - destruct (c_parser c); [|done]. intros [= E].
    pose proof (adds_bind_silent 1 _ (fun _ => ret tt) (adds_request_cb elapsed)
                  (fun _ => silent_ret tt) (with_next (with_req req (c_next c)) c)) as Hb.
    rewrite E in Hb. exact Hb.
  - destruct (c_tasks c !! n) as [[[controller action] context]|] eqn:En; [|done].
    cbn [mbind option_bind]. intros [= E].
    pose proof (adds_bind_silent 1 _ (fun _ => ret tt) (adds_handleRequestFunc elapsed controller action context)
                  (fun _ => silent_ret tt) (with_tasks (delete n (c_tasks c)) c)) as Hb.
    rewrite E in Hb. rewrite Hb. unfold answers_and_debts. cbn.
    rewrite length_delete by done. apply lookup_lt_Some in En. lia.
  - destruct (c_pending c !! n) as [context|] eqn:En; [|done]. cbn [mbind option_bind]. intros [= E].
    match type of E with write_rsp _ ?t ?x ?c0 = _ => pose proof (adds_write_rsp t x c0) as Hb end.
    rewrite E in Hb. rewrite Hb. unfold answers_and_debts. cbn.
    rewrite length_delete by done. apply lookup_lt_Some in En. lia.
  - destruct (c_parser c); [|done]. intros [= E].
    pose proof (adds_bind 1 _ (fun _ => write_error_rsp write_fails s_err_rsp_500) adds_create_context
                  (fun _ => adds_write_error_rsp _) c) as Hb.
    unfold onReadError in E. rewrite E in Hb. exact Hb.
  - destruct (c_parser c); [|done]. intros [= <-]. unfold answers_and_debts. cbn. lia.
Qed.

(** Any sequence of events from which no exception escapes. *)
Inductive runs : conn -> list event -> conn -> Prop :=
| runs_nil c : runs c [] c
| runs_cons c e c1 es c2 :
    on_event find write_fails fiber_pool_ e c = Some (Returns tt, c1) -> runs c1 es c2 ->
    runs c (e :: es) c2.

End Balance.

(** One answer per request.  Whatever the order in which requests arrive,
    fibers of the pool run the scheduled calls, asynchronous handlers complete
    and reads fail, the answers written and those still owed (by the pool, by
    running handlers) are together as many as the requests and read errors so
    far: no request is dropped and none is answered twice. *)
Theorem one_answer_per_request {boost : BoostStrings} {driver : Driver} {W}
    (find : bytes -> bytes -> option (handler W)) write_fails fiber_pool_ w es c :
  runs find write_fails fiber_pool_ (fresh_conn w) es c ->
  answers_and_debts c = sum_list (asks <$> es).
Proof.
  enough (forall c0 es c1, runs find write_fails fiber_pool_ c0 es c1 ->
            answers_and_debts c1 = (answers_and_debts c0 + sum_list (asks <$> es))%nat) as H
    by (intros Hr; by rewrite (H _ _ _ Hr)).
  induction 1 as [c0|c0 e c1 es' c2 E _ IH]; [cbn; lia|].
  rewrite IH. apply event_balance in E. rewrite E. cbn. lia.
Qed.

(** ** What closing does *)

Section Closing.
Context {boost : BoostStrings} {driver : Driver}.
Context {W : Type} (find : bytes -> bytes -> option (handler W)) (write_fails : list bytes -> bytes -> bool).
Abbreviation conn := (conn (W := W)).

(** A call that returns [true] keeps the parser if and only if [keep], one
    that returns [false] destroys it, one that throws leaves it. *)
Definition frees (keep : bool) (m : M bool) : Prop :=
  forall c : conn, match m c with
            | (Returns r, c') => c_parser c' = c_parser c && (r && keep)
            | (Throws, c') => c_parser c' = c_parser c
            | (Undefined, _) => True
            end.

Lemma write_error_rsp_frees keep rsp :
  frees keep (bind (write_error_rsp write_fails rsp) (fun _ => ret false)).
Proof.
  intros c. unfold write_error_rsp, bind, async_write. split_if; [done|]. cbn.
  by rewrite andb_false_r.
Qed.

Lemma write_rsp_frees elapsed context :
  frees (rq_keep_alive (req_ context)) (bind (write_rsp write_fails elapsed context) (fun _ => ret true)).
Proof.
  intros c. unfold write_rsp. destruct (print_response _) as [out|]; [|done].
  unfold bind, async_write. split_if; [done|]. unfold after_write.
  destruct (rq_keep_alive (req_ context)); cbn; [by rewrite andb_true_r|by rewrite andb_false_r].
Qed.

Lemma handleRequestFunc_frees elapsed controller action context :
  (forall c a h, find c a = Some h -> is_async h = false) ->
  frees (rq_keep_alive (req_ context)) (handleRequestFunc find write_fails elapsed controller action context).
Proof.
  intros Hsync. unfold handleRequestFunc. destruct (find controller action) as [h|] eqn:Ef;
    [|apply write_error_rsp_frees].
  rewrite (Hsync _ _ _ Ef). intros c. unfold try_catch, bind at 1 2, invoke.
  destruct (invoke_raw _ _ _ _ _ _ _ _) as [[i|] w].
  - match goal with |- context [write_rsp _ _ ?ctx ?c0] =>
      pose proof (write_rsp_frees elapsed ctx c0) as Hw; unfold bind in Hw;
      destruct (write_rsp write_fails elapsed ctx c0) as [[u| |] c1] end;
      [exact Hw| |done].
    pose proof (write_error_rsp_frees (rq_keep_alive (req_ context)) s_err_rsp_500 c1) as He.
    destruct (bind _ _ c1) as [[r| |] c2]; cbn in *; congruence.
  - match goal with |- context [bind _ _ ?c0] =>
      pose proof (write_error_rsp_frees (rq_keep_alive (req_ context)) s_err_rsp_500 c0) as He end.
    exact He.
Qed.

Lemma handleRequest_frees elapsed context :
  (forall c a h, find c a = Some h -> is_async h = false) ->
  frees (rq_keep_alive (req_ context)) (handleRequest find write_fails false elapsed context).
Proof.
  intros Hsync. unfold handleRequest. destruct (route _) as [[[controller action] path]|].
  - change (rq_keep_alive (req_ context))
      with (rq_keep_alive (req_ (with_req (rq_with_path path (req_ context)) context))).
    by apply handleRequestFunc_frees.
  - apply write_error_rsp_frees.
Qed.

End Closing.

(** [shutdown] destroys the running parser.  With synchronous handlers and
    no pool, every request that does not keep the connection (because it asks
    for that, or because it is answered with an error) returns to
    [on_msg_complete] with [*req_parser_] destroyed: the object whose member
    function is running has been freed.  A request that keeps the connection
    leaves it alone. *)
Theorem closing_request_frees_running_parser {boost : BoostStrings} {driver : Driver} {W}
    (find : bytes -> bytes -> option (handler W)) write_fails elapsed c keep c' :
  (forall controller action h, find controller action = Some h -> is_async h = false) ->
  c_parser c = true ->
  request_cb find write_fails false elapsed c = (Returns keep, c') ->
  c_parser c' = keep.
Proof.
  intros Hsync Hc E. unfold request_cb, bind, createContext, ret in E.
  pose proof (handleRequest_frees find write_fails elapsed (c_next c) Hsync (with_next new_session c)) as Hf.
  destruct (handleRequest _ _ _ _ _ _) as [[r| |] c1]; [|done..].
  injection E as <- <-. rewrite Hf. cbn. by rewrite Hc.
Qed.

(** ** Error answers *)

(** An unknown controller or action is answered with a complete response
    that the client's parser reads as a 404, and the connection stops
    receiving; but the response says the connection is kept alive, so the
    client puts it back in its pool. *)
Theorem unknown_service_answered {boost : BoostStrings} {driver : Driver} {W}
    (find : bytes -> bytes -> option (handler W)) write_fails elapsed c controller action path :
  route (rq_path (req_ (c_next c))) = Some (controller, action, path) ->
  find controller action = None -> never_fails write_fails ->
  exists out,
    request_cb find write_fails false elapsed c
    = (Returns false, mk_conn new_session false false (c_written c ++ [out]) (c_tasks c) (c_pending c)
                        (c_world c))
    /\ exists p i, Response.parse (http_parser_init HTTP_RESPONSE) response_clear [Response.Read out]
       = Some (Some true, p, Some i, [])
       /\ rs_code (Response.i_resp i) = 404 /\ rs_body (Response.i_resp i) = []
       /\ rs_keep_alive (Response.i_resp i) = true.
Proof.
  intros Hr Hf Hw. exists (error_rsp s_err_rsp_404). split.
  - unfold request_cb, bind, createContext, handleRequest. rewrite Hr.
    unfold handleRequestFunc. rewrite Hf. unfold write_error_rsp, bind, async_write.
    by rewrite Hw.
  - eexists _, _. split; [vm_compute; reflexivity|]. by repeat split.
Qed.

(** ** Pipelining *)

Section Overtaking.
Context {boost : BoostStrings} {driver : Driver}.
Context {W : Type} (find : bytes -> bytes -> option (handler W)) (write_fails : list bytes -> bytes -> bool).
Abbreviation conn := (conn (W := W)).

(** The context an asynchronous handler holds while it runs. *)
Definition held (path : bytes) (req : request_t) : session_t :=
  prepared (with_req (rq_with_path path req) new_session).

(** A request that starts an asynchronous handler. *)
Definition starts_async (req : request_t) (path : bytes) : Prop :=
  exists controller action h, route (rq_path req) = Some (controller, action, path)
    /\ find controller action = Some h /\ is_async h = true
    /\ forall jr js body rsp p m w, exists w', invoke_raw_async h jr js body rsp p m w = (true, w').

(** What is printed when the handler completes with [json] and [body]. *)
Definition late_answer (t : Z) (ctx : session_t) (json : JsonResponse) (body : bytes) : option bytes :=
  print_response (final_rsp t (with_jsonResponse json (with_rsp (rs_with_body body (rsp_ ctx)) ctx))).

Lemma request_starts_async t req path (c : conn) :
  starts_async req path -> c_parser c = true -> c_next c = new_session ->
  exists w, on_event find write_fails false (Ev_request t req) c
  = Some (Returns tt, mk_conn new_session true (c_receiving c) (c_written c) (c_tasks c)
                        (c_pending c ++ [held path req]) w).
Proof.
  intros (controller & action & h & Hr & Hf & Ha & Hi) Hp Hn.
  cbn [on_event]. rewrite Hp, Hn. unfold request_cb, bind, createContext, handleRequest.
  cbn [c_next with_next req_ with_req]. rewrite Hr. unfold handleRequestFunc. rewrite Hf, Ha.
  unfold try_catch, bind, invoke_async.
  edestruct Hi as (w' & ->). exists w'. cbn. unfold ret, with_pending, with_world, with_next. cbn. by rewrite Hp.
Qed.

Lemma completion_written t n ctx json body out (c : conn) :
  never_fails write_fails -> c_pending c !! n = Some ctx -> rq_keep_alive (req_ ctx) = true ->
  late_answer t ctx json body = Some out ->
  on_event find write_fails false (Ev_async t n json body) c
  = Some (Returns tt, with_written (c_written c ++ [out]) (with_pending (delete n (c_pending c)) c)).
Proof.
  intros Hw Hp Hk Ho. cbn [on_event]. rewrite Hp. cbn [mbind option_bind]. f_equal.
  unfold write_rsp. unfold late_answer in Ho. rewrite Ho. unfold bind, async_write, after_write.
  rewrite Hw. cbn [req_ with_jsonResponse with_rsp]. by rewrite Hk.
Qed.
End Overtaking.

(** Responses can overtake each other.  Two keep-alive requests that reach
    asynchronous handlers on one connection are answered in the order in which
    the handlers complete, which need not be the order of the requests: a
    client that pipelines its requests takes the second response for the
    answer to the first request. *)
Theorem pipelined_responses_overtake {boost : BoostStrings} {driver : Driver} {W}
    (find : bytes -> bytes -> option (handler W)) write_fails t w r1 p1 j1 b1 out1 r2 p2 j2 b2 out2 :
  never_fails write_fails ->
  starts_async find r1 p1 -> rq_keep_alive r1 = true -> late_answer t (held p1 r1) j1 b1 = Some out1 ->
  starts_async find r2 p2 -> rq_keep_alive r2 = true -> late_answer t (held p2 r2) j2 b2 = Some out2 ->
  exists c, runs find write_fails false (fresh_conn w)
      [Ev_request t r1; Ev_request t r2; Ev_async t 1 j2 b2; Ev_async t 0 j1 b1] c
    /\ c_written c = [out2; out1].
Proof.
  intros Hw H1 Hk1 Ho1 H2 Hk2 Ho2.
  destruct (request_starts_async find write_fails t r1 p1 (fresh_conn w)) as (w1 & E1); [done..|].
  match type of E1 with _ = Some (_, ?c1) =>
    destruct (request_starts_async find write_fails t r2 p2 c1) as (w2 & E2); [done..|] end.
  eexists. split.
  - eapply runs_cons; [exact E1|]. eapply runs_cons; [exact E2|].
    eapply runs_cons; [eapply completion_written; [done|reflexivity|done|exact Ho2]|].
    eapply runs_cons; [eapply completion_written; [done|reflexivity|done|exact Ho1]|]. constructor.
  - done.
Qed.

(** ** Witnesses *)

(** A JSON library that keeps only the success flag. *)
Definition flag_driver : Driver := {|
  JsonRequest := unit; JsonResponse := bool; new_request := tt; new_response := false;
  check_fibp_time _ := false; setSuccess _ := true; set_total_server_time _ r := r;
  writer_write r := if r then b "{}" else b "error"
|}.

(** The application logs the paths it is asked for; [/svc/echo] returns its
    body, [/svc/later] is asynchronous. *)
Definition echo_handler : @handler flag_driver (list bytes) := {|
  is_async := false;
  invoke_raw := fun jr js body rsp path m log => (Some (@mk_invoked flag_driver jr js body body), log ++ [path]);
  invoke_raw_async := fun _ _ _ _ _ _ log => (false, log)
|}.
Definition later_handler : @handler flag_driver (list bytes) := {|
  is_async := true;
  invoke_raw := fun _ _ _ _ _ _ log => (None, log);
  invoke_raw_async := fun _ _ _ _ path _ log => (true, log ++ [path])
|}.
Definition only (action : bytes) (h : @handler flag_driver (list bytes)) (controller' action' : bytes)
  : option (@handler flag_driver (list bytes)) :=
  if bool_decide (controller' = b "svc") && bool_decide (action' = action) then Some h else None.

Definition post (path body : bytes) (keep_alive : bool) : request_t :=
  mk_request 1 1 POST [] [] 0 path [] [] keep_alive body.

Ltac sendable_tac :=
  split; [by vm_compute..| |by vm_compute| |by vm_compute|];
  [split; [eexists "/"%char, _; split; [reflexivity|split; [by left|by repeat constructor]]|by repeat constructor]
  |by repeat constructor
  |intros ? Hw; vm_compute in Hw; injection Hw as <-; vm_compute; discriminate].

Definition first_post : request_t := post (b "/svc/echo") (b "hello") true.
Definition second_post : request_t := post (b "//svc//echo/x") (b "again") true.

Lemma first_sendable : sendable first_post.
Proof. sendable_tac. Qed.
Lemma second_sendable : sendable second_post.
Proof. sendable_tac. Qed.

Lemma route_by_segments_witness :
  b "//a///b/c/" <> [] /\ exists p l r,
    b "//a///b/c/" = l ++ p ++ r /\ separators is_slash l /\ separators is_slash r /\ bare is_slash p
    /\ @route reference_strings (b "//a///b/c/") = Some (b "a", b "b", p).
Proof. split; [discriminate|]. by apply (@route_by_segments reference_strings (b "//a///b/c/")). Defined.

Definition printed (req : request_t) : bytes :=
  match print_request req with Some w => w | None => [] end.
Definition both : bytes := printed first_post ++ printed second_post.

(** The cut falls in the middle of the second request. *)
Lemma requests_served_in_order_witness :
  exists p i', Request.do_parse logging_cb no_url (Request.new_impl request_init [])
      (map Request.Read [take 7 both; drop 7 (take 130 both); drop 130 both])
    = Some (Request.Waiting, p, Some i', [])
    /\ Request.i_owner i' = [received first_post; received second_post].
Proof.
  apply (requests_served_in_order logging_cb no_url [first_post; second_post]
           [printed first_post; printed second_post]).
  - constructor; [apply first_sendable|constructor; [apply second_sendable|constructor]].
  - reflexivity.
  - reflexivity.
  - repeat constructor; vm_compute; discriminate.
  - reflexivity.
Defined.

Definition served : list bytes :=
  match @answers reference_strings flag_driver _ (only (b "echo") echo_handler) 0 [first_post; second_post] [] with
  | Some (outs, _) => outs
  | None => []
  end.

Lemma connection_serves_in_order_witness :
  exists p i, Request.do_parse
      (@parser_cb reference_strings flag_driver _ (only (b "echo") echo_handler) (fun _ _ => false) false 0)
      no_url (Request.new_impl request_init (mk_owner (@fresh_conn flag_driver _ []) false))
      (map Request.Read [take 7 both; drop 7 (take 130 both); drop 130 both])
    = Some (Request.Waiting, p, Some i, [])
    /\ Request.i_owner i = mk_owner (mk_conn (@new_session flag_driver) true true served [] []
                                       [b "svc/echo"; b "svc//echo/x"]) false.
Proof.
  apply (@connection_serves_in_order reference_strings flag_driver _ (only (b "echo") echo_handler)
           (fun _ _ => false) no_url 0 [first_post; second_post] [printed first_post; printed second_post]).
  - done.
  - constructor; [apply first_sendable|constructor; [apply second_sendable|constructor]].
  - by repeat constructor.
  - reflexivity.
  - repeat constructor; vm_compute; discriminate.
  - reflexivity.
  - vm_compute. reflexivity.
Defined.

(** With a pool: the second of two scheduled calls runs first. *)
Definition pooled_events : list (@event flag_driver) :=
  [@Ev_request flag_driver 0 first_post; @Ev_request flag_driver 0 second_post; @Ev_task flag_driver 0 1].
Definition pooled_conn (n : nat) : conn (driver := flag_driver) (W := list bytes) :=
  foldl (fun c e => match @on_event reference_strings flag_driver _ (only (b "echo") echo_handler)
                            (fun _ _ => false) true e c with Some (_, c) => c | None => c end)
    (@fresh_conn flag_driver _ []) (take n pooled_events).

Lemma one_answer_per_request_witness :
  length (c_written (pooled_conn 3)) = 1%nat
  /\ answers_and_debts (driver := flag_driver) (pooled_conn 3) = sum_list (asks <$> pooled_events).
Proof.
  split; [vm_compute; reflexivity|].
  apply (@one_answer_per_request reference_strings flag_driver _ (only (b "echo") echo_handler)
           (fun _ _ => false) true []).
  eapply (runs_cons _ _ _ _ _ (pooled_conn 1)); [vm_compute; reflexivity|].
  eapply (runs_cons _ _ _ _ _ (pooled_conn 2)); [vm_compute; reflexivity|].
  eapply (runs_cons _ _ _ _ _ (pooled_conn 3)); [vm_compute; reflexivity|].
  constructor.
Defined.

Definition conn_with (req : request_t) : conn (driver := flag_driver) (W := list bytes) :=
  with_next (with_req req (@new_session flag_driver)) (@fresh_conn flag_driver _ []).

Lemma closing_request_frees_running_parser_witness :
  c_parser (snd (@request_cb reference_strings flag_driver _ (only (b "echo") echo_handler) (fun _ _ => false)
                   false 0 (conn_with (post (b "/svc/echo") (b "x") false)))) = false.
Proof.
  refine (@closing_request_frees_running_parser reference_strings flag_driver _ (only (b "echo") echo_handler)
           (fun _ _ => false) 0 (conn_with (post (b "/svc/echo") (b "x") false)) false _ _ eq_refl _).
  - intros controller action h. unfold only. destruct (_ && _); [by intros [= <-]|done].
  - vm_compute. reflexivity.
Defined.

Lemma unknown_service_answered_witness :
  exists out,
    @request_cb reference_strings flag_driver _ (only (b "echo") echo_handler) (fun _ _ => false) false 0
      (conn_with (post (b "/none") [] true))
    = (Returns false, mk_conn (@new_session flag_driver) false false ([] ++ [out]) [] [] [])
    /\ exists p i, Response.parse (http_parser_init HTTP_RESPONSE) response_clear [Response.Read out]
       = Some (Some true, p, Some i, [])
       /\ rs_code (Response.i_resp i) = 404 /\ rs_body (Response.i_resp i) = []
       /\ rs_keep_alive (Response.i_resp i) = true.
Proof.
  apply (@unknown_service_answered reference_strings flag_driver _ (only (b "echo") echo_handler)
           (fun _ _ => false) 0 (conn_with (post (b "/none") [] true)) (b "none") [] (b "none"));
    [vm_compute; reflexivity|vm_compute; reflexivity|done].
Defined.

Definition later_post (x : string) : request_t := post (b "/svc/later") (b x) true.
Definition late (x y : string) : bytes :=
  match @late_answer reference_strings flag_driver 0 (@held flag_driver (b "svc/later") (later_post x)) true (b y) with
  | Some w => w
  | None => []
  end.

Lemma later_starts x :
  @starts_async reference_strings flag_driver _ (only (b "later") later_handler) (later_post x) (b "svc/later").
Proof.
  exists (b "svc"), (b "later"), later_handler.
  split; [vm_compute; reflexivity|]. split; [vm_compute; reflexivity|]. split; [done|].
  intros. by eexists.
Qed.

Lemma pipelined_responses_overtake_witness :
  exists c, @runs reference_strings flag_driver _ (only (b "later") later_handler) (fun _ _ => false) false
      (@fresh_conn flag_driver _ [])
      [@Ev_request flag_driver 0 (later_post "a"); @Ev_request flag_driver 0 (later_post "b");
       @Ev_async flag_driver 0 1 true (b "second"); @Ev_async flag_driver 0 0 true (b "first")] c
    /\ c_written c = [late "b" "second"; late "a" "first"].
Proof.
  eapply (@pipelined_responses_overtake reference_strings flag_driver _ (only (b "later") later_handler)
           (fun _ _ => false) 0 []);
    [done|apply later_starts|done|vm_compute; reflexivity|apply later_starts|done|vm_compute; reflexivity].
Defined.
