(* ===== verification/FibpClient.v ===== *)
(** * The clients of the backends: sessions, futures and framing

    [ClientSession] (connect, write, shut down), [FibpClientFuture], and the
    two multiplexing clients [FibpRawClient] and [FibpRpcClient], which send
    many requests over one connection and match the responses by a 32-bit
    number.  The clients are systems that react to the steps of their fibers:
    a call of [send_request] runs up to its write, the write ends, the reading
    fiber gets a response or an error. *)

From stdpp Require Import options.
From S2P Require Import Prelude.

(** ** [ClientSession] *)

Section Session.

(** [ss_sent]: the completed writes. *)
Record ClientSession := mk_ClientSession {
  ss_open : bool;
  ss_connecting : bool;
  ss_conn_to : Z;
  ss_read_to : Z;
  ss_sent : list bytes
}.

Definition new_session : ClientSession := mk_ClientSession false false 5000 5000 [].
Definition set_timeout (conn_to_ms read_to_ms : Z) (s : ClientSession) : ClientSession :=
  mk_ClientSession (ss_open s) (ss_connecting s) conn_to_ms read_to_ms (ss_sent s).
Definition set_open (o : bool) (s : ClientSession) : ClientSession :=
  mk_ClientSession o (ss_connecting s) (ss_conn_to s) (ss_read_to s) (ss_sent s).
Definition set_connecting (o : bool) (s : ClientSession) : ClientSession :=
  mk_ClientSession (ss_open s) o (ss_conn_to s) (ss_read_to s) (ss_sent s).

(** [shutdown(need_close)]; [throws]: [socket_.shutdown] throws. *)
Definition shutdown (need_close throws : bool) (s : ClientSession) : ClientSession :=
  if need_close || throws then set_open false s else s.

(** How resolving and connecting end: an exception, or an error code and
    whether the socket is open. *)
Inductive connect_result := Connect_throws | Connected (ec : bool) (is_open : bool).

(** The error code returned, and the session. *)
Definition async_connect (r : connect_result) (s : ClientSession) : bool * ClientSession :=
  let s := set_connecting true s in
  let '(ec, ret, s) :=
    match r with
    | Connect_throws => (false, false, s)
    | Connected ec is_open => (ec, is_open && negb ec, set_open is_open s)
    end in
  let s := if negb ret then shutdown true false s else s in
  (ec, set_connecting false s).

Inductive write_result := Written | Write_failed | Write_throws.

Definition async_write (r : write_result) (reqdata : bytes) (s : ClientSession)
  : bool * ClientSession :=
  match (if ss_open s then r else Write_failed) with
  | Written => (true, mk_ClientSession (ss_open s) (ss_connecting s) (ss_conn_to s) (ss_read_to s)
                        (ss_sent s ++ [reqdata]))
  | Write_failed => (false, if negb (ss_connecting s) then shutdown true false s else s)
  | Write_throws => (false, shutdown true false s)
  end.

(** [None]: another fiber is connecting, the call waits. *)
Definition send_data (cr : connect_result) (wr : write_result) (reqdata : bytes) (s : ClientSession)
  : option (bool * ClientSession) :=
  if ss_connecting s then None
  else if negb (ss_open s) then
    let (ec, s) := async_connect cr s in
    Some (if ec then (false, s) else async_write wr reqdata s)
  else Some (async_write wr reqdata s).

(** [async_read] and [async_read_some] close the session on an error that is
    not a cancellation; the error code returned says which. *)
Inductive read_result := Read_ok | Read_eof | Read_aborted | Read_other.

Definition async_read (r : read_result) (throws : bool) (s : ClientSession) : read_result * ClientSession :=
  (r, match r with
      | Read_ok | Read_aborted => s
      | Read_eof => shutdown true throws s
      | Read_other => shutdown false throws s
      end).

(** [check_deadline]: the timer was cancelled ([aborted]) or has expired. *)
Definition check_deadline (aborted expired : bool) (s : ClientSession) : ClientSession :=
  if aborted then s else if expired && ss_open s then shutdown true false s else s.

End Session.

(** ** [FibpClientFuture] *)

Definition TIMEOUT_ERR : bytes := b "Server Timed Out.".

Record FibpClientFuture := mk_future {
  future_id_ : Z;
  timeout_ : Z;
  rsp_ : bytes;
  is_success_ : bool;
  can_retry_ : bool;
  done_ : bool
}.

Definition new_future (fid timeout : Z) : FibpClientFuture := mk_future fid timeout [] false true false.

Definition set_result (rsp : bytes) (is_success can_retry : bool) (f : FibpClientFuture) : FibpClientFuture :=
  mk_future (future_id_ f) (timeout_ f) rsp is_success can_retry true.

(** [getRsp] once its wait is over: the value returned, [rsp] and [can_retry]. *)
Definition getRsp (f : FibpClientFuture) : bool * bytes * bool :=
  if negb (done_ f) then (is_success_ f, TIMEOUT_ERR, true)
  else (is_success_ f, rsp_ f, can_retry_ f).

(** ** The multiplexing clients *)

Section Client.

(** What [send_request] writes for the number, the path and the data. *)
Context (pack : Z -> bytes -> bytes -> bytes).
(** The client closes its session after a read error: [FibpRpcClient] does,
    [FibpRawClient] does not. *)
Context (closes : bool).

(** [futures]: every future created, in order; a [FibpClientFuturePtr] is an
    index into it.  [sending]: the calls of [send_request] whose write has not
    ended, with their number and bytes. *)
Record client := mk_client {
  fid_ : Z;
  future_list_ : gmap Z nat;
  futures : list FibpClientFuture;
  sending : list (nat * Z * bytes);
  reading_fiber_ : bool;
  session_ : ClientSession
}.

Definition new_client : client := mk_client 0 ∅ [] [] false new_session.

(** [send_request] up to [session_->send_data]. *)
Definition send_begin (path reqdata : bytes) (timeout_ms : Z) (c : client) : client :=
  let fid := w32 (fid_ c + 1) in
  let f := length (futures c) in
  mk_client fid (<[fid := f]> (future_list_ c)) (futures c ++ [new_future fid (w32 timeout_ms)])
    (sending c ++ [(f, fid, pack fid path reqdata)]) (reading_fiber_ c)
    (set_timeout (timeout_ms * 2) timeout_ms (session_ c)).

(** The rest of the [n]-th call: the future it returns. *)
Definition send_end (n : nat) (cr : connect_result) (wr : write_result) (c : client)
  : option (option nat * client) :=
  '(f, fid, packed) ← sending c !! n;
  '(ret, s) ← send_data cr wr packed (session_ c);
  let sending := delete n (sending c) in
  Some (if negb ret
        then (None, mk_client (fid_ c) (delete fid (future_list_ c)) (futures c) sending
                      (reading_fiber_ c) s)
        else (Some f, mk_client (fid_ c) (future_list_ c) (futures c) sending true s)).

Definition set_response (msgid : Z) (rsp : bytes) (is_success can_retry : bool) (c : client) : client :=
  let fs := match future_list_ c !! msgid with
            | Some f => alter (set_result rsp is_success can_retry) f (futures c)
            | None => futures c
            end in
  mk_client (fid_ c) (delete msgid (future_list_ c)) fs (sending c) (reading_fiber_ c) (session_ c).

(** The futures of the map, in the order of their numbers. *)
Definition fail_all (errinfo : bytes) (l : list (Z * nat)) (fs : list FibpClientFuture) :=
  foldr (fun '(_, f) fs => alter (set_result errinfo false true) f fs) fs l.

Definition set_all_error (errinfo : bytes) (c : client) : client :=
  mk_client (fid_ c) ∅ (fail_all errinfo (map_to_list (future_list_ c)) (futures c)) (sending c)
    (reading_fiber_ c) (session_ c).

(** The end of [handle_read]. *)
Definition read_failed (errinfo : bytes) (c : client) : client :=
  let c := mk_client (fid_ c) (future_list_ c) (futures c) (sending c) (reading_fiber_ c)
             (if closes then shutdown true false (session_ c) else session_ c) in
  let c := set_all_error errinfo c in
  mk_client (fid_ c) (future_list_ c) (futures c) (sending c) false (session_ c).

(** *** The steps of the fibers *)

Inductive client_event :=
| Send_begin (path reqdata : bytes) (timeout_ms : Z)
| Send_end (n : nat) (cr : connect_result) (wr : write_result)
| Got_response (msgid : Z) (rsp : bytes) (is_success : bool)
| Got_read_error (errinfo : bytes).

Definition client_step (e : client_event) (c : client) : option client :=
  match e with
  | Send_begin path reqdata timeout_ms => Some (send_begin path reqdata timeout_ms c)
  | Send_end n cr wr => snd <$> send_end n cr wr c
  | Got_response msgid rsp is_success =>
      if reading_fiber_ c then Some (set_response msgid rsp is_success false c) else None
  | Got_read_error errinfo =>
      if reading_fiber_ c then Some (read_failed errinfo c) else None
  end.

Inductive client_runs : list client_event -> client -> Prop :=
| client_starts : client_runs [] new_client
| client_steps es c e c' : client_runs es c -> client_step e c = Some c' -> client_runs (es ++ [e]) c'.

End Client.

(** ** [FibpRawClient]: 8-byte headers *)

Module Raw.

(** A [uint32_t] in the memory of a little-endian host, and back: [memcpy]. *)
Definition store32 (z : Z) : bytes :=
  [of_code (z mod 256); of_code (z / 2 ^ 8 mod 256); of_code (z / 2 ^ 16 mod 256);
   of_code (z / 2 ^ 24 mod 256)].
Definition load32 (w : bytes) : Z :=
  match w with
  | [b0; b1; b2; b3] => uc b0 + 2 ^ 8 * uc b1 + 2 ^ 16 * uc b2 + 2 ^ 24 * uc b3
  | _ => 0
  end.

(** [htonl] and [ntohl] exchange the four bytes. *)
Definition htonl (z : Z) : Z :=
  2 ^ 24 * (z mod 256) + 2 ^ 16 * (z / 2 ^ 8 mod 256) + 2 ^ 8 * (z / 2 ^ 16 mod 256) + z / 2 ^ 24 mod 256.
Definition ntohl : Z -> Z := htonl.

(** The bytes [send_request] writes; the length is a [uint32_t]. *)
Definition packed_senddata (fid : Z) (path reqdata : bytes) : bytes :=
  store32 (htonl fid) ++ store32 (htonl (w32 (Z.of_nat (length reqdata)))) ++ reqdata.

Definition HEAD_SIZE : nat := 8.

(** One response of [handle_read]: the two reads, [None] when the stream ends
    before they are complete; the number, the body and the rest. *)
Definition read_frame (stream : bytes) : option (Z * bytes * bytes) :=
  if (length stream <? HEAD_SIZE)%nat then None else
  let header := take HEAD_SIZE stream in
  let seq := ntohl (load32 (take 4 header)) in
  let len := Z.to_nat (ntohl (load32 (drop 4 header))) in
  let rest := drop HEAD_SIZE stream in
  if (length rest <? len)%nat then None else Some (seq, take len rest, drop len rest).

(** [handle_read] on all the bytes the peer sends before it closes the
    connection; [ec] is the message of the error that ends it. *)
Fixpoint handle_read (fuel : nat) (ec : bytes) (stream : bytes) (c : client) : option client :=
  match fuel with
  | O => None
  | S fuel =>
      match read_frame stream with
      | None => Some (read_failed false ec c)
      | Some (seq, rsp, rest) => handle_read fuel ec rest (set_response seq rsp true false c)
      end
  end.

End Raw.

(** ** [FibpRpcClient]: MessagePack *)

Module Rpc.

(** The MessagePack library: the streaming unpacker and the conversions of the
    code's messages, each of which may throw ([inl what]). *)
Class Msgpack := {
  unpacker : Type;
  object : Type;
  new_unpacker : unpacker;
  (** [execute()]: the object it has completed, after [reset()]; bytes that are no
      MessagePack make it throw. *)
  execute : unpacker -> bytes + (option object * unpacker);
  nonparsed_size : unpacker -> Z;
  message_size : unpacker -> Z;
  (** [reserve_buffer], a copy and [buffer_consumed]. *)
  buffer_consumed : bytes -> unpacker -> unpacker;
  (** [msg.convert(&rpc_rsp)]: msgid, err ([None] when nil), result. *)
  convert_response : object -> bytes + (Z * option object * object);
  convert_string : object -> bytes + bytes;
  pack_object : object -> bytes;
  (** The array of type, msgid, method and the raw parameters. *)
  pack_request : Z -> bytes -> bytes -> bytes
}.

Definition SERVER_RSP_TOO_LARGE_ERR : bytes := b "Server Response Too Large.".
Definition RPC_MAX : Z := 10 * 1024 * 1024.

Section Rpc.
Context {msgpack : Msgpack}.

(** The [try] block of [handle_read]: what is passed to [set_response], or the
    text of the exception. *)
Definition decode (msg : object) : bytes + (Z * bytes * bool) :=
  match convert_response msg with
  | inl what => inl what
  | inr (msgid, Some err, _) =>
      match convert_string err with
      | inl what => inl what
      | inr rsp => inr (msgid, rsp, false)
      end
  | inr (msgid, None, result) => inr (msgid, pack_object result, true)
  end.

(** The completed reads of the socket: the bytes, or the message of an error. *)
Abbreviation read_bytes := (bytes + bytes)%type (only parsing).

(** Where the reading fiber is: it waits for the next read; it has returned; or an
    exception has left it, for which the trampoline of the fibers ends the
    process with [std::terminate]. *)
Inductive reading :=
| Reading (u : unpacker) (c : client)
| Returned (u : unpacker) (c : client)
| Terminated (what : bytes).

(** The label [rpc_fail]. *)
Definition rpc_fail (rsp : bytes) (c : client) : reading := Returned new_unpacker (read_failed true rsp c).

(** [handle_read]; [None] when [fuel] is too small.  [execute] is called outside
    the [try] block. *)
Fixpoint handle_read (fuel : nat) (reads : list read_bytes) (u : unpacker) (c : client) : option reading :=
  match fuel with
  | O => None
  | S fuel =>
      let read u c :=
        match reads with
        | [] => Some (Reading u c)
        | inl ec :: _ => Some (rpc_fail ec c)
        | inr w :: reads =>
            let u := buffer_consumed w u in
            if message_size u >? RPC_MAX then Some (rpc_fail SERVER_RSP_TOO_LARGE_ERR c)
            else handle_read fuel reads u c
        end in
      match execute u with
      | inl what => Some (Terminated what)
      | inr (Some msg, u) =>
          match decode msg with
          | inl what => Some (rpc_fail what c)
          | inr (msgid, rsp, ret) =>
              let c := set_response msgid rsp ret false c in
              if nonparsed_size u >? 0 then handle_read fuel reads u c else read u c
          end
      | inr (None, u) => read u c
      end
  end.

End Rpc.
End Rpc.
