(* ===== verification/FibpClientSpec.v ===== *)
(** * What the clients promise

    Framing round trips, the invariant of the table of futures, the
    explanation of every result, and delivery of each response to its own
    request. *)

From stdpp Require Import options.
From S2P Require Import Prelude FibpClient.

(** ** Framing *)

Module RawSpec.
Import Raw.

Lemma uc_byte z : uc (of_code (z mod 256)) = z mod 256.
Proof.
  pose proof (Z.mod_pos_bound z 256 ltac:(lia)). unfold uc, of_code.
  rewrite N_ascii_embedding by lia. by rewrite Z2N.id by lia.
Qed.

Lemma load_store z : 0 <= z < 2 ^ 32 -> load32 (store32 z) = z.
Proof.
  intros Hz. unfold load32, store32. rewrite !uc_byte.
  change (2 ^ 8) with 256. change (2 ^ 16) with 65536. change (2 ^ 24) with 16777216.
  change (2 ^ 32) with 4294967296 in Hz. Z.to_euclidean_division_equations. lia.
Qed.

Lemma htonl_range z : 0 <= htonl z < 2 ^ 32.
Proof.
  unfold htonl. change (2 ^ 8) with 256. change (2 ^ 16) with 65536. change (2 ^ 24) with 16777216.
  change (2 ^ 32) with 4294967296. Z.to_euclidean_division_equations. lia.
Qed.

Lemma ntohl_htonl z : 0 <= z < 2 ^ 32 -> ntohl (htonl z) = z.
Proof.
  intros Hz. unfold ntohl, htonl.
  change (2 ^ 8) with 256. change (2 ^ 16) with 65536. change (2 ^ 24) with 16777216.
  change (2 ^ 32) with 4294967296 in Hz.
  set (b0 := z mod 256). set (b1 := z / 256 mod 256). set (b2 := z / 65536 mod 256).
  set (b3 := z / 16777216 mod 256).
  assert (0 <= b0 < 256) by (apply Z.mod_pos_bound; lia).
  assert (0 <= b1 < 256) by (apply Z.mod_pos_bound; lia).
  assert (0 <= b2 < 256) by (apply Z.mod_pos_bound; lia).
  assert (0 <= b3 < 256) by (apply Z.mod_pos_bound; lia).
  set (y := 16777216 * b0 + 65536 * b1 + 256 * b2 + b3).
  assert (y mod 256 = b3) as ->
    by (symmetry; apply (Z.mod_unique _ _ (65536 * b0 + 256 * b1 + b2)); subst y; lia).
  assert (y / 256 = 65536 * b0 + 256 * b1 + b2) as ->
    by (symmetry; apply (Z.div_unique _ _ _ b3); subst y; lia).
  assert (y / 65536 = 256 * b0 + b1) as ->
    by (symmetry; apply (Z.div_unique _ _ _ (256 * b2 + b3)); subst y; lia).
  assert (y / 16777216 = b0) as ->
    by (symmetry; apply (Z.div_unique _ _ _ (65536 * b1 + 256 * b2 + b3)); subst y; lia).
  replace ((65536 * b0 + 256 * b1 + b2) mod 256) with b2
    by (apply (Z.mod_unique _ _ (256 * b0 + b1)); lia).
  replace ((256 * b0 + b1) mod 256) with b1 by (apply (Z.mod_unique _ _ b0); lia).
  replace (b0 mod 256) with b0 by (symmetry; apply Z.mod_small; lia).
  subst b0 b1 b2 b3. Z.to_euclidean_division_equations. lia.
Qed.

Lemma load_htonl z : 0 <= z < 2 ^ 32 -> ntohl (load32 (store32 (htonl z))) = z.
Proof. intros Hz. rewrite load_store by apply htonl_range. by apply ntohl_htonl. Qed.

(** A length that fits its field. *)
Definition frame_size_ok (reqdata : bytes) : Prop := Z.of_nat (length reqdata) < 2 ^ 32.

Lemma read_frame_packed fid path reqdata rest :
  0 <= fid < 2 ^ 32 -> frame_size_ok reqdata ->
  read_frame (packed_senddata fid path reqdata ++ rest) = Some (fid, reqdata, rest).
Proof.
  intros Hf Hl. unfold frame_size_ok in Hl. unfold read_frame, packed_senddata.
  rewrite (wrap_small 32) by lia. rewrite <- !app_assoc.
  set (h1 := store32 (htonl fid)). set (h2 := store32 (htonl (Z.of_nat (length reqdata)))).
  assert (length h1 = 4%nat) by done. assert (length h2 = 4%nat) by done.
  destruct (Nat.ltb_spec (length (h1 ++ h2 ++ reqdata ++ rest)) HEAD_SIZE) as [Hc|_].
  { rewrite !length_app in Hc. unfold HEAD_SIZE in Hc. lia. }
  assert (take HEAD_SIZE (h1 ++ h2 ++ reqdata ++ rest) = h1 ++ h2) as ->
    by (rewrite (app_assoc h1 h2), take_app_length' by done; done).
  assert (drop HEAD_SIZE (h1 ++ h2 ++ reqdata ++ rest) = reqdata ++ rest) as ->
    by (rewrite (app_assoc h1 h2), drop_app_length' by done; done).
  rewrite take_app_length', drop_app_length' by done. subst h1 h2.
  rewrite !load_htonl by lia. rewrite Nat2Z.id.
  destruct (Nat.ltb_spec (length (reqdata ++ rest)) (length reqdata)) as [Hc|_];
    [rewrite length_app in Hc; lia|].
  by rewrite take_app_length, drop_app_length.
Qed.

(** A frame takes at least its header. *)
Lemma read_frame_shorter stream seq rsp rest :
  read_frame stream = Some (seq, rsp, rest) -> (length rest + HEAD_SIZE <= length stream)%nat.
Proof.
  unfold read_frame. destruct (Nat.ltb_spec (length stream) HEAD_SIZE); [done|].
  destruct (_ <? _)%nat; [done|]. intros [= <- <- <-]. rewrite !length_drop. lia.
Qed.

Lemma handle_read_returns fuel ec stream c :
  (length stream < fuel)%nat -> exists c', handle_read fuel ec stream c = Some c'.
Proof.
  revert stream c. induction fuel as [|fuel IH]; intros stream c Hl; [lia|]. cbn.
  destruct (read_frame stream) as [[[seq rsp] rest]|] eqn:E; [|by eexists].
  apply IH. apply read_frame_shorter in E. unfold HEAD_SIZE in E. lia.
Qed.

(** The responses on the wire. *)
Definition frames (rs : list (Z * bytes)) : bytes :=
  concat (map (fun '(id, rsp) => packed_senddata id [] rsp) rs).
Definition frame_ok (r : Z * bytes) : Prop := 0 <= fst r < 2 ^ 32 /\ frame_size_ok (snd r).

Definition respond (c : client) (r : Z * bytes) : client := set_response (fst r) (snd r) true false c.

Lemma handle_read_frames fuel ec rs tail c :
  Forall frame_ok rs -> (length (frames rs ++ tail) < fuel)%nat ->
  exists fuel', handle_read fuel ec (frames rs ++ tail) c
    = handle_read fuel' ec tail (foldl respond c rs) /\ (length tail < fuel')%nat.
Proof.
  intros Hrs. revert fuel c. induction Hrs as [|[id rsp] rs [Hid Hsz] Hrs IH]; intros fuel c Hl.
  { by exists fuel. }
  cbn in Hid, Hsz. destruct fuel as [|fuel]; [lia|].
  change (frames ((id, rsp) :: rs)) with (packed_senddata id [] rsp ++ frames rs) in *.
  rewrite <- app_assoc in *. cbn [handle_read foldl].
  rewrite read_frame_packed by done. apply IH.
  rewrite length_app in Hl. unfold packed_senddata in Hl. cbn in Hl. lia.
Qed.

End RawSpec.

(** ** The table of futures *)

(** The number of the [p]-th call: the counter is a [uint32_t]. *)
Definition number (p : nat) : Z := w32 (Z.of_nat p + 1).

Lemma number_next p : w32 (w32 (Z.of_nat p) + 1) = number p.
Proof. unfold number, wrap. by rewrite Zplus_mod_idemp_l. Qed.

Lemma number_range p : 0 <= number p < 2 ^ 32.
Proof. unfold number. by apply wrap_bound. Qed.

Lemma number_small p : Z.of_nat p + 1 < 2 ^ 32 -> number p = Z.of_nat p + 1.
Proof. intros H. unfold number. apply wrap_small. lia. Qed.

(** The invariant of a client: the futures carry their numbers, those in the
    map are the unfinished ones their key says, and an unfinished future has
    its initial result. *)
Record client_ok (c : client) : Prop := {
  ok_fid : fid_ c = w32 (Z.of_nat (length (futures c)));
  ok_number p f : futures c !! p = Some f -> future_id_ f = number p;
  ok_unfinished p f : futures c !! p = Some f -> done_ f = false -> is_success_ f = false;
  ok_listed id p : future_list_ c !! id = Some p ->
    exists f, futures c !! p = Some f /\ future_id_ f = id /\ done_ f = false;
  ok_sending p id w : (p, id, w) ∈ sending c -> (p < length (futures c))%nat /\ id = number p
}.

(** The map never holds a future under two keys. *)
Lemma ok_injective c id1 id2 p :
  client_ok c -> future_list_ c !! id1 = Some p -> future_list_ c !! id2 = Some p -> id1 = id2.
Proof.
  intros Hc H1 H2. apply (ok_listed c Hc) in H1 as (f1 & E1 & <- & _).
  apply (ok_listed c Hc) in H2 as (f2 & E2 & <- & _). by simplify_eq.
Qed.

Lemma new_client_ok : client_ok new_client.
Proof. split; try done. intros p id w H. by apply elem_of_nil in H. Qed.

Lemma send_begin_ok pack path reqdata t c : client_ok c -> client_ok (send_begin pack path reqdata t c).
Proof.
  intros [Hf Hn Hu Hl Hs]. split; cbn [send_begin fid_ future_list_ futures sending].
  - rewrite Hf, length_app, number_next. unfold number. cbn [length]. f_equal. lia.
  - intros p f. destruct (decide (p < length (futures c))%nat).
    + rewrite lookup_app_l by done. apply Hn.
    + rewrite lookup_app_r by lia. intros [Hp <-]%list_lookup_singleton_Some. cbn.
      rewrite Hf, number_next. f_equal. lia.
  - intros p f [H|[_ [_ <-]%list_lookup_singleton_Some]]%lookup_app_Some; [by apply (Hu p)|done].
  - intros id p [[<- <-]|[_ H]]%lookup_insert_Some.
    + eexists. rewrite lookup_app_r, Nat.sub_diag by lia. by split; [reflexivity|].
    + destruct (Hl _ _ H) as (f & E & He). exists f. by rewrite lookup_app_l by by eapply lookup_lt_Some.
  - intros p id w [H|H%list_elem_of_singleton]%elem_of_app.
    + apply Hs in H as [H1 H2]. rewrite length_app. split; [lia|done].
    + simplify_eq. rewrite length_app, Hf, number_next. cbn. split; [lia|done].
Qed.

Lemma delete_listed_ok c id s sending' b :
  client_ok c -> (forall x, x ∈ sending' -> x ∈ sending c) ->
  client_ok (mk_client (fid_ c) (delete id (future_list_ c)) (futures c) sending' b s).
Proof.
  intros [Hf Hn Hu Hl Hs] Hsub. split; cbn; try done.
  - intros id' p [_ H]%lookup_delete_Some. by apply Hl.
  - intros p id' w H. eapply Hs. by apply Hsub.
Qed.

Lemma sending_ok c s sending' b :
  client_ok c -> (forall x, x ∈ sending' -> x ∈ sending c) ->
  client_ok (mk_client (fid_ c) (future_list_ c) (futures c) sending' b s).
Proof.
  intros [Hf Hn Hu Hl Hs] Hsub. split; cbn; try done.
  intros p id' w H. eapply Hs. by apply Hsub.
Qed.

Lemma elem_of_delete {A} (x : A) (n : nat) (l : list A) : x ∈ delete n l -> x ∈ l.
Proof. intros H. eapply elem_of_submseteq; [exact H|]. apply sublist_submseteq, sublist_delete. Qed.

Lemma send_end_ok n cr wr c r c' : send_end n cr wr c = Some (r, c') -> client_ok c -> client_ok c'.
Proof.
  unfold send_end. destruct (sending c !! n) as [[[p id] w]|]; [|done]. cbn.
  destruct (send_data _ _ _ _) as [[ret s]|]; [|done]. cbn. intros E Hc.
  destruct ret; cbn in E; simplify_eq.
  - apply sending_ok; [done|]. intros x. apply elem_of_delete.
  - apply delete_listed_ok; [done|]. intros x. apply elem_of_delete.
Qed.

(** Completing listed futures. *)
Lemma lookup_alter_result g p q (fs : list FibpClientFuture) f :
  alter g p fs !! q = Some f <->
  (q <> p /\ fs !! q = Some f) \/ (q = p /\ exists f0, fs !! p = Some f0 /\ f = g f0).
Proof.
  destruct (decide (q = p)) as [->|Hne].
  - rewrite list_lookup_alter, decide_True by done. split.
    + intros H. right. split; [done|]. destruct (fs !! p) as [f0|]; [|done]. injection H as <-. by exists f0.
    + intros [[H _]|[_ (f0 & -> & ->)]]; [by destruct H|done].
  - rewrite list_lookup_alter_ne by done. split; [by left|]. intros [[_ H]|[H _]]; [done|by destruct Hne].
Qed.

Lemma set_response_ok msgid rsp s r c : client_ok c -> client_ok (set_response msgid rsp s r c).
Proof.
  intros Hc. unfold set_response. pose proof Hc as [Hf Hn Hu Hl Hs].
  destruct (future_list_ c !! msgid) as [p0|] eqn:E; [|by apply delete_listed_ok].
  split; cbn; rewrite ?length_alter; try done.
  - intros p f [[Hne H]|[-> (f0 & H & ->)]]%lookup_alter_result; by apply Hn in H.
  - intros p f [[Hne H]|[-> (f0 & H & ->)]]%lookup_alter_result; [by apply (Hu p)|done].
  - intros id p [Hne H]%lookup_delete_Some. destruct (Hl _ _ H) as (f & Ef & He).
    exists f. split; [|done]. rewrite lookup_alter_result. left. split; [|done]. intros ->.
    apply Hne. by eapply ok_injective.
Qed.

Lemma fail_all_lookup e l fs p f : NoDup (snd <$> l) ->
  fail_all e l fs !! p = Some f <->
  ((p ∉ (snd <$> l)) /\ fs !! p = Some f)
  \/ (p ∈ (snd <$> l) /\ exists f0, fs !! p = Some f0 /\ f = set_result e false true f0).
Proof.
  revert f. induction l as [|[id q] l IH]; intros f Hnd; cbn.
  { split; [intros H; left; split; [apply not_elem_of_nil|done]|].
    intros [[_ H]|[H _]]; [done|by apply elem_of_nil in H]. }
  apply NoDup_cons in Hnd as [Hq Hnd]. rewrite lookup_alter_result. rewrite elem_of_cons.
  split.
  - intros [[Hne H%(IH _ Hnd)]|[-> (f0 & H%(IH _ Hnd) & ->)]].
    + destruct H as [[Hp H]|[Hp H]].
      * left. split; [|done]. by intros [?|?].
      * right. split; [by right|done].
    + destruct H as [[_ H]|[Hp _]]; [|by destruct Hq].
      right. split; [by left|]. by exists f0.
  - intros [[Hp H]|[[->|Hp] (f0 & H & ->)]].
    + left. split; [intros ->; apply Hp; by left|]. apply (IH _ Hnd). left.
      split; [|done]. intros ?. apply Hp. by right.
    + right. split; [done|]. exists f0. split; [|done]. apply (IH _ Hnd). by left.
    + left. split; [by intros ->|]. apply (IH _ Hnd). right. split; [done|]. by exists f0.
Qed.

Lemma listed_nodup c : client_ok c -> NoDup (snd <$> map_to_list (future_list_ c)).
Proof.
  intros Hc. apply NoDup_fmap_2_strong; [|apply NoDup_map_to_list].
  intros [i p] [j q] Hi Hj. cbn. intros ->. apply elem_of_map_to_list in Hi, Hj.
  f_equal. by eapply ok_injective.
Qed.

Lemma listed_elem c p :
  p ∈ snd <$> map_to_list (future_list_ c) <-> exists id, future_list_ c !! id = Some p.
Proof.
  rewrite list_elem_of_fmap. split.
  - intros ([id q] & -> & H). apply elem_of_map_to_list in H. by exists id.
  - intros [id H]. exists (id, p). by rewrite elem_of_map_to_list.
Qed.

(** What a read error does to each future. *)
Lemma read_failed_lookup closes e c p f : client_ok c ->
  futures (read_failed closes e c) !! p = Some f <->
  ((forall id, future_list_ c !! id <> Some p) /\ futures c !! p = Some f)
  \/ ((exists id, future_list_ c !! id = Some p)
      /\ exists f0, futures c !! p = Some f0 /\ f = set_result e false true f0).
Proof.
  intros Hc. cbn. rewrite fail_all_lookup by by apply listed_nodup. rewrite listed_elem.
  split; intros [[H1 H2]|H]; try tauto; left; split; try done; naive_solver.
Qed.

Lemma length_fail_all e l fs : length (fail_all e l fs) = length fs.
Proof. induction l as [|[id p] l IH]; [done|]. cbn. by rewrite length_alter. Qed.

Lemma read_failed_ok closes e c : client_ok c -> client_ok (read_failed closes e c).
Proof.
  intros Hc. pose proof Hc as [Hf Hn Hu Hl Hs]. split.
  - cbn. by rewrite length_fail_all.
  - intros p f [[_ H]|[_ (f0 & H & ->)]]%read_failed_lookup; [by apply Hn|by apply Hn in H|done].
  - intros p f [[_ H]|[_ (f0 & H & ->)]]%read_failed_lookup; [by apply (Hu p)|done|done].
  - by intros id p H.
  - cbn. intros p id w H. rewrite length_fail_all. by eapply Hs.
Qed.

Section Table.
Context (pack : Z -> bytes -> bytes -> bytes) (closes : bool).
Abbreviation step := (client_step pack closes).
Abbreviation runs := (client_runs pack closes).

Lemma client_step_ok e c c' : step e c = Some c' -> client_ok c -> client_ok c'.
Proof.
  destruct e as [path reqdata t|n cr wr|msgid rsp s|e]; cbn [client_step].
  - intros [= <-]. apply send_begin_ok.
  - destruct (send_end n cr wr c) as [[r c1]|] eqn:E; [|done]. intros [= <-]. by eapply send_end_ok.
  - split_if; [|done]. intros [= <-]. apply set_response_ok.
  - split_if; [|done]. intros [= <-]. apply read_failed_ok.
Qed.

Lemma client_runs_ok es c : runs es c -> client_ok c.
Proof. induction 1; [apply new_client_ok|by eapply client_step_ok]. Qed.

(** *** Why a future has its result *)

(** The result of the [p]-th future comes from a response with its number,
    received while the call was listed, or from a read error that hit it. *)
Inductive explained (es : list client_event) (p : nat) (f : FibpClientFuture) : Prop :=
| by_response es1 es2 c1 :
    es = es1 ++ Got_response (number p) (rsp_ f) (is_success_ f) :: es2 -> runs es1 c1 ->
    future_list_ c1 !! number p = Some p -> can_retry_ f = false -> explained es p f
| by_read_error es1 es2 c1 :
    es = es1 ++ Got_read_error (rsp_ f) :: es2 -> runs es1 c1 ->
    future_list_ c1 !! number p = Some p -> is_success_ f = false -> can_retry_ f = true ->
    explained es p f.

Lemma explained_later es e p f : explained es p f -> explained (es ++ [e]) p f.
Proof.
  intros [es1 es2 c1 -> Hr Hl Hc|es1 es2 c1 -> Hr Hl Hs Hc].
  - eapply by_response; [by rewrite <- (assoc_L (++))|done..].
  - eapply by_read_error; [by rewrite <- (assoc_L (++))|done..].
Qed.

(** A step changes a future only by completing it while it is listed. *)
Lemma step_future es e c c' p f : runs es c -> step e c = Some c' -> futures c' !! p = Some f ->
  done_ f = true -> futures c !! p = Some f \/ explained (es ++ [e]) p f.
Proof.
  intros Hr Hs Hp Hd. pose proof (client_runs_ok _ _ Hr) as Hc.
  destruct e as [path reqdata t|n cr wr|msgid rsp s|e]; cbn [client_step] in Hs.
  - injection Hs as <-. left. cbn in Hp.
    apply lookup_app_Some in Hp as [Hp|[_ [_ <-]%list_lookup_singleton_Some]]; done.
  - left. unfold send_end in Hs. destruct (sending c !! n) as [[[q id] w]|]; [|done]. cbn in Hs.
    destruct (send_data _ _ _ _) as [[ret s]|]; [|done]. cbn in Hs. by destruct ret; simplify_eq.
  - destruct (reading_fiber_ c); [|done]. injection Hs as <-. unfold set_response in Hp. cbn in Hp.
    destruct (future_list_ c !! msgid) as [q|] eqn:El; [|by left].
    apply lookup_alter_result in Hp as [[_ Hp]|[-> (f0 & Hf & ->)]]; [by left|]. right.
    destruct (ok_listed c Hc _ _ El) as (f1 & Hf1 & Hid & _). rewrite Hf1 in Hf. injection Hf as <-.
    rewrite (ok_number c Hc _ _ Hf1) in Hid. subst msgid.
    eapply (by_response _ _ _ es [] c); done.
  - destruct (reading_fiber_ c); [|done]. injection Hs as <-.
    apply read_failed_lookup in Hp as [[_ Hp]|[[id Hl] (f0 & Hf & ->)]]; [by left| |done]. right.
    destruct (ok_listed c Hc _ _ Hl) as (f1 & Hf1 & Hid & _). 
    rewrite (ok_number c Hc _ _ Hf1) in Hid. subst id.
    eapply (by_read_error _ _ _ es [] c); done.
Qed.

Lemma runs_explained es c p f :
  runs es c -> futures c !! p = Some f -> done_ f = true -> explained es p f.
Proof.
  intros Hr. revert p f. induction Hr as [|es c e c' Hr IH Hs]; intros p f Hp Hd; [done|].
  destruct (step_future es e c c' p f Hr Hs Hp Hd) as [H|H]; [|done].
  by apply explained_later, IH.
Qed.

(** A finished future never changes. *)
Lemma step_final es e c c' p f : runs es c -> step e c = Some c' ->
  futures c !! p = Some f -> done_ f = true -> futures c' !! p = Some f.
Proof.
  intros Hr Hs Hp Hd. pose proof (client_runs_ok _ _ Hr) as Hc.
  assert (forall id, future_list_ c !! id <> Some p) as Hl.
  { intros id H. destruct (ok_listed c Hc _ _ H) as (f' & Hf & _ & Hn). congruence. }
  destruct e as [path reqdata t|n cr wr|msgid rsp s|e]; cbn [client_step] in Hs.
  - injection Hs as <-. cbn. by apply lookup_app_l_Some.
  - unfold send_end in Hs. destruct (sending c !! n) as [[[q id] w]|]; [|done]. cbn in Hs.
    destruct (send_data _ _ _ _) as [[ret s]|]; [|done]. cbn in Hs. by destruct ret; simplify_eq.
  - destruct (reading_fiber_ c); [|done]. injection Hs as <-. unfold set_response. cbn.
    destruct (future_list_ c !! msgid) as [q|] eqn:El; [|done].
    apply lookup_alter_result. left. split; [|done]. intros ->. by eapply Hl.
  - destruct (reading_fiber_ c); [|done]. injection Hs as <-.
    apply read_failed_lookup; [done|]. by left.
Qed.

End Table.

(** C14: every result is accounted for.  In every run of a client, with any
    interleaving of calls, responses and errors, what [getRsp] returns for the
    [p]-th call is the timeout (while the call is unfinished), the content of
    a response that carried the number of this very call while it was waiting,
    or the error that ended the connection while it was waiting; only the last
    one and the timeout may be retried.  A finished call never changes. *)
Theorem results_explained pack closes es c p f :
  client_runs pack closes es c -> futures c !! p = Some f ->
  (done_ f = false /\ getRsp f = (false, TIMEOUT_ERR, true))
  \/ (done_ f = true /\ explained pack closes es p f
      /\ getRsp f = (is_success_ f, rsp_ f, can_retry_ f)
      /\ forall e c', client_step pack closes e c = Some c' -> futures c' !! p = Some f).
Proof.
  intros Hr Hp. destruct (done_ f) eqn:Hd; [right|left].
  - split; [done|]. split; [by eapply runs_explained|]. unfold getRsp. rewrite Hd.
    split; [done|]. intros e c' Hs. by eapply step_final.
  - split; [done|]. unfold getRsp. rewrite Hd. cbn.
    by rewrite (ok_unfinished c (client_runs_ok _ _ _ _ Hr) p f Hp Hd).
Qed.

(** No call is left behind.  A read error finishes every call that was
    waiting for a response, with its message and leave to retry, and empties
    the table; the calls finished before keep their results. *)
Theorem read_error_fails_all_waiting pack closes es c e c' :
  client_runs pack closes es c -> client_step pack closes (Got_read_error e) c = Some c' ->
  future_list_ c' = ∅ /\ reading_fiber_ c' = false
  /\ forall p f, futures c !! p = Some f ->
      (future_list_ c !! number p = Some p ->
         exists f', futures c' !! p = Some f' /\ getRsp f' = (false, e, true))
      /\ (future_list_ c !! number p <> Some p -> futures c' !! p = Some f).
Proof.
  intros Hr Hs. pose proof (client_runs_ok _ _ _ _ Hr) as Hc. cbn [client_step] in Hs.
  destruct (reading_fiber_ c); [|done]. injection Hs as <-.
  split; [done|]. split; [done|]. intros p f Hp. split; intros Hl.
  - exists (set_result e false true f). split; [|done].
    apply read_failed_lookup; [done|]. right. split; [by exists (number p)|by exists f].
  - apply read_failed_lookup; [done|]. left. split; [|done]. intros id Hid.
    destruct (ok_listed c Hc _ _ Hid) as (f' & Hf' & Hn & _).
    rewrite (ok_number c Hc _ _ Hf') in Hn. by subst id.
Qed.

(** ** Every request gets its own response *)

Section Delivery.
Context (pack : Z -> bytes -> bytes -> bytes) (closes : bool).

(** One call of [send_request] after the other, on a connection that works. *)
Fixpoint send_all (path : bytes) (timeout_ms : Z) (ds : list bytes) (c : client) : option client :=
  match ds with
  | [] => Some c
  | d :: ds =>
      c ← client_step pack closes (Send_begin path d timeout_ms) c;
      c ← client_step pack closes (Send_end 0 (Connected false true) Written) c;
      send_all path timeout_ms ds c
  end.

(** A client whose calls have all been written and wait for their responses. *)
Record all_sent (path : bytes) (ds : list bytes) (c : client) : Prop := {
  as_ok : client_ok c;
  as_futures : length (futures c) = length ds;
  as_listed p : (p < length ds)%nat -> future_list_ c !! number p = Some p;
  as_only id p : future_list_ c !! id = Some p -> (p < length ds)%nat /\ id = number p;
  as_sending : sending c = [];
  as_connecting : ss_connecting (session_ c) = false;
  as_reading : ds <> [] -> reading_fiber_ c = true;
  as_sent : ss_sent (session_ c) = imap (fun p d => pack (number p) path d) ds
}.

Lemma send_one path t ds d c :
  all_sent path ds c -> Z.of_nat (length ds) + 1 < 2 ^ 32 ->
  exists c1 c2, client_step pack closes (Send_begin path d t) c = Some c1
    /\ client_step pack closes (Send_end 0 (Connected false true) Written) c1 = Some c2
    /\ all_sent path (ds ++ [d]) c2.
Proof.
  intros [Hok Hf Hl Ho Hs Hc Hr Hsent] Hsize.
  set (c1 := send_begin pack path d t c). exists c1.
  pose proof (send_begin_ok pack path d t c Hok) as Hok1. fold c1 in Hok1.
  assert (w32 (fid_ c + 1) = number (length ds)) as Hid
    by (rewrite (ok_fid c Hok), Hf; apply number_next).
  assert (exists s, send_data (Connected false true) Written (pack (number (length ds)) path d) (session_ c1)
            = Some (true, s) /\ ss_connecting s = false
              /\ ss_sent s = ss_sent (session_ c) ++ [pack (number (length ds)) path d]) as (s & Es & Hcs & Hss).
  { subst c1. cbn. destruct (session_ c) as [o cn ct rt sent]. cbn in Hc. subst cn.
    unfold send_data. cbn. destruct o; cbn; eexists; split; reflexivity || by split. }
  assert (send_end 0 (Connected false true) Written c1
    = Some (Some (length (futures c)),
            mk_client (fid_ c1) (future_list_ c1) (futures c1) [] true s)) as E2.
  { unfold send_end. replace (sending c1) with [(length (futures c), number (length ds), pack (number (length ds)) path d)]
      by (subst c1; cbn; by rewrite Hs, Hid).
    cbn [lookup list_lookup mbind option_bind]. rewrite Es. done. }
  eexists. split; [done|]. split; [cbn [client_step]; rewrite E2; cbn [fmap option_fmap option_map snd]; reflexivity|].
  apply (send_end_ok _ _ _ _ _ _ E2) in Hok1. subst c1.
  split; [exact Hok1|..]; cbn [fid_ future_list_ futures sending session_ reading_fiber_ send_begin]; try done.
  - rewrite !length_app, Hf. done.
  - intros p Hp. rewrite Hid, lookup_insert_Some. rewrite length_app in Hp. cbn in Hp.
    destruct (decide (p = length ds)) as [->|Hne]; [left; by rewrite Hf|right].
    split; [|apply Hl; lia]. rewrite !number_small by lia. lia.
  - intros id p. rewrite Hid, lookup_insert_Some, length_app. cbn.
    intros [[<- <-]|[_ H]]; [rewrite Hf; split; [lia|done]|].
    destruct (Ho id p H). split; [lia|done].
  - rewrite Hss, Hsent, imap_app. cbn. by rewrite Nat.add_0_r.
Qed.

Lemma send_all_sent path t ds1 : forall ds c,
  all_sent path ds c -> Z.of_nat (length ds + length ds1) < 2 ^ 32 ->
  exists c', send_all path t ds1 c = Some c' /\ all_sent path (ds ++ ds1) c'.
Proof.
  induction ds1 as [|d ds1 IH]; intros ds c Ha Hsz.
  { exists c. by rewrite app_nil_r. }
  cbn [length] in Hsz. destruct (send_one path t ds d c Ha) as (c1 & c2 & E1 & E2 & Ha2); [lia|].
  cbn [send_all]. rewrite E1. cbn [mbind option_bind]. rewrite E2. cbn [mbind option_bind].
  destruct (IH (ds ++ [d]) c2 Ha2) as (c' & E & Ha'); [rewrite length_app; cbn; lia|].
  exists c'. rewrite <- (assoc_L (++)) in Ha'. done.
Qed.

Lemma new_client_sent path : all_sent path [] new_client.
Proof. split; try done; [apply new_client_ok|cbn; intros; lia]. Qed.

(** Responses to waiting calls, each at most once. *)
Lemma respond_all (rs : list (Z * bytes)) : forall c,
  client_ok c -> NoDup (fst <$> rs) ->
  (forall id r, (id, r) ∈ rs -> exists p, future_list_ c !! id = Some p) ->
  let c' := foldl RawSpec.respond c rs in
  (forall id, future_list_ c' !! id = if decide (id ∈ fst <$> rs) then None else future_list_ c !! id)
  /\ (forall p id r, (id, r) ∈ rs -> future_list_ c !! id = Some p ->
        exists f', futures c' !! p = Some f' /\ getRsp f' = (true, r, false))
  /\ (forall p f, futures c !! p = Some f -> (forall id, future_list_ c !! id <> Some p) ->
        futures c' !! p = Some f).
Proof.
  induction rs as [|[id0 r0] rs IH]; intros c Hc Hnd Hin.
  { cbn. split_and!; [done|intros p id r H; by apply elem_of_nil in H|done]. }
  rewrite fmap_cons in *. cbn [fst foldl] in *. apply NoDup_cons in Hnd as [Hid0 Hnd].
  destruct (Hin id0 r0 ltac:(left)) as [p0 Hp0].
  set (c1 := RawSpec.respond c (id0, r0)).
  assert (client_ok c1) as Hc1 by by apply set_response_ok.
  assert (future_list_ c1 = delete id0 (future_list_ c)) as El by done.
  assert (futures c1 = alter (set_result r0 true false) p0 (futures c)) as Ef.
  { unfold c1, RawSpec.respond, set_response. cbn [fst snd]. rewrite Hp0. done. }
  assert (forall id r, (id, r) ∈ rs -> id <> id0) as Hne.
  { intros id r H ->. apply Hid0. apply list_elem_of_fmap. by exists (id0, r). }
  destruct (IH c1 Hc1 Hnd) as (H1 & H2 & H3).
  { intros id r H. destruct (Hin id r) as [p Hp]; [by right|]. exists p.
    rewrite El, lookup_delete_ne; [done|]. intros ->. by eapply Hne. }
  split_and!.
  - intros id. rewrite H1, El. destruct (decide (id ∈ fst <$> rs)) as [H|H].
    + rewrite decide_True; [done|by right].
    + destruct (decide (id = id0)) as [->|Hn].
      * rewrite decide_True by by left. by rewrite lookup_delete_eq.
      * rewrite decide_False by (intros [?|?]%elem_of_cons; done). by rewrite lookup_delete_ne.
  - intros p id r Hr Hp. apply elem_of_cons in Hr as [[= -> ->]|Hr].
    + rewrite Hp0 in Hp. injection Hp as <-. destruct (ok_listed c Hc _ _ Hp0) as (f & Hf & _).
      exists (set_result r0 true false f). split; [|done]. apply H3.
      * rewrite Ef. apply lookup_alter_result. right. split; [done|]. by exists f.
      * intros id. rewrite El. intros [Hn H]%lookup_delete_Some. apply Hn. exact (ok_injective c _ _ p0 Hc Hp0 H).
    + apply (H2 p id r); [done|]. rewrite El, lookup_delete_ne; [done|]. intros ->. by eapply Hne.
  - intros p f Hf Hl. apply H3.
    + rewrite Ef. apply lookup_alter_result. left. split; [|done]. intros ->. by eapply Hl.
    + intros id. rewrite El. intros [_ H]%lookup_delete_Some. by eapply Hl.
Qed.

End Delivery.

(** The numbered answers of a server that computes [reply] for each request. *)
Definition replies (reply : bytes -> bytes) (ds : list bytes) : list (Z * bytes) :=
  imap (fun p d => (number p, reply d)) ds.

Lemma replies_elem reply ds id r :
  (id, r) ∈ replies reply ds <-> exists p d, ds !! p = Some d /\ id = number p /\ r = reply d.
Proof.
  unfold replies. rewrite elem_of_lookup_imap. split.
  - intros (p & d & [= -> ->] & H). by exists p, d.
  - intros (p & d & H & -> & ->). by exists p, d.
Qed.

Lemma replies_nodup reply ds : Z.of_nat (length ds) < 2 ^ 32 -> NoDup (fst <$> replies reply ds).
Proof.
  intros Hsz. unfold replies. rewrite fmap_imap. apply NoDup_alt. intros i j x Hi Hj.
  rewrite list_lookup_imap in Hi, Hj.
  destruct (ds !! i) as [di|] eqn:Ei, (ds !! j) as [dj|] eqn:Ej; cbn in Hi, Hj; try done.
  apply lookup_lt_Some in Ei, Ej. injection Hi as Hi. injection Hj as Hj.
  rewrite number_small in Hi, Hj by lia. lia.
Qed.

(** C13: on one connection, each request gets its own response.  A client of
    the raw protocol that has written fewer than [2^32] requests, against a
    server that answers each of them in any order it likes: whatever the
    lengths and the contents, the stream the server reads contains exactly
    the numbered requests, and after [handle_read] has consumed the answers
    each call returns the reply to its own data, and no call is left waiting. *)
Theorem raw_responses_reach_their_requests path t ds reply rs ec :
  Z.of_nat (length ds) < 2 ^ 32 ->
  Forall RawSpec.frame_size_ok ds -> Forall (fun d => RawSpec.frame_size_ok (reply d)) ds ->
  rs ≡ₚ replies reply ds ->
  exists c, send_all Raw.packed_senddata false path t ds new_client = Some c
    /\ concat (ss_sent (session_ c)) = RawSpec.frames (imap (fun p d => (number p, d)) ds)
    /\ exists c', Raw.handle_read (S (length (RawSpec.frames rs))) ec (RawSpec.frames rs) c = Some c'
    /\ future_list_ c' = ∅
    /\ forall p d, ds !! p = Some d -> exists f, futures c' !! p = Some f /\ getRsp f = (true, reply d, false).
Proof.
  intros Hsz Hds Hreply Hperm.
  destruct (send_all_sent Raw.packed_senddata false path t ds [] new_client) as (c & Ec & Ha);
    [apply new_client_sent|cbn; lia|]. cbn [app] in Ha.
  exists c. split; [done|]. split.
  { rewrite (as_sent _ _ _ _ Ha). unfold RawSpec.frames. f_equal. change (map ?f ?l) with (f <$> l).
    by rewrite fmap_imap. }
  assert (Forall RawSpec.frame_ok rs) as Hrs.
  { apply Forall_forall. intros [id r] H. rewrite Hperm in H.
    apply replies_elem in H as (p & d & Hd & -> & ->). split; [apply number_range|].
    rewrite Forall_lookup in Hreply. by eapply Hreply. }
  destruct (RawSpec.handle_read_frames (S (length (RawSpec.frames rs))) ec rs [] c Hrs) as (fuel & E & Hfuel);
    [rewrite app_nil_r; lia|]. rewrite app_nil_r in E.
  destruct fuel as [|fuel]; [cbn in Hfuel; lia|]. rewrite E. cbn [Raw.handle_read]. eexists. split; [done|].
  split; [done|]. intros p d Hd.
  destruct (respond_all rs c (as_ok _ _ _ _ Ha)) as (H1 & H2 & _).
  { rewrite Hperm. by apply replies_nodup. }
  { intros id r H. rewrite Hperm in H. apply replies_elem in H as (q & e & Hq & -> & ->).
    exists q. apply (as_listed _ _ _ _ Ha). by eapply lookup_lt_Some. }
  destruct (H2 p (number p) (reply d)) as (f & Hf & Hg).
  { rewrite Hperm. apply replies_elem. by exists p, d. }
  { apply (as_listed _ _ _ _ Ha). by eapply lookup_lt_Some. }
  exists f. split; [|done]. apply read_failed_lookup.
  - clear -Ha. revert Ha. intros Ha. pose proof (as_ok _ _ _ _ Ha) as Hok. clear Ha.
    revert c Hok. induction rs as [|r rs IH]; intros c Hok; [done|]. cbn. apply IH. by apply set_response_ok.
  - left. split; [|done]. intros id. rewrite H1. destruct (decide _) as [|Hn]; [done|].
    intros Hid. apply (as_only _ _ _ _ Ha) in Hid as [Hq ->]. apply Hn.
    rewrite Hperm. apply list_elem_of_fmap. exists (number p, reply d). split; [done|].
    apply replies_elem. by exists p, d.
Qed.

(** ** The reading loop of the RPC client *)

(** What the loop relies on: [execute] eats the bytes it is given, at least
    one for each object it completes; the other operations are those of a
    buffer. *)
Class MsgpackBuffer (msgpack : Rpc.Msgpack) : Prop := {
  nonparsed_nonneg u : 0 <= Rpc.nonparsed_size u;
  execute_object u o u' : Rpc.execute u = inr (Some o, u') -> Rpc.nonparsed_size u' < Rpc.nonparsed_size u;
  execute_nothing u u' : Rpc.execute u = inr (None, u') -> Rpc.nonparsed_size u' <= Rpc.nonparsed_size u;
  consumed_size w u : Rpc.nonparsed_size (Rpc.buffer_consumed w u) = Rpc.nonparsed_size u + Z.of_nat (length w)
}.

Section RpcLoop.
Context {msgpack : Rpc.Msgpack} (pack : Z -> bytes -> bytes -> bytes).

Definition read_cost (reads : list (bytes + bytes)) : nat :=
  sum_list_with (fun r => match r with inl _ => 1 | inr w => S (length w) end)%nat reads.

Lemma rpc_loop_returns {laws : MsgpackBuffer msgpack} fuel reads u c :
  (Z.to_nat (Rpc.nonparsed_size u) + read_cost reads < fuel)%nat ->
  exists r, Rpc.handle_read fuel reads u c = Some r.
Proof.
  revert reads u c. induction fuel as [|fuel IH]; intros reads u c Hf; [lia|]. cbn [Rpc.handle_read].
  assert (forall u' c', (Z.to_nat (Rpc.nonparsed_size u') + read_cost reads < S fuel)%nat ->
    exists r, match reads with
              | [] => Some (Rpc.Reading u' c')
              | inl ec :: _ => Some (Rpc.rpc_fail ec c')
              | inr w :: reads =>
                  if Rpc.message_size (Rpc.buffer_consumed w u') >? Rpc.RPC_MAX
                  then Some (Rpc.rpc_fail Rpc.SERVER_RSP_TOO_LARGE_ERR c')
                  else Rpc.handle_read fuel reads (Rpc.buffer_consumed w u') c'
              end = Some r) as Hread.
  { intros u' c' H. destruct reads as [|[ec|w] reads]; [by eexists..|].
    destruct (_ >? _); [by eexists|]. apply IH. rewrite consumed_size.
    pose proof (nonparsed_nonneg u'). cbn in H. unfold read_cost in *. lia. }
  pose proof (nonparsed_nonneg u). destruct (Rpc.execute u) as [what|[[msg|] u1]] eqn:E; [by eexists| |].
  - pose proof (execute_object _ _ _ E). pose proof (nonparsed_nonneg u1).
    destruct (Rpc.decode msg) as [what|[[msgid rsp] ret]]; [by eexists|].
    destruct (_ >? 0); [apply IH; lia|apply Hread; lia].
  - pose proof (execute_nothing _ _ E). pose proof (nonparsed_nonneg u1). apply Hread. lia.
Qed.

(** [u'] is the unpacker [u] after the reads [ws]. *)
Inductive fed (u : Rpc.unpacker) : list bytes -> Rpc.unpacker -> Prop :=
| fed_nil : fed u [] u
| fed_execute ws u1 o u2 : fed u ws u1 -> Rpc.execute u1 = inr (o, u2) -> fed u ws u2
| fed_read ws w u1 : fed u ws u1 -> fed u (ws ++ [w]) (Rpc.buffer_consumed w u1).

(** What the loop comes to, for the steps of the client. *)
Definition reading_ok (es0 : list client_event) (u : Rpc.unpacker) (reads : list (bytes + bytes)) (r : Rpc.reading) : Prop :=
  match r with
  | Rpc.Reading _ c' => exists es, client_runs pack true (es0 ++ es) c' /\ reading_fiber_ c' = true
  | Rpc.Returned u' c' => (exists es, client_runs pack true (es0 ++ es) c') /\ u' = Rpc.new_unpacker
      /\ future_list_ c' = ∅ /\ reading_fiber_ c' = false /\ ss_open (session_ c') = false
  | Rpc.Terminated what => exists ws rest u', reads = map inr ws ++ rest /\ fed u ws u' /\ Rpc.execute u' = inl what
  end.

Lemma fed_trans u ws u1 ws' u2 : fed u ws u1 -> fed u1 ws' u2 -> fed u (ws ++ ws') u2.
Proof.
  intros H. induction 1 as [|ws' u2 o u3 _ IH E|ws' w u2 _ IH]; [by rewrite app_nil_r|by eapply fed_execute|]. rewrite (assoc_L (++)). by apply fed_read.
Qed.

(** The loop goes on with the unpacker that was fed [ws]. *)
Lemma reading_later es0 es u ws u1 reads r : fed u ws u1 -> reading_ok (es0 ++ es) u1 reads r -> reading_ok es0 u (map inr ws ++ reads) r.
Proof.
  intros Hf. destruct r as [u' c'|u' c'|what]; cbn.
  - intros (es' & H & Hr). exists (es ++ es'). by rewrite (assoc_L (++)).
  - intros ((es' & H) & Hr). split; [|done]. exists (es ++ es'). by rewrite (assoc_L (++)).
  - intros (ws' & rest & u' & -> & H & E). exists (ws ++ ws'), rest, u'. split_and!; [by rewrite map_app, (assoc_L (++))|by eapply fed_trans|done].
Qed.

Lemma rpc_fail_ok es0 u reads e c : client_runs pack true es0 c -> reading_fiber_ c = true -> reading_ok es0 u reads (Rpc.rpc_fail e c).
Proof.
  intros Hc Hr. split; [|by repeat split]. exists [Got_read_error e]. eapply client_steps; [exact Hc|]. cbn. by rewrite Hr.
Qed.

(** Every end of the loop is a run of the client's reading steps, or the library
    has thrown. *)
Lemma rpc_loop_runs fuel reads u c r es0 :
  client_runs pack true es0 c -> reading_fiber_ c = true -> Rpc.handle_read fuel reads u c = Some r -> reading_ok es0 u reads r.
Proof.
  revert reads u c es0. induction fuel as [|fuel IH]; intros reads u c es0 Hc Hr E; [done|]. cbn [Rpc.handle_read] in E.
  assert (forall u' c' es, client_runs pack true (es0 ++ es) c' -> reading_fiber_ c' = true -> fed u [] u' ->
    match reads with
    | [] => Some (Rpc.Reading u' c')
    | inl ec :: _ => Some (Rpc.rpc_fail ec c')
    | inr w :: reads =>
        if Rpc.message_size (Rpc.buffer_consumed w u') >? Rpc.RPC_MAX
        then Some (Rpc.rpc_fail Rpc.SERVER_RSP_TOO_LARGE_ERR c')
        else Rpc.handle_read fuel reads (Rpc.buffer_consumed w u') c'
    end = Some r -> reading_ok es0 u reads r) as Hread.
  { intros u' c' es H1 H2 Hf E'. destruct reads as [|[ec|w] reads].
    - injection E' as <-. by exists es.
    - injection E' as <-. apply (reading_later es0 es u [] u'); [done|by apply rpc_fail_ok].
    - apply (reading_later es0 es u [w] (Rpc.buffer_consumed w u') reads); [by apply (fed_read u [])|].
      destruct (_ >? _); [injection E' as <-; by apply rpc_fail_ok|by apply (IH _ _ _ _ H1 H2 E')]. }
  destruct (Rpc.execute u) as [what|[[msg|] u1]] eqn:Ex.
  - injection E as <-. exists [], reads, u. split_and!; [done|constructor|done].
  - assert (fed u [] u1) as Hf by (eapply fed_execute; [constructor|exact Ex]). destruct (Rpc.decode msg) as [what|[[msgid rsp] ret]].
    + injection E as <-. by apply rpc_fail_ok.
    + set (c1 := set_response msgid rsp ret false c) in *.
      assert (client_runs pack true (es0 ++ [Got_response msgid rsp ret]) c1) as H1
        by (eapply client_steps; [exact Hc|]; cbn; by rewrite Hr).
      destruct (_ >? 0); [|by apply (Hread u1 c1 _ H1 Hr)].
      apply (reading_later es0 [Got_response msgid rsp ret] u [] u1); [done|by apply (IH _ _ _ _ H1 Hr E)].
  - apply (Hread u1 c []); [by rewrite app_nil_r|done|eapply fed_execute; [constructor|exact Ex]|done].
Qed.

End RpcLoop.

(** C36: the reading loop of the RPC client terminates and refines the steps.
    On any sequence of reads [handle_read] waits for the next read, returns, or
    lets an exception of the library leave its fiber.  Where it waits or has
    returned, the client is in a state its abstract steps can reach, so its
    results are explained; when it has returned, no call is left waiting, the
    connection is closed and the unpacker is a new one.  An exception leaves the
    fiber, and ends the process, only when [execute] throws on the bytes that have
    been read. *)
Theorem rpc_reading_refines_steps {msgpack : Rpc.Msgpack} {laws : MsgpackBuffer msgpack} pack reads u c es0 :
  client_runs pack true es0 c -> reading_fiber_ c = true ->
  exists r, Rpc.handle_read (S (Z.to_nat (Rpc.nonparsed_size u) + read_cost reads)) reads u c = Some r
  /\ match r with
     | Rpc.Reading _ c' => exists es, client_runs pack true (es0 ++ es) c' /\ reading_fiber_ c' = true
     | Rpc.Returned u' c' => (exists es, client_runs pack true (es0 ++ es) c') /\ u' = Rpc.new_unpacker
         /\ future_list_ c' = ∅ /\ reading_fiber_ c' = false /\ ss_open (session_ c') = false
     | Rpc.Terminated what => exists ws rest u', reads = map inr ws ++ rest /\ fed u ws u' /\ Rpc.execute u' = inl what
     end.
Proof.
  intros Hc Hr. destruct (rpc_loop_returns _ reads u c (Nat.lt_succ_diag_r _)) as (r & E).
  exists r. split; [done|]. exact (rpc_loop_runs pack _ _ _ _ _ _ Hc Hr E).
Qed.

(** ** Sessions *)

(** A session delivers or closes.  Whatever happens to the connection and
    the write, [send_data] returns [true] after it has written exactly the
    request on an open socket, and otherwise has written nothing and closed
    the socket, so that the next call connects again. *)
Theorem send_data_delivers_or_closes cr wr reqdata s ret s' :
  send_data cr wr reqdata s = Some (ret, s') ->
  ss_connecting s' = false
  /\ if (ret : bool) then ss_open s' = true /\ ss_sent s' = ss_sent s ++ [reqdata]
     else ss_open s' = false /\ ss_sent s' = ss_sent s.
Proof.
  destruct s as [o cn ct rt sent]. unfold send_data. cbn [ss_connecting ss_open].
  destruct cn; [done|]. destruct o; cbn [negb].
  - intros [= E]. destruct wr; cbn in E; injection E as <- <-; by repeat split.
  - destruct cr as [|ec o]; [intros [= <- <-]; by repeat split|].
    destruct ec, o; cbn; intros E; apply (inj Some) in E; try (destruct wr; cbn in E);
      injection E as <- <-; by repeat split.
Qed.

(** The raw client keeps a dead socket.  After a read error the session
    of a raw client is as open as before, so the next request is written to
    the same connection without a new one; an RPC client connects again. *)
Theorem raw_client_keeps_dead_socket pack closes e c c' cr wr reqdata :
  client_step pack closes (Got_read_error e) c = Some c' ->
  ss_open (session_ c) = true -> ss_connecting (session_ c) = false ->
  send_data cr wr reqdata (session_ c')
  = if closes then let (ec, s) := async_connect cr (session_ c') in
                   Some (if ec then (false, s) else async_write wr reqdata s)
    else Some (async_write wr reqdata (session_ c)).
Proof.
  cbn [client_step]. destruct (reading_fiber_ c); [|done]. intros [= <-] Ho Hc.
  unfold read_failed, set_all_error. cbn [session_].
  destruct (session_ c) as [o cn ct rt sent]. cbn in Ho, Hc. subst. by destruct closes.
Qed.

(** ** Witnesses *)

(** Two calls, a response to the second, a response with a number that nobody
    waits for, and a read error. *)
Definition sample_events : list client_event :=
  [Send_begin (b "/p") (b "one") 500; Send_begin (b "/p") (b "two") 500;
   Send_end 0 (Connected false true) Written; Send_end 0 Connect_throws Written;
   Got_response 2 (b "second") true; Got_response 9 (b "lost") true].
Definition sample_client (n : nat) : client :=
  foldl (fun c e => match client_step Raw.packed_senddata false e c with Some c => c | None => c end)
    new_client (take n sample_events).

Lemma run_events pack closes es : forall c,
  foldl (fun c e => c ≫= client_step pack closes e) (Some new_client) es = Some c -> client_runs pack closes es c.
Proof.
  induction es as [|e es IH] using rev_ind; intros c; [intros [= <-]; constructor|].
  rewrite foldl_app. cbn. destruct (foldl _ _ es) as [c0|] eqn:E; [|done]. cbn.
  intros Hs. eapply client_steps; [by apply IH|exact Hs].
Qed.

Lemma sample_runs : client_runs Raw.packed_senddata false sample_events (sample_client 6).
Proof. apply run_events. vm_compute. reflexivity. Qed.

Lemma results_explained_witness :
  exists f, futures (sample_client 6) !! 1%nat = Some f /\ done_ f = true
    /\ explained Raw.packed_senddata false sample_events 1 f
    /\ getRsp f = (true, b "second", false).
Proof.
  assert (exists f, futures (sample_client 6) !! 1%nat = Some f) as [f Hf] by (vm_compute; by eexists).
  exists f. destruct (results_explained Raw.packed_senddata false sample_events (sample_client 6) 1 f sample_runs Hf)
    as [[Hd _]|(Hd & He & Hg & _)].
  - exfalso. vm_compute in Hf. injection Hf as <-. discriminate Hd.
  - split_and!; [exact Hf|exact Hd|exact He|]. rewrite Hg. vm_compute in Hf. by injection Hf as <-.
Defined.

Lemma read_error_fails_all_waiting_witness :
  exists c', client_step Raw.packed_senddata false (Got_read_error (b "reset")) (sample_client 6) = Some c'
    /\ future_list_ c' = ∅
    /\ exists f', futures c' !! 0%nat = Some f' /\ getRsp f' = (false, b "reset", true).
Proof.
  eexists. split; [vm_compute; reflexivity|].
  edestruct (read_error_fails_all_waiting Raw.packed_senddata false sample_events (sample_client 6) (b "reset"))
    as (He & _ & Hf); [apply sample_runs|vm_compute; reflexivity|].
  split; [exact He|]. edestruct (Hf 0%nat) as [H _]; [vm_compute; reflexivity|]. apply H. vm_compute. reflexivity.
Defined.

(** The answers come back in the wrong order. *)
Lemma raw_responses_reach_their_requests_witness :
  let reply d := d ++ b "!" in
  let rs := [(2, b "two!"); (1, b "one!")] in
  exists c, send_all Raw.packed_senddata false (b "/p") 500 [b "one"; b "two"] new_client = Some c
    /\ exists c', Raw.handle_read (S (length (RawSpec.frames rs))) (b "eof") (RawSpec.frames rs) c = Some c'
    /\ future_list_ c' = ∅
    /\ exists f, futures c' !! 0%nat = Some f /\ getRsp f = (true, b "one!", false).
Proof.
  cbv zeta. destruct (raw_responses_reach_their_requests (b "/p") 500 [b "one"; b "two"] (fun d => d ++ b "!")
    [(2, b "two!"); (1, b "one!")] (b "eof")) as (c & Ec & _ & c' & E & El & Hf).
  - vm_compute. reflexivity.
  - repeat constructor; vm_compute; reflexivity.
  - repeat constructor; vm_compute; reflexivity.
  - change (replies (fun d => d ++ b "!") [b "one"; b "two"]) with [(1, b "one!"); (2, b "two!")].
    apply perm_swap.
  - exists c. split; [exact Ec|]. exists c'. split; [exact E|]. split; [exact El|].
    apply (Hf 0%nat (b "one")). reflexivity.
Defined.

(** A format in which every byte is a complete response, but for the one that
    begins no MessagePack object. *)
Definition byte_msgpack : Rpc.Msgpack := {|
  Rpc.unpacker := bytes; Rpc.object := ascii; Rpc.new_unpacker := [];
  Rpc.execute u :=
    match u with [] => inr (None, []) | o :: u => if uc o =? 193 then inl (b "parse error") else inr (Some o, u) end;
  Rpc.nonparsed_size u := Z.of_nat (length u);
  Rpc.message_size u := Z.of_nat (length u);
  Rpc.buffer_consumed w u := u ++ w;
  Rpc.convert_response o := inr (uc o, None, o);
  Rpc.convert_string o := inr [o];
  Rpc.pack_object o := [o];
  Rpc.pack_request _ _ d := d
|}.

Lemma byte_msgpack_buffer : MsgpackBuffer byte_msgpack.
Proof.
  split; cbn.
  - intros u. lia.
  - intros [|o' u] o u'; [done|]. destruct (_ =? _); [done|]. intros [= _ <-]. cbn. lia.
  - intros [|o u] u'; [by intros [= <-]|]. by destruct (_ =? _).
  - intros w u. rewrite length_app. lia.
Qed.

(** The client of the sample whose second call waits. *)
Definition rpc_client : client :=
  mk_client 2 (future_list_ (sample_client 4)) (futures (sample_client 4)) [] true (session_ (sample_client 4)).

Lemma rpc_reading_refines_steps_witness :
  exists u' c', @Rpc.handle_read byte_msgpack 6 [inr [of_code 2; of_code 7]; inl (b "reset")] [] rpc_client = Some (Rpc.Returned u' c')
  /\ (exists es, client_runs Raw.packed_senddata true (take 4 sample_events ++ es) c') /\ u' = []
  /\ future_list_ c' = ∅ /\ reading_fiber_ c' = false /\ ss_open (session_ c') = false.
Proof.
  assert (client_runs Raw.packed_senddata true (take 4 sample_events) (sample_client 4)) as Hr
    by (apply run_events; vm_compute; reflexivity).
  destruct (@rpc_reading_refines_steps byte_msgpack byte_msgpack_buffer Raw.packed_senddata
           [inr [of_code 2; of_code 7]; inl (b "reset")] [] (sample_client 4) (take 4 sample_events) Hr ltac:(vm_compute; reflexivity)) as ([u' c'|u' c'|what] & E & H).
  - vm_compute in E. discriminate E.
  - exists u', c'. split; [exact E|exact H].
  - vm_compute in E. discriminate E.
Defined.

(** A byte that begins no object ends the process: neither the calls that wait
    nor anything else goes on. *)
Example malformed_response_terminates :
  @Rpc.handle_read byte_msgpack 6 [inr [of_code 193]] [] rpc_client = Some (Rpc.Terminated (b "parse error")).
Proof. vm_compute. reflexivity. Qed.

Lemma send_data_delivers_or_closes_witness :
  exists s', send_data (Connected false true) Write_failed (b "x") new_session = Some (false, s')
    /\ ss_open s' = false /\ ss_sent s' = [].
Proof.
  eexists. split; [vm_compute; reflexivity|].
  eapply (send_data_delivers_or_closes (Connected false true) Write_failed (b "x") new_session false).
  vm_compute. reflexivity.
Defined.

Lemma raw_client_keeps_dead_socket_witness :
  exists c', client_step Raw.packed_senddata false (Got_read_error (b "reset")) (sample_client 6) = Some c'
    /\ send_data (Connected false true) Written (b "x") (session_ c')
       = Some (async_write Written (b "x") (session_ (sample_client 6))).
Proof.
  eexists. split; [vm_compute; reflexivity|].
  refine (raw_client_keeps_dead_socket Raw.packed_senddata false (b "reset") (sample_client 6) _ _ _ _ _ _ _);
    vm_compute; reflexivity.
Defined.
