(* ===== verification/HttpResponseTrip.v ===== *)
(** * From the server's printer to the client's parser

    The response that [HttpConnection::write_rsp] prints is parsed back by
    [response::parser_impl], whatever the cuts of the network. *)

From stdpp Require Import options.
From S2P Require Import Prelude Boost HttpTypes HttpUrl HttpExecute HttpLogic HttpInvariant HttpSafety.
From S2P Require Import HttpSplit HttpCallbacks HttpBytes HttpProtocol HttpRoundTrip.

(** ** The bytes of a response *)

(** The headers [write_rsp] adds to a response without headers. *)
Definition server_headers (keep_alive : bool) : headers_t :=
  [(b "ContentType", b "application/json")]
  ++ (if keep_alive then [(b "Connection", b "keep-alive"); (b "Keep-Alive", b "timeout=100")]
      else [(b "Connection", b "close")]).

(** A successful response as [write_rsp] leaves it. *)
Definition server_response (mj mn : Z) (keep_alive rs_keep : bool) (body : bytes) : response_t :=
  mk_response mj mn OK [] (server_headers keep_alive) rs_keep body.

Definition connection_value (keep_alive : bool) : bytes := if keep_alive then b "keep-alive" else b "close".
Definition extra_headers (keep_alive : bool) : headers_t :=
  if keep_alive then [(b "Keep-Alive", b "timeout=100")] else [].
Definition server_header : header_t := (b "Server", SERVER_NAME).

(** The blocks in which the parser reads the header. *)
Definition response_head (keep_alive : bool) (n : Z) : bytes :=
  status_line_200
  ++ mjoin (map print_header [(b "ContentType", b "application/json")])
  ++ (b "Connection: " ++ connection_value keep_alive ++ CRLF)
  ++ mjoin (map print_header (extra_headers keep_alive ++ [server_header]))
  ++ length_line n ++ [CR].

(** [sprintf] has room for nine digits. *)
Definition printable_size (body : bytes) : Prop := Z.of_nat (length body) < 10 ^ 9.

Lemma digits_lower v w : Forall (fun c => is_digit c = true) w -> 0 <= v ->
  v * 10 ^ Z.of_nat (length w) <= digits_value v w.
Proof.
  revert v. induction w as [|c w IH]; intros v Hw Hv; [cbn; lia|].
  apply Forall_cons in Hw as [Hc Hw]. destruct (is_digit_facts c Hc) as (_ & _ & _ & _ & _ & _ & Hd).
  rewrite digits_value_cons. specialize (IH (v * 10 + digit_value c) Hw ltac:(lia)).
  cbn [length]. rewrite Nat2Z.inj_succ, Z.pow_succ_r by lia. nia.
Qed.

Lemma dec_length n k : 0 <= n < 10 ^ k -> 1 <= k -> Z.of_nat (length (dec n)) <= k.
Proof.
  intros Hn Hk. destruct (decide (n = 0)) as [->|Hne]; [change (length (dec 0)) with 1%nat; lia|].
  destruct (dec_ok n ltac:(lia)) as (_ & Hd & Hv). destruct (dec_head n ltac:(lia)) as (c & w & E & Hc).
  rewrite E in *. apply Forall_cons in Hd as [Hdc Hd]. rewrite digits_value_cons, Z.add_0_l in Hv.
  pose proof (digits_lower (digit_value c) w Hd ltac:(lia)) as Hl. rewrite Hv in Hl.
  cbn [length]. destruct (decide (Z.of_nat (length w) < k)); [lia|exfalso].
  assert (10 ^ k <= 10 ^ Z.of_nat (length w)) by (apply Z.pow_le_mono_r; lia). nia.
Qed.

Lemma dec_short n : 0 <= n < 10 ^ 9 -> (length (dec n) < 10)%nat.
Proof. intros Hn. pose proof (dec_length n 9 Hn ltac:(lia)). lia. Qed.

Section Print.
Context {boost : BoostStrings}.

Lemma print_server_response mj mn keep_alive k body :
  printable_size body ->
  print_response (server_response mj mn keep_alive k body)
  = Some (response_head keep_alive (Z.of_nat (length body)) ++ [LF] ++ body).
Proof.
  intros Hb. unfold print_response. cbn [rs_body server_response rs_headers rs_status_message rs_code].
  pose proof (dec_short (Z.of_nat (length body)) ltac:(unfold printable_size in Hb; lia)) as Hd.
  destruct (Nat.ltb_spec (length (dec (Z.of_nat (length body)))) 10) as [_|]; [|lia].
  assert (found_headers (server_headers keep_alive) = (false, false)) as ->.
  { unfold found_headers, server_headers. destruct keep_alive; cbn [foldl app fst];
      rewrite !iequals_false by (vm_compute; discriminate); done. }
  f_equal. unfold response_head, status_line_200, length_line, server_headers, connection_value, extra_headers.
  unfold server_header, print_header. destruct keep_alive; cbn; rewrite ?app_nil_r;
    repeat (f_equal; rewrite <- ?(assoc_L (++)); cbn).
Qed.
End Print.

(** ** Feeding it *)

Section Feed.
Context {D : Type} (settings : http_parser_settings D) `{!Collecting settings}.
Set Default Proof Using "Type*".

Definition deliver_head (keep_alive : bool) (n : Z) (d : D) : D :=
  let d := on_data FOR_status [SP] (on_begin d) in
  let d := foldl (deliver settings) d [(b "ContentType", b "application/json")] in
  let d := deliver settings d (b "Connection", connection_value keep_alive) in
  let d := foldl (deliver settings) d (extra_headers keep_alive ++ [server_header]) in
  deliver settings d (b "Content-Length", dec n).

Lemma plain_headers_ok keep_alive :
  Forall header_ok [(b "ContentType", b "application/json")]
  /\ Forall header_ok (extra_headers keep_alive ++ [server_header]).
Proof.
  destruct keep_alive; split; cbn [extra_headers app]; 
  repeat (apply Forall_cons; split); try apply Forall_nil; try done;
    (split; [split; [discriminate|by repeat constructor]|reflexivity|split; [by repeat constructor|done]]).
Qed.

Lemma feed_response fl hs0 idx cl mj0 mn0 sc_ me d keep_alive body :
  (me =e HTTP_CONNECT) = false -> printable_size body ->
  exists w c p1 d1 h i st v,
    response_head keep_alive (Z.of_nat (length body)) ++ [LF] ++ body = w ++ [c]
    /\ feed settings (header_parser HTTP_RESPONSE fl s_start_res hs0 idx 0 cl mj0 mn0 sc_ me) d w = Some (p1, d1)
    /\ d1 = deliver_body settings v (deliver_head keep_alive (Z.of_nat (length body)) d)
    /\ http_parser_execute settings p1 d1 [c]
       = (let r := complete settings (completed HTTP_RESPONSE (keep_alive_flags keep_alive) h i 1 1 200 me st)
                    (deliver_body settings body (deliver_head keep_alive (Z.of_nat (length body)) d)) in
          Some (1%nat, fst r, snd r)).
Proof.
  intros Hme Hb. unfold printable_size in Hb. set (n := Z.of_nat (length body)) in *.
  pose proof (dec_short n ltac:(lia)) as Hdec.
  assert (fits 0 (status_line_200 ++ mjoin (map print_header [(b "ContentType", b "application/json")])
            ++ (b "Connection: " ++ connection_value keep_alive ++ CRLF)
            ++ mjoin (map print_header (extra_headers keep_alive ++ [server_header]))
            ++ length_line n ++ CRLF)) as Hf.
  { unfold fits. split; [done|]. change HTTP_MAX_HEADER_SIZE with 81920.
    destruct keep_alive; cbn -[dec Z.of_nat]; rewrite ?length_app; cbn -[dec Z.of_nat]; lia. }
  destruct (plain_headers_ok keep_alive) as [Hok1 Hok2].
  assert (connection_word (connection_value keep_alive)
            (if keep_alive then F_CONNECTION_KEEP_ALIVE else F_CONNECTION_CLOSE)) as Hword
    by (destruct keep_alive; [apply connection_word_lower_keep_alive|apply connection_word_close]).
  apply fits_app in Hf as [Hf0 Hf]. apply fits_app in Hf as [Hf1 Hf]. apply fits_app in Hf as [Hf2 Hf].
  apply fits_app in Hf as [Hf3 Hf]. apply fits_app in Hf as [Hf4 Hf5].
  change (0 + Z.of_nat (length status_line_200)) with 16 in *.
  set (d0 := on_data FOR_status [SP] (on_begin d)).
  destruct (feed_headers settings HTTP_RESPONSE 0 ULLONG_MAX 1 1 200 me _ 16 d0 _ _ Hok1
              (line_first settings _ _ _ _ _ _ _ _ _ hs0 0) Hf1) as (p1 & d1 & E1 & Hl1).
  destruct (feed_connection_value settings _ _ _ _ _ _ _ _ _ p1 d1 _ _ Hl1 Hword Hf2) as (p2 & d2 & E2 & Hl2).
  destruct (feed_headers settings _ _ _ _ _ _ _ _ _ _ p2 d2 Hok2 Hl2 Hf3) as (p3 & d3 & E3 & Hl3).
  destruct (feed_length_line settings _ _ _ _ _ _ _ _ _ p3 d3 n Hl3 ltac:(consts; lia) Hf4) as (p4 & d4 & E4 & Hl4).
  apply fits_cons in Hf5 as [Hn5 Hf6]. apply fits_cons in Hf6 as [Hn6 _].
  destruct (byte_line_end settings _ _ _ _ _ _ _ _ _ p4 d4 Hl4 Hn5) as (h & i & E5).
  set (dh := on_data FOR_header_value (dec n) _) in E5.
  assert (wrap 6 (Z.lor 0 (if keep_alive then F_CONNECTION_KEEP_ALIVE else F_CONNECTION_CLOSE))
          = keep_alive_flags keep_alive) as Hfl by by destruct keep_alive.
  rewrite Hfl in E5.
  destruct (finish_message settings HTTP_RESPONSE (keep_alive_flags keep_alive) h i _ 1 1 200 me dh body
              Hn6 (keep_alive_flags_ok _) Hme ltac:(consts; lia)) as (w & c & p6 & d6 & st & Ew & Ef & Ex & v & Ev).
  exists (response_head keep_alive n ++ w), c, p6, d6, h, i, st, v. split_and!.
  - by rewrite Ew, (assoc_L (++)).
  - eapply feed_step; [|exact Ef]. unfold response_head.
    eapply feed_step; [apply (feed_status_line settings)|].
    eapply feed_step; [exact E1|]. eapply feed_step; [exact E2|]. eapply feed_step; [exact E3|].
    eapply feed_step; [exact E4|]. cbn [HttpSplit.feed]. by rewrite E5.
  - exact Ev.
  - exact Ex.
Qed.
End Feed.

(** ** What the client's parser builds *)

Abbreviation settings := Response.settings_.

#[export] Instance response_collecting : Collecting settings.
Proof.
  refine {| collecting_streaming := Response.settings_streaming; on_begin := fmap Response.on_msg_begin |}.
  - by eexists; split; [reflexivity|]; intros p [i|].
  - by eexists; split; [reflexivity|]; intros p [i|].
Defined.

(** The response the client receives. *)
Definition received_response (keep_alive : bool) (body : bytes) : response_t :=
  mk_response 1 1 OK [SP]
    (server_headers keep_alive ++ [server_header; (b "Content-Length", dec (Z.of_nat (length body)))])
    keep_alive body.

Lemma delivered_response keep_alive body v (i : Response.parser_impl) :
  exists st, deliver_body settings v (deliver_head settings keep_alive (Z.of_nat (length body)) (Some i))
    = Some (Response.mk_impl (rs_with_body v (rs_with_headers (rs_headers (received_response keep_alive body))
              (rs_with_status [SP] response_clear))) st (Response.i_should_continue i)).
Proof.
  unfold deliver_body, deliver_head.
  destruct keep_alive; cbn -[dec]; destruct v as [|c v]; eexists; reflexivity.
Qed.

(** A parser that has stopped stays so. *)
Definition stopped (d : option Response.parser_impl) : Prop :=
  match d with Some i => Response.i_should_continue i = false | None => True end.

Lemma callbacks_stopped : callbacks_keep settings stopped.
Proof.
  split.
  - intros k cb p w d code paused d' Hk. rewrite data_cb_streams in Hk. injection Hk as <-.
    intros [= <- <- <-] Hi _. destruct d as [i|]; [|by destruct k]. destruct k; cbn in *; try done.
    + unfold Response.on_header_field. by destruct (add_header_field _ _ _).
    + unfold Response.on_header_value. by destruct (add_header_value _ _ _).
  - intros k cb p d code paused d' Hk E Hi ->. destruct k; injection Hk as <-;
      unfold Response.notify_callback in E; destruct d as [i|]; cbn in E; by simplify_eq.
  - intros cb p d code paused d' Hk E Hi. injection Hk as <-.
    unfold Response.notify_callback in E; destruct d as [i|]; cbn in E; by simplify_eq.
Qed.

Lemma feed_stopped p d w p' d' : feed settings p d w = Some (p', d') -> stopped d -> stopped d'.
Proof.
  revert p d. induction w as [|c w IH]; intros p d Hf Hs; cbn in Hf; [by simplify_eq|].
  destruct (byte settings p d c) as [[p1 d1]|] eqn:E; [|done].
  apply byte_inv in E as (E & Hok & _). eapply IH; [exact Hf|].
  by eapply (execute_keeps settings _ callbacks_stopped).
Qed.

Lemma response_pieces xs p d w c p1 d1 p2 i2 :
  parser_inv p -> feed settings p d w = Some (p1, d1) -> ~ stopped d1 ->
  http_parser_execute settings p1 d1 [c] = Some (1%nat, p2, Some i2) ->
  syntax_error (p_http_errno p2) = false -> Response.i_should_continue i2 = false ->
  Forall (fun x => x <> []) xs -> concat xs = w ++ [c] ->
  Response.parse_loop p d (map Response.Read xs)
  = Some (Some true, if rs_keep_alive (Response.i_resp i2) then p2 else http_parser_init HTTP_RESPONSE,
          Some i2, []).
Proof.
  revert p d w. induction xs as [|x xs IH]; intros p d w Hp Hf Hd1 Hx Hs Hi2 Hne Hc.
  { by destruct w. }
  apply Forall_cons in Hne as [Hx0 Hne]. cbn [concat] in Hc. cbn [map Response.parse_loop].
  destruct xs as [|y xs].
  - cbn in Hc. rewrite app_nil_r in Hc. subst x.
    destruct (feed_execute settings p d w p1 d1 [c] 1 p2 (Some i2) Hp Hf ltac:(done) Hx) as (i2' & E & Hd).
    rewrite (Hd Hs) in E. rewrite E. cbn [mbind option_bind].
    replace (length (w ++ [c]) =? 0)%nat with false by (symmetry; rewrite length_app; apply Nat.eqb_neq; cbn; lia).
    by rewrite Hi2.
  - assert (concat (y :: xs) <> []) as Hy by (apply Forall_cons in Hne as [? _]; cbn; by destruct y).
    assert (exists z, w = x ++ z /\ concat (y :: xs) = z ++ [c]) as (z & -> & Ez).
    { destruct (concat (y :: xs)) as [|c0 q _] using rev_ind; [done|]. exists q.
      rewrite (assoc_L (++)) in Hc. apply app_inj_tail in Hc as [-> ->]. done. }
    rewrite feed_app in Hf. destruct (feed settings p d x) as [[p0 d0]|] eqn:E0; [|done].
    cbn in Hf. destruct (feed_call settings p d x p0 d0 Hp Hx0 E0) as (Ex & Hok & Hup).
    rewrite Ex. cbn [mbind option_bind].
    replace (length x =? 0)%nat with false by (symmetry; by destruct x).
    assert (match d0 with Some i => Response.i_should_continue i | None => true end = true) as ->.
    { destruct d0 as [i0|]; [|done]. destruct (Response.i_should_continue i0) eqn:Ei; [done|].
      exfalso. apply Hd1. by eapply feed_stopped. }
    cbn [negb]. rewrite Nat.eqb_refl. cbn [negb].
    apply (IH p0 d0 z); try done. by eapply execute_inv.
Qed.

(** ** The trip *)

(** A parser that waits for the first byte of a response. *)
Definition idle_response (p : http_parser) : Prop :=
  exists fl hs idx cl mj mn sc_ me, (me =e HTTP_CONNECT) = false
    /\ p = header_parser HTTP_RESPONSE fl s_start_res hs idx 0 cl mj mn sc_ me.

Lemma idle_response_init : idle_response (http_parser_init HTTP_RESPONSE).
Proof. by exists 0, h_general, 0, 0, 0, 0, 0, HTTP_DELETE. Qed.

Lemma response_keep_alive keep_alive h i me st :
  http_should_keep_alive (completed HTTP_RESPONSE (keep_alive_flags keep_alive) h i 1 1 200 me st) = keep_alive.
Proof. unfold http_should_keep_alive, completed, body_parser. by destruct keep_alive. Qed.

(** The bytes of [write_rsp], cut anywhere, are one response for the client,
    whose parser is ready for the next one. *)
Lemma response_trip {boost : BoostStrings} mj mn keep_alive k body w xs p resp :
  printable_size body -> print_response (server_response mj mn keep_alive k body) = Some w ->
  idle_response p -> parser_inv p -> Forall (fun x => x <> []) xs -> concat xs = w ->
  exists p' st, Response.parse p resp (map Response.Read xs)
    = Some (Some true, p', Some (Response.mk_impl (received_response keep_alive body) st false), [])
  /\ idle_response p' /\ parser_inv p'.
Proof.
  intros Hb Hw (fl & hs0 & idx & cl & mj0 & mn0 & sc_ & me & Hme & ->) Hinv Hne Hc.
  rewrite print_server_response in Hw by done. injection Hw as <-.
  set (i0 := Response.mk_impl resp st_none true).
  destruct (feed_response settings fl hs0 idx cl mj0 mn0 sc_ me (Some i0) keep_alive body Hme Hb)
    as (w & c & p1 & d1 & h & i & st & v & Ew & Ef & Ed & Ex).
  destruct (delivered_response keep_alive body v i0) as (st1 & E1). rewrite E1 in Ed.
  destruct (delivered_response keep_alive body body i0) as (st2 & E2). rewrite E2 in Ex. cbn zeta in Ex.
  unfold complete in Ex. cbn [on_message_complete Response.settings_] in Ex.
  unfold Response.notify_callback in Ex. cbn [fmap option_fmap option_map] in Ex.
  unfold after_cb in Ex. rewrite Z.eqb_refl in Ex. cbn [fst snd] in Ex.
  set (p2 := set_state _ _) in Ex.
  match type of Ex with _ = Some (_, _, Some ?i3) => set (i2 := i3) in Ex end.
  assert (Response.i_resp i2 = received_response keep_alive body) as Hresp.
  { unfold i2, Response.on_msg_complete. cbn [Response.i_resp rs_with_body rs_with_headers rs_with_status].
    change (http_should_keep_alive p2) with
      (http_should_keep_alive (completed HTTP_RESPONSE (keep_alive_flags keep_alive) h i 1 1 200 me st)).
    by rewrite response_keep_alive. }
  exists (if keep_alive then p2 else http_parser_init HTTP_RESPONSE), st_end. split.
  - unfold Response.parse. fold i0. subst d1.
    rewrite (response_pieces xs _ (Some i0) w c p1 _ p2 i2 Hinv Ef); [|done|exact Ex|done|done|done|etransitivity; [exact Hc|exact Ew]].
    rewrite Hresp. cbn [rs_keep_alive received_response].
    rewrite <- Hresp. done.
  - destruct keep_alive; [|split; [apply idle_response_init|apply init_inv]]. split.
    + unfold p2, NEW_MESSAGE, start_state. rewrite response_keep_alive.
      by exists (keep_alive_flags true), h, i, 0, 1, 1, 200, me.
    + eapply execute_inv; [|exact Ex]. by eapply feed_inv.
Qed.

(** C9: every successful response of the server arrives.  The bytes that
    [write_rsp] prints, cut by the network into any non-empty pieces, are
    parsed by a client's idle parser as one response with status 200, the
    server's headers and the body; no byte is left unread and the parser is
    idle again. *)
Theorem response_round_trip {boost : BoostStrings} mj mn keep_alive k body w xs p resp :
  printable_size body -> print_response (server_response mj mn keep_alive k body) = Some w ->
  idle_response p -> parser_inv p -> Forall (fun x => x <> []) xs -> concat xs = w ->
  exists p' st, Response.parse p resp (map Response.Read xs)
    = Some (Some true, p', Some (Response.mk_impl (received_response keep_alive body) st false), [])
  /\ idle_response p' /\ parser_inv p'.
Proof. apply response_trip. Qed.

Definition example_response : bytes :=
  match @print_response reference_strings (server_response 1 0 true false (b "hello")) with
  | Some w => w
  | None => []
  end.

Lemma response_round_trip_witness :
  exists p' st, Response.parse (http_parser_init HTTP_RESPONSE) response_clear
      (map Response.Read [take 25 example_response; drop 25 example_response])
    = Some (Some true, p', Some (Response.mk_impl (received_response true (b "hello")) st false), [])
  /\ idle_response p' /\ parser_inv p'.
Proof.
  apply (@response_round_trip reference_strings 1 0 true false (b "hello") example_response).
  - vm_compute. reflexivity.
  - vm_compute. reflexivity.
  - apply idle_response_init.
  - apply init_inv.
  - repeat constructor; vm_compute; discriminate.
  - reflexivity.
Defined.
