(* ===== verification/FibpHttpClient.v ===== *)
(** * [FibpHttpClient]: one HTTP call at a time

    The request a call sends for a path with a query, the classification of
    its response, and the whole call against an HTTP connection of the
    server. *)

From stdpp Require Import options.
From S2P Require Import Prelude HttpTypes HttpExecute HttpProtocol FibpClient.

Record http_client := mk_http_client {
  hc_host : bytes;
  hc_port : bytes;
  hc_session : ClientSession;
  hc_parser : http_parser;
  hc_next_rsp : response_t;
  hc_can_retry : bool
}.

Definition new_http_client (host port : bytes) : http_client :=
  mk_http_client host port new_session (http_parser_init HTTP_RESPONSE) response_clear true.

Definition hc_with_session (s : ClientSession) (c : http_client) : http_client :=
  mk_http_client (hc_host c) (hc_port c) s (hc_parser c) (hc_next_rsp c) (hc_can_retry c).

(** [path.find("?")] and the two [substr]. *)
Fixpoint find_char (a : ascii) (s : bytes) : option nat :=
  match s with
  | [] => None
  | c :: s => if (c == a)%byte then Some O else S <$> find_char a s
  end.

Definition split_query (path : bytes) : bytes * bytes :=
  match find_char "?" path with
  | Some pos => (take pos path, drop (pos + 1) path)
  | None => (path, [])
  end.

(** How a call of [send_request] ends: it returns, another fiber is
    connecting, or the printer reads past the table of methods. *)
Inductive send_outcome := Sent (ret : bool) (c : http_client) | Send_waits | Send_undefined.

Definition host_header (c : http_client) : header_t := (b "Host", hc_host c ++ b ":" ++ hc_port c).

Definition send_http_request (http_req : request_t) (timeout_ms : Z) (cr : connect_result)
    (wr : write_result) (c : http_client) : send_outcome :=
  let s := set_timeout (timeout_ms * 2) timeout_ms (hc_session c) in
  let http_req := rq_with_headers (rq_headers http_req ++ [host_header c]) http_req in
  match print_request http_req with
  | None => Send_undefined
  | Some w =>
      match send_data cr wr w s with
      | None => Send_waits
      | Some (ret, s) =>
          Sent ret (mk_http_client (hc_host c) (hc_port c) s (hc_parser c) (hc_next_rsp c) true)
      end
  end.

(** The request of [send_request]: the fields it sets over [request_t()]. *)
Definition call_request (path : bytes) (method : Z) (reqdata : bytes) : request_t :=
  let '(path_without_query, query) := split_query path in
  mk_request (rq_http_major request_init) (rq_http_minor request_init) method [] [] 0
    path_without_query query [] true reqdata.

Definition send_request (path : bytes) (method : Z) (reqdata : bytes) (timeout_ms : Z)
    (cr : connect_result) (wr : write_result) (c : http_client) : send_outcome :=
  send_http_request (call_request path method reqdata) timeout_ms cr wr c.

(** The error code [parse_response] leaves: from the last read it consumed.
    [aborted] says that a failed read was cancelled by the deadline. *)
Inductive error_code := Ec_none | Ec_eof | Ec_aborted | Ec_other.

Definition read_ec (aborted : bool) (e : Response.read_event) : error_code :=
  match e with
  | Response.Read_error => if aborted then Ec_aborted else Ec_other
  | Response.Read [] => Ec_eof
  | Response.Read _ => Ec_none
  end.

Definition parse_ec (aborted : bool) (reads rest : list Response.read_event) : error_code :=
  match last (take (length reads - length rest) reads) with
  | Some e => read_ec aborted e
  | None => Ec_none
  end.

Definition BAD_REQUEST : Z := 400.
Definition NOT_FOUND : Z := 404.

(** What both [get_response] and [get_http_response] do with the response:
    whether the session is closed, whether the call succeeded, and whether a
    failed call may be retried. *)
Definition closes_session (ec : error_code) (rsp : response_t) : bool :=
  negb (rs_keep_alive rsp) || match ec with Ec_eof | Ec_aborted => true | _ => false end.
Definition succeeded (ret : bool) (rsp : response_t) : bool := ret && (rs_code rsp =? OK).
Definition may_retry (rsp : response_t) : bool := negb ((rs_code rsp =? BAD_REQUEST) || (rs_code rsp =? NOT_FOUND)).

(** [get_response]: the value returned, [rsp], the client and the reads left;
    [None] after undefined behaviour of the parser or while it waits. *)
Definition get_response (aborted : bool) (reads : list Response.read_event) (c : http_client)
  : option (bool * bytes * http_client * list Response.read_event) :=
  '(ret, p, i, rest) ← Response.parse (hc_parser c) response_clear reads;
  ret ← ret;
  i ← i;
  let next_rsp := Response.i_resp i in
  let ec := parse_ec aborted reads rest in
  let s := if closes_session ec next_rsp then shutdown true false (hc_session c) else hc_session c in
  Some (if succeeded ret next_rsp
        then (true, rs_body next_rsp, mk_http_client (hc_host c) (hc_port c) s p next_rsp true, rest)
        else (false,
              match ec with Ec_aborted => TIMEOUT_ERR | _ => rs_status_message next_rsp end,
              mk_http_client (hc_host c) (hc_port c) s p next_rsp (may_retry next_rsp), rest)).

(** [get_http_response] gives the whole response instead of its body. *)
Definition get_http_response (aborted : bool) (reads : list Response.read_event) (c : http_client)
  : option (bool * response_t * http_client * list Response.read_event) :=
  '(ret, p, i, rest) ← Response.parse (hc_parser c) response_clear reads;
  ret ← ret;
  i ← i;
  let http_rsp := Response.i_resp i in
  let ec := parse_ec aborted reads rest in
  let s := if closes_session ec http_rsp then shutdown true false (hc_session c) else hc_session c in
  Some (if succeeded ret http_rsp
        then (true, http_rsp, mk_http_client (hc_host c) (hc_port c) s p response_clear true, rest)
        else (false,
              match ec with Ec_aborted => rs_with_status TIMEOUT_ERR http_rsp | _ => http_rsp end,
              mk_http_client (hc_host c) (hc_port c) s p response_clear (may_retry http_rsp), rest)).

(** ** Splitting at the first question mark *)

Lemma find_char_spec a s : match find_char a s with
  | Some pos => exists q, s = take pos s ++ a :: q /\ drop (pos + 1) s = q /\ Forall (fun c => c <> a) (take pos s)
  | None => Forall (fun c => c <> a) s
  end.
Proof.
  induction s as [|c s IH]; [constructor|]. cbn. destruct (c == a)%byte eqn:E.
  - apply Ascii.eqb_eq in E as ->. exists s. cbn. by rewrite drop_0.
  - assert (c <> a) by (intros ->; by rewrite Ascii.eqb_refl in E).
    destruct (find_char a s) as [pos|]; cbn; [|by constructor].
    destruct IH as (q & Hs & Hd & Hf). exists q. by split_and!; [f_equal|..|constructor].
Qed.

(** The two parts of a path without a question mark and a query. *)
Lemma split_query_target path query :
  Forall (fun c => c <> "?"%char) path ->
  split_query (path ++ match query with [] => [] | q => b "?" ++ q end) = (path, query).
Proof.
  intros Hp. unfold split_query.
  assert (forall s, find_char "?" (path ++ "?"%char :: s) = Some (length path)) as Hf.
  { intros s. induction Hp as [|c p Hc _ IH]; [done|]. cbn.
    destruct (c == "?")%byte eqn:E; [by apply Ascii.eqb_eq in E|]. by rewrite IH. }
  destruct query as [|c q].
  - rewrite app_nil_r. pose proof (find_char_spec "?" path) as H.
    destruct (find_char "?" path) as [pos|]; [|done]. destruct H as (q & Hs & _).
    rewrite Hs in Hp. by apply Forall_app in Hp as [_ [Hc _]%Forall_cons].
  - change (b "?" ++ c :: q) with ("?"%char :: c :: q). rewrite Hf. f_equal.
    + by rewrite take_app_length.
    + rewrite drop_app_ge by lia. by replace (length path + 1 - length path)%nat with 1%nat by lia.
Qed.
