(* ===== verification/RequestParser.v ===== *)
(** * [RequestParser]: the call behind a request to the gateway

    A request [/controller/action/service/api?query] becomes a call of [/api]
    with its query to the service.  The JSON form [parse_api_request] is not
    modelled (it reads [izenelib::driver::Value]). *)

From stdpp Require Import options.
From S2P Require Import Prelude Boost HttpProtocol.

(** [struct ServiceCallReq] and the kinds of service. *)
Record ServiceCallReq := mk_call_req {
  service_name : bytes;
  service_api : bytes;
  method : Z;
  service_req_data : bytes;
  service_cluster : bytes;
  service_type : Z;
  enable_cache : bool
}.

Definition HTTP_Service : Z := 0.
Definition RPC_Service : Z := 1.
Definition Raw_Service : Z := 2.
Definition Custom_Service : Z := 3.
Definition End_Service : Z := 4.

Definition new_call_req : ServiceCallReq := mk_call_req [] [] POST [] [] HTTP_Service false.

(** [std::string::substr(pos)] throws past the end. *)
Definition substr (s : bytes) (pos : nat) : option bytes :=
  if (length s <? pos)%nat then None else Some (drop pos s).

Section Parser.
Context {boost : BoostStrings}.

(** [parse_single_api_request]: the value returned and [req_api_list];
    [None] when [substr] throws. *)
Definition parse_single_api_request (method : Z) (raw_req path : bytes)
  : option (bool * list ServiceCallReq) :=
  let temp := trim_if is_slash path in
  let elems := split_compress is_slash temp in
  if (length elems <? 4)%nat then Some (false, [new_call_req])
  else
    let at_ i := nth i elems [] in
    let api_pos := ((length (at_ 0) + 1) + (length (at_ 1) + 1) + length (at_ 2))%nat in
    api ← substr temp api_pos;
    Some (true, [mk_call_req (at_ 2%nat) api method raw_req (service_cluster new_call_req) 0 false]).

End Parser.

(** ** What the parser gives *)

(** A path segment. *)
Definition segment (s : bytes) : Prop := s <> [] /\ no_separator is_slash s.

Section Spec.
Context {boost : BoostStrings}.

Lemma trim_leading (s : bytes) : bare is_slash s -> trim_if is_slash ("/"%char :: s) = s.
Proof.
  intros Hs. rewrite <- (app_nil_r s) at 1. change ("/"%char :: s ++ []) with (["/"%char] ++ s ++ []).
  apply trim_if_spec; [by repeat constructor|constructor|done].
Qed.

Lemma trim_bare (s : bytes) : bare is_slash s -> trim_if is_slash s = s.
Proof.
  intros Hs. rewrite <- (app_nil_r s) at 1. change (s ++ []) with ([] ++ s ++ []).
  apply trim_if_spec; [constructor|constructor|done].
Qed.

Lemma segment_head s : segment s -> exists c s', s = c :: s' /\ is_slash c = false.
Proof. intros [Hne Hf]. destruct s as [|c s]; [done|]. apply Forall_cons in Hf as [Hc _]. by exists c, s. Qed.

Lemma split_segment s (rest : bytes) : segment s -> (forall c, head rest = Some c -> is_slash c = false) ->
  split_compress is_slash (s ++ ["/"%char] ++ rest) = s :: split_compress is_slash rest.
Proof. intros [_ Hs] Hr. apply split_next; [done|by repeat constructor|done|done]. Qed.

Lemma split_nonempty p s : split_compress p s <> [].
Proof.
  rewrite split_reference. generalize (@nil ascii), false. induction s as [|c s IH]; intros cur f; [done|].
  cbn. destruct (p c); [destruct f; [apply IH|done]|apply IH].
Qed.

(** Three segments, then the call: separated by single slashes, with no slash
    at the end. *)
Lemma parse_single_segments m raw_req e0 e1 e2 rest :
  segment e0 -> segment e1 -> segment e2 -> rest <> [] -> bare is_slash rest ->
  parse_single_api_request m raw_req (e0 ++ "/"%char :: e1 ++ "/"%char :: e2 ++ "/"%char :: rest)
  = Some (true, [mk_call_req e2 ("/"%char :: rest) m raw_req [] 0 false]).
Proof.
  intros H0 H1 H2 Hne Hb. unfold parse_single_api_request.
  rewrite trim_bare.
  2:{ destruct (segment_head e0 H0) as (c & s & -> & Hc). split; [by intros ? [= <-]|].
      intros z Hz. destruct Hb as [_ Hl]. apply Hl. rewrite <- Hz.
      destruct rest as [|r0 rest]; [done|].
      change ((c :: s) ++ "/"%char :: e1 ++ "/"%char :: e2 ++ "/"%char :: r0 :: rest)
        with ((c :: s) ++ ["/"%char] ++ e1 ++ ["/"%char] ++ e2 ++ ["/"%char] ++ r0 :: rest).
      rewrite !last_app. by destruct (last (r0 :: rest)) eqn:E; [|apply last_None in E]. }
  change (e0 ++ "/"%char :: e1 ++ "/"%char :: e2 ++ "/"%char :: rest)
    with (e0 ++ ["/"%char] ++ e1 ++ ["/"%char] ++ e2 ++ ["/"%char] ++ rest).
  rewrite split_segment; [|done|by destruct (segment_head e1 H1) as (? & ? & -> & ?); intros ? [= <-]].
  rewrite split_segment; [|done|by destruct (segment_head e2 H2) as (? & ? & -> & ?); intros ? [= <-]].
  rewrite split_segment; [|done|apply Hb].
  destruct (split_compress is_slash rest) as [|t ts] eqn:Es; [by apply split_nonempty in Es|].
  cbn [length Nat.ltb nth]. change ((S (S (S (S (length ts)))) <? 4)%nat) with false. cbv iota.
  unfold substr. 
  set (w := e0 ++ ["/"%char] ++ e1 ++ ["/"%char] ++ e2 ++ ["/"%char] ++ rest).
  assert (w = (e0 ++ ["/"%char] ++ e1 ++ ["/"%char] ++ e2) ++ ["/"%char] ++ rest) as Ew
    by (subst w; by rewrite <- !(assoc_L (++))).
  assert (length (e0 ++ ["/"%char] ++ e1 ++ ["/"%char] ++ e2)
          = (length e0 + 1 + (length e1 + 1) + length e2)%nat) as Hlen by (rewrite !length_app; cbn; lia).
  rewrite <- Hlen, Ew. destruct (Nat.ltb_spec (length ((e0 ++ ["/"%char] ++ e1 ++ ["/"%char] ++ e2) ++ ["/"%char] ++ rest))
    (length (e0 ++ ["/"%char] ++ e1 ++ ["/"%char] ++ e2))) as [Hc|_]; [rewrite length_app in Hc; lia|].
  by rewrite drop_app_length.
Qed.

End Spec.

(** ** Every path *)

Lemma tokens_size p s : forall cur f,
  (sum_list (length <$> tokens_from p cur f s) + length (tokens_from p cur f s) <= length cur + length s + 1)%nat.
Proof.
  induction s as [|c s IH]; intros cur f; cbn; [rewrite length_rev; lia|].
  destruct (p c); [|specialize (IH (c :: cur) false); cbn in *; lia].
  destruct f; [specialize (IH cur true); lia|]. cbn. rewrite length_rev. specialize (IH [] true). cbn in IH. lia.
Qed.

(** The parser of single calls is total and reads the path by its
    segments.  With fewer than four of them it answers [false] and leaves the
    call empty; otherwise it succeeds, [substr] is never asked past the end,
    the service is the third segment, and the API's path is a non-empty end of
    the path without its leading and trailing slashes. *)
Theorem single_api_total {boost : BoostStrings} m raw_req path :
  ((length (words is_slash path) < 4)%nat ->
     parse_single_api_request m raw_req path = Some (false, [new_call_req]))
  /\ ((4 <= length (words is_slash path))%nat ->
     exists service api, words is_slash path !! 2%nat = Some service
       /\ api <> [] /\ suffix api (trim_reference is_slash path)
       /\ parse_single_api_request m raw_req path
          = Some (true, [mk_call_req service api m raw_req [] 0 false])).
Proof.
  unfold parse_single_api_request. rewrite split_trim. set (temp := trim_if is_slash path).
  split; intros Hlen.
  - destruct (words is_slash path) as [|w ws]; [done|]. by rewrite (proj2 (Nat.ltb_lt _ _)).
  - assert (sum_list (length <$> words is_slash path) + length (words is_slash path) <= length temp + 1)%nat as Hsum.
    { pose proof (split_trim is_slash path) as E. rewrite split_reference in E. fold temp in E.
      pose proof (tokens_size is_slash temp [] false) as Ht. rewrite E in Ht. cbn [length] in Ht.
      destruct (words is_slash path); [cbn in *; lia|exact Ht]. }
    destruct (words is_slash path) as [|e0 [|e1 [|e2 [|e3 ws]]]]; try (cbn in Hlen; lia).
    rewrite (proj2 (Nat.ltb_ge _ _)) by done. cbn in Hsum. cbn [nth].
    set (pos := (length e0 + 1 + (length e1 + 1) + length e2)%nat).
    unfold substr. rewrite (proj2 (Nat.ltb_ge _ _)) by (subst pos; lia). cbn [mbind option_bind].
    exists e2, (drop pos temp). split_and!; [done|..|done].
    + intros E. apply (f_equal length) in E. rewrite length_drop in E. cbn in E. subst pos. lia.
    + rewrite <- trim_if_reference. fold temp. exists (take pos temp). by rewrite take_drop.
Qed.

Lemma single_api_total_witness :
  (length (words is_slash (b "/c/a/svc")) < 4)%nat
  /\ @parse_single_api_request reference_strings GET [] (b "/c/a/svc") = Some (false, [new_call_req])
  /\ exists service api, words is_slash (b "/c/a/svc/x/y/") !! 2%nat = Some service
       /\ api <> [] /\ suffix api (trim_reference is_slash (b "/c/a/svc/x/y/"))
       /\ @parse_single_api_request reference_strings GET [] (b "/c/a/svc/x/y/")
          = Some (true, [mk_call_req service api GET [] [] 0 false]).
Proof.
  split; [vm_compute; lia|]. split.
  - apply (@single_api_total reference_strings GET [] (b "/c/a/svc")). vm_compute. lia.
  - apply (@single_api_total reference_strings GET [] (b "/c/a/svc/x/y/")). vm_compute. lia.
Defined.

(** The position of the API's path is counted with single slashes, while
    the path is split with runs of slashes merged: after a doubled slash
    between the controller and the action, the service is still found but the
    path sent to it begins with the last character of the service's name. *)
Theorem double_slash_shifts_api {boost : BoostStrings} m raw_req e0 e1 e2 z rest :
  segment e0 -> segment e1 -> no_separator is_slash (e2 ++ [z]) -> rest <> [] -> bare is_slash rest ->
  parse_single_api_request m raw_req
    (e0 ++ b "//" ++ e1 ++ b "/" ++ (e2 ++ [z]) ++ b "/" ++ rest)
  = Some (true, [mk_call_req (e2 ++ [z]) (z :: "/"%char :: rest) m raw_req [] 0 false]).
Proof.
  intros H0 H1 Hz Hne Hb. assert (segment (e2 ++ [z])) as H2 by (split; [by destruct e2|done]).
  unfold parse_single_api_request. rewrite trim_bare.
  2:{ destruct (segment_head e0 H0) as (c & s & -> & Hc). split; [by intros ? [= <-]|].
      intros x Hx. destruct Hb as [_ Hl]. apply Hl. rewrite <- Hx, !last_app.
      by destruct (last rest) eqn:E; [|apply last_None in E]. }
  rewrite split_next;
    [|apply H0|by repeat constructor|done|by destruct (segment_head e1 H1) as (? & ? & -> & ?); intros ? [= <-]].
  rewrite split_segment; [|done|by destruct (segment_head _ H2) as (? & ? & -> & ?); intros ? [= <-]].
  rewrite split_segment; [|done|apply Hb].
  destruct (split_compress is_slash rest) as [|t ts] eqn:Es; [by apply split_nonempty in Es|].
  cbn [length Nat.ltb nth]. change ((S (S (S (S (length ts)))) <? 4)%nat) with false. cbv iota.
  unfold substr.
  assert (e0 ++ b "//" ++ e1 ++ b "/" ++ (e2 ++ [z]) ++ b "/" ++ rest
          = (e0 ++ b "//" ++ e1 ++ b "/" ++ e2) ++ z :: "/"%char :: rest) as ->
    by (rewrite <- !(assoc_L (++)); done).
  assert (length e0 + 1 + (length e1 + 1) + length (e2 ++ [z]) = length (e0 ++ b "//" ++ e1 ++ b "/" ++ e2))%nat
    as -> by (rewrite !length_app; cbn; lia).
  rewrite (proj2 (Nat.ltb_ge _ _)) by (rewrite (length_app (e0 ++ _)); lia).
  by rewrite drop_app_length.
Qed.

Lemma double_slash_shifts_api_witness :
  @parse_single_api_request reference_strings GET [] (b "c//a/svc/x")
  = Some (true, [mk_call_req (b "svc") (b "c/x") GET [] [] 0 false]).
Proof.
  apply (@double_slash_shifts_api reference_strings GET [] (b "c") (b "a") (b "sv") "c"%char (b "x")).
  - split; [done|by repeat constructor].
  - split; [done|by repeat constructor].
  - by repeat constructor.
  - done.
  - split; by intros ? [= <-].
Defined.
