(* ===== verification/FibpGateway.v ===== *)
(** * The gateway: from a client's request to the backend's

    The composition of [HttpConnection], [RequestParser] and [FibpHttpClient],
    which is what the server is for: a request to
    [/commands/call_single_service_async/service/api?query] reaches the service
    as a request for [/api?query]. *)

From stdpp Require Import options.
From S2P Require Import Prelude Boost HttpTypes HttpUrl HttpExecute HttpInvariant HttpSafety.
From S2P Require Import HttpSplit HttpBytes HttpProtocol HttpRoundTrip HttpPipeline HttpResponseTrip.
From S2P Require Import HttpConnection HttpServing FibpClient FibpHttpClient RequestParser.

(** ** Forwarding *)

Section Forward.
Context {boost : BoostStrings} {driver : Driver}.

(** [CommandsController::call_single_service_async] on the context that
    [handleRequest] makes of a request: the call and the HTTP request the
    client will print for it. *)
Definition forwarded (req : request_t) : option (ServiceCallReq * request_t) :=
  '(controller, action, path) ← route (rq_path req);
  let context := prepared (with_req (rq_with_path path req) HttpConnection.new_session) in
  r ← parse_single_api_request (rq_method req) (rq_body req) (full_path context);
  match r with
  | (true, [call]) =>
      Some (call, call_request (service_api call) (method call) (service_req_data call))
  | _ => None
  end.

(** A path of a gateway call: two segments for the controller and the action,
    the service, and the API's path, with single slashes. *)
Record gateway_path (e0 e1 e2 rest path : bytes) : Prop := {
  gp_path : path = "/"%char :: e0 ++ "/"%char :: e1 ++ "/"%char :: e2 ++ "/"%char :: rest;
  gp_segments : segment e0 /\ segment e1 /\ segment e2;
  gp_rest : rest <> [] /\ bare is_slash rest
}.

(** What the backend is asked for. *)
Definition backend_request (req : request_t) (rest : bytes) : request_t :=
  mk_request 1 1 (rq_method req) [] [] 0 ("/"%char :: rest) (rq_query req) [] true (rq_body req).

Lemma gateway_bare e0 e1 e2 rest path : gateway_path e0 e1 e2 rest path ->
  exists tail, path = "/"%char :: tail /\ bare is_slash tail
    /\ tail = e0 ++ "/"%char :: e1 ++ "/"%char :: e2 ++ "/"%char :: rest.
Proof.
  intros [-> (H0 & _ & _) [Hne Hb]]. eexists. split; [done|]. split; [|done].
  destruct (segment_head e0 H0) as (c & s & -> & Hc). split; [by intros ? [= <-]|].
  intros z Hz. destruct Hb as [_ Hl]. apply Hl. rewrite <- Hz. destruct rest as [|r0 rest]; [done|].
  change ((c :: s) ++ "/"%char :: e1 ++ "/"%char :: e2 ++ "/"%char :: r0 :: rest)
    with ((c :: s) ++ ["/"%char] ++ e1 ++ ["/"%char] ++ e2 ++ ["/"%char] ++ r0 :: rest).
  rewrite !last_app. by destruct (last (r0 :: rest)) eqn:E; [|apply last_None in E].
Qed.

Lemma route_gateway e0 e1 e2 rest path : gateway_path e0 e1 e2 rest path ->
  exists controller action, route path = Some (controller, action,
    e0 ++ "/"%char :: e1 ++ "/"%char :: e2 ++ "/"%char :: rest).
Proof.
  intros Hp. destruct (gateway_bare _ _ _ _ _ Hp) as (tail & -> & Hb & <-).
  unfold route. rewrite trim_leading by done.
  destruct (split_compress is_slash tail) as [|controller [|action ts]] eqn:E;
    [by apply split_nonempty in E|by eexists _, _..].
Qed.

Lemma bare_app_query rest query :
  rest <> [] -> bare is_slash rest -> (forall c, last query = Some c -> is_slash c = false) ->
  bare is_slash (rest ++ match query with [] => [] | q => b "?" ++ q end).
Proof.
  intros Hne [Hh Hl] Hq. destruct query as [|c q]; [by rewrite app_nil_r|]. split.
  - destruct rest; [done|]. exact Hh.
  - intros z Hz. apply Hq. rewrite <- Hz, !last_app.
    by destruct (last (c :: q)) eqn:E; [|apply last_None in E].
Qed.

Lemma no_question path query rest : target_ok path query ->
  (exists s, path = s ++ rest) -> rest <> path -> Forall (fun c => c <> "?"%char) rest.
Proof.
  intros [(c & p & -> & _ & Hp) _] [s Hs] Hne. destruct s as [|s0 s]; [done|].
  injection Hs as _ ->. apply Forall_app in Hp as [_ Hp].
  eapply Forall_impl; [exact Hp|]. cbn. intros x Hx ->. vm_compute in Hx. discriminate Hx.
Qed.

(** The call and the request made of a gateway request. *)
Lemma forwarded_request e0 e1 e2 rest req :
  gateway_path e0 e1 e2 rest (rq_path req) -> target_ok (rq_path req) (rq_query req) ->
  (forall c, last (rq_query req) = Some c -> is_slash c = false) ->
  exists call, forwarded req = Some (call, backend_request req rest) /\ service_name call = e2
    /\ service_type call = HTTP_Service.
Proof.
  intros Hp Ht Hq. destruct (route_gateway _ _ _ _ _ Hp) as (controller & action & Hr).
  unfold forwarded. rewrite Hr. cbn [mbind option_bind].
  unfold full_path. cbn [req_ prepared with_rsp with_jsonResponse with_req rq_path rq_with_path rq_query].
  pose proof Hp as [Epath (H0 & H1 & H2) [Hne Hb]].
  assert (Forall (fun c => c <> "?"%char) ("/"%char :: rest)) as Hno.
  { apply (no_question _ _ _ Ht).
    - exists ("/"%char :: e0 ++ "/"%char :: e1 ++ "/"%char :: e2). rewrite Epath.
      cbn [app]. repeat (rewrite <- (assoc_L (++)); cbn [app]). done.
    - rewrite Epath. intros E. apply (f_equal length) in E. cbn in E.
      repeat (rewrite length_app in E; cbn in E). lia. }
  pose proof (bare_app_query rest (rq_query req) Hne Hb Hq) as Hbare.
  pose proof (split_query_target ("/"%char :: rest) (rq_query req) Hno) as Hsplit.
  unfold backend_request. cbn [app] in Hsplit.
  set (q := match rq_query req with [] => [] | a :: l => b "?" ++ a :: l end).
  assert ((match rq_query req with [] => [] | _ :: _ => b "?" ++ rq_query req end) = q) as Eq
    by (subst q; by destruct (rq_query req)).
  rewrite Eq in Hbare, Hsplit. clearbody q.
  assert ((e0 ++ "/"%char :: e1 ++ "/"%char :: e2 ++ "/"%char :: rest) ++ q
          = e0 ++ "/"%char :: e1 ++ "/"%char :: e2 ++ "/"%char :: (rest ++ q)) as ->
    by (repeat (rewrite <- (assoc_L (++)); cbn [app]); done).
  rewrite parse_single_segments; [|done|done|done|intros [E _]%app_eq_nil; done|done].
  cbn [mbind option_bind]. eexists. split.
  - unfold call_request. cbn [service_api method service_req_data]. rewrite Hsplit. reflexivity.
  - done.
Qed.

Lemma print_request_overrun req : 5 <= rq_method req -> print_request req = None.
Proof.
  intros Hm. unfold print_request. replace (rq_method req <? 0) with false by lia.
  rewrite lookup_ge_None_2; [done|]. change (length METHOD_STRING) with 5%nat. lia.
Qed.

(** ** Arriving *)

(** The request with the header [send_http_request] adds. *)
Definition addressed (c : http_client) (req : request_t) : request_t :=
  rq_with_headers (rq_headers req ++ [host_header c]) req.

(** A host and a port that can be sent, of a reasonable size. *)
Record backend_host (c : http_client) : Prop := {
  bh_header : header_ok (host_header c);
  bh_size : Z.of_nat (length (hc_host c)) + Z.of_nat (length (hc_port c)) <= 10000
}.

Lemma target_length path query : (length path + length query <= length (target path query))%nat.
Proof. unfold target. rewrite length_app. destruct query; cbn; lia. Qed.

Lemma length_method me : (length (method_strings me) <= 16)%nat.
Proof. destruct me; vm_compute; lia. Qed.

Lemma backend_size c req rest w : 0 <= rq_method req <= 4 ->
  Z.of_nat (length (rq_body req)) <= (ULLONG_MAX - 10) / 10 * 10 -> backend_host c ->
  Z.of_nat (length rest) + Z.of_nat (length (rq_query req)) < 65536 ->
  print_request (addressed c (backend_request req rest)) = Some w ->
  Z.of_nat (length w) <= HTTP_MAX_HEADER_SIZE + Z.of_nat (length (rq_body req)).
Proof.
  intros Hm Hb [_ Hh] Hl. rewrite print_request_bytes by done. intros [= <-].
  unfold addressed, backend_request. cbn [rq_with_headers rq_headers rq_method rq_path rq_query rq_http_major
    rq_http_minor rq_keep_alive rq_body].
  unfold request_bytes, request_line, client_lines, length_line, connection_line, target, print_header, host_header.
  pose proof (length_method (method_of (rq_method req))).
  pose proof (dec_length (Z.of_nat (length (rq_body req))) 20
                ltac:(change (10 ^ 20) with 100000000000000000000; consts; lia) ltac:(lia)).
  change HTTP_MAX_HEADER_SIZE with 81920.
  destruct (rq_query req) as [|q0 q];
    cbn -[Z.of_nat dec method_strings]; rewrite ?length_app; cbn -[Z.of_nat dec method_strings];
    repeat (rewrite ?length_app; cbn -[Z.of_nat dec method_strings]); change (length (dec 1)) with 1%nat; cbn [length] in *; lia.
Qed.

Lemma backend_sendable e0 e1 e2 rest req c :
  sendable req -> gateway_path e0 e1 e2 rest (rq_path req) -> backend_host c ->
  sendable (addressed c (backend_request req rest)).
Proof.
  intros [Hm Hmj Hmn [Hp Hq] Hl Hh Hb Hsize] Hg Hc. destruct Hg as [Epath _ _].
  pose proof (target_length (rq_path req) (rq_query req)) as Ht.
  assert (Z.of_nat (length rest) + Z.of_nat (length (rq_query req)) + 3 < 65536) as Hlen.
  { rewrite Epath in Ht at 1. cbn in Ht. repeat (rewrite length_app in Ht; cbn in Ht). lia. }
  constructor; cbn [addressed rq_with_headers backend_request rq_method rq_http_major rq_http_minor
    rq_path rq_query rq_headers rq_body]; try lia; try done.
  - destruct Hp as (c0 & p & E & _ & Hf). rewrite Epath in E. injection E as <- <-.
    split; [|done]. exists "/"%char, rest. split_and!; [done|by left|].
    repeat (apply Forall_app in Hf as [_ Hf]; apply Forall_cons in Hf as [_ Hf]). done.
  - unfold target. destruct (rq_query req); cbn in *; repeat (rewrite ?length_app; cbn); lia.
  - apply Forall_cons. split; [apply bh_header; done|constructor].
  - intros w. apply backend_size; try done. lia.
Qed.

Lemma forwarded_call req call r : forwarded req = Some (call, r) ->
  call_request (service_api call) (method call) (service_req_data call) = r.
Proof.
  unfold forwarded. destruct (route _) as [[[controller action] path]|]; [|done]. cbn [mbind option_bind].
  destruct (parse_single_api_request _ _ _) as [[ok l]|]; [|done].
  destruct ok, l as [|x l]; try destruct l; by intros; simplify_eq/=.
Qed.

Lemma send_call http_req timeout_ms cr c w :
  print_request (addressed c http_req) = Some w -> ss_connecting (hc_session c) = false ->
  (ss_open (hc_session c) = true \/ cr = Connected false true) ->
  exists c', send_http_request http_req timeout_ms cr Written c = Sent true c'
    /\ ss_sent (hc_session c') = ss_sent (hc_session c) ++ [w]
    /\ ss_open (hc_session c') = true /\ ss_connecting (hc_session c') = false
    /\ hc_parser c' = hc_parser c.
Proof.
  intros Ew Hcon Hopen. unfold send_http_request. fold (addressed c http_req). rewrite Ew.
  unfold send_data. cbn [set_timeout ss_connecting ss_open]. rewrite Hcon.
  destruct (ss_open (hc_session c)) eqn:Eo; cbn [negb].
  - unfold async_write. cbn [set_timeout ss_open]. rewrite Eo. by eexists.
  - destruct Hopen as [| ->]; [done|]. by eexists.
Qed.

End Forward.

(** C7: the gateway forwards.  A sendable request to
    [/e0/e1/service/api?query] that the server receives, with single slashes
    between the parts, an [api] that neither begins nor ends in a slash and a
    query that does not end in one, is sent to the service [service] as a request
    for [/api?query] with the same method and body: the bytes that the HTTP client
    writes for it, over a connection that is open or can be opened and whose
    writes succeed, and that the network cuts anywhere, make the parser of the
    backend call its handler once with that request.  A slash at the end of the
    query is lost: [trailing_slash_lost]. *)
Theorem gateway_forwards {boost : BoostStrings} {driver : Driver} e0 e1 e2 rest req c timeout_ms cr :
  sendable req -> gateway_path e0 e1 e2 rest (rq_path req) ->
  (forall a, last (rq_query req) = Some a -> is_slash a = false) -> backend_host c ->
  ss_connecting (hc_session c) = false ->
  (ss_open (hc_session c) = true \/ cr = Connected false true) ->
  exists call w c', forwarded (received req) = Some (call, backend_request req rest)
    /\ service_name call = e2 /\ service_type call = HTTP_Service
    /\ send_request (service_api call) (method call) (service_req_data call) timeout_ms cr Written c
       = Sent true c'
    /\ ss_sent (hc_session c') = ss_sent (hc_session c) ++ [w]
    /\ forall H (cb_ : request_t -> H -> bool * request_t * H) garbage i xs,
         Forall (fun x => x <> []) xs -> concat xs = w ->
         let r := cb_ (received (addressed c (backend_request req rest))) (Request.i_owner i) in
         exists p, Request.do_parse cb_ garbage i (map Request.Read xs)
           = Some (if fst (fst r) then Request.Waiting else Request.By_handler, p,
                   Some (after_handler r (target ("/"%char :: rest) (rq_query req))), [])
           /\ (fst (fst r) = true -> p_http_errno p = HPE_OK).
Proof.
  intros Hs Hg Hq Hc Hcon Hopen.
  destruct (forwarded_request e0 e1 e2 rest (received req) Hg (send_target _ Hs) Hq) as (call & Ef & En & Et).
  pose proof (backend_sendable e0 e1 e2 rest req c Hs Hg Hc) as Hb.
  assert (exists w, print_request (addressed c (backend_request req rest)) = Some w) as [w Ew]
    by (rewrite print_request_bytes by apply Hb; by eexists).
  destruct (send_call (call_request (service_api call) (method call) (service_req_data call))
              timeout_ms cr c w) as (c' & E & Ess & _); [|done|done|].
  { by rewrite (forwarded_call _ _ _ Ef). }
  exists call, w, c'. split_and!; [exact Ef|done|done|exact E|exact Ess|].
  intros H cb_ garbage i xs Hne Hx. exact (request_trip cb_ garbage _ i xs w Hb Ew Hne Hx).
Qed.

(** The gateway passes on any method its parser knows, but the client's
    printer has names for the first five only: a call for a request with
    another method (PATCH, OPTIONS, ...) reads past the table. *)
Theorem other_methods_overrun_table {boost : BoostStrings} {driver : Driver} req call r timeout_ms cr wr c :
  forwarded req = Some (call, r) -> 5 <= rq_method req ->
  send_request (service_api call) (method call) (service_req_data call) timeout_ms cr wr c = Send_undefined.
Proof.
  intros Hf Hm. unfold send_request. rewrite (forwarded_call _ _ _ Hf).
  assert (rq_method r = rq_method req) as Hr.
  { revert Hf. unfold forwarded, parse_single_api_request, call_request.
    destruct (route _) as [[[controller action] path]|]; [|done]. cbn [mbind option_bind].
    destruct (_ <? 4)%nat; [done|]. destruct (substr _ _) as [api|]; [|done]. cbn [mbind option_bind].
    cbn [service_api method service_req_data]. destruct (split_query api). intros E. by simplify_eq/=. }
  unfold send_http_request. rewrite print_request_overrun; [done|]. cbn. lia.
Qed.

(** ** Witnesses *)

Definition gateway_get (path query : bytes) : request_t :=
  mk_request 1 1 GET [] [] 0 path query [] true [].
Definition web_get : request_t := gateway_get (b "/c/a/svc/x/y") (b "k=v").
Definition connected_client : http_client :=
  hc_with_session (set_open true FibpClient.new_session) (new_http_client (b "10.0.0.1") (b "80")).

Lemma connected_host : backend_host connected_client.
Proof.
  split; [|vm_compute; discriminate].
  split; [split; [discriminate|by repeat constructor]|reflexivity|split; [by repeat constructor|done]].
Qed.

Lemma web_sendable : sendable web_get.
Proof.
  split; [by vm_compute..| |by vm_compute| |by vm_compute|].
  - split; [eexists "/"%char, _; split; [reflexivity|split; [by left|by repeat constructor]]|].
    repeat (apply Forall_cons; split; [by (left; reflexivity) || (right; reflexivity)|]). constructor.
  - constructor.
  - intros ? Hw. vm_compute in Hw. injection Hw as <-. vm_compute. discriminate.
Qed.

Definition backend_get : request_t := addressed connected_client (backend_request web_get (b "x/y")).
Definition backend_bytes : bytes := printed backend_get.

Lemma gateway_forwards_witness :
  exists call c', @forwarded reference_strings flag_driver (received web_get)
      = Some (call, backend_request web_get (b "x/y"))
    /\ service_name call = b "svc"
    /\ send_request (service_api call) (method call) (service_req_data call) 500 Connect_throws Written
         connected_client = Sent true c'
    /\ ss_sent (hc_session c') = [backend_bytes]
    /\ exists p, Request.do_parse logging_cb no_url (Request.new_impl request_init [])
         (map Request.Read [take 9 backend_bytes; drop 9 backend_bytes])
       = Some (Request.Waiting, p,
               Some (after_handler (true, request_init, [received backend_get]) (b "/x/y?k=v")), []).
Proof.
  destruct (@gateway_forwards reference_strings flag_driver (b "c") (b "a") (b "svc") (b "x/y") web_get
              connected_client 500 Connect_throws) as (call & w & c' & Ef & En & _ & Es & Ess & Hp).
  - apply web_sendable.
  - split; [reflexivity|by repeat (split || constructor)|by split; [done|split; intros ? [= <-]]].
  - by intros ? [= <-].
  - apply connected_host.
  - done.
  - by left.
  - exists call, c'. split_and!; [exact Ef|exact En|exact Es|..].
    + vm_compute in Ef. injection Ef as <-. vm_compute in Es. injection Es as <-. vm_compute. reflexivity.
    + assert (w = backend_bytes) as ->.
      { vm_compute in Ef. injection Ef as <-. vm_compute in Es. injection Es as <-.
        vm_compute in Ess. injection Ess as <-. vm_compute. reflexivity. }
      destruct (Hp _ logging_cb no_url (Request.new_impl request_init [])
                  [take 9 backend_bytes; drop 9 backend_bytes]) as (p & E & _).
      * repeat constructor; vm_compute; discriminate.
      * reflexivity.
      * exists p. exact E.
Defined.

(** The slashes that are trimmed are those of the whole target: a query that ends
    in one arrives without it. *)
Example trailing_slash_lost :
  snd <$> @forwarded reference_strings flag_driver (received (gateway_get (b "/c/a/svc/x") (b "k=/")))
  = Some (backend_request (gateway_get (b "/c/a/svc/x") (b "k=")) (b "x")).
Proof. vm_compute. reflexivity. Qed.

(** The parser of the server accepts the method. *)
Definition web_patch : request_t :=
  mk_request 1 1 (method_num HTTP_PATCH) [] [] 0 (b "/c/a/svc/x") [] [] true [].

Lemma other_methods_overrun_table_witness :
  (exists p i, Request.do_parse logging_cb no_url (Request.new_impl request_init [])
      [Request.Read (b "PATCH /c/a/svc/x HTTP/1.1" ++ CRLF ++ CRLF)] = Some (Request.Waiting, p, Some i, [])
    /\ map rq_method (Request.i_owner i) = [rq_method web_patch])
  /\ exists call r, @forwarded reference_strings flag_driver web_patch = Some (call, r)
    /\ send_request (service_api call) (method call) (service_req_data call) 500 Connect_throws Written
         connected_client = Send_undefined.
Proof.
  split; [eexists _, _; split; [vm_compute; reflexivity|vm_compute; reflexivity]|].
  eexists _, _. split; [vm_compute; reflexivity|].
  eapply (@other_methods_overrun_table reference_strings flag_driver web_patch); [vm_compute; reflexivity|].
  vm_compute. discriminate.
Defined.
