(* ===== verification/HttpCall.v ===== *)
(** * A call between two servers

    The composition of [FibpHttpClient] on one server with [HttpConnection] on
    the other: what a call sends is answered by the peer's handler, and the
    caller gets the body the handler made. *)

From stdpp Require Import options.
From S2P Require Import Prelude Boost HttpTypes HttpUrl HttpExecute HttpInvariant HttpSafety.
From S2P Require Import HttpSplit HttpProtocol HttpRoundTrip HttpPipeline HttpResponseTrip.
From S2P Require Import HttpConnection HttpServing FibpClient FibpHttpClient FibpGateway.

(** A client between two calls. *)
Record client_idle (c : http_client) : Prop := {
  ci_connected : ss_open (hc_session c) = true;
  ci_not_connecting : ss_connecting (hc_session c) = false;
  ci_parser : idle_response (hc_parser c);
  ci_parser_inv : parser_inv (hc_parser c)
}.

Section Call.
Context {boost : BoostStrings} {driver : Driver}.
Context {W : Type} (find : bytes -> bytes -> option (handler W)) (write_fails : list bytes -> bytes -> bool).

(** The response of a synchronous handler is one that [write_rsp] prints over
    an empty [response_t]. *)
Lemma answer_server_response elapsed req w rsp w' :
  answer_rsp find elapsed req w = Some (rsp, w') ->
  rsp = server_response (rs_http_major response_clear) (rs_http_minor response_clear)
          (rq_keep_alive req) (rs_keep_alive response_clear) (rs_body rsp).
Proof.
  unfold answer_rsp. destruct (route _) as [[[controller action] path]|]; [|done]. cbn [mbind option_bind].
  destruct (find controller action) as [h|]; [|done]. cbn [mbind option_bind].
  destruct (is_async h); [done|]. destruct (invoke_raw _ _ _ _ _ _ _ _) as [[i|] w1]; [|done].
  by intros [= <- <-].
Qed.

Lemma read_succeeds ys : ys <> [] -> Forall (fun y : bytes => y <> []) ys ->
  parse_ec false (map Response.Read ys) [] = Ec_none.
Proof.
  intros Hne Hys. unfold parse_ec. cbn [length]. rewrite Nat.sub_0_r, take_ge by done.
  destruct ys as [|y ys _] using rev_ind; [done|]. rewrite map_app. cbn [map]. rewrite last_snoc.
  apply Forall_app in Hys as [_ [Hy _]%Forall_cons]. by destruct y.
Qed.

(** The client's side: the bytes of a successful response. *)
Lemma get_response_trip mj mn k body out ys c :
  printable_size body -> print_response (server_response mj mn true k body) = Some out ->
  client_idle c -> Forall (fun y => y <> []) ys -> concat ys = out ->
  exists c', get_response false (map Response.Read ys) c = Some (true, body, c', [])
    /\ client_idle c' /\ hc_can_retry c' = true /\ hc_session c' = hc_session c
    /\ hc_host c' = hc_host c /\ hc_port c' = hc_port c.
Proof.
  intros Hb Hout [Ho Hcon Hp Hinv] Hys Hc.
  destruct (response_trip mj mn true k body out ys (hc_parser c) response_clear Hb Hout Hp Hinv Hys Hc)
    as (p & st & E & Hp' & Hinv').
  unfold get_response. rewrite E. cbn [mbind option_bind Response.i_resp].
  assert (ys <> []) as Hne.
  { intros ->. rewrite print_server_response in Hout by done. cbn in Hc. subst out. by injection Hout. }
  rewrite read_succeeds by done. eexists. by split.
Qed.

(** The server's side: one request of a keep-alive client. *)
Lemma serve_one garbage elapsed req w1 xs w rsp w' out :
  never_fails write_fails -> sendable req -> rq_keep_alive req = true ->
  print_request req = Some w1 -> Forall (fun x => x <> []) xs -> concat xs = w1 ->
  answer_rsp find elapsed req w = Some (rsp, w') -> print_response rsp = Some out ->
  exists p i, Request.do_parse (parser_cb find write_fails false elapsed) garbage
      (Request.new_impl request_init (mk_owner (fresh_conn w) false)) (map Request.Read xs)
    = Some (Request.Waiting, p, Some i, [])
    /\ Request.i_owner i = mk_owner (mk_conn HttpConnection.new_session true true [out] [] [] w') false.
Proof.
  intros Hw Hs Hk Hw1 Hne Hc Ha Hout.
  apply (requests_served _ _ [req] [w1] xs); cbn [Request.i_owner Request.new_impl map concat].
  - by constructor.
  - by rewrite Hw1.
  - rewrite (handle_all_answers find write_fails elapsed [req] _ [out] w'); [done|done|done|by constructor|].
    cbn [answers]. unfold answer. cbn [o_conn c_world fresh_conn]. rewrite Ha. cbn [mbind option_bind].
    by rewrite Hout.
  - done.
  - by rewrite app_nil_r.
Qed.

End Call.

(** C3: a call is answered.  A call of an idle client sends one request; the
    peer's connection, whatever the cuts of the network, passes it to its
    handler and writes one response; whatever the cuts on the way back, the
    client reports success with the body the handler made, consumes exactly
    that response, keeps its connection, and is idle again for the next
    call. *)
Theorem http_call_answered {boost : BoostStrings} {driver : Driver} {W}
    (find : bytes -> bytes -> option (handler W)) write_fails garbage elapsed
    path method reqdata timeout_ms cr c w rsp w' :
  never_fails write_fails -> client_idle c ->
  sendable (addressed c (call_request path method reqdata)) ->
  answer_rsp find elapsed (addressed c (call_request path method reqdata)) w = Some (rsp, w') ->
  printable_size (rs_body rsp) ->
  exists sent c1, send_request path method reqdata timeout_ms cr Written c = Sent true c1
    /\ ss_sent (hc_session c1) = ss_sent (hc_session c) ++ [sent]
    /\ exists out, forall xs, Forall (fun x => x <> []) xs -> concat xs = sent ->
       (exists p i, Request.do_parse (parser_cb find write_fails false elapsed) garbage
            (Request.new_impl request_init (mk_owner (fresh_conn w) false)) (map Request.Read xs)
          = Some (Request.Waiting, p, Some i, [])
          /\ Request.i_owner i = mk_owner (mk_conn HttpConnection.new_session true true [out] [] [] w') false)
       /\ forall ys, Forall (fun y => y <> []) ys -> concat ys = out ->
          exists c2, get_response false (map Response.Read ys) c1 = Some (true, rs_body rsp, c2, [])
            /\ client_idle c2.
Proof.
  intros Hw Hidle Hs Ha Hb. set (req := addressed c (call_request path method reqdata)) in *.
  assert (exists sent, print_request req = Some sent) as [sent Esent]
    by (rewrite print_request_bytes by apply Hs; by eexists).
  assert (rq_keep_alive req = true) as Hk
    by (subst req; unfold addressed, call_request; by destruct (split_query path)).
  pose proof (answer_server_response _ _ _ _ _ _ Ha) as Hrsp. rewrite Hk in Hrsp.
  pose proof (print_server_response (rs_http_major response_clear) (rs_http_minor response_clear) true
                (rs_keep_alive response_clear) (rs_body rsp) Hb) as Hprint.
  rewrite <- Hrsp in Hprint. pose proof Hidle as [Ho Hcon Hp Hinv].
  destruct (send_call (call_request path method reqdata) timeout_ms cr c sent Esent Hcon (or_introl Ho))
    as (c1 & Esend & Ess & Ho1 & Hcon1 & Hp1).
  exists sent, c1. split; [exact Esend|]. split; [exact Ess|].
  eexists. intros xs Hxs Hx. split.
  - by eapply serve_one.
  - intros ys Hys Hy. rewrite Hrsp in Hprint.
    destruct (get_response_trip _ _ _ _ _ ys c1 Hb Hprint) as (c2 & E & Hc2 & _); [|done..|].
    { constructor; [done..|by rewrite Hp1|by rewrite Hp1]. }
    by exists c2.
Qed.

(** ** Witness *)

Definition echo_call : request_t := addressed connected_client (call_request (b "/svc/echo") POST (b "hello")).

Lemma echo_sendable : sendable echo_call.
Proof.
  split; [by vm_compute..| |by vm_compute| |by vm_compute|].
  - split; [eexists "/"%char, _; split; [reflexivity|split; [by left|by repeat constructor]]|by repeat constructor].
  - constructor; [|constructor]. split; [split; [discriminate|by repeat constructor]|reflexivity|].
    split; [by repeat constructor|done].
  - intros ? Hw. vm_compute in Hw. injection Hw as <-. vm_compute. discriminate.
Qed.

Definition echo_rsp : response_t :=
  match @answer_rsp reference_strings flag_driver _ (only (b "echo") echo_handler) 0 echo_call [] with
  | Some (rsp, _) => rsp
  | None => response_clear
  end.

Lemma http_call_answered_witness :
  rs_body echo_rsp = b "hello"
  /\ exists sent c1, send_request (b "/svc/echo") POST (b "hello") 500 Connect_throws Written connected_client
      = Sent true c1
    /\ exists out, forall xs, Forall (fun x => x <> []) xs -> concat xs = sent ->
       (exists p i, Request.do_parse
            (@parser_cb reference_strings flag_driver _ (only (b "echo") echo_handler) (fun _ _ => false) false 0)
            no_url (Request.new_impl request_init (mk_owner (@fresh_conn flag_driver _ []) false))
            (map Request.Read xs) = Some (Request.Waiting, p, Some i, [])
          /\ c_written (o_conn (Request.i_owner i)) = [out])
       /\ forall ys, Forall (fun y => y <> []) ys -> concat ys = out ->
          exists c2, get_response false (map Response.Read ys) c1 = Some (true, rs_body echo_rsp, c2, [])
            /\ client_idle c2.
Proof.
  split; [vm_compute; reflexivity|].
  destruct (@http_call_answered reference_strings flag_driver _ (only (b "echo") echo_handler)
              (fun _ _ => false) no_url 0 (b "/svc/echo") POST (b "hello") 500 Connect_throws connected_client
              [] echo_rsp [b "svc/echo"]) as (sent & c1 & E & _ & out & Hout).
  - done.
  - split; [done|done|apply idle_response_init|apply init_inv].
  - apply echo_sendable.
  - vm_compute. reflexivity.
  - vm_compute. reflexivity.
  - exists sent, c1. split; [exact E|]. exists out. intros xs Hne Hx.
    destruct (Hout xs Hne Hx) as ((p & i & Ep & Eo) & Hback). split; [|exact Hback].
    exists p, i. split; [exact Ep|]. by rewrite Eo.
Defined.
