(* ===== verification/FibpClientMgr.v ===== *)
(** * [FibpClientMgr]: the connections of a thread

    The manager keeps, for each backend, the idle HTTP clients and one client
    for each multiplexing protocol.  An HTTP client is owned by one call from
    [send_request] to [get_response]; while it connects or writes, and until
    the caller asks for the response, other fibers call the manager: a call is
    therefore three steps. *)

From stdpp Require Import options.
From S2P Require Import Prelude HttpTypes HttpExecute HttpProtocol FibpClient FibpHttpClient RequestParser.

Definition MAX_CLIENT_NUM : Z := 100.

Definition getClientId (host port : bytes) : bytes := host ++ b ":" ++ port.

(** [objs]: every [FibpHttpClient] created; a [FibpHttpClientPtr] is an index
    into it.  [sending]: the clients inside [client->send_request]; [in_use]:
    those returned to a caller. *)
Record client_mgr := mk_client_mgr {
  objs : list http_client;
  http_client_pool_list_ : gmap bytes (list nat);
  sending_clients : list nat;
  in_use : list nat;
  client_pool_list_ : gmap (Z * bytes) client;
  client_num_ : gmap bytes Z
}.

Definition new_client_mgr : client_mgr := mk_client_mgr [] ∅ [] [] ∅ ∅.

Definition pool_of (id : bytes) (m : client_mgr) : list nat := default [] (http_client_pool_list_ m !! id).
Definition num_of (id : bytes) (m : client_mgr) : Z := default 0 (client_num_ m !! id).

Definition set_pool (id : bytes) (l : list nat) (m : client_mgr) : client_mgr :=
  mk_client_mgr (objs m) (<[id := l]> (http_client_pool_list_ m)) (sending_clients m) (in_use m)
    (client_pool_list_ m) (client_num_ m).
Definition set_sending (l : list nat) (m : client_mgr) : client_mgr :=
  mk_client_mgr (objs m) (http_client_pool_list_ m) l (in_use m) (client_pool_list_ m) (client_num_ m).
Definition set_in_use (l : list nat) (m : client_mgr) : client_mgr :=
  mk_client_mgr (objs m) (http_client_pool_list_ m) (sending_clients m) l (client_pool_list_ m) (client_num_ m).
Definition set_obj (p : nat) (c : http_client) (m : client_mgr) : client_mgr :=
  mk_client_mgr (<[p := c]> (objs m)) (http_client_pool_list_ m) (sending_clients m) (in_use m)
    (client_pool_list_ m) (client_num_ m).
Definition count_client (id : bytes) (m : client_mgr) : client_mgr :=
  mk_client_mgr (objs m) (http_client_pool_list_ m) (sending_clients m) (in_use m) (client_pool_list_ m)
    (<[id := w32 (num_of id m + 1)]> (client_num_ m)).
Definition set_base (key : Z * bytes) (c : client) (m : client_mgr) : client_mgr :=
  mk_client_mgr (objs m) (http_client_pool_list_ m) (sending_clients m) (in_use m)
    (<[key := c]> (client_pool_list_ m)) (client_num_ m).

(** ** HTTP *)

(** [send_request] up to [client->send_request]: the client, or [None] where
    the limit is exceeded. *)
Definition acquire (ip port : bytes) (m : client_mgr) : option nat * client_mgr :=
  let client_id := getClientId ip port in
  match pool_of client_id m with
  | p :: l => (Some p, set_sending (sending_clients m ++ [p]) (set_pool client_id l m))
  | [] =>
      if num_of client_id m >? MAX_CLIENT_NUM then (None, m)
      else
        let p := length (objs m) in
        let m := mk_client_mgr (objs m ++ [new_http_client ip port]) (http_client_pool_list_ m)
                   (sending_clients m ++ [p]) (in_use m) (client_pool_list_ m) (client_num_ m) in
        (Some p, count_client client_id m)
  end.

(** The rest of [send_request] of the [n]-th sending client; [client_id] is the
    one of its ip and port. *)
Definition send_finish (n : nat) (path : bytes) (method : Z) (reqdata : bytes) (to_ms : Z)
    (cr : connect_result) (wr : write_result) (m : client_mgr) : option (option nat * client_mgr) :=
  p ← sending_clients m !! n;
  c ← objs m !! p;
  match send_request path method reqdata to_ms cr wr c with
  | Sent ret c =>
      let m := set_obj p c (set_sending (delete n (sending_clients m)) m) in
      let id := getClientId (hc_host c) (hc_port c) in
      Some (if ret then (Some p, set_in_use (in_use m ++ [p]) m)
            else (None, set_pool id (pool_of id m ++ [p]) m))
  | _ => None
  end.

(** [get_response] of the [n]-th client in use. *)
Definition http_get_response (n : nat) (aborted : bool) (reads : list Response.read_event) (m : client_mgr)
  : option (bool * bytes * bool * client_mgr) :=
  p ← in_use m !! n;
  c ← objs m !! p;
  '(ret, rsp, c, _) ← get_response aborted reads c;
  let m := set_obj p c (set_in_use (delete n (in_use m)) m) in
  let id := getClientId (hc_host c) (hc_port c) in
  Some (ret, rsp, hc_can_retry c, set_pool id (pool_of id m ++ [p]) m).

(** ** The multiplexing clients *)

Section Base.
(** What the client of a protocol writes. *)
Context (pack : Z -> Z -> bytes -> bytes -> bytes).

(** [send_request] for another protocol, up to the write: the number of the
    future; it throws for HTTP and for unknown types ([None]). *)
Definition base_send_begin (path ip port : bytes) (calltype : Z) (reqdata : bytes) (to_ms : Z) (m : client_mgr)
  : option (option nat * client_mgr) :=
  if (calltype <? 0) || (End_Service <=? calltype) then None
  else if calltype =? HTTP_Service then None
  else
    let key := (calltype, getClientId ip port) in
    let send c m := Some (Some (length (futures c)), set_base key (send_begin (pack calltype) path reqdata to_ms c) m) in
    match client_pool_list_ m !! key with
    | Some c => send c m
    | None =>
        if (calltype =? RPC_Service) || (calltype =? Raw_Service) then
          send new_client (count_client (getClientId ip port) m)
        else Some (None, m)
    end.

(** A later step of one of these clients: the end of a write or a read. *)
Definition base_step (key : Z * bytes) (e : client_event) (m : client_mgr) : option client_mgr :=
  match e with
  | Send_begin _ _ _ => None
  | _ =>
      c ← client_pool_list_ m !! key;
      c ← client_step (pack (fst key)) (fst key =? RPC_Service) e c;
      Some (set_base key c m)
  end.

(** ** The steps of the fibers *)

Inductive mgr_event :=
| Acquire (ip port : bytes)
| Send_finish (n : nat) (path : bytes) (method : Z) (reqdata : bytes) (to_ms : Z)
    (cr : connect_result) (wr : write_result)
| Http_response (n : nat) (aborted : bool) (reads : list Response.read_event)
| Base_send (path ip port : bytes) (calltype : Z) (reqdata : bytes) (to_ms : Z)
| Base_step (key : Z * bytes) (e : client_event).

Definition mgr_step (e : mgr_event) (m : client_mgr) : option client_mgr :=
  match e with
  | Acquire ip port => Some (snd (acquire ip port m))
  | Send_finish n path method reqdata to_ms cr wr =>
      snd <$> send_finish n path method reqdata to_ms cr wr m
  | Http_response n aborted reads => snd <$> http_get_response n aborted reads m
  | Base_send path ip port calltype reqdata to_ms =>
      snd <$> base_send_begin path ip port calltype reqdata to_ms m
  | Base_step key e => base_step key e m
  end.

Inductive mgr_runs : list mgr_event -> client_mgr -> Prop :=
| mgr_starts : mgr_runs [] new_client_mgr
| mgr_steps es m e m' : mgr_runs es m -> mgr_step e m = Some m' -> mgr_runs (es ++ [e]) m'.

End Base.
