(* ===== verification/FibpClientMgrSpec.v ===== *)
(** * What the client manager promises

    Each client is in one place, the counters count the clients, and the number
    of connections to a backend is bounded. *)

From stdpp Require Import options.
From S2P Require Import Prelude HttpTypes HttpExecute HttpProtocol FibpClient FibpHttpClient RequestParser.
From S2P Require Import FibpClientMgr.

Definition client_id (c : http_client) : bytes := getClientId (hc_host c) (hc_port c).

(** How often a client is in a list. *)
Definition occ (p : nat) (l : list nat) : nat := count_occ Nat.eq_dec l p.

Lemma occ_app p l1 l2 : occ p (l1 ++ l2) = (occ p l1 + occ p l2)%nat.
Proof. apply count_occ_app. Qed.

Lemma occ_cons p q l : occ p (q :: l) = ((if decide (q = p) then 1 else 0) + occ p l)%nat.
Proof. unfold occ. cbn. destruct (Nat.eq_dec q p), (decide (q = p)); done. Qed.

Lemma occ_delete p q n l : l !! n = Some q ->
  occ p l = ((if decide (q = p) then 1 else 0) + occ p (delete n l))%nat.
Proof.
  intros Hn. rewrite <- (take_drop_middle l n q Hn) at 1.
  rewrite delete_take_drop, !occ_app, occ_cons. lia.
Qed.

Lemma occ_zero p l : p ∉ l -> occ p l = 0%nat.
Proof. intros H. apply count_occ_not_In. by rewrite <- list_elem_of_In. Qed.

Lemma occ_pos p l : (0 < occ p l)%nat -> p ∈ l.
Proof. intros H. apply list_elem_of_In, (count_occ_In Nat.eq_dec). exact H. Qed.

Section Spec.
Context (pack : Z -> Z -> bytes -> bytes -> bytes).

(** ** The invariant *)

Definition http_count (id : bytes) (m : client_mgr) : nat :=
  length (filter (fun c => client_id c = id) (objs m)).
Definition base_count (id : bytes) (m : client_mgr) : nat :=
  ((if client_pool_list_ m !! (RPC_Service, id) is Some _ then 1 else 0)
   + (if client_pool_list_ m !! (Raw_Service, id) is Some _ then 1 else 0))%nat.

Record mgr_ok (m : client_mgr) : Prop := {
  mo_place p c : objs m !! p = Some c ->
    (occ p (pool_of (client_id c) m) + occ p (sending_clients m) + occ p (in_use m) = 1)%nat;
  mo_pool id p : p ∈ pool_of id m -> exists c, objs m !! p = Some c /\ client_id c = id;
  mo_sending p : p ∈ sending_clients m -> (p < length (objs m))%nat;
  mo_in_use p : p ∈ in_use m -> (p < length (objs m))%nat;
  mo_limit id : Z.of_nat (http_count id m) <= MAX_CLIENT_NUM + 1;
  mo_num id : num_of id m = Z.of_nat (http_count id m + base_count id m)
}.

Lemma new_mgr_ok : mgr_ok new_client_mgr.
Proof.
  split; try done.
  - intros id p H. by apply elem_of_nil in H.
  - intros p H. by apply elem_of_nil in H.
  - intros p H. by apply elem_of_nil in H.
Qed.

Lemma base_count_le id m : (base_count id m <= 2)%nat.
Proof. unfold base_count. repeat case_match; lia. Qed.

Lemma num_bound m id : mgr_ok m -> 0 <= num_of id m <= MAX_CLIENT_NUM + 3.
Proof.
  intros Hm. rewrite (mo_num _ Hm). pose proof (mo_limit _ Hm id). pose proof (base_count_le id m). lia.
Qed.

Lemma http_count_insert id m p c c' : objs m !! p = Some c -> client_id c' = client_id c ->
  http_count id (set_obj p c' m) = http_count id m.
Proof.
  intros Hp Hid. unfold http_count. cbn [set_obj objs].
  assert (forall l i, l !! i = Some c -> length (filter (fun c => client_id c = id) (<[i := c']> l))
            = length (filter (fun c => client_id c = id) l)) as H; [|by apply H].
  induction l as [|x l IH]; intros [|i]; try done.
  - intros [= ->]. change (<[0%nat := c']> (c :: l)) with (c' :: l).
    rewrite !filter_cons, Hid. by destruct (decide _).
  - intros Hl. change (<[S i := c']> (x :: l)) with (x :: <[i := c']> l).
    rewrite !filter_cons. destruct (decide _); cbn; by rewrite IH.
Qed.

Lemma pool_of_set id id' l m : pool_of id (set_pool id' l m) = if decide (id' = id) then l else pool_of id m.
Proof.
  unfold pool_of, set_pool. cbn [http_client_pool_list_]. destruct (decide (id' = id)) as [->|Hn].
  - by rewrite lookup_insert_eq.
  - by rewrite lookup_insert_ne.
Qed.

(** Where [p] is in a list that did not hold it, or held it once. *)
Lemma ok_sent_once m n p : mgr_ok m -> sending_clients m !! n = Some p ->
  exists c, objs m !! p = Some c /\ (p ∉ pool_of (client_id c) m) /\ (p ∉ in_use m)
    /\ (p ∉ delete n (sending_clients m)).
Proof.
  intros Hm Hn. pose proof (occ_delete p p n _ Hn) as Ho. rewrite decide_True in Ho by done.
  assert (p < length (objs m))%nat as Hl by (apply (mo_sending _ Hm); by eapply list_elem_of_lookup_2).
  destruct (lookup_lt_is_Some_2 _ _ Hl) as [c Hc]. exists c. pose proof (mo_place _ Hm p c Hc) as Hp.
  split; [done|]. split_and!; intros H; apply list_elem_of_In, (count_occ_In Nat.eq_dec) in H; unfold occ in *; lia.
Qed.

Lemma ok_used_once m n p : mgr_ok m -> in_use m !! n = Some p ->
  exists c, objs m !! p = Some c /\ (p ∉ pool_of (client_id c) m) /\ (p ∉ sending_clients m)
    /\ (p ∉ delete n (in_use m)).
Proof.
  intros Hm Hn. pose proof (occ_delete p p n _ Hn) as Ho. rewrite decide_True in Ho by done.
  assert (p < length (objs m))%nat as Hl by (apply (mo_in_use _ Hm); by eapply list_elem_of_lookup_2).
  destruct (lookup_lt_is_Some_2 _ _ Hl) as [c Hc]. exists c. pose proof (mo_place _ Hm p c Hc) as Hp.
  split; [done|]. split_and!; intros H; apply list_elem_of_In, (count_occ_In Nat.eq_dec) in H; unfold occ in *; lia.
Qed.

(** A client that changes place and keeps its backend: the sums that matter. *)
Lemma ok_moved m p c c' pools sending used :
  mgr_ok m -> objs m !! p = Some c -> client_id c' = client_id c ->
  let m' := mk_client_mgr (<[p := c']> (objs m)) pools sending used (client_pool_list_ m) (client_num_ m) in
  (forall q d, objs m !! q = Some d ->
     occ q (pool_of (client_id d) m') + occ q sending + occ q used
     = occ q (pool_of (client_id d) m) + occ q (sending_clients m) + occ q (in_use m))%nat ->
  (forall id q, q ∈ pool_of id m' -> q ∈ pool_of id m \/ q = p /\ id = client_id c) ->
  (forall q, q ∈ sending -> q ∈ sending_clients m \/ q = p) ->
  (forall q, q ∈ used -> q ∈ in_use m \/ q = p) ->
  mgr_ok m'.
Proof.
  intros Hm Hp Hid m' Hsum Hpool Hsend Huse. pose proof (lookup_lt_Some _ _ _ Hp) as Hlt.
  assert (forall q d, <[p := c']> (objs m) !! q = Some d ->
            exists d0, objs m !! q = Some d0 /\ client_id d0 = client_id d) as Hobj.
  { intros q d H. apply list_lookup_insert_Some in H as [(<- & <- & _)|[_ H]]; [by exists c|by exists d]. }
  assert (forall q d0, objs m !! q = Some d0 -> exists d, <[p := c']> (objs m) !! q = Some d
            /\ client_id d = client_id d0) as Hobj'.
  { intros q d0 H. destruct (decide (p = q)) as [<-|Hn].
    - exists c'. rewrite list_lookup_insert_eq by done. split; [done|]. congruence.
    - exists d0. by rewrite list_lookup_insert_ne. }
  split; subst m'; cbn [objs sending_clients in_use].
  - intros q d H. destruct (Hobj q d H) as (d0 & H0 & E). rewrite <- E. rewrite Hsum by done.
    by apply (mo_place _ Hm).
  - intros id q H. destruct (Hpool id q H) as [H0|[-> ->]].
    + destruct (mo_pool _ Hm id q H0) as (d0 & Hd & <-). destruct (Hobj' q d0 Hd) as (d & ? & ?). by exists d.
    + exists c'. by rewrite list_lookup_insert_eq.
  - intros q H. rewrite length_insert. destruct (Hsend q H) as [H0| ->]; [by apply (mo_sending _ Hm)|done].
  - intros q H. rewrite length_insert. destruct (Huse q H) as [H0| ->]; [by apply (mo_in_use _ Hm)|done].
  - intros id. pose proof (http_count_insert id m p c c' Hp Hid) as E. unfold http_count in *. cbn in *.
    rewrite E. apply (mo_limit _ Hm).
  - intros id. pose proof (http_count_insert id m p c c' Hp Hid) as E. unfold http_count, base_count, num_of in *.
    cbn in *. rewrite E. apply (mo_num _ Hm).
Qed.

Lemma wrap_succ n : 0 <= n <= MAX_CLIENT_NUM + 3 -> w32 (n + 1) = n + 1.
Proof. unfold MAX_CLIENT_NUM. intros H. apply wrap_small. change (2 ^ 32) with 4294967296. lia. Qed.

(** ** The steps *)

(** A new client, when the pool of its address is empty. *)
Lemma acquire_new_ok ip port m : mgr_ok m -> num_of (getClientId ip port) m <= MAX_CLIENT_NUM ->
  mgr_ok (count_client (getClientId ip port) (mk_client_mgr (objs m ++ [new_http_client ip port]) (http_client_pool_list_ m)
            (sending_clients m ++ [length (objs m)]) (in_use m) (client_pool_list_ m) (client_num_ m))).
Proof.
  intros Hm Hn. set (id := getClientId ip port) in *.
  pose proof (mo_num _ Hm id) as Hnum. set (new := new_http_client ip port).
  assert (client_id new = id) as Hnew by done.
  assert (forall q c, (objs m ++ [new]) !! q = Some c -> objs m !! q = Some c \/ q = length (objs m) /\ c = new) as Hobj.
  { intros q c H. apply lookup_app_Some in H as [H|[Hq H]]; [by left|right].
    apply list_lookup_singleton_Some in H as [Hq0 <-]. split; [lia|done]. }
  assert (forall id', http_count id' (mk_client_mgr (objs m ++ [new]) (http_client_pool_list_ m)
            (sending_clients m ++ [length (objs m)]) (in_use m) (client_pool_list_ m)
            (<[id := w32 (num_of id m + 1)]> (client_num_ m)))
          = (http_count id' m + if decide (id = id') then 1 else 0)%nat) as Hcount.
  { intros id'. unfold http_count. cbn [objs]. rewrite filter_app, length_app, filter_cons, filter_nil, Hnew.
    by destruct (decide _). }
  unfold count_client. cbn [objs http_client_pool_list_ sending_clients in_use client_pool_list_ client_num_ num_of].
  change (num_of id (mk_client_mgr _ _ _ _ _ (client_num_ m))) with (num_of id m).
  split; cbn [objs sending_clients in_use].
  - intros q c H. change (pool_of (client_id c) _) with (pool_of (client_id c) m).
    rewrite occ_app, occ_cons. change (occ q []) with 0%nat.
    destruct (Hobj q c H) as [H0|[-> ->]].
    + rewrite decide_False by (apply lookup_lt_Some in H0; lia). pose proof (mo_place _ Hm q c H0) as H1. lia.
    + rewrite decide_True by done.
      assert (forall l', (forall x, x ∈ l' -> (x < length (objs m))%nat) -> occ (length (objs m)) l' = 0%nat) as Hz
        by (intros l' Hl; apply occ_zero; intros Hx%Hl; lia).
      rewrite !Hz; [done|exact (mo_in_use _ Hm)|exact (mo_sending _ Hm)|].
      intros x Hx. destruct (mo_pool _ Hm _ _ Hx) as (d & Hd & _). by eapply lookup_lt_Some.
  - intros id' q Hq. destruct (mo_pool _ Hm id' q Hq) as (d & Hd & Hid). exists d.
    split; [by apply lookup_app_l_Some|done].
  - intros q Hq. rewrite length_app. cbn. apply elem_of_app in Hq as [Hq|Hq].
    + pose proof (mo_sending _ Hm q Hq). lia.
    + apply list_elem_of_singleton in Hq as ->. lia.
  - intros q Hq. rewrite length_app. pose proof (mo_in_use _ Hm q Hq). lia.
  - intros id'. rewrite Hcount. pose proof (mo_limit _ Hm id'). destruct (decide (id = id')) as [<-|]; lia.
  - intros id'. rewrite Hcount. change (base_count id' _) with (base_count id' m).
    unfold num_of at 1. cbn [client_num_]. pose proof (mo_num _ Hm id') as Hn'. destruct (decide (id = id')) as [<-|Hne].
    + rewrite lookup_insert_eq. change (default 0 (Some ?x)) with x.
      rewrite wrap_succ by by apply num_bound. lia.
    + rewrite lookup_insert_ne by done. unfold num_of in Hn'. lia.
Qed.

(** A client of the pool. *)
Lemma acquire_pooled_ok id p l m : mgr_ok m -> pool_of id m = p :: l -> mgr_ok (set_sending (sending_clients m ++ [p]) (set_pool id l m)).
Proof.
  intros Hm El.
  assert (p ∈ pool_of id m) as Hp by (rewrite El; by left).
  destruct (mo_pool _ Hm id p Hp) as (c & Hc & Hid).
  pose proof (ok_moved m p c c (<[id := l]> (http_client_pool_list_ m)) (sending_clients m ++ [p]) (in_use m)
                Hm Hc eq_refl) as H. cbn zeta in H. rewrite list_insert_id in H by done. apply H; clear H.
  - intros q d Hd. change (pool_of (client_id d) (mk_client_mgr _ _ _ _ _ _))
      with (pool_of (client_id d) (set_pool id l m)). rewrite pool_of_set, occ_app, occ_cons.
    change (occ q []) with 0%nat. destruct (decide (id = client_id d)) as [<-|Hne].
    + rewrite El, occ_cons. lia.
    + rewrite decide_False; [lia|]. intros ->. congruence.
  - intros id' q. change (pool_of id' (mk_client_mgr _ _ _ _ _ _)) with (pool_of id' (set_pool id l m)).
    rewrite pool_of_set. destruct (decide (id = id')) as [<-|]; [|by left].
    intros Hq. left. rewrite El. by right.
  - intros q [Hq|Hq%list_elem_of_singleton]%elem_of_app; [by left|by right].
  - by left.
Qed.

Lemma acquire_ok ip port m : mgr_ok m -> mgr_ok (snd (acquire ip port m)).
Proof.
  intros Hm. unfold acquire. destruct (pool_of (getClientId ip port) m) as [|p l] eqn:El; [|by apply acquire_pooled_ok].
  destruct (Z.gtb_spec (num_of (getClientId ip port) m) MAX_CLIENT_NUM) as [|Hn]; cbn [snd]; [done|]. by apply acquire_new_ok.
Qed.

Lemma send_keeps_id path method reqdata to_ms cr wr c ret c' :
  send_request path method reqdata to_ms cr wr c = Sent ret c' -> client_id c' = client_id c.
Proof.
  unfold send_request, send_http_request. destruct (print_request _); [|done].
  destruct (send_data _ _ _ _) as [[r s]|]; [|done]. by intros [= _ <-].
Qed.

Lemma response_keeps_id aborted reads c ret rsp c' rest :
  get_response aborted reads c = Some (ret, rsp, c', rest) -> client_id c' = client_id c.
Proof.
  unfold get_response. destruct (Response.parse _ _ _) as [[[[r p] i] rest']|]; [|done]. cbn.
  destruct r as [r|]; [|done]. cbn. destruct i as [i|]; [|done]. cbn.
  destruct (succeeded _ _); by intros [= _ _ <- _].
Qed.

(** Giving a client back to the pool of its backend. *)
Lemma returned_ok m p c c' sending used :
  mgr_ok m -> objs m !! p = Some c -> client_id c' = client_id c ->
  (forall q, occ q sending + occ q used + (if decide (q = p) then 1 else 0)
             = occ q (sending_clients m) + occ q (in_use m))%nat ->
  (forall q, q ∈ sending -> q ∈ sending_clients m) -> (forall q, q ∈ used -> q ∈ in_use m) ->
  mgr_ok (let m1 := mk_client_mgr (<[p := c']> (objs m)) (http_client_pool_list_ m) sending used
                      (client_pool_list_ m) (client_num_ m) in
          set_pool (client_id c') (pool_of (client_id c') m1 ++ [p]) m1).
Proof.
  intros Hm Hc Hid Hsum Hsend Huse. cbn zeta. unfold set_pool.
  cbn [objs http_client_pool_list_ sending_clients in_use client_pool_list_ client_num_].
  set (l := pool_of _ _ ++ [p]). change (pool_of (client_id c') _) with (pool_of (client_id c') m) in l.
  eapply ok_moved; [done|exact Hc|exact Hid|..].
  - intros q d Hd. change (pool_of (client_id d) (mk_client_mgr _ (<[client_id c' := l]> _) _ _ _ _))
      with (pool_of (client_id d) (set_pool (client_id c') l m)). rewrite pool_of_set. specialize (Hsum q).
    destruct (decide (client_id c' = client_id d)) as [E|Hne].
    + subst l. rewrite E, occ_app, occ_cons. change (occ q []) with 0%nat.
      destruct (decide (p = q)), (decide (q = p)); try congruence; lia.
    + rewrite decide_False in Hsum; [lia|]. intros ->. congruence.
  - intros id' q. change (pool_of id' (mk_client_mgr _ (<[client_id c' := l]> _) _ _ _ _))
      with (pool_of id' (set_pool (client_id c') l m)). rewrite pool_of_set.
    destruct (decide (client_id c' = id')) as [<-|]; [|by left].
    intros [Hq|Hq%list_elem_of_singleton]%elem_of_app; [by left|right; by rewrite <- Hid].
  - intros q Hq. left. by apply Hsend.
  - intros q Hq. left. by apply Huse.
Qed.

Lemma elem_delete {A} (q : A) (n : nat) (l : list A) : q ∈ delete n l -> q ∈ l.
Proof. intros H. eapply elem_of_submseteq; [exact H|]. apply sublist_submseteq, sublist_delete. Qed.

Lemma send_finish_ok n path method reqdata to_ms cr wr m r m' :
  mgr_ok m -> send_finish n path method reqdata to_ms cr wr m = Some (r, m') -> mgr_ok m'.
Proof.
  intros Hm. unfold send_finish. destruct (sending_clients m !! n) as [p|] eqn:En; [|done]. cbn [mbind option_bind].
  destruct (objs m !! p) as [c|] eqn:Ec; [|done]. cbn [mbind option_bind].
  destruct (send_request _ _ _ _ _ _ _) as [ret c'| |] eqn:Es; try done.
  apply send_keeps_id in Es as Hid. pose proof (occ_delete) as Hocc.
  destruct ret; intros [= <- <-].
  - unfold set_obj, set_sending, set_in_use.
    cbn [objs http_client_pool_list_ sending_clients in_use client_pool_list_ client_num_].
    eapply ok_moved; [done|exact Ec|exact Hid|..].
    + intros q d Hd. change (pool_of (client_id d) (mk_client_mgr _ (http_client_pool_list_ m) _ _ _ _))
        with (pool_of (client_id d) m).
      rewrite (Hocc q p n _ En), occ_app, occ_cons. change (occ q []) with 0%nat. lia.
    + intros id q Hq. by left.
    + intros q Hq. left. by eapply elem_delete.
    + intros q [Hq|Hq%list_elem_of_singleton]%elem_of_app; [by left|by right].
  - apply (returned_ok m p c c' (delete n (sending_clients m)) (in_use m)); [done|exact Ec|exact Hid|..].
    + intros q. rewrite (Hocc q p n _ En). destruct (decide (p = q)), (decide (q = p)); try congruence; lia.
    + intros q Hq. by eapply elem_delete.
    + done.
Qed.

Lemma http_get_response_ok n aborted reads m r m' :
  mgr_ok m -> http_get_response n aborted reads m = Some (r, m') -> mgr_ok m'.
Proof.
  intros Hm. unfold http_get_response. destruct (in_use m !! n) as [p|] eqn:En; [|done]. cbn [mbind option_bind].
  destruct (objs m !! p) as [c|] eqn:Ec; [|done]. cbn [mbind option_bind].
  destruct (get_response _ _ _) as [[[[ret rsp] c'] rest]|] eqn:Es; [|done]. cbn [mbind option_bind].
  apply response_keeps_id in Es as Hid. intros [= <- <-].
  apply (returned_ok m p c c' (sending_clients m) (delete n (in_use m))); [done|exact Ec|exact Hid|..].
  - intros q. rewrite (occ_delete q p n _ En). destruct (decide (p = q)), (decide (q = p)); try congruence; lia.
  - done.
  - intros q Hq. by eapply elem_delete.
Qed.

(** A change of the multiplexing clients. *)
Lemma set_base_ok m key c n :
  mgr_ok m ->
  (forall id, default 0 (n !! id) = Z.of_nat (http_count id m + base_count id (set_base key c m))) ->
  mgr_ok (mk_client_mgr (objs m) (http_client_pool_list_ m) (sending_clients m) (in_use m)
            (<[key := c]> (client_pool_list_ m)) n).
Proof. intros [H1 H2 H3 H4 H5 H6] Hn. split; [exact H1|exact H2|exact H3|exact H4|exact H5|exact Hn]. Qed.

Lemma base_count_same m key c c0 id : client_pool_list_ m !! key = Some c0 ->
  base_count id (set_base key c m) = base_count id m.
Proof.
  intros Hk. unfold base_count. cbn [set_base client_pool_list_].
  assert (forall k, match <[key := c]> (client_pool_list_ m) !! k with Some _ => 1%nat | None => 0%nat end
                    = match client_pool_list_ m !! k with Some _ => 1%nat | None => 0%nat end) as H.
  { intros k. destruct (decide (key = k)) as [<-|Hn]; [by rewrite lookup_insert_eq, Hk|by rewrite lookup_insert_ne]. }
  by rewrite !H.
Qed.

Lemma base_count_new m ty id0 c id : client_pool_list_ m !! (ty, id0) = None -> ty = RPC_Service \/ ty = Raw_Service ->
  base_count id (set_base (ty, id0) c m) = (base_count id m + if decide (id0 = id) then 1 else 0)%nat.
Proof.
  intros Hk Hty. unfold base_count. cbn [set_base client_pool_list_].
  destruct (decide (id0 = id)) as [<-|Hn].
  - destruct Hty as [-> | ->]; rewrite lookup_insert_eq, lookup_insert_ne by done; rewrite Hk; lia.
  - rewrite !lookup_insert_ne by congruence. lia.
Qed.

Lemma base_send_ok path ip port ty reqdata to_ms m r m' :
  mgr_ok m -> base_send_begin pack path ip port ty reqdata to_ms m = Some (r, m') -> mgr_ok m'.
Proof.
  intros Hm. unfold base_send_begin. destruct (_ || _); [done|]. destruct (_ =? HTTP_Service); [done|].
  set (id := getClientId ip port). destruct (client_pool_list_ m !! (ty, id)) as [c|] eqn:Ec.
  - intros [= <- <-]. unfold set_base. apply set_base_ok; [done|]. intros id'.
    rewrite (base_count_same _ _ _ _ _ Ec). apply (mo_num _ Hm).
  - destruct (Z.eqb_spec ty RPC_Service) as [Ht|_]; [|destruct (Z.eqb_spec ty Raw_Service) as [Ht|_]];
      cbn [orb]; intros [= <- <-]; [..|done];
      (unfold set_base, count_client;
       cbn [objs http_client_pool_list_ sending_clients in_use client_pool_list_ client_num_];
       apply (set_base_ok m); [done|]; intros id'; rewrite base_count_new by auto;
       pose proof (mo_num _ Hm id') as Hn; unfold num_of in Hn; destruct (decide (id = id')) as [<-|Hne];
       [rewrite lookup_insert_eq; change (default 0 (Some ?x)) with x; rewrite wrap_succ by (by apply num_bound);
        unfold num_of; lia
       |rewrite lookup_insert_ne by done; lia]).
Qed.

Lemma base_step_ok key e m m' : mgr_ok m -> base_step pack key e m = Some m' -> mgr_ok m'.
Proof.
  intros Hm. unfold base_step.
  assert (forall e, (c ← client_pool_list_ m !! key;
    c ← client_step (pack (fst key)) (fst key =? RPC_Service) e c; Some (set_base key c m)) = Some m' -> mgr_ok m') as H.
  { intros e0. destruct (client_pool_list_ m !! key) as [c|] eqn:Ec; [|done]. cbn [mbind option_bind].
    destruct (client_step _ _ _ _) as [c'|]; [|done]. cbn [mbind option_bind]. intros [= <-].
    apply set_base_ok; [done|]. intros id. rewrite (base_count_same _ _ _ _ _ Ec). apply (mo_num _ Hm). }
  destruct e; [done|apply H..].
Qed.

Lemma mgr_step_ok e m m' : mgr_ok m -> mgr_step pack e m = Some m' -> mgr_ok m'.
Proof.
  intros Hm Hs. destruct e as [ip port|n path method d t cr wr|n aborted reads|path ip port ty d t|key e];
    cbn [mgr_step] in Hs.
  - injection Hs as <-. by apply acquire_ok.
  - destruct (send_finish _ _ _ _ _ _ _ _) as [[r m1]|] eqn:E; [|done]. injection Hs as <-. by eapply send_finish_ok.
  - destruct (http_get_response _ _ _ _) as [[r m1]|] eqn:E; [|done]. injection Hs as <-. by eapply http_get_response_ok.
  - destruct (base_send_begin _ _ _ _ _ _ _ _) as [[r m1]|] eqn:E; [|done]. injection Hs as <-. by eapply base_send_ok.
  - by eapply base_step_ok.
Qed.

Lemma mgr_runs_ok es m : mgr_runs pack es m -> mgr_ok m.
Proof. induction 1 as [|es m e m' _ IH Hs]; [apply new_mgr_ok|by eapply mgr_step_ok]. Qed.

End Spec.

(** C35: a client is in one place.  Whatever the order in which fibers take
    clients, finish writing and read responses, every HTTP client is exactly
    once in the pool of its own backend, with a fiber that writes, or with a
    caller: no client is lost, none is used by two calls, none is pooled for
    another backend; and the counter of a backend counts its clients of all
    protocols. *)
Theorem clients_conserved pack es m :
  mgr_runs pack es m ->
  (forall p c, objs m !! p = Some c ->
     (occ p (pool_of (client_id c) m) + occ p (sending_clients m) + occ p (in_use m) = 1)%nat)
  /\ (forall id p, p ∈ pool_of id m -> exists c, objs m !! p = Some c /\ client_id c = id)
  /\ (forall p, p ∈ sending_clients m \/ p ∈ in_use m -> (p < length (objs m))%nat)
  /\ forall id, num_of id m = Z.of_nat (http_count id m + base_count id m).
Proof.
  intros Hr. pose proof (mgr_runs_ok _ _ _ Hr) as Hm. split_and!.
  - apply (mo_place _ Hm).
  - apply (mo_pool _ Hm).
  - intros p [H|H]; [by apply (mo_sending _ Hm)|by apply (mo_in_use _ Hm)].
  - apply (mo_num _ Hm).
Qed.

(** The number of connections to a backend is bounded, but by one more than
    [MAX_CLIENT_NUM], since the test is [>]: at most 101 HTTP clients are
    created for it, a bound that 101 calls at the same time reach; with the two
    other protocols the counter stays below 104 and never wraps around. *)
Theorem client_limit pack es m id :
  mgr_runs pack es m ->
  ((http_count id m <= 101)%nat /\ 0 <= num_of id m <= 103)
  /\ exists es' m', mgr_runs pack es' m' /\ http_count (getClientId [] []) m' = 101%nat
       /\ fst (acquire [] [] m') = None.
Proof.
  intros Hr. pose proof (mgr_runs_ok _ _ _ Hr) as Hm. split.
  - pose proof (mo_limit _ Hm id) as H. pose proof (num_bound _ id Hm) as H'. unfold MAX_CLIENT_NUM in *. lia.
  - assert (forall n, mgr_runs pack (replicate n (Acquire [] [])) (Nat.iter n (fun m => snd (acquire [] [] m)) new_client_mgr))
      as Hn.
    { induction n as [|n IH]; [constructor|]. rewrite replicate_S_end. by eapply mgr_steps. }
    exists (replicate 101 (Acquire [] [])), (Nat.iter 101 (fun m => snd (acquire [] [] m)) new_client_mgr).
    split; [apply Hn|]. split; vm_compute; reflexivity.
Qed.

(** ** Witnesses *)

Lemma run_mgr pack es : forall m,
  foldl (fun m e => m ≫= mgr_step pack e) (Some new_client_mgr) es = Some m -> mgr_runs pack es m.
Proof.
  induction es as [|e es IH] using rev_ind; intros m; [intros [= <-]; constructor|].
  rewrite foldl_app. cbn. destruct (foldl _ _ es) as [m0|] eqn:E; [|done]. cbn.
  intros Hs. eapply mgr_steps; [by apply IH|exact Hs].
Qed.

Definition raw_pack (_ : Z) : Z -> bytes -> bytes -> bytes := Raw.packed_senddata.

(** Two calls at once: the first is answered, the write of the second fails;
    a raw client connects to the same backend. *)
Definition busy_events : list mgr_event :=
  [Acquire (b "h") (b "80"); Acquire (b "h") (b "80");
   Send_finish 0 (b "/a") GET [] 500 (Connected false true) Written;
   Send_finish 0 (b "/b") GET [] 500 (Connected true false) Written;
   Base_send [] (b "h") (b "80") Raw_Service (b "x") 500;
   Http_response 0 false [Response.Read (b "HTTP/1.1 200 OK" ++ CRLF ++ b "Content-Length: 0" ++ CRLF ++ CRLF)];
   Acquire (b "h") (b "80")].
Definition busy_mgr : client_mgr :=
  match foldl (fun m e => m ≫= mgr_step raw_pack e) (Some new_client_mgr) busy_events with
  | Some m => m
  | None => new_client_mgr
  end.

Lemma busy_runs : mgr_runs raw_pack busy_events busy_mgr.
Proof. apply run_mgr. vm_compute. reflexivity. Qed.

Lemma clients_conserved_witness :
  length (objs busy_mgr) = 2%nat /\ in_use busy_mgr = []
  /\ (forall p c, objs busy_mgr !! p = Some c ->
     (occ p (pool_of (client_id c) busy_mgr) + occ p (sending_clients busy_mgr) + occ p (in_use busy_mgr) = 1)%nat)
  /\ num_of (b "h:80") busy_mgr = Z.of_nat (http_count (b "h:80") busy_mgr + base_count (b "h:80") busy_mgr)
  /\ num_of (b "h:80") busy_mgr = 3.
Proof.
  split; [vm_compute; reflexivity|]. split; [vm_compute; reflexivity|].
  destruct (clients_conserved raw_pack busy_events busy_mgr busy_runs) as (H1 & _ & _ & H4).
  split; [exact H1|]. split; [apply H4|]. vm_compute. reflexivity.
Defined.

Lemma client_limit_witness :
  (http_count (b "h:80") busy_mgr <= 101)%nat /\ 0 <= num_of (b "h:80") busy_mgr <= 103.
Proof. apply (client_limit raw_pack busy_events busy_mgr (b "h:80") busy_runs). Defined.
