(* ===== verification/FibpTransactionMgr.v ===== *)
(** * [FibpTransactionMgr]: confirming and cancelling

    The identifier of a transaction is looked for in the text of a response;
    the confirmation and the cancellation are calls of the HTTP client. *)

From stdpp Require Import options.
From S2P Require Import Prelude HttpProtocol FibpClient FibpHttpClient FibpClientMgr.

(** [s.find(needle, pos)]. *)
Fixpoint find_at (needle s : bytes) (i : nat) : option nat :=
  if bool_decide (take (length needle) s = needle) then Some i
  else match s with
       | [] => None
       | _ :: s => find_at needle s (S i)
       end.
Definition find_string (needle s : bytes) (pos : nat) : option nat :=
  if (length s <? pos)%nat then None else find_at needle (drop pos s) pos.

(** [s.find(literal, pos, n)] looks for the first [n] characters of an array:
    of the literal, its terminating zero and whatever [memory] follows it. *)
Definition find_chars (literal memory s : bytes) (pos n : nat) : option nat :=
  find_string (take n (literal ++ NUL :: memory)) s pos.

Definition QUOTE : ascii := of_code 34.
Definition tran_key : bytes := QUOTE :: b "transaction_id" ++ [QUOTE].

(** [memory1] and [memory2]: what follows the two literals. *)
Definition get_transaction_id (memory1 memory2 service_rps : bytes) : bytes :=
  match find_string tran_key service_rps 0 with
  | None => []
  | Some pos =>
      match find_chars [QUOTE] memory1 service_rps (pos + length tran_key) 10 with
      | None => []
      | Some id_start_pos =>
          match find_chars [QUOTE] memory2 service_rps (id_start_pos + 1) 128 with
          | None => []
          | Some id_end_pos => take (id_end_pos - id_start_pos - 1) (drop (id_start_pos + 1) service_rps)
          end
      end
  end.

(** The calls of [confirm] and [cancel], as what they ask the client manager
    for: the path, the backend and the body of a POST. *)
Record transaction_call := mk_transaction_call {
  tc_path : bytes;
  tc_host : bytes;
  tc_port : bytes;
  tc_postdata : bytes;
  tc_timeout : Z
}.

Definition send_transaction_api (host port api tran_id tran_action : bytes) : transaction_call :=
  mk_transaction_call (api ++ tran_action) host port
    (b "{" ++ tran_key ++ b ":" ++ [QUOTE] ++ tran_id ++ [QUOTE] ++ b "}") (1000 * 10).
Definition confirm (host port api tran_id : bytes) : transaction_call :=
  send_transaction_api host port api tran_id (b "/confirm").
Definition cancel (host port api tran_id : bytes) : transaction_call :=
  send_transaction_api host port api tran_id (b "/cancel").

(** ** What is found *)

Lemma find_at_spec needle s i j : find_at needle s i = Some j ->
  (i <= j)%nat /\ take (length needle) (drop (j - i) s) = needle.
Proof.
  revert i. induction s as [|c s IH]; intros i; cbn [find_at]; case_bool_decide as E; try done.
  - intros [= <-]. rewrite Nat.sub_diag. split; [lia|exact E].
  - intros [= <-]. rewrite Nat.sub_diag. split; [lia|exact E].
  - intros H. apply IH in H as [Hle Hj]. split; [lia|].
    by replace (j - i)%nat with (S (j - S i)) by lia.
Qed.

Lemma find_string_in needle s pos j : find_string needle s pos = Some j -> forall c, c ∈ needle -> c ∈ s.
Proof.
  unfold find_string. destruct (_ <? _)%nat; [done|]. intros H c Hc. apply find_at_spec in H as [_ E].
  rewrite <- E in Hc. eapply elem_of_submseteq; [exact Hc|]. apply sublist_submseteq.
  etransitivity; [apply sublist_take|]. rewrite drop_drop. apply sublist_drop.
Qed.

Lemma no_transaction_id memory1 memory2 service_rps :
  NUL ∉ service_rps -> get_transaction_id memory1 memory2 service_rps = [].
Proof.
  intros Hnul. unfold get_transaction_id. destruct (find_string _ _ 0) as [pos|]; [|done].
  destruct (find_chars _ _ _ _ 10) as [j|] eqn:E; [|done]. exfalso. apply Hnul.
  eapply find_string_in; [exact E|]. right. left.
Qed.

(** No transaction is ever identified.  The third argument of
    [find] is the length of what is looked for, not a range: the lookup asks
    for the quote, the terminating zero of the literal and what follows it in
    memory.  Whatever that is, in a response without a zero byte it is not
    found, and the identifier is empty. *)
Theorem transaction_id_never_found memory1 memory2 service_rps :
  NUL ∉ service_rps -> get_transaction_id memory1 memory2 service_rps = [].
Proof. apply no_transaction_id. Qed.

Definition sample_response : bytes := b "{" ++ tran_key ++ b ":" ++ [QUOTE] ++ b "42" ++ [QUOTE] ++ b "}".

Lemma transaction_id_never_found_witness :
  get_transaction_id (b "%s") (b "transaction") sample_response = [].
Proof.
  apply transaction_id_never_found. intros H. apply list_elem_of_In in H. vm_compute in H.
  repeat (destruct H as [H|H]; [discriminate H|]). exact H.
Defined.
