(* ===== verification/FibpForwardManager.v ===== *)
(** * [FibpForwardManager]: calling services

    A call of one service tries up to three backends and falls back on the
    cache; a call of several services runs them in fibers and waits for all of
    them.  The service directory and the connections are what the class
    [Backends] offers; the cache of [izenelib] is the class [ConcurrentCache]. *)

From stdpp Require Import options.
From S2P Require Import Prelude RequestParser FibpTransactionMgr.

Record ServiceCallRsp := mk_call_rsp {
  rsp_service_name : bytes;
  rsp : bytes;
  error : bytes;
  is_cached : bool;
  host : bytes;
  port : bytes
}.

Definition new_call_rsp : ServiceCallRsp := mk_call_rsp [] [] [] false [] [].

Definition with_service_name (n : bytes) (r : ServiceCallRsp) : ServiceCallRsp :=
  mk_call_rsp n (rsp r) (error r) (is_cached r) (host r) (port r).
Definition with_rsp (d : bytes) (r : ServiceCallRsp) : ServiceCallRsp :=
  mk_call_rsp (rsp_service_name r) d (error r) (is_cached r) (host r) (port r).
Definition with_error (e : bytes) (r : ServiceCallRsp) : ServiceCallRsp :=
  mk_call_rsp (rsp_service_name r) (rsp r) e (is_cached r) (host r) (port r).
Definition with_cached (c : bool) (r : ServiceCallRsp) : ServiceCallRsp :=
  mk_call_rsp (rsp_service_name r) (rsp r) (error r) c (host r) (port r).
Definition with_backend (h p : bytes) (r : ServiceCallRsp) : ServiceCallRsp :=
  mk_call_rsp (rsp_service_name r) (rsp r) (error r) (is_cached r) h p.

(** [ServiceCallReq::operator==]: [enable_cache] is not compared. *)
Definition req_eq (x y : ServiceCallReq) : bool :=
  bool_decide (service_name x = service_name y) && bool_decide (service_api x = service_api y)
  && bool_decide (service_req_data x = service_req_data y)
  && bool_decide (service_cluster x = service_cluster y)
  && (service_type x =? service_type y) && (method x =? method y).

(** ** What the manager uses *)

(** A cache may forget, and a lookup may change what it will forget; it never
    answers with what was not inserted for an equal key. *)
Class ConcurrentCache := {
  cache_t : Type;
  cache_new : cache_t;
  cache_get : ServiceCallReq -> cache_t -> option ServiceCallRsp * cache_t;
  cache_insert : ServiceCallReq -> ServiceCallRsp -> cache_t -> cache_t;
  cached : cache_t -> ServiceCallReq -> ServiceCallRsp -> Prop;
  cached_new k v : ~ cached cache_new k v;
  cached_insert k v c k' v' : cached (cache_insert k v c) k' v' -> (k' = k /\ v' = v) \/ cached c k' v';
  cached_get k c k' v' : cached (snd (cache_get k c)) k' v' -> cached c k' v';
  cache_get_some k c v c' : cache_get k c = (Some v, c') -> exists k', req_eq k' k = true /\ cached c k' v
}.

(** One attempt at a backend: [send_request] and [get_response] of the client
    manager. *)
Inductive attempt_result :=
| Not_sent
| Answered (ret : bool) (rspdata : bytes) (can_retry : bool)
| Attempt_throws.

Class Backends (W : Type) := {
  (** [service_mgr_->get_service_address(balance_index, name, type, ip, port)] *)
  get_service_address : Z -> bytes -> Z -> W -> option (bytes * bytes) * W;
  (** [client_mgr.send_request(io, api, method, ip, port, data, timeout)] *)
  http_attempt : bytes -> Z -> bytes -> bytes -> bytes -> Z -> W -> attempt_result * W;
  (** [client_mgr.send_request(io, api, ip, port, type, data, timeout)] *)
  future_attempt : bytes -> bytes -> bytes -> Z -> bytes -> Z -> W -> attempt_result * W
}.

Section Manager.
Context {cache : ConcurrentCache} {W : Type} {backends : Backends W}.

Record manager := mk_manager {
  world : W;
  service_cache_ : cache_t;
  service_fail_stat_ : gmap bytes Z
}.

Definition with_world (w : W) (m : manager) : manager := mk_manager w (service_cache_ m) (service_fail_stat_ m).
Definition with_cache (c : cache_t) (m : manager) : manager := mk_manager (world m) c (service_fail_stat_ m).

Definition fail_stat (name : bytes) (m : manager) : Z := default 0 (service_fail_stat_ m !! name).
Definition count_failure (name : bytes) (m : manager) : manager :=
  mk_manager (world m) (service_cache_ m) (<[name := w32 (fail_stat name m + 1)]> (service_fail_stat_ m)).

(** *** [FibpServiceCache] *)

Definition FibpServiceCache_get (req : ServiceCallReq) (r : ServiceCallRsp) (m : manager)
  : ServiceCallRsp * manager :=
  if negb (enable_cache req) then (r, m)
  else
    let (found, c) := cache_get req (service_cache_ m) in
    (match found with Some tmp => with_cached true tmp | None => r end, with_cache c m).

Definition FibpServiceCache_set (req : ServiceCallReq) (r : ServiceCallRsp) (m : manager) : manager :=
  if negb (bool_decide (error r = [])) || negb (enable_cache req) then m
  else with_cache (cache_insert req r (service_cache_ m)) m.

Definition FibpServiceCache_clear (m : manager) : manager := with_cache cache_new m.

(** *** One service *)

Definition MAX_RETRY : Z := 3.
Definition local_test : bytes := b "local_test".

Definition attempt (req : ServiceCallReq) (ip port : bytes) (timeout_ms : Z) (w : W) : attempt_result * W :=
  if service_type req =? HTTP_Service
  then http_attempt (service_api req) (method req) ip port (service_req_data req) timeout_ms w
  else future_attempt (service_api req) ip port (service_type req) (service_req_data req) timeout_ms w.

Definition err_not_found : bytes := b "Service Not Found.".
Definition err_send : bytes := b "Send Service Request Failed. ".
Definition err_response : bytes := b "Get Service Response Failed. ".

(** The loop: whether the call succeeded, the response and the manager;
    [None] when a type of service that the client manager does not know makes
    it throw, or when [fuel] is too small. *)
Fixpoint retry_loop (fuel : nat) (req : ServiceCallReq) (retry_counter balance_index : Z)
    (r : ServiceCallRsp) (m : manager) : option (bool * ServiceCallRsp * manager) :=
  match fuel with
  | O => None
  | S fuel =>
      let retry_counter := retry_counter + 1 in
      if retry_counter <=? MAX_RETRY then
        let timeout_ms := 5000 * retry_counter in
        let balance_index := wrap 64 (balance_index + 1) in
        match get_service_address balance_index (service_name req) (service_type req) (world m) with
        | (None, w) => Some (false, with_error err_not_found r, with_world w m)
        | (Some (ip, prt), w) =>
            let r := with_backend ip prt r in
            match attempt req ip prt timeout_ms w with
            | (Attempt_throws, _) => None
            | (Not_sent, w) =>
                let m := count_failure (service_name req) (with_world w m) in
                let r := if retry_counter =? MAX_RETRY then with_error err_send r else r in
                retry_loop fuel req retry_counter balance_index r m
            | (Answered ret rspdata can_retry, w) =>
                let m := with_world w m in
                if negb ret then
                  let m := count_failure (service_name req) m in
                  if negb can_retry || (retry_counter =? MAX_RETRY)
                  then Some (false, with_error (err_response ++ rspdata) r, m)
                  else retry_loop fuel req retry_counter balance_index r m
                else Some (true, with_rsp rspdata r, m)
            end
        end
      else Some (false, r, m)
  end.

(** [call_single_service]; [balance_index] is what [rand()] returned. *)
Definition call_single_service (balance_index : Z) (req : ServiceCallReq) (r : ServiceCallRsp) (m : manager)
  : option (ServiceCallRsp * manager) :=
  let r := with_service_name (service_name req) r in
  if bool_decide (service_name req = local_test) then Some (with_rsp local_test r, m)
  else
    '(is_success, r, m) ← retry_loop 4 req 0 balance_index r m;
    Some (if (is_success : bool) then (r, FibpServiceCache_set req r m)
          else if enable_cache req then FibpServiceCache_get req r m else (r, m)).

End Manager.
Arguments manager {cache} W.

(** ** Several services *)

(** [call_services_in_fiber] on the fiber of the pool that runs it: the
    responses, the counter [call_num], where the fiber is, the calls that have
    not ended and how often the callback has been called. *)
Inductive main_fiber := Main_waits | Main_ready | Main_undefined | Main_returned.

Record services := mk_services {
  rsp_list : list ServiceCallRsp;
  call_num : Z;
  main : main_fiber;
  unfinished : list nat;
  callbacks : nat
}.

Definition err_transaction : bytes :=
  b "transaction is supported only if all services using http protocol.".

(** The calls of [confirm] or [cancel] at the end of a transaction, with the
    texts that follow the literals of [get_transaction_id] in memory. *)
Definition transaction_id (memory1 memory2 : bytes) (r : ServiceCallRsp) : bytes :=
  match error r with
  | [] => get_transaction_id memory1 memory2 (rsp r)
  | e => get_transaction_id memory1 memory2 e
  end.
Definition need_cancel (l : list ServiceCallRsp) : bool := existsb (fun r => negb (bool_decide (error r = []))) l.
Definition transaction_calls (memory1 memory2 : bytes) (reqs : list ServiceCallReq) (l : list ServiceCallRsp)
  : list transaction_call :=
  zip_with (fun req r => (req, r)) reqs l ≫= fun '(req, r) =>
    let id := transaction_id memory1 memory2 r in
    if need_cancel l
    then (match id with [] => [] | _ => [cancel (host r) (port r) (service_api req) id] end)
    else [confirm (host r) (port r) (service_api req) id].

Section Services.
Context (call_api_list : list ServiceCallReq) (do_transaction : bool).
(** [transaction_mgr_] points to an object. *)
Context (transaction_mgr_ : bool).
(** [cb] is not empty. *)
Context (cb : bool).

Definition check_http : bool := forallb (fun req => service_type req =? HTTP_Service) call_api_list.

Definition resize (n : nat) (l : list ServiceCallRsp) : list ServiceCallRsp :=
  take n l ++ replicate (n - length l) new_call_rsp.

(** From [do_transaction] on: the members of [transaction_mgr_] are called
    for each response. *)
Definition finish (s : services) : services :=
  if do_transaction && negb transaction_mgr_ && negb (length (rsp_list s) =? 0)%nat
  then mk_services (rsp_list s) (call_num s) Main_undefined (unfinished s) (callbacks s)
  else mk_services (rsp_list s) (call_num s) Main_returned (unfinished s)
         (callbacks s + if cb then 1 else 0).

(** Up to the first wait.  The calls run in other fibers, or in this one when
    there is only one; either way their ends are events. *)
Definition start (l : list ServiceCallRsp) : services :=
  let n := length call_api_list in
  let l := resize n l in
  if do_transaction && negb check_http then
    let l := zip_with (fun req r => with_error err_transaction (with_service_name (service_name req) r)) call_api_list l in
    mk_services l 0 Main_returned [] (if cb then 1 else 0)
  else mk_services l (Z.of_nat n) Main_ready (seq 0 n) 0.

(** The call of the [i]-th service ends with [r]: it decrements the counter
    and notifies the waiting fiber when it reaches zero. *)
Definition sub_done (i : nat) (r : ServiceCallRsp) (s : services) : option services :=
  if bool_decide (i ∈ unfinished s) then
    let call_num := call_num s - 1 in
    Some (mk_services (<[i := r]> (rsp_list s)) call_num
            (match main s with
             | Main_waits => if call_num =? 0 then Main_ready else Main_waits
             | x => x
             end) (List.filter (fun j => negb (j =? i)%nat) (unfinished s)) (callbacks s))
  else None.

(** The waiting fiber is resumed: [while (call_num > 0) cond.wait(guard)]. *)
Definition resume (s : services) : option services :=
  match main s with
  | Main_ready =>
      if call_num s >? 0
      then Some (mk_services (rsp_list s) (call_num s) Main_waits (unfinished s) (callbacks s))
      else Some (finish s)
  | _ => None
  end.

Inductive services_event := Sub_done (i : nat) (r : ServiceCallRsp) | Resume.

Definition services_step (e : services_event) (s : services) : option services :=
  match e with Sub_done i r => sub_done i r s | Resume => resume s end.

Inductive services_runs (l : list ServiceCallRsp) : list services_event -> services -> Prop :=
| services_start : services_runs l [] (start l)
| services_steps es s e s' :
    services_runs l es s -> services_step e s = Some s' -> services_runs l (es ++ [e]) s'.

End Services.
