(* ===== verification/FibpForwardManagerSpec.v ===== *)
(** * What calling services promises

    At most three attempts with a determined conclusion, no failure that looks
    like an answer, cached answers that were given before, and a callback after
    the last call. *)

From stdpp Require Import options.
From S2P Require Import Prelude RequestParser FibpTransactionMgr FibpForwardManager.

(** ** Attempts *)

Section Attempts.
Context {cache : ConcurrentCache} {W : Type} {backends : Backends W}.

(** What one attempt comes to. *)
Inductive tried_one :=
| No_address
| No_send (ip port : bytes)
| Answer (ip port : bytes) (ret : bool) (rspdata : bytes) (can_retry : bool).

Definition try_once (req : ServiceCallReq) (k bi : Z) (w : W) : option (tried_one * W) :=
  match get_service_address bi (service_name req) (service_type req) w with
  | (None, w) => Some (No_address, w)
  | (Some (ip, prt), w) =>
      match attempt req ip prt (5000 * k) w with
      | (Not_sent, w) => Some (No_send ip prt, w)
      | (Answered ret d cr, w) => Some (Answer ip prt ret d cr, w)
      | (Attempt_throws, _) => None
      end
  end.

(** After which no further attempt is made. *)
Definition decisive (o : tried_one) : bool :=
  match o with
  | No_address => true
  | No_send _ _ => false
  | Answer _ _ ret _ can_retry => ret || negb can_retry
  end.

(** The attempts of a call: numbers [k] up to 3, the next one only after one
    that is not decisive, each with the next index and in the state the last
    one left. *)
Inductive attempts (req : ServiceCallReq) : Z -> Z -> W -> list tried_one -> W -> Prop :=
| attempts_last k bi w o w' :
    try_once req k bi w = Some (o, w') -> decisive o = true \/ k = MAX_RETRY ->
    attempts req k bi w [o] w'
| attempts_more k bi w o w1 os w' :
    try_once req k bi w = Some (o, w1) -> decisive o = false -> k < MAX_RETRY ->
    attempts req (k + 1) (wrap 64 (bi + 1)) w1 os w' -> attempts req k bi w (o :: os) w'.

Definition failed (o : tried_one) : bool :=
  match o with No_address => false | No_send _ _ => true | Answer _ _ ret _ _ => negb ret end.
Definition failures (os : list tried_one) : nat := length (List.filter failed os).

(** The backend of the response is that of the last attempt that had one. *)
Definition backend_of (o : tried_one) (r : ServiceCallRsp) : ServiceCallRsp :=
  match o with No_address => r | No_send ip prt => with_backend ip prt r | Answer ip prt _ _ _ => with_backend ip prt r end.

(** The answer, or the error of the last attempt. *)
Definition conclusion (o : tried_one) (r : ServiceCallRsp) : bool * ServiceCallRsp :=
  match o with
  | No_address => (false, with_error err_not_found r)
  | No_send _ _ => (false, with_error err_send r)
  | Answer _ _ true d _ => (true, with_rsp d r)
  | Answer _ _ false d _ => (false, with_error (err_response ++ d) r)
  end.

Definition reply (os : list tried_one) (r : ServiceCallRsp) : bool * ServiceCallRsp :=
  let r := foldl (fun r o => backend_of o r) r os in
  match last os with Some o => conclusion o r | None => (false, r) end.

Fixpoint add_failures (name : bytes) (n : nat) (m : manager W) : manager W :=
  match n with O => m | S n => add_failures name n (count_failure name m) end.

Lemma add_failures_world name n : forall w (m : manager W),
  add_failures name n (with_world w m) = with_world w (add_failures name n m).
Proof. induction n as [|n IH]; intros w m; [done|]. cbn. by rewrite <- IH. Qed.

(** The loop is the attempts and their conclusion. *)
Lemma retry_loop_attempts req fuel k bi r (m : manager W) res :
  0 <= k < MAX_RETRY -> (Z.to_nat (MAX_RETRY - k) < fuel)%nat ->
  retry_loop fuel req k bi r m = Some res ->
  exists os w, attempts req (k + 1) (wrap 64 (bi + 1)) (world m) os w
    /\ (length os <= Z.to_nat (MAX_RETRY - k))%nat
    /\ res = (reply os r, with_world w (add_failures (service_name req) (failures os) m)).
Proof.
  unfold MAX_RETRY. revert k bi r m. induction fuel as [|fuel IH]; intros k bi r m Hk Hf; [done|]. cbn [retry_loop].
  unfold MAX_RETRY. replace (k + 1 <=? 3) with true by lia.
  destruct (get_service_address _ _ _ _) as [[[ip prt]|] w1] eqn:Ea.
  2:{ intros [= <-]. exists [No_address], w1. split_and!; [|cbn; lia|done].
      apply attempts_last; [|by left]. unfold try_once. by rewrite Ea. }
  destruct (attempt req ip prt _ w1) as [[|ret d cr|] w2] eqn:Et; [..|done].
  - assert (try_once req (k + 1) (wrap 64 (bi + 1)) (world m) = Some (No_send ip prt, w2)) as Ho
      by (unfold try_once; by rewrite Ea, Et).
    destruct (Z.eqb_spec (k + 1) 3) as [E|E].
    + destruct fuel as [|fuel]; [lia|]. cbn [retry_loop].
      unfold MAX_RETRY. replace (k + 1 + 1 <=? 3) with false by lia. intros [= <-].
      exists [No_send ip prt], w2. split_and!; [apply attempts_last; [done|by right]|cbn; lia|done].
    + intros H. apply IH in H as (os & w & Ha & Hl & ->); [|lia..].
      exists (No_send ip prt :: os), w. split_and!; [eapply attempts_more; [exact Ho|done|unfold MAX_RETRY; lia|exact Ha]|cbn; lia|].
      unfold failures. cbn [List.filter failed length]. cbn [add_failures].
      change (count_failure ?n (with_world ?w ?m)) with (with_world w (count_failure n m)). rewrite add_failures_world.
      f_equal. unfold reply. cbn [foldl backend_of]. by destruct os; [inversion Ha|].
  - assert (try_once req (k + 1) (wrap 64 (bi + 1)) (world m) = Some (Answer ip prt ret d cr, w2)) as Ho
      by (unfold try_once; by rewrite Ea, Et).
    destruct ret; cbn [negb].
    + intros [= <-]. exists [Answer ip prt true d cr], w2.
      split_and!; [apply attempts_last; [done|by left]|cbn; lia|done].
    + destruct (negb cr || _) eqn:Estop.
      * intros [= <-]. exists [Answer ip prt false d cr], w2.
        split_and!; [apply attempts_last; [done|]|cbn; lia|done].
        apply orb_true_iff in Estop as [H|H]; [by left|right; unfold MAX_RETRY; lia].
      * apply orb_false_iff in Estop as [H1 H2]. intros H. apply IH in H as (os & w & Ha & Hl & ->); [|lia..].
        exists (Answer ip prt false d cr :: os), w.
        split_and!; [eapply attempts_more; [exact Ho|done|unfold MAX_RETRY; lia|exact Ha]|cbn; lia|].
        unfold failures. cbn [List.filter failed length negb].
        cbn [add_failures]. change (count_failure ?n (with_world ?w ?m)) with (with_world w (count_failure n m)).
    rewrite add_failures_world.
        f_equal. unfold reply. cbn [foldl backend_of]. by destruct os; [inversion Ha|].
Qed.

(** Four rounds of fuel are enough. *)
Lemma retry_loop_returns req : (forall k bi w, try_once req k bi w <> None) ->
  forall fuel k bi r (m : manager W), 0 <= k <= MAX_RETRY -> (Z.to_nat (MAX_RETRY - k) < fuel)%nat ->
  retry_loop fuel req k bi r m <> None.
Proof.
  intros Ht. unfold MAX_RETRY. induction fuel as [|fuel IH]; intros k bi r m Hk Hf; [lia|]. cbn [retry_loop].
  unfold MAX_RETRY. destruct (Z.leb_spec (k + 1) 3); [|done].
  specialize (Ht (k + 1) (wrap 64 (bi + 1)) (world m)). unfold try_once in Ht.
  destruct (get_service_address _ _ _ _) as [[[ip prt]|] w1]; [|done].
  destruct (attempt _ _ _ _ _) as [[|ret d cr|] w2]; [apply IH; lia| |done].
  destruct (negb ret); [|done]. destruct (_ || _); [done|]. apply IH; lia.
Qed.

(** What happens after the loop. *)
Definition with_cache_result (req : ServiceCallReq) (x : bool * ServiceCallRsp * manager W)
  : ServiceCallRsp * manager W :=
  let '(is_success, r, m) := x in
  if (is_success : bool) then (r, FibpServiceCache_set req r m)
  else if enable_cache req then FibpServiceCache_get req r m else (r, m).

Lemma single_call balance req r (m : manager W) res :
  service_name req <> local_test -> call_single_service balance req r m = Some res ->
  exists os w, attempts req 1 (wrap 64 (balance + 1)) (world m) os w /\ (length os <= 3)%nat
    /\ res = with_cache_result req
              (reply os (with_service_name (service_name req) r),
               with_world w (add_failures (service_name req) (failures os) m)).
Proof.
  intros Hn. unfold call_single_service. rewrite bool_decide_eq_false_2 by done.
  destruct (retry_loop _ _ _ _ _ _) as [x|] eqn:E; [|done]. cbn [mbind option_bind].
  destruct (retry_loop_attempts req 4 0 balance _ m x ltac:(unfold MAX_RETRY; lia)
              ltac:(unfold MAX_RETRY; lia) E) as (os & w & Ha & Hl & ->).
  intros H. exists os, w. split_and!; [exact Ha|exact Hl|]. unfold with_cache_result.
  by destruct (reply os _) as [ok r']; injection H as <-.
Qed.

(** The last attempt concludes. *)
Lemma attempts_nonempty req k bi w os w' : attempts req k bi w os w' -> exists o, last os = Some o.
Proof. destruct 1 as [|k bi w o w1 os w' _ _ _ H]; [by eexists|]. rewrite last_cons. by destruct (last os); eexists. Qed.

Lemma backends_keep os r : let r' := foldl (fun r o => backend_of o r) r os in
  rsp r' = rsp r /\ error r' = error r /\ is_cached r' = is_cached r /\ rsp_service_name r' = rsp_service_name r.
Proof.
  revert r. induction os as [|o os IH]; intros r; [done|]. cbn [foldl]. destruct (IH (backend_of o r)) as (-> & -> & -> & ->).
  by destruct o.
Qed.

Lemma reply_cases os r ok r' : reply os r = (ok, r') -> (exists o, last os = Some o) -> error r = [] ->
  is_cached r' = is_cached r
  /\ if ok then error r' = [] /\ exists ip prt cr, last os = Some (Answer ip prt true (rsp r') cr)
     else error r' <> [] /\ rsp r' = rsp r.
Proof.
  intros Hr [o Ho] He. unfold reply in Hr. rewrite Ho in Hr. destruct (backends_keep os r) as (E1 & E2 & E3 & _).
  destruct o as [|ip prt|ip prt [] d cr]; cbn in Hr; injection Hr as <- <-; cbn; rewrite ?E1, ?E2, ?E3, ?He;
    split_and!; try done; eauto.
Qed.

End Attempts.



(** ** The cache over a history of calls *)

Section History.
Context {cache : ConcurrentCache} {W : Type} {backends : Backends W}.

(** Calls in the order in which they end, with their responses. *)
Inductive history : list (ServiceCallReq * ServiceCallRsp) -> manager W -> Prop :=
| history_nil m : service_cache_ m = cache_new -> history [] m
| history_snoc h m balance req r m' :
    history h m -> call_single_service balance req new_call_rsp m = Some (r, m') ->
    history (h ++ [(req, r)]) m'.

(** A success that was offered to the cache. *)
Definition offered (h : list (ServiceCallReq * ServiceCallRsp)) (k : ServiceCallReq) (v : ServiceCallRsp) : Prop :=
  (k, v) ∈ h /\ error v = [] /\ is_cached v = false /\ enable_cache k = true.

Lemma offered_later h x k v : offered h k v -> offered (h ++ [x]) k v.
Proof. intros [H1 H2]. split; [apply elem_of_app; by left|done]. Qed.

Lemma call_cache balance req (m : manager W) r m' k v :
  call_single_service balance req new_call_rsp m = Some (r, m') -> cached (service_cache_ m') k v ->
  cached (service_cache_ m) k v \/ k = req /\ v = r /\ error r = [] /\ is_cached r = false /\ enable_cache req = true.
Proof.
  intros E Hv. destruct (decide (service_name req = local_test)) as [Hl|Hn].
  { unfold call_single_service in E. rewrite bool_decide_eq_true_2 in E by done. injection E as <- <-. by left. }
  destruct (single_call balance req new_call_rsp m _ Hn E) as (os & w & Ha & _ & Hres).
  pose proof (attempts_nonempty _ _ _ _ _ _ Ha) as Ho. unfold with_cache_result in Hres.
  destruct (reply os _) as [ok r1] eqn:Er. apply reply_cases in Er as [Hc Hr]; [|done..].
  set (m1 := with_world w _) in Hres. assert (service_cache_ m1 = service_cache_ m) as Hcache.
  { subst m1. change (service_cache_ (with_world w ?x)) with (service_cache_ x). clear. revert m.
    generalize (failures os) (service_name req). intros n name.
    induction n as [|n IH]; intros m; [done|]. cbn. by rewrite IH. }
  destruct ok.
  - injection Hres as -> ->. destruct Hr as [He _]. unfold FibpServiceCache_set in Hv.
    rewrite bool_decide_eq_true_2 in Hv by done. cbn [negb orb] in Hv.
    destruct (enable_cache req) eqn:Een; cbn [negb] in Hv; [|left; by rewrite Hcache in Hv].
    cbn [with_cache service_cache_] in Hv. rewrite Hcache in Hv.
    apply cached_insert in Hv as [[-> ->]|Hv]; [right|by left]. by rewrite Hc.
  - left. destruct (enable_cache req) eqn:Een; [|injection Hres as _ ->; by rewrite Hcache in Hv].
    unfold FibpServiceCache_get in Hres. rewrite Een in Hres. cbn [negb] in Hres. rewrite Hcache in Hres.
    pose proof (cached_get req (service_cache_ m) k v) as Hg.
    destruct (cache_get req (service_cache_ m)) as [found c']. cbn [snd] in Hg. injection Hres as _ ->. by apply Hg.
Qed.

Lemma history_offered h m k v : history h m -> cached (service_cache_ m) k v -> offered h k v.
Proof.
  intros Hh. revert k v. induction Hh as [m Hm|h m balance req r m' Hh IH E]; intros k v Hv.
  - rewrite Hm in Hv. by apply cached_new in Hv.
  - apply (call_cache _ _ _ _ _ _ _ E) in Hv as [Hv|(-> & -> & H)]; [by apply offered_later, IH|].
    split; [apply elem_of_app; right; by left|done].
Qed.

End History.

(** Cached answers were given before.  In any history of calls, with any
    cache that evicts as it likes, a response marked as cached repeats the
    response that a backend gave to an earlier call for an equal request which
    allowed caching; a response that was itself cached, or had an error, is
    never repeated. *)
Theorem cached_answers_were_given {cache : ConcurrentCache} {W} {backends : Backends W}
    h (m m' : manager W) balance req r :
  history h m -> call_single_service balance req new_call_rsp m = Some (r, m') -> is_cached r = true ->
  exists req0 r0, (req0, r0) ∈ h /\ req_eq req0 req = true /\ enable_cache req0 = true
    /\ is_cached r0 = false /\ error r0 = [] /\ r = with_cached true r0.
Proof.
  intros Hh E Hc. destruct (decide (service_name req = local_test)) as [Hl|Hn].
  { unfold call_single_service in E. rewrite bool_decide_eq_true_2 in E by done. by injection E as <- <-. }
  destruct (single_call balance req new_call_rsp m _ Hn E) as (os & w & Ha & _ & Hres).
  pose proof (attempts_nonempty _ _ _ _ _ _ Ha) as Ho. unfold with_cache_result in Hres.
  destruct (reply os _) as [ok r1] eqn:Er. apply reply_cases in Er as [Hc1 Hr]; [|done..]. cbn in Hc1.
  set (m1 := with_world w _) in Hres. assert (service_cache_ m1 = service_cache_ m) as Hcache.
  { subst m1. change (service_cache_ (with_world w ?x)) with (service_cache_ x). clear. revert m.
    generalize (failures os) (service_name req). intros n name.
    induction n as [|n IH]; intros m; [done|]. cbn. by rewrite IH. }
  destruct ok; [injection Hres as -> _; congruence|].
  destruct (enable_cache req) eqn:Een; [|injection Hres as -> _; congruence].
  unfold FibpServiceCache_get in Hres. rewrite Een in Hres. cbn [negb] in Hres. rewrite Hcache in Hres.
  destruct (cache_get req (service_cache_ m)) as [[v|] c'] eqn:Eg; injection Hres as -> _; [|congruence].
  apply cache_get_some in Eg as (req0 & Hq & Hv). destruct (history_offered _ _ _ _ Hh Hv) as (H1 & H2 & H3 & H4).
  by exists req0, v.
Qed.

(** ** Several services *)

Section Barrier.
Context (call_api_list : list ServiceCallReq) (do_transaction transaction_mgr_ cb : bool).
Abbreviation runs := (services_runs call_api_list do_transaction transaction_mgr_ cb).

Definition has_returned (s : services) : bool := match main s with Main_returned => true | _ => false end.

(** The counter counts the unfinished calls; the fiber waits only while there
    are some, and leaves when there are none; then the callback has run. *)
Record services_ok (es : list services_event) (s : services) : Prop := {
  so_nodup : NoDup (unfinished s);
  so_count : call_num s = Z.of_nat (length (unfinished s));
  so_waits : main s = Main_waits -> unfinished s <> [];
  so_left : main s = Main_returned \/ main s = Main_undefined -> unfinished s = [];
  so_callbacks : callbacks s = if has_returned s && cb then 1%nat else 0%nat;
  so_results i r : Sub_done i r ∈ es -> rsp_list s !! i = Some r /\ (i ∉ unfinished s);
  so_range i : i ∈ unfinished s -> (i < length (rsp_list s))%nat
}.

Lemma resize_length n l : length (resize n l) = n.
Proof. unfold resize. rewrite length_app, length_take, length_replicate. lia. Qed.

Lemma start_ok l : services_ok [] (start call_api_list do_transaction cb l).
Proof.
  unfold start. destruct (_ && _); split; cbn [unfinished call_num main callbacks rsp_list];
    try done; try (by intros ?? ?%elem_of_nil); try (by intros ? ?%elem_of_nil).
  - apply NoDup_nil_2.
  - apply NoDup_seq.
  - by rewrite length_seq.
  - by intros [|].
  - intros i H. rewrite resize_length. apply elem_of_seq in H. lia.
Qed.

Lemma filter_drop (l : list nat) i : NoDup l -> i ∈ l ->
  length l = S (length (List.filter (fun j => negb (j =? i)%nat) l))
  /\ NoDup (List.filter (fun j => negb (j =? i)%nat) l)
  /\ forall j, j ∈ List.filter (fun j => negb (j =? i)%nat) l <-> j ∈ l /\ j <> i.
Proof.
  assert (forall l j, j ∈ List.filter (fun j => negb (j =? i)%nat) l <-> j ∈ l /\ j <> i) as Hel.
  { intros l0 j. rewrite !list_elem_of_In, List.filter_In, negb_true_iff, Nat.eqb_neq. done. }
  intros Hnd Hi. split_and!; [|by apply NoDup_ListNoDup, List.NoDup_filter, NoDup_ListNoDup|apply Hel].
  induction l as [|x l IH]; [by apply elem_of_nil in Hi|].
  apply NoDup_cons in Hnd as [Hx Hnd]. cbn. destruct (Nat.eqb_spec x i) as [->|Hne]; cbn.
  - f_equal. clear IH Hi Hnd. induction l as [|y l IH]; [done|].
    apply not_elem_of_cons in Hx as [Hy Hx]. cbn. destruct (Nat.eqb_spec y i); [congruence|]. cbn. by rewrite <- IH.
  - apply elem_of_cons in Hi as [->|Hi]; [done|]. by rewrite <- IH.
Qed.

Lemma services_step_ok es s e s' : services_ok es s ->
  services_step do_transaction transaction_mgr_ cb e s = Some s' -> services_ok (es ++ [e]) s'.
Proof.
  intros [H1 H2 H3 H4 H5 H6 H7] Hs. destruct e as [i r|]; cbn [services_step] in Hs.
  - unfold sub_done in Hs. case_bool_decide as Hi; [|done]. injection Hs as <-.
    destruct (filter_drop (unfinished s) i H1 Hi) as (F1 & F2 & F3).
    assert (main s <> Main_returned /\ main s <> Main_undefined) as [Hm1 Hm2].
    { split; intros E; rewrite H4 in Hi; try (by apply elem_of_nil in Hi); auto. }
    split; cbn [unfinished call_num main callbacks rsp_list].
    + exact F2.
    + rewrite H2, F1. lia.
    + destruct (main s) eqn:Em; try done. destruct (Z.eqb_spec (call_num s - 1) 0) as [|Hn]; [done|].
      intros _ E. rewrite E in F1. cbn in F1. lia.
    + destruct (main s); try done; [|by intros [|]]. destruct (_ =? 0); by intros [|].
    + rewrite H5. unfold has_returned. cbn [main]. destruct (main s); try done. by destruct (_ =? 0).
    + intros j r' [Hj|Hj%list_elem_of_singleton]%elem_of_app.
      * destruct (H6 j r' Hj) as [Hl Hnin]. split; [|by rewrite F3; intros []].
        rewrite list_lookup_insert_ne; [done|]. by intros ->.
      * injection Hj as -> ->. split; [|rewrite F3; by intros []]. apply list_lookup_insert_eq. by apply H7.
    + intros j [Hj _]%F3. rewrite length_insert. by apply H7.
  - unfold resume in Hs. destruct (main s) eqn:Em; try done.
    assert (forall s0, rsp_list s0 = rsp_list s -> unfinished s0 = unfinished s ->
      forall i r, Sub_done i r ∈ es ++ [Resume] -> rsp_list s0 !! i = Some r /\ (i ∉ unfinished s0)) as Hres.
    { intros s0 -> -> i r [Hj|Hj%list_elem_of_singleton]%elem_of_app; [by apply H6|done]. }
    destruct (Z.gtb_spec (call_num s) 0) as [Hn|Hn]; injection Hs as <-.
    + split; cbn [unfinished call_num main callbacks rsp_list]; try done.
      * intros _ E. rewrite E in H2. cbn in H2. lia.
      * by intros [|].
      * rewrite H5. unfold has_returned. by rewrite Em.
      * by apply Hres.
    + assert (unfinished s = []) as Hu by (destruct (unfinished s); [done|cbn in H2; lia]).
      assert (callbacks s = 0%nat) as Hcb by (rewrite H5; unfold has_returned; by rewrite Em).
      unfold finish. destruct (_ && _ && _); split; cbn [unfinished call_num main callbacks rsp_list]; try done;
        rewrite ?Hcb; try (by apply Hres); unfold has_returned; cbn; by destruct cb.
Qed.

Lemma services_runs_ok l es s : runs l es s -> services_ok es s.
Proof. induction 1 as [|es s e s' _ IH Hs]; [apply start_ok|by eapply services_step_ok]. Qed.

End Barrier.

(** The calls are joined.  However the calls of several services
    interleave, the callback runs at most once and only after every call has
    ended, with each response in the place of its request; the fiber that
    waits for them is never left behind: while it waits, some call is
    unfinished, and after the last one it can go on and leave. *)
Theorem calls_are_joined reqs do_transaction transaction_mgr_ cb l es s :
  services_runs reqs do_transaction transaction_mgr_ cb l es s ->
  (callbacks s <= 1)%nat
  /\ (callbacks s = 1%nat -> unfinished s = [])
  /\ (forall i r, Sub_done i r ∈ es -> rsp_list s !! i = Some r)
  /\ (main s = Main_waits -> unfinished s <> [])
  /\ (unfinished s = [] -> main s = Main_ready ->
      exists s', services_step do_transaction transaction_mgr_ cb Resume s = Some s'
        /\ (main s' = Main_returned /\ callbacks s' = (if cb then 1 else 0)%nat \/ main s' = Main_undefined)).
Proof.
  intros Hr. destruct (services_runs_ok _ _ _ _ _ _ _ Hr) as [H1 H2 H3 H4 H5 H6 H7].
  assert (main s <> Main_returned -> callbacks s = 0%nat) as Hcb
    by (intros Hm; rewrite H5; unfold has_returned; by destruct (main s)).
  split_and!.
  - rewrite H5. destruct (_ && _); lia.
  - intros Hc. apply H4. left. destruct (main s) eqn:Em; try done; rewrite Hcb in Hc; done.
  - intros i r Hi. by apply H6.
  - exact H3.
  - intros Hu Hm. cbn [services_step]. unfold resume. rewrite Hm, H2, Hu. cbn. eexists. split; [done|].
    unfold finish. destruct (_ && _ && _); [by right|left]. cbn. rewrite Hcb by by rewrite Hm. by destruct cb.
Qed.

(** A transaction is undefined behaviour.  [init] does not create the
    transaction manager, so a call with [do_transaction] of HTTP services never
    reaches its callback: when all its calls have ended, it calls a member of
    a null pointer. *)
Theorem transactions_dereference_null reqs cb l es s :
  reqs <> [] -> check_http reqs = true -> services_runs reqs true false cb l es s ->
  callbacks s = 0%nat /\ main s <> Main_returned
  /\ (unfinished s = [] -> main s = Main_ready ->
      exists s', services_step true false cb Resume s = Some s' /\ main s' = Main_undefined).
Proof.
  intros Hne Hc Hr. pose proof (services_runs_ok _ _ _ _ _ _ _ Hr) as Hok.
  assert (length (rsp_list s) = length reqs /\ main s <> Main_returned) as [Hlen Hm].
  { clear Hok. induction Hr as [|es s e s' _ [IH1 IH2] Hs].
    - unfold start. rewrite Hc. cbn. by rewrite resize_length.
    - destruct e as [i r|]; cbn [services_step] in Hs.
      + unfold sub_done in Hs. case_bool_decide; [|done]. injection Hs as <-. cbn. rewrite length_insert.
        split; [done|]. destruct (main s); try done. by destruct (_ =? 0).
      + unfold resume in Hs. destruct (main s); try done. destruct (call_num s >? 0); injection Hs as <-; [by split|].
        unfold finish. destruct (Nat.eqb_spec (length (rsp_list s)) 0) as [E|E]; [|by split].
        rewrite IH1 in E. by destruct reqs. }
  split_and!; [|done|].
  - rewrite (so_callbacks _ _ _ Hok). unfold has_returned. by destruct (main s).
  - intros Hu Hmain. cbn [services_step]. unfold resume. rewrite Hmain, (so_count _ _ _ Hok), Hu. cbn.
    eexists. split; [done|]. unfold finish. destruct (Nat.eqb_spec (length (rsp_list s)) 0) as [E|E]; [|done].
    rewrite Hlen in E. by destruct reqs.
Qed.

(** Even with a transaction manager, nothing is ever cancelled.  When a
    service fails, the others should be told to cancel, but no response without
    a zero byte has an identifier, so none is; when all succeed, each is told
    to confirm the transaction with the empty identifier. *)
Theorem transactions_never_cancel memory1 memory2 reqs l :
  Forall (fun r => (NUL ∉ error r) /\ (NUL ∉ rsp r)) l -> length reqs = length l ->
  transaction_calls memory1 memory2 reqs l
  = if need_cancel l then []
    else zip_with (fun req r => confirm (host r) (port r) (service_api req) []) reqs l.
Proof.
  intros Hl Hlen. unfold transaction_calls. generalize (need_cancel l). intros cancelled.
  revert reqs Hlen. induction Hl as [|r l [He Hd] _ IH]; intros [|req reqs] Hlen; try done; [by destruct cancelled|].
  cbn [zip_with mbind list_bind]. rewrite IH by (cbn in Hlen; lia).
  assert (transaction_id memory1 memory2 r = []) as ->.
  { unfold transaction_id. destruct (error r) eqn:E; by apply no_transaction_id. }
  by destruct cancelled.
Qed.

(** ** Witnesses *)

(** A cache that forgets nothing. *)
Definition list_cache : ConcurrentCache.
Proof.
  refine {| cache_t := list (ServiceCallReq * ServiceCallRsp); cache_new := [];
    cache_get req c := (snd <$> List.find (fun kv => req_eq (fst kv) req) c, c);
    cache_insert k v c := (k, v) :: c; cached c k v := (k, v) ∈ c |}.
  - intros k v H. by apply elem_of_nil in H.
  - intros k v c k' v' [H|H]%elem_of_cons; [left; by injection H|by right].
  - done.
  - intros k c v c'. destruct (List.find _ c) as [[k' v']|] eqn:E; [|done]. cbn. intros [= <- _].
    apply List.find_some in E as [Hin Hq]. exists k'. split; [exact Hq|]. by apply list_elem_of_In.
Defined.

(** Two backends per service; each attempt consumes the next result of a
    script ([None]: it cannot be sent); after it nothing can be sent. *)
Definition script : Type := list (option (bool * bytes * bool)).
Definition next_result (w : script) : attempt_result * script :=
  match w with
  | Some (ret, d, can_retry) :: w => (Answered ret d can_retry, w)
  | None :: w => (Not_sent, w)
  | [] => (Not_sent, [])
  end.
Definition scripted : Backends script := {|
  get_service_address bi name _ w := (Some (name, if Z.even bi then b "80" else b "81"), w);
  http_attempt _ _ _ _ _ _ w := next_result w;
  future_attempt _ _ _ _ _ _ w := next_result w
|}.

Definition sample_req (data : string) (cache : bool) : ServiceCallReq :=
  mk_call_req (b "svc") (b "/x") 1 (b data) [] 0 cache.
Definition sample_manager (w : script) : @manager list_cache script := @mk_manager list_cache _ w [] ∅.
Definition sample_call (data : string) (c : bool) (m : @manager list_cache script) :=
  @call_single_service list_cache _ scripted 0 (sample_req data c) new_call_rsp m.

Lemma scripted_tries data c k bi w : @try_once _ scripted (sample_req data c) k bi w <> None.
Proof. unfold try_once, attempt. cbn. by destruct w as [|[[[ret d] cr]|] w]. Qed.

Definition slow_script : script := [None; Some (false, b "busy", true); Some (true, b "ok", true)].


(** The answer that is not an HTTP 200 and may not be retried. *)
Definition refused : option (ServiceCallRsp * @manager list_cache script) :=
  sample_call "d" false (sample_manager [Some (false, b "no", false); Some (true, b "ok", true)]).


(** A success, and then an equal request that cannot be sent. *)
Definition first_call := sample_call "d" true (sample_manager [Some (true, b "ok", true)]).
Definition second_call : option (ServiceCallRsp * @manager list_cache script) :=
  '(_, m) ← first_call; sample_call "d" true m.

Lemma cached_answers_were_given_witness :
  exists r1 m1 r2 m2, first_call = Some (r1, m1) /\ second_call = Some (r2, m2)
    /\ is_cached r2 = true /\ rsp r2 = b "ok"
    /\ exists req0 r0, (req0, r0) ∈ [(sample_req "d" true, r1)] /\ req_eq req0 (sample_req "d" true) = true
      /\ enable_cache req0 = true /\ is_cached r0 = false /\ error r0 = [] /\ r2 = with_cached true r0.
Proof.
  eexists _, _, _, _. split; [vm_compute; reflexivity|]. split; [vm_compute; reflexivity|].
  split; [vm_compute; reflexivity|]. split; [vm_compute; reflexivity|].
  eapply (@cached_answers_were_given list_cache _ scripted _ _ _ 0 (sample_req "d" true)).
  - eapply (history_snoc [] (sample_manager [Some (true, b "ok", true)]) 0); [by apply history_nil|].
    vm_compute. reflexivity.
  - vm_compute. reflexivity.
  - vm_compute. reflexivity.
Defined.

(** Two services: the second call ends first. *)
Definition two_reqs : list ServiceCallReq := [sample_req "d" false; sample_req "e" false].
Definition two_events : list services_event :=
  [Resume; Sub_done 1 (with_rsp (b "e!") new_call_rsp); Sub_done 0 (with_rsp (b "d!") new_call_rsp); Resume].
Definition run_services (tr mgr : bool) (es : list services_event) : option services :=
  foldl (fun s e => s ≫= services_step tr mgr true e) (Some (start two_reqs tr true [])) es.
Definition two_state (tr mgr : bool) : services := default (start two_reqs tr true []) (run_services tr mgr two_events).

Lemma run_services_runs tr mgr es : forall s, run_services tr mgr es = Some s -> services_runs two_reqs tr mgr true [] es s.
Proof.
  unfold run_services. induction es as [|e es IH] using rev_ind; intros s; [intros [= <-]; apply services_start|].
  rewrite foldl_app. cbn. destruct (foldl _ _ es) as [s0|] eqn:E; [|done]. cbn.
  intros Hs. eapply services_steps; [by apply IH|exact Hs].
Qed.

Lemma two_runs tr : services_runs two_reqs tr (negb tr) true [] two_events (two_state tr (negb tr)).
Proof. apply run_services_runs. by destruct tr; vm_compute. Qed.

Lemma calls_are_joined_witness :
  callbacks (two_state false true) = 1%nat /\ unfinished (two_state false true) = []
  /\ rsp_list (two_state false true) !! 0%nat = Some (with_rsp (b "d!") new_call_rsp)
  /\ rsp_list (two_state false true) !! 1%nat = Some (with_rsp (b "e!") new_call_rsp).
Proof.
  destruct (calls_are_joined two_reqs false true true [] two_events (two_state false true) (two_runs false))
    as (_ & H2 & H3 & _).
  split; [vm_compute; reflexivity|]. split; [apply H2; vm_compute; reflexivity|].
  split; apply H3; apply list_elem_of_In; cbn; tauto.
Defined.

Lemma transactions_dereference_null_witness :
  callbacks (two_state true false) = 0%nat /\ main (two_state true false) = Main_undefined.
Proof.
  split; [|vm_compute; reflexivity].
  apply (transactions_dereference_null two_reqs true [] two_events (two_state true false)).
  - discriminate.
  - vm_compute. reflexivity.
  - apply (two_runs true).
Defined.

Lemma transactions_never_cancel_witness :
  let l := [with_rsp sample_response new_call_rsp; with_error (b "refused") new_call_rsp] in
  need_cancel l = true /\ transaction_calls (b "x") (b "y") two_reqs l = [].
Proof.
  cbv zeta. split; [vm_compute; reflexivity|].
  rewrite transactions_never_cancel; [vm_compute; reflexivity| |vm_compute; reflexivity].
  repeat (apply Forall_cons; split); [split..|constructor]; intros H; apply list_elem_of_In in H; vm_compute in H;
    repeat (destruct H as [H|H]; [discriminate H|]); exact H.
Defined.
