(* ===== verification/FibpServiceCall.v ===== *)
(** * A service call from end to end

    The client manager and a network between two servers implement the
    interface [Backends] of the forward manager for HTTP services; against
    that implementation, a call of a service returns what the handler of the
    service has made. *)

From stdpp Require Import options.
From S2P Require Import Prelude Boost HttpTypes HttpUrl HttpExecute HttpInvariant HttpSafety.
From S2P Require Import HttpSplit HttpProtocol HttpRoundTrip HttpPipeline HttpResponseTrip.
From S2P Require Import HttpConnection HttpServing FibpClient FibpHttpClient RequestParser FibpGateway HttpCall.
From S2P Require Import FibpClientMgr FibpClientMgrSpec FibpForwardManager FibpForwardManagerSpec.

Section ServiceCall.
Context {boost : BoostStrings} {driver : Driver}.
(** The service: its router, the readings of its clock, its uninitialised
    memory. *)
Context {S : Type} (find : bytes -> bytes -> option (handler S)) (elapsed : Z) (garbage : http_parser_url).
(** How the network cuts what is sent, in each direction. *)
Context (cut_request cut_response : bytes -> list bytes).
(** The addresses of services, and the other protocols. *)
Context (directory : Z -> bytes -> Z -> option (bytes * bytes)).

Record net := mk_net { net_clients : client_mgr; net_service : S }.

Context (other_protocols : bytes -> bytes -> bytes -> Z -> bytes -> Z -> net -> attempt_result * net).

(** A connection of the service is between two requests when it gets the
    bytes of one: what the client reads back, and the service afterwards. *)
Definition serve (sent : bytes) (s : S) : list Response.read_event * S :=
  match Request.do_parse (parser_cb find (fun _ _ => false) false elapsed) garbage
          (Request.new_impl request_init (mk_owner (fresh_conn s) false)) (map Request.Read (cut_request sent)) with
  | Some (_, _, Some i, _) =>
      (map Response.Read (cut_response (concat (c_written (o_conn (Request.i_owner i))))), c_world (o_conn (Request.i_owner i)))
  | _ => ([Response.Read_error], s)
  end.

(** The bytes of the last write of a client. *)
Definition last_sent (c : http_client) : bytes := default [] (last (ss_sent (hc_session c))).

(** [send_request] and [get_response] of the manager, one after the other. *)
Definition call_backend (path : bytes) (method : Z) (ip port data : bytes) (to_ms : Z) (w : net)
  : attempt_result * net :=
  match acquire ip port (net_clients w) with
  | (None, m) => (Not_sent, mk_net m (net_service w))
  | (Some _, m) =>
      match send_finish (pred (length (sending_clients m))) path method data to_ms (Connected false true) Written m with
      | None => (Attempt_throws, w)
      | Some (None, m) => (Not_sent, mk_net m (net_service w))
      | Some (Some p, m) =>
          match objs m !! p with
          | None => (Attempt_throws, w)
          | Some c =>
              let (reads, s) := serve (last_sent c) (net_service w) in
              match http_get_response (pred (length (in_use m))) false reads m with
              | None => (Attempt_throws, w)
              | Some (ret, rsp, can_retry, m) => (Answered ret rsp can_retry, mk_net m s)
              end
          end
      end
  end.

#[export] Instance net_backends : Backends net := {|
  get_service_address bi name type w := (directory bi name type, w);
  http_attempt := call_backend;
  future_attempt := other_protocols
|}.

Definition cuts (cut : bytes -> list bytes) : Prop :=
  forall w, concat (cut w) = w /\ Forall (fun x => x <> []) (cut w).

(** A client that can be given to a call. *)
Definition usable (c : http_client) : Prop :=
  ss_connecting (hc_session c) = false /\ idle_response (hc_parser c) /\ parser_inv (hc_parser c).

Lemma new_client_usable ip port : usable (new_http_client ip port).
Proof. split; [done|]. split; [apply idle_response_init|apply init_inv]. Qed.

(** All the clients of the manager that no call holds are usable. *)
Definition pools_usable (m : client_mgr) : Prop :=
  forall id p c, p ∈ pool_of id m -> objs m !! p = Some c -> usable c.

(** What [acquire] gives. *)
Lemma acquired ip port m : mgr_ok m -> pools_usable m -> num_of (getClientId ip port) m <= MAX_CLIENT_NUM ->
  exists p c m', acquire ip port m = (Some p, m') /\ objs m' !! p = Some c /\ usable c
    /\ client_id c = getClientId ip port
    /\ sending_clients m' = sending_clients m ++ [p] /\ in_use m' = in_use m.
Proof.
  intros Hm Hu Hn. unfold acquire. destruct (pool_of (getClientId ip port) m) as [|p l] eqn:El.
  - replace (num_of (getClientId ip port) m >? MAX_CLIENT_NUM) with false by lia.
    eexists _, _, _. split; [done|]. cbn [count_client objs sending_clients in_use].
    split; [by apply list_lookup_middle|]. split; [apply new_client_usable|done].
  - assert (p ∈ pool_of (getClientId ip port) m) as Hp by (rewrite El; by left).
    destruct (mo_pool _ Hm _ _ Hp) as (c & Hc & Hid). exists p, c. eexists. split; [done|].
    split_and!; [done|by eapply Hu|done|done|done].
Qed.

Lemma send_finish_sent m n p path method data to_ms cr wr c c1 :
  sending_clients m !! n = Some p -> objs m !! p = Some c ->
  send_request path method data to_ms cr wr c = Sent true c1 ->
  exists m2, send_finish n path method data to_ms cr wr m = Some (Some p, m2)
    /\ objs m2 !! p = Some c1 /\ in_use m2 = in_use m ++ [p].
Proof.
  intros Hn Hc Hs. unfold send_finish. rewrite Hn. cbn [mbind option_bind]. rewrite Hc. cbn [mbind option_bind].
  rewrite Hs. eexists. split; [done|]. split; [|done]. apply list_lookup_insert_eq. by eapply lookup_lt_Some.
Qed.

Lemma response_got m n p c aborted reads ret rsp c2 rest :
  in_use m !! n = Some p -> objs m !! p = Some c -> get_response aborted reads c = Some (ret, rsp, c2, rest) ->
  exists m2, http_get_response n aborted reads m = Some (ret, rsp, hc_can_retry c2, m2).
Proof.
  intros Hn Hc Hr. unfold http_get_response. rewrite Hn. cbn [mbind option_bind]. rewrite Hc.
  cbn [mbind option_bind]. rewrite Hr. by eexists.
Qed.

(** The answer of the service to a sendable request. *)
Lemma serve_answers req sent s rsp s' out :
  cuts cut_request -> sendable req -> rq_keep_alive req = true -> print_request req = Some sent ->
  answer_rsp find elapsed req s = Some (rsp, s') -> print_response rsp = Some out ->
  serve sent s = (map Response.Read (cut_response out), s').
Proof.
  intros Hcut Hs Hk Hw Ha Ho. unfold serve. destruct (Hcut sent) as [Hc Hne].
  destruct (serve_one find (fun _ _ => false) garbage elapsed req sent (cut_request sent) s rsp s' out)
    as (p & i & -> & ->); [done..|]. cbn. by rewrite app_nil_r.
Qed.

(** One attempt at an HTTP service. *)
Lemma call_backend_answers path method ip port data to_ms w rsp s' :
  cuts cut_request -> cuts cut_response -> mgr_ok (net_clients w) -> pools_usable (net_clients w) ->
  num_of (getClientId ip port) (net_clients w) <= MAX_CLIENT_NUM ->
  (forall c, client_id c = getClientId ip port ->
     sendable (addressed c (call_request path method data))
     /\ answer_rsp find elapsed (addressed c (call_request path method data)) (net_service w) = Some (rsp, s')) ->
  printable_size (rs_body rsp) ->
  exists m', call_backend path method ip port data to_ms w = (Answered true (rs_body rsp) true, mk_net m' s').
Proof.
  intros Hc1 Hc2 Hm Hu Hn Hreq Hb.
  destruct (acquired ip port (net_clients w) Hm Hu Hn) as (p & c & m1 & E1 & Hc & (Hcon & Hp & Hinv) & Hid & Hs1 & Hi1).
  destruct (Hreq c Hid) as [Hs Ha]. set (req := call_request path method data) in *.
  assert (exists sent, print_request (addressed c req) = Some sent) as [sent Esent]
    by (rewrite print_request_bytes by apply Hs; by eexists).
  assert (rq_keep_alive (addressed c req) = true) as Hk
    by (subst req; unfold addressed, call_request; by destruct (split_query path)).
  pose proof (answer_server_response _ _ _ _ _ _ Ha) as Hrsp. rewrite Hk in Hrsp.
  pose proof (print_server_response (rs_http_major response_clear) (rs_http_minor response_clear) true
                (rs_keep_alive response_clear) (rs_body rsp) Hb) as Hprint.
  pose proof Hprint as Hprint'. rewrite <- Hrsp in Hprint'.
  destruct (send_call req to_ms (Connected false true) c sent Esent Hcon (or_intror eq_refl))
    as (c1 & Esend & Ess & Ho1 & Hcon1 & Hp1).
  assert (send_request path method data to_ms (Connected false true) Written c = Sent true c1) as Esend' by done.
  destruct (send_finish_sent m1 (length (sending_clients (net_clients w))) p path method data to_ms
              (Connected false true) Written c c1) as (m2 & E2 & Hc2' & Hi2);
    [rewrite Hs1; by apply list_lookup_middle|done..|].
  unfold call_backend. rewrite E1, Hs1, length_app, Nat.add_1_r. cbn [pred]. rewrite E2, Hc2'.
  assert (last_sent c1 = sent) as -> by (unfold last_sent; by rewrite Ess, last_snoc).
  rewrite (serve_answers _ _ _ _ _ _ Hc1 Hs Hk Esent Ha Hprint').
  rewrite Hi2, Hi1, length_app, Nat.add_1_r. cbn [pred].
  match type of Hprint with _ = Some ?o => set (out := o) in *; destruct (Hc2 out) as [Hcat Hne] end.
  destruct (get_response_trip _ _ _ _ _ (cut_response out) c1 Hb Hprint) as (c2 & E3 & _ & Hr & _);
    [constructor; [done..|by rewrite Hp1|by rewrite Hp1]|exact Hne|exact Hcat|].
  destruct (response_got m2 (length (in_use (net_clients w))) p c1 false _ _ _ _ _
              ltac:(rewrite Hi2, Hi1; by apply list_lookup_middle) Hc2' E3) as (m3 & E4).
  rewrite E4, Hr. by eexists.
Qed.

End ServiceCall.

(** The header a client adds depends on its backend only. *)
Lemma addressed_same ip port c r : client_id c = getClientId ip port -> addressed c r = addressed (new_http_client ip port) r.
Proof. unfold client_id, addressed, host_header, getClientId. cbn [hc_host hc_port new_http_client]. by intros ->. Qed.

(** A call of an HTTP service whose address is known, by a manager whose pooled
    clients are between two calls and whose limit is not reached, returns the
    body that the handler of the service has made. *)
Lemma call_answered_by_backend {boost : BoostStrings} {driver : Driver} {cache : ConcurrentCache} {S}
    (find : bytes -> bytes -> option (handler S)) elapsed garbage cut_request cut_response directory others
    pack es balance req (m : manager net) ip prt rsp s' :
  cuts cut_request -> cuts cut_response ->
  mgr_runs pack es (net_clients (world m)) -> pools_usable (net_clients (world m)) ->
  num_of (getClientId ip prt) (net_clients (world m)) <= MAX_CLIENT_NUM ->
  service_name req <> local_test -> service_type req = HTTP_Service ->
  directory (wrap 64 (balance + 1)) (service_name req) HTTP_Service = Some (ip, prt) ->
  let http_req := addressed (new_http_client ip prt)
                    (call_request (service_api req) (method req) (service_req_data req)) in
  sendable http_req -> answer_rsp find elapsed http_req (net_service (world m)) = Some (rsp, s') ->
  printable_size (rs_body rsp) ->
  exists m', call_single_service
      (backends := net_backends find elapsed garbage cut_request cut_response directory others)
      balance req new_call_rsp m
    = Some (mk_call_rsp (service_name req) (rs_body rsp) [] false ip prt, m')
  /\ net_service (world m') = s'.
Proof.
  intros Hc1 Hc2 Hr Hu Hn Hname Hty Hdir http_req Hs Ha Hb.
  destruct (call_backend_answers find elapsed garbage cut_request cut_response (service_api req) (method req)
              ip prt (service_req_data req) (5000 * (0 + 1)) (world m) rsp s' Hc1 Hc2 (mgr_runs_ok _ _ _ Hr) Hu Hn)
    as (m1 & E); [|done|].
  { intros c Hid. by rewrite (addressed_same ip prt c _ Hid). }
  unfold call_single_service. rewrite bool_decide_eq_false_2 by done. cbn [retry_loop].
  unfold MAX_RETRY at 1. change (0 + 1 <=? 3) with true. cbv iota. cbn [get_service_address net_backends].
  rewrite Hty, Hdir. unfold attempt. rewrite Hty. change (HTTP_Service =? HTTP_Service) with true. cbv iota.
  cbn [http_attempt net_backends]. rewrite E. cbn [negb mbind option_bind].
  eexists. split; [reflexivity|]. unfold FibpServiceCache_set. by destruct (_ || _).
Qed.

(** ** Samples for the witnesses *)

(** Bytes arrive one by one on the way there, all at once on the way back. *)
Definition one_by_one (w : bytes) : list bytes := map (fun c => [c]) w.
Definition at_once (w : bytes) : list bytes := match w with [] => [] | _ => [w] end.

Lemma one_by_one_cuts : cuts one_by_one.
Proof.
  intros w. induction w as [|c w [IH1 IH2]]; [by split; [|constructor]|].
  change (one_by_one (c :: w)) with ([c] :: one_by_one w). cbn [concat app]. rewrite IH1. by split; [|constructor].
Qed.

Lemma at_once_cuts : cuts at_once.
Proof. intros [|c w]; [by split; [|constructor]|]. cbn. rewrite app_nil_r. by split; [|repeat constructor]. Qed.

Definition no_others (_ _ _ : bytes) (_ : Z) (_ : bytes) (_ : Z) (w : @net (list bytes))
  : attempt_result * @net (list bytes) := (Not_sent, w).
Definition echo_req : ServiceCallReq := mk_call_req (b "echo") (b "/svc/echo") POST (b "hello") [] HTTP_Service false.
Definition idle_net : @net (list bytes) := mk_net new_client_mgr [].
