(* ===== verification/FibpServiceInfo.v ===== *)
(** * What the coordination service says about the services

    The answers of the coordination service (Consul) are JSON documents: the
    names of the services, the nodes of a service with their health, the
    forwarded ports.  rapidjson is outside the repository: a document is a
    value of [json], and how the text is parsed is a parameter.  An accessor
    applied to a value of another type fails an assertion of rapidjson: it is
    undefined, [None]. *)

From stdpp Require Import options.
From S2P Require Import Prelude Boost RequestParser.

(** ** rapidjson values *)

Inductive json :=
| J_null
| J_bool (v : bool)
| J_int (n : Z)          (* a number that fits in an [int] *)
| J_number               (* any other number *)
| J_string (s : bytes)
| J_array (l : list json)
| J_object (m : list (bytes * json)).

(** A [std::string] made from a [const char *] ends at the first zero byte. *)
Fixpoint c_string (s : bytes) : bytes :=
  match s with
  | [] => []
  | c :: s => if (c == NUL)%byte then [] else c :: c_string s
  end.

Definition GetString (v : json) : option bytes :=
  match v with J_string s => Some (c_string s) | _ => None end.
Definition GetInt (v : json) : option Z := match v with J_int n => Some n | _ => None end.
(** [MemberBegin()] and [MemberEnd()]. *)
Definition members (v : json) : option (list (bytes * json)) :=
  match v with J_object m => Some m | _ => None end.

(** ** The order of [std::set<HostPairT>] *)

Abbreviation host_pair := (bytes * bytes)%type.

Fixpoint bytes_ltb (x y : bytes) : bool :=
  match x, y with
  | _, [] => false
  | [], _ :: _ => true
  | c :: x, d :: y => if uc c <? uc d then true else if uc d <? uc c then false else bytes_ltb x y
  end.

Definition host_ltb (x y : host_pair) : bool :=
  bytes_ltb x.1 y.1 || (negb (bytes_ltb y.1 x.1) && bytes_ltb x.2 y.2).

(** [insert] on a set, which is kept as its elements in order. *)
Fixpoint set_insert (x : host_pair) (l : list host_pair) : list host_pair :=
  match l with
  | [] => [x]
  | y :: l' =>
      if host_ltb x y then x :: l
      else if host_ltb y x then y :: set_insert x l'
      else l
  end.

(** [std::map<std::string, std::set<HostPairT>>], one for each [ServiceType]. *)
Abbreviation host_map := (gmap bytes (list host_pair)).

Definition connector : bytes := b "-".
Definition http_service_str : bytes := b "http".
Definition rpc_service_str : bytes := b "rpc".
Definition raw_service_str : bytes := b "raw".
Definition dev_cluster_str : bytes := b "dev".

Section Parsing.
Context {boost : BoostStrings} (parse_json : bytes -> option json).

(** ** The names of the services *)

(** The value returned and [services]. *)
Definition parseQueryServicesRsp (json_rsp : bytes) : bool * list bytes :=
  match parse_json (c_string json_rsp) with
  | Some (J_object m) => (true, map (fun x => c_string x.1) m)
  | _ => (false, [])
  end.

(** ** The nodes of a service *)

Fixpoint node_address (m : list (bytes * json)) (host : bytes) : option (bool * bytes) :=
  match m with
  | [] => Some (false, host)
  | (key, v) :: m =>
      if bool_decide (c_string key = b "Address") then host ← GetString v; Some (true, host)
      else node_address m host
  end.
Definition parseServiceNodeInfo (v : json) (host : bytes) : option (bool * bytes) :=
  match v with J_object m => node_address m host | _ => Some (false, host) end.

Record service_info := mk_service_info {
  si_port : bytes;
  si_name : bytes;
  si_type : Z;
  si_tags : list bytes
}.

Definition si_with_port (p : bytes) (i : service_info) := mk_service_info p (si_name i) (si_type i) (si_tags i).
Definition si_with_name (n : bytes) (i : service_info) := mk_service_info (si_port i) n (si_type i) (si_tags i).
Definition si_with_type (t : Z) (i : service_info) := mk_service_info (si_port i) (si_name i) t (si_tags i).
Definition si_with_tags (l : list bytes) (i : service_info) := mk_service_info (si_port i) (si_name i) (si_type i) l.

Definition add_tag (tag : bytes) (i : service_info) : service_info :=
  let tag := to_lower tag in
  if bool_decide (tag = http_service_str) then si_with_type HTTP_Service i
  else if bool_decide (tag = raw_service_str) then si_with_type Raw_Service i
  else if bool_decide (tag = rpc_service_str) then si_with_type RPC_Service i
  else si_with_tags (si_tags i ++ [tag]) i.

Fixpoint add_tags (tag_list : list json) (i : service_info) : option service_info :=
  match tag_list with
  | [] => Some i
  | v :: l => tag ← GetString v; add_tags l (add_tag tag i)
  end.

Fixpoint service_members (m : list (bytes * json)) (i : service_info) : option service_info :=
  match m with
  | [] => Some i
  | (key, v) :: m =>
      let key := c_string key in
      i ← (if bool_decide (key = b "Port") then n ← GetInt v; Some (si_with_port (dec_signed n) i)
           else if bool_decide (key = b "Tags") then
             match v with J_array l => add_tags l i | _ => Some i end
           else if bool_decide (key = b "Service") then n ← GetString v; Some (si_with_name n i)
           else Some i);
      service_members m i
  end.

Definition parseServiceInfo (v : json) (i : service_info) : option (bool * service_info) :=
  match v with
  | J_object m =>
      i ← service_members m (mk_service_info (si_port i) [] Custom_Service []);
      Some (true, if negb (bool_decide (si_name i = [])) && bool_decide (si_tags i = [])
                  then si_with_tags [dev_cluster_str] i else i)
  | _ => Some (false, i)
  end.

(** [false]: a status is not [passing], and the rest is not looked at. *)
Fixpoint check_passes (m : list (bytes * json)) : option bool :=
  match m with
  | [] => Some true
  | (name, v) :: m =>
      if bool_decide (c_string name = b "Status") then
        s ← GetString v;
        if bool_decide (s = b "passing") then check_passes m else Some false
      else check_passes m
  end.
Fixpoint checks_pass (l : list json) : option bool :=
  match l with
  | [] => Some true
  | check :: l =>
      m ← members check;
      ok ← check_passes m;
      if (ok : bool) then checks_pass l else Some false
  end.
(** [is_passing]; the function always returns true. *)
Definition parseServiceCheckInfo (v : json) : option bool :=
  match v with J_array l => checks_pass l | _ => Some true end.

Record node_info := mk_node_info {
  ni_host : bytes;
  ni_service : service_info;
  ni_passing : bool
}.
Definition new_node : node_info := mk_node_info [] (mk_service_info [] [] Custom_Service []) false.

(** The loop over the members of a node: [ret] and the locals at its end. *)
Fixpoint node_members (m : list (bytes * json)) (n : node_info) : option (bool * node_info) :=
  match m with
  | [] => Some (true, n)
  | (key, v) :: m =>
      let key := c_string key in
      if bool_decide (key = b "Node") then
        '(ret, host) ← parseServiceNodeInfo v (ni_host n);
        let n := mk_node_info host (ni_service n) (ni_passing n) in
        if ret : bool then node_members m n else Some (false, n)
      else if bool_decide (key = b "Service") then
        '(ret, i) ← parseServiceInfo v (ni_service n);
        let n := mk_node_info (ni_host n) i (ni_passing n) in
        if ret : bool then node_members m n else Some (false, n)
      else if bool_decide (key = b "Checks") then
        p ← parseServiceCheckInfo v;
        node_members m (mk_node_info (ni_host n) (ni_service n) p)
      else node_members m n
  end.

Definition service_key (name cluster : bytes) : bytes := name ++ connector ++ cluster.

Definition add_host (key : bytes) (h : host_pair) (server_info : host_map) : host_map :=
  <[key := set_insert h (default [] (server_info !! key))]> server_info.

(** [node_list[type]] with the tags of a node that passes. *)
Definition add_node (n : node_info) (server_info : host_map) : host_map :=
  let i := ni_service n in
  foldl (fun m tag => add_host (service_key (si_name i) tag) (ni_host n, si_port i) m) server_info (si_tags i).

Definition put_node (n : node_info) (node_list : list host_map) : list host_map :=
  alter (add_node n) (Z.to_nat (si_type (ni_service n))) node_list.

Fixpoint add_nodes (l : list json) (node_list : list host_map) : option (list host_map) :=
  match l with
  | [] => Some node_list
  | v :: l =>
      m ← members v;
      '(ret, n) ← node_members m new_node;
      add_nodes l (if negb (ni_passing n) || negb ret then node_list else put_node n node_list)
  end.

(** [Some None]: the function returns false, and its caller does not look at
    [node_list]. *)
Definition parseServiceInfoRsp (json_rsp : bytes) : option (option (list host_map)) :=
  match parse_json (c_string json_rsp) with
  | Some (J_array l) => Some <$> add_nodes l (replicate (Z.to_nat End_Service) ∅)
  | _ => Some None
  end.

(** ** The forwarded ports *)

Definition forward_prefix : bytes := b "fibp-forward-port/".

Fixpoint forward_keys (l : list json) : option (list bytes) :=
  match l with
  | [] => Some []
  | v :: l =>
      tmpstr ← GetString v;
      rest ← forward_keys l;
      Some (if (length forward_prefix <? length tmpstr)%nat
            then drop (length forward_prefix) tmpstr :: rest else rest)
  end.

Definition parseForwardPortListRsp (json_rsp : bytes) : option (option (list bytes)) :=
  match parse_json (c_string json_rsp) with
  | Some (J_array l) => Some <$> forward_keys l
  | _ => Some None
  end.

End Parsing.
