(* ===== verification/FibpServiceInfoSpec.v ===== *)
(** * What the answers about services mean

    The set of hosts of a service is sorted and has no repetition; an answer
    that describes some nodes is read as the hosts of those that pass their
    checks, under the name of the service and each of its clusters. *)

From stdpp Require Import options.
From S2P Require Import Prelude Boost RequestParser FibpServiceInfo.
From Stdlib Require Import Sorted.

(** ** The order of hosts *)

Lemma uc_inj c d : uc c = uc d -> c = d.
Proof.
  unfold uc. intros H. apply N2Z.inj in H. by rewrite <- (ascii_N_embedding c), H, ascii_N_embedding.
Qed.

Lemma bytes_ltb_irrefl x : bytes_ltb x x = false.
Proof. induction x as [|c x IH]; [done|]. cbn. by rewrite Z.ltb_irrefl. Qed.

Lemma bytes_ltb_trans x y z : bytes_ltb x y = true -> bytes_ltb y z = true -> bytes_ltb x z = true.
Proof.
  revert y z. induction x as [|c x IH]; intros [|d y] [|e z] H1 H2; try done. cbn in *.
  repeat case_match; to_prop; try lia; try done. by eapply IH.
Qed.

Lemma bytes_ltb_total x y : bytes_ltb x y = false -> bytes_ltb y x = false -> x = y.
Proof.
  revert y. induction x as [|c x IH]; intros [|d y]; cbn; try done.
  repeat case_match; try done. to_prop. intros H1 H2. f_equal; [apply uc_inj; lia|by apply IH].
Qed.

Definition host_lt (x y : host_pair) : Prop := host_ltb x y = true.

#[export] Instance host_lt_irrefl : Irreflexive host_lt.
Proof. intros x. unfold complement, host_lt, host_ltb. by rewrite !bytes_ltb_irrefl. Qed.

#[export] Instance host_lt_trans : Transitive host_lt.
Proof.
  intros [x1 x2] [y1 y2] [z1 z2]. unfold host_lt, host_ltb. cbn. intros H1 H2.
  apply orb_true_iff in H1, H2. rewrite !andb_true_iff, !negb_true_iff in H1, H2.
  assert (forall u v w, bytes_ltb u v = true -> bytes_ltb w v = false -> bytes_ltb u w = true) as Hcase.
  { intros u v w Huv Hwv. destruct (bytes_ltb u w) eqn:E; [done|].
    destruct (bytes_ltb w u) eqn:E'; [|by rewrite <- (bytes_ltb_total _ _ E E'), Huv in Hwv].
    by rewrite (bytes_ltb_trans _ _ _ E' Huv) in Hwv. }
  destruct H1 as [H1|[H1 H1']], H2 as [H2|[H2 H2']].
  - by rewrite (bytes_ltb_trans _ _ _ H1 H2).
  - by rewrite (Hcase x1 y1 z1 H1 H2).
  - destruct (bytes_ltb x1 y1) eqn:E; [by rewrite (bytes_ltb_trans _ _ _ E H2)|].
    by rewrite (bytes_ltb_total _ _ E H1), H2.
  - rewrite (bytes_ltb_trans _ _ _ H1' H2'), andb_true_r, orb_true_iff, negb_true_iff.
    destruct (bytes_ltb z1 x1) eqn:E; [|by right].
    destruct (bytes_ltb x1 y1) eqn:E1; [by rewrite (bytes_ltb_trans _ _ _ E E1) in H2|].
    by rewrite <- (bytes_ltb_total _ _ E1 H1), E in H2.
Qed.

Lemma host_ltb_total x y : host_ltb x y = false -> host_ltb y x = false -> x = y.
Proof.
  destruct x as [x1 x2], y as [y1 y2]. unfold host_ltb. cbn. intros [H1 H2]%orb_false_iff [H3 H4]%orb_false_iff.
  rewrite H3 in H2. rewrite H1 in H4. cbn in H2, H4. by rewrite (bytes_ltb_total _ _ H1 H3), (bytes_ltb_total _ _ H2 H4).
Qed.

Lemma elem_set_insert x y l : x ∈ set_insert y l <-> x = y \/ x ∈ l.
Proof.
  induction l as [|z l IH]; [set_solver|]. cbn. destruct (host_ltb y z) eqn:E; [set_solver|].
  destruct (host_ltb z y) eqn:E'; [set_solver|]. rewrite (host_ltb_total _ _ E E'). set_solver.
Qed.

Lemma set_insert_sorted x l : StronglySorted host_lt l -> StronglySorted host_lt (set_insert x l).
Proof.
  induction 1 as [|y l Hl IH Hy]; [by repeat constructor|]. cbn.
  destruct (host_ltb x y) eqn:E; [|destruct (host_ltb y x) eqn:E'].
  - constructor; [by constructor|]. constructor; [done|].
    apply Forall_impl with (1 := Hy). intros z Hz. by transitivity y.
  - constructor; [done|]. apply Forall_forall. intros z [->|Hz]%elem_set_insert; [done|].
    by eapply Forall_forall in Hz; [|exact Hy].
  - by constructor.
Qed.

Lemma sorted_hosts_nodup l : StronglySorted host_lt l -> NoDup l.
Proof.
  induction 1 as [|x l _ IH Hx]; constructor; [|done]. intros Hin.
  eapply Forall_forall in Hin; [|exact Hx]. by apply (host_lt_irrefl x).
Qed.

(** ** Members of an object *)

Abbreviation object := (list (bytes * json)).

Fixpoint find_member (key : bytes) (m : object) : option json :=
  match m with
  | [] => None
  | (k, v) :: m => if bool_decide (c_string k = key) then Some v else find_member key m
  end.

Definition names (m : object) : list bytes := map (fun x => c_string x.1) m.

Lemma find_member_none key m : key ∉ names m -> find_member key m = None.
Proof.
  induction m as [|[k v] m IH]; [done|]. cbn. intros [H1 H2]%not_elem_of_cons.
  rewrite bool_decide_eq_false_2 by done. by apply IH.
Qed.

(** Decides the tests on the names of members. *)
Ltac decide_names :=
  repeat match goal with
  | H : context [bool_decide (?x = ?y)] |- _ =>
      first [rewrite (bool_decide_eq_true_2 (x = y)) in H by done
            |rewrite (bool_decide_eq_false_2 (x = y)) in H by done]
  | |- context [bool_decide (?x = ?y)] =>
      first [rewrite (bool_decide_eq_true_2 (x = y)) by done
            |rewrite (bool_decide_eq_false_2 (x = y)) by done]
  end.

(** The string of a member. *)
Definition string_member (key : bytes) (m : object) : option bytes := find_member key m ≫= GetString.

(** ** What a document describes *)

Record consul_node := mk_consul_node {
  cn_address : bytes;
  cn_port : Z;
  cn_service : bytes;
  cn_tags : list bytes;
  cn_statuses : list bytes
}.

Definition describes_check (v : json) (status : bytes) : Prop :=
  exists m, v = J_object m /\ NoDup (names m) /\ string_member (b "Status") m = Some status.

Definition describes_service (m : object) (n : consul_node) : Prop :=
  NoDup (names m) /\ find_member (b "Port") m = Some (J_int (cn_port n))
  /\ (exists tags, find_member (b "Tags") m = Some (J_array tags) /\ mapM GetString tags = Some (cn_tags n))
  /\ string_member (b "Service") m = Some (cn_service n).

(** The members may be in any order, with others among them. *)
Definition describes (v : json) (n : consul_node) : Prop :=
  exists m node service checks, v = J_object m /\ NoDup (names m)
  /\ find_member (b "Node") m = Some (J_object node) /\ string_member (b "Address") node = Some (cn_address n)
  /\ find_member (b "Service") m = Some (J_object service) /\ describes_service service n
  /\ find_member (b "Checks") m = Some (J_array checks) /\ Forall2 describes_check checks (cn_statuses n).

(** A document describes one node at most. *)
Lemma describes_fun v n1 n2 : describes v n1 -> describes v n2 -> n1 = n2.
Proof.
  intros (m & no & se & ch & -> & _ & Hn & Ha & Hs & (_ & Hp & (t & Ht & Hts) & Hsv) & Hc & Hck)
    (m' & no' & se' & ch' & [= <-] & _ & Hn' & Ha' & Hs' & (_ & Hp' & (t' & Ht' & Hts') & Hsv') & Hc' & Hck').
  rewrite Hn in Hn'. injection Hn' as <-. rewrite Hs in Hs'. injection Hs' as <-. rewrite Hc in Hc'. injection Hc' as <-.
  rewrite Ht in Ht'. injection Ht' as <-. destruct n1 as [a p sv ts ss], n2 as [a' p' sv' ts' ss']. cbn in *.
  assert (ss = ss') as ->; [|congruence]. clear - Hck Hck'. revert ss' Hck'.
  induction Hck as [|v s l ss (m & -> & _ & Hm) _ IH]; intros ss' H'.
  - by apply Forall2_nil_inv_l in H' as ->.
  - apply Forall2_cons_inv_l in H' as (s' & ss2 & (m' & [= <-] & _ & Hm') & Hl & ->). f_equal; [congruence|by apply IH].
Qed.

(** ** What the directory should keep of it *)

Section Meaning.
Context {boost : BoostStrings}.

Definition protocol_of_tag (tag : bytes) : option Z :=
  if bool_decide (tag = b "http") then Some HTTP_Service
  else if bool_decide (tag = b "rpc") then Some RPC_Service
  else if bool_decide (tag = b "raw") then Some Raw_Service
  else None.

Definition lower_tags (n : consul_node) : list bytes := map (map tolower) (cn_tags n).

(** The last tag that names a protocol decides; the others are the clusters of
    the node, which is of the cluster [dev] if there are none. *)
Definition node_type (n : consul_node) : Z := default Custom_Service (last (omap protocol_of_tag (lower_tags n))).
Definition node_clusters (n : consul_node) : list bytes :=
  match filter (fun t => protocol_of_tag t = None) (lower_tags n) with
  | [] => if bool_decide (cn_service n = []) then [] else [b "dev"]
  | l => l
  end.
Definition node_passing (n : consul_node) : bool := forallb (fun s => bool_decide (s = b "passing")) (cn_statuses n).
Definition node_host (n : consul_node) : host_pair := (cn_address n, dec_signed (cn_port n)).

(** The node is a host of the service [name] in [cluster] with type [t]. *)
Definition offers (n : consul_node) (t : nat) (key : bytes) : Prop :=
  node_passing n = true /\ Z.to_nat (node_type n) = t
  /\ exists cluster, cluster ∈ node_clusters n /\ key = service_key (cn_service n) cluster.

(** ** Reading a node *)

Lemma node_address_read m a host : string_member (b "Address") m = Some a -> node_address m host = Some (true, a).
Proof.
  unfold string_member. induction m as [|[k v] m IH]; [done|]. cbn.
  destruct (bool_decide _); [|done]. cbn. by intros ->.
Qed.

Lemma add_tag_read tag i :
  add_tag tag i = match protocol_of_tag (map tolower tag) with
                  | Some t => si_with_type t i
                  | None => si_with_tags (si_tags i ++ [map tolower tag]) i
                  end.
Proof.
  unfold add_tag, protocol_of_tag, http_service_str, raw_service_str, rpc_service_str. rewrite to_lower_spec.
  destruct (decide (map tolower tag = b "http")) as [->|]; [done|].
  rewrite !(bool_decide_eq_false_2 (map tolower tag = b "http")) by done.
  destruct (decide (map tolower tag = b "rpc")) as [->|]; [done|].
  rewrite !(bool_decide_eq_false_2 (map tolower tag = b "rpc")) by done. by case_bool_decide.
Qed.

Lemma add_tags_read l tags i : mapM GetString l = Some tags ->
  add_tags l i = Some (mk_service_info (si_port i) (si_name i)
    (default (si_type i) (last (omap protocol_of_tag (map (map tolower) tags))))
    (si_tags i ++ filter (fun t => protocol_of_tag t = None) (map (map tolower) tags))).
Proof.
  revert tags i. induction l as [|v l IH]; intros tags i H.
  - injection H as <-. cbn. rewrite app_nil_r. by destruct i.
  - apply mapM_Some in H. inversion H as [|? t ? tags' E Hl]. subst. cbn [add_tags]. rewrite E. cbn [mbind option_bind].
    rewrite (IH tags') by (by apply mapM_Some). rewrite add_tag_read. cbn [map omap list_omap].
    destruct (protocol_of_tag (map tolower t)) as [ty|] eqn:Et; cbn [si_port si_name si_type si_tags si_with_type si_with_tags].
    + rewrite filter_cons_False by congruence. do 2 f_equal.
      by destruct (omap _ _) using rev_ind; [|rewrite app_comm_cons, !last_snoc].
    + rewrite filter_cons_True by done. by rewrite <- app_assoc.
Qed.

(** Reading a member, when no other has its name. *)
Lemma service_members_read m i n : describes_service m n -> si_tags i = [] -> si_type i = Custom_Service ->
  service_members m i = Some (mk_service_info (dec_signed (cn_port n)) (cn_service n) (node_type n)
    (filter (fun t => protocol_of_tag t = None) (lower_tags n))).
Proof.
  intros (Hnd & Hp & (tags & Ht & Htags) & Hs) Hit Hity.
  enough (forall i, service_members m i = Some (mk_service_info
    (match find_member (b "Port") m with Some _ => dec_signed (cn_port n) | None => si_port i end)
    (match find_member (b "Service") m with Some _ => cn_service n | None => si_name i end)
    (match find_member (b "Tags") m with
     | Some _ => default (si_type i) (last (omap protocol_of_tag (lower_tags n))) | None => si_type i end)
    (match find_member (b "Tags") m with
     | Some _ => si_tags i ++ filter (fun t => protocol_of_tag t = None) (lower_tags n) | None => si_tags i end))) as ->.
  { rewrite Hp, Ht, Hit, Hity. unfold string_member in Hs. by destruct (find_member (b "Service") m). }
  assert (forall v, find_member (b "Port") m = Some v -> v = J_int (cn_port n)) as Hp' by congruence.
  assert (forall v, find_member (b "Tags") m = Some v -> v = J_array tags) as Ht' by congruence.
  assert (forall v, find_member (b "Service") m = Some v -> GetString v = Some (cn_service n)) as Hs'
    by (unfold string_member in Hs; intros v Hv; by rewrite Hv in Hs).
  clear Hp Ht Hs i Hit Hity. induction m as [|[k v] m IH]; intros i; [by destruct i|].
  apply NoDup_cons in Hnd as [Hk Hnd]. cbn [service_members find_member fst] in *.
  destruct (decide (c_string k = b "Port")) as [E|]; [|destruct (decide (c_string k = b "Tags")) as [E|];
    [|destruct (decide (c_string k = b "Service")) as [E|]]];
    try (rewrite E in *; rewrite (find_member_none _ _ Hk) in * ); decide_names.
  - rewrite (Hp' v eq_refl). cbn [GetInt mbind option_bind]. by rewrite (IH Hnd).
  - rewrite (Ht' v eq_refl), (add_tags_read _ _ _ Htags). cbn [mbind option_bind]. by rewrite (IH Hnd).
  - rewrite (Hs' v eq_refl). cbn [mbind option_bind]. by rewrite (IH Hnd).
  - by apply IH.
Qed.

Lemma parseServiceInfo_read m n p : describes_service m n -> parseServiceInfo (J_object m) (mk_service_info p [] Custom_Service [])
  = Some (true, mk_service_info (dec_signed (cn_port n)) (cn_service n) (node_type n) (node_clusters n)).
Proof.
  intros H. unfold parseServiceInfo. rewrite (service_members_read _ _ _ H) by done. cbn [mbind option_bind].
  do 2 f_equal. unfold node_clusters. destruct (filter _ _); cbn; repeat case_bool_decide; naive_solver.
Qed.

Lemma check_passes_read m status : NoDup (names m) -> string_member (b "Status") m = Some status ->
  check_passes m = Some (bool_decide (status = b "passing")).
Proof.
  unfold string_member. induction m as [|[k v] m IH]; [done|]. intros [Hk Hnd]%NoDup_cons. cbn [check_passes find_member fst] in *.
  destruct (decide (c_string k = b "Status")) as [E|]; try rewrite E in *; decide_names; [|by apply IH].
  cbn [mbind option_bind]. intros ->. cbn [mbind option_bind]. case_bool_decide; [|done]. clear IH E.
  induction m as [|[k' v'] m IH]; [done|]. apply NoDup_cons in Hnd as [_ Hnd].
  apply not_elem_of_cons in Hk as [Hk' Hk]. cbn [check_passes fst] in *. rewrite bool_decide_eq_false_2 by congruence. by apply IH.
Qed.

Lemma checks_pass_read l n : Forall2 describes_check l (cn_statuses n) -> checks_pass l = Some (node_passing n).
Proof.
  unfold node_passing. induction 1 as [|v s l ss (m & -> & Hnd & Hs) _ IH]; [done|]. cbn [checks_pass members mbind option_bind].
  rewrite (check_passes_read _ _ Hnd Hs). cbn [mbind option_bind forallb]. case_bool_decide; [|done]. by rewrite IH.
Qed.

Definition node_of (n : consul_node) : node_info :=
  mk_node_info (cn_address n)
    (mk_service_info (dec_signed (cn_port n)) (cn_service n) (node_type n) (node_clusters n)) (node_passing n).

Lemma node_members_read v n : describes v n ->
  (m ← members v; node_members m new_node) = Some (true, node_of n).
Proof.
  intros (m & node & service & checks & -> & Hnd & Hn & Ha & Hs & Hds & Hc & Hdc). cbn [members mbind option_bind].
  enough (forall i, ni_service i = ni_service new_node \/ find_member (b "Service") m = None ->
    node_members m i = Some (true, mk_node_info
    (match find_member (b "Node") m with Some _ => cn_address n | None => ni_host i end)
    (match find_member (b "Service") m with Some _ => ni_service (node_of n) | None => ni_service i end)
    (match find_member (b "Checks") m with Some _ => node_passing n | None => ni_passing i end))) as ->
    by first [by rewrite Hn, Hs, Hc | by left].
  assert (forall v, find_member (b "Node") m = Some v -> v = J_object node) as Hn' by congruence.
  assert (forall v, find_member (b "Service") m = Some v -> v = J_object service) as Hs' by congruence.
  assert (forall v, find_member (b "Checks") m = Some v -> v = J_array checks) as Hc' by congruence.
  clear Hn Hs Hc. induction m as [|[k v] m IH]; intros i Hi; [by destruct i|].
  apply NoDup_cons in Hnd as [Hk Hnd]. cbn [node_members find_member fst] in *.
  destruct (decide (c_string k = b "Node")) as [E|]; [|destruct (decide (c_string k = b "Service")) as [E|];
    [|destruct (decide (c_string k = b "Checks")) as [E|]]];
    try (rewrite E in *; rewrite (find_member_none _ _ Hk) in * ); decide_names.
  - rewrite (Hn' v eq_refl). cbn [parseServiceNodeInfo]. rewrite (node_address_read _ _ _ Ha). cbn [mbind option_bind].
    by rewrite (IH Hnd).
  - destruct Hi as [Hi|[=]]. rewrite (Hs' v eq_refl), Hi. cbn [new_node ni_service].
    rewrite (parseServiceInfo_read _ _ _ Hds). cbn [mbind option_bind]. rewrite (IH Hnd); [done..|by right].
  - rewrite (Hc' v eq_refl). cbn [parseServiceCheckInfo]. rewrite (checks_pass_read _ _ Hdc). cbn [mbind option_bind].
    by rewrite (IH Hnd).
  - by apply IH.
Qed.

(** ** Collecting the hosts *)

Definition hosts (t : nat) (key : bytes) (node_list : list host_map) : list host_pair :=
  default [] ((node_list !! t) ≫= (.!! key)).

(** Four maps from keys to sorted, non-empty sets of hosts. *)
Definition well_formed (node_list : list host_map) : Prop :=
  length node_list = Z.to_nat End_Service
  /\ Forall (map_Forall (fun _ l => l <> [] /\ StronglySorted host_lt l)) node_list.

Lemma hosts_sorted t key l : well_formed l -> StronglySorted host_lt (hosts t key l).
Proof.
  intros [_ H]. unfold hosts. destruct (l !! t) as [m|] eqn:E; [|constructor]. cbn.
  eapply Forall_lookup_1 in H; [|done]. destruct (m !! key) as [hs|] eqn:E'; [|constructor]. by apply (H key hs).
Qed.

Lemma set_insert_nonempty h l : set_insert h l <> [].
Proof. destruct l as [|x l]; cbn; [done|]. by repeat case_match. Qed.

Lemma add_node_spec (n : node_info) (m : host_map) : map_Forall (fun _ l => l <> [] /\ StronglySorted host_lt l) m ->
  map_Forall (fun _ l => l <> [] /\ StronglySorted host_lt l) (add_node n m)
  /\ forall key h, h ∈ default [] (add_node n m !! key) <->
       h ∈ default [] (m !! key)
       \/ (h = (ni_host n, si_port (ni_service n))
           /\ exists tag, tag ∈ si_tags (ni_service n) /\ key = service_key (si_name (ni_service n)) tag).
Proof.
  unfold add_node. generalize (si_tags (ni_service n)) as tags. intros tags. revert m.
  induction tags as [|tag tags IH]; intros m Hm; cbn [foldl].
  { split; [done|]. intros key h. split; [by left|]. intros [?|(_ & ? & ?%elem_of_nil & _)]; done. }
  edestruct IH as [H1 H2]; [|split; [exact H1|]].
  { unfold add_host. apply map_Forall_insert_2; [|done]. split; [apply set_insert_nonempty|]. apply set_insert_sorted.
    destruct (m !! _) as [l|] eqn:E; [by apply (Hm _ _ E)|constructor]. }
  intros key h. rewrite H2. unfold add_host.
  set (k := service_key (si_name (ni_service n)) tag). setoid_rewrite elem_of_cons.
  destruct (decide (k = key)) as [<-|Hk].
  - rewrite lookup_insert_eq. cbn [from_option id]. rewrite elem_set_insert. naive_solver.
  - rewrite lookup_insert_ne by done. naive_solver.
Qed.

Lemma put_node_hosts (n : node_info) l t key h : well_formed l -> (Z.to_nat (si_type (ni_service n)) < length l)%nat ->
  well_formed (put_node n l)
  /\ (h ∈ hosts t key (put_node n l) <->
       h ∈ hosts t key l
       \/ (h = (ni_host n, si_port (ni_service n)) /\ Z.to_nat (si_type (ni_service n)) = t
           /\ exists tag, tag ∈ si_tags (ni_service n) /\ key = service_key (si_name (ni_service n)) tag)).
Proof.
  intros [Hlen Hf] Hlt. unfold put_node. set (i := Z.to_nat (si_type (ni_service n))) in *.
  destruct (lookup_lt_is_Some_2 _ _ Hlt) as [m Em].
  pose proof (Forall_lookup_1 _ _ _ _ Hf Em) as Hm. destruct (add_node_spec n m Hm) as [H1 H2].
  split; [split; [by rewrite length_alter|]|].
  - apply Forall_lookup. intros j x. destruct (decide (i = j)) as [<-|Hj].
    + rewrite list_lookup_alter_eq, Em. by intros [= <-].
    + rewrite list_lookup_alter_ne by done. by apply Forall_lookup_1.
  - unfold hosts. destruct (decide (i = t)) as [<-|Hj].
    + rewrite list_lookup_alter_eq, Em. cbn. rewrite H2. naive_solver.
    + rewrite list_lookup_alter_ne by done. naive_solver.
Qed.

Lemma node_type_range n : 0 <= node_type n < End_Service.
Proof.
  unfold node_type. induction (lower_tags n) as [|t l IH] using rev_ind; [done|].
  rewrite omap_app. cbn [omap list_omap]. destruct (protocol_of_tag t) as [ty|] eqn:E; [|by rewrite app_nil_r].
  rewrite last_snoc. cbn [from_option id]. unfold protocol_of_tag in E. by repeat case_bool_decide; simplify_eq.
Qed.

Lemma add_nodes_read docs nodes l : Forall2 describes docs nodes -> well_formed l ->
  exists l', add_nodes docs l = Some l' /\ well_formed l'
  /\ forall t key h, h ∈ hosts t key l' <->
       h ∈ hosts t key l \/ exists n, n ∈ nodes /\ offers n t key /\ h = node_host n.
Proof.
  intros H. revert l. induction H as [|v n docs nodes Hv _ IH]; intros l Hl.
  { exists l. split_and!; [done..|]. intros t key h. split; [by left|].
    intros [?|(? & ?%elem_of_nil & _)]; done. }
  cbn [add_nodes]. apply node_members_read in Hv. destruct (members v) as [m|]; [|done]. cbn [mbind option_bind] in *.
  rewrite Hv. cbn [mbind option_bind negb]. rewrite orb_false_r. cbn [ni_passing node_of].
  assert (Z.to_nat (node_type n) < length l)%nat as Hlt
    by (rewrite (proj1 Hl); pose proof (node_type_range n); lia).
  destruct (node_passing n) eqn:Ep; cbn [negb]; edestruct IH as (l' & E & Hl' & Hh);
    [|by exists l'; split_and!; [done..|]; intros t key h; rewrite Hh; setoid_rewrite elem_of_cons;
      pose proof (put_node_hosts (node_of n) l t key h Hl Hlt) as [_ Hp]; rewrite Hp;
      unfold offers, node_host; cbn [ni_host ni_service node_of si_port si_tags si_name si_type]; naive_solver| |].
  - by apply (put_node_hosts (node_of n) l 0 [] ([], [])).
  - exact Hl.
  - exists l'. split_and!; [done..|]. intros t key h. rewrite Hh. setoid_rewrite elem_of_cons.
    unfold offers. naive_solver congruence.
Qed.

(** ** Whatever the documents say *)

Definition type_ok (i : service_info) : Prop := 0 <= si_type i < End_Service.

Lemma add_tags_type l : forall i i', add_tags l i = Some i' -> type_ok i -> type_ok i'.
Proof.
  induction l as [|v l IH]; intros i i' H Hi; cbn in H; [by injection H as <-|].
  destruct (GetString v) as [tag|]; [|done]. apply IH in H; [done|]. rewrite add_tag_read.
  destruct (protocol_of_tag _) as [ty|] eqn:E; [|done].
  unfold protocol_of_tag in E. unfold type_ok. by repeat case_bool_decide; simplify_eq.
Qed.

Lemma service_members_type (m : object) : forall i i', service_members m i = Some i' -> type_ok i -> type_ok i'.
Proof.
  induction m as [|[k v] m IH]; intros i i' H Hi; cbn [service_members] in H; [by injection H as <-|].
  apply bind_Some in H as (i1 & E & H). apply IH in H; [done|]. clear H IH.
  repeat case_bool_decide; simplify_option_eq; try done; [].
  destruct v; simplify_eq; try done. by eapply add_tags_type.
Qed.

Lemma parseServiceInfo_type v i ret i' : parseServiceInfo v i = Some (ret, i') -> type_ok i -> type_ok i'.
Proof.
  destruct v; cbn [parseServiceInfo]; intros H Hi; simplify_eq; try done.
  apply bind_Some in H as (i1 & E & H). apply service_members_type in E; [|done].
  simplify_eq. by case_match.
Qed.

Lemma node_members_type (m : object) : forall n ret n', node_members m n = Some (ret, n') ->
  type_ok (ni_service n) -> type_ok (ni_service n').
Proof.
  induction m as [|[k v] m IH]; intros n ret n' H Hn; cbn [node_members] in H; [by injection H as <- <-|].
  repeat case_bool_decide.
  - apply bind_Some in H as ([[|] h] & E & H); [by apply IH in H|by simplify_eq].
  - apply bind_Some in H as ([[|] i] & E & H); apply parseServiceInfo_type in E; try done.
    + by apply IH in H.
    + by simplify_eq.
  - apply bind_Some in H as (p & E & H). by apply IH in H.
  - by apply IH in H.
Qed.

Lemma add_nodes_well_formed docs : forall l l', add_nodes docs l = Some l' -> well_formed l -> well_formed l'.
Proof.
  induction docs as [|v docs IH]; intros l l' H Hl; cbn [add_nodes] in H; [by injection H as <-|].
  apply bind_Some in H as (m & _ & H). apply bind_Some in H as ([ret n] & E & H). apply IH in H; [done|].
  case_match; [done|]. apply (put_node_hosts n l 0 [] ([], [])); [done|].
  apply node_members_type in E; [|done]. rewrite (proj1 Hl). unfold type_ok in E. lia.
Qed.

Lemma empty_well_formed : well_formed (replicate (Z.to_nat End_Service) ∅).
Proof. split; [done|]. apply Forall_replicate, map_Forall_empty. Qed.

Lemma empty_hosts t key : hosts t key (replicate (Z.to_nat End_Service) ∅) = [].
Proof.
  unfold hosts. destruct (_ !! t) as [m|] eqn:E; [|done]. apply lookup_replicate in E as [-> _]. cbn. by rewrite lookup_empty.
Qed.

Lemma parse_well_formed parse_json json_rsp l :
  parseServiceInfoRsp parse_json json_rsp = Some (Some l) -> well_formed l.
Proof.
  unfold parseServiceInfoRsp. intros H. repeat case_match; try done.
  apply fmap_Some in H as (l' & E & [= ->]). eapply add_nodes_well_formed; [exact E|apply empty_well_formed].
Qed.

(** A document that describes nodes is read as what they offer. *)
Lemma parse_described parse_json json_rsp docs nodes :
  parse_json (c_string json_rsp) = Some (J_array docs) -> Forall2 describes docs nodes ->
  exists l, parseServiceInfoRsp parse_json json_rsp = Some (Some l) /\ well_formed l
  /\ forall t key h, h ∈ hosts t key l <-> exists n, n ∈ nodes /\ offers n t key /\ h = node_host n.
Proof.
  intros E H. destruct (add_nodes_read _ _ _ H empty_well_formed) as (l & El & Hl & Hh).
  exists l. unfold parseServiceInfoRsp. rewrite E, El. split_and!; [done..|]. intros t key h. rewrite Hh, empty_hosts.
  split; [intros [?%elem_of_nil|?]; done|by right].
Qed.

End Meaning.
