(* ===== verification/FibpServiceMgr.v ===== *)
(** * [FibpServiceMgr]: the directory of the services

    A thread watches the coordination service with long polls: one fiber for
    the list of services, one for the nodes of each service, one for the name
    of the local cluster.  They write the directory, [reg_service_host_info_],
    which the forward manager reads.  The manager is a system that reacts to
    the answers of the polls; an iteration of a watching fiber runs from one
    answer to the next request. *)

From stdpp Require Import options.
From S2P Require Import Prelude Boost HttpProtocol FibpClient FibpHttpClient RequestParser FibpServiceInfo.

(** ** Addresses *)

(** [boost::split] at every separator: [token_compress_off].  Outside the
    repository, as the functions of [BoostStrings]. *)
Class SplitEach := {
  split_each : (ascii -> bool) -> bytes -> list bytes;
  split_each_token p t : no_separator p t -> split_each p t = [t];
  split_each_next p t c rest :
    no_separator p t -> p c = true -> split_each p (t ++ c :: rest) = t :: split_each p rest
}.

Definition address_of {split : SplitEach} (addr : bytes) : option host_pair :=
  match split_each (is_char ":"%char) addr with
  | [ip; port] => Some (ip, port)
  | _ => None
  end.

(** The loop of the constructor over [reg_address_list]. *)
Definition register_addresses {boost : BoostStrings} {split : SplitEach} (reg_address_list : bytes)
  : list host_pair :=
  omap address_of (split_compress (is_char ","%char) reg_address_list).

(** ** Long polls *)

Section LongPolling.
Context (lexical_cast : bytes -> option Z).

(** How a poll ends; [lexical_cast<uint32_t>] throws when the header is
    missing or no 32-bit number. *)
Inductive poll := Poll_failed | Poll_throws | Polled (indexid : Z) (json_rsp : bytes).

Definition long_polling_request (path query : bytes) (indexid timeout : Z) : request_t :=
  mk_request (rq_http_major request_init) (rq_http_minor request_init) GET [] [] 0 path
    (query ++ (if bool_decide (query = []) then [] else b "&")
     ++ (if 0 <=? timeout then b "index=" ++ dec indexid ++ b "&wait=" ++ dec_signed timeout ++ b "s" else []))
    [] true [].

(** The polls of the watchers; the answers wait at the server for 120 s, the
    text of a forwarded port is asked for without waiting. *)
Definition default_timeout : Z := 120.
Definition services_request (indexid : Z) : request_t :=
  long_polling_request (b "/v1/catalog/services") [] indexid default_timeout.
Definition nodes_request (name : bytes) (indexid : Z) : request_t :=
  long_polling_request (b "/v1/health/service/" ++ name) [] indexid default_timeout.
Definition port_forward_key : bytes := b "/v1/kv/fibp-forward-port".
Definition ports_request (indexid : Z) : request_t :=
  long_polling_request port_forward_key (b "keys") indexid default_timeout.
Definition port_info_request (forwardkey : bytes) : request_t :=
  long_polling_request (port_forward_key ++ b "/" ++ forwardkey) (b "raw") 0 (-1).

Definition index_header : bytes := b "X-Consul-Index".

Definition long_polling_answer (ret : bool) (http_rsp : response_t) : poll :=
  if negb ret then Poll_failed
  else match lexical_cast (find_header (rs_headers http_rsp) index_header) with
       | Some indexid => Polled indexid (rs_body http_rsp)
       | None => Poll_throws
       end.

(** [None] where the HTTP client is undefined or waits. *)
Definition longPollingRequest (path query : bytes) (indexid timeout : Z) (cr : connect_result)
    (wr : write_result) (aborted : bool) (reads : list Response.read_event) (client : http_client)
  : option (poll * http_client * list Response.read_event) :=
  match send_http_request (long_polling_request path query indexid timeout) 0 cr wr client with
  | Sent false client => Some (Poll_failed, client, reads)
  | Sent true client =>
      '(ret, http_rsp, client, rest) ← get_http_response aborted reads client;
      Some (long_polling_answer ret http_rsp, client, rest)
  | _ => None
  end.

End LongPolling.

(** ** The state *)

(** The locals of [watchServiceNodeChangeFunc]; [nw_client] is the server its
    client is connected to. *)
Record node_watcher := mk_node_watcher {
  nw_indexid : Z;
  nw_balance_index : Z;
  nw_last_service_names : gset bytes;
  nw_client : host_pair
}.

(** The locals of [watchServiceChangeFunc]. *)
Record catalog_watcher := mk_catalog_watcher {
  cw_indexid : Z;
  cw_balance_index : Z;
  cw_client : host_pair;
  watching_services : gset bytes
}.

(** [sm_nodes]: the node watchers that have been started; none ever ends. *)
Record service_mgr := mk_service_mgr {
  reg_address_list_ : list host_pair;
  reg_service_host_info_ : list host_map;
  curClusterName_ : bytes;
  cluster_indexid : bytes;
  sm_catalog : catalog_watcher;
  sm_nodes : gmap bytes node_watcher
}.

Definition first_server (addrs : list host_pair) : host_pair := nth 0 addrs ([], []).
Definition next_server (addrs : list host_pair) (balance_index : Z) : host_pair :=
  nth (Z.to_nat (balance_index mod Z.of_nat (length addrs))) addrs ([], []).

Definition new_node_watcher (addrs : list host_pair) : node_watcher := mk_node_watcher 0 0 ∅ (first_server addrs).

Definition new_service_mgr (addrs : list host_pair) : service_mgr :=
  mk_service_mgr addrs (replicate (Z.to_nat End_Service) ∅) dev_cluster_str (b "0")
    (mk_catalog_watcher 0 0 (first_server addrs) ∅) ∅.

Definition sm_with_info (info : list host_map) (m : service_mgr) : service_mgr :=
  mk_service_mgr (reg_address_list_ m) info (curClusterName_ m) (cluster_indexid m)
    (sm_catalog m) (sm_nodes m).
Definition sm_with_cluster (name indexid : bytes) (m : service_mgr) : service_mgr :=
  mk_service_mgr (reg_address_list_ m) (reg_service_host_info_ m) name indexid
    (sm_catalog m) (sm_nodes m).
Definition sm_with_catalog (w : catalog_watcher) (m : service_mgr) : service_mgr :=
  mk_service_mgr (reg_address_list_ m) (reg_service_host_info_ m) (curClusterName_ m) (cluster_indexid m)
    w (sm_nodes m).
Definition sm_with_nodes (nodes : gmap bytes node_watcher) (m : service_mgr) : service_mgr :=
  mk_service_mgr (reg_address_list_ m) (reg_service_host_info_ m) (curClusterName_ m) (cluster_indexid m)
    (sm_catalog m) nodes.

Section Watching.
Context {boost : BoostStrings} (parse_json : bytes -> option json).

(** ** The nodes of a service *)

(** The loop over [node_list]: the keys of the last answers are erased, the
    new ones written, type by type; [last_service_names] only grows.  [None]
    would be an index past [reg_service_host_info_]. *)
Fixpoint update_types (node_list info : list host_map) (last_service_names : gset bytes)
  : option (list host_map * gset bytes) :=
  match node_list, info with
  | [], _ => Some (info, last_service_names)
  | fresh :: node_list, m :: info =>
      let m := fresh ∪ filter (fun x => x.1 ∉ last_service_names) m in
      '(info, last_service_names) ← update_types node_list info (last_service_names ∪ dom fresh);
      Some (m :: info, last_service_names)
  | _ :: _, [] => None
  end.

(** One iteration of [watchServiceNodeChangeFunc] for [name].  An exception
    that leaves the function reaches the [trampoline] of its fiber, which calls
    [std::terminate]: [None], as undefined behaviour. *)
Definition node_polled (name : bytes) (p : poll) (w : node_watcher) (m : service_mgr) : option service_mgr :=
  match p with
  | Poll_throws => None
  | Poll_failed =>
      let balance_index := w32 (nw_balance_index w + 1) in
      let w := mk_node_watcher (nw_indexid w) balance_index (nw_last_service_names w)
                 (next_server (reg_address_list_ m) balance_index) in
      Some (sm_with_nodes (<[name := w]> (sm_nodes m)) m)
  | Polled indexid json_rsp =>
      node_list ← parseServiceInfoRsp parse_json json_rsp;
      match node_list with
      | None =>
          let w := mk_node_watcher indexid (nw_balance_index w) (nw_last_service_names w) (nw_client w) in
          Some (sm_with_nodes (<[name := w]> (sm_nodes m)) m)
      | Some node_list =>
          '(info, last) ← update_types node_list (reg_service_host_info_ m) (nw_last_service_names w);
          let w := mk_node_watcher indexid (nw_balance_index w) last (nw_client w) in
          Some (sm_with_info info (sm_with_nodes (<[name := w]> (sm_nodes m)) m))
      end
  end.

(** ** The list of services *)

(** The loop over [services]: the fibers it starts. *)
Fixpoint start_watchers (addrs : list host_pair) (services : list bytes) (watching : gset bytes)
    (nodes : gmap bytes node_watcher) : gset bytes * gmap bytes node_watcher :=
  match services with
  | [] => (watching, nodes)
  | name :: services =>
      if bool_decide (name ∈ watching) then start_watchers addrs services watching nodes
      else start_watchers addrs services ({[name]} ∪ watching) (<[name := new_node_watcher addrs]> nodes)
  end.

(** One iteration of [watchServiceChangeFunc]. *)
Definition catalog_polled (p : poll) (m : service_mgr) : option service_mgr :=
  let w := sm_catalog m in
  match p with
  | Poll_throws => None
  | Poll_failed =>
      let balance_index := w32 (cw_balance_index w + 1) in
      Some (sm_with_catalog (mk_catalog_watcher (cw_indexid w) balance_index
        (next_server (reg_address_list_ m) balance_index) (watching_services w)) m)
  | Polled indexid json_rsp =>
      let services := snd (parseQueryServicesRsp parse_json json_rsp) in
      let '(watching, nodes) := start_watchers (reg_address_list_ m) services (watching_services w) (sm_nodes m) in
      Some (sm_with_nodes nodes
        (sm_with_catalog (mk_catalog_watcher indexid (cw_balance_index w) (cw_client w) watching) m))
  end.

(** ** The name of the cluster *)

Definition changeCluster (newClusterName : bytes) (cur : bytes) : bytes :=
  if bool_decide (newClusterName = []) then cur else newClusterName.

(** The first member [Name], or the name so far. *)
Fixpoint name_member (m : list (bytes * json)) (name : bytes) : option bytes :=
  match m with
  | [] => Some name
  | (k, v) :: m => if bool_decide (c_string k = b "Name") then GetString v else name_member m name
  end.

Definition cluster_request (indexid : bytes) : request_t :=
  mk_request (rq_http_major request_init) (rq_http_minor request_init) GET [] [] 0
    (b "/api/local/get-cluster") (b "index=" ++ indexid ++ b "&wait=600s") [] true [].

(** One iteration of [watchCurrentClusterName] whose request has been answered
    with [http_rsp], or has failed.  The initial value of [newClusterName] is
    [doc.GetString()], of a document that is known to be an object. *)
Definition cluster_polled (ret : bool) (http_rsp : response_t) (m : service_mgr) : option service_mgr :=
  if negb ret then Some m
  else
    match parse_json (c_string (rs_body http_rsp)) with
    | None => Some m
    | Some doc =>
        match doc with
        | J_object members =>
            newClusterName ← GetString doc;
            newClusterName ← name_member members newClusterName;
            let indexid := find_header (rs_headers http_rsp) index_header in
            let indexid := if bool_decide (indexid = []) then b "0" else indexid in
            let cur := curClusterName_ m in
            let cur := if bool_decide (newClusterName = cur) then cur else changeCluster newClusterName cur in
            Some (sm_with_cluster cur indexid m)
        | _ => Some m
        end
    end.

(** ** The system *)

Inductive watch_event :=
| Catalog_polled (p : poll)
| Node_polled (name : bytes) (p : poll)
| Cluster_polled (ret : bool) (http_rsp : response_t).

(** [None]: undefined behaviour, or the end of the process.  A poll of a watcher
    that is not running does not occur. *)
Definition watch_step (e : watch_event) (m : service_mgr) : option service_mgr :=
  match e with
  | Catalog_polled p => catalog_polled p m
  | Node_polled name p =>
      match sm_nodes m !! name with
      | Some w => node_polled name p w m
      | None => Some m
      end
  | Cluster_polled ret http_rsp => cluster_polled ret http_rsp m
  end.

Fixpoint watch_all (es : list watch_event) (m : service_mgr) : option service_mgr :=
  match es with
  | [] => Some m
  | e :: es => m ← watch_step e m; watch_all es m
  end.

End Watching.

(** ** Looking up a service *)

(** [get_service_address]: the address, or [None] when it returns false. *)
Definition get_service_address (balance_index : Z) (service_name : bytes) (type : Z) (m : service_mgr)
  : option (bytes * bytes) :=
  if Z.of_nat (length (reg_service_host_info_ m)) <=? w32 type then None
  else
    match (reg_service_host_info_ m !! Z.to_nat (w32 type)) ≫= (.!! service_key service_name (curClusterName_ m)) with
    | None | Some [] => None
    | Some host_list => host_list !! Z.to_nat (balance_index mod Z.of_nat (length host_list))
    end.

(** ** The constructor reads the list of servers it is given *)

Fixpoint each_from (p : ascii -> bool) (cur s : bytes) : list bytes :=
  match s with
  | [] => [rev cur]
  | c :: s => if p c then rev cur :: each_from p [] s else each_from p (c :: cur) s
  end.

Lemma each_from_token p t cur s : no_separator p t -> each_from p cur (t ++ s) = each_from p (rev t ++ cur) s.
Proof. intros H. revert cur. induction H as [|c t Hc _ IH]; intros cur; [done|]. cbn. by rewrite Hc, IH, <- app_assoc. Qed.

#[local, refine] Instance reference_split : SplitEach := {| split_each p := each_from p [] |}.
Proof.
  - intros p t H. rewrite <- (app_nil_r t) at 1. rewrite each_from_token by done. cbn. by rewrite app_nil_r, rev_involutive.
  - intros p t c rest H Hc. rewrite each_from_token by done. cbn. by rewrite Hc, app_nil_r, rev_involutive.
Defined.

Definition print_address (a : host_pair) : bytes := a.1 ++ b ":" ++ a.2.
Fixpoint print_addresses (l : list host_pair) : bytes :=
  match l with
  | [] => []
  | [a] => print_address a
  | a :: l => print_address a ++ b "," ++ print_addresses l
  end.

(** An address without the two separators. *)
Definition plain_address (a : host_pair) : Prop :=
  a.1 <> [] /\ Forall (fun c => c <> ":"%char /\ c <> ","%char) (a.1 ++ a.2).

Lemma no_char c s : Forall (fun x => x <> c) s -> no_separator (is_char c) s.
Proof. intros H. eapply Forall_impl; [exact H|]. intros x Hx. by apply Ascii.eqb_neq. Qed.

Theorem addresses_registered {boost : BoostStrings} {split : SplitEach} l : l <> [] -> Forall plain_address l ->
  register_addresses (print_addresses l) = l.
Proof.
  intros Hne Hl. unfold register_addresses.
  assert (forall a, plain_address a -> no_separator (is_char ","%char) (print_address a) /\ address_of (print_address a) = Some a) as Ha.
  { intros [ip port] [_ H]. cbn [fst snd] in H. apply Forall_app in H as [Hi Hp].
    assert (Forall (fun x => x <> ":"%char) ip /\ Forall (fun x => x <> ","%char) ip
      /\ Forall (fun x => x <> ":"%char) port /\ Forall (fun x => x <> ","%char) port) as (H1 & H2 & H3 & H4)
      by (split_and!; (eapply Forall_impl; [first [exact Hi|exact Hp]|by intros ? []])).
    unfold print_address. cbn [fst snd]. split.
    - apply Forall_app. split; [by apply no_char|]. constructor; [done|by apply no_char].
    - unfold address_of. change (b ":" ++ port) with (":"%char :: port).
      rewrite split_each_next, split_each_token; [done|by apply no_char..|done]. }
  induction Hl as [|a l Hpa Hl IH]; [done|]. destruct (Ha a Hpa) as [Hc Hq]. destruct l as [|a' l].
  - cbn [print_addresses]. rewrite split_token by done. cbn. by rewrite Hq.
  - change (print_addresses (a :: a' :: l)) with (print_address a ++ b "," ++ print_addresses (a' :: l)).
    rewrite split_next; [cbn [omap list_omap]; rewrite Hq; f_equal; by apply IH|done|by repeat constructor|done|].
    intros c Hcc. apply Forall_cons in Hl as [[Hne' Hp'] _]. destruct a' as [[|x ip] port]; [done|].
    apply Forall_app in Hp' as [[[_ Hx] _]%Forall_cons _].
    assert (head (print_addresses ((x :: ip, port) :: l)) = Some x) as Hhd by (destruct l; reflexivity).
    rewrite Hhd in Hcc. injection Hcc as <-. by apply Ascii.eqb_neq.
Qed.
