(* ===== verification/FibpServiceMgrSpec.v ===== *)
(** * What the directory promises

    The directory holds, for each service, what its last answer said; the
    address of a service is that of a node that passes its checks, and
    consecutive lookups go round the nodes. *)

From stdpp Require Import options.
From S2P Require Import Prelude Boost HttpProtocol RequestParser FibpServiceInfo FibpServiceInfoSpec FibpServiceMgr.
From Stdlib Require Import Sorted.

(** ** One update *)

Abbreviation entry t key l := ((l !! t) ≫= (.!! key)).

Lemma update_types_spec (l : list host_map) : forall (info : list host_map) last info' last',
  update_types l info last = Some (info', last') ->
  length info' = length info
  /\ (forall key, key ∈ last' <-> key ∈ last \/ exists t, is_Some (entry t key l))
  /\ (forall key, (key ∈ last \/ forall t, entry t key info = None) ->
        forall t, (t < length l)%nat -> entry t key info' = entry t key l)
  /\ (forall key, key ∉ last -> (forall t, entry t key l = None) -> forall t, entry t key info' = entry t key info).
Proof.
  induction l as [|fresh l IH]; intros info last info' last' H.
  { destruct info; injection H as <- <-; (split_and!; [done| |cbn; lia|done]); intros key; cbn; naive_solver. }
  destruct info as [|m info]; [done|]. cbn [update_types] in H.
  destruct (update_types l info (last ∪ dom fresh)) as [[info1 last1]|] eqn:E; [|done].
  injection H as <- <-. apply IH in E as (Hlen & Hlast & Hin & Hout). clear IH.
  split_and!.
  - cbn. by rewrite Hlen.
  - intros key. rewrite Hlast, elem_of_union, elem_of_dom. split.
    + intros [[?|Hf]|[t Ht]]; [by left|right; by exists 0%nat|right; by exists (S t)].
    + intros [?|[[|t] Ht]]; [by left; left|by left; right|right; by exists t].
  - intros key Hkey [|t] Ht; cbn.
    + destruct (fresh !! key) as [h|] eqn:Ef; [by apply lookup_union_Some_l|].
      rewrite lookup_union_r by done. destruct Hkey as [Hkey|Hkey].
      * by rewrite map_lookup_filter_None_2 by (right; naive_solver).
      * rewrite map_lookup_filter_None_2; [done|]. left. exact (Hkey 0%nat).
    + apply Hin; [|cbn in Ht; lia]. destruct Hkey as [Hkey|Hkey]; [left; set_solver|].
      right. intros t'. exact (Hkey (S t')).
  - intros key Hkey Hnone. pose proof (Hnone 0%nat) as H0. cbn in H0. intros [|t]; cbn.
    + rewrite lookup_union_r by done. destruct (m !! key) as [h|] eqn:Em.
      * by apply map_lookup_filter_Some.
      * apply map_lookup_filter_None_2. by left.
    + apply Hout; [|intros t'; exact (Hnone (S t'))]. rewrite elem_of_union, elem_of_dom, H0. by intros [?|[]].
Qed.

(** ** New watchers *)

Lemma start_watchers_spec addrs services : forall watching nodes watching' nodes',
  start_watchers addrs services watching nodes = (watching', nodes') ->
  (forall n, is_Some (nodes !! n) -> n ∈ watching) ->
  watching ⊆ watching'
  /\ (forall n, is_Some (nodes' !! n) -> n ∈ watching')
  /\ (forall n, n ∈ services -> n ∈ watching')
  /\ forall n w, nodes' !! n = Some w -> nodes !! n = Some w \/ (n ∉ watching /\ w = new_node_watcher addrs).
Proof.
  induction services as [|s services IH]; intros watching nodes watching' nodes' H Hw; cbn in H.
  { injection H as <- <-. split_and!; [done|done|by intros n ?%elem_of_nil|by left]. }
  case_bool_decide as Hs.
  - apply IH in H as (H1 & H2 & H3 & H4); [|done]. split_and!; [done..| |done]. intros n [->|?]%elem_of_cons; auto.
  - apply IH in H as (H1 & H2 & H3 & H4).
    + split_and!; [set_solver|done|intros n [->|?]%elem_of_cons; [set_solver|auto]|].
      intros n w Hn. destruct (H4 n w Hn) as [Hn'|[Hn' ->]]; [|right; set_solver].
      destruct (decide (s = n)) as [<-|]; [|rewrite lookup_insert_ne in Hn' by done; by left].
      rewrite lookup_insert_eq in Hn'. right. split; [done|congruence].
    + intros n Hn. destruct (decide (s = n)) as [<-|]; [set_solver|]. rewrite lookup_insert_ne in Hn by done. set_solver.
Qed.

(** ** Runs *)

Section Directory.
Context {boost : BoostStrings} (parse_json : bytes -> option json).
Implicit Types (m : service_mgr) (key name : bytes).

Abbreviation watch_step := (watch_step parse_json).
Abbreviation watch_all := (watch_all parse_json).
Abbreviation parseServiceInfoRsp := (parseServiceInfoRsp parse_json).

Lemma watch_all_app es1 es2 m : watch_all (es1 ++ es2) m = (m ← watch_all es1 m; watch_all es2 m).
Proof. revert m. induction es1 as [|e es1 IH]; intros m; [done|]. cbn. destruct (watch_step e m); [apply IH|done]. Qed.

(** ** The answers of a run *)

(** The answer that an event brings to the watcher of a service. *)
Definition taken (e : watch_event) m : list (bytes * bytes) :=
  match e with
  | Node_polled name (Polled _ json_rsp) =>
      match sm_nodes m !! name, parseServiceInfoRsp json_rsp with
      | Some _, Some (Some _) => [(name, json_rsp)]
      | _, _ => []
      end
  | _ => []
  end.

Fixpoint answers (es : list watch_event) m : list (bytes * bytes) :=
  match es with
  | [] => []
  | e :: es => taken e m ++ match watch_step e m with Some m => answers es m | None => [] end
  end.

(** What an answer says, and the last answer about a service. *)
Definition listed (json_rsp : bytes) (t : nat) key : list host_pair :=
  match parseServiceInfoRsp json_rsp with Some (Some l) => hosts t key l | _ => [] end.

Definition latest name (l : list (bytes * bytes)) : option bytes := last (omap (fun a => if bool_decide (a.1 = name) then Some a.2 else None) l).

Definition last_listed name (l : list (bytes * bytes)) (t : nat) key : list host_pair :=
  match latest name l with Some json_rsp => listed json_rsp t key | None => [] end.

Lemma latest_app name l l' : latest name (l ++ l') = match latest name l' with Some a => Some a | None => latest name l end.
Proof. unfold latest. by rewrite omap_app, last_app. Qed.

(** ** The invariant *)

(** What a run has left: [name] is the only service whose answers mention
    [key], [ans] the answers so far. *)
Record holds name key (ans : list (bytes * bytes)) m : Prop := {
  h_length : length (reg_service_host_info_ m) = Z.to_nat End_Service;
  h_watched : forall n, (n ∈ ans.*1 \/ is_Some (sm_nodes m !! n)) -> n ∈ watching_services (sm_catalog m);
  h_hosts : forall t, hosts t key (reg_service_host_info_ m) = last_listed name ans t key;
  h_entry : forall t, entry t key (reg_service_host_info_ m) <> Some [];
  h_others : forall n w, sm_nodes m !! n = Some w -> n <> name -> key ∉ nw_last_service_names w;
  h_own : forall w t, sm_nodes m !! name = Some w -> is_Some (entry t key (reg_service_host_info_ m)) ->
            key ∈ nw_last_service_names w
}.

(** No answer about another service mentions the key. *)
Definition owned name key (ans : list (bytes * bytes)) : Prop :=
  forall n json_rsp t, (n, json_rsp) ∈ ans -> n <> name -> listed json_rsp t key = [].

Lemma new_holds name key addrs : holds name key [] (new_service_mgr addrs).
Proof.
  assert (forall t, entry t key (replicate (Z.to_nat End_Service) (∅ : host_map)) = None) as H.
  { intros t. destruct (_ !! t) as [m|] eqn:E; [|done]. apply lookup_replicate in E as [-> _]. apply lookup_empty. }
  constructor; cbn [reg_service_host_info_ new_service_mgr sm_nodes sm_catalog watching_services].
  - done.
  - intros n [?%elem_of_nil|[w Hw]]; [done|]. by rewrite lookup_empty in Hw.
  - intros t. unfold hosts. by rewrite H.
  - intros t. by rewrite H.
  - intros n w Hw. by rewrite lookup_empty in Hw.
  - intros w t Hw. by rewrite lookup_empty in Hw.
Qed.


Lemma holds_quiet name key ans m m' :
  reg_service_host_info_ m' = reg_service_host_info_ m ->
  watching_services (sm_catalog m) ⊆ watching_services (sm_catalog m') ->
  (forall n, is_Some (sm_nodes m' !! n) -> n ∈ watching_services (sm_catalog m')) ->
  (forall n w, sm_nodes m' !! n = Some w ->
     (exists w', sm_nodes m !! n = Some w' /\ nw_last_service_names w = nw_last_service_names w')
     \/ (n ∉ watching_services (sm_catalog m) /\ nw_last_service_names w = ∅)) ->
  holds name key ans m -> holds name key ans m'.
Proof.
  intros Hinfo Hw Hnew Hn [H1 H2 H3 H4 H5 H6]. constructor; rewrite ?Hinfo; try done.
  - intros n [Ha|?]; [|auto]. apply Hw, H2. by left.
  - intros n w E Hne. destruct (Hn n w E) as [(w' & E' & ->)|[_ ->]]; [by eapply H5|set_solver].
  - intros w t E He. destruct (Hn name w E) as [(w' & E' & ->)|[Hnot _]]; [by eapply H6|].
    exfalso. assert (last_listed name ans t key = []) as Hl.
    { unfold last_listed, latest. destruct (last _) as [a|] eqn:El; [|done]. exfalso. apply Hnot, H2. left.
      apply last_Some_elem_of, list_elem_of_omap in El as ([n a'] & Hin & Ha).
      cbn in Ha. case_bool_decide; [|done]. simplify_eq. by apply (list_elem_of_fmap_2 fst) in Hin. }
    rewrite <- H3 in Hl. unfold hosts in Hl. destruct He as [hs He]. pose proof (H4 t) as Hne. rewrite He in Hl, Hne.
    cbn in Hl. by subst.
Qed.

Lemma holds_same name key ans m m' :
  reg_service_host_info_ m' = reg_service_host_info_ m -> sm_nodes m' = sm_nodes m ->
  watching_services (sm_catalog m') = watching_services (sm_catalog m) ->
  holds name key ans m -> holds name key ans m'.
Proof. intros H1 H2 H3 [? ? ? ? ? ?]. by constructor; rewrite ?H1, ?H2, ?H3. Qed.

Lemma entry_of_hosts (l : list host_map) t key : well_formed l -> hosts t key l = [] -> entry t key l = None.
Proof.
  intros [_ Hl] H. unfold hosts in H. destruct (l !! t) as [m|] eqn:E; [|done]. cbn in *.
  destruct (m !! key) as [hs|] eqn:E'; [|done]. cbn in H. subst.
  pose proof (Forall_lookup_1 _ _ _ _ Hl E key [] E') as [? _]. done.
Qed.

Lemma entry_outside (l : list host_map) t key : (length l <= t)%nat -> entry t key l = None.
Proof. intros H. by rewrite lookup_ge_None_2. Qed.

Lemma update_holds name key ans m n w indexid json_rsp l info last1 :
  holds name key ans m -> owned name key (ans ++ [(n, json_rsp)]) -> sm_nodes m !! n = Some w ->
  parseServiceInfoRsp json_rsp = Some (Some l) ->
  update_types l (reg_service_host_info_ m) (nw_last_service_names w) = Some (info, last1) ->
  holds name key (ans ++ [(n, json_rsp)])
    (sm_with_info info (sm_with_nodes
       (<[n := mk_node_watcher indexid (nw_balance_index w) last1 (nw_client w)]> (sm_nodes m)) m)).
Proof.
  intros [H1 H2 H3 H4 H5 H6] Hown Hw Ep Eu.
  pose proof (parse_well_formed _ _ _ Ep) as Hwf. apply update_types_spec in Eu as (Hlen & Hlast & Hin & Hout).
  assert (forall t, entry t key l = None \/ n = name) as Hother.
  { intros t. destruct (decide (n = name)); [by right|left]. apply entry_of_hosts; [done|].
    assert (listed json_rsp t key = []) as Hl by (apply (Hown n); [set_solver|done]).
    unfold listed in Hl. by rewrite Ep in Hl. }
  assert (forall t, entry t key info = if bool_decide (n = name) then entry t key l else entry t key (reg_service_host_info_ m)) as He.
  { intros t. case_bool_decide as Hn.
    - subst n. destruct (decide (t < length l)%nat) as [Ht|Ht].
      + apply Hin; [|done]. destruct (decide (key ∈ nw_last_service_names w)) as [|Hk]; [by left|right].
        intros t'. destruct (entry t' key (reg_service_host_info_ m)) eqn:E; [|done]. exfalso. apply Hk, (H6 w t' Hw). by rewrite E.
      + rewrite !entry_outside; [done|lia|]. rewrite Hlen, H1. rewrite <- (proj1 Hwf). lia.
    - apply Hout; [by eapply H5|]. intros t'. by destruct (Hother t'). }
  constructor; cbn [reg_service_host_info_ sm_with_info sm_with_nodes sm_nodes sm_catalog].
  - by rewrite Hlen.
  - intros n'. rewrite fmap_app, elem_of_app. cbn [fmap list_fmap fst]. rewrite list_elem_of_singleton.
    destruct (decide (n = n')) as [<-|]; [intros _; apply H2; by right|].
    rewrite lookup_insert_ne by done. intros [[?|?]|?]; [apply H2; by left|by subst|apply H2; by right].
  - intros t. unfold last_listed. rewrite latest_app. unfold latest at 1. cbn [omap list_omap fst snd].
    specialize (He t). unfold hosts. rewrite He. case_bool_decide; [|exact (H3 t)].
    cbn [last]. unfold listed, hosts. by rewrite Ep.
  - intros t Hc. rewrite He in Hc. case_bool_decide; [|by apply (H4 t)].
    assert (hosts t key l = []) as Hh by (unfold hosts; by rewrite Hc). apply entry_of_hosts in Hh; [congruence|done].
  - intros n' w' Hn' Hne Hk. destruct (decide (n = n')) as [<-|]; [|rewrite lookup_insert_ne in Hn' by done; by eapply H5].
    rewrite lookup_insert_eq in Hn'. injection Hn' as <-. cbn in Hk. apply Hlast in Hk as [Hk|[t [x Ht]]].
    + by eapply H5.
    + destruct (Hother t); [congruence|done].
  - intros w' t Hn' Hs. rewrite He in Hs. case_bool_decide as Hn.
    + subst n. rewrite lookup_insert_eq in Hn'. injection Hn' as <-. cbn. apply Hlast. right. by exists t.
    + rewrite lookup_insert_ne in Hn' by done. by eapply H6.
Qed.

Lemma step_holds name key ans e m m' : watch_step e m = Some m' ->
  holds name key ans m -> owned name key (ans ++ taken e m) -> holds name key (ans ++ taken e m) m'.
Proof.
  intros H Hm Hown. destruct e as [p|n p|ret rsp]; cbn [FibpServiceMgr.watch_step taken] in *.
  - rewrite app_nil_r in *. unfold catalog_polled in H. destruct p as [| |i body]; [injection H as <-; by apply (holds_same _ _ _ m)|done|].
    destruct (start_watchers _ _ _ _) as [watching nodes] eqn:E. injection H as <-.
    pose proof (h_watched _ _ _ _ Hm) as Hw. apply start_watchers_spec in E as (E1 & E2 & _ & E3); [|auto].
    apply (holds_quiet _ _ _ m); try done. intros n w Hn.
    destruct (E3 n w Hn) as [?|[? ->]]; [left; by exists w|by right].
  - destruct (sm_nodes m !! n) as [w|] eqn:Ew; [|destruct p; rewrite app_nil_r in *; by injection H as <-].
    assert (forall w', nw_last_service_names w' = nw_last_service_names w ->
              holds name key ans (sm_with_nodes (<[n := w']> (sm_nodes m)) m)) as Hsame.
    { intros w' Hl. apply (holds_quiet _ _ _ m); try done; cbn [sm_nodes sm_with_nodes sm_catalog].
      - intros n' Hn'. apply (h_watched _ _ _ _ Hm). right. destruct (decide (n = n')) as [<-|]; [by rewrite Ew|].
        by rewrite lookup_insert_ne in Hn'.
      - intros n' w1 Hn'. left. destruct (decide (n = n')) as [<-|].
        + rewrite lookup_insert_eq in Hn'. exists w. split; [done|congruence].
        + rewrite lookup_insert_ne in Hn' by done. by exists w1. }
    destruct p as [| |i body]; cbn [node_polled] in H.
    + rewrite app_nil_r in *. injection H as <-. by apply Hsame.
    + done.
    + destruct (parseServiceInfoRsp body) as [[l|]|] eqn:Ep; [| |done]; cbn [mbind option_bind] in H.
      * destruct (update_types _ _ _) as [[info last]|] eqn:Eu; [|done]. injection H as <-. by apply (update_holds _ _ _ _ _ _ _ _ l).
      * rewrite app_nil_r in *. injection H as <-. by apply Hsame.
  - rewrite app_nil_r in *. unfold cluster_polled in H. by repeat (case_match; simplify_eq; try done).
Qed.

Lemma run_holds name key es : forall ans m m', watch_all es m = Some m' ->
  holds name key ans m -> owned name key (ans ++ answers es m) -> holds name key (ans ++ answers es m) m'.
Proof.
  induction es as [|e es IH]; intros ans m m' H Hm Hown; cbn [FibpServiceMgr.watch_all answers] in *.
  { rewrite app_nil_r. by injection H as <-. }
  destruct (watch_step e m) as [m1|] eqn:E; [|done]. cbn [mbind option_bind] in H.
  rewrite app_assoc in *. eapply IH; [exact H| |done]. eapply step_holds; [done..|].
  intros n body t Hin. apply Hown. rewrite elem_of_app. by left.
Qed.


(** A key that one service owns holds what the last answer about it said. *)
Lemma directory_holds name key es addrs m : watch_all es (new_service_mgr addrs) = Some m ->
  owned name key (answers es (new_service_mgr addrs)) ->
  holds name key (answers es (new_service_mgr addrs)) m.
Proof. intros H Hown. rewrite <- (app_nil_l (answers _ _)). eapply run_holds; [exact H|apply new_holds|done]. Qed.

(** ** Answers as they are documented *)

(** The text describes these nodes. *)
Definition describes_nodes (json_rsp : bytes) (nodes : list consul_node) : Prop :=
  exists docs, parse_json (c_string json_rsp) = Some (J_array docs) /\ Forall2 describes docs nodes.

(** An answer about a service describes nodes of that service. *)
Definition documented (a : bytes * bytes) : Prop :=
  exists nodes, describes_nodes a.2 nodes /\ Forall (fun n => cn_service n = a.1) nodes.

(** The answer is about another service, but a passing node of it has the same
    name and cluster once they are joined by a dash: [a-b] in [c] and [a] in
    [b-c] have one key. *)
Definition clashes name (cluster : bytes) (a : bytes * bytes) : Prop :=
  a.1 <> name /\ exists nodes n c, describes_nodes a.2 nodes /\ n ∈ nodes /\ node_passing n = true /\ c ∈ node_clusters n
    /\ service_key (cn_service n) c = service_key name cluster.

(** Names without a dash never clash. *)
Definition dashless name : Prop := Forall (fun c => c <> "-"%char) name.

Lemma service_key_inj n1 n2 c1 c2 : dashless n1 -> dashless n2 -> service_key n1 c1 = service_key n2 c2 -> n1 = n2.
Proof.
  intros H1. revert n2. induction H1 as [|c n1 Hc _ IH]; intros n2 H2 H.
  - destruct H2 as [|d n2 Hd _]; [done|]. by injection H as <-.
  - destruct H2 as [|d n2 Hd H2]; injection H as -> H; [done|]. f_equal. by apply IH.
Qed.

Lemma listed_described json_rsp nodes t key h : describes_nodes json_rsp nodes ->
  h ∈ listed json_rsp t key <-> exists n, n ∈ nodes /\ offers n t key /\ h = node_host n.
Proof.
  intros (docs & E & H). destruct (parse_described parse_json json_rsp docs nodes E H) as (l & El & _ & Hh).
  unfold listed. by rewrite El.
Qed.

Lemma unclashed_owned name cluster ans : Forall documented ans -> Forall (fun a => ~ clashes name cluster a) ans ->
  owned name (service_key name cluster) ans.
Proof.
  intros Hans Hc n json_rsp t Hin Hne. eapply Forall_forall in Hans as (nodes & Hn & _); [|exact Hin].
  eapply Forall_forall in Hc; [|exact Hin]. destruct (listed json_rsp t _) as [|h hs] eqn:E; [done|exfalso].
  assert (h ∈ listed json_rsp t (service_key name cluster)) as Hh by (rewrite E; left).
  apply (listed_described _ nodes _ _ _ Hn) in Hh as (x & Hx & (Hp & _ & c & Hcl & Hk) & _).
  apply Hc. split; [done|]. exists nodes, x, c. split_and!; congruence.
Qed.

Lemma describes_nodes_fun json_rsp l l' : describes_nodes json_rsp l -> describes_nodes json_rsp l' -> l = l'.
Proof.
  intros (docs & E & H) (docs' & E' & H'). rewrite E in E'. injection E' as <-. clear E. revert l' H'.
  induction H as [|v n docs l Hv _ IH]; intros l' H'; inversion H' as [|? n' ? l2 Hv' Hl']; subst; [done|].
  f_equal; [by eapply describes_fun|by apply IH].
Qed.

Lemma dashless_unclashed name cluster a : documented a -> dashless a.1 -> dashless name -> ~ clashes name cluster a.
Proof.
  intros (nodes & Hn & Hs) Ha Hname [Hne (nodes' & n & c & Hn' & Hin & _ & _ & Hk)]. apply Hne.
  rewrite (describes_nodes_fun _ _ _ Hn' Hn) in Hin. eapply Forall_forall in Hs; [|exact Hin]. cbn in Hs.
  rewrite Hs in Hk. by eapply service_key_inj.
Qed.

(** ** Lookups *)

Lemma get_service_address_hosts bi name type m : 0 <= type < End_Service ->
  length (reg_service_host_info_ m) = Z.to_nat End_Service ->
  let l := hosts (Z.to_nat type) (service_key name (curClusterName_ m)) (reg_service_host_info_ m) in
  get_service_address bi name type m = match l with [] => None | _ => l !! Z.to_nat (bi mod Z.of_nat (length l)) end.
Proof.
  intros Ht Hlen l. unfold get_service_address. rewrite Hlen.
  assert (w32 type = type) as -> by (apply wrap_small; unfold End_Service in Ht; change (2 ^ 32) with 4294967296; lia).
  change (Z.of_nat (Z.to_nat End_Service)) with End_Service. replace (End_Service <=? type) with false by lia.
  unfold l, hosts. destruct (entry _ _ _) as [[|h hs]|]; done.
Qed.

Lemma nth_host bi (l : list host_pair) : l <> [] -> exists h, l !! Z.to_nat (bi mod Z.of_nat (length l)) = Some h.
Proof.
  intros Hl. apply lookup_lt_is_Some_2. destruct l as [|h l]; [done|].
  set (n := length (h :: l)). assert (0 < n)%nat as Hn by (unfold n; cbn; lia). clearbody n.
  pose proof (Z.mod_pos_bound bi (Z.of_nat n)). lia.
Qed.

(** A host that a list of nodes offers for a service. *)
Definition healthy (nodes : list consul_node) (name cluster : bytes) (type : Z) (h : host_pair) : Prop :=
  exists n, n ∈ nodes /\ node_passing n = true /\ node_type n = type /\ cn_service n = name
    /\ cluster ∈ node_clusters n /\ h = node_host n.

(** The answers of a run are as documented and do not clash with [name] in the
    current cluster; the last one about [name] describes [nodes]. *)
Definition documented_run (es : list watch_event) (addrs : list host_pair) name (nodes : list consul_node) m : Prop :=
  watch_all es (new_service_mgr addrs) = Some m
  /\ Forall documented (answers es (new_service_mgr addrs))
  /\ Forall (fun a => ~ clashes name (curClusterName_ m) a) (answers es (new_service_mgr addrs))
  /\ exists json_rsp, latest name (answers es (new_service_mgr addrs)) = Some json_rsp /\ describes_nodes json_rsp nodes.

Lemma hosts_healthy es addrs name nodes m type : documented_run es addrs name nodes m -> 0 <= type < End_Service ->
  let l := hosts (Z.to_nat type) (service_key name (curClusterName_ m)) (reg_service_host_info_ m) in
  length (reg_service_host_info_ m) = Z.to_nat End_Service
  /\ forall h, h ∈ l <-> healthy nodes name (curClusterName_ m) type h.
Proof.
  intros (Hrun & Hdoc & Hcl & json_rsp & Hlast & Hnodes) Hty l. set (key := service_key name (curClusterName_ m)) in l.
  pose proof (directory_holds name key es addrs m Hrun (unclashed_owned _ _ _ Hdoc Hcl)) as [Hlen _ Hhosts _ _ _].
  split; [done|]. intros h. unfold l. rewrite Hhosts. unfold last_listed. rewrite Hlast, (listed_described _ nodes) by done.
  unfold latest in Hlast. apply last_Some_elem_of, list_elem_of_omap in Hlast as ([n' a] & Hin & Ha).
  cbn in Ha. case_bool_decide; [|done]. simplify_eq. eapply Forall_forall in Hdoc as (nodes' & Hn' & Hs); [|exact Hin].
  rewrite (describes_nodes_fun _ _ _ Hn' Hnodes) in Hs. pose proof (proj1 (Forall_forall _ _) Hs) as Hsv. cbn in Hsv.
  unfold offers, key, healthy. split.
  - intros (n & Hn & (Hp & Ht & c & Hc & Hk) & ->). exists n. pose proof (node_type_range n). split_and!; try done.
    + lia.
    + by apply Hsv.
    + rewrite (Hsv n Hn) in Hk. unfold service_key in Hk. by apply app_inv_head, app_inv_head in Hk as ->.
  - intros (n & Hn & Hp & <- & <- & Hc & ->). exists n. split_and!; try done. by exists (curClusterName_ m).
Qed.

(** A lookup finds one of the hosts, if there is any. *)
Lemma lookup_found bi name type m : 0 <= type < End_Service ->
  length (reg_service_host_info_ m) = Z.to_nat End_Service ->
  let l := hosts (Z.to_nat type) (service_key name (curClusterName_ m)) (reg_service_host_info_ m) in
  match get_service_address bi name type m with Some h => h ∈ l | None => l = [] end.
Proof.
  intros Hty Hlen l. rewrite get_service_address_hosts by done. fold l. destruct l as [|h hs] eqn:E; [done|].
  rewrite <- E. destruct (nth_host bi l) as [x Hx]; [by rewrite E|]. rewrite Hx. by eapply list_elem_of_lookup_2.
Qed.

(** C11: the directory follows the coordination service.  After any sequence of
    polls of any watchers, failed ones included, whose answers describe nodes of
    the service that was asked for: the address of a service is that of a node
    that its last answer lists as passing all its checks, with the protocol asked
    for and in the current cluster; no address is found only if the answer lists
    no such node.  It is assumed that no other service has a passing node whose
    name and cluster, joined by a dash, are those of the service and the current
    cluster: their hosts would be kept under one key. *)
Theorem directory_follows_answers es addrs m name type nodes balance_index :
  documented_run es addrs name nodes m -> 0 <= type < End_Service ->
  match get_service_address balance_index name type m with
  | Some h => healthy nodes name (curClusterName_ m) type h
  | None => forall h, ~ healthy nodes name (curClusterName_ m) type h
  end.
Proof.
  intros Hrun Hty. destruct (hosts_healthy _ _ _ _ _ _ Hrun Hty) as [Hlen Hh].
  pose proof (lookup_found balance_index name type m Hty Hlen) as Hl.
  destruct (get_service_address _ _ _ _) as [h|]; [by apply Hh|].
  intros h Hc. apply Hh in Hc. rewrite Hl in Hc. by apply elem_of_nil in Hc.
Qed.

(** ** The directory is always well formed *)

Lemma update_types_well_formed (l : list host_map) : forall info last0 info' last1,
  update_types l info last0 = Some (info', last1) ->
  Forall (map_Forall (fun _ hs => hs <> [] /\ StronglySorted host_lt hs)) l -> 
  Forall (map_Forall (fun _ hs => hs <> [] /\ StronglySorted host_lt hs)) info ->
  Forall (map_Forall (fun _ hs => hs <> [] /\ StronglySorted host_lt hs)) info'.
Proof.
  induction l as [|fresh l IH]; intros [|m info] last0 info' last1 H Hl Hi; cbn [update_types] in H; simplify_eq; try done.
  apply bind_Some in H as ([info1 last2] & E & H). injection H as <- <-.
  apply Forall_cons in Hl as [Hf Hl]. apply Forall_cons in Hi as [Hm Hi]. constructor; [|by eapply IH].
  apply map_Forall_union_2; [done|]. intros k hs [Hk _]%map_lookup_filter_Some. by apply (Hm k).
Qed.

Lemma step_well_formed e m m' : watch_step e m = Some m' ->
  well_formed (reg_service_host_info_ m) -> well_formed (reg_service_host_info_ m').
Proof.
  intros H Hm. destruct e as [p|n p|ret rsp]; cbn [FibpServiceMgr.watch_step] in H.
  - unfold catalog_polled in H. destruct p; [by injection H as <-|done|]. destruct (start_watchers _ _ _ _). by injection H as <-.
  - destruct (sm_nodes m !! n) as [w|]; [|by injection H as <-].
    destruct p as [| |i body]; cbn [node_polled] in H; [by injection H as <-|done|].
    destruct (parseServiceInfoRsp body) as [[l|]|] eqn:Ep; [| |done]; cbn [mbind option_bind] in H; [|by injection H as <-].
    apply bind_Some in H as ([info last1] & Eu & H). injection H as <-. destruct Hm as [Hlen Hm]. split.
    + apply update_types_spec in Eu as (Hl & _). cbn. congruence.
    + eapply update_types_well_formed; [exact Eu| |done]. by apply parse_well_formed in Ep as [_ ?].
  - unfold cluster_polled in H. by repeat (case_match; simplify_eq; try done).
Qed.

Lemma run_well_formed es : forall m m', watch_all es m = Some m' ->
  well_formed (reg_service_host_info_ m) -> well_formed (reg_service_host_info_ m').
Proof.
  induction es as [|e es IH]; intros m m' H Hm; cbn in H; [by injection H as <-|].
  apply bind_Some in H as (m1 & E & H). eapply IH; [done|]. by eapply step_well_formed.
Qed.

Lemma lookups_rotate m name type balance_index : well_formed (reg_service_host_info_ m) -> 0 <= type < End_Service ->
  let l := hosts (Z.to_nat type) (service_key name (curClusterName_ m)) (reg_service_host_info_ m) in
  0 <= balance_index -> balance_index + Z.of_nat (length l) <= 2 ^ 64 ->
  (fun i => get_service_address (wrap 64 (balance_index + Z.of_nat i)) name type m) <$> seq 0 (length l)
  = Some <$> rotate (Z.to_nat balance_index) l.
Proof.
  intros Hwf Hty l Hbi Hmax. apply list_eq. intros i. rewrite !list_lookup_fmap.
  destruct (decide (i < length l)%nat) as [Hi|Hi].
  - rewrite lookup_seq_lt, lookup_rotate_r by done. cbn [fmap option_fmap option_map Nat.add].
    rewrite wrap_small by lia.
    rewrite get_service_address_hosts by (first [done|apply Hwf]). fold l.
    replace (rotate_nat_add (Z.to_nat balance_index) i (length l))
      with (Z.to_nat ((balance_index + Z.of_nat i) mod Z.of_nat (length l))) by (unfold rotate_nat_add; do 2 f_equal; lia).
    destruct (nth_host (balance_index + Z.of_nat i) l) as [h Hh]; [by intros E; rewrite E in Hi; cbn in Hi; lia|].
    rewrite Hh. by destruct l.
  - rewrite !lookup_ge_None_2; [done|rewrite length_rotate; lia|rewrite length_seq; lia].
Qed.

(** Consecutive lookups go round the nodes.  In every state of the
    directory the hosts of a service are distinct, and lookups with
    consecutive indexes, as the attempts of a call make them, give each of
    them in turn, beginning anywhere, as long as the 64-bit index does not
    wrap. *)
Theorem lookups_go_round es addrs m name type balance_index :
  watch_all es (new_service_mgr addrs) = Some m -> 0 <= type < End_Service ->
  let l := hosts (Z.to_nat type) (service_key name (curClusterName_ m)) (reg_service_host_info_ m) in
  0 <= balance_index -> balance_index + Z.of_nat (length l) <= 2 ^ 64 ->
  NoDup l
  /\ (fun i => get_service_address (wrap 64 (balance_index + Z.of_nat i)) name type m) <$> seq 0 (length l)
     = Some <$> rotate (Z.to_nat balance_index) l.
Proof.
  intros Hrun Hty l Hbi Hmax. pose proof (run_well_formed _ _ _ Hrun empty_well_formed) as Hwf.
  split; [apply sorted_hosts_nodup, hosts_sorted, Hwf|]. by apply lookups_rotate.
Qed.

(** ** An answer without an index *)

(** One bad answer ends the process.  If a successful answer to a poll of a
    watcher has no [X-Consul-Index] that [lexical_cast] accepts as a 32-bit
    number, the exception leaves the watcher's fiber, whose [trampoline] calls
    [std::terminate]. *)
Lemma bad_index_terminates lexical_cast http_rsp m name :
  lexical_cast (find_header (rs_headers http_rsp) index_header) = None -> is_Some (sm_nodes m !! name) ->
  watch_step (Node_polled name (long_polling_answer lexical_cast true http_rsp)) m = None
  /\ watch_step (Catalog_polled (long_polling_answer lexical_cast true http_rsp)) m = None.
Proof. intros E [w Hw]. unfold long_polling_answer. rewrite E. cbn. by rewrite Hw. Qed.

(** ** The name of the cluster *)

(** The cluster never changes.  An answer that names the local cluster, an
    object, makes [GetString] assert on a document that is no string; every
    other answer is ignored: in every run that is defined the directory serves
    the cluster [dev]. *)
Theorem cluster_never_changes es addrs m : watch_all es (new_service_mgr addrs) = Some m ->
  curClusterName_ m = dev_cluster_str
  /\ forall http_rsp members, parse_json (c_string (rs_body http_rsp)) = Some (J_object members) ->
       watch_step (Cluster_polled true http_rsp) m = None.
Proof.
  intros H. split; [|by intros rsp ms E; cbn; unfold cluster_polled; cbn; rewrite E].
  assert (forall e m m', watch_step e m = Some m' -> curClusterName_ m' = curClusterName_ m) as Hstep.
  { clear. intros e m m' H. destruct e as [p|n p|ret rsp]; cbn [FibpServiceMgr.watch_step] in H.
    - unfold catalog_polled in H. destruct p; [by injection H as <-|done|]. destruct (start_watchers _ _ _ _). by injection H as <-.
    - destruct (sm_nodes m !! n) as [w|]; [|by injection H as <-].
      destruct p as [| |i body]; cbn [node_polled] in H; [by injection H as <-|done|].
      apply bind_Some in H as ([l|] & _ & H); [|by injection H as <-].
      apply bind_Some in H as ([info last1] & _ & H). by injection H as <-.
    - unfold cluster_polled in H. by repeat (case_match; simplify_eq; try done). }
  assert (curClusterName_ (new_service_mgr addrs) = dev_cluster_str) as E0 by done.
  revert E0 H. generalize (new_service_mgr addrs). induction es as [|e es IH]; intros m0 E0 H; cbn in H; [congruence|].
  apply bind_Some in H as (m1 & E & H). eapply IH; [|exact H]. rewrite <- E0. by eapply Hstep.
Qed.

End Directory.

(** ** Witnesses *)

Definition service_doc (name address status : bytes) : json := J_object [
  (b "Node", J_object [(b "Node", J_string (b "n")); (b "Address", J_string address)]);
  (b "Service", J_object [(b "ID", J_string (b "id1")); (b "Service", J_string name);
                          (b "Tags", J_array [J_string (b "HTTP")]); (b "Port", J_int 80)]);
  (b "Checks", J_array [J_object [(b "CheckID", J_string (b "c")); (b "Status", J_string status)]])].
Definition service_node (name address status : bytes) : consul_node :=
  mk_consul_node address 80 name [b "HTTP"] [status].
Definition sample_node : bytes -> bytes -> consul_node := service_node (b "echo").

Definition three_hosts : list (bytes * bytes) :=
  [(b "10.0.0.3", b "passing"); (b "10.0.0.1", b "passing"); (b "10.0.0.9", b "critical"); (b "10.0.0.2", b "passing")].
Definition one_host : list (bytes * bytes) := [(b "10.0.0.1", b "passing"); (b "10.0.0.9", b "critical")].
Definition service_docs (name : bytes) (l : list (bytes * bytes)) : list json := map (fun x => service_doc name x.1 x.2) l.
Definition service_nodes (name : bytes) (l : list (bytes * bytes)) : list consul_node := map (fun x => service_node name x.1 x.2) l.
Definition sample_nodes : list (bytes * bytes) -> list consul_node := service_nodes (b "echo").

(** A JSON library that knows five texts. *)
Definition sample_json (text : bytes) : option json :=
  if bool_decide (text = b "services") then Some (J_object [(b "echo", J_array []); (b "your-service-name", J_array [])])
  else if bool_decide (text = b "three") then Some (J_array (service_docs (b "echo") three_hosts))
  else if bool_decide (text = b "one") then Some (J_array (service_docs (b "echo") one_host))
  else if bool_decide (text = b "other") then Some (J_array (service_docs (b "your-service-name") one_host))
  else if bool_decide (text = b "name") then Some (J_object [(b "Name", J_string (b "prod"))])
  else None.

Lemma sample_described name l : c_string name = name -> Forall (fun x => c_string x.1 = x.1 /\ c_string x.2 = x.2) l ->
  Forall2 describes (service_docs name l) (service_nodes name l).
Proof.
  intros Hname. induction 1 as [|[a s] l [Ha Hs] _ IH]; constructor; [|done]. cbn [fst snd] in *.
  eexists _, _, _, _. split_and!; [reflexivity| |reflexivity| |reflexivity| |reflexivity|].
  - vm_compute. repeat constructor; set_solver.
  - transitivity (GetString (J_string a)); [reflexivity|]. cbn [GetString]. by rewrite Ha.
  - split_and!; [vm_compute; repeat constructor; set_solver|reflexivity|by eexists|].
    transitivity (GetString (J_string name)); [reflexivity|]. cbn [GetString]. by rewrite Hname.
  - repeat constructor. eexists. split_and!; [reflexivity|vm_compute; repeat constructor; set_solver|].
    transitivity (GetString (J_string s)); [reflexivity|]. cbn [GetString]. by rewrite Hs.
Qed.

Lemma sample_answer name text l : sample_json (c_string text) = Some (J_array (service_docs name l)) -> c_string name = name ->
  Forall (fun x => c_string x.1 = x.1 /\ c_string x.2 = x.2) l -> describes_nodes sample_json text (service_nodes name l).
Proof. intros E Hname Hl. exists (service_docs name l). split; [done|]. by apply sample_described. Qed.

Lemma sample_documented name text l : describes_nodes sample_json text (service_nodes name l) -> documented sample_json (name, text).
Proof. intros H. exists (service_nodes name l). split; [done|]. by apply Forall_map, Forall_true. Qed.

(** Two servers; the service [your-service-name] is polled too. *)
Definition sample_servers : list host_pair := [(b "10.0.0.250", b "8500"); (b "10.0.0.251", b "8500")].
Definition sample_polls (text : bytes) : list watch_event :=
  [Catalog_polled Poll_failed; Catalog_polled (Polled 7 (b "services"));
   Node_polled (b "echo") (Polled 8 (b "one")); Node_polled (b "echo") Poll_failed;
   Node_polled (b "your-service-name") (Polled 8 (b "other"));
   Node_polled (b "echo") (Polled 9 text)].
Definition sample_mgr (text : bytes) : service_mgr :=
  default (new_service_mgr []) (@watch_all reference_strings sample_json (sample_polls text) (new_service_mgr sample_servers)).

Lemma sample_run text l :
  @watch_all reference_strings sample_json (sample_polls text) (new_service_mgr sample_servers) = Some (sample_mgr text) ->
  @answers reference_strings sample_json (sample_polls text) (new_service_mgr sample_servers)
    = [(b "echo", b "one"); (b "your-service-name", b "other"); (b "echo", text)] ->
  describes_nodes sample_json text (sample_nodes l) ->
  @documented_run reference_strings sample_json (sample_polls text) sample_servers (b "echo") (sample_nodes l) (sample_mgr text).
Proof.
  intros Hrun Ha Hl. unfold documented_run. rewrite Ha.
  assert (describes_nodes sample_json (b "other") (service_nodes (b "your-service-name") one_host)) as Ho
    by (apply sample_answer; [reflexivity|reflexivity|by repeat constructor]).
  assert (describes_nodes sample_json (b "one") (sample_nodes one_host)) as H1 by (apply sample_answer; [reflexivity|reflexivity|by repeat constructor]).
  split_and!; [done| | |by exists text].
  - repeat constructor; by eapply sample_documented.
  - constructor; [by intros [? _]|]. constructor; [|constructor; [by intros [? _]|constructor]].
    intros [_ (nodes & n & c & Hn & Hin & _ & _ & Hk)]. cbn [fst snd] in *. rewrite (describes_nodes_fun _ _ _ _ Hn Ho) in Hin.
    assert (cn_service n = b "your-service-name") as Hs.
    { apply list_elem_of_fmap in Hin as (x & -> & _). done. }
    rewrite Hs in Hk. discriminate Hk.
Qed.

Lemma three_run : @documented_run reference_strings sample_json (sample_polls (b "three")) sample_servers (b "echo")
  (sample_nodes three_hosts) (sample_mgr (b "three")).
Proof. apply sample_run; [vm_compute; reflexivity..|]. apply sample_answer; [reflexivity|reflexivity|by repeat constructor]. Qed.

Lemma one_run : @documented_run reference_strings sample_json (sample_polls (b "one")) sample_servers (b "echo")
  (sample_nodes one_host) (sample_mgr (b "one")).
Proof. apply sample_run; [vm_compute; reflexivity..|]. apply sample_answer; [reflexivity|reflexivity|by repeat constructor]. Qed.

Lemma directory_follows_answers_witness :
  get_service_address 4 (b "echo") HTTP_Service (sample_mgr (b "three")) = Some (b "10.0.0.2", b "80")
  /\ healthy (sample_nodes three_hosts) (b "echo") (curClusterName_ (sample_mgr (b "three"))) HTTP_Service (b "10.0.0.2", b "80").
Proof.
  split; [vm_compute; reflexivity|].
  apply (@directory_follows_answers reference_strings sample_json _ _ _ (b "echo") HTTP_Service _ 4 three_run).
  vm_compute. by split.
Defined.

Lemma lookups_go_round_witness :
  let l := hosts 0 (service_key (b "echo") (b "dev")) (reg_service_host_info_ (sample_mgr (b "three"))) in
  length l = 3%nat /\ NoDup l
  /\ (fun i => get_service_address (wrap 64 (5 + Z.of_nat i)) (b "echo") HTTP_Service (sample_mgr (b "three"))) <$> seq 0 (length l)
     = Some <$> rotate 5 l.
Proof.
  split; [vm_compute; reflexivity|].
  apply (@lookups_go_round reference_strings sample_json (sample_polls (b "three")) sample_servers (sample_mgr (b "three"))
           (b "echo") HTTP_Service 5).
  - apply three_run.
  - vm_compute. by split.
  - lia.
  - vm_compute. discriminate.
Defined.

Lemma cluster_never_changes_witness :
  curClusterName_ (sample_mgr (b "three")) = b "dev"
  /\ @watch_step reference_strings sample_json
       (Cluster_polled true (mk_response 1 1 200 [] [] true (b "name"))) (sample_mgr (b "three")) = None.
Proof.
  destruct (@cluster_never_changes reference_strings sample_json (sample_polls (b "three")) sample_servers
              (sample_mgr (b "three"))) as [H1 H2]; [apply three_run|].
  split; [exact H1|]. eapply H2. vm_compute. reflexivity.
Defined.
