(* ===== verification/FibpPortForward.v ===== *)
(** * Port forwarding

    An agent that cannot call the proxy asks the coordination service for a
    forwarded port: [watchPortForwardChangeFunc] of [FibpServiceMgr] opens a
    port for each service that some agent uses and closes it when none does;
    [FibpPortForwardMgr] keeps the open ports; [PortForwardConnection] copies
    the bytes between a client and a host of the service. *)

From stdpp Require Import options sorting.
From S2P Require Import Prelude Boost RequestParser FibpServiceInfo FibpServiceMgr.

(** ** [FibpPortForwardMgr] *)

Record ForwardInfoT := mk_forward_info {
  fi_service_name : bytes;
  fi_service_type : Z;
  fi_port : Z
}.

(** The server and the thread of a port are the port's presence in
    [forward_server_list_]. *)
Record port_forward_mgr := mk_port_forward_mgr {
  forward_service_list_ : gmap Z ForwardInfoT;
  forward_server_list_ : gset Z
}.

Definition new_port_forward_mgr : port_forward_mgr := mk_port_forward_mgr ∅ ∅.

Definition getForwardService (forward_port : Z) (m : port_forward_mgr) : option ForwardInfoT :=
  forward_service_list_ m !! forward_port.

(** In the order of the ports, which is that of the map's iterator. *)
Definition getAllForwardServices (m : port_forward_mgr) : list ForwardInfoT :=
  omap (fun p => getForwardService p m) (merge_sort Z.le (elements (dom (forward_service_list_ m)))).

Definition updateForwardService (forward_port : Z) (service_name : bytes) (type : Z) (m : port_forward_mgr)
  : port_forward_mgr :=
  mk_port_forward_mgr (<[forward_port := mk_forward_info service_name type forward_port]> (forward_service_list_ m))
    (forward_server_list_ m).

(** [port] is what the operating system has bound. *)
Definition open_port (port : Z) (m : port_forward_mgr) : port_forward_mgr :=
  mk_port_forward_mgr (forward_service_list_ m) ({[port]} ∪ forward_server_list_ m).

(** [FibpForwardManager::startPortForward] *)
Definition startPortForward (port : Z) (service_name : bytes) (type : Z) (m : port_forward_mgr)
  : port_forward_mgr :=
  updateForwardService port service_name type (open_port port m).

Definition stopPortForward (port : Z) (m : port_forward_mgr) : port_forward_mgr :=
  if bool_decide (port ∈ forward_server_list_ m)
  then mk_port_forward_mgr (delete port (forward_service_list_ m)) (forward_server_list_ m ∖ {[port]})
  else m.

Definition stopAll (m : port_forward_mgr) : port_forward_mgr := mk_port_forward_mgr ∅ ∅.

(** The handler of [run_server]. *)
Definition server_failed (port : Z) (m : port_forward_mgr) : port_forward_mgr :=
  mk_port_forward_mgr (forward_service_list_ m) (forward_server_list_ m ∖ {[port]}).

(** ** [watchPortForwardChangeFunc] *)

Definition AGENT_ID_LEN : nat := 10.

Record ServiceInfo := mk_ServiceInfo {
  svc_name : bytes;
  svc_type : Z
}.

Definition uniquestr (name : bytes) (type : Z) : bytes := name ++ dec_signed type.

(** The text of a key: a name and a type. *)
Definition parse_forward_info {boost : BoostStrings} (info : bytes) : option ServiceInfo :=
  match split_compress (is_char ","%char) info with
  | name :: type :: _ =>
      let type := to_lower type in
      Some (mk_ServiceInfo name
        (if bool_decide (type = http_service_str) then HTTP_Service
         else if bool_decide (type = rpc_service_str) then RPC_Service
         else if bool_decide (type = raw_service_str) then Raw_Service
         else Custom_Service))
  | _ => None
  end.

(** The locals of the function, with the manager and the agents' ports. *)
Record port_watcher := mk_port_watcher {
  pw_indexid : Z;
  pw_balance_index : Z;
  pw_client : host_pair;
  last_ports : gmap Z (gset bytes);
  service_port_map : gmap bytes Z;
  previous_keys : gmap bytes ServiceInfo;
  ports_used_by_agent_ : gmap bytes (gset Z);
  pf_mgr : port_forward_mgr
}.

Definition new_port_watcher (addrs : list host_pair) : port_watcher :=
  mk_port_watcher 0 0 (first_server addrs) ∅ ∅ ∅ ∅ new_port_forward_mgr.

Section Iteration.
Context {boost : BoostStrings} (parse_json : bytes -> option json).

(** What the iteration gets from outside for the key at a position of the
    list: the answer to its poll, and the port it may be given. *)
Context (info_poll : nat -> poll) (bound_port : nat -> Z).

(** What the loop over the keys changes. *)
Record key_loop := mk_key_loop {
  kl_last_ports : gmap Z (gset bytes);
  kl_port_map : gmap bytes Z;
  kl_new_keys : gmap bytes ServiceInfo;
  kl_mgr : port_forward_mgr
}.

(** [last_ports[port].insert(agentid)] *)
Definition use_port (port : Z) (agentid : bytes) (ports : gmap Z (gset bytes)) : gmap Z (gset bytes) :=
  <[port := {[agentid]} ∪ default ∅ (ports !! port)]> ports.

(** What is known about a key: from the last iteration, or from its poll;
    [None] when the poll throws. *)
Definition key_info (i : nat) (forwardkey : bytes) (previous : gmap bytes ServiceInfo) : option (option ServiceInfo) :=
  match previous !! forwardkey with
  | Some si => Some (Some si)
  | None =>
      match info_poll i with
      | Poll_throws => None
      | Poll_failed => Some None
      | Polled _ info => Some (parse_forward_info info)
      end
  end.

Definition use_key (i : nat) (forwardkey : bytes) (si : ServiceInfo) (s : key_loop) : key_loop :=
  let agentid := take AGENT_ID_LEN forwardkey in
  let service_uniquestr := uniquestr (svc_name si) (svc_type si) in
  let new_keys := <[forwardkey := si]> (kl_new_keys s) in
  match kl_port_map s !! service_uniquestr with
  | Some port => mk_key_loop (use_port port agentid (kl_last_ports s)) (kl_port_map s) new_keys (kl_mgr s)
  | None =>
      let createdPort := bound_port i in
      mk_key_loop (use_port createdPort agentid (kl_last_ports s)) (<[service_uniquestr := createdPort]> (kl_port_map s))
        new_keys (startPortForward createdPort (svc_name si) (svc_type si) (kl_mgr s))
  end.

(** [None]: an exception has left the fiber, which ends the process. *)
Fixpoint key_loop_from (i : nat) (keys : list bytes) (previous : gmap bytes ServiceInfo) (s : key_loop)
  : option key_loop :=
  match keys with
  | [] => Some s
  | forwardkey :: keys =>
      if (length forwardkey <=? AGENT_ID_LEN)%nat then key_loop_from (S i) keys previous s
      else
        match key_info i forwardkey previous with
        | None => None
        | Some None => key_loop_from (S i) keys previous s
        | Some (Some si) => key_loop_from (S i) keys previous (use_key i forwardkey si s)
        end
  end.

(** The first loop that closes: ports that no agent uses, one after the other. *)
Definition close_port (port : Z) (x : gmap bytes Z * port_forward_mgr) : gmap bytes Z * port_forward_mgr :=
  let '(port_map, m) := x in
  let port_map := match getForwardService port m with
                  | Some info => delete (uniquestr (fi_service_name info) (fi_service_type info)) port_map
                  | None => port_map
                  end in
  (port_map, stopPortForward port m).

Definition unused (ports : gmap Z (gset bytes)) : list Z :=
  filter (fun p => ports !! p = Some ∅) (elements (dom ports)).

(** The agents' ports after [last_ports]: a port is only ever added. *)
Definition record_port (port : Z) (agents : gset bytes) (used : gmap bytes (gset Z)) : gmap bytes (gset Z) :=
  set_fold (fun agent used => <[agent := {[port]} ∪ default ∅ (used !! agent)]> used) used agents.
Definition record_ports (ports : gmap Z (gset bytes)) (used : gmap bytes (gset Z)) : gmap bytes (gset Z) :=
  map_fold record_port used ports.

(** What follows the loop over the keys. *)
Definition finish_iteration (s : key_loop) (w : port_watcher) : port_watcher :=
  let removed_ports := unused (kl_last_ports s) in
  let '(port_map, m) := foldl (fun x p => close_port p x) (kl_port_map s, kl_mgr s) removed_ports in
  let ports := filter (fun x => x.1 ∉ removed_ports) (kl_last_ports s) in
  mk_port_watcher (pw_indexid w) (pw_balance_index w) (pw_client w) ports port_map (kl_new_keys s)
    (record_ports ports (ports_used_by_agent_ w)) m.

(** One iteration; [None] is undefined behaviour, or the end of the process by an
    exception that leaves the fiber. *)
Definition ports_polled (addrs : list host_pair) (p : poll) (w : port_watcher) : option port_watcher :=
  match p with
  | Poll_throws => None
  | Poll_failed =>
      let balance_index := w32 (pw_balance_index w + 1) in
      Some (mk_port_watcher (pw_indexid w) balance_index (next_server addrs balance_index) (last_ports w)
        (service_port_map w) (previous_keys w) (ports_used_by_agent_ w) (pf_mgr w))
  | Polled indexid json_rsp =>
      keys ← parseForwardPortListRsp parse_json json_rsp;
      let w := mk_port_watcher indexid (pw_balance_index w) (pw_client w) (last_ports w)
                 (service_port_map w) (previous_keys w) (ports_used_by_agent_ w) (pf_mgr w) in
      match keys with
      | None => Some w
      | Some [] =>
          Some (mk_port_watcher indexid (pw_balance_index w) (pw_client w) (last_ports w)
            (service_port_map w) ∅ (ports_used_by_agent_ w) (pf_mgr w))
      | Some keys =>
          s ← key_loop_from 0 keys (previous_keys w)
                (mk_key_loop ((fun _ => ∅) <$> last_ports w) (service_port_map w) ∅ (pf_mgr w));
          Some (finish_iteration s w)
      end
  end.

End Iteration.

(** ** What an agent is told *)

Definition get_related_forward_ports (agentid : bytes) (w : port_watcher) : list Z :=
  merge_sort Z.le (elements (default ∅ (ports_used_by_agent_ w !! agentid))).

(** [FibpForwardManager::getAllPortForwardServices] *)
Definition getAllPortForwardServices (agentid : bytes) (w : port_watcher) : list ForwardInfoT :=
  omap (fun p => getForwardService p (pf_mgr w)) (get_related_forward_ports agentid w).

(** ** Forwarding a connection *)

Section Connecting.
(** [lookup]: [get_service_address]; [connect]: whether the host takes the
    connection. *)
Context (lookup : Z -> bytes -> Z -> option host_pair) (connect : host_pair -> bool).

Inductive forward_result :=
| Not_supported
| Connected_to (h : host_pair)
| Not_connected.

(** The loop, [while (--retry > 0)]: [n] rounds are left. *)
Fixpoint forward_rounds (n : nat) (balance_index : Z) (finfo : ForwardInfoT) : forward_result :=
  match n with
  | O => Not_connected
  | S n =>
      let balance_index := wrap 64 (balance_index + 1) in
      let try_ (h : host_pair) balance_index :=
        if connect h then Connected_to h else forward_rounds n balance_index finfo in
      match lookup balance_index (fi_service_name finfo) (fi_service_type finfo) with
      | Some h => try_ h balance_index
      | None =>
          if fi_service_type finfo =? Custom_Service then
            let balance_index := wrap 64 (balance_index + 1) in
            match lookup balance_index (fi_service_name finfo) HTTP_Service with
            | Some h => try_ h balance_index
            | None => Not_supported
            end
          else Not_supported
      end
  end.

Definition create_forward_connection (forward_port balance_index : Z) (m : port_forward_mgr) : forward_result :=
  match getForwardService forward_port m with
  | None => Not_supported
  | Some finfo => forward_rounds 2 balance_index finfo
  end.

End Connecting.

(** The two copying loops: [PortForwardConnection::start] from the client to
    the host, [handle_forward_rsp] back.  [reads] are the reads that succeed
    before one fails, [writes] says which writes succeed; the result is what
    the successful writes have written, and whether the loop ended by a failed write. *)
Fixpoint copy_loop (reads : list bytes) (writes : list bool) : bytes * bool :=
  match reads with
  | [] => ([], false)
  | buf :: reads =>
      match writes with
      | true :: writes => let '(out, failed) := copy_loop reads writes in (buf ++ out, failed)
      | _ => ([], true)
      end
  end.
