(* ===== verification/FibpPortForwardSpec.v ===== *)
(** * What port forwarding promises

    Open ports and services correspond one to one; after an iteration the open
    ports are those of the services that some agent's key names; and what an
    agent is told may be out of date. *)

From stdpp Require Import options sorting.
From S2P Require Import Prelude Boost RequestParser FibpServiceInfo FibpServiceInfoSpec FibpServiceMgr FibpPortForward.

Definition known_type (t : Z) : Prop := 0 <= t < End_Service.

Lemma uniquestr_inj n1 t1 n2 t2 : known_type t1 -> known_type t2 ->
  uniquestr n1 t1 = uniquestr n2 t2 -> n1 = n2 /\ t1 = t2.
Proof.
  unfold known_type, End_Service, uniquestr. intros H1 H2 H.
  assert (exists c1, dec_signed t1 = [c1]) as [c1 E1]
    by (assert (t1 = 0 \/ t1 = 1 \/ t1 = 2 \/ t1 = 3) as [->|[->|[->| ->]]] by lia; by eexists).
  assert (exists c2, dec_signed t2 = [c2]) as [c2 E2]
    by (assert (t2 = 0 \/ t2 = 1 \/ t2 = 2 \/ t2 = 3) as [->|[->|[->| ->]]] by lia; by eexists).
  rewrite E1, E2 in H. apply app_inj_tail in H as [-> ->]. split; [done|].
  assert (t1 = 0 \/ t1 = 1 \/ t1 = 2 \/ t1 = 3) as [->|[->|[->| ->]]] by lia;
    assert (t2 = 0 \/ t2 = 1 \/ t2 = 2 \/ t2 = 3) as [->|[->|[->| ->]]] by lia; done || (rewrite <- E2 in E1; done).
Qed.

Definition info_string (info : ForwardInfoT) : bytes := uniquestr (fi_service_name info) (fi_service_type info).
Definition si_string (si : ServiceInfo) : bytes := uniquestr (svc_name si) (svc_type si).

(** ** The correspondence of ports and services *)

Record linked (ports : gmap Z (gset bytes)) (port_map : gmap bytes Z) (m : port_forward_mgr) : Prop := {
  l_servers : dom (forward_service_list_ m) = forward_server_list_ m;
  l_ports : dom ports = forward_server_list_ m;
  l_info : forall p info, forward_service_list_ m !! p = Some info -> fi_port info = p /\ known_type (fi_service_type info);
  l_map : forall u p, port_map !! u = Some p <->
            exists info, forward_service_list_ m !! p = Some info /\ info_string info = u
}.

Lemma linked_new : linked ∅ ∅ new_port_forward_mgr.
Proof.
  constructor; cbn; [set_solver..| |].
  - intros p info H. by rewrite lookup_empty in H.
  - intros u p. rewrite lookup_empty. split; [done|]. intros (info & H & _). by rewrite lookup_empty in H.
Qed.

Lemma linked_close p ports port_map m port_map' m' : linked ports port_map m ->
  p ∈ forward_server_list_ m -> close_port p (port_map, m) = (port_map', m') -> linked (delete p ports) port_map' m'.
Proof.
  intros [H1 H2 H3 H4] Hp H. unfold close_port, getForwardService, stopPortForward in H.
  rewrite bool_decide_eq_true_2 in H by done.
  destruct (forward_service_list_ m !! p) as [info|] eqn:E;
    [|apply not_elem_of_dom in E; set_solver].
  injection H as <- <-. constructor; cbn [forward_service_list_ forward_server_list_].
  - rewrite dom_delete_L. set_solver.
  - rewrite dom_delete_L. set_solver.
  - intros q info' [_ Hq]%lookup_delete_Some. by apply H3.
  - intros u q. rewrite lookup_delete_Some, H4. split.
    + intros (Hu & info' & Hq & <-). exists info'. split; [|done]. apply lookup_delete_Some. split; [|done].
      intros <-. apply Hu. by simplify_eq.
    + intros (info' & [Hne Hq]%lookup_delete_Some & <-). split; [|by exists info'].
      intros Hu. apply Hne. assert (port_map !! info_string info = Some p) as Hs by (apply H4; by exists info).
      assert (port_map !! info_string info' = Some q) as Hs' by (apply H4; by exists info').
      unfold info_string in *. rewrite Hu in Hs. congruence.
Qed.

Lemma linked_closes l : forall ports port_map m port_map' m', linked ports port_map m ->
  NoDup l -> (forall p, p ∈ l -> p ∈ dom ports) ->
  foldl (fun x p => close_port p x) (port_map, m) l = (port_map', m') ->
  linked (filter (fun x => x.1 ∉ l) ports) port_map' m'.
Proof.
  induction l as [|p l IH]; intros ports port_map m port_map' m' Hl Hnd Hin H; cbn [foldl] in H.
  { injection H as <- <-. rewrite map_filter_id; [done|]. intros i x _. by apply not_elem_of_nil. }
  apply NoDup_cons in Hnd as [Hp Hnd]. destruct (close_port p (port_map, m)) as [pm1 m1] eqn:E.
  assert (p ∈ forward_server_list_ m) as Hpm by (rewrite <- (l_ports _ _ _ Hl); apply Hin; left).
  pose proof (linked_close _ _ _ _ _ _ Hl Hpm E) as Hl1.
  apply (IH (delete p ports)) in H; [|done..|].
  - enough (filter (fun x => x.1 ∉ p :: l) ports = filter (fun x => x.1 ∉ l) (delete p ports)) as -> by done.
    apply map_eq. intros q. apply option_eq. intros s. rewrite !map_lookup_filter_Some, lookup_delete_Some. set_solver.
  - intros q Hq. rewrite dom_delete_L. set_solver.
Qed.

Lemma closes_sub l : forall port_map m port_map' m',
  foldl (fun x p => close_port p x) (port_map, m) l = (port_map', m') ->
  forward_service_list_ m' ⊆ forward_service_list_ m.
Proof.
  induction l as [|p l IH]; intros port_map m port_map' m' H; cbn [foldl] in H; [by injection H as _ <-|].
  destruct (close_port p (port_map, m)) as [pm1 m1] eqn:E. apply IH in H. etrans; [exact H|].
  unfold close_port, stopPortForward in E. injection E as _ <-. case_bool_decide; [apply delete_subseteq|done].
Qed.

(** ** The loop over the keys *)

Section Loop.
Context (bound_port : nat -> Z).

Record loop_ok (s : key_loop) : Prop := {
  lo_linked : linked (kl_last_ports s) (kl_port_map s) (kl_mgr s);
  lo_types : map_Forall (fun _ si => known_type (svc_type si)) (kl_new_keys s);
  lo_ports : forall key si, kl_new_keys s !! key = Some si -> is_Some (kl_port_map s !! si_string si);
  lo_agents : forall p agent, agent ∈ default ∅ (kl_last_ports s !! p) <->
    exists key si, kl_new_keys s !! key = Some si /\ take AGENT_ID_LEN key = agent /\ kl_port_map s !! si_string si = Some p
}.

(** [{[agentid]} ∪ ...] in the set of a port. *)
Lemma use_port_spec port agentid ports p agent :
  agent ∈ default ∅ (use_port port agentid ports !! p)
  <-> (p = port /\ agent = agentid) \/ agent ∈ default ∅ (ports !! p).
Proof.
  unfold use_port. destruct (decide (port = p)) as [<-|].
  - rewrite lookup_insert_eq. cbn [from_option id]. set_solver.
  - rewrite lookup_insert_ne by done. naive_solver.
Qed.

(** A port that is opened for a service that has none. *)
Lemma linked_open port agentid si ports port_map m : linked ports port_map m -> known_type (svc_type si) ->
  port_map !! si_string si = None -> (port ∉ forward_server_list_ m) ->
  linked (use_port port agentid ports) (<[si_string si := port]> port_map) (startPortForward port (svc_name si) (svc_type si) m).
Proof.
  intros [H1 H2 H3 H4] Hty E Hfresh. assert (forward_service_list_ m !! port = None) as Hnone by (apply not_elem_of_dom; by rewrite H1).
  constructor; cbn [startPortForward updateForwardService open_port forward_service_list_ forward_server_list_].
  - rewrite dom_insert_L. set_solver.
  - unfold use_port. rewrite dom_insert_L. set_solver.
  - intros p info [[<- <-]|[_ H]]%lookup_insert_Some; [done|by apply H3].
  - intros u p. destruct (decide (si_string si = u)) as [<-|Hu].
    + rewrite lookup_insert_eq. split.
      * intros [= <-]. eexists. by rewrite lookup_insert_eq.
      * intros (info & [[<- <-]|[_ H]]%lookup_insert_Some & Hs); [done|].
        assert (port_map !! si_string si = Some p) by (apply H4; by exists info). congruence.
    + rewrite lookup_insert_ne, H4 by done. split.
      * intros (info & H & <-). exists info. rewrite lookup_insert_ne by (intros <-; congruence). done.
      * intros (info & [[<- <-]|[_ H]]%lookup_insert_Some & Hs); [done|by exists info].
Qed.

Lemma use_key_ok i key si s : loop_ok s -> known_type (svc_type si) -> kl_new_keys s !! key = None ->
  bound_port i ∉ forward_server_list_ (kl_mgr s) ->
  loop_ok (use_key bound_port i key si s)
  /\ kl_new_keys (use_key bound_port i key si s) = <[key := si]> (kl_new_keys s)
  /\ forward_server_list_ (kl_mgr (use_key bound_port i key si s)) ⊆ {[bound_port i]} ∪ forward_server_list_ (kl_mgr s).
Proof.
  intros [Hl Ht Hp Ha] Hty Hk Hfresh. unfold use_key. fold (si_string si).
  destruct (kl_port_map s !! si_string si) as [port|] eqn:E; cbn [kl_new_keys kl_mgr].
  - split_and!; [|done|set_solver]. constructor; cbn [kl_last_ports kl_port_map kl_new_keys kl_mgr].
    + destruct Hl as [H1 H2 H3 H4]. constructor; [done| |done..]. unfold use_port. rewrite dom_insert_L, H2.
      apply H4 in E as (info & E & _). apply elem_of_dom_2 in E. set_solver.
    + by apply map_Forall_insert_2.
    + intros k si' [[<- <-]|[_ H]]%lookup_insert_Some; [by rewrite E|by eapply Hp].
    + intros p agent. rewrite use_port_spec, Ha. split.
      * intros [[-> ->]|(k & si' & H & Hagent & Hm)].
        -- exists key, si. by rewrite lookup_insert_eq.
        -- exists k, si'. rewrite lookup_insert_ne by (intros ->; congruence). done.
      * intros (k & si' & [[<- <-]|[_ H]]%lookup_insert_Some & Hagent & Hm); [left; by simplify_eq|right; naive_solver].
  - set (port := bound_port i) in *.
    assert (kl_last_ports s !! port = None) as Hnone' by (apply not_elem_of_dom; by rewrite (l_ports _ _ _ Hl)).
    assert (forall u, kl_port_map s !! u <> Some port) as Hnot.
    { intros u (info & Hi%elem_of_dom_2 & _)%(l_map _ _ _ Hl). by rewrite (l_servers _ _ _ Hl) in Hi. }
    split_and!; [|done|cbn; set_solver]. constructor; cbn [kl_last_ports kl_port_map kl_new_keys kl_mgr].
    + by apply linked_open.
    + by apply map_Forall_insert_2.
    + intros k si' [[<- <-]|[_ H]]%lookup_insert_Some; [by rewrite lookup_insert_eq|].
      destruct (decide (si_string si = si_string si')) as [<-|]; [by rewrite lookup_insert_eq|].
      rewrite lookup_insert_ne by done. by eapply Hp.
    + intros p agent. rewrite use_port_spec, Ha. split.
      * intros [[-> ->]|(k & si' & H & Hagent & Hm)].
        -- exists key, si. by rewrite !lookup_insert_eq.
        -- exists k, si'. rewrite !lookup_insert_ne by (first [intros ->; congruence|intros E'; rewrite E' in E; congruence]). done.
      * intros (k & si' & [[<- <-]|[Hne H]]%lookup_insert_Some & Hagent & Hm).
        -- rewrite lookup_insert_eq in Hm. left. by simplify_eq.
        -- destruct (decide (si_string si = si_string si')) as [E'|].
           ++ apply Hp in H. rewrite <- E', E in H. by destruct H.
           ++ rewrite lookup_insert_ne in Hm by done. right. naive_solver.
Qed.

Context {boost : BoostStrings} (info_poll : nat -> poll).

Lemma key_info_type i key previous si : map_Forall (fun _ si => known_type (svc_type si)) previous ->
  key_info info_poll i key previous = Some (Some si) -> known_type (svc_type si).
Proof.
  intros Hp H. unfold key_info in H. destruct (previous !! key) as [si'|] eqn:E.
  - injection H as <-. by apply (Hp key).
  - destruct (info_poll i); [done..|]. injection H as H. unfold parse_forward_info in H.
    destruct (split_compress _ _) as [|name [|type l]]; [done..|]. injection H as <-. cbn. by repeat case_bool_decide.
Qed.

(** What the loop learns: the keys it keeps, with their services. *)
Definition resolved (i : nat) (keys : list bytes) (previous : gmap bytes ServiceInfo) (key : bytes) (si : ServiceInfo) : Prop :=
  exists j, keys !! j = Some key /\ (AGENT_ID_LEN < length key)%nat
  /\ key_info info_poll (i + j) key previous = Some (Some si).

Lemma resolved_cons i key keys previous k si : resolved i (key :: keys) previous k si <->
  (k = key /\ (AGENT_ID_LEN < length key)%nat /\ key_info info_poll i key previous = Some (Some si))
  \/ resolved (S i) keys previous k si.
Proof.
  unfold resolved. split.
  - intros ([|j] & Hj & Hlen & Hk); cbn in Hj.
    + injection Hj as ->. rewrite Nat.add_0_r in Hk. by left.
    + right. exists j. by replace (S i + j)%nat with (i + S j)%nat by lia.
  - intros [(-> & Hlen & Hk)|(j & Hj & Hlen & Hk)].
    + exists 0%nat. by rewrite Nat.add_0_r.
    + exists (S j). by replace (i + S j)%nat with (S i + j)%nat by lia.
Qed.

Lemma resolved_nil i previous k si : ~ resolved i [] previous k si.
Proof. by intros (j & Hj & _). Qed.

Lemma key_loop_ok previous keys : map_Forall (fun _ si => known_type (svc_type si)) previous ->
  Inj (=) (=) bound_port -> NoDup keys -> forall i s s',
  loop_ok s -> (forall k, k ∈ keys -> kl_new_keys s !! k = None) ->
  (forall j, (i <= j)%nat -> bound_port j ∉ forward_server_list_ (kl_mgr s)) ->
  key_loop_from info_poll bound_port i keys previous s = Some s' ->
  loop_ok s' /\ forall k si, kl_new_keys s' !! k = Some si <->
    kl_new_keys s !! k = Some si \/ resolved i keys previous k si.
Proof.
  intros Hprev Hinj. induction keys as [|key keys IH]; intros Hnd i s s' Hs Hnew Hfresh H; cbn [key_loop_from] in H.
  { injection H as <-. split; [done|]. intros k si. pose proof (resolved_nil i previous k si). naive_solver. }
  apply NoDup_cons in Hnd as [Hkey Hnd].
  assert (forall k, k ∈ keys -> kl_new_keys s !! k = None) as Hnew' by (intros k Hk; apply Hnew; by right).
  assert (forall j, (S i <= j)%nat -> bound_port j ∉ forward_server_list_ (kl_mgr s)) as Hfresh' by (intros j Hj; apply Hfresh; lia).
  destruct (length key <=? AGENT_ID_LEN)%nat eqn:El.
  - apply IH in H as [H1 H2]; [|done..]. split; [done|]. intros k si. rewrite H2, resolved_cons.
    apply Nat.leb_le in El. naive_solver lia.
  - apply Nat.leb_gt in El. destruct (key_info info_poll i key previous) as [[si|]|] eqn:Ek; [| |done].
    + pose proof (key_info_type _ _ _ _ Hprev Ek) as Hty.
      destruct (use_key_ok i key si s Hs Hty) as (Hs1 & Hnk & Hsrv); [apply Hnew; left|by apply Hfresh|].
      apply IH in H as [H1 H2]; [|done|done| |].
      * split; [done|]. intros k si'. rewrite H2, resolved_cons, Hnk. destruct (decide (key = k)) as [<-|].
        -- rewrite lookup_insert_eq, (Hnew key) by left. naive_solver.
        -- rewrite lookup_insert_ne by done. naive_solver.
      * intros k Hk. rewrite Hnk, lookup_insert_ne by (by intros ->). by apply Hnew'.
      * intros j Hj Hin. apply Hsrv in Hin. apply elem_of_union in Hin as [Heq%elem_of_singleton|Hin]; [|by apply (Hfresh' j)].
        apply Hinj in Heq. lia.
    + apply IH in H as [H1 H2]; [|done..]. split; [done|]. intros k si'. rewrite H2, resolved_cons. naive_solver.
Qed.

End Loop.

(** ** Iterations *)

Section Iterations.
Context {boost : BoostStrings} (parse_json : bytes -> option json) (addrs : list host_pair).

(** The operating system gives ports that are not open, and does not give one
    twice. *)
Definition fresh_ports (bound_port : nat -> Z) (w : port_watcher) : Prop :=
  Inj (=) (=) bound_port /\ forall i, bound_port i ∉ forward_server_list_ (pf_mgr w).

(** The answer lists each key once. *)
Definition distinct_keys (p : poll) : Prop :=
  forall indexid json_rsp keys, p = Polled indexid json_rsp ->
    parseForwardPortListRsp parse_json json_rsp = Some (Some keys) -> NoDup keys.

Inductive port_runs : port_watcher -> Prop :=
| ports_start : port_runs (new_port_watcher addrs)
| ports_step w info_poll bound_port p w' :
    port_runs w -> fresh_ports bound_port w -> distinct_keys p ->
    ports_polled parse_json info_poll bound_port addrs p w = Some w' -> port_runs w'.

Record watcher_ok (w : port_watcher) : Prop := {
  wo_linked : linked (last_ports w) (service_port_map w) (pf_mgr w);
  wo_types : map_Forall (fun _ si => known_type (svc_type si)) (previous_keys w)
}.

(** What holds after an iteration with the list [keys]. *)
Record up_to_date (info_poll : nat -> poll) (keys : list bytes) (previous : gmap bytes ServiceInfo) (w : port_watcher)
  : Prop := {
  ud_keys : forall key si, previous_keys w !! key = Some si <-> resolved info_poll 0 keys previous key si;
  ud_served : forall key si, previous_keys w !! key = Some si ->
    exists p, forward_service_list_ (pf_mgr w) !! p = Some (mk_forward_info (svc_name si) (svc_type si) p)
              /\ p ∈ forward_server_list_ (pf_mgr w)
              /\ take AGENT_ID_LEN key ∈ default ∅ (last_ports w !! p);
  ud_used : forall p, p ∈ forward_server_list_ (pf_mgr w) ->
    exists key si, previous_keys w !! key = Some si
      /\ forward_service_list_ (pf_mgr w) !! p = Some (mk_forward_info (svc_name si) (svc_type si) p);
  ud_once : forall p q info info', forward_service_list_ (pf_mgr w) !! p = Some info ->
    forward_service_list_ (pf_mgr w) !! q = Some info' -> info_string info = info_string info' -> p = q
}.

(** What holds after an iteration with no keys: the keys are forgotten, the ports
    and who uses them are not. *)
Definition unchanged (w w' : port_watcher) : Prop :=
  pf_mgr w' = pf_mgr w /\ last_ports w' = last_ports w /\ service_port_map w' = service_port_map w /\ previous_keys w' = ∅.

Lemma empty_sets ports port_map m : linked ports port_map m -> loop_ok (mk_key_loop ((fun _ => ∅) <$> ports) port_map ∅ m).
Proof.
  intros [H1 H2 H3 H4]. constructor; cbn [kl_last_ports kl_port_map kl_new_keys kl_mgr].
  - constructor; try done. by rewrite dom_fmap_L.
  - apply map_Forall_empty.
  - intros key si H. by rewrite lookup_empty in H.
  - intros p agent. rewrite lookup_fmap. split.
    + destruct (ports !! p); cbn; set_solver.
    + intros (key & si & H & _). by rewrite lookup_empty in H.
Qed.

Lemma elem_unused ports p : p ∈ unused ports <-> ports !! p = Some ∅.
Proof.
  unfold unused. rewrite list_elem_of_filter, elem_of_elements. split; [by intros []|].
  intros H. split; [done|]. by apply elem_of_dom_2 in H.
Qed.

Lemma finish_ok info_poll keys previous s w : loop_ok s ->
  (forall k si, kl_new_keys s !! k = Some si <-> resolved info_poll 0 keys previous k si) ->
  watcher_ok (finish_iteration s w) /\ up_to_date info_poll keys previous (finish_iteration s w).
Proof.
  intros [Hl Ht Hp Ha] Hres. unfold finish_iteration.
  destruct (foldl _ _ _) as [port_map m] eqn:E. pose proof (closes_sub _ _ _ _ _ E) as Hsub.
  apply (linked_closes _ (kl_last_ports s)) in E; [|done| |].
  2: { unfold unused. apply NoDup_filter, NoDup_elements. }
  2: { intros p Hu%elem_unused. by apply elem_of_dom_2 in Hu. }
  set (ports := filter _ _) in *. pose proof E as [E1 E2 E3 E4].
  assert (forall key si p, kl_new_keys s !! key = Some si -> kl_port_map s !! si_string si = Some p ->
    forward_service_list_ m !! p = Some (mk_forward_info (svc_name si) (svc_type si) p)
    /\ p ∈ forward_server_list_ m /\ take AGENT_ID_LEN key ∈ default ∅ (ports !! p)) as Hserved.
  { intros key si p Hk Hpm. assert (take AGENT_ID_LEN key ∈ default ∅ (kl_last_ports s !! p)) as Hag
      by (apply Ha; by exists key, si).
    assert (ports !! p = kl_last_ports s !! p) as Hsame.
    { destruct (kl_last_ports s !! p) as [agents|] eqn:Ep; [|by apply elem_of_empty in Hag].
      unfold ports. apply map_lookup_filter_Some. split; [done|]. cbn. rewrite elem_unused, Ep. intros [= ->]. by apply elem_of_empty in Hag. }
    assert (p ∈ forward_server_list_ m) as Hsrv.
    { rewrite <- E2. apply elem_of_dom. rewrite Hsame. destruct (kl_last_ports s !! p); [done|by apply elem_of_empty in Hag]. }
    rewrite Hsame. split_and!; [|done..]. rewrite <- E1, elem_of_dom in Hsrv. destruct Hsrv as [info Hinfo]. rewrite Hinfo.
    pose proof (lookup_weaken _ _ _ _ Hinfo Hsub) as Hinfo'. apply (l_map _ _ _ Hl) in Hpm as (info1 & Hi1 & Hstr).
    rewrite Hinfo' in Hi1. injection Hi1 as <-. destruct (l_info _ _ _ Hl _ _ Hinfo') as [Hport Hty].
    apply uniquestr_inj in Hstr as [Hn Hty']; [|done|by apply (Ht key)]. destruct info. cbn in *. by subst. }
  split; [by constructor|]. constructor; cbn [previous_keys pf_mgr last_ports].
  - exact Hres.
  - intros key si Hk. destruct (Hp key si Hk) as [p Hpm]. exists p. by apply Hserved.
  - intros p Hsrv. rewrite <- E2, elem_of_dom in Hsrv. destruct Hsrv as [agents Hag].
    unfold ports in Hag. apply map_lookup_filter_Some in Hag as [Hag Hun]. cbn in Hun. rewrite elem_unused in Hun.
    destruct (decide (agents = ∅)) as [->|Hne]; [done|]. destruct (set_choose_L _ Hne) as [agent Hagent].
    destruct (proj1 (Ha p agent)) as (key & si & Hk & _ & Hpm); [by rewrite Hag|].
    exists key, si. split; [done|]. by apply (Hserved key si p).
  - intros p q info info' Hi Hi' Hs. assert (port_map !! info_string info = Some p) as H1 by (apply E4; by exists info).
    assert (port_map !! info_string info = Some q) as H2 by (rewrite Hs; apply E4; by exists info'). congruence.
Qed.

Lemma iteration_ok info_poll bound_port p w w' : watcher_ok w -> fresh_ports bound_port w -> distinct_keys p ->
  ports_polled parse_json info_poll bound_port addrs p w = Some w' ->
  watcher_ok w' /\ forall indexid json_rsp keys, p = Polled indexid json_rsp ->
    parseForwardPortListRsp parse_json json_rsp = Some (Some keys) ->
    if decide (keys = []) then unchanged w w' else up_to_date info_poll keys (previous_keys w) w'.
Proof.
  intros [Hl Ht] [Hinj Hfresh] Hd H. destruct p as [| |indexid json_rsp]; cbn [ports_polled] in H; [by injection H as <-|done|].
  destruct (parseForwardPortListRsp parse_json json_rsp) as [[[|key keys]|]|] eqn:Ep; cbn [mbind option_bind] in H; [| | |done].
  - injection H as <-. split; [constructor; [done|apply map_Forall_empty]|]. intros ? ? ks [= <- <-] E. rewrite Ep in E. by injection E as <-.
  - destruct (key_loop_from _ _ _ _ _ _) as [s|] eqn:Es; [|done]. injection H as <-.
    destruct (key_loop_ok bound_port info_poll (previous_keys w) (key :: keys)) with (4 := empty_sets _ _ _ Hl) (7 := Es)
      as [Hs Hres]; [done|done|by eapply Hd| | |].
    + intros k _. apply lookup_empty.
    + intros j _. apply Hfresh.
    + destruct (finish_ok info_poll (key :: keys) (previous_keys w) s) with
        (w := mk_port_watcher indexid (pw_balance_index w) (pw_client w) (last_ports w) (service_port_map w)
                (previous_keys w) (ports_used_by_agent_ w) (pf_mgr w)) as [H1 H2]; [done| |].
      * intros k si. rewrite Hres. cbn [kl_new_keys]. rewrite lookup_empty. naive_solver.
      * split; [done|]. intros ? ? ks [= <- <-] E. rewrite Ep in E. by injection E as <-.
  - injection H as <-. split; [by constructor|]. intros ? ? ks [= <- <-] E. by rewrite Ep in E.
Qed.

Lemma port_runs_ok w : port_runs w -> watcher_ok w.
Proof.
  induction 1 as [|w info_poll bound_port p w' _ IH Hf Hd H]; [|by eapply iteration_ok].
  constructor; [apply linked_new|apply map_Forall_empty].
Qed.


End Iterations.

(** ** What agents keep *)

Definition used_by (agent : bytes) (used : gmap bytes (gset Z)) : gset Z := default ∅ (used !! agent).

Lemma record_port_grows port agents used agent : used_by agent used ⊆ used_by agent (record_port port agents used).
Proof.
  unfold record_port.
  apply (set_fold_ind_L (fun r _ => used_by agent used ⊆ used_by agent r)); [done|].
  intros a X r _ IH. unfold used_by in *. destruct (decide (a = agent)) as [<-|].
  - rewrite lookup_insert_eq. cbn [from_option id]. set_solver.
  - by rewrite lookup_insert_ne.
Qed.

Lemma record_ports_grows ports used agent : used_by agent used ⊆ used_by agent (record_ports ports used).
Proof.
  unfold record_ports. apply (map_fold_weak_ind (fun r _ => used_by agent used ⊆ used_by agent r)); [done|].
  intros p agents m r _ IH. etrans; [exact IH|apply record_port_grows].
Qed.

Section Agents.
Context {boost : BoostStrings} (parse_json : bytes -> option json) (addrs : list host_pair).

(** The iterations from one state to a later one, whatever they get. *)
Inductive port_steps (w : port_watcher) : port_watcher -> Prop :=
| steps_none : port_steps w w
| steps_more w1 info_poll bound_port p w2 : port_steps w w1 ->
    ports_polled parse_json info_poll bound_port addrs p w1 = Some w2 -> port_steps w w2.

Lemma polled_grows info_poll bound_port p w w' agent :
  ports_polled parse_json info_poll bound_port addrs p w = Some w' ->
  used_by agent (ports_used_by_agent_ w) ⊆ used_by agent (ports_used_by_agent_ w').
Proof.
  intros H. destruct p as [| |indexid json_rsp]; cbn [ports_polled] in H; [by injection H as <-|done|].
  destruct (parseForwardPortListRsp parse_json json_rsp) as [[[|key keys]|]|]; cbn [mbind option_bind] in H;
    [by injection H as <-| |by injection H as <-|done].
  destruct (key_loop_from _ _ _ _ _ _) as [s|]; [|done]. injection H as <-.
  unfold finish_iteration. destruct (foldl _ _ _) as [pm m]. cbn. apply record_ports_grows.
Qed.

(** An agent keeps the ports it has ever used.  The table of the agents'
    ports is never cleared: an agent is told about every port it has used
    whatever that port forwards now, the service of another agent when the
    operating system has given the port again. *)
Theorem agents_keep_ports w w' agent p info : port_steps w w' ->
  p ∈ used_by agent (ports_used_by_agent_ w) -> forward_service_list_ (pf_mgr w') !! p = Some info ->
  info ∈ getAllPortForwardServices agent w'.
Proof.
  intros Hs Hp Hi. unfold getAllPortForwardServices. apply list_elem_of_omap. exists p. split; [|exact Hi].
  unfold get_related_forward_ports. rewrite merge_sort_Permutation, elem_of_elements.
  clear Hi. induction Hs as [|w1 ip bp q w2 Hs IH H]; [done|]. apply (polled_grows _ _ _ _ _ _ H). apply IH.
Qed.

End Agents.

(** ** Forwarded connections *)

(** A forwarded connection ends at a host of the port's service, looked up
    with the type of the service or, for a service that is not HTTP, RPC or
    raw, as an HTTP service. *)
Lemma forward_connects lookup connect port bi m h :
  create_forward_connection lookup connect port bi m = Connected_to h ->
  exists info bi' t, getForwardService port m = Some info /\ lookup bi' (fi_service_name info) t = Some h
  /\ connect h = true /\ (t = fi_service_type info \/ fi_service_type info = Custom_Service /\ t = HTTP_Service).
Proof.
  unfold create_forward_connection. destruct (getForwardService port m) as [info|]; [|done].
  generalize 2%nat as n. intros n. revert bi. induction n as [|n IH]; intros bi H; cbn [forward_rounds] in H; [done|].
  destruct (lookup _ _ (fi_service_type info)) as [h'|] eqn:E; [|destruct (_ =? _) eqn:Ety; [|done];
    destruct (lookup _ _ HTTP_Service) as [h'|] eqn:E'; [|done]].
  - destruct (connect h') eqn:Ec; [injection H as <-|by eapply IH].
    eexists info, _, _. split_and!; [done|exact E|done|by left].
  - destruct (connect h') eqn:Ec; [injection H as <-|by eapply IH].
    apply Z.eqb_eq in Ety. eexists info, _, _. split_and!; [done|exact E'|done|by right].
Qed.

(** What has been written is what has been read, in order, up to the first
    read or write that failed. *)
Theorem copied_bytes reads writes out failed : copy_loop reads writes = (out, failed) ->
  exists n, out = concat (take n reads) /\ Forall (fun ok => ok = true) (take n writes)
  /\ if failed then (n < length reads)%nat /\ writes !! n <> Some true else n = length reads.
Proof.
  revert writes out. induction reads as [|buf reads IH]; intros writes out H; cbn in H.
  { injection H as <- <-. exists 0%nat. by rewrite !take_0. }
  assert (forall writes, writes !! 0%nat <> Some true -> exists n, [] = concat (take n (buf :: reads))
    /\ Forall (fun ok => ok = true) (take n writes) /\ (n < length (buf :: reads))%nat /\ writes !! n <> Some true) as Hstop.
  { intros ws Hw. exists 0%nat. rewrite !take_0. split_and!; [done|done|cbn; lia|done]. }
  destruct writes as [|[|] writes].
  - injection H as <- <-. by apply Hstop.
  - destruct (copy_loop reads writes) as [out1 failed1] eqn:E. injection H as <- <-.
    destruct (IH _ _ E) as (n & -> & Hw & Hn). exists (S n). split_and!; [done|by constructor|].
    destruct failed1; cbn; [|by rewrite Hn]. split; [lia|apply Hn].
  - injection H as <- <-. by apply Hstop.
Qed.

(** ** Witnesses *)

Definition forward_key_of (s : string) : json := J_string (forward_prefix ++ b s).
Definition forward_json (text : bytes) : option json :=
  if bool_decide (text = b "two") then Some (J_array [forward_key_of "agent00001-search"; forward_key_of "agent00002-user"])
  else if bool_decide (text = b "one") then Some (J_array [forward_key_of "agent00002-user"])
  else if bool_decide (text = b "new") then Some (J_array [forward_key_of "agent00002-user"; forward_key_of "agent00003-mail"])
  else None.

Definition some_servers : list host_pair := [(b "10.0.0.250", b "8500")].
Definition search_first (i : nat) : poll := Polled 1 (if (i =? 0)%nat then b "search,HTTP" else b "user,rpc").
Definition mail_info (i : nat) : poll := Polled 1 (b "mail,http").
Definition ports_from (p : Z) (i : nat) : Z := p + Z.of_nat i.

Definition next_watcher (info : nat -> poll) (first : Z) (text : bytes) (w : port_watcher) : port_watcher :=
  match @ports_polled reference_strings forward_json info (ports_from first) some_servers (Polled 1 text) w with
  | Some w => w
  | None => w
  end.
Definition watcher_two : port_watcher := next_watcher search_first 5000 (b "two") (new_port_watcher some_servers).
Definition watcher_one : port_watcher := next_watcher mail_info 6000 (b "one") watcher_two.
Definition watcher_new : port_watcher := next_watcher mail_info 4999 (b "new") watcher_one.

Lemma ports_from_inj p : Inj (=) (=) (ports_from p).
Proof. intros i j. unfold ports_from. lia. Qed.

Lemma two_keys_distinct text keys : parseForwardPortListRsp forward_json text = Some (Some keys) ->
  text = b "two" -> NoDup keys.
Proof. intros H ->. vm_compute in H. injection H as <-. repeat constructor; vm_compute; set_solver. Qed.

Lemma two_ports_run : @port_runs reference_strings forward_json some_servers watcher_two.
Proof.
  apply (@ports_step reference_strings forward_json some_servers (new_port_watcher some_servers) search_first
           (ports_from 5000) (Polled 1 (b "two"))).
  - constructor.
  - split; [apply ports_from_inj|]. intros i. cbn. set_solver.
  - intros ? ? keys [= _ <-] H. by eapply two_keys_distinct.
  - vm_compute. reflexivity.
Qed.


(** The first agent, whose only service has gone, is told about the third's. *)
Lemma agents_keep_ports_witness :
  map_Forall (fun key _ => take AGENT_ID_LEN key <> b "agent00001") (previous_keys watcher_new)
  /\ mk_forward_info (b "mail") HTTP_Service 5000 ∈ getAllPortForwardServices (b "agent00001") watcher_new.
Proof.
  split; [apply map_Forall_to_list; vm_compute; repeat constructor; discriminate|].
  apply (@agents_keep_ports reference_strings forward_json some_servers watcher_two watcher_new (b "agent00001") 5000).
  - apply (@steps_more reference_strings forward_json some_servers watcher_two watcher_one mail_info (ports_from 4999)
             (Polled 1 (b "new"))); [|vm_compute; reflexivity].
    apply (@steps_more reference_strings forward_json some_servers watcher_two watcher_two mail_info (ports_from 6000)
             (Polled 1 (b "one"))); [constructor|vm_compute; reflexivity].
  - vm_compute. reflexivity.
  - vm_compute. reflexivity.
Defined.
