(* ===== verification/FibpDirectoryCall.v ===== *)
(** * Calls through the directory

    The forward manager calls, and the port forwarder connects, what the
    coordination service says is healthy; the attempts of a call go to
    different hosts. *)

From stdpp Require Import options sorting.
From S2P Require Import Prelude Boost HttpTypes HttpUrl HttpExecute HttpInvariant HttpSafety.
From S2P Require Import HttpSplit HttpProtocol HttpRoundTrip HttpPipeline HttpResponseTrip.
From S2P Require Import HttpConnection HttpServing FibpClient FibpHttpClient RequestParser FibpGateway HttpCall.
From S2P Require Import FibpClientMgr FibpClientMgrSpec FibpTransactionMgr FibpForwardManager FibpForwardManagerSpec.
From S2P Require Import FibpServiceCall FibpServiceInfo FibpServiceInfoSpec FibpServiceMgr FibpServiceMgrSpec.
From S2P Require Import FibpPortForward FibpPortForwardSpec.

(** ** Attempts *)

(** The directory of [FibpServiceMgr], in the interface of the forward manager. *)
Definition served_by {W} (backends : Backends W) (m : service_mgr) : Prop :=
  forall bi name type w,
    FibpForwardManager.get_service_address bi name type w = (FibpServiceMgr.get_service_address bi name type m, w).

Definition tried_host (o : tried_one) : option host_pair :=
  match o with No_address => None | No_send ip prt | Answer ip prt _ _ _ => Some (ip, prt) end.

Section Attempts.
Context {cache : ConcurrentCache} {W : Type} {backends : Backends W} (m : service_mgr).
Hypothesis Hserved : served_by backends m.

Lemma try_once_host req k bi w o w' : try_once req k bi w = Some (o, w') ->
  tried_host o = FibpServiceMgr.get_service_address bi (service_name req) (service_type req) m.
Proof using Hserved.
  unfold try_once. rewrite Hserved. destruct (FibpServiceMgr.get_service_address _ _ _ _) as [[ip prt]|].
  - destruct (attempt _ _ _ _ _) as [[] ?]; by intros [= <- <-].
  - by intros [= <- <-].
Qed.

(** The hosts of the attempts are those of the consecutive indexes. *)
Lemma attempts_hosts req k bi w os w' : attempts req k bi w os w' -> 0 <= bi -> k <= MAX_RETRY ->
  bi + (MAX_RETRY - k) < 2 ^ 64 ->
  (Z.of_nat (length os) <= MAX_RETRY - k + 1)
  /\ tried_host <$> os = (fun i => FibpServiceMgr.get_service_address (wrap 64 (bi + Z.of_nat i))
                           (service_name req) (service_type req) m) <$> seq 0 (length os).
Proof using Hserved.
  unfold MAX_RETRY. induction 1 as [k bi w o w' H _|k bi w o w1 os w' H _ Hk _ IH]; intros Hbi Hk3 Hmax; apply try_once_host in H.
  - split; [cbn; lia|]. cbn [length seq fmap list_fmap Z.of_nat].
    by rewrite H, Z.add_0_r, wrap_small by lia.
  - rewrite (wrap_small 64 (bi + 1)) in IH by (unfold MAX_RETRY in Hk; lia). unfold MAX_RETRY in Hk.
    destruct IH as [Hlen IH]; [lia..|]. split; [cbn [length]; lia|]. rewrite fmap_cons, H, IH. cbn [length seq fmap list_fmap].
    rewrite Z.add_0_r, (wrap_small 64 bi) by lia. f_equal. rewrite <- seq_shift, <- list_fmap_compose.
    apply list_fmap_ext. intros i x _. cbn. do 2 f_equal. lia.
Qed.

End Attempts.

Lemma rotate_permutation {A} n (l : list A) : rotate n l ≡ₚ l.
Proof. unfold rotate. by rewrite Permutation_app_comm, take_drop. Qed.

(** The attempts of a call go to different hosts.  If the directory lists at
    least three hosts for a service, no two attempts of a call of it are made
    at the same host, wherever the balancing index starts. *)
Theorem retries_try_different_hosts {cache : ConcurrentCache} {W} {backends : Backends W} parse_json
    {boost : BoostStrings} es addrs m req balance_index w os w' :
  served_by backends m -> watch_all parse_json es (new_service_mgr addrs) = Some m ->
  0 <= service_type req < End_Service ->
  let l := hosts (Z.to_nat (service_type req)) (service_key (service_name req) (curClusterName_ m)) (reg_service_host_info_ m) in
  (3 <= length l)%nat -> 0 <= balance_index -> balance_index + Z.of_nat (length l) <= 2 ^ 64 ->
  attempts req 1 balance_index w os w' ->
  exists tried, tried_host <$> os = Some <$> tried /\ NoDup tried /\ tried ⊆ l.
Proof.
  intros Hserved Hrun Hty l Hl Hbi Hmax Hatt.
  pose proof (run_well_formed _ _ _ _ Hrun empty_well_formed) as Hwf.
  destruct (attempts_hosts m Hserved req 1 balance_index w os w' Hatt Hbi ltac:(done)
              ltac:(unfold MAX_RETRY; lia)) as [Hlen Hhosts].
  pose proof (lookups_rotate m (service_name req) (service_type req) balance_index Hwf Hty Hbi Hmax) as Hrot.
  fold l in Hrot. unfold MAX_RETRY in Hlen.
  exists (take (length os) (rotate (Z.to_nat balance_index) l)). split_and!.
  - rewrite Hhosts, fmap_take, <- Hrot, <- fmap_take, take_seq. by rewrite Nat.min_l by lia.
  - apply (sublist_NoDup _ (rotate (Z.to_nat balance_index) l)); [|apply sublist_take].
    rewrite rotate_permutation. by apply sorted_hosts_nodup, hosts_sorted.
  - rewrite subseteq_take. intros x. by rewrite elem_of_rotate.
Qed.

(** ** Forwarded connections *)

(** A forwarded connection ends at a healthy host.  A connection to an open
    port goes to a host that the last answer about the port's service lists as
    passing, with the type of the service or, for a service that is neither
    HTTP nor RPC nor raw, with the type HTTP. *)
Theorem forwarded_to_healthy_host {boost : BoostStrings} parse_json es addrs m nodes connect port balance_index pm info h :
  getForwardService port pm = Some info -> known_type (fi_service_type info) ->
  documented_run parse_json es addrs (fi_service_name info) nodes m ->
  create_forward_connection (fun bi name type => FibpServiceMgr.get_service_address bi name type m) connect
    port balance_index pm = Connected_to h ->
  connect h = true
  /\ exists type, healthy nodes (fi_service_name info) (curClusterName_ m) type h
     /\ (type = fi_service_type info \/ fi_service_type info = Custom_Service /\ type = HTTP_Service).
Proof.
  intros Hinfo Hty Hrun H. apply forward_connects in H as (info' & bi' & t & Hi & Hl & Hc & Ht).
  rewrite Hinfo in Hi. injection Hi as <-. split; [done|]. exists t. split; [|done].
  assert (0 <= t < End_Service) as Htr by (destruct Ht as [->|[_ ->]]; done).
  destruct (hosts_healthy _ _ _ _ _ _ _ Hrun Htr) as [Hlen Hh]. apply Hh.
  pose proof (lookup_found bi' (fi_service_name info) t m Htr Hlen) as Hf. by rewrite Hl in Hf.
Qed.

(** ** A service call from end to end *)

(** The request that reaches a host. *)
Definition request_at (req : ServiceCallReq) (h : host_pair) : request_t :=
  addressed (new_http_client h.1 h.2) (call_request (service_api req) (method req) (service_req_data req)).

(** C2: a service call returns what the service made.  The answers of the
    coordination service are as Consul documents them, no other service that is
    watched shares the key of the called one ([clashes]), and the last answer
    lists healthy hosts for it, an HTTP service; no host has reached the limit of
    a hundred clients and the pooled clients are between two calls; connects and
    writes succeed; the request can be printed and parsed ([sendable]) and the
    handler of the service answers it before it returns, without throwing; the
    cache holds anything.  Then a call picks one of the healthy hosts, takes or
    creates a connection to it, the bytes it sends reach the handler of the
    service whatever the cuts of the network, and the caller gets the body the
    handler has made, without an error and with the address of the host. *)
Theorem service_call_answered {boost : BoostStrings} {driver : Driver} {cache : ConcurrentCache} {S} parse_json
    (find : bytes -> bytes -> option (handler S)) elapsed garbage cut_request cut_response others
    pack cs es addrs sm nodes balance req (m : manager net) :
  cuts cut_request -> cuts cut_response ->
  mgr_runs pack cs (net_clients (world m)) -> pools_usable (net_clients (world m)) ->
  documented_run parse_json es addrs (service_name req) nodes sm ->
  let listed_host := healthy nodes (service_name req) (curClusterName_ sm) HTTP_Service in
  (exists h, listed_host h) ->
  service_name req <> local_test -> service_type req = HTTP_Service ->
  (forall h, listed_host h ->
     num_of (getClientId h.1 h.2) (net_clients (world m)) <= MAX_CLIENT_NUM /\ sendable (request_at req h)
     /\ exists rsp s', answer_rsp find elapsed (request_at req h) (net_service (world m)) = Some (rsp, s')
                       /\ printable_size (rs_body rsp)) ->
  exists h rsp s' m', listed_host h
  /\ answer_rsp find elapsed (request_at req h) (net_service (world m)) = Some (rsp, s')
  /\ call_single_service
       (backends := net_backends find elapsed garbage cut_request cut_response
                      (fun bi name type => FibpServiceMgr.get_service_address bi name type sm) others)
       balance req new_call_rsp m
     = Some (mk_call_rsp (service_name req) (rs_body rsp) [] false h.1 h.2, m')
  /\ net_service (world m') = s'.
Proof.
  intros Hc1 Hc2 Hr Hu Hrun listed_host [h0 Hh0] Hname Hty Hall.
  assert (0 <= HTTP_Service < End_Service) as Htr by done.
  destruct (hosts_healthy _ _ _ _ _ _ _ Hrun Htr) as [Hlen Hh].
  pose proof (lookup_found (wrap 64 (balance + 1)) (service_name req) HTTP_Service sm Htr Hlen) as Hl.
  destruct (FibpServiceMgr.get_service_address _ _ _ _) as [h|] eqn:E;
    [|apply Hh in Hh0; rewrite Hl in Hh0; by apply elem_of_nil in Hh0].
  apply Hh in Hl. destruct (Hall h Hl) as (Hn & Hs & rsp & s' & Ha & Hb).
  destruct (call_answered_by_backend find elapsed garbage cut_request cut_response
              (fun bi name type => FibpServiceMgr.get_service_address bi name type sm) others pack cs balance req m
              h.1 h.2 rsp s' Hc1 Hc2 Hr Hu Hn Hname Hty) as (m' & Hcall & Hw);
    [by rewrite E; destruct h|done..|]. by exists h, rsp, s', m'.
Qed.

(** ** Witnesses *)

(** Hosts that take no connection. *)
Definition silent_backends : Backends unit := {|
  FibpForwardManager.get_service_address bi name type w :=
    (FibpServiceMgr.get_service_address bi name type (sample_mgr (b "three")), w);
  http_attempt _ _ _ _ _ _ w := (Not_sent, w);
  future_attempt _ _ _ _ _ _ w := (Not_sent, w)
|}.

Definition silent_attempts : list tried_one :=
  [No_send (b "10.0.0.2") (b "80"); No_send (b "10.0.0.3") (b "80"); No_send (b "10.0.0.1") (b "80")].

Lemma retries_try_different_hosts_witness :
  exists tried, tried_host <$> silent_attempts = Some <$> tried /\ NoDup tried
  /\ tried ⊆ hosts 0 (service_key (b "echo") (b "dev")) (reg_service_host_info_ (sample_mgr (b "three"))).
Proof.
  apply (@retries_try_different_hosts list_cache unit silent_backends sample_json reference_strings
           (sample_polls (b "three")) sample_servers (sample_mgr (b "three")) echo_req 4 tt silent_attempts tt).
  - by intros ? ? ? ?.
  - apply three_run.
  - vm_compute. by split.
  - vm_compute. lia.
  - lia.
  - vm_compute. discriminate.
  - apply (@attempts_more _ silent_backends echo_req 1 4 tt _ tt); [vm_compute; reflexivity|done|done|].
    apply (@attempts_more _ silent_backends echo_req _ _ tt _ tt); [vm_compute; reflexivity|done|done|].
    apply (@attempts_last _ silent_backends echo_req _ _ tt); [vm_compute; reflexivity|by right].
Defined.

Definition echo_port : port_forward_mgr := startPortForward 5000 (b "echo") Custom_Service new_port_forward_mgr.

Lemma forwarded_to_healthy_host_witness :
  exists type, healthy (sample_nodes one_host) (b "echo") (curClusterName_ (sample_mgr (b "one"))) type (b "10.0.0.1", b "80")
     /\ (type = Custom_Service \/ Custom_Service = Custom_Service /\ type = HTTP_Service).
Proof.
  apply (@forwarded_to_healthy_host reference_strings sample_json (sample_polls (b "one")) sample_servers
           (sample_mgr (b "one")) (sample_nodes one_host) (fun _ => true) 5000 17 echo_port
           (mk_forward_info (b "echo") Custom_Service 5000) (b "10.0.0.1", b "80")).
  - vm_compute. reflexivity.
  - vm_compute. by split.
  - apply one_run.
  - vm_compute. reflexivity.
Defined.

Lemma one_healthy h : healthy (sample_nodes one_host) (b "echo") (b "dev") HTTP_Service h -> h = (b "10.0.0.1", b "80").
Proof.
  intros (n & Hn & Hp & _ & _ & _ & ->). apply elem_of_cons in Hn as [->|Hn]; [vm_compute; reflexivity|].
  apply elem_of_cons in Hn as [->|Hn]; [vm_compute in Hp; discriminate|by apply elem_of_nil in Hn].
Qed.

Lemma service_call_answered_witness :
  exists h rsp s' m', healthy (sample_nodes one_host) (b "echo") (b "dev") HTTP_Service h
  /\ @answer_rsp reference_strings flag_driver _ (only (b "echo") echo_handler) 0 (request_at echo_req h) []
     = Some (rsp, s')
  /\ @call_single_service list_cache (@net (list bytes))
      (@net_backends reference_strings flag_driver _ (only (b "echo") echo_handler) 0 no_url one_by_one at_once
         (fun bi name type => FibpServiceMgr.get_service_address bi name type (sample_mgr (b "one"))) no_others)
      7 echo_req new_call_rsp (@mk_manager list_cache _ idle_net [] ∅)
    = Some (mk_call_rsp (b "echo") (rs_body rsp) [] false h.1 h.2, m')
  /\ net_service (world m') = s'.
Proof.
  apply (@service_call_answered reference_strings flag_driver list_cache (list bytes) sample_json
           (only (b "echo") echo_handler) 0 no_url one_by_one at_once no_others raw_pack [] (sample_polls (b "one"))
           sample_servers (sample_mgr (b "one")) (sample_nodes one_host) 7 echo_req
           (@mk_manager list_cache _ idle_net [] ∅)).
  - apply one_by_one_cuts.
  - apply at_once_cuts.
  - apply mgr_starts.
  - intros id p c H. by apply elem_of_nil in H.
  - apply one_run.
  - exists (b "10.0.0.1", b "80"). exists (sample_node (b "10.0.0.1") (b "passing")).
    split_and!; [by left|done|done|done|vm_compute; left|done].
  - vm_compute. discriminate.
  - done.
  - intros h Hh. apply one_healthy in Hh as ->. split; [vm_compute; discriminate|]. split; [apply echo_sendable|].
    exists echo_rsp, [b "svc/echo"]. split; vm_compute; reflexivity.
Defined.
