(* ===== verification/FiberPool.v ===== *)
(** * [FiberPool]: the tasks of a thread's fibers

    The pool as a system whose steps are those of its cooperative fibers: the
    fibers of one pool run in one thread and are switched only where they wait
    or yield, so that each step here is what runs between two switches.  Other
    threads only append to [thread_task_list_], under its lock. *)

From stdpp Require Import options.
From S2P Require Import Prelude.

Section Pool.
Context {T : Type}.
Implicit Types t : T.

(** A fiber of [run_fiber]: about to look for a task, waiting in [cond_],
    running a task, or returned; [F_check] is the fiber of
    [check_task_fiber_fun]. *)
Inductive fiber := F_ready | F_wait | F_run (t : T) | F_done | F_check.

(** [check_task_fiber_fun]: at the head of its loop, in [timed_wait], after the
    wait with the lock taken again, distributing [tmp_list], returned. *)
Inductive checker := Ck_loop | Ck_waiting | Ck_waited | Ck_moving (tmp_list : list T) | Ck_done.

(** [waiting_]: the queue of the condition variable, as indices of fibers. *)
Record pool := mk_pool {
  fiber_pool_ : list fiber;
  waiting_ : list nat;
  fiber_task_list_ : list T;
  thread_task_list_ : list T;
  check_ : checker;
  need_stop_ : bool;
  running_fiber_num_ : nat
}.

Definition GROW_SIZE : nat := 10.
Definition MAX_GROW_SIZE : nat := N.to_nat 15000.

Definition new_pool : pool := mk_pool [] [] [] [] Ck_done false 0.

(** [init(poolSize)] on a new pool. *)
Definition init (poolSize : nat) : pool :=
  mk_pool (replicate poolSize F_ready ++ [F_check]) [] [] [] Ck_loop false 0.

Definition set_fiber (i : nat) (f : fiber) (p : pool) : pool :=
  mk_pool (<[i := f]> (fiber_pool_ p)) (waiting_ p) (fiber_task_list_ p) (thread_task_list_ p)
    (check_ p) (need_stop_ p) (running_fiber_num_ p).
Definition set_waiting (w : list nat) (p : pool) : pool :=
  mk_pool (fiber_pool_ p) w (fiber_task_list_ p) (thread_task_list_ p) (check_ p) (need_stop_ p)
    (running_fiber_num_ p).
Definition set_fiber_tasks (l : list T) (p : pool) : pool :=
  mk_pool (fiber_pool_ p) (waiting_ p) l (thread_task_list_ p) (check_ p) (need_stop_ p)
    (running_fiber_num_ p).
Definition set_thread_tasks (l : list T) (p : pool) : pool :=
  mk_pool (fiber_pool_ p) (waiting_ p) (fiber_task_list_ p) l (check_ p) (need_stop_ p)
    (running_fiber_num_ p).
Definition set_check (c : checker) (p : pool) : pool :=
  mk_pool (fiber_pool_ p) (waiting_ p) (fiber_task_list_ p) (thread_task_list_ p) c (need_stop_ p)
    (running_fiber_num_ p).
Definition set_running (n : nat) (p : pool) : pool :=
  mk_pool (fiber_pool_ p) (waiting_ p) (fiber_task_list_ p) (thread_task_list_ p) (check_ p)
    (need_stop_ p) n.

Definition notify_one (p : pool) : pool :=
  match waiting_ p with
  | [] => p
  | i :: w => set_fiber i F_ready (set_waiting w p)
  end.

Definition notify_all (p : pool) : pool :=
  foldl (fun p i => set_fiber i F_ready p) (set_waiting [] p) (waiting_ p).

Definition stop (p : pool) : pool :=
  notify_all (mk_pool (fiber_pool_ p) (waiting_ p) (fiber_task_list_ p) (thread_task_list_ p)
                (check_ p) true (running_fiber_num_ p)).

Definition schedule_task (t : T) (p : pool) : pool := set_thread_tasks (thread_task_list_ p ++ [t]) p.

Definition grow (n : nat) (p : pool) : pool :=
  mk_pool (fiber_pool_ p ++ replicate n F_ready) (waiting_ p) (fiber_task_list_ p) (thread_task_list_ p)
    (check_ p) (need_stop_ p) (running_fiber_num_ p).

Definition schedule_task_from_fiber (t : T) (p : pool) : pool :=
  let p := set_fiber_tasks (fiber_task_list_ p ++ [t]) p in
  let size := length (fiber_pool_ p) in
  let p :=
    if (size =? 0)%nat then grow GROW_SIZE p
    else if (size - 1 <=? running_fiber_num_ p)%nat then
      grow (if (MAX_GROW_SIZE <? size)%nat then 0%nat else size) p
    else p in
  notify_one p.

(** [run_fiber] from where it holds the lock to where it waits, starts a task
    or returns; the task it starts. *)
Definition run_fiber (i : nat) (p : pool) : pool * option T :=
  if need_stop_ p then (set_fiber i F_done p, None)
  else match fiber_task_list_ p with
       | [] => (set_waiting (waiting_ p ++ [i]) (set_fiber i F_wait p), None)
       | t :: l => (set_running (running_fiber_num_ p + 1) (set_fiber i (F_run t) (set_fiber_tasks l p)), Some t)
       end.

(** The end of a task, normal or by [fiber_interrupted], which leaves the
    counter as it is. *)
Definition task_returns (i : nat) (p : pool) : pool :=
  set_running (running_fiber_num_ p - 1) (set_fiber i F_ready p).
Definition task_interrupted (i : nat) (p : pool) : pool := set_fiber i F_done p.

(** [check_task_fiber_fun] between two switches. *)
Definition check_task_fiber_fun (p : pool) : option (pool * option T) :=
  match check_ p with
  | Ck_loop =>
      match fiber_task_list_ p, thread_task_list_ p with
      | _ :: _, [] => Some (if need_stop_ p then set_check Ck_done p else p, None)
      | _, [] => Some (set_check Ck_waiting p, None)
      | _, l => Some (set_check (Ck_moving l) (set_thread_tasks [] p), None)
      end
  | Ck_waiting => Some (set_check (if need_stop_ p then Ck_done else Ck_waited) p, None)
  | Ck_waited =>
      match thread_task_list_ p with
      | [] => Some (set_check Ck_waiting p, None)
      | l => Some (set_check (Ck_moving l) (set_thread_tasks [] p), None)
      end
  | Ck_moving [] => Some (set_check Ck_loop p, None)
  | Ck_moving (t :: l) =>
      let p := set_check (Ck_moving l) p in
      if (length (fiber_pool_ p) =? 1)%nat then Some (p, Some t)
      else Some (notify_one (set_fiber_tasks (fiber_task_list_ p ++ [t]) p), None)
  | Ck_done => None
  end.

(** ** The steps *)

Inductive event :=
| Ev_schedule (t : T)         (* schedule_task_from_fiber *)
| Ev_schedule_thread (t : T)  (* schedule_task *)
| Ev_fiber (i : nat)          (* the scheduler resumes a worker *)
| Ev_return (i : nat)         (* a task returns *)
| Ev_interrupt (i : nat)      (* a task ends with fiber_interrupted *)
| Ev_check                    (* the scheduler resumes the checking fiber *)
| Ev_stop.

(** The task that is started, if one is. *)
Definition step (e : event) (p : pool) : option (pool * option T) :=
  match e with
  | Ev_schedule t => Some (schedule_task_from_fiber t p, None)
  | Ev_schedule_thread t => Some (schedule_task t p, None)
  | Ev_fiber i =>
      match fiber_pool_ p !! i with Some F_ready => Some (run_fiber i p) | _ => None end
  | Ev_return i =>
      match fiber_pool_ p !! i with Some (F_run _) => Some (task_returns i p, None) | _ => None end
  | Ev_interrupt i =>
      match fiber_pool_ p !! i with Some (F_run _) => Some (task_interrupted i p, None) | _ => None end
  | Ev_check => check_task_fiber_fun p
  | Ev_stop => Some (stop p, None)
  end.

(** A run, with the tasks it starts in the order in which it starts them. *)
Inductive runs (p0 : pool) : list event -> list T -> pool -> Prop :=
| runs_nil : runs p0 [] [] p0
| runs_snoc es ts p e p' o :
    runs p0 es ts p -> step e p = Some (p', o) ->
    runs p0 (es ++ [e]) (ts ++ option_list o) p'.

End Pool.
Arguments fiber : clear implicits.
Arguments pool : clear implicits.
Arguments checker : clear implicits.
Arguments event : clear implicits.
