(* ===== verification/FiberPoolSpec.v ===== *)
(** * What the pool promises

    The invariant of the pool, the order in which tasks start, and when a
    scheduled task finds a fiber. *)

From stdpp Require Import options.
From S2P Require Import Prelude FiberPool.

Section Invariant.
Context {T : Type}.
Implicit Types (t : T) (p : pool T) (f : fiber T).

(** ** Counting fibers *)

Definition is_ready f : bool := match f with F_ready => true | _ => false end.
Definition is_running f : bool := match f with F_run _ => true | _ => false end.
Definition is_check f : bool := match f with F_check => true | _ => false end.
Definition is_done f : bool := match f with F_done => true | _ => false end.

Definition weight (b : bool) : nat := if b then 1 else 0.
Definition count (P : fiber T -> bool) (l : list (fiber T)) : nat :=
  sum_list_with (fun f => weight (P f)) l.

Arguments count : simpl never.

Lemma count_nil P : count P [] = 0%nat.
Proof. done. Qed.

Lemma count_cons P f l : count P (f :: l) = (weight (P f) + count P l)%nat.
Proof. done. Qed.

Lemma count_app P l1 l2 : count P (l1 ++ l2) = (count P l1 + count P l2)%nat.
Proof. apply sum_list_with_app. Qed.

Lemma count_insert P l i f f' : l !! i = Some f ->
  (count P (<[i := f']> l) + weight (P f) = count P l + weight (P f'))%nat.
Proof.
  revert i. induction l as [|g l IH]; intros [|i]; [done|done|..]; cbn [lookup list_lookup].
  - intros [= ->]. change (<[0%nat := f']> (f :: l)) with (f' :: l). rewrite !count_cons. lia.
  - intros H. change (<[S i := f']> (g :: l)) with (g :: <[i := f']> l). rewrite !count_cons.
    specialize (IH i H). lia.
Qed.

Lemma count_replicate P n f : count P (replicate n f) = (n * weight (P f))%nat.
Proof. induction n as [|n IH]; [done|]. cbn [replicate]. rewrite count_cons, IH. lia. Qed.

Lemma count_pos P l : (0 < count P l)%nat -> exists i f, l !! i = Some f /\ P f = true.
Proof.
  induction l as [|g l IH]; [by intros ?%Nat.nlt_0_r|]. rewrite count_cons. destruct (P g) eqn:E.
  - by exists 0%nat, g.
  - intros H. destruct IH as (i & f & Hi & Hf); [done|]. by exists (S i), f.
Qed.

(** ** The invariant *)

(** The condition variable holds exactly the waiting fibers; while one waits,
    there are as many ready fibers as queued tasks, and the pool has not been
    stopped; the counter counts the running fibers and those that a task's
    interruption has ended. *)
Record pool_ok p : Prop := {
  ok_nodup : NoDup (waiting_ p);
  ok_waiting i : i ∈ waiting_ p <-> fiber_pool_ p !! i = Some F_wait;
  ok_served : waiting_ p <> [] ->
    (length (fiber_task_list_ p) <= count is_ready (fiber_pool_ p))%nat /\ need_stop_ p = false;
  ok_running : (count is_running (fiber_pool_ p) <= running_fiber_num_ p
                <= count is_running (fiber_pool_ p) + count is_done (fiber_pool_ p))%nat;
  ok_exact : need_stop_ p = false ->
    running_fiber_num_ p = (count is_running (fiber_pool_ p) + count is_done (fiber_pool_ p))%nat;
  ok_check : (count is_check (fiber_pool_ p) <= 1)%nat;
  ok_single : (length (fiber_pool_ p) <= 1)%nat -> fiber_task_list_ p = [];
  ok_checker : check_ p <> Ck_done -> length (fiber_pool_ p) <> 0%nat
}.

Lemma new_pool_ok : pool_ok new_pool.
Proof.
  split; cbn; rewrite ?count_nil; try done; try lia; [apply NoDup_nil_2|].
  intros i. split; [by intros ?%elem_of_nil|done].
Qed.

Lemma init_ok n : pool_ok (init n).
Proof.
  split; cbn; rewrite ?count_app, ?count_replicate, ?count_cons, ?count_nil; cbn; try done; try lia;
    [apply NoDup_nil_2| |by rewrite length_app; cbn; lia].
  intros i. split; [by intros ?%elem_of_nil|]. intros H.
  apply lookup_app_Some in H as [H|[_ H]]; [by apply lookup_replicate in H as [? _]|].
  by apply list_lookup_singleton_Some in H as [_ ?].
Qed.

(** Steps that leave fibers, waiters, tasks and counters alone. *)
Lemma pool_ok_same p p' : fiber_pool_ p' = fiber_pool_ p -> waiting_ p' = waiting_ p ->
  fiber_task_list_ p' = fiber_task_list_ p -> need_stop_ p' = need_stop_ p ->
  running_fiber_num_ p' = running_fiber_num_ p -> (check_ p = Ck_done -> check_ p' = Ck_done) ->
  pool_ok p -> pool_ok p'.
Proof.
  intros E1 E2 E3 E4 E5 E6 []. split; rewrite ?E1, ?E2, ?E3, ?E4, ?E5; try done.
  intros Hc. apply ok_checker0. intros H. by apply Hc, E6.
Qed.

Lemma MAX_GROW_SIZE_large : (1 < MAX_GROW_SIZE)%nat.
Proof. unfold MAX_GROW_SIZE. lia. Qed.

(** Pushing a task and notifying: what both schedulers do at the end. *)
Lemma push_notify_ok p t : pool_ok p -> (1 < length (fiber_pool_ p))%nat ->
  pool_ok (notify_one (set_fiber_tasks (fiber_task_list_ p ++ [t]) p)).
Proof.
  intros [H1 H2 H3 H4 H5 H6 H7 H8] Hsize. destruct p as [fs w l tl c s r]. cbn in *. unfold notify_one. cbn.
  destruct w as [|i w]; [split; cbn; try done; lia|].
  apply NoDup_cons in H1 as [Hi H1]. destruct (H3 ltac:(done)) as [Hl Hs].
  assert (fs !! i = Some F_wait) as Ei by (apply H2; by left).
  pose proof (count_insert is_ready fs i _ F_ready Ei) as Hr.
  pose proof (count_insert is_running fs i _ F_ready Ei) as Hn.
  pose proof (count_insert is_done fs i _ F_ready Ei) as Hd.
  pose proof (count_insert is_check fs i _ F_ready Ei) as Hc. cbn in Hr, Hn, Hd, Hc.
  split; cbn; [done|..].
  - intros j. rewrite list_lookup_insert_Some. split.
    + intros Hj. right. assert (i <> j) by (by intros ->). split; [done|]. apply H2. by right.
    + intros [(_ & ? & _)|[Hne Hj]]; [done|]. apply H2, elem_of_cons in Hj as [->|Hj]; done.
  - intros _. rewrite length_app. cbn. split; [lia|done].
  - lia.
  - intros _. specialize (H5 Hs). lia.
  - lia.
  - rewrite length_insert. lia.
  - by rewrite length_insert.
Qed.

Lemma grow_ok p n : pool_ok p -> pool_ok (grow n p).
Proof.
  intros [H1 H2 H3 H4 H5 H6 H7 H8]. destruct p as [fs w l tl c s r]. cbn in *. split; cbn; [done|..].
  - intros i. rewrite H2. split.
    + intros H. by apply lookup_app_l_Some.
    + intros H. apply lookup_app_Some in H as [H|[_ H]]; [done|]. by apply lookup_replicate in H as [? _].
  - intros Hw. destruct (H3 Hw). rewrite count_app. split; [lia|done].
  - rewrite !count_app, !count_replicate. cbn. lia.
  - rewrite !count_app, !count_replicate. cbn. intros Hs. specialize (H5 Hs). lia.
  - rewrite count_app, count_replicate. cbn. lia.
  - rewrite length_app. intros Hl. apply H7. lia.
  - rewrite length_app. intros Hl. specialize (H8 Hl). lia.
Qed.

Lemma schedule_grow t p : pool_ok p -> exists n,
  schedule_task_from_fiber t p = notify_one (set_fiber_tasks (fiber_task_list_ (grow n p) ++ [t]) (grow n p))
  /\ (length (fiber_pool_ p) = 0%nat -> n = GROW_SIZE)
  /\ (length (fiber_pool_ p) <> 0%nat -> (n <= length (fiber_pool_ p))%nat)
  /\ (1 < length (fiber_pool_ (grow n p)))%nat
  /\ ((length (fiber_pool_ p) <= MAX_GROW_SIZE)%nat -> (0 < n)%nat \/
        (running_fiber_num_ p < length (fiber_pool_ p) - 1)%nat)
  /\ ((MAX_GROW_SIZE < length (fiber_pool_ p))%nat -> n = 0%nat).
Proof.
  intros Hp. unfold schedule_task_from_fiber. cbn [set_fiber_tasks fiber_pool_ running_fiber_num_].
  assert (forall n, length (fiber_pool_ (grow n p)) = (length (fiber_pool_ p) + n)%nat) as Hlen
    by (intros n; cbn; by rewrite length_app, length_replicate).
  destruct (Nat.eqb_spec (length (fiber_pool_ p)) 0) as [E|E].
  { exists GROW_SIZE. rewrite Hlen. unfold GROW_SIZE. split_and!; [done|done|lia|lia|lia|]. unfold MAX_GROW_SIZE. lia. }
  destruct (Nat.leb_spec (length (fiber_pool_ p) - 1) (running_fiber_num_ p)) as [E1|E1].
  - destruct (Nat.ltb_spec MAX_GROW_SIZE (length (fiber_pool_ p))) as [E2|E2].
    + exists 0%nat. rewrite Hlen. split_and!; [done|done|lia| |lia|done].
      pose proof MAX_GROW_SIZE_large. lia.
    + eexists. rewrite Hlen. split_and!; [done|done|lia|lia|lia|lia].
  - exists 0%nat. split; [unfold grow; cbn; rewrite app_nil_r; by destruct p|].
    rewrite Hlen. split_and!; [done|lia|lia|lia|done].
Qed.

(** Changing the state of a fiber that does not wait. *)
Lemma set_fiber_ok p i f f' r l :
  pool_ok p -> fiber_pool_ p !! i = Some f -> f <> F_wait -> f' <> F_wait ->
  (length l + weight (is_ready f) <= length (fiber_task_list_ p) + weight (is_ready f'))%nat
    \/ waiting_ p = [] ->
  (let run := count is_running (<[i := f']> (fiber_pool_ p)) in
   run <= r <= run + count is_done (<[i := f']> (fiber_pool_ p)) /\
   (need_stop_ p = false -> r = run + count is_done (<[i := f']> (fiber_pool_ p))))%nat ->
  is_check f = is_check f' -> (fiber_task_list_ p = [] -> l = []) ->
  pool_ok (set_running r (set_fiber i f' (set_fiber_tasks l p))).
Proof.
  intros [H1 H2 H3 H4 H5 H6 H7 H8] Hi Hf Hf' Hl Hr Hck Hnil. destruct p as [fs w l0 tl c s r0]. cbn in *.
  pose proof (count_insert is_ready fs i _ f' Hi) as Hc.
  pose proof (count_insert is_check fs i _ f' Hi) as Hk. rewrite Hck in Hk.
  split; cbn; [done|..|apply Hr|apply Hr|lia|rewrite length_insert; intros; by apply Hnil, H7|by rewrite length_insert].
  - intros j. rewrite H2, list_lookup_insert_Some. split.
    + intros Hj. right. split; [|done]. intros ->. congruence.
    + intros [(_ & ? & _)|[_ ?]]; congruence.
  - intros Hw. destruct (H3 Hw). split; [|done]. destruct Hl as [Hl|Hl]; [lia|done].
Qed.

Lemma run_fiber_ok i p : pool_ok p -> fiber_pool_ p !! i = Some F_ready -> pool_ok (fst (run_fiber i p)).
Proof.
  intros Hp Hi. pose proof Hp as [H1 H2 H3 H4 H5 H6 H7 H8]. unfold run_fiber.
  pose proof (fun f' => count_insert is_ready (fiber_pool_ p) i _ f' Hi) as Hr.
  pose proof (fun f' => count_insert is_running (fiber_pool_ p) i _ f' Hi) as Hn.
  pose proof (fun f' => count_insert is_done (fiber_pool_ p) i _ f' Hi) as Hd. cbn in Hr, Hn, Hd.
  destruct (need_stop_ p) eqn:Es; [|destruct (fiber_task_list_ p) as [|t l] eqn:El]; cbn [fst].
  - assert (set_fiber i F_done p
      = set_running (running_fiber_num_ p) (set_fiber i F_done (set_fiber_tasks (fiber_task_list_ p) p))) as ->
      by by destruct p.
    eapply set_fiber_ok; [done|exact Hi|done|done|..].
    + right. destruct (waiting_ p) eqn:Ew; [done|]. by destruct (H3 ltac:(done)) as [_ ?].
    + cbn. specialize (Hn F_done). specialize (Hd F_done). cbn in Hn, Hd. split; [lia|congruence].
    + done.
    + done.
  - specialize (Hr F_wait). specialize (Hn F_wait). specialize (Hd F_wait). cbn in *.
    destruct p as [fs w l0 tl c s r]. cbn in *. subst. split; cbn.
    + apply NoDup_app. split; [done|]. split; [|apply NoDup_singleton].
      intros j Hj. rewrite list_elem_of_singleton. intros ->. apply H2 in Hj. congruence.
    + intros j. rewrite elem_of_app, list_elem_of_singleton, list_lookup_insert_Some, H2. split.
      * intros [Hj| ->]; [right; split; [|done]; intros ->; congruence|left].
        split_and!; [done|done|]. by eapply lookup_lt_Some.
      * intros [(-> & _)|[_ ?]]; [by right|by left].
    + intros _. split; [lia|done].
    + lia.
    + intros _. specialize (H5 eq_refl). lia.
    + pose proof (count_insert is_check fs i _ F_wait Hi) as Hk. cbn in Hk. lia.
    + by rewrite length_insert.
    + by rewrite length_insert.
  - eapply set_fiber_ok; [done|exact Hi|done|done|..].
    + left. rewrite El. cbn. lia.
    + cbn. specialize (Hn (F_run t)). specialize (Hd (F_run t)). cbn in Hn, Hd.
      split; [lia|]. intros _. specialize (H5 eq_refl). lia.
    + done.
    + by rewrite El.
Qed.

Lemma stop_facts p : pool_ok p ->
  let p' := stop p in
  (forall i, fiber_pool_ p' !! i <> Some F_wait) /\ waiting_ p' = [] /\ need_stop_ p' = true
  /\ fiber_task_list_ p' = fiber_task_list_ p /\ thread_task_list_ p' = thread_task_list_ p
  /\ check_ p' = check_ p /\ running_fiber_num_ p' = running_fiber_num_ p
  /\ length (fiber_pool_ p') = length (fiber_pool_ p)
  /\ count is_running (fiber_pool_ p') = count is_running (fiber_pool_ p)
  /\ count is_done (fiber_pool_ p') = count is_done (fiber_pool_ p)
  /\ count is_check (fiber_pool_ p') = count is_check (fiber_pool_ p).
Proof.
  intros [H1 H2 _ _ _ _ _ _]. unfold stop, notify_all. cbn [waiting_].
  set (p0 := set_waiting [] _).
  assert (forall i, i ∈ waiting_ p <-> fiber_pool_ p0 !! i = Some F_wait) as H2' by done.
  assert (waiting_ p0 = [] /\ need_stop_ p0 = true /\ fiber_task_list_ p0 = fiber_task_list_ p
    /\ thread_task_list_ p0 = thread_task_list_ p /\ check_ p0 = check_ p
    /\ running_fiber_num_ p0 = running_fiber_num_ p /\ length (fiber_pool_ p0) = length (fiber_pool_ p)
    /\ count is_running (fiber_pool_ p0) = count is_running (fiber_pool_ p)
    /\ count is_done (fiber_pool_ p0) = count is_done (fiber_pool_ p)
    /\ count is_check (fiber_pool_ p0) = count is_check (fiber_pool_ p)) as Hsame by done.
  clearbody p0. clear H2. revert p0 H2' Hsame. induction (waiting_ p) as [|i w IH]; intros p0 H2 Hsame.
  - cbn. split; [|done]. intros i Hi. apply H2 in Hi. by apply elem_of_nil in Hi.
  - apply NoDup_cons in H1 as [Hi H1]. cbn [foldl]. apply (IH H1).
    + intros j. cbn. rewrite list_lookup_insert_Some. split.
      * intros Hj. right. assert (i <> j) by (by intros ->). split; [done|]. apply H2. by right.
      * intros [(_ & ? & _)|[Hne Hj]]; [done|]. apply H2, elem_of_cons in Hj as [->|Hj]; done.
    + assert (fiber_pool_ p0 !! i = Some F_wait) as Ei by (apply H2; by left).
      pose proof (count_insert is_running _ i _ F_ready Ei) as Hn.
      pose proof (count_insert is_done _ i _ F_ready Ei) as Hd.
      pose proof (count_insert is_check _ i _ F_ready Ei) as Hk. cbn in Hn, Hd, Hk.
      destruct Hsame as (? & ? & ? & ? & ? & ? & ? & ? & ? & ?). cbn. rewrite length_insert.
      split_and!; try done; lia.
Qed.

Lemma stop_ok p : pool_ok p -> pool_ok (stop p).
Proof.
  intros Hp. destruct (stop_facts p Hp) as (Hf & Hw & Hs & Hl & Ht & Hc & Hr & Hlen & Hn & Hd & Hk).
  split.
  - rewrite Hw. constructor.
  - intros i. rewrite Hw. split; [by intros ?%elem_of_nil|]. intros H. by apply Hf in H.
  - by rewrite Hw.
  - rewrite Hr, Hn, Hd. apply (ok_running _ Hp).
  - by rewrite Hs.
  - rewrite Hk. apply (ok_check _ Hp).
  - rewrite Hl, Hlen. apply (ok_single _ Hp).
  - rewrite Hc, Hlen. apply (ok_checker _ Hp).
Qed.

Lemma step_ok e p p' o : pool_ok p -> step e p = Some (p', o) -> pool_ok p'.
Proof.
  intros Hp Hs. destruct e as [t|t|i|i|i| |]; cbn [step] in Hs.
  - injection Hs as <- <-. destruct (schedule_grow t p Hp) as (n & -> & _ & _ & H1 & _).
    by apply push_notify_ok; [apply grow_ok|].
  - injection Hs as <- <-. by eapply pool_ok_same; [..|exact Hp].
  - destruct (fiber_pool_ p !! i) as [[]|] eqn:Ei; try done.
    apply (inj Some) in Hs. pose proof (run_fiber_ok i p Hp Ei) as H. by rewrite Hs in H.
  - destruct (fiber_pool_ p !! i) as [[| |t| |]|] eqn:Ei; try done. injection Hs as <- <-.
    pose proof (count_insert is_running _ i _ F_ready Ei) as Hn.
    pose proof (count_insert is_done _ i _ F_ready Ei) as Hd. pose proof (ok_running _ Hp) as Hr. cbn in *.
    assert (task_returns i p = set_running (running_fiber_num_ p - 1)
              (set_fiber i F_ready (set_fiber_tasks (fiber_task_list_ p) p))) as -> by by destruct p.
    eapply set_fiber_ok; [done|exact Ei|done|done|left; cbn; lia| |done|done].
    cbn. split; [lia|]. intros Hs. pose proof (ok_exact _ Hp Hs). lia.
  - destruct (fiber_pool_ p !! i) as [[| |t| |]|] eqn:Ei; try done. injection Hs as <- <-.
    pose proof (count_insert is_running _ i _ F_done Ei) as Hn.
    pose proof (count_insert is_done _ i _ F_done Ei) as Hd. pose proof (ok_running _ Hp) as Hr. cbn in *.
    assert (task_interrupted i p = set_running (running_fiber_num_ p)
              (set_fiber i F_done (set_fiber_tasks (fiber_task_list_ p) p))) as -> by by destruct p.
    eapply set_fiber_ok; [done|exact Ei|done|done|left; cbn; lia| |done|done].
    cbn. split; [lia|]. intros Hs. pose proof (ok_exact _ Hp Hs). lia.
  - unfold check_task_fiber_fun in Hs.
    assert (forall c l, check_ p <> Ck_done -> pool_ok (set_check c (set_thread_tasks l p))) as Hset
      by (intros c l Hc; by eapply pool_ok_same; [..|exact Hp]).
    assert (forall c, check_ p <> Ck_done -> pool_ok (set_check c p)) as Hset'
      by (intros c Hc; by eapply pool_ok_same; [..|exact Hp]).
    destruct (check_ p) as [| | |[|t l]|] eqn:Ec; try done.
    { destruct (fiber_task_list_ p), (thread_task_list_ p); injection Hs as <- <-; try destruct (need_stop_ p); auto. }
    { destruct (need_stop_ p); injection Hs as <- <-; auto. }
    { destruct (thread_task_list_ p); injection Hs as <- <-; auto. }
    { injection Hs as <- <-; auto. }
    cbn [set_check fiber_pool_] in Hs.
    destruct (Nat.eqb_spec (length (fiber_pool_ p)) 1) as [E|E]; injection Hs as <- <-;
      [by apply Hset'|].
    assert (length (fiber_pool_ p) <> 0%nat) by (apply (ok_checker _ Hp); by rewrite Ec).
    apply (push_notify_ok (set_check (Ck_moving l) p) t); [by apply Hset'|cbn; lia].
  - injection Hs as <- <-. by apply stop_ok.
Qed.

Lemma runs_ok p0 es ts p : pool_ok p0 -> runs p0 es ts p -> pool_ok p.
Proof. intros Hp. induction 1 as [|es ts p e p' o _ IH Hs]; [done|]. by eapply step_ok. Qed.

(** The pools the program creates. *)
Definition initial p : Prop := p = new_pool \/ exists n, p = init n.

Lemma initial_ok p : initial p -> pool_ok p.
Proof. intros [->|(n & ->)]; [apply new_pool_ok|apply init_ok]. Qed.

(** ** Tasks *)

Definition moving p : list T := match check_ p with Ck_moving l => l | _ => [] end.

Definition from_fibers (e : event T) : list T := match e with Ev_schedule t => [t] | _ => [] end.
Definition from_threads (e : event T) : list T := match e with Ev_schedule_thread t => [t] | _ => [] end.

Lemma notify_one_same p : fiber_task_list_ (notify_one p) = fiber_task_list_ p
  /\ thread_task_list_ (notify_one p) = thread_task_list_ p /\ check_ (notify_one p) = check_ p
  /\ need_stop_ (notify_one p) = need_stop_ p /\ length (fiber_pool_ (notify_one p)) = length (fiber_pool_ p).
Proof. unfold notify_one. destruct (waiting_ p); [done|]. cbn. by rewrite length_insert. Qed.

(** The tasks of a source, by a predicate that tells them apart. *)
Section Sources.
Context (is_thread : T -> bool).

Definition of_threads (l : list T) : list T := List.filter is_thread l.
Definition of_fibers (l : list T) : list T := List.filter (fun t => negb (is_thread t)) l.

(** The events schedule tasks of their source. *)
Definition sourced (e : event T) : Prop :=
  match e with
  | Ev_schedule t => is_thread t = false
  | Ev_schedule_thread t => is_thread t = true
  | _ => True
  end.

Lemma of_threads_app l1 l2 : of_threads (l1 ++ l2) = of_threads l1 ++ of_threads l2.
Proof. apply List.filter_app. Qed.
Lemma of_fibers_app l1 l2 : of_fibers (l1 ++ l2) = of_fibers l1 ++ of_fibers l2.
Proof. apply List.filter_app. Qed.

(** Started, queued, being moved and waiting tasks, by source. *)
Definition thread_line (ts : list T) p : list T :=
  of_threads ts ++ of_threads (fiber_task_list_ p) ++ moving p ++ thread_task_list_ p.
Definition fiber_line (ts : list T) p : list T := of_fibers ts ++ of_fibers (fiber_task_list_ p).

Definition all_thread (l : list T) : Prop := Forall (fun t => is_thread t = true) l.

Lemma of_threads_one t : of_threads [t] = if is_thread t then [t] else [].
Proof. done. Qed.
Lemma of_fibers_one t : of_fibers [t] = if is_thread t then [] else [t].
Proof. cbn. by destruct (is_thread t). Qed.

Lemma step_lines e p p' o ts :
  pool_ok p -> sourced e -> all_thread (moving p ++ thread_task_list_ p) -> step e p = Some (p', o) ->
  thread_line (ts ++ option_list o) p' = thread_line ts p ++ from_threads e
  /\ fiber_line (ts ++ option_list o) p' = fiber_line ts p ++ from_fibers e
  /\ all_thread (moving p' ++ thread_task_list_ p').
Proof.
  intros Hp Hsrc Hall Hs. unfold thread_line, fiber_line, moving in *.
  destruct e as [t|t|i|i|i| |]; cbn [step sourced from_threads from_fibers] in *.
  - injection Hs as <- <-. destruct (schedule_grow t p Hp) as (n & -> & _).
    destruct (notify_one_same (set_fiber_tasks (fiber_task_list_ (grow n p) ++ [t]) (grow n p)))
      as (-> & -> & -> & _). cbn [option_list set_fiber_tasks grow fiber_task_list_ thread_task_list_ check_].
    rewrite !app_nil_r, of_threads_app, of_fibers_app, of_threads_one, of_fibers_one, Hsrc, ?app_nil_r.
    split_and!; [done|by rewrite (assoc_L (++))|done].
  - injection Hs as <- <-. cbn. rewrite !app_nil_r, !(assoc_L (++)). split_and!; [done|done|].
    rewrite <- (assoc_L (++)) in *. rewrite (assoc_L (++)). apply Forall_app. split; [exact Hall|by repeat constructor].
  - destruct (fiber_pool_ p !! i) as [[]|]; try done. apply (inj Some) in Hs. unfold run_fiber in Hs.
    destruct (need_stop_ p); [injection Hs as <- <-; cbn; by rewrite !app_nil_r|].
    destruct (fiber_task_list_ p) as [|t l] eqn:El; injection Hs as <- <-; cbn [option_list];
      cbn [set_waiting set_fiber set_running set_fiber_tasks fiber_task_list_ thread_task_list_ check_];
      [rewrite El, !app_nil_r; done|].
    change (t :: l) with ([t] ++ l). rewrite !of_threads_app, !of_fibers_app, <- !(assoc_L (++)).
    by rewrite !app_nil_r.
  - destruct (fiber_pool_ p !! i) as [[| |t| |]|]; try done. injection Hs as <- <-. cbn. by rewrite !app_nil_r.
  - destruct (fiber_pool_ p !! i) as [[| |t| |]|]; try done. injection Hs as <- <-. cbn. by rewrite !app_nil_r.
  - rewrite !app_nil_r. unfold check_task_fiber_fun in Hs.
    destruct (check_ p) as [| | |[|t l]|] eqn:Ec; try done.
    + destruct (fiber_task_list_ p) eqn:El, (thread_task_list_ p) eqn:Et; injection Hs as <- <-;
        try destruct (need_stop_ p); cbn; rewrite ?El, ?Et, ?Ec, ?app_nil_r; split_and!; try done;
        by rewrite app_nil_r in *.
    + destruct (need_stop_ p); injection Hs as <- <-; cbn; by rewrite ?app_nil_r.
    + destruct (thread_task_list_ p) eqn:Et; injection Hs as <- <-; cbn; rewrite ?Et, ?app_nil_r; split_and!; try done;
        by rewrite app_nil_r in *.
    + injection Hs as <- <-. cbn. by rewrite ?app_nil_r.
    + cbn [set_check fiber_pool_ fiber_task_list_] in Hs.
      pose proof Hall as [Ht Hl]%Forall_cons.
      destruct (Nat.eqb_spec (length (fiber_pool_ p)) 1) as [E|E]; injection Hs as <- <-.
      * cbn. rewrite (ok_single _ Hp) by lia.
        rewrite of_threads_app, of_fibers_app, of_threads_one, of_fibers_one, Ht, <- !(assoc_L (++)). done.
      * destruct (notify_one_same (set_fiber_tasks (fiber_task_list_ p ++ [t]) (set_check (Ck_moving l) p)))
          as (-> & -> & -> & _). cbn.
        rewrite app_nil_r, of_threads_app, of_fibers_app, of_threads_one, of_fibers_one, Ht, <- !(assoc_L (++)).
        by rewrite app_nil_r.
  - injection Hs as <- <-. destruct (stop_facts p Hp) as (_ & _ & _ & -> & -> & -> & _).
    cbn. by rewrite !app_nil_r.
Qed.

Lemma runs_lines p0 es ts p : initial p0 -> runs p0 es ts p -> Forall sourced es ->
  thread_line ts p = (es ≫= from_threads) /\ fiber_line ts p = (es ≫= from_fibers)
  /\ all_thread (moving p ++ thread_task_list_ p).
Proof.
  intros Hi. induction 1 as [|es ts p e p' o Hr IH Hs].
  - intros _. destruct Hi as [->|(n & ->)]; split_and!; try done; constructor.
  - intros [Hes [He _]%Forall_cons]%Forall_app. destruct (IH Hes) as (H1 & H2 & H3).
    destruct (step_lines e p p' o ts) as (E1 & E2 & E3); [by eapply runs_ok, Hr; apply initial_ok|done..|].
    rewrite E1, E2, H1, H2, !bind_app. cbn. by rewrite !app_nil_r.
Qed.

End Sources.
End Invariant.

(** C33: every task runs once, in order.  In every run of a pool, with
    tasks scheduled from its fibers and from other threads, interrupted tasks
    and a stop, the tasks of each source that have been started, followed by
    those in the lists of the pool, are exactly those that were scheduled, in
    the order in which they were scheduled: none is lost, none starts twice,
    and none overtakes another one of the same source. *)
Theorem tasks_start_once_in_order {T} (is_thread : T -> bool) p0 es ts p :
  initial p0 -> runs p0 es ts p -> Forall (sourced is_thread) es ->
  of_threads is_thread ts ++ of_threads is_thread (fiber_task_list_ p) ++ moving p ++ thread_task_list_ p
    = (es ≫= from_threads)
  /\ of_fibers is_thread ts ++ of_fibers is_thread (fiber_task_list_ p) = (es ≫= from_fibers).
Proof. intros Hi Hr Hs. by destruct (runs_lines is_thread p0 es ts p Hi Hr Hs) as (? & ? & _). Qed.

(** ** Progress *)

Section Progress.
Context {T : Type}.
Implicit Types (t : T) (p : pool T) (f : fiber T).

Definition is_idle f : bool := match f with F_ready | F_wait => true | _ => false end.

Lemma count_total (l : list (fiber T)) :
  (count is_idle l + count is_running l + count is_done l + count is_check l)%nat = length l.
Proof.
  induction l as [|f l IH]; [done|]. rewrite !count_cons. cbn [length].
  destruct f; cbn [is_idle is_running is_done is_check weight]; lia.
Qed.

Lemma idle_fiber (l : list (fiber T)) : (0 < count is_idle l)%nat ->
  exists i, l !! i = Some F_ready \/ l !! i = Some F_wait.
Proof.
  intros H. destruct (count_pos is_idle l H) as (i & [] & Hi & Hf); try done; exists i; [by left|by right].
Qed.

(** With a queued task, an idle fiber means that a fiber is ready to take it. *)
Lemma ready_fiber p : pool_ok p -> fiber_task_list_ p <> [] ->
  (0 < count is_idle (fiber_pool_ p))%nat -> exists i, fiber_pool_ p !! i = Some F_ready.
Proof.
  intros Hp Ht Hi. destruct (idle_fiber _ Hi) as (i & [H|H]); [by exists i|].
  assert (waiting_ p <> []) as Hw.
  { intros E. apply (ok_waiting _ Hp) in H. rewrite E in H. by apply elem_of_nil in H. }
  destruct (ok_served _ Hp Hw) as [Hs _].
  destruct (count_pos is_ready (fiber_pool_ p)) as (j & [] & Hj & Hf); try done; [|by exists j].
  destruct (fiber_task_list_ p); [done|]. cbn in Hs. lia.
Qed.

(** Resuming a ready fiber starts the oldest task. *)
Lemma ready_starts p i : need_stop_ p = false -> fiber_pool_ p !! i = Some F_ready ->
  fiber_task_list_ p <> [] ->
  exists t l p', fiber_task_list_ p = t :: l /\ step (Ev_fiber i) p = Some (p', Some t)
    /\ fiber_task_list_ p' = l /\ fiber_pool_ p' !! i = Some (F_run t).
Proof.
  intros Hs Hi Ht. cbn [step]. rewrite Hi. unfold run_fiber. rewrite Hs.
  destruct (fiber_task_list_ p) as [|t l]; [done|]. eexists t, l, _. split_and!; [done|done|done|].
  cbn. apply list_lookup_insert_eq. by eapply lookup_lt_Some.
Qed.

Lemma scheduled_idle t p : pool_ok p -> need_stop_ p = false ->
  (length (fiber_pool_ p) <= MAX_GROW_SIZE)%nat ->
  (0 < count is_idle (fiber_pool_ (schedule_task_from_fiber t p)))%nat.
Proof.
  intros Hp Hs Hsize. destruct (schedule_grow t p Hp) as (n & -> & _ & _ & Hl & Hn & _).
  set (p1 := set_fiber_tasks _ _).
  assert (waiting_ p1 = waiting_ p /\ fiber_pool_ p1 = fiber_pool_ p ++ replicate n F_ready) as [Ew Ef] by done.
  clearbody p1.
  assert (0 < count is_idle (fiber_pool_ p1))%nat as Hi.
  { rewrite Ef, count_app, count_replicate. cbn. destruct (Hn Hsize) as [H|H]; [lia|].
    pose proof (count_total (fiber_pool_ p)) as Htot. pose proof (ok_exact _ Hp Hs). pose proof (ok_check _ Hp). lia. }
  unfold notify_one. destruct (waiting_ p1) as [|i w] eqn:E; [done|]. cbn [set_fiber set_waiting fiber_pool_].
  assert (fiber_pool_ p1 !! i = Some F_wait) as Ei.
  { rewrite Ef. apply lookup_app_l_Some. apply (ok_waiting _ Hp). rewrite <- Ew. by left. }
  pose proof (count_insert is_idle _ i _ F_ready Ei) as H. cbn in H. lia.
Qed.

(** Before a stop, only the interruption of its task ends a worker. *)
Lemma notify_done p i : fiber_pool_ (notify_one p) !! i = Some F_done -> fiber_pool_ p !! i = Some F_done.
Proof.
  unfold notify_one. destruct (waiting_ p) as [|j w]; [done|]. cbn. intros [(_ & ? & _)|[_ ?]]%list_lookup_insert_Some; done.
Qed.

Lemma grow_done n p i : fiber_pool_ (grow n p) !! i = Some F_done -> fiber_pool_ p !! i = Some F_done.
Proof. cbn. intros [?|[_ [? _]%lookup_replicate]]%lookup_app_Some; done. Qed.

Lemma notify_stop p : need_stop_ (notify_one p) = need_stop_ p.
Proof. unfold notify_one. by destruct (waiting_ p). Qed.

Lemma schedule_done t p i : need_stop_ (schedule_task_from_fiber t p) = need_stop_ p /\
  (fiber_pool_ (schedule_task_from_fiber t p) !! i = Some F_done -> fiber_pool_ p !! i = Some F_done).
Proof.
  unfold schedule_task_from_fiber. split.
  - rewrite notify_stop. by repeat case_match.
  - intros Hd%notify_done. repeat case_match; try apply grow_done in Hd; exact Hd.
Qed.

Lemma check_done p p' o i : check_task_fiber_fun p = Some (p', o) -> need_stop_ p' = need_stop_ p /\ (fiber_pool_ p' !! i = Some F_done -> fiber_pool_ p !! i = Some F_done).
Proof.
  unfold check_task_fiber_fun. intros E. repeat case_match; try done; injection E as <- <-; try done.
  split; [by rewrite notify_stop|by intros ?%notify_done].
Qed.

Lemma step_done e p p' o i : pool_ok p -> step e p = Some (p', o) -> need_stop_ p' = false ->
  need_stop_ p = false /\ (fiber_pool_ p' !! i = Some F_done -> fiber_pool_ p !! i = Some F_done \/ e = Ev_interrupt i).
Proof.
  intros Hp Hs Hn. destruct e; cbn [step] in Hs.
  - injection Hs as <- <-. destruct (schedule_done t p i) as [E H]. rewrite E in Hn. auto.
  - injection Hs as <- <-. auto.
  - destruct (fiber_pool_ p !! i0) as [[]|]; try done. unfold run_fiber in Hs. destruct (need_stop_ p) eqn:E; [injection Hs as <- <-; cbn in Hn; congruence|].
    split; [done|]. destruct (fiber_task_list_ p); injection Hs as <- <-; cbn; intros [(_ & ? & _)|[_ ?]]%list_lookup_insert_Some; first [done|by left|by right].
  - destruct (fiber_pool_ p !! i0) as [[]|]; try done. injection Hs as <- <-. split; [done|]. cbn. intros [(_ & ? & _)|[_ ?]]%list_lookup_insert_Some; first [done|by left|by right].
  - destruct (fiber_pool_ p !! i0) as [[]|]; try done. injection Hs as <- <-. split; [done|]. cbn. intros [(-> & _ & _)|[_ ?]]%list_lookup_insert_Some; first [done|by left|by right].
  - destruct (check_done p p' o i Hs) as [E H]. rewrite E in Hn. auto.
  - injection Hs as <- <-. destruct (stop_facts p Hp) as (_ & _ & Hst & _). congruence.
Qed.

Lemma done_interrupted p0 es ts p i : initial p0 -> runs p0 es ts p -> need_stop_ p = false -> fiber_pool_ p !! i = Some F_done -> Ev_interrupt i ∈ es.
Proof.
  intros Hi Hr. induction Hr as [|es ts p e p' o Hr IH Hs]; intros Hn Hd.
  - exfalso. destruct Hi as [->|[n ->]]; cbn in Hd; [done|]. apply lookup_app_Some in Hd as [[? _]%lookup_replicate|[_ [_ ?]%list_lookup_singleton_Some]]; done.
  - destruct (step_done e p p' o i) as [Hn' H]; [by eapply runs_ok; [apply initial_ok|]|done|done|]. apply elem_of_app. destruct (H Hd) as [Hd'| ->]; [left; by apply IH|right; by left].
Qed.

Lemma count_split P (l : list (fiber T)) : (count P l + count (fun f => negb (P f)) l = length l)%nat.
Proof. induction l as [|f l IH]; [done|]. rewrite !count_cons. cbn [length]. destruct (P f); cbn; lia. Qed.

(** A queued task means that there is a worker. *)
Lemma queued_worker p : pool_ok p -> fiber_task_list_ p <> [] -> exists i f, fiber_pool_ p !! i = Some f /\ f <> F_check.
Proof.
  intros Hp Ht. pose proof (count_total (fiber_pool_ p)) as Htot. pose proof (ok_check _ Hp) as Hc.
  assert (1 < length (fiber_pool_ p))%nat as Hl.
  { destruct (decide (length (fiber_pool_ p) <= 1)%nat) as [Hl|Hl]; [by destruct Ht; apply (ok_single _ Hp)|lia]. }
  assert (0 < count (fun f => negb (is_check f)) (fiber_pool_ p))%nat as Hn.
  { pose proof (count_split is_check (fiber_pool_ p)). lia. }
  destruct (count_pos _ _ Hn) as (i & f & Hf & Hk). exists i, f. split; [done|]. by intros ->.
Qed.

End Progress.

(** C34: no queued task is forgotten.  In every state a pool can reach before
    it is stopped, if a task is queued, either a fiber is ready which will
    start the oldest one when it is resumed, or the pool has workers and every
    one of them is running a task, unless the interruption of its task has
    ended it. *)
Theorem no_task_stranded {T} p0 es ts (p : pool T) :
  initial p0 -> runs p0 es ts p -> need_stop_ p = false -> fiber_task_list_ p <> [] ->
  (exists i t l p', fiber_task_list_ p = t :: l /\ step (Ev_fiber i) p = Some (p', Some t)
     /\ fiber_task_list_ p' = l /\ fiber_pool_ p' !! i = Some (F_run t))
  \/ (forall i f, fiber_pool_ p !! i = Some f -> f <> F_check -> (exists t, f = F_run t) \/ (f = F_done /\ Ev_interrupt i ∈ es))
     /\ exists i f, fiber_pool_ p !! i = Some f /\ f <> F_check.
Proof.
  intros Hi Hr Hs Ht. pose proof (runs_ok _ _ _ _ (initial_ok _ Hi) Hr) as Hp.
  destruct (decide (count is_idle (fiber_pool_ p) = 0%nat)) as [E|E].
  - right. split; [|by apply queued_worker]. intros i f Hf Hc.
    pose proof (count_insert is_idle _ i _ F_done Hf) as H. destruct f; cbn in H; [lia|lia|by left; eexists| |done].
    right. split; [done|by eapply done_interrupted].
  - left. destruct (ready_fiber p Hp Ht) as [i Hf]; [lia|]. exists i. by apply ready_starts.
Qed.

(** The pool grows before it runs out of fibers.  As long as it has at most
    [MAX_GROW_SIZE] fibers, a task scheduled from a fiber leaves at least one
    fiber ready to take the oldest queued task, even when all the others wait
    inside their tasks: a task may wait for tasks it schedules. *)
Theorem scheduling_leaves_ready_fiber {T} p0 es ts (p : pool T) t :
  initial p0 -> runs p0 es ts p -> need_stop_ p = false ->
  (length (fiber_pool_ p) <= MAX_GROW_SIZE)%nat ->
  exists p1 i t' p2, step (Ev_schedule t) p = Some (p1, None)
    /\ head (fiber_task_list_ p1) = Some t'
    /\ step (Ev_fiber i) p1 = Some (p2, Some t').
Proof.
  intros Hi Hr Hs Hsize. pose proof (runs_ok _ _ _ _ (initial_ok _ Hi) Hr) as Hp.
  pose proof (step_ok (Ev_schedule t) p _ None Hp eq_refl) as Hp1.
  pose proof (scheduled_idle t p Hp Hs Hsize) as Hidle. cbn [step]. set (p1 := schedule_task_from_fiber t p) in *.
  assert (fiber_task_list_ p1 = fiber_task_list_ p ++ [t] /\ need_stop_ p1 = false) as [El Es].
  { subst p1. destruct (schedule_grow t p Hp) as (n & -> & _).
    destruct (notify_one_same (set_fiber_tasks (fiber_task_list_ (grow n p) ++ [t]) (grow n p)))
      as (-> & _ & _ & -> & _). done. }
  assert (fiber_task_list_ p1 <> []) as Hne by (rewrite El; by destruct (fiber_task_list_ p)).
  destruct (ready_fiber p1 Hp1 Hne Hidle) as [i Hf].
  destruct (ready_starts p1 i Es Hf Hne) as (t' & l & p2 & E1 & E2 & _).
  exists p1, i, t', p2. split_and!; [done|by rewrite E1|done].
Qed.
