(* ===== verification/FiberPoolLimit.v ===== *)
(** * The size of a pool, and what happens at its limit *)

From stdpp Require Import options.
From S2P Require Import Prelude FiberPool FiberPoolSpec.

Section Limit.
Context {T : Type}.
Implicit Types (t : T) (p : pool T) (f : fiber T).

(** ** The size *)

(** The sizes of a pool that grows on demand: [GROW_SIZE] doubled. *)
Definition doubled (j : nat) : nat := (GROW_SIZE * 2 ^ j)%nat.

Lemma doubled_S j : doubled (S j) = (doubled j + doubled j)%nat.
Proof. unfold doubled. rewrite Nat.pow_succ_r'. lia. Qed.

Lemma doubled_mono i j : (i <= j)%nat -> (doubled i <= doubled j)%nat.
Proof. intros H. apply Nat.mul_le_mono_l, Nat.pow_le_mono_r; lia. Qed.

Lemma doubled_pos j : (2 <= doubled j)%nat.
Proof. pose proof (doubled_mono 0 j ltac:(lia)) as H. change (doubled 0) with 10%nat in H. lia. Qed.

Lemma doubled_small : (doubled 10 <= MAX_GROW_SIZE)%nat.
Proof. apply Nat.leb_le. vm_compute. reflexivity. Qed.

Lemma doubled_large : (MAX_GROW_SIZE < doubled 11)%nat.
Proof. apply Nat.ltb_lt. vm_compute. reflexivity. Qed.

Lemma small_doubled j : (doubled j <= MAX_GROW_SIZE)%nat -> (j <= 10)%nat.
Proof.
  intros H. destruct (decide (j <= 10)%nat) as [|Hj]; [done|].
  pose proof (doubled_mono 11 j ltac:(lia)). pose proof doubled_large. lia.
Qed.

Definition pool_size_ok p : Prop :=
  length (fiber_pool_ p) = 0%nat \/ exists j, (j <= 11)%nat /\ length (fiber_pool_ p) = doubled j.

Lemma schedule_size t p : length (fiber_pool_ (schedule_task_from_fiber t p))
  = (length (fiber_pool_ p) +
     if (length (fiber_pool_ p) =? 0)%nat then GROW_SIZE
     else if (length (fiber_pool_ p) - 1 <=? running_fiber_num_ p)%nat then
       if (MAX_GROW_SIZE <? length (fiber_pool_ p))%nat then 0 else length (fiber_pool_ p)
     else 0)%nat.
Proof.
  unfold schedule_task_from_fiber. cbn [set_fiber_tasks fiber_pool_ running_fiber_num_].
  match goal with |- length (fiber_pool_ (notify_one ?q)) = _ =>
    destruct (notify_one_same q) as (_ & _ & _ & _ & ->) end.
  destruct (_ =? 0)%nat; [|destruct (_ <=? _)%nat; [destruct (_ <? _)%nat|]];
    cbn [grow fiber_pool_ set_fiber_tasks]; rewrite ?length_app, ?length_replicate; lia.
Qed.

Lemma step_size e p p' o : pool_ok p -> step e p = Some (p', o) ->
  (forall t, e <> Ev_schedule t) -> length (fiber_pool_ p') = length (fiber_pool_ p).
Proof.
  intros Hp Hs He. destruct e as [t|t|i|i|i| |]; cbn [step] in Hs; [by destruct (He t)|..].
  - by injection Hs as <- <-.
  - destruct (fiber_pool_ p !! i) as [[]|]; try done. apply (inj Some) in Hs. unfold run_fiber in Hs.
    destruct (need_stop_ p), (fiber_task_list_ p); injection Hs as <- <-; cbn; by rewrite length_insert.
  - destruct (fiber_pool_ p !! i) as [[]|]; try done. injection Hs as <- <-. cbn. by rewrite length_insert.
  - destruct (fiber_pool_ p !! i) as [[]|]; try done. injection Hs as <- <-. cbn. by rewrite length_insert.
  - unfold check_task_fiber_fun in Hs. repeat case_match; simplify_eq; try done.
    by match goal with |- length (fiber_pool_ (notify_one ?q)) = _ =>
      destruct (notify_one_same q) as (_ & _ & _ & _ & ->) end.
  - injection Hs as <- <-. by destruct (stop_facts p Hp) as (_ & _ & _ & _ & _ & _ & _ & -> & _).
Qed.

Lemma step_size_ok e p p' o : pool_ok p -> pool_size_ok p -> step e p = Some (p', o) -> pool_size_ok p'.
Proof.
  intros Hp Hsz Hs. destruct e as [t|t|i|i|i| |];
    try (unfold pool_size_ok in *; by rewrite (step_size _ _ _ _ Hp Hs)).
  injection Hs as <- <-. unfold pool_size_ok. rewrite schedule_size.
  destruct (Nat.eqb_spec (length (fiber_pool_ p)) 0) as [E|E].
  - right. exists 0%nat. rewrite E. split; [lia|done].
  - destruct Hsz as [Hsz|(j & Hj & Hsz)]; [done|].
    destruct (Nat.leb_spec (length (fiber_pool_ p) - 1) (running_fiber_num_ p)).
    + destruct (Nat.ltb_spec MAX_GROW_SIZE (length (fiber_pool_ p))) as [_|H1].
      * right. exists j. split; [done|lia].
      * right. exists (S j). rewrite Hsz, doubled_S. split; [|done].
        rewrite Hsz in H1. apply small_doubled in H1. lia.
    + right. exists j. split; [done|lia].
Qed.

Lemma runs_size es ts p : runs new_pool es ts p -> pool_size_ok p.
Proof.
  enough (forall p0, runs p0 es ts p -> p0 = new_pool -> pool_ok p /\ pool_size_ok p) as H
    by (intros Hr; by apply (H new_pool)).
  intros p0. induction 1 as [|es ts p e p' o Hr IH Hs]; intros ->; [split; [apply new_pool_ok|by left]|].
  destruct (IH eq_refl) as [H1 H2]. split; [by eapply step_ok|by eapply step_size_ok].
Qed.

(** ** A full pool *)

(** [k] fibers run [t], the others are ready, nothing is queued. *)
Definition filled t (k m : nat) : pool T :=
  mk_pool (replicate k (F_run t) ++ replicate (m - k) F_ready) [] [] [] Ck_done false k.

Definition reached p : Prop := exists es ts, runs new_pool es ts p.

Lemma reached_step p e p' o : reached p -> step e p = Some (p', o) -> reached p'.
Proof. intros (es & ts & Hr) Hs. eexists _, _. by eapply runs_snoc. Qed.

Lemma filled_starts t k m n : (k < m)%nat ->
  step (Ev_fiber k) (notify_one (grow n (set_fiber_tasks [t] (filled t k m))))
  = Some (filled t (S k) (m + n), Some t).
Proof.
  intros Hk. unfold notify_one. cbn [grow set_fiber_tasks filled waiting_ step fiber_pool_].
  assert ((replicate k (F_run t) ++ replicate (m - k) F_ready) ++ replicate n F_ready
          = replicate k (F_run t) ++ F_ready :: replicate (m + n - S k) F_ready) as E.
  { rewrite <- (assoc_L (++)), <- replicate_add. f_equal.
    by replace (m - k + n)%nat with (S (m + n - S k)) by lia. }
  unfold grow. cbn [set_fiber_tasks filled fiber_pool_ waiting_ fiber_task_list_ thread_task_list_ check_
    need_stop_ running_fiber_num_]. rewrite E.
  rewrite list_lookup_middle by by rewrite length_replicate.
  unfold run_fiber. cbn. unfold set_running, set_fiber, set_fiber_tasks, filled. cbn.
  rewrite insert_app_r_alt by (rewrite length_replicate; lia). rewrite length_replicate, Nat.sub_diag.
  change (<[0%nat := F_run t]> (F_ready :: ?l)) with ([F_run t] ++ l).
  rewrite Nat.add_1_r, (assoc_L (++) (replicate k _) [_]), <- replicate_S_end. done.
Qed.

Lemma reached_next t k m : (k < m)%nat -> reached (filled t k m) ->
  reached (filled t (S k)
    (m + if (m - 1 <=? k)%nat then if (MAX_GROW_SIZE <? m)%nat then 0 else m else 0)%nat).
Proof.
  intros Hk Hr.
  eapply (reached_step _ (Ev_fiber k)); [eapply (reached_step _ (Ev_schedule t)); [exact Hr|reflexivity]|].
  unfold schedule_task_from_fiber. cbn [set_fiber_tasks fiber_pool_ running_fiber_num_ filled fiber_task_list_ app].
  rewrite length_app, !length_replicate. replace (k + (m - k))%nat with m by lia.
  destruct (Nat.eqb_spec m 0) as [->|_]; [lia|]. destruct (m - 1 <=? k)%nat.
  - by apply filled_starts.
  - pose proof (filled_starts t k m 0 Hk) as H. unfold grow in H. cbn in H |- *. rewrite app_nil_r in H. exact H.
Qed.

Lemma reached_fill t m k k' : (k <= k' <= m - 1)%nat -> reached (filled t k m) -> reached (filled t k' m).
Proof.
  intros [H1 H2] Hr. induction H1 as [|k' H1 IH]; [done|].
  pose proof (reached_next t k' m ltac:(lia) (IH ltac:(lia))) as H.
  destruct (Nat.leb_spec (m - 1) k'); [lia|]. by rewrite Nat.add_0_r in H.
Qed.

Lemma full_range k m : (k < m)%nat -> (k <= m - 1 <= m - 1)%nat.
Proof. lia. Qed.

Lemma reached_doubled t j : (j <= 11)%nat -> exists k, (k < doubled j)%nat /\ reached (filled t k (doubled j)).
Proof.
  induction j as [|j IH]; intros Hj.
  - exists 1%nat. split; [vm_compute; lia|].
    eapply (reached_step _ (Ev_fiber 0)); [eapply (reached_step _ (Ev_schedule t))|].
    + exists [], []. apply runs_nil.
    + reflexivity.
    + reflexivity.
  - destruct (IH ltac:(lia)) as (k & Hk & Hr). pose proof (doubled_pos j).
    pose proof (doubled_mono j 10 ltac:(lia)). pose proof doubled_small.
    pose proof (reached_next t (doubled j - 1) (doubled j) ltac:(lia)
                  (reached_fill t _ k _ (full_range k _ Hk) Hr)) as Hn.
    destruct (Nat.leb_spec (doubled j - 1) (doubled j - 1)); [|lia].
    destruct (Nat.ltb_spec MAX_GROW_SIZE (doubled j)); [lia|].
    replace (S (doubled j - 1)) with (doubled j) in Hn by lia. rewrite <- doubled_S in Hn.
    exists (doubled j). split; [rewrite doubled_S; lia|done].
Qed.

Lemma reached_full t : reached (filled t (doubled 11) (doubled 11)).
Proof.
  destruct (reached_doubled t 11 ltac:(lia)) as (k & Hk & Hr). pose proof (doubled_pos 11).
  pose proof (reached_next t (doubled 11 - 1) (doubled 11) ltac:(lia)
                (reached_fill t _ k _ (full_range k _ Hk) Hr)) as Hn.
  destruct (Nat.leb_spec (doubled 11 - 1) (doubled 11 - 1)); [|lia].
  pose proof doubled_large. destruct (Nat.ltb_spec MAX_GROW_SIZE (doubled 11)); [|lia].
  rewrite Nat.add_0_r in Hn. by replace (S (doubled 11 - 1)) with (doubled 11) in Hn by lia.
Qed.

(** Every fiber runs a task and the pool no longer grows. *)
Definition full p : Prop :=
  (MAX_GROW_SIZE < length (fiber_pool_ p))%nat /\ waiting_ p = [] /\ check_ p = Ck_done
  /\ forall i f, fiber_pool_ p !! i = Some f -> exists t, f = F_run t.

(** What can happen while no task ends and nobody stops the pool. *)
Definition no_end (e : event T) : Prop :=
  match e with Ev_return _ | Ev_interrupt _ | Ev_stop => False | _ => True end.

Lemma full_step e p p' o : full p -> no_end e -> step e p = Some (p', o) ->
  full p' /\ o = None /\ fiber_task_list_ p' = fiber_task_list_ p ++ from_fibers e.
Proof.
  intros (Hm & Hw & Hc & Hf) He Hs. destruct e as [t|t|i|i|i| |]; try done; cbn [step] in Hs.
  - injection Hs as <- <-. unfold schedule_task_from_fiber. cbn [set_fiber_tasks fiber_pool_ running_fiber_num_].
    destruct (Nat.eqb_spec (length (fiber_pool_ p)) 0); [lia|].
    replace (MAX_GROW_SIZE <? length (fiber_pool_ p))%nat with true by (symmetry; by apply Nat.ltb_lt).
    unfold notify_one, full. destruct (_ <=? _)%nat; cbn; rewrite Hw; cbn; rewrite ?app_nil_r; done.
  - injection Hs as <- <-. cbn. by rewrite app_nil_r.
  - destruct (fiber_pool_ p !! i) as [f|] eqn:Ei; [|done]. destruct (Hf i f Ei) as [t ->]. done.
  - unfold check_task_fiber_fun in Hs. by rewrite Hc in Hs.
Qed.

Lemma full_runs p es ts p' : full p -> runs p es ts p' -> Forall no_end es ->
  full p' /\ ts = [] /\ fiber_task_list_ p' = fiber_task_list_ p ++ (es ≫= from_fibers).
Proof.
  intros Hf. induction 1 as [|es ts p1 e p2 o _ IH Hs].
  - intros _. cbn. by rewrite app_nil_r.
  - intros [Hes [He _]%Forall_cons]%Forall_app. destruct (IH Hes) as (H1 & -> & H2).
    destruct (full_step e p1 p2 o H1 He Hs) as (H3 & -> & H4). split_and!; [done|done|].
    rewrite H4, H2, bind_app. cbn. by rewrite app_nil_r, (assoc_L (++)).
Qed.

End Limit.

(** A pool that grows on demand has a bounded size: none, or [GROW_SIZE]
    times a power of two up to 20480 fibers, which is above [MAX_GROW_SIZE]. *)
Theorem pool_size_bounded {T} es ts (p : pool T) :
  runs new_pool es ts p ->
  length (fiber_pool_ p) = 0%nat
  \/ exists j, (j <= 11)%nat /\ length (fiber_pool_ p) = (10 * 2 ^ j)%nat.
Proof. apply runs_size. Qed.

(** At the limit, tasks that wait for tasks block the pool.  A pool
    reaches a state in which all its 20480 fibers run tasks and it no longer
    grows; from there, whatever the tasks schedule, nothing that they schedule
    starts before one of them returns.  When each of them waits for what it has
    scheduled, as [call_services_in_fiber] does, none returns. *)
Theorem full_pool_starts_nothing {T} (t : T) :
  exists es ts p, runs new_pool es ts p
    /\ (forall i f, fiber_pool_ p !! i = Some f -> f = F_run t)
    /\ length (fiber_pool_ p) = (10 * 2 ^ 11)%nat
    /\ forall es' ts' p', runs p es' ts' p' -> Forall no_end es' ->
         ts' = [] /\ fiber_task_list_ p' = (es' ≫= from_fibers).
Proof.
  destruct (reached_full t) as (es & ts & Hr). exists es, ts, (filled t (doubled 11) (doubled 11)).
  assert (forall i f, fiber_pool_ (filled t (doubled 11) (doubled 11)) !! i = Some f -> f = F_run t) as Hf.
  { unfold filled. cbn [fiber_pool_]. rewrite Nat.sub_diag. cbn [replicate]. rewrite app_nil_r.
    intros i f H. by apply lookup_replicate in H as [-> _]. }
  assert (length (fiber_pool_ (filled t (doubled 11) (doubled 11))) = doubled 11) as Hlen
    by (unfold filled; cbn [fiber_pool_]; rewrite length_app, !length_replicate; lia).
  split_and!; [done|done|done|]. intros es' ts' p' Hr' He.
  destruct (fun Hfull => full_runs _ es' ts' p' Hfull Hr' He) as (_ & -> & ->); [|done].
  split_and!; [rewrite Hlen; apply doubled_large|done|done|]. intros i f H. exists t. by apply (Hf i).
Qed.

(** ** Witnesses *)

(** Executing a list of events. *)
Fixpoint run {T} (es : list (event T)) (p : pool T) : option (list T * pool T) :=
  match es with
  | [] => Some ([], p)
  | e :: es =>
      '(p, o) ← step e p;
      '(ts, p) ← run es p;
      Some (option_list o ++ ts, p)
  end.

Lemma run_runs {T} (es : list (event T)) : forall (p0 : pool T) es0 ts0 p ts p',
  runs p0 es0 ts0 p -> run es p = Some (ts, p') -> runs p0 (es0 ++ es) (ts0 ++ ts) p'.
Proof.
  induction es as [|e es IH]; intros p0 es0 ts0 p ts p' Hr Hs; cbn in Hs.
  - injection Hs as <- <-. by rewrite !app_nil_r.
  - destruct (step e p) as [[p1 o]|] eqn:E; [|done]. cbn in Hs.
    destruct (run es p1) as [[ts1 p2]|] eqn:E2; [|done]. cbn in Hs. injection Hs as <- <-.
    specialize (IH p0 (es0 ++ [e]) (ts0 ++ option_list o) p1 ts1 p2 (runs_snoc _ _ _ _ _ _ _ Hr E) E2).
    by rewrite <- !(assoc_L (++)) in IH.
Qed.

(** Two workers and the checking fiber; even tasks come from another thread. *)
Definition sample_events : list (event nat) :=
  [Ev_fiber 0; Ev_schedule_thread 2%nat; Ev_check; Ev_schedule 1%nat; Ev_check; Ev_fiber 1; Ev_fiber 0;
   Ev_schedule 3%nat; Ev_schedule_thread 4%nat; Ev_return 1; Ev_check; Ev_check; Ev_check].
Definition sample_pool (n : nat) : list nat * pool nat :=
  match run (take n sample_events) (init 2) with Some r => r | None => ([], new_pool) end.

Lemma sample_pool_runs n : run (take n sample_events) (init 2) = Some (sample_pool n) ->
  runs (init 2) (take n sample_events) (fst (sample_pool n)) (snd (sample_pool n)).
Proof.
  intros H. apply (run_runs (take n sample_events) (init 2) [] [] (init 2)); [apply runs_nil|].
  rewrite H. by destruct (sample_pool n).
Qed.

Lemma tasks_start_once_in_order_witness :
  of_threads Nat.even (fst (sample_pool 13)) ++ of_threads Nat.even (fiber_task_list_ (snd (sample_pool 13)))
    ++ moving (snd (sample_pool 13)) ++ thread_task_list_ (snd (sample_pool 13)) = [2%nat; 4%nat]
  /\ of_fibers Nat.even (fst (sample_pool 13)) ++ of_fibers Nat.even (fiber_task_list_ (snd (sample_pool 13)))
    = [1%nat; 3%nat].
Proof.
  apply (tasks_start_once_in_order Nat.even (init 2) (take 13 sample_events)).
  - right. by exists 2%nat.
  - apply sample_pool_runs. vm_compute. reflexivity.
  - repeat constructor.
Defined.

Lemma no_task_stranded_witness :
  fiber_task_list_ (snd (sample_pool 4)) = [1%nat]
  /\ ((exists i t l p', fiber_task_list_ (snd (sample_pool 4)) = t :: l
        /\ step (Ev_fiber i) (snd (sample_pool 4)) = Some (p', Some t)
        /\ fiber_task_list_ p' = l /\ fiber_pool_ p' !! i = Some (F_run t))
      \/ (forall i f, fiber_pool_ (snd (sample_pool 4)) !! i = Some f -> f <> F_check ->
            (exists t, f = F_run t) \/ (f = F_done /\ Ev_interrupt i ∈ take 4 sample_events))
         /\ exists i f, fiber_pool_ (snd (sample_pool 4)) !! i = Some f /\ f <> F_check).
Proof.
  split; [vm_compute; reflexivity|].
  apply (no_task_stranded (init 2) (take 4 sample_events) (fst (sample_pool 4))).
  - right. by exists 2%nat.
  - apply sample_pool_runs. vm_compute. reflexivity.
  - vm_compute. reflexivity.
  - vm_compute. discriminate.
Defined.

(** Both workers run: the pool doubles. *)
Lemma scheduling_leaves_ready_fiber_witness :
  exists p1 i t' p2, step (Ev_schedule 3%nat) (snd (sample_pool 7)) = Some (p1, None)
    /\ head (fiber_task_list_ p1) = Some t' /\ step (Ev_fiber i) p1 = Some (p2, Some t').
Proof.
  apply (scheduling_leaves_ready_fiber (init 2) (take 7 sample_events) (fst (sample_pool 7))).
  - right. by exists 2%nat.
  - apply sample_pool_runs. vm_compute. reflexivity.
  - vm_compute. reflexivity.
  - apply Nat.leb_le. vm_compute. reflexivity.
Defined.

Lemma pool_size_bounded_witness :
  let p := schedule_task_from_fiber 1%nat new_pool in
  length (fiber_pool_ p) = 0%nat \/ exists j, (j <= 11)%nat /\ length (fiber_pool_ p) = (10 * 2 ^ j)%nat.
Proof.
  cbv zeta. apply (pool_size_bounded [Ev_schedule 1%nat] []).
  apply (run_runs [Ev_schedule 1%nat] new_pool [] [] new_pool [] (schedule_task_from_fiber 1%nat new_pool));
    [apply runs_nil|reflexivity].
Defined.
