(* ===== verification/FiberDriverConnection.v ===== *)
(** * [FiberDriverConnection]: the driver protocol

    A connection of izenelib's driver protocol carries forms: a sequence
    number, a size and a JSON document.  A request is answered by a form with
    its sequence number.  The layout of a form's header and the JSON library
    are outside the repository: the classes [DriverForm] and [DriverJson]. *)

From stdpp Require Import options.
From S2P Require Import Prelude HttpConnection.

(** ** What izenelib provides *)

(** [form_header_size] bytes hold the sequence number and the size. *)
Class DriverForm := {
  form_header_size : nat;
  form_header : bytes -> Z * Z;
  print_header : Z -> Z -> bytes;
  form_header_size_pos : (0 < form_header_size)%nat;
  print_header_length seq size : length (print_header seq size) = form_header_size;
  form_header_printed seq size : 0 <= seq < 2 ^ 32 -> 0 <= size < 2 ^ 32 -> form_header (print_header seq size) = (seq, size)
}.

(** What the connection does with requests and responses, besides the members
    of [Driver]. *)
Class DriverJson (driver : Driver) := {
  JsonValue : Type;
  (** [reader_->read], or [errorMessages()] *)
  reader_read : bytes -> JsonValue + bytes;
  is_object : JsonValue -> bool;
  assignTmp : JsonValue -> JsonRequest;
  request_controller : JsonRequest -> bytes;
  request_action : JsonRequest -> bytes;
  set_remote_ip : bytes -> JsonRequest -> JsonRequest;
  (** [asBool(header()["check_time"])] *)
  check_time : JsonRequest -> bool;
  addError : bytes -> JsonResponse -> JsonResponse;
  set_process_time : Z -> JsonResponse -> JsonResponse
}.

Section Connection.
Context {driver : Driver} {form : DriverForm} {json : DriverJson driver}.

(** What a handler leaves in the request and the response, with the message of
    the exception it has thrown, if any. *)
Record driver_handler (W : Type) := mk_driver_handler {
  dh_is_async : bool;
  dh_invoke : JsonRequest -> JsonResponse -> W -> option bytes * JsonRequest * JsonResponse * W
}.
Arguments dh_is_async {W}.
Arguments dh_invoke {W}.

Context {W : Type} (find : bytes -> bytes -> option (driver_handler W)).
(** Which writes fail, given what was written before; the peer's address, or
    what [remote_endpoint()] throws; the readings of the timers. *)
Context (write_fails : list bytes -> bytes -> bool) (remote_ip : bytes + bytes).
Context (process_elapsed server_elapsed : Z).
Context (fiber_pool_ : bool).

Definition kLimitSize : Z := 64 * 1024 * 1024.

(** [DriverConnectionContext]: the sequence number and the payload of a form,
    and the request and the response made of it. *)
Record driver_context := mk_context {
  cx_sequence : Z;
  cx_payload : bytes;
  cx_request : JsonRequest;
  cx_response : JsonResponse
}.

Definition new_context (seq : Z) (payload : bytes) : driver_context :=
  mk_context seq payload new_request new_response.
Definition cx_with_request (r : JsonRequest) (c : driver_context) : driver_context :=
  mk_context (cx_sequence c) (cx_payload c) r (cx_response c).
Definition cx_with_response (r : JsonResponse) (c : driver_context) : driver_context :=
  mk_context (cx_sequence c) (cx_payload c) (cx_request c) r.

(** [d_written]: the forms written, oldest first; [d_tasks]: the contexts of
    the calls of [handleRequestFunc] scheduled in the pool; [d_pending]: those
    held by running asynchronous handlers. *)
Record driver_conn := mk_driver_conn {
  d_receiving : bool;
  d_written : list bytes;
  d_tasks : list driver_context;
  d_pending : list driver_context;
  d_world : W
}.

Definition d_with_tasks (t : list driver_context) (c : driver_conn) : driver_conn :=
  mk_driver_conn (d_receiving c) (d_written c) t (d_pending c) (d_world c).
Definition d_with_pending (t : list driver_context) (c : driver_conn) : driver_conn :=
  mk_driver_conn (d_receiving c) (d_written c) (d_tasks c) t (d_world c).
Definition d_with_world (w : W) (c : driver_conn) : driver_conn :=
  mk_driver_conn (d_receiving c) (d_written c) (d_tasks c) (d_pending c) w.
Definition shutdownReceive (c : driver_conn) : driver_conn :=
  mk_driver_conn false (d_written c) (d_tasks c) (d_pending c) (d_world c).

(** [context->buffer()] *)
Definition print_form (seq : Z) (payload : bytes) : bytes :=
  print_header seq (w32 (Z.of_nat (length payload))) ++ payload.

(** The form of a response. *)
Definition response_form (context : driver_context) : bytes :=
  let response := if check_time (cx_request context)
                  then set_total_server_time server_elapsed (cx_response context) else cx_response context in
  print_form (cx_sequence context) (writer_write response).

(** A write that fails is only logged. *)
Definition writeRsp (context : driver_context) (c : driver_conn) : driver_conn :=
  let buffer := response_form context in
  if write_fails (d_written c) buffer then c
  else mk_driver_conn (d_receiving c) (d_written c ++ [buffer]) (d_tasks c) (d_pending c) (d_world c).

Definition writeError (context : driver_context) (errmsg : bytes) (c : driver_conn) : driver_conn :=
  writeRsp (cx_with_response (addError errmsg (cx_response context)) context) c.

Definition err_handler_not_found : bytes := b "Handler not found".
Definition err_malformed : bytes := b "Malformed request: require an object as input.".
Definition err_limit : bytes := b "Size exceeds limit.".

Definition handleRequestFunc (context : driver_context) (c : driver_conn) : driver_conn :=
  match find (request_controller (cx_request context)) (request_action (cx_request context)) with
  | None => writeError context err_handler_not_found c
  | Some handler =>
      match remote_ip with
      | inr what => writeError context what c
      | inl ip =>
          let context := cx_with_request (set_remote_ip ip (cx_request context)) context in
          let context := cx_with_response (setSuccess (cx_response context)) context in
          let '(thrown, request, response, w) := dh_invoke handler (cx_request context) (cx_response context) (d_world c) in
          let context := cx_with_response response (cx_with_request request context) in
          let c := d_with_world w c in
          match thrown with
          | Some what => writeError context what c
          | None =>
              if dh_is_async handler then d_with_pending (d_pending c ++ [context]) c
              else
                let context := if check_time (cx_request context)
                               then cx_with_response (set_process_time process_elapsed (cx_response context)) context
                               else context in
                writeRsp context c
          end
      end
  end.

(** Called with a context that has no error, as [start] calls it. *)
Definition handleRequest (context : driver_context) (c : driver_conn) : driver_conn :=
  match reader_read (cx_payload context) with
  | inr messages => writeError context messages c
  | inl requestValue =>
      if negb (is_object requestValue) then writeError context err_malformed c
      else
        let context := cx_with_request (assignTmp requestValue) context in
        if fiber_pool_ then d_with_tasks (d_tasks c ++ [context]) c
        else handleRequestFunc context c
  end.

(** ** Reading *)

(** How the reads of one form end. *)
Inductive form_read :=
| Header_error (message : bytes)
| End_of_forms
| Too_large (seq : Z)
| Payload_error (seq : Z) (message : bytes)
| Form (seq : Z) (payload : bytes).

(** [async_read]: [n] bytes of what will arrive. *)
Definition read_exactly (n : nat) (stream : bytes) : option (bytes * bytes) :=
  if (length stream <? n)%nat then None else Some (take n stream, drop n stream).

(** The reads of an iteration of [start]; [message] is the error that ends the
    stream. *)
Definition read_form (message : bytes) (stream : bytes) : form_read * bytes :=
  match read_exactly form_header_size stream with
  | None => (Header_error message, [])
  | Some (header, stream) =>
      let '(seq, size) := form_header header in
      if (seq =? 0) || (size =? 0) then (End_of_forms, stream)
      else if size >? kLimitSize then (Too_large seq, stream)
      else match read_exactly (Z.to_nat size) stream with
           | None => (Payload_error seq message, [])
           | Some (payload, stream) => (Form seq payload, stream)
           end
  end.

(** What [start] does with them: whether it goes on. *)
Definition on_form (r : form_read) (c : driver_conn) : bool * driver_conn :=
  match r with
  | Header_error message => (false, shutdownReceive (writeError (new_context 0 []) message c))
  | End_of_forms => (false, shutdownReceive c)
  | Too_large seq => (false, shutdownReceive (writeError (new_context seq []) err_limit c))
  | Payload_error seq message => (false, shutdownReceive (writeError (new_context seq []) message c))
  | Form seq payload => (true, handleRequest (new_context seq payload) c)
  end.

(** The loop, without other fibers in between; [fuel] bounds the forms. *)
Fixpoint start (fuel : nat) (message stream : bytes) (c : driver_conn) : option driver_conn :=
  match fuel with
  | O => None
  | S fuel =>
      let '(r, stream) := read_form message stream in
      let '(more, c) := on_form r c in
      if more then start fuel message stream c else Some c
  end.

(** ** The connection as a system *)

(** What happens to a connection: its fiber has read a form, a fiber of the
    pool runs a scheduled task, an asynchronous handler completes with what it
    left in its context. *)
Inductive driver_event :=
| Dv_form (r : form_read)
| Dv_task (n : nat)
| Dv_async (n : nat) (request : JsonRequest) (response : JsonResponse).

(** [None]: the event cannot happen. *)
Definition driver_step (e : driver_event) (c : driver_conn) : option driver_conn :=
  match e with
  | Dv_form r => if d_receiving c then Some (snd (on_form r c)) else None
  | Dv_task n =>
      context ← d_tasks c !! n;
      Some (handleRequestFunc context (d_with_tasks (delete n (d_tasks c)) c))
  | Dv_async n request response =>
      context ← d_pending c !! n;
      Some (writeRsp (cx_with_response response (cx_with_request request context))
              (d_with_pending (delete n (d_pending c)) c))
  end.

Fixpoint driver_run (es : list driver_event) (c : driver_conn) : option driver_conn :=
  match es with
  | [] => Some c
  | e :: es => c ← driver_step e c; driver_run es c
  end.

Definition new_driver_conn (w : W) : driver_conn := mk_driver_conn true [] [] [] w.

End Connection.
Arguments dh_is_async {driver W}.
Arguments dh_invoke {driver W}.
Arguments mk_driver_handler {driver W}.
Arguments driver_conn {driver} W.
Arguments mk_driver_conn {driver W}.
Arguments driver_context driver : clear implicits.
