(* ===== verification/FiberDriverConnectionSpec.v ===== *)
(** * What a driver connection promises

    Every form that has been read is answered once, by a form with its
    sequence number, however handlers and pool tasks interleave; without a
    pool and with synchronous handlers a connection is a server that answers
    in order. *)

From stdpp Require Import options.
From S2P Require Import Prelude HttpConnection FibpClient FibpClientSpec FiberDriverConnection.

Section Spec.
Context {driver : Driver} {form : DriverForm} {json : DriverJson driver}.

(** ** Framing *)

Definition sequence_ok (seq : Z) : Prop := 0 <= seq < 2 ^ 32.

(** A form that a client may send: the sequence number 0 and the empty payload
    end the connection. *)
Definition sendable_form (x : Z * bytes) : Prop :=
  sequence_ok x.1 /\ x.1 <> 0 /\ x.2 <> [] /\ Z.of_nat (length x.2) <= kLimitSize.

Lemma read_exactly_app (x rest : bytes) : read_exactly (length x) (x ++ rest) = Some (x, rest).
Proof.
  unfold read_exactly. rewrite length_app. replace (_ <? _)%nat with false by (symmetry; apply Nat.ltb_ge; lia).
  by rewrite take_app_length, drop_app_length.
Qed.

Lemma read_exactly_short n (x : bytes) : (length x < n)%nat -> read_exactly n x = None.
Proof. intros H. unfold read_exactly. by replace (_ <? _)%nat with true by (symmetry; by apply Nat.ltb_lt). Qed.

Lemma read_print_form message seq payload rest : sendable_form (seq, payload) ->
  read_form message (print_form seq payload ++ rest) = (Form seq payload, rest).
Proof.
  intros (Hseq & Hne & Hp & Hlen). cbn [fst snd] in *. unfold sequence_ok, kLimitSize in *. change (2 ^ 32) with 4294967296 in *.
  unfold read_form, print_form. rewrite <- app_assoc, <- (print_header_length seq (w32 (Z.of_nat (length payload)))).
  rewrite read_exactly_app. cbv beta iota.
  assert (w32 (Z.of_nat (length payload)) = Z.of_nat (length payload)) as E
    by (apply wrap_small; change (2 ^ 32) with 4294967296; lia).
  rewrite E, form_header_printed by (change (2 ^ 32) with 4294967296; lia). cbv beta iota.
  assert (length payload <> 0%nat) by (by destruct payload).
  replace ((seq =? 0) || (Z.of_nat (length payload) =? 0)) with false by lia.
  unfold kLimitSize. rewrite Z.gtb_ltb. replace (64 * 1024 * 1024 <? Z.of_nat (length payload)) with false by lia.
  by rewrite Nat2Z.id, read_exactly_app.
Qed.

Lemma read_no_form message : read_form message [] = (Header_error message, []).
Proof. unfold read_form. by rewrite read_exactly_short by apply form_header_size_pos. Qed.

(** The sequence number at the beginning of a form. *)
Definition sequence_of (w : bytes) : Z := fst (form_header (take form_header_size w)).

Lemma sequence_of_print seq payload : sequence_ok seq -> sequence_of (print_form seq payload) = seq.
Proof.
  intros H. unfold sequence_of, print_form. rewrite <- (print_header_length seq (w32 (Z.of_nat (length payload)))).
  rewrite take_app_length, form_header_printed; [done|done|]. apply wrap_bound. lia.
Qed.

(** ** Handlers *)

Context {W : Type} (find : bytes -> bytes -> option (driver_handler W)) (remote_ip : bytes + bytes).
Context (process_elapsed server_elapsed : Z) (fiber_pool_ : bool).

Abbreviation no_failure := (fun (_ : list bytes) (_ : bytes) => false).
Abbreviation writeRsp := (writeRsp (W := W) no_failure server_elapsed).
Abbreviation writeError := (writeError (W := W) no_failure server_elapsed).
Abbreviation handleRequestFunc := (handleRequestFunc find no_failure remote_ip process_elapsed server_elapsed).
Abbreviation handleRequest := (handleRequest find no_failure remote_ip process_elapsed server_elapsed fiber_pool_).
Abbreviation on_form := (on_form find no_failure remote_ip process_elapsed server_elapsed fiber_pool_).
Abbreviation driver_step := (driver_step find no_failure remote_ip process_elapsed server_elapsed fiber_pool_).
Abbreviation driver_run := (driver_run find no_failure remote_ip process_elapsed server_elapsed fiber_pool_).

Implicit Types (c : driver_conn W) (context : driver_context driver).

(** ** Accounts *)

(** The sequence numbers answered and those still owed. *)
Definition account c : list Z :=
  map sequence_of (d_written c) ++ map cx_sequence (d_tasks c) ++ map cx_sequence (d_pending c).

(** All the contexts have sequence numbers of the protocol. *)
Definition contexts_ok c : Prop :=
  Forall (fun x => sequence_ok (cx_sequence x)) (d_tasks c) /\ Forall (fun x => sequence_ok (cx_sequence x)) (d_pending c).

(** The sequence numbers of the answers an event obliges to. *)
Definition obliges (e : driver_event) : list Z :=
  match e with
  | Dv_form (Form seq _) | Dv_form (Too_large seq) | Dv_form (Payload_error seq _) => [seq]
  | Dv_form (Header_error _) => [0]
  | _ => []
  end.

(** [f] answers, or takes note of, one more sequence number. *)
Definition driver_adds (seq : Z) (f : driver_conn W -> driver_conn W) : Prop :=
  forall c, contexts_ok c -> contexts_ok (f c) /\ account (f c) ≡ₚ seq :: account c /\ d_receiving (f c) = d_receiving c.

Lemma driver_adds_writeRsp context : sequence_ok (cx_sequence context) -> driver_adds (cx_sequence context) (writeRsp context).
Proof.
  intros Hs c Hc. unfold FiberDriverConnection.writeRsp, account, response_form. cbn [d_written d_tasks d_pending d_receiving].
  split_and!; [done| |done]. rewrite map_app. cbn [map]. rewrite sequence_of_print by done.
  rewrite <- app_assoc. cbn [app]. symmetry. apply Permutation_middle.
Qed.

Lemma driver_adds_writeError context what : sequence_ok (cx_sequence context) -> driver_adds (cx_sequence context) (writeError context what).
Proof. intros Hs. apply (driver_adds_writeRsp (cx_with_response _ context) Hs). Qed.

Lemma driver_account_world w c : account (d_with_world w c) = account c.
Proof. done. Qed.

Lemma driver_adds_handleRequestFunc context : sequence_ok (cx_sequence context) ->
  driver_adds (cx_sequence context) (handleRequestFunc context).
Proof.
  intros Hs c Hc. unfold FiberDriverConnection.handleRequestFunc.
  destruct (find _ _) as [h|]; [|by apply driver_adds_writeError].
  destruct remote_ip as [ip|what]; [|by apply driver_adds_writeError].
  destruct (dh_invoke h _ _ _) as [[[thrown request] response] w].
  destruct thrown as [what|]; [by apply (driver_adds_writeError (cx_with_response _ (cx_with_request _ _)) what Hs (d_with_world w c))|].
  destruct (dh_is_async h).
  - unfold account, contexts_ok in *. cbn [d_written d_tasks d_pending d_with_pending d_with_world d_receiving]. destruct Hc as [H1 H2].
    split_and!; [done|apply Forall_app; split; [done|by apply Forall_singleton]| |done].
    rewrite map_app. cbn [map cx_sequence cx_with_response cx_with_request]. rewrite !app_assoc. symmetry. apply Permutation_cons_append.
  - destruct (check_time _).
    + by apply (driver_adds_writeRsp (cx_with_response _ (cx_with_response _ (cx_with_request _ _))) Hs (d_with_world w c)).
    + by apply (driver_adds_writeRsp (cx_with_response _ (cx_with_request _ _)) Hs (d_with_world w c)).
Qed.

Lemma driver_adds_handleRequest context : sequence_ok (cx_sequence context) -> driver_adds (cx_sequence context) (handleRequest context).
Proof.
  intros Hs c Hc. unfold FiberDriverConnection.handleRequest.
  destruct (reader_read _) as [v|messages]; [|by apply driver_adds_writeError].
  destruct (is_object v); cbn [negb]; [|by apply driver_adds_writeError].
  destruct fiber_pool_; [|by apply (driver_adds_handleRequestFunc (cx_with_request _ context))].
  unfold account, contexts_ok in *. cbn [d_written d_tasks d_pending d_with_tasks d_receiving]. destruct Hc as [H1 H2].
  split_and!; [apply Forall_app; split; [done|by apply Forall_singleton]|done| |done].
  rewrite map_app. cbn [map cx_sequence cx_with_request]. rewrite <- (app_assoc _ [_]). cbn [app].
  rewrite app_assoc. symmetry. rewrite app_assoc. apply Permutation_middle.
Qed.

Lemma driver_account_drop_task n context c : d_tasks c !! n = Some context ->
  account c ≡ₚ cx_sequence context :: account (d_with_tasks (delete n (d_tasks c)) c).
Proof.
  intros E. unfold account. cbn [d_written d_tasks d_pending d_with_tasks].
  rewrite (delete_Permutation _ _ _ E) at 1. cbn [map app]. symmetry. apply Permutation_middle.
Qed.

Lemma driver_account_drop_pending n context c : d_pending c !! n = Some context ->
  account c ≡ₚ cx_sequence context :: account (d_with_pending (delete n (d_pending c)) c).
Proof.
  intros E. unfold account. cbn [d_written d_tasks d_pending d_with_pending].
  rewrite (delete_Permutation _ _ _ E) at 1. cbn [map app]. rewrite !app_assoc. symmetry. apply Permutation_middle.
Qed.

Lemma driver_adds_on_form r c : Forall sequence_ok (obliges (Dv_form r)) -> contexts_ok c ->
  contexts_ok (snd (on_form r c)) /\ account (snd (on_form r c)) ≡ₚ obliges (Dv_form r) ++ account c.
Proof.
  intros Hs Hc. destruct r as [m| |seq|seq m|seq payload]; cbn [obliges FiberDriverConnection.on_form snd app] in *;
    try apply Forall_inv in Hs.
  - by destruct (driver_adds_writeError (new_context 0 []) m Hs c Hc) as (? & ? & ?).
  - done.
  - by destruct (driver_adds_writeError (new_context seq []) err_limit Hs c Hc) as (? & ? & ?).
  - by destruct (driver_adds_writeError (new_context seq []) m Hs c Hc) as (? & ? & ?).
  - by destruct (driver_adds_handleRequest (new_context seq payload) Hs c Hc) as (? & ? & ?).
Qed.

Lemma driver_account_step e c c' : Forall sequence_ok (obliges e) -> contexts_ok c -> driver_step e c = Some c' ->
  contexts_ok c' /\ account c' ≡ₚ obliges e ++ account c.
Proof.
  intros Hs Hc E. destruct e as [r|n|n request response]; cbn [FiberDriverConnection.driver_step] in E.
  - destruct (d_receiving c); [|done]. simplify_eq. by apply driver_adds_on_form.
  - destruct (d_tasks c !! n) as [context|] eqn:En; cbn [mbind option_bind] in E; [|done]. simplify_eq.
    destruct Hc as [H1 H2]. assert (sequence_ok (cx_sequence context)) as Hx by exact (Forall_lookup_1 _ _ _ _ H1 En).
    destruct (driver_adds_handleRequestFunc context Hx (d_with_tasks (delete n (d_tasks c)) c)) as (Hok & Hacc & _).
    + split; [by apply Forall_delete|done].
    + split; [done|]. rewrite Hacc. symmetry. by apply driver_account_drop_task.
  - destruct (d_pending c !! n) as [context|] eqn:En; cbn [mbind option_bind] in E; [|done]. simplify_eq.
    destruct Hc as [H1 H2]. assert (sequence_ok (cx_sequence context)) as Hx by exact (Forall_lookup_1 _ _ _ _ H2 En).
    destruct (driver_adds_writeRsp (cx_with_response response (cx_with_request request context)) Hx
                (d_with_pending (delete n (d_pending c)) c)) as (Hok & Hacc & _).
    + split; [done|by apply Forall_delete].
    + split; [done|]. rewrite Hacc. symmetry. exact (driver_account_drop_pending n context c En).
Qed.

Lemma driver_account_run es c c' : Forall (fun e => Forall sequence_ok (obliges e)) es -> contexts_ok c ->
  driver_run es c = Some c' -> account c' ≡ₚ concat (map obliges es) ++ account c.
Proof.
  revert c. induction es as [|e es IH]; intros c Hs Hc E; cbn [FiberDriverConnection.driver_run] in E; [by simplify_eq|].
  destruct (driver_step e c) as [c1|] eqn:E1; cbn [mbind option_bind] in E; [|done].
  apply Forall_cons in Hs as [He Hs]. destruct (driver_account_step e c c1 He Hc E1) as [Hc1 H1].
  rewrite (IH c1 Hs Hc1 E), H1. cbn [map concat]. rewrite !app_assoc. by rewrite (Permutation_app_comm (obliges e)).
Qed.

(** However the connection's fiber, the pool's fibers and the completions
    of asynchronous handlers interleave, the sequence numbers of the forms
    written, of the scheduled tasks and of the running handlers are together
    those of the forms read (0 for an error before a header), each as often as
    it was read: a request is never lost and never answered twice. *)
Theorem driver_answers_each_form_once es w c :
  Forall (fun e => Forall sequence_ok (obliges e)) es -> driver_run es (new_driver_conn w) = Some c ->
  map sequence_of (d_written c) ++ map cx_sequence (d_tasks c) ++ map cx_sequence (d_pending c) ≡ₚ concat (map obliges es).
Proof.
  intros Hs E. rewrite <- (app_nil_r (concat _)). apply (driver_account_run es (new_driver_conn w) c Hs); [|done]. by split.
Qed.

(** ** In order *)

(** The reference: what is answered to a payload, as the request and the
    response that [response_form] prints. *)
Definition respond (payload : bytes) (w : W) : JsonRequest * JsonResponse * W :=
  let failed request response what w := (request, addError what response, w) in
  match reader_read payload with
  | inr messages => failed new_request new_response messages w
  | inl v =>
      if is_object v then
        let request := assignTmp v in
        match find (request_controller request) (request_action request), remote_ip with
        | None, _ => failed request new_response err_handler_not_found w
        | Some _, inr what => failed request new_response what w
        | Some h, inl ip =>
            match dh_invoke h (set_remote_ip ip request) (setSuccess new_response) w with
            | (Some what, request, response, w) => failed request response what w
            | (None, request, response, w) =>
                (request, if check_time request then set_process_time process_elapsed response else response, w)
            end
        end
      else failed new_request new_response err_malformed w
  end.

Definition answer_form (seq : Z) (request : JsonRequest) (response : JsonResponse) : bytes :=
  response_form server_elapsed (mk_context seq [] request response).

Fixpoint answers (forms : list (Z * bytes)) (w : W) : list bytes * W :=
  match forms with
  | [] => ([], w)
  | (seq, payload) :: forms =>
      let '(request, response, w) := respond payload w in
      let '(rest, w) := answers forms w in (answer_form seq request response :: rest, w)
  end.

(** What the connection writes when the stream ends. *)
Definition end_form (message : bytes) : bytes := answer_form 0 new_request (addError message new_response).

Definition all_synchronous : Prop := forall controller action h, find controller action = Some h -> dh_is_async h = false.

Definition with_answer (x : bytes) (w : W) c : driver_conn W :=
  mk_driver_conn (d_receiving c) (d_written c ++ [x]) (d_tasks c) (d_pending c) w.

Lemma handleRequest_synchronous seq payload c : fiber_pool_ = false -> all_synchronous ->
  handleRequest (new_context seq payload) c =
  let '(request, response, w) := respond payload (d_world c) in with_answer (answer_form seq request response) w c.
Proof.
  intros Hp Hsync. unfold FiberDriverConnection.handleRequest, respond. cbn [cx_payload new_context].
  destruct (reader_read payload) as [v|messages]; [|done]. destruct (is_object v); cbn [negb]; [|done]. rewrite Hp.
  unfold FiberDriverConnection.handleRequestFunc. cbn [cx_request cx_with_request cx_response new_context cx_with_response].
  destruct (find _ _) as [h|] eqn:Eh; [|done]. destruct remote_ip as [ip|what]; [|done].
  destruct (dh_invoke h _ _ _) as [[[[what|] request] response] w]; [done|].
  rewrite (Hsync _ _ _ Eh). cbn [cx_request cx_with_request cx_response cx_with_response]. by destruct (check_time request).
Qed.

Lemma start_answers message forms c : fiber_pool_ = false -> all_synchronous -> Forall sendable_form forms ->
  start find no_failure remote_ip process_elapsed server_elapsed fiber_pool_ (S (length forms)) message
    (concat (map (fun x => print_form x.1 x.2) forms)) c =
  let '(replies, w) := answers forms (d_world c) in
  Some (mk_driver_conn false (d_written c ++ replies ++ [end_form message]) (d_tasks c) (d_pending c) w).
Proof.
  intros Hp Hsync Hs. revert c. induction Hs as [|[seq payload] forms Hf Hs IH]; intros c.
  - cbn [length map concat start answers]. by rewrite read_no_form.
  - cbn [length map concat]. set (n := S (length forms)) in *. cbn [start fst snd].
    rewrite read_print_form by done. cbn [FiberDriverConnection.on_form]. rewrite handleRequest_synchronous by done.
    cbn [answers]. destruct (respond payload (d_world c)) as [[request response] w]. rewrite IH.
    cbn [with_answer d_world d_written d_tasks d_pending]. destruct (answers forms w) as [replies w'].
    by rewrite <- !app_assoc.
Qed.

(** C29: A connection without a pool, with synchronous handlers, that reads any
    requests and then the end of the stream ends; it has written the answers
    of the reference [respond] in the order of the requests, each under its
    request's sequence number, and one more form with sequence number 0 and
    the message of the end of the stream. *)
Theorem driver_serves_in_order message forms w :
  fiber_pool_ = false -> all_synchronous -> Forall sendable_form forms ->
  start find no_failure remote_ip process_elapsed server_elapsed fiber_pool_ (S (length forms)) message
    (concat (map (fun x => print_form x.1 x.2) forms)) (new_driver_conn w) =
  Some (mk_driver_conn false ((answers forms w).1 ++ [end_form message]) [] [] (answers forms w).2).
Proof. intros Hp Hsync Hs. rewrite start_answers by done. cbn [d_world new_driver_conn d_written d_tasks d_pending]. by destruct (answers forms w). Qed.

End Spec.

(** ** Samples *)

(** A header of two 32-bit words. *)
#[program] Definition word_form : DriverForm := {|
  form_header_size := 8;
  form_header w := (Raw.load32 (take 4 w), Raw.load32 (drop 4 w));
  print_header seq size := Raw.store32 seq ++ Raw.store32 size
|}.
Next Obligation. lia. Qed.
Next Obligation. done. Qed.
Next Obligation.
  intros seq size Hs Hz. transitivity (Raw.load32 (Raw.store32 seq), Raw.load32 (Raw.store32 size)); [done|].
  by rewrite !RawSpec.load_store.
Qed.

(** Requests that are only a path, responses that are only a text. *)
Definition text_driver : Driver := {|
  JsonRequest := bytes; JsonResponse := bytes; new_request := []; new_response := [];
  check_fibp_time _ := false; setSuccess _ := b "ok "; set_total_server_time _ r := r; writer_write r := r
|}.
Definition text_json : DriverJson text_driver :=
  @Build_DriverJson text_driver bytes
    (fun w => match w with "?"%char :: _ => inr (b "bad JSON") | _ => inl w end)
    (fun w => match w with "["%char :: _ => false | _ => true end)
    (fun w => w) (fun w => w) (fun _ => []) (fun _ r => r) (fun _ => false) (fun m _ => m) (fun _ r => r).

(** [now] counts the calls, [later] is asynchronous, [boom] throws. *)
Definition text_find (controller action : bytes) : option (@driver_handler text_driver nat) :=
  if bool_decide (controller = b "now") then
    Some (@mk_driver_handler text_driver nat false (fun rq rs n => (None, rq, rs ++ dec (Z.of_nat (S n)), S n)))
  else if bool_decide (controller = b "later") then
    Some (@mk_driver_handler text_driver nat true (fun rq rs n => (None, rq, rs, n)))
  else if bool_decide (controller = b "boom") then
    Some (@mk_driver_handler text_driver nat false (fun rq rs n => (Some (b "exploded"), rq, rs, S n)))
  else None.
Definition text_find_sync (controller action : bytes) : option (@driver_handler text_driver nat) :=
  if bool_decide (controller = b "later") then None else text_find controller action.

Definition sample_events : list (@driver_event text_driver) :=
  [Dv_form (Form 5 (b "now")); Dv_form (Form 6 (b "later")); Dv_form (Form 7 (b "?"));
   Dv_task 1; Dv_form (Form 8 (b "boom")); Dv_task 1;
   @Dv_async text_driver 0 (b "later") (b "at last"); Dv_form (Payload_error 9 (b "eof"))].

Definition written_forms (c : @driver_conn text_driver nat) : list (Z * bytes) :=
  map (fun w => (Raw.load32 (take 4 w), drop 8 w)) (d_written c).

Lemma driver_answers_each_form_once_witness :
  exists c, @driver_run text_driver word_form text_json nat text_find (fun _ _ => false) (inl []) 0 0 true
              sample_events (new_driver_conn 0%nat) = Some c /\
    written_forms c = [(7, b "bad JSON"); (8, b "exploded"); (6, b "at last"); (9, b "eof")] /\
    map (@sequence_of word_form) (d_written c) ++ map cx_sequence (d_tasks c) ++ map cx_sequence (d_pending c)
      ≡ₚ [5; 6; 7; 8; 9].
Proof.
  eexists. split; [vm_compute; reflexivity|]. split; [vm_compute; reflexivity|].
  apply (@driver_answers_each_form_once text_driver word_form text_json nat text_find (inl []) 0 0 true sample_events 0%nat).
  - repeat constructor; unfold sequence_ok; cbn; lia.
  - vm_compute. reflexivity.
Defined.

Lemma driver_serves_in_order_witness :
  let forms := [(5, b "now"); (6, b "?"); (7, b "["); (9, b "none"); (4294967295, b "boom"); (5, b "now")] in
  exists c, @start text_driver word_form text_json nat text_find_sync (fun _ _ => false) (inl []) 0 0 false 7
              (b "End of file") (concat (map (fun x => @print_form word_form x.1 x.2) forms)) (new_driver_conn 0%nat) = Some c /\
    d_world c = 3%nat /\
    written_forms c =
      [(5, b "ok 1"); (6, b "bad JSON"); (7, err_malformed); (9, err_handler_not_found); (4294967295, b "exploded");
       (5, b "ok 3"); (0, b "End of file")].
Proof.
  cbv zeta. eexists. split.
  - apply (@driver_serves_in_order text_driver word_form text_json nat text_find_sync (inl []) 0 0 false); [done| |].
    + intros controller action h. unfold text_find_sync, text_find.
      repeat case_bool_decide; intros; by simplify_eq.
    + repeat constructor; vm_compute; try done.
  - vm_compute. done.
Defined.
