(* ===== verification/FibpLogger.v ===== *)
(** * [FibpLogger]: the log of service calls

    A ring of [MAX_LOG_NUM] slots holds the running and the finished calls; a
    call's number, taken from a counter, chooses its slot.  The fiber of
    [sendLogToDB] walks the ring, collects the finished calls and posts them to
    a log service.

    Every operation is atomic here; the fields of a slot are not protected in
    the code, where only [wait_send] is. *)

From stdpp Require Import gmap sorting options.
From S2P Require Import Prelude FibpServiceInfo.

Definition MAX_LOG_NUM : Z := 1000000.
Definition MAX_LOG_SEND_NUM : Z := 1000.

(** The arithmetic of [double] that the statistics use. *)
Class DoubleArith := {
  double : Type;
  double_zero : double;
  (** [x += n] for an [uint64_t n] *)
  double_add : double -> Z -> double;
  (** [x /= n] for an [int n] *)
  double_div : double -> Z -> double
}.

(** ** The records of a call *)

Record RequestData := mk_RequestData {
  rd_start_time : Z;
  rd_end_time : Z;
  host_port : bytes;
  failed_msg : bytes
}.

Definition new_RequestData : RequestData := mk_RequestData 0 0 [] [].

Record LogData := mk_LogData {
  wait_send : bool;
  log_id : Z;
  start_time : Z;
  end_time : Z;
  service_send_reply_times : gmap bytes (list RequestData)
}.

#[export] Instance RequestData_eq_dec : EqDecision RequestData.
Proof. solve_decision. Defined.
#[export] Instance LogData_eq_dec : EqDecision LogData.
Proof. solve_decision. Defined.

Definition new_LogData : LogData := mk_LogData false 0 0 0 ∅.

(** [LogData::reset] *)
Definition LogData_reset (l : LogData) : LogData := mk_LogData false 0 0 0 ∅.

Definition with_times (m : gmap bytes (list RequestData)) (l : LogData) : LogData :=
  mk_LogData (wait_send l) (log_id l) (start_time l) (end_time l) m.

(** What the operations do with the slot of the call. *)
Definition log_start (id now : Z) (l : LogData) : LogData :=
  mk_LogData (wait_send l) id now (end_time l) (service_send_reply_times l).
Definition log_end (now : Z) (l : LogData) : LogData :=
  mk_LogData true (log_id l) (start_time l) now (service_send_reply_times l).
Definition log_send (name host port : bytes) (now : Z) (l : LogData) : LogData :=
  let times := default [] (service_send_reply_times l !! name) in
  with_times (<[name := times ++ [mk_RequestData now 0 (host ++ b ":" ++ port) []]]> (service_send_reply_times l)) l.

(** [service_send_reply_times[name].back()], [None] when the vector is empty,
    which the code does not check. *)
Definition on_back (f : RequestData -> RequestData) (name : bytes) (l : LogData) : option LogData :=
  let times := default [] (service_send_reply_times l !! name) in
  match last times with
  | None => None
  | Some r => Some (with_times (<[name := take (length times - 1) times ++ [f r]]> (service_send_reply_times l)) l)
  end.
Definition log_reply (name : bytes) (now : Z) : LogData -> option LogData :=
  on_back (fun r => mk_RequestData (rd_start_time r) now (host_port r) (failed_msg r)) name.
Definition log_failed (name msg : bytes) : LogData -> option LogData :=
  on_back (fun r => mk_RequestData (rd_start_time r) (rd_end_time r) (host_port r) msg) name.

(** ** The ring *)

(** The slots that are not in the map are as the constructor has left them. *)
Abbreviation ring := (gmap Z LogData).
Definition slot_of (id : Z) : Z := id mod MAX_LOG_NUM.
Definition slot (s : ring) (id : Z) : LogData := default new_LogData (s !! slot_of id).
Definition set_slot (id : Z) (l : LogData) (s : ring) : ring := <[slot_of id := l]> s.

(** ** The points of a message *)

Record api_point := mk_api_point { ap_id : Z; ap_start : Z; ap_end : Z; ap_latency : Z }.
Record service_point := mk_service_point {
  sp_id : Z; sp_start : Z; sp_end : Z; sp_latency : Z; sp_name : bytes; sp_host_port : bytes; sp_failed : bytes
}.

(** [uint64_t] subtraction. *)
Definition latency (start_time end_time : Z) : Z := w64 (end_time - start_time).

Definition point_of (l : LogData) : api_point :=
  mk_api_point (log_id l) (start_time l) (end_time l) (latency (start_time l) (end_time l)).

(** The iteration over the [std::map]. *)
Definition by_name (x y : bytes * list RequestData) : Prop := bytes_ltb y.1 x.1 = false.
#[export] Instance by_name_dec x y : Decision (by_name x y).
Proof. unfold by_name. apply _. Defined.
Definition requests_of (l : LogData) : list (bytes * RequestData) :=
  x ← merge_sort by_name (map_to_list (service_send_reply_times l)); r ← x.2; [(x.1, r)].

Definition service_point_of (l : LogData) (x : bytes * RequestData) : service_point :=
  mk_service_point (log_id l) (rd_start_time x.2) (rd_end_time x.2) (latency (rd_start_time x.2) (rd_end_time x.2))
    x.1 (host_port x.2) (failed_msg x.2).

(** ** The message *)

(** The values of a row, and a series of rows. *)
Inductive log_value := L_uint (n : Z) | L_string (s : bytes) | L_bool (v : bool).
Record log_item := mk_log_item { li_name : bytes; li_columns : list bytes; li_points : list (list log_value) }.

Definition api_row (p : api_point) : list log_value :=
  [L_uint (ap_start p); L_uint (ap_id p); L_uint (ap_start p); L_uint (ap_end p); L_uint (ap_latency p)].

Definition service_row (p : service_point) : list log_value :=
  [L_uint (sp_start p); L_uint (sp_id p); L_uint (sp_start p); L_uint (sp_end p); L_uint (sp_latency p);
   L_string (sp_name p); L_string (sp_host_port p);
   L_bool (negb (bool_decide (sp_failed p = []))); L_string (sp_failed p)].

Definition log_item_list (api : list api_point) (services : list service_point) : list log_item :=
  [mk_log_item (b "fibp_api_log") (map b ["time"; "logid"; "start_time"; "end_time"; "latency"]%string) (map api_row api);
   mk_log_item (b "fibp_services_log")
     (map b ["time"; "logid"; "start_time"; "end_time"; "latency"; "service_name"; "host_port"; "is_fail"; "failed_msg"]%string)
     (map service_row services)].

(** ** Statistics *)

Section Logger.
Context {arith : DoubleArith}.

Record ServiceStat := mk_ServiceStat { avgLatency : double; requestPerSec : Z; timestamp : Z }.
Definition new_ServiceStat : ServiceStat := mk_ServiceStat double_zero 0 0.
Abbreviation ServiceStatMapT := (gmap bytes (list ServiceStat)).

(** The statistics of the current second, those of the seconds before, and
    those shared with the readers. *)
Record stats := mk_stats {
  curTimeStats : gmap bytes ServiceStat;
  serviceStats : ServiceStatMapT;
  recentServiceStats_ : ServiceStatMapT
}.

(** The end of a second: the average goes to the list of the service; the
    lists change places with the shared ones when they span ten seconds. *)
Definition close_second (name : bytes) (stat : ServiceStat) (t : stats) : stats :=
  let stat := mk_ServiceStat (double_div (avgLatency stat) (requestPerSec stat)) (requestPerSec stat) (timestamp stat) in
  let all := default [] (serviceStats t !! name) ++ [stat] in
  let service_stats := <[name := all]> (serviceStats t) in
  if w64 (timestamp stat - from_option timestamp 0 (head all)) >? 10
  then mk_stats (curTimeStats t) ((fun _ => []) <$> recentServiceStats_ t) service_stats
  else mk_stats (curTimeStats t) service_stats (recentServiceStats_ t).

(** What the loop does with the statistics for a request. *)
Definition add_request (name : bytes) (r : RequestData) (t : stats) : stats :=
  let second := rd_start_time r / 1000000 in
  let stat := default (mk_ServiceStat double_zero 0 second) (curTimeStats t !! name) in
  let '(stat, t) :=
    if second =? timestamp stat then (stat, t)
    else (mk_ServiceStat double_zero 0 second, close_second name stat t) in
  let stat := mk_ServiceStat (double_add (avgLatency stat) (latency (rd_start_time r) (rd_end_time r)))
                (requestPerSec stat + 1) (timestamp stat) in
  mk_stats (<[name := stat]> (curTimeStats t)) (serviceStats t) (recentServiceStats_ t).

Definition add_requests (l : LogData) (t : stats) : stats :=
  fold_left (fun t x => add_request x.1 x.2 t) (requests_of l) t.

(** ** The logger *)

(** [lg_api], [lg_services], [lg_cnt]: the message the sender is collecting;
    [lg_posted]: the messages it has posted, with the address of its client. *)
Record logger := mk_logger {
  logged_call_list_ : ring;
  auto_inc_id_ : Z;
  next_send : Z;
  lg_cnt : Z;
  lg_api : list api_point;
  lg_services : list service_point;
  lg_stats : stats;
  log_client_ : bytes * bytes;
  lg_posted : list ((bytes * bytes) * list log_item)
}.

Definition lg_with_ring (s : ring) (g : logger) : logger :=
  mk_logger s (auto_inc_id_ g) (next_send g) (lg_cnt g) (lg_api g) (lg_services g) (lg_stats g) (log_client_ g) (lg_posted g).
Definition lg_with_id (id : Z) (g : logger) : logger :=
  mk_logger (logged_call_list_ g) id (next_send g) (lg_cnt g) (lg_api g) (lg_services g) (lg_stats g) (log_client_ g) (lg_posted g).
Definition lg_with_client (c : bytes * bytes) (g : logger) : logger :=
  mk_logger (logged_call_list_ g) (auto_inc_id_ g) (next_send g) (lg_cnt g) (lg_api g) (lg_services g) (lg_stats g) c (lg_posted g).

Definition new_logger (log_ip log_port : bytes) : logger :=
  mk_logger ∅ 0 1 0 [] [] (mk_stats ∅ ∅ ∅) (log_ip, log_port) [].

Definition startServiceCall (now : Z) (g : logger) : Z * logger :=
  let myid := w64 (auto_inc_id_ g + 1) in
  let g := lg_with_id myid g in
  let l := slot (logged_call_list_ g) myid in
  if wait_send l || negb (log_id l =? 0) then (0, g)
  else (myid, lg_with_ring (set_slot myid (log_start myid now l) (logged_call_list_ g)) g).

Definition endServiceCall (id now : Z) (g : logger) : logger :=
  if id =? 0 then g
  else lg_with_ring (set_slot id (log_end now (slot (logged_call_list_ g) id)) (logged_call_list_ g)) g.

Definition sendServiceRequest (id : Z) (name host port : bytes) (now : Z) (g : logger) : logger :=
  if id =? 0 then g
  else lg_with_ring (set_slot id (log_send name host port now (slot (logged_call_list_ g) id)) (logged_call_list_ g)) g.

Definition getServiceRsp (id : Z) (name : bytes) (now : Z) (g : logger) : option logger :=
  if id =? 0 then Some g
  else l ← log_reply name now (slot (logged_call_list_ g) id); Some (lg_with_ring (set_slot id l (logged_call_list_ g)) g).

Definition logServiceFailed (id : Z) (name msg : bytes) (g : logger) : option logger :=
  if id =? 0 then Some g
  else l ← log_failed name msg (slot (logged_call_list_ g) id); Some (lg_with_ring (set_slot id l (logged_call_list_ g)) g).

Definition getRecentServiceStats (g : logger) : ServiceStatMapT := recentServiceStats_ (lg_stats g).

(** [findLogService]: [found] is the answer of [get_service_address]; without
    a service manager there is none. *)
Definition findLogService (found : option (bytes * bytes)) (g : logger) : logger :=
  match found with
  | None => g
  | Some address => if bool_decide (log_client_ g = address) then g else lg_with_client address g
  end.

(** ** The sender *)

(** The condition of the inner loop of [sendLogToDB]. *)
Definition collecting (g : logger) : bool :=
  wait_send (slot (logged_call_list_ g) (next_send g)) && (lg_cnt g <? MAX_LOG_SEND_NUM).

(** Its body. *)
Definition collect (g : logger) : logger :=
  let l := slot (logged_call_list_ g) (next_send g) in
  let s := set_slot (next_send g) (LogData_reset l) (logged_call_list_ g) in
  let next := w64 (next_send g + 1) in
  if w64 (auto_inc_id_ g - next_send g) <? MAX_LOG_NUM / 2
  then mk_logger s (auto_inc_id_ g) next (lg_cnt g + 1) (lg_api g ++ [point_of l])
         (lg_services g ++ map (service_point_of l) (requests_of l)) (add_requests l (lg_stats g)) (log_client_ g) (lg_posted g)
  else mk_logger s (auto_inc_id_ g) next (lg_cnt g) (lg_api g) (lg_services g) (lg_stats g) (log_client_ g) (lg_posted g).

(** What follows the inner loop; [sent] is what [send_http_request] returned. *)
Definition post (sent : bool) (found : option (bytes * bytes)) (g : logger) : logger :=
  if lg_cnt g =? 0
  then mk_logger (logged_call_list_ g) (auto_inc_id_ g) (next_send g) 0 [] [] (lg_stats g) (log_client_ g) (lg_posted g)
  else
    let g := mk_logger (logged_call_list_ g) (auto_inc_id_ g) (next_send g) 0 [] [] (lg_stats g) (log_client_ g)
               (lg_posted g ++ [(log_client_ g, log_item_list (lg_api g) (lg_services g))]) in
    if sent then g else findLogService found g.

(** An iteration of the outer loop with no other thread in between; [fuel]
    bounds the inner loop. *)
Fixpoint collect_all (fuel : nat) (g : logger) : option logger :=
  match fuel with
  | O => None
  | S fuel => if collecting g then collect_all fuel (collect g) else Some g
  end.

Definition sendLogToDB_round (fuel : nat) (sent : bool) (found : option (bytes * bytes)) (g : logger) : option logger :=
  g ← collect_all fuel g; Some (post sent found g).

(** The outer loop, for the given outcomes of its posts. *)
Fixpoint sendLogToDB (fuel : nat) (outcomes : list (bool * option (bytes * bytes))) (g : logger) : option logger :=
  match outcomes with
  | [] => Some g
  | (sent, found) :: outcomes => g ← sendLogToDB_round fuel sent found g; sendLogToDB fuel outcomes g
  end.

(** ** The logger as a system *)

Inductive log_event :=
| Lg_start (now : Z)
| Lg_end (id now : Z)
| Lg_send (id : Z) (name host port : bytes) (now : Z)
| Lg_reply (id : Z) (name : bytes) (now : Z)
| Lg_failed (id : Z) (name msg : bytes)
| Lg_collect
| Lg_post (sent : bool) (found : option (bytes * bytes)).

(** [None]: the event cannot happen, or is undefined. *)
Definition log_step (e : log_event) (g : logger) : option logger :=
  match e with
  | Lg_start now => Some (snd (startServiceCall now g))
  | Lg_end id now => Some (endServiceCall id now g)
  | Lg_send id name host port now => Some (sendServiceRequest id name host port now g)
  | Lg_reply id name now => getServiceRsp id name now g
  | Lg_failed id name msg => logServiceFailed id name msg g
  | Lg_collect => if collecting g then Some (collect g) else None
  | Lg_post sent found => if collecting g then None else Some (post sent found g)
  end.

Fixpoint log_run (es : list log_event) (g : logger) : option logger :=
  match es with
  | [] => Some g
  | e :: es => g ← log_step e g; log_run es g
  end.

End Logger.
