(* ===== verification/FibpLoggerSpec.v ===== *)
(** * What the log says

    The ring is compared with a book that keeps a record of its own for every
    call, for clients that use a call's number between [startServiceCall] and
    [endServiceCall] only: what is sent is the book's records, in order, each
    once.  A call that is never ended stops the sender for ever. *)

From stdpp Require Import gmap sorting options.
From S2P Require Import Prelude FibpServiceInfo FibpLogger.

(** ** Slots *)

Lemma slot_set_same id i l s : slot_of i = slot_of id -> slot (set_slot id l s) i = l.
Proof. intros E. unfold slot, set_slot. by rewrite E, lookup_insert_eq. Qed.

Lemma slot_set_other id i l s : slot_of i <> slot_of id -> slot (set_slot id l s) i = slot s i.
Proof. intros E. unfold slot, set_slot. by rewrite lookup_insert_ne by congruence. Qed.

Lemma slot_same i j s : slot_of i = slot_of j -> slot s i = slot s j.
Proof. intros E. unfold slot. by rewrite E. Qed.

(** Two numbers less than a round apart with the same slot are the same. *)
Lemma slot_window i j : slot_of i = slot_of j -> i <= j < i + MAX_LOG_NUM -> j = i.
Proof. unfold slot_of, MAX_LOG_NUM. intros E H. Z.div_mod_to_equations. lia. Qed.

Section Book.
Context {arith : DoubleArith}.

(** ** The book *)

Record booked := mk_booked { bk_log : logger; bk_open : gset Z; bk_book : gmap Z LogData }.

(** The number a client gives in an event. *)
Definition client_id (e : log_event) : option Z :=
  match e with
  | Lg_end id _ | Lg_send id _ _ _ _ | Lg_reply id _ _ | Lg_failed id _ _ => Some id
  | _ => None
  end.

(** What an event does to the record of its call. *)
Definition note (e : log_event) (l : LogData) : LogData :=
  match e with
  | Lg_end _ now => log_end now l
  | Lg_send _ name host port now => log_send name host port now l
  | Lg_reply _ name now => default l (log_reply name now l)
  | Lg_failed _ name msg => default l (log_failed name msg l)
  | _ => l
  end.

Definition open_after (e : log_event) (k : booked) : gset Z :=
  match e with
  | Lg_start now => let id := fst (startServiceCall now (bk_log k)) in if id =? 0 then bk_open k else {[id]} ∪ bk_open k
  | Lg_end id _ => bk_open k ∖ {[id]}
  | _ => bk_open k
  end.

Definition book_after (e : log_event) (k : booked) : gmap Z LogData :=
  match e with
  | Lg_start now =>
      let id := fst (startServiceCall now (bk_log k)) in
      if id =? 0 then bk_book k else <[id := log_start id now new_LogData]> (bk_book k)
  | _ => match client_id e with Some id => alter (note e) id (bk_book k) | None => bk_book k end
  end.

(** A client gives 0, which it gets for a call that is not logged, or the
    number of a call it has started and not ended. *)
Definition disciplined (e : log_event) (k : booked) : bool :=
  match client_id e with Some id => bool_decide (id = 0 \/ id ∈ bk_open k) | None => true end.

Definition booked_step (e : log_event) (k : booked) : option booked :=
  if disciplined e k then
    g ← log_step e (bk_log k); Some (mk_booked g (open_after e k) (book_after e k))
  else None.

Fixpoint booked_run (es : list log_event) (k : booked) : option booked :=
  match es with
  | [] => Some k
  | e :: es => k ← booked_step e k; booked_run es k
  end.

Definition new_booked (ip port : bytes) : booked := mk_booked (new_logger ip port) ∅ ∅.

(** ** What was sent *)

(** The rows of a series in all the messages. *)
Definition posted_rows (n : nat) (g : logger) : list (list log_value) :=
  concat (map (fun x => from_option li_points [] (x.2 !! n)) (lg_posted g)).
Definition api_rows (g : logger) : list (list log_value) := posted_rows 0 g ++ map api_row (lg_api g).
Definition service_rows (g : logger) : list (list log_value) := posted_rows 1 g ++ map service_row (lg_services g).

(** The rows of a call. *)
Definition rows_of_call (l : LogData) : list (list log_value) :=
  map (fun x => service_row (service_point_of l x)) (requests_of l).

(** The log consists of the finished records [calls] of the book. *)
Record log_of (k : booked) (calls : list LogData) : Prop := {
  lo_sorted : StronglySorted (fun l l' => log_id l < log_id l') calls;
  lo_book : Forall (fun l => bk_book k !! log_id l = Some l /\ wait_send l = true /\ log_id l ∉ bk_open k /\
                             log_id l < next_send (bk_log k)) calls;
  lo_api : api_rows (bk_log k) = map (fun l => api_row (point_of l)) calls;
  lo_services : service_rows (bk_log k) = concat (map rows_of_call calls)
}.

(** ** The invariant *)

(** The slot of [i] holds the record [l] of a call. *)
Record held (k : booked) (i : Z) (l : LogData) : Prop := {
  hd_slot : slot_of (log_id l) = slot_of i;
  hd_id : next_send (bk_log k) <= log_id l <= auto_inc_id_ (bk_log k);
  hd_book : bk_book k !! log_id l = Some l;
  hd_open : wait_send l = false <-> log_id l ∈ bk_open k
}.

Record log_inv (k : booked) : Prop := {
  li_next : 1 <= next_send (bk_log k) <= auto_inc_id_ (bk_log k) + 1;
  li_slots : forall i, slot (logged_call_list_ (bk_log k)) i = new_LogData \/ held k i (slot (logged_call_list_ (bk_log k)) i);
  li_open : forall id, id ∈ bk_open k -> log_id (slot (logged_call_list_ (bk_log k)) id) = id /\ 1 <= id;
  li_book : forall id l, bk_book k !! id = Some l -> log_id l = id /\ 1 <= id <= auto_inc_id_ (bk_log k);
  li_sent : exists calls, log_of k calls;
  li_batch : lg_cnt (bk_log k) = Z.of_nat (length (lg_api (bk_log k))) /\ (lg_api (bk_log k) = [] -> lg_services (bk_log k) = [])
}.

Lemma log_inv_new ip port : log_inv (new_booked ip port).
Proof.
  constructor; cbn [bk_log new_booked next_send new_logger auto_inc_id_ logged_call_list_ bk_open bk_book]; [lia|by left|set_solver|done| |done].
  exists []. constructor; [constructor|done|done|done].
Qed.

(** *** Clients *)

(** The operations of the clients change the slot of their call. *)
Definition edit (f : LogData -> LogData) (id : Z) (g : logger) : logger :=
  lg_with_ring (set_slot id (f (slot (logged_call_list_ g) id)) (logged_call_list_ g)) g.

Lemma client_step e id g g' : client_id e = Some id -> log_step e g = Some g' ->
  g' = if id =? 0 then g else edit (note e) id g.
Proof.
  intros Hid E. destruct e; cbn [client_id] in Hid; simplify_eq; cbn [log_step] in E;
    unfold endServiceCall, sendServiceRequest, getServiceRsp, logServiceFailed in E; unfold edit; cbn [note]; split_if; simplify_eq; try done.
  - destruct (log_reply _ _ _); cbn [mbind option_bind] in E; by simplify_eq.
  - destruct (log_failed _ _ _); cbn [mbind option_bind] in E; by simplify_eq.
Qed.

Lemma on_back_fields f name l : log_id (default l (on_back f name l)) = log_id l /\ wait_send (default l (on_back f name l)) = wait_send l.
Proof. unfold on_back. by destruct (last _). Qed.

Lemma note_id e l : log_id (note e l) = log_id l.
Proof. destruct e; cbn [note]; try done; apply on_back_fields. Qed.

Lemma note_wait e l : wait_send (note e l) = match e with Lg_end _ _ => true | _ => wait_send l end.
Proof. destruct e; cbn [note]; try done; apply on_back_fields. Qed.

(** The record of a call in progress. *)
Lemma open_held k id : log_inv k -> id ∈ bk_open k ->
  held k id (slot (logged_call_list_ (bk_log k)) id) /\ log_id (slot (logged_call_list_ (bk_log k)) id) = id.
Proof.
  intros Hk Hid. destruct (li_open k Hk id Hid) as [E Hpos]. split; [|done].
  destruct (li_slots k Hk id) as [Hn|Hh]; [|done]. rewrite Hn in E. cbn in E. lia.
Qed.

Lemma log_of_change k k' calls : next_send (bk_log k') = next_send (bk_log k) ->
  api_rows (bk_log k') = api_rows (bk_log k) -> service_rows (bk_log k') = service_rows (bk_log k) ->
  (forall id, id ∉ bk_open k -> id < next_send (bk_log k) -> bk_book k' !! id = bk_book k !! id /\ id ∉ bk_open k') ->
  log_of k calls -> log_of k' calls.
Proof.
  intros En Ea Es Hb [H1 H2 H3 H4]. constructor; [done| |congruence|congruence].
  eapply Forall_impl; [exact H2|]. cbn beta. intros l (Hl & Hw & Ho & Hlt). destruct (Hb _ Ho Hlt) as [-> ?]. by rewrite En.
Qed.

Lemma log_inv_client e id k : log_inv k -> client_id e = Some id -> id ∈ bk_open k ->
  log_inv (mk_booked (edit (note e) id (bk_log k)) (open_after e k) (book_after e k)).
Proof.
  intros Hk Hid Ho. destruct (open_held k id Hk Ho) as [Hh El].
  set (l := slot (logged_call_list_ (bk_log k)) id) in *.
  assert (book_after e k = alter (note e) id (bk_book k)) as -> by (by destruct e; cbn [client_id] in Hid; simplify_eq).
  assert (forall j, j <> id -> j ∈ open_after e k <-> j ∈ bk_open k) as Hother
    by (intros j Hj; destruct e; cbn [client_id open_after] in *; simplify_eq; set_solver).
  assert (forall j, j ∈ open_after e k -> j ∈ bk_open k) as Hsub
    by (intros j; destruct e; cbn [client_id open_after] in *; simplify_eq; set_solver).
  assert (wait_send (note e l) = false <-> id ∈ open_after e k) as Hw.
  { rewrite note_wait. destruct Hh as [_ _ _ Hl]. rewrite El in Hl.
    destruct e; cbn [client_id open_after] in *; simplify_eq; set_solver. }
  constructor; cbn [bk_log bk_open bk_book edit lg_with_ring next_send auto_inc_id_ logged_call_list_]; fold l.
  - apply Hk.
  - intros i. destruct (decide (slot_of i = slot_of id)) as [E|E].
    + right. rewrite slot_set_same by done. destruct Hh as [H1 H2 H3 H4].
      constructor; rewrite ?note_id; cbn [bk_log bk_open bk_book edit lg_with_ring next_send auto_inc_id_]; rewrite El in *; [done|done| |done].
      by rewrite lookup_alter_eq, H3.
    + rewrite slot_set_other by done. destruct (li_slots k Hk i) as [Hn|[H1 H2 H3 H4]]; [by left|right].
      assert (log_id (slot (logged_call_list_ (bk_log k)) i) <> id) as Hne by congruence.
      constructor; [done|done| |]; cbn [bk_open bk_book].
      * by rewrite lookup_alter_ne by done.
      * by rewrite Hother.
  - intros j Hj. destruct (li_open k Hk j (Hsub j Hj)) as [E Hpos]. split; [|done].
    destruct (decide (slot_of j = slot_of id)) as [Es|Es].
    + rewrite slot_set_same, note_id by done. rewrite (slot_same _ _ _ Es) in E. done.
    + by rewrite slot_set_other.
  - intros j r Hj. destruct (decide (j = id)) as [->|Hne].
    + rewrite lookup_alter_eq in Hj. apply fmap_Some in Hj as (r' & Hr & ->). rewrite note_id. by apply (li_book k Hk).
    + rewrite lookup_alter_ne in Hj by done. by apply (li_book k Hk).
  - destruct (li_sent k Hk) as [calls Hc]. exists calls. apply (log_of_change k); [done|done|done| |done].
    intros j Hj _. assert (j <> id) by (by intros ->). cbn [bk_book bk_open]. rewrite lookup_alter_ne by done.
    by rewrite Hother.
  - apply Hk.
Qed.

(** *** New calls *)

(** The numbers do not wrap around. *)
Definition numbers_left (k : booked) : Prop := auto_inc_id_ (bk_log k) + 1 < 2 ^ 64.

Lemma startServiceCall_cases now k : log_inv k -> numbers_left k ->
  let id := auto_inc_id_ (bk_log k) + 1 in
  let s := logged_call_list_ (bk_log k) in
  startServiceCall now (bk_log k) =
    if decide (slot s id = new_LogData)
    then (id, lg_with_ring (set_slot id (log_start id now new_LogData) s) (lg_with_id id (bk_log k)))
    else (0, lg_with_id id (bk_log k)).
Proof.
  intros Hk Hn id s. unfold startServiceCall. destruct (li_next k Hk).
  rewrite wrap_small by (unfold numbers_left in Hn; lia). fold id. cbn [logged_call_list_ lg_with_id]. fold s.
  destruct (decide (slot s id = new_LogData)) as [->|Hne]; [done|].
  destruct (li_slots k Hk id) as [?|[_ H2 _ _]]; [done|]. fold s in H2.
  replace (log_id (slot s id) =? 0) with false by lia. by rewrite orb_true_r.
Qed.

Lemma log_inv_start now k : log_inv k -> numbers_left k ->
  log_inv (mk_booked (snd (startServiceCall now (bk_log k))) (open_after (Lg_start now) k) (book_after (Lg_start now) k)).
Proof.
  intros Hk Hn. cbn [open_after book_after client_id]. rewrite startServiceCall_cases by done. cbv zeta.
  set (id := auto_inc_id_ (bk_log k) + 1). pose proof (li_next k Hk) as Hx.
  assert (bk_book k !! id = None) as Hfresh.
  { destruct (bk_book k !! id) eqn:E; [|done]. apply (li_book k Hk) in E. lia. }
  assert (forall j, j ∈ bk_open k -> j <= auto_inc_id_ (bk_log k)) as Hle.
  { intros j Hj. destruct (open_held k j Hk Hj) as [[_ H _ _] E]. lia. }
  destruct (decide _) as [Hnew|Hused]; cbn [fst snd].
  - replace (id =? 0) with false by lia.
    constructor; cbn [bk_log bk_open bk_book lg_with_ring lg_with_id next_send auto_inc_id_ logged_call_list_].
    + lia.
    + intros i. destruct (decide (slot_of i = slot_of id)) as [E|E].
      * right. rewrite slot_set_same by done. constructor; cbn [log_id log_start wait_send new_LogData bk_log bk_open bk_book
          lg_with_ring lg_with_id next_send auto_inc_id_]; [done|lia|by rewrite lookup_insert_eq|set_solver].
      * rewrite slot_set_other by done. destruct (li_slots k Hk i) as [?|[H1 H2 H3 H4]]; [by left|right].
        constructor; cbn [bk_log bk_open bk_book lg_with_ring lg_with_id next_send auto_inc_id_]; [done|lia| |].
        -- rewrite lookup_insert_ne by lia. done.
        -- rewrite H4. assert (log_id (slot (logged_call_list_ (bk_log k)) i) <> id) by lia. set_solver.
    + intros j Hj. destruct (decide (j = id)) as [->|Hne].
      * rewrite slot_set_same by done. cbn. lia.
      * assert (j ∈ bk_open k) as Hj' by set_solver. destruct (li_open k Hk j Hj') as [E Hpos]. split; [|done].
        rewrite slot_set_other; [done|]. intros Es. rewrite (slot_same _ _ _ Es), Hnew in E. cbn in E. lia.
    + intros j r. destruct (decide (j = id)) as [->|Hne].
      * rewrite lookup_insert_eq. intros [= <-]. cbn. lia.
      * rewrite lookup_insert_ne by done. intros Hj. apply (li_book k Hk) in Hj. lia.
    + destruct (li_sent k Hk) as [calls Hc]. exists calls. apply (log_of_change k); [done|done|done| |done].
      intros j Hj Hlt. cbn [bk_book bk_open]. rewrite lookup_insert_ne by lia. split; [done|].
      assert (j <> id) by lia. set_solver.
    + apply Hk.
  - cbn [Z.eqb]. constructor; cbn [bk_log bk_open bk_book lg_with_id next_send auto_inc_id_ logged_call_list_].
    + lia.
    + intros i. destruct (li_slots k Hk i) as [?|[H1 H2 H3 H4]]; [by left|right].
      constructor; cbn [bk_log bk_open bk_book lg_with_id next_send auto_inc_id_]; [done|lia|done|done].
    + apply (li_open k Hk).
    + intros j r Hj. apply (li_book k Hk) in Hj. lia.
    + destruct (li_sent k Hk) as [calls Hc]. exists calls. by apply (log_of_change k).
    + apply Hk.
Qed.

(** *** The sender *)

(** The slot the sender is about to take holds a finished call; unless the
    sender is half a round behind it is the call of the sender's number. *)
Lemma next_call k : log_inv k -> collecting (bk_log k) = true ->
  let l := slot (logged_call_list_ (bk_log k)) (next_send (bk_log k)) in
  held k (next_send (bk_log k)) l /\ wait_send l = true /\
  (w64 (auto_inc_id_ (bk_log k) - next_send (bk_log k)) < MAX_LOG_NUM / 2 -> numbers_left k -> log_id l = next_send (bk_log k)).
Proof.
  intros Hk Hc l. unfold collecting in Hc. fold l in Hc. apply andb_true_iff in Hc as [Hw _].
  destruct (li_slots k Hk (next_send (bk_log k))) as [Hn|Hh]; [fold l in Hn; by rewrite Hn in Hw|].
  fold l in Hh. split_and!; [done|done|]. intros Hlag Hleft. destruct Hh as [H1 H2 _ _]. pose proof (li_next k Hk).
  unfold numbers_left in Hleft. change (2 ^ 64) with 18446744073709551616 in *.
  rewrite wrap_small in Hlag by (change (2 ^ 64) with 18446744073709551616; lia).
  change (MAX_LOG_NUM / 2) with 500000 in Hlag. apply slot_window; [done|]. unfold MAX_LOG_NUM. lia.
Qed.

(** The rest of the ring after a step of the sender. *)
Lemma slots_after_collect k i : log_inv k -> collecting (bk_log k) = true ->
  let s := set_slot (next_send (bk_log k)) new_LogData (logged_call_list_ (bk_log k)) in
  slot s i = new_LogData \/
  (slot s i = slot (logged_call_list_ (bk_log k)) i /\ held k i (slot s i) /\ next_send (bk_log k) + 1 <= log_id (slot s i)).
Proof.
  intros Hk Hc s. destruct (decide (slot_of i = slot_of (next_send (bk_log k)))) as [E|E].
  - left. by apply slot_set_same.
  - unfold s. rewrite slot_set_other by done. destruct (li_slots k Hk i) as [?|Hh]; [by left|right].
    destruct Hh as [H1 H2 H3 H4] eqn:Eh. split_and!; [done|done|].
    assert (log_id (slot (logged_call_list_ (bk_log k)) i) <> next_send (bk_log k)) by congruence. lia.
Qed.

Lemma open_survives_collect k id : log_inv k -> collecting (bk_log k) = true -> id ∈ bk_open k ->
  slot (set_slot (next_send (bk_log k)) new_LogData (logged_call_list_ (bk_log k))) id = slot (logged_call_list_ (bk_log k)) id.
Proof.
  intros Hk Hc Ho. apply slot_set_other. intros E. destruct (next_call k Hk Hc) as (_ & Hw & _).
  destruct (open_held k id Hk Ho) as [[_ _ _ H] Hid]. rewrite Hid in H. apply H in Ho.
  rewrite (slot_same _ _ _ E) in Ho. congruence.
Qed.

Lemma log_inv_collect k : log_inv k -> numbers_left k -> collecting (bk_log k) = true ->
  log_inv (mk_booked (collect (bk_log k)) (bk_open k) (bk_book k)).
Proof.
  intros Hk Hn Hc. destruct (next_call k Hk Hc) as ([H1 H2 H3 H4] & Hw & Hl). pose proof (li_next k Hk) as Hx.
  set (l := slot (logged_call_list_ (bk_log k)) (next_send (bk_log k))) in *.
  assert (w64 (next_send (bk_log k) + 1) = next_send (bk_log k) + 1) as Ew by (apply wrap_small; unfold numbers_left in Hn; lia).
  set (k' := mk_booked (collect (bk_log k)) (bk_open k) (bk_book k)).
  assert (logged_call_list_ (bk_log k') = set_slot (next_send (bk_log k)) new_LogData (logged_call_list_ (bk_log k))) as Er
    by (unfold k', collect; cbn [bk_log]; by split_if).
  assert (next_send (bk_log k') = next_send (bk_log k) + 1) as En by (unfold k', collect; cbn [bk_log]; rewrite Ew; by split_if).
  assert (auto_inc_id_ (bk_log k') = auto_inc_id_ (bk_log k)) as Ea by (unfold k', collect; cbn [bk_log]; by split_if).
  constructor.
  - lia.
  - intros i. rewrite Er. destruct (slots_after_collect k i Hk Hc) as [?|(_ & [G1 G2 G3 G4] & Hge)]; [by left|right].
    constructor; rewrite ?Ea, ?En; [done|lia|done|done].
  - intros j Hj. rewrite Er, open_survives_collect by done. by apply (li_open k Hk).
  - rewrite Ea. apply (li_book k Hk).
  - destruct (li_sent k Hk) as [calls [L1 L2 L3 L4]]. unfold collect in k'. fold l in k'.
    destruct (w64 (auto_inc_id_ (bk_log k) - next_send (bk_log k)) <? MAX_LOG_NUM / 2) eqn:Elag.
    + apply Z.ltb_lt in Elag. specialize (Hl Elag Hn). exists (calls ++ [l]). constructor.
      * apply StronglySorted_app_2; [|done|repeat constructor]. intros x y Hin Hy. apply list_elem_of_singleton in Hy as ->.
        rewrite Forall_forall in L2. destruct (L2 x Hin) as (_ & _ & _ & ?). lia.
      * apply Forall_app. split; [|apply Forall_singleton].
        -- eapply Forall_impl; [exact L2|]. cbn beta. intros x (? & ? & ? & ?). rewrite En. split_and!; [done..|lia].
        -- rewrite En. split_and!; [done|done| |lia]. cbn [bk_open k']. rewrite <- H4, Hw. done.
      * unfold api_rows, posted_rows in *. cbn [bk_log k' lg_posted lg_api]. rewrite map_app, app_assoc, L3, map_app. done.
      * unfold service_rows, posted_rows in *. cbn [bk_log k' lg_posted lg_services].
        rewrite !map_app, app_assoc, L4, concat_app. cbn [map concat]. rewrite app_nil_r. unfold rows_of_call. by rewrite map_map.
    + exists calls. constructor; [done| |done|done].
      eapply Forall_impl; [exact L2|]. cbn beta. intros x (? & ? & ? & ?). rewrite En. split_and!; [done..|lia].
  - destruct (li_batch k Hk) as [B1 B2]. unfold k', collect. cbn [bk_log]. fold l.
    destruct (_ <? _); cbn [lg_cnt lg_api lg_services]; [|done]. split; [rewrite length_app; cbn [length]; lia|].
    intros E. by destruct (lg_api (bk_log k)).
Qed.

(** A message takes what was collected, and a new client changes nothing of
    what the invariant is about. *)
Lemma post_fields sent found g : lg_cnt g = Z.of_nat (length (lg_api g)) -> (lg_api g = [] -> lg_services g = []) ->
  let g' := post sent found g in
  logged_call_list_ g' = logged_call_list_ g /\ auto_inc_id_ g' = auto_inc_id_ g /\ next_send g' = next_send g /\
  lg_cnt g' = 0 /\ lg_api g' = [] /\ lg_services g' = [] /\ api_rows g' = api_rows g /\ service_rows g' = service_rows g.
Proof.
  intros B1 B2. unfold post. cbv zeta. destruct (lg_cnt g =? 0) eqn:E.
  - assert (lg_api g = []) as Ea by (destruct (lg_api g); [done|cbn [length] in B1; lia]).
    split_and!; try done; unfold api_rows, service_rows, posted_rows; cbn [lg_posted lg_api lg_services].
    + by rewrite Ea.
    + by rewrite (B2 Ea).
  - assert (forall c, let g2 := mk_logger (logged_call_list_ g) (auto_inc_id_ g) (next_send g) 0 [] [] (lg_stats g) c
      (lg_posted g ++ [(log_client_ g, log_item_list (lg_api g) (lg_services g))]) in
      api_rows g2 = api_rows g /\ service_rows g2 = service_rows g) as Hrows.
    { intros c. unfold api_rows, service_rows, posted_rows. cbn [lg_posted lg_api lg_services].
      rewrite !map_app, !concat_app. cbn [map concat log_item_list lookup list_lookup from_option li_points snd]. by rewrite !app_nil_r. }
    destruct sent; [by destruct (Hrows (log_client_ g))|]. unfold findLogService.
    destruct found as [address|]; [|by destruct (Hrows (log_client_ g))].
    case_bool_decide; [by destruct (Hrows (log_client_ g))|by destruct (Hrows address)].
Qed.

Lemma log_inv_post sent found k : log_inv k -> log_inv (mk_booked (post sent found (bk_log k)) (bk_open k) (bk_book k)).
Proof.
  intros Hk. destruct (li_batch k Hk) as [B1 B2].
  destruct (post_fields sent found (bk_log k) B1 B2) as (E1 & E2 & E3 & E4 & E5 & E6 & E7 & E8).
  constructor; cbn [bk_log bk_open bk_book]; rewrite ?E1, ?E2, ?E3, ?E4, ?E5, ?E6.
  - apply Hk.
  - intros i. destruct (li_slots k Hk i) as [?|[H1 H2 H3 H4]]; [by left|right].
    constructor; cbn [bk_log bk_open bk_book]; by rewrite ?E2, ?E3.
  - apply Hk.
  - apply Hk.
  - destruct (li_sent k Hk) as [calls Hc]. exists calls. by apply (log_of_change k).
  - done.
Qed.

(** *** Runs *)

(** Nothing is noted under the number 0. *)
Lemma nothing_for_zero e k : log_inv k -> client_id e = Some 0 -> open_after e k = bk_open k /\ book_after e k = bk_book k.
Proof.
  intros Hk Hid. assert ((0 : Z) ∉ bk_open k) as H0 by (intros H; apply (li_open k Hk) in H; lia).
  assert (alter (note e) 0 (bk_book k) = bk_book k) as Ha.
  { apply map_eq. intros i. destruct (decide (i = 0)) as [->|?]; [|by rewrite lookup_alter_ne].
    rewrite lookup_alter_eq. destruct (bk_book k !! 0) eqn:E; [|done]. apply (li_book k Hk) in E. lia. }
  destruct e; cbn [client_id] in Hid; simplify_eq; cbn [open_after book_after client_id]; split; try done. set_solver.
Qed.

Lemma log_inv_step e k k' : log_inv k -> numbers_left k -> booked_step e k = Some k' -> log_inv k'.
Proof.
  intros Hk Hn E. unfold booked_step in E. destruct (disciplined e k) eqn:Ed; [|done].
  destruct (log_step e (bk_log k)) as [g|] eqn:Eg; cbn [mbind option_bind] in E; [|done]. simplify_eq.
  destruct (client_id e) as [id|] eqn:Hid.
  - unfold disciplined in Ed. rewrite Hid in Ed. apply bool_decide_eq_true in Ed. rewrite (client_step e id _ _ Hid Eg).
    destruct (Z.eqb_spec id 0) as [->|Hne].
    + destruct (nothing_for_zero e k Hk Hid) as [-> ->]. by destruct k.
    + destruct Ed as [|Ho]; [done|]. by apply log_inv_client.
  - destruct e; cbn [client_id] in Hid; try done; cbn [log_step] in Eg.
    + simplify_eq. by apply log_inv_start.
    + destruct (collecting (bk_log k)) eqn:Ec; [|done]. simplify_eq. by apply log_inv_collect.
    + destruct (collecting (bk_log k)); [done|]. simplify_eq. by apply log_inv_post.
Qed.

Lemma auto_inc_step e k k' : log_inv k -> numbers_left k -> booked_step e k = Some k' ->
  auto_inc_id_ (bk_log k') <= auto_inc_id_ (bk_log k) + 1.
Proof.
  intros Hk Hn E. unfold booked_step in E. destruct (disciplined e k); [|done].
  destruct (log_step e (bk_log k)) as [g|] eqn:Eg; cbn [mbind option_bind] in E; [|done]. simplify_eq. cbn [bk_log].
  destruct (client_id e) as [id|] eqn:Hid.
  - rewrite (client_step e id _ _ Hid Eg). destruct (id =? 0); cbn [edit lg_with_ring auto_inc_id_]; lia.
  - destruct e; cbn [client_id] in Hid; try done; cbn [log_step] in Eg.
    + simplify_eq. rewrite startServiceCall_cases by done. destruct (decide _); cbn; lia.
    + destruct (collecting (bk_log k)); [|done]. simplify_eq. unfold collect. split_if; cbn; lia.
    + destruct (collecting (bk_log k)); [done|]. simplify_eq. destruct (li_batch k Hk) as [B1 B2].
      destruct (post_fields sent found (bk_log k) B1 B2) as (_ & E2 & _). lia.
Qed.

Lemma log_inv_run es k k' : log_inv k -> auto_inc_id_ (bk_log k) + Z.of_nat (length es) < 2 ^ 64 ->
  booked_run es k = Some k' -> log_inv k'.
Proof.
  revert k. induction es as [|e es IH]; intros k Hk Hn E; cbn [booked_run] in E; [by simplify_eq|].
  destruct (booked_step e k) as [k1|] eqn:E1; cbn [mbind option_bind] in E; [|done]. cbn [length] in Hn.
  assert (numbers_left k) as Hl by (unfold numbers_left; lia).
  apply (IH k1); [by apply (log_inv_step e k)| |done]. pose proof (auto_inc_step e k k1 Hk Hl E1). lia.
Qed.

(** C10: Whatever calls run at the same time and however the sender keeps up,
    the messages to the log service are the book's records of finished calls:
    both series hold exactly their rows, in the order of the numbers, every
    call at most once.  The ring never mixes two calls. *)
Theorem log_is_faithful es ip port k :
  Z.of_nat (length es) < 2 ^ 64 -> booked_run es (new_booked ip port) = Some k ->
  exists calls,
    StronglySorted (fun l l' => log_id l < log_id l') calls /\
    Forall (fun l => bk_book k !! log_id l = Some l /\ wait_send l = true /\ log_id l ∉ bk_open k) calls /\
    api_rows (bk_log k) = map (fun l => api_row (point_of l)) calls /\
    service_rows (bk_log k) = concat (map rows_of_call calls).
Proof.
  intros Hn E. destruct (li_sent k (log_inv_run es _ k (log_inv_new ip port) Hn E)) as [calls [H1 H2 H3 H4]].
  exists calls. split_and!; [done| |done|done]. eapply Forall_impl; [exact H2|]. by intros l (? & ? & ? & ?).
Qed.

(** ** A call that is not ended *)

Lemma open_stays e id k k' : booked_step e k = Some k' -> id ∈ bk_open k ->
  (forall now, e <> Lg_end id now) -> id ∈ bk_open k'.
Proof.
  intros E Ho He. unfold booked_step in E. destruct (disciplined e k); [|done].
  destruct (log_step e (bk_log k)); cbn [mbind option_bind] in E; [|done]. simplify_eq. cbn [bk_open].
  destruct e; cbn [open_after]; try done.
  - destruct (_ =? _); set_solver.
  - assert (id <> id0) by (intros ->; by apply (He now)). set_solver.
Qed.

Lemma open_run es id k k' : booked_run es k = Some k' -> id ∈ bk_open k ->
  Forall (fun e => forall now, e <> Lg_end id now) es -> id ∈ bk_open k'.
Proof.
  revert k. induction es as [|e es IH]; intros k E Ho Hes; cbn [booked_run] in E; [by simplify_eq|].
  destruct (booked_step e k) as [k1|] eqn:E1; cbn [mbind option_bind] in E; [|done].
  apply Forall_cons in Hes as [He Hes]. apply (IH k1); [done| |done]. by apply (open_stays e id k).
Qed.

Lemma booked_run_app es1 es2 k : booked_run (es1 ++ es2) k = (k ← booked_run es1 k; booked_run es2 k).
Proof.
  revert k. induction es1 as [|e es1 IH]; intros k; [done|]. cbn [app booked_run].
  destruct (booked_step e k); cbn [mbind option_bind]; [apply IH|done].
Qed.

(** A call that was given a number and is never ended stops the log: the
    sender never gets past its slot, so that whatever is called and however
    long the sender runs, only calls with smaller numbers are ever sent. *)
Lemma unended_call_stops_log es1 now es2 ip port k k' id :
  Z.of_nat (length (es1 ++ Lg_start now :: es2)) < 2 ^ 64 ->
  booked_run es1 (new_booked ip port) = Some k -> fst (startServiceCall now (bk_log k)) = id -> id <> 0 ->
  Forall (fun e => forall now, e <> Lg_end id now) es2 -> booked_run (Lg_start now :: es2) k = Some k' ->
  next_send (bk_log k') <= id /\
  exists calls, api_rows (bk_log k') = map (fun l => api_row (point_of l)) calls /\ Forall (fun l => log_id l < id) calls.
Proof.
  intros Hn E1 Hid Hne Hes E2.
  assert (log_inv k') as Hk'.
  { apply (log_inv_run (es1 ++ Lg_start now :: es2) (new_booked ip port)); [apply log_inv_new|done|].
    by rewrite booked_run_app, E1. }
  assert (id ∈ bk_open k') as Ho.
  { cbn [booked_run] in E2. unfold booked_step in E2. cbn [disciplined client_id log_step mbind option_bind] in E2.
    refine (open_run es2 id _ k' E2 _ Hes). cbn [bk_open open_after]. rewrite Hid.
    replace (id =? 0) with false by lia. set_solver. }
  destruct (open_held k' id Hk' Ho) as [[_ H _ _] Eid]. rewrite Eid in H. split; [lia|].
  destruct (li_sent k' Hk') as [calls [_ L2 L3 _]]. exists calls. split; [done|].
  eapply Forall_impl; [exact L2|]. cbn beta. intros l (_ & _ & _ & ?). lia.
Qed.

(** ** Finished calls are sent *)

(** The calls from the sender's number on are finished, and the sender is less
    than half a round behind. *)
Record sendable (g : logger) : Prop := {
  sd_range : 1 <= next_send g <= auto_inc_id_ g + 1;
  sd_left : auto_inc_id_ g + 1 < 2 ^ 64;
  sd_lag : auto_inc_id_ g - next_send g < MAX_LOG_NUM / 2;
  sd_wait : forall i, next_send g <= i <= auto_inc_id_ g -> wait_send (slot (logged_call_list_ g) i) = true;
  sd_end : wait_send (slot (logged_call_list_ g) (auto_inc_id_ g + 1)) = false
}.

Lemma collect_sendable g : sendable g -> next_send g <= auto_inc_id_ g ->
  let l := slot (logged_call_list_ g) (next_send g) in
  sendable (collect g) /\ auto_inc_id_ (collect g) = auto_inc_id_ g /\ next_send (collect g) = next_send g + 1 /\
  lg_cnt (collect g) = lg_cnt g + 1 /\ lg_api (collect g) = lg_api g ++ [point_of l] /\
  lg_services (collect g) = lg_services g ++ map (service_point_of l) (requests_of l) /\ lg_posted (collect g) = lg_posted g /\
  (forall i, next_send g < i <= auto_inc_id_ g + 1 -> slot (logged_call_list_ (collect g)) i = slot (logged_call_list_ g) i).
Proof.
  intros [R1 R2 R3 R4 R5] Hle l. change (MAX_LOG_NUM / 2) with 500000 in R3.
  assert (forall i, next_send g < i <= auto_inc_id_ g + 1 ->
    slot (set_slot (next_send g) (LogData_reset l) (logged_call_list_ g)) i = slot (logged_call_list_ g) i) as Hslot.
  { intros i Hi. apply slot_set_other. intros E. apply eq_sym, slot_window in E; unfold MAX_LOG_NUM in *; lia. }
  assert (collect g = mk_logger (set_slot (next_send g) (LogData_reset l) (logged_call_list_ g)) (auto_inc_id_ g) (next_send g + 1)
    (lg_cnt g + 1) (lg_api g ++ [point_of l]) (lg_services g ++ map (service_point_of l) (requests_of l))
    (add_requests l (lg_stats g)) (log_client_ g) (lg_posted g)) as ->.
  { unfold collect. fold l. rewrite !wrap_small by lia. change (MAX_LOG_NUM / 2) with 500000.
    by replace (auto_inc_id_ g - next_send g <? 500000) with true by lia. }
  split_and!; try done. constructor; cbn [auto_inc_id_ next_send logged_call_list_]; [lia|lia|change (MAX_LOG_NUM / 2) with 500000; lia| |].
  - intros i Hi. rewrite Hslot by lia. apply R4. lia.
  - by rewrite Hslot by lia.
Qed.

(** The records of [n] calls from [a] on. *)
Definition records (g : logger) (a : Z) (n : nat) : list LogData := map (slot (logged_call_list_ g)) (seqZ a (Z.of_nat n)).

Lemma records_S g a n : records g a (S n) = slot (logged_call_list_ g) a :: records g (a + 1) n.
Proof. unfold records. rewrite seqZ_cons by lia. cbn [map]. do 3 f_equal; lia. Qed.

Lemma records_ext g g' a n : (forall i, a <= i < a + Z.of_nat n -> slot (logged_call_list_ g') i = slot (logged_call_list_ g) i) ->
  records g' a n = records g a n.
Proof. intros H. apply map_ext_in. intros i Hi. apply H, elem_of_seqZ, list_elem_of_In, Hi. Qed.

(** What the sender has collected. *)
Record collected (g g' : logger) (l : list LogData) : Prop := {
  co_sendable : sendable g';
  co_auto : auto_inc_id_ g' = auto_inc_id_ g;
  co_next : next_send g' = next_send g + Z.of_nat (length l);
  co_cnt : lg_cnt g' = lg_cnt g + Z.of_nat (length l);
  co_api : lg_api g' = lg_api g ++ map point_of l;
  co_services : lg_services g' = lg_services g ++ concat (map (fun l => map (service_point_of l) (requests_of l)) l);
  co_posted : lg_posted g' = lg_posted g;
  co_slots : forall i, next_send g' <= i <= auto_inc_id_ g + 1 -> slot (logged_call_list_ g') i = slot (logged_call_list_ g) i
}.

Lemma collect_all_sendable n fuel g : sendable g ->
  Z.of_nat n = Z.min (MAX_LOG_SEND_NUM - lg_cnt g) (auto_inc_id_ g + 1 - next_send g) -> (n < fuel)%nat ->
  exists g', collect_all fuel g = Some g' /\ collected g g' (records g (next_send g) n).
Proof.
  revert fuel g. induction n as [|n IH]; intros [|fuel] g Hg Hn Hf; try lia; cbn [collect_all].
  - exists g. replace (collecting g) with false.
    + split; [done|]. change (records g (next_send g) 0) with (@nil LogData).
      constructor; cbn [length map concat]; rewrite ?app_nil_r; try done; lia.
    + symmetry. unfold collecting. destruct (decide (next_send g = auto_inc_id_ g + 1)) as [E|E].
      * by rewrite E, (sd_end g Hg).
      * apply andb_false_iff. right. pose proof (sd_range g Hg). lia.
  - assert (next_send g <= auto_inc_id_ g) as Hle by lia.
    destruct (collect_sendable g Hg Hle) as (G1 & G2 & G3 & G4 & G5 & G6 & G7 & G8).
    replace (collecting g) with true.
    2: { symmetry. unfold collecting. rewrite (sd_wait g Hg) by lia. cbn [andb]. lia. }
    destruct (IH fuel (collect g) G1) as (g' & E & [C1 C2 C3 C4 C5 C6 C7 C8]); [rewrite G2, G3, G4; lia|lia|].
    assert (records (collect g) (next_send (collect g)) n = records g (next_send g + 1) n) as Er.
    { rewrite G3. apply records_ext. intros i Hi. apply G8. lia. }
    rewrite Er in *. exists g'. split; [done|]. rewrite records_S. constructor; cbn [length map concat].
    + done.
    + congruence.
    + lia.
    + lia.
    + rewrite C5, G5. by rewrite <- app_assoc.
    + rewrite C6, G6. by rewrite <- app_assoc.
    + congruence.
    + intros i Hi. rewrite C8 by lia. apply G8. lia.
Qed.

(** The effect of rounds of the sender that have sent the calls [l]. *)
Record delivered (g g' : logger) (l : list LogData) : Prop := {
  de_sendable : sendable g';
  de_auto : auto_inc_id_ g' = auto_inc_id_ g;
  de_next : next_send g' = next_send g + Z.of_nat (length l);
  de_idle : lg_cnt g' = 0 /\ lg_api g' = [] /\ lg_services g' = [];
  de_api : api_rows g' = api_rows g ++ map (fun l => api_row (point_of l)) l;
  de_services : service_rows g' = service_rows g ++ concat (map rows_of_call l);
  de_slots : forall i, next_send g' <= i <= auto_inc_id_ g + 1 -> slot (logged_call_list_ g') i = slot (logged_call_list_ g) i
}.

Lemma length_records g a n : length (records g a n) = n.
Proof. unfold records. rewrite length_map, length_seqZ. lia. Qed.

Lemma collected_rows g g' l : collected g g' l ->
  api_rows g' = api_rows g ++ map (fun l => api_row (point_of l)) l /\ service_rows g' = service_rows g ++ concat (map rows_of_call l).
Proof.
  intros [_ _ _ _ C5 C6 C7 _]. unfold api_rows, service_rows, posted_rows. rewrite C5, C6, C7, !map_app, !app_assoc, map_map.
  split; [done|]. f_equal. rewrite concat_map, map_map. f_equal. apply map_ext. intros x. unfold rows_of_call. by rewrite map_map.
Qed.

Lemma round_delivers fuel sent found n g : sendable g -> lg_cnt g = 0 /\ lg_api g = [] /\ lg_services g = [] ->
  Z.of_nat n = Z.min MAX_LOG_SEND_NUM (auto_inc_id_ g + 1 - next_send g) -> (n < fuel)%nat ->
  exists g', sendLogToDB_round fuel sent found g = Some g' /\ delivered g g' (records g (next_send g) n).
Proof.
  intros Hg (Hc & Ha & Hs) Hn Hf. unfold sendLogToDB_round.
  destruct (collect_all_sendable n fuel g Hg) as (g1 & E & Hco); [rewrite Hc; lia|done|].
  destruct (collected_rows _ _ _ Hco) as [R1 R2]. destruct Hco as [C1 C2 C3 C4 C5 C6 C7 C8].
  rewrite E. cbn [mbind option_bind]. eexists. split; [done|].
  destruct (post_fields sent found g1) as (P1 & P2 & P3 & P4 & P5 & P6 & P7 & P8).
  - rewrite C4, C5, Hc, Ha, app_nil_l, length_map. lia.
  - intros Hnil. rewrite C5, Ha in Hnil. rewrite C6, Hs. by destruct (records g (next_send g) n).
  - constructor.
    + destruct C1 as [S1 S2 S3 S4 S5]. constructor; rewrite ?P1, ?P2, ?P3; done.
    + congruence.
    + congruence.
    + done.
    + by rewrite P7.
    + by rewrite P8.
    + intros i. rewrite P1, P3. apply C8.
Qed.

Lemma delivered_trans g g1 g2 n m : delivered g g1 (records g (next_send g) n) ->
  delivered g1 g2 (records g1 (next_send g1) m) -> next_send g1 + Z.of_nat m <= auto_inc_id_ g + 1 ->
  delivered g g2 (records g (next_send g) (n + m)).
Proof.
  intros [D1 D2 D3 D4 D5 D6 D7] [F1 F2 F3 F4 F5 F6 F7] Hm. rewrite length_records in *.
  assert (records g (next_send g) (n + m) = records g (next_send g) n ++ records g1 (next_send g1) m) as ->.
  { rewrite (records_ext g g1) by (intros i Hi; apply D7; lia). rewrite D3. unfold records.
    rewrite <- map_app. f_equal. rewrite Nat2Z.inj_add, seqZ_app by lia. do 2 f_equal; lia. }
  constructor; [done|congruence|rewrite length_app, !length_records; lia|done| | |].
  - rewrite F5, D5, map_app. by rewrite app_assoc.
  - rewrite F6, D6, map_app, concat_app. by rewrite app_assoc.
  - intros i Hi. rewrite F7 by lia. apply D7. lia.
Qed.

Lemma sendLogToDB_delivers fuel outcomes n g : sendable g -> lg_cnt g = 0 /\ lg_api g = [] /\ lg_services g = [] ->
  Z.of_nat n = auto_inc_id_ g + 1 - next_send g -> Z.of_nat n <= MAX_LOG_SEND_NUM * Z.of_nat (length outcomes) ->
  MAX_LOG_SEND_NUM < Z.of_nat fuel ->
  exists g', sendLogToDB fuel outcomes g = Some g' /\ delivered g g' (records g (next_send g) n).
Proof.
  revert n g. induction outcomes as [|[sent found] outcomes IH]; intros n g Hg Hi Hn Ho Hf; cbn [sendLogToDB length] in *.
  - assert (n = 0%nat) as -> by lia. exists g. split; [done|]. change (records g (next_send g) 0) with (@nil LogData).
    constructor; cbn [length map concat]; rewrite ?app_nil_r; try done; lia.
  - set (m := Z.to_nat (Z.min MAX_LOG_SEND_NUM (Z.of_nat n))). assert (m <= n)%nat as Hm by (unfold m, MAX_LOG_SEND_NUM in *; lia).
    destruct (round_delivers fuel sent found m g Hg Hi) as (g1 & E & Hd); [unfold m, MAX_LOG_SEND_NUM in *; lia..|].
    rewrite E. cbn [mbind option_bind]. pose proof Hd as [D1 D2 D3 D4 _ _ _]. rewrite length_records in D3.
    destruct (IH (n - m)%nat g1 D1 D4) as (g2 & E2 & Hd2); [lia|unfold m, MAX_LOG_SEND_NUM in *; lia|done|].
    exists g2. split; [done|]. replace n with (m + (n - m))%nat by lia. apply (delivered_trans g g1 g2); [done|done|lia].
Qed.

(** *** When no call was refused a number *)

Definition none_refused (k : booked) : Prop := forall i, 1 <= i <= auto_inc_id_ (bk_log k) -> is_Some (bk_book k !! i).

(** Then the calls that have not been sent are all in their slots. *)
Definition all_held (k : booked) : Prop :=
  none_refused k -> forall i, next_send (bk_log k) <= i <= auto_inc_id_ (bk_log k) -> log_id (slot (logged_call_list_ (bk_log k)) i) = i.

Lemma all_held_start now k : log_inv k -> numbers_left k -> all_held k ->
  all_held (mk_booked (snd (startServiceCall now (bk_log k))) (open_after (Lg_start now) k) (book_after (Lg_start now) k)).
Proof.
  intros Hk Hn Hall. cbn [open_after book_after]. rewrite startServiceCall_cases by done. cbv zeta.
  set (id := auto_inc_id_ (bk_log k) + 1). pose proof (li_next k Hk) as Hx. unfold all_held, none_refused.
  destruct (decide _) as [Hnew|Hused]; cbn [fst snd].
  - replace (id =? 0) with false by lia.
    cbn [bk_log bk_book lg_with_ring lg_with_id next_send auto_inc_id_ logged_call_list_]. intros Hc i Hi.
    destruct (decide (i = id)) as [->|Hne]; [by rewrite slot_set_same|].
    assert (log_id (slot (logged_call_list_ (bk_log k)) i) = i) as E.
    { apply Hall; [|lia]. intros j Hj. destruct (Hc j) as [r Hr]; [lia|]. rewrite lookup_insert_ne in Hr by lia. by exists r. }
    rewrite slot_set_other; [done|]. intros Es. rewrite (slot_same _ _ _ Es), Hnew in E. cbn in E. lia.
  - cbn [Z.eqb bk_log bk_book lg_with_id next_send auto_inc_id_ logged_call_list_]. intros Hc i Hi.
    destruct (Hc id) as [r Hr]; [lia|]. apply (li_book k Hk) in Hr. lia.
Qed.

Lemma all_held_collect k : log_inv k -> collecting (bk_log k) = true -> numbers_left k -> all_held k ->
  all_held (mk_booked (collect (bk_log k)) (bk_open k) (bk_book k)).
Proof.
  intros Hk Hc Hn Hall. destruct (next_call k Hk Hc) as ([_ H2 _ _] & _ & _). pose proof (li_next k Hk) as Hx.
  assert (w64 (next_send (bk_log k) + 1) = next_send (bk_log k) + 1) as Ew by (apply wrap_small; unfold numbers_left in Hn; lia).
  unfold all_held, none_refused. cbn [bk_log bk_book].
  assert (auto_inc_id_ (collect (bk_log k)) = auto_inc_id_ (bk_log k) /\ next_send (collect (bk_log k)) = next_send (bk_log k) + 1 /\
    logged_call_list_ (collect (bk_log k)) = set_slot (next_send (bk_log k)) new_LogData (logged_call_list_ (bk_log k)))
    as (-> & -> & ->) by (unfold collect; rewrite Ew; by split_if).
  intros Hcomp i Hi. rewrite slot_set_other; [apply Hall; [done|lia]|].
  intros Es. pose proof (Hall Hcomp i ltac:(lia)) as E1. pose proof (Hall Hcomp (next_send (bk_log k)) ltac:(lia)) as E2.
  rewrite (slot_same _ _ _ Es) in E1. lia.
Qed.

Lemma all_held_step e k k' : log_inv k -> numbers_left k -> all_held k -> booked_step e k = Some k' -> all_held k'.
Proof.
  intros Hk Hn Hall E. unfold booked_step in E. destruct (disciplined e k) eqn:Ed; [|done].
  destruct (log_step e (bk_log k)) as [g|] eqn:Eg; cbn [mbind option_bind] in E; [|done]. simplify_eq.
  destruct (client_id e) as [id|] eqn:Hid.
  - unfold disciplined in Ed. rewrite Hid in Ed. apply bool_decide_eq_true in Ed. rewrite (client_step e id _ _ Hid Eg).
    destruct (Z.eqb_spec id 0) as [->|Hne].
    + destruct (nothing_for_zero e k Hk Hid) as [-> ->]. by destruct k.
    + assert (book_after e k = alter (note e) id (bk_book k)) as -> by (by destruct e; cbn [client_id] in Hid; simplify_eq).
      intros Hc i Hi. cbn [bk_log edit lg_with_ring next_send auto_inc_id_ logged_call_list_] in *.
      assert (log_id (slot (logged_call_list_ (bk_log k)) i) = i) as Ei.
      { apply Hall; [|done]. intros j Hj. specialize (Hc j Hj). cbn [bk_book] in Hc. rewrite lookup_alter in Hc.
        by destruct (decide (id = j)) as [->|]; [apply fmap_is_Some in Hc|]. }
      destruct (decide (slot_of i = slot_of id)) as [Es|Es]; [|by rewrite slot_set_other].
      rewrite slot_set_same, note_id by done. by rewrite (slot_same _ _ _ Es) in Ei.
  - destruct e; cbn [client_id] in Hid; try done; cbn [log_step] in Eg.
    + simplify_eq. by apply all_held_start.
    + destruct (collecting (bk_log k)) eqn:Ec; [|done]. simplify_eq. by apply all_held_collect.
    + destruct (collecting (bk_log k)); [done|]. simplify_eq. destruct (li_batch k Hk) as [B1 B2].
      destruct (post_fields sent found (bk_log k) B1 B2) as (E1 & E2 & E3 & _).
      unfold all_held, none_refused. cbn [bk_log bk_book open_after book_after client_id]. by rewrite E1, E2, E3.
Qed.

Lemma all_held_run es k k' : log_inv k -> all_held k -> auto_inc_id_ (bk_log k) + Z.of_nat (length es) < 2 ^ 64 ->
  booked_run es k = Some k' -> all_held k'.
Proof.
  revert k. induction es as [|e es IH]; intros k Hk Ha Hn E; cbn [booked_run] in E; [by simplify_eq|].
  destruct (booked_step e k) as [k1|] eqn:E1; cbn [mbind option_bind] in E; [|done]. cbn [length] in Hn.
  assert (numbers_left k) as Hl by (unfold numbers_left; lia).
  apply (IH k1); [by apply (log_inv_step e k)|by apply (all_held_step e k)| |done].
  pose proof (auto_inc_step e k k1 Hk Hl E1). lia.
Qed.

(** The numbers grow with the events. *)
Lemma auto_inc_run es k k' : log_inv k -> auto_inc_id_ (bk_log k) + Z.of_nat (length es) < 2 ^ 64 ->
  booked_run es k = Some k' -> auto_inc_id_ (bk_log k') <= auto_inc_id_ (bk_log k) + Z.of_nat (length es).
Proof.
  revert k. induction es as [|e es IH]; intros k Hk Hn E; cbn [booked_run length] in *; [simplify_eq; lia|].
  destruct (booked_step e k) as [k1|] eqn:E1; cbn [mbind option_bind] in E; [|done].
  assert (numbers_left k) as Hl by (unfold numbers_left; lia).
  pose proof (auto_inc_step e k k1 Hk Hl E1). pose proof (log_inv_step e k k1 Hk Hl E1) as Hk1.
  specialize (IH k1 Hk1 ltac:(lia) E). lia.
Qed.

Lemma sendable_when_all_ended k : log_inv k -> all_held k -> numbers_left k -> bk_open k = ∅ -> none_refused k ->
  auto_inc_id_ (bk_log k) - next_send (bk_log k) < MAX_LOG_NUM / 2 ->
  sendable (bk_log k) /\
  forall i, next_send (bk_log k) <= i <= auto_inc_id_ (bk_log k) -> bk_book k !! i = Some (slot (logged_call_list_ (bk_log k)) i).
Proof.
  intros Hk Ha Hn Ho Hc Hlag. pose proof (li_next k Hk) as Hx. change (MAX_LOG_NUM / 2) with 500000 in Hlag.
  assert (forall i, next_send (bk_log k) <= i <= auto_inc_id_ (bk_log k) -> held k i (slot (logged_call_list_ (bk_log k)) i)) as Hheld.
  { intros i Hi. destruct (li_slots k Hk i) as [Hn'|]; [|done]. pose proof (Ha Hc i Hi) as E. rewrite Hn' in E. cbn in E. lia. }
  split.
  - constructor; [lia|done|by change (MAX_LOG_NUM / 2) with 500000| |].
    + intros i Hi. destruct (Hheld i Hi) as [_ _ _ H]. rewrite Ho in H.
      destruct (wait_send _); [done|]. exfalso. destruct H as [H _]. specialize (H eq_refl). set_solver.
    + destruct (li_slots k Hk (auto_inc_id_ (bk_log k) + 1)) as [->|[H1 H2 _ _]]; [done|].
      apply slot_window in H1; unfold MAX_LOG_NUM; lia.
  - intros i Hi. destruct (Hheld i Hi) as [_ _ H _]. by rewrite (Ha Hc i Hi) in H.
Qed.

(** C30: When the calls have ended, none was refused a number and the sender is
    less than half a round behind, the loop of [sendLogToDB] ends its rounds
    and has sent the records of all the calls it had not yet sent, in order,
    after one round per thousand of them, whether the posts succeed or not. *)
Theorem finished_calls_are_sent es ip port k fuel outcomes :
  Z.of_nat (length es) + 1 < 2 ^ 64 -> booked_run es (new_booked ip port) = Some k ->
  bk_open k = ∅ -> none_refused k -> lg_cnt (bk_log k) = 0 ->
  auto_inc_id_ (bk_log k) - next_send (bk_log k) < MAX_LOG_NUM / 2 ->
  auto_inc_id_ (bk_log k) + 1 - next_send (bk_log k) <= MAX_LOG_SEND_NUM * Z.of_nat (length outcomes) ->
  MAX_LOG_SEND_NUM < Z.of_nat fuel ->
  exists g calls, sendLogToDB fuel outcomes (bk_log k) = Some g /\ next_send g = auto_inc_id_ (bk_log k) + 1 /\
    map Some calls = map (fun i => bk_book k !! i)
      (seqZ (next_send (bk_log k)) (auto_inc_id_ (bk_log k) + 1 - next_send (bk_log k))) /\
    api_rows g = api_rows (bk_log k) ++ map (fun l => api_row (point_of l)) calls /\
    service_rows g = service_rows (bk_log k) ++ concat (map rows_of_call calls).
Proof.
  intros Hn E Ho Hc H0 Hlag Hout Hf.
  pose proof (log_inv_run es _ k (log_inv_new ip port) ltac:(cbn; lia) E) as Hk.
  assert (all_held k) as Ha by (refine (all_held_run es _ k (log_inv_new ip port) _ _ E); [intros _ i; cbn; lia|cbn; lia]).
  assert (numbers_left k) as Hl.
  { pose proof (auto_inc_run es _ k (log_inv_new ip port) ltac:(cbn; lia) E) as H. cbn in H. unfold numbers_left. lia. }
  destruct (sendable_when_all_ended k Hk Ha Hl Ho Hc Hlag) as [Hs Hb]. pose proof (sd_range _ Hs) as Hr.
  destruct (li_batch k Hk) as [B1 B2].
  assert (lg_api (bk_log k) = []) as Hnil by (destruct (lg_api (bk_log k)); [done|cbn [length] in B1; lia]).
  set (n := Z.to_nat (auto_inc_id_ (bk_log k) + 1 - next_send (bk_log k))).
  destruct (sendLogToDB_delivers fuel outcomes n (bk_log k) Hs) as (g & Eg & [_ _ D3 _ D5 D6 _]);
    [by rewrite (B2 Hnil)|lia|lia|done|].
  exists g, (records (bk_log k) (next_send (bk_log k)) n). rewrite length_records in D3. split_and!; [done|lia| |done|done].
  unfold records. rewrite map_map. replace (Z.of_nat n) with (auto_inc_id_ (bk_log k) + 1 - next_send (bk_log k)) by lia.
  apply map_ext_in. intros i Hi. apply list_elem_of_In, elem_of_seqZ in Hi. symmetry. apply Hb. lia.
Qed.

End Book.

(** ** Latencies *)

(** The row of the last request of a service. *)
Definition last_request (name : bytes) (l : LogData) : option RequestData :=
  last (default [] (service_send_reply_times l !! name)).

Lemma log_send_last name host port now l :
  last_request name (log_send name host port now l) = Some (mk_RequestData now 0 (host ++ b ":" ++ port) []).
Proof. unfold last_request, log_send. cbn [with_times service_send_reply_times]. rewrite lookup_insert_eq. cbn [from_option id]. by rewrite last_snoc. Qed.

Lemma on_back_last f name l r : last_request name l = Some r ->
  exists l', on_back f name l = Some l' /\ last_request name l' = Some (f r).
Proof.
  unfold last_request, on_back. intros ->. eexists. split; [done|]. cbn [with_times service_send_reply_times].
  rewrite lookup_insert_eq. cbn [from_option id]. by rewrite last_snoc.
Qed.

(** A request whose sending fails has no end: its latency, a difference of
    [uint64_t], is that of a request that began at the epoch of the clock
    counted down from [2 ^ 64]. *)
Lemma failed_send_latency name host port msg now l : 0 < now < 2 ^ 64 ->
  exists l' r, log_failed name msg (log_send name host port now l) = Some l' /\ last_request name l' = Some r /\
    latency (rd_start_time r) (rd_end_time r) = 2 ^ 64 - now.
Proof.
  intros H. destruct (on_back_last (fun r => mk_RequestData (rd_start_time r) (rd_end_time r) (host_port r) msg) name _ _
    (log_send_last name host port now l)) as (l' & E & Hr).
  exists l', (mk_RequestData now 0 (host ++ b ":" ++ port) msg). split_and!; [done|done|]. cbn [rd_start_time rd_end_time]. unfold latency, wrap.
  replace (0 - now) with (2 ^ 64 - now + (-1) * 2 ^ 64) by lia. rewrite Z.mod_add by lia. apply Z.mod_small. lia.
Qed.

(** Two requests of a call to the same service, answered one after the other:
    both answers are booked on the second. *)
Lemma replies_share_last_request name host port host' port' t1 t2 t3 t4 :
  exists l, (log_reply name t3 (log_send name host' port' t2 (log_send name host port t1 new_LogData)) ≫= log_reply name t4) = Some l /\
    service_send_reply_times l !! name =
      Some [mk_RequestData t1 0 (host ++ b ":" ++ port) []; mk_RequestData t2 t4 (host' ++ b ":" ++ port') []].
Proof.
  unfold log_reply, on_back, log_send. cbn [with_times service_send_reply_times new_LogData].
  rewrite lookup_empty. cbn [from_option id app]. rewrite lookup_insert_eq. cbn [from_option id app].
  rewrite lookup_insert_eq. cbn [from_option id last length Nat.sub take app mbind option_bind with_times service_send_reply_times].
  rewrite lookup_insert_eq. cbn [from_option id last length Nat.sub take app]. eexists. split; [done|].
  cbn [with_times service_send_reply_times]. by rewrite lookup_insert_eq.
Qed.

(** ** Samples *)

#[export] Instance integer_double : DoubleArith := {| double := Z; double_zero := 0; double_add := Z.add; double_div := Z.div |}.

(** Two calls that overlap; the second ends first. *)
Definition sample_calls : list log_event :=
  [Lg_start 10; Lg_send 1 (b "svc") (b "h1") (b "80") 11; Lg_start 12; Lg_send 2 (b "svc") (b "h2") (b "80") 13;
   Lg_reply 2 (b "svc") 14; Lg_end 2 15; Lg_post true None; Lg_reply 1 (b "svc") 16; Lg_end 1 17; Lg_collect].

Definition sample_start : booked := new_booked (b "log") (b "1").

Lemma sample_calls_run : (fun k => api_rows (bk_log k)) <$> booked_run sample_calls sample_start =
  Some [[L_uint 10; L_uint 1; L_uint 10; L_uint 17; L_uint 7]].
Proof. vm_compute. reflexivity. Qed.

Lemma log_is_faithful_witness :
  exists k, booked_run sample_calls sample_start = Some k /\
    api_rows (bk_log k) = [[L_uint 10; L_uint 1; L_uint 10; L_uint 17; L_uint 7]] /\
    exists calls,
    StronglySorted (fun l l' => log_id l < log_id l') calls /\
    Forall (fun l => bk_book k !! log_id l = Some l /\ wait_send l = true /\ log_id l ∉ bk_open k) calls /\
    api_rows (bk_log k) = map (fun l => api_row (point_of l)) calls /\
    service_rows (bk_log k) = concat (map rows_of_call calls).
Proof.
  pose proof sample_calls_run as H. destruct (booked_run sample_calls sample_start) as [k|] eqn:E; [|done].
  exists k. split_and!; [done|by injection H|apply (log_is_faithful sample_calls (b "log") (b "1")); done].
Defined.

(** Both calls have ended, nothing was sent. *)
Definition sample_ended : list log_event := take 9 sample_calls.

Lemma sample_ended_run :
  (fun k => ((auto_inc_id_ (bk_log k), next_send (bk_log k), lg_cnt (bk_log k)), elements (bk_open k),
             forallb (fun i => bool_decide (is_Some (bk_book k !! i))) [1; 2], api_rows (bk_log k)))
    <$> booked_run sample_ended sample_start = Some ((2, 1, 0), [], true, []).
Proof. vm_compute. reflexivity. Qed.

Lemma finished_calls_are_sent_witness :
  exists k, booked_run sample_ended sample_start = Some k /\
    exists g calls, sendLogToDB 1001 [(false, None)] (bk_log k) = Some g /\ next_send g = 3 /\
      map Some calls = map (fun i => bk_book k !! i) [1; 2] /\
      api_rows g = map (fun l => api_row (point_of l)) calls.
Proof.
  pose proof sample_ended_run as H. destruct (booked_run sample_ended sample_start) as [k|] eqn:E; [|done].
  exists k. split; [done|]. injection H as Ea En Ec Eo E12 Er.
  destruct (finished_calls_are_sent sample_ended (b "log") (b "1") k 1001 [(false, None)]) as (g & calls & G1 & G2 & G3 & G4 & _);
    [done|done|by apply elements_empty_iff, leibniz_equiv in Eo| |done|rewrite Ea, En; by vm_compute|rewrite Ea, En; by vm_compute|done|].
  - intros i Hi. rewrite Ea in Hi. repeat (apply andb_true_iff in E12 as [?%bool_decide_eq_true E12]).
    by assert (i = 1 \/ i = 2) as [-> | ->] by lia.
  - exists g, calls. rewrite Er in G4. rewrite Ea, En in G3. rewrite Ea in G2. split_and!; done.
Defined.
