(* ===== verification/CommandsController.v ===== *)
(** * The controllers

    [CommandsController] calls one service, given by the path, or several,
    given by a JSON document; [APIController] lists the forwarded ports.
    [RequestParser] reads the requests and [ResponseRender] writes the
    responses.  A handler takes a number of [FibpLogger] before it parses; its
    callback gives it back.

    [izenelib::driver::Value], the JSON reader and msgpack are outside the
    repository: the classes [DriverValues] and [MsgpackStrings]. *)

From stdpp Require Import gmap options.
From S2P Require Import Prelude Boost HttpProtocol RequestParser FibpForwardManager FibpServiceInfo FibpPortForward FibpLogger.

(** ** What izenelib and msgpack provide *)

Inductive value_type := kObjectType | kArrayType | kOtherType.

(** [None]: the conversion throws. *)
Class DriverValues := {
  value : Type;
  type_of : value -> value_type;
  value_size : value -> nat;
  (** [v(i)] and [v[key]] *)
  value_at : value -> nat -> value;
  value_get : value -> bytes -> value;
  hasKey : value -> bytes -> bool;
  asString : value -> option bytes;
  asInt : value -> option Z;
  asBool : value -> option bool;
  (** [JsonReader::read] *)
  json_read : bytes -> option value
}.

Class MsgpackStrings := {
  (** [pack] of a [tuple<std::string>] *)
  pack_string_tuple : bytes -> bytes;
  (** [unpack] and [convert] to a [std::string], or [what()] *)
  unpack_string : bytes -> bytes + bytes
}.

Section Controllers.
Context {boost : BoostStrings} {values : DriverValues} {msgpack : MsgpackStrings} {arith : DoubleArith}.

(** ** [RequestParser] *)

Definition GetReqMethod (m : bytes) : Z :=
  if bool_decide (m = b "DELETE") then DELETE
  else if bool_decide (m = b "GET") then GET
  else if bool_decide (m = b "PUT") then PUT
  else if bool_decide (m = b "HEAD") then HEAD
  else POST.

(** An iteration of the loop of [parse_api_request]. *)
Definition parse_call (api_data : value) : option ServiceCallReq :=
  name ← asString (value_get api_data (b "service_name"));
  api ← asString (value_get api_data (b "service_api"));
  m ← asString (value_get api_data (b "service_method"));
  data ← asString (value_get api_data (b "service_req_data"));
  cluster ← asString (value_get api_data (b "service_cluster"));
  type ← asInt (value_get api_data (b "service_type"));
  cached ← asBool (value_get api_data (b "enable_cache"));
  Some (mk_call_req name api (GetReqMethod m) (if type =? RPC_Service then pack_string_tuple data else data) cluster type cached).

(** [req_api_list] is assigned; it is left alone when the value is no array. *)
Definition parse_api_request (api_list : value) (req_api_list : list ServiceCallReq) : bool * list ServiceCallReq :=
  match type_of api_list with
  | kArrayType =>
      match mapM (fun i => parse_call (value_at api_list i)) (seq 0 (value_size api_list)) with
      | Some l => (true, l)
      | None => (false, [])
      end
  | _ => (false, req_api_list)
  end.

(** The value returned and [agentid]; [None] when [asString] throws. *)
Definition parse_list_forward_service (client_req : value) (agentid : bytes) : option (bool * bytes) :=
  match type_of client_req with
  | kObjectType =>
      if hasKey client_req (b "ID") then id ← asString (value_get client_req (b "ID")); Some (true, id)
      else Some (true, agentid)
  | _ => Some (false, agentid)
  end.

(** ** [ResponseRender] *)

(** An element of [service_rsp_list]. *)
Record service_entry := mk_service_entry {
  se_service_name : bytes;
  se_service_rsp : bytes;
  se_is_cached : bool;
  se_service_error : option bytes
}.

Definition err_convert : bytes := b "Convert Service Rpc Response to Json String Failed.".

(** The body of the loop of [generate_rsp]. *)
Definition render (req : ServiceCallReq) (it : ServiceCallRsp) : service_entry :=
  let '(r, e) :=
    if (service_type req =? RPC_Service) && negb (bool_decide (rsp it = [])) then
      match unpack_string (rsp it) with
      | inl r => (r, error it)
      | inr what => ([], err_convert ++ what)
      end
    else (rsp it, error it) in
  mk_service_entry (rsp_service_name it) r (is_cached it) (if bool_decide (e = []) then None else Some e).

(** [None] when there are more responses than requests, which the code does
    not check. *)
Fixpoint generate_rsp (req_list : list ServiceCallReq) (rsp_data : list ServiceCallRsp) : option (list service_entry) :=
  match rsp_data, req_list with
  | [], _ => Some []
  | it :: rsp_data, req :: req_list => rest ← generate_rsp req_list rsp_data; Some (render req it :: rest)
  | _ :: _, [] => None
  end.

(** The error of the response or the raw response; [None]: the assertion. *)
Definition generate_single_rsp (rsp_data : list ServiceCallRsp) : option (bytes + bytes) :=
  match rsp_data with
  | [r] => Some (if bool_decide (error r = []) then inr (rsp r) else inl (error r))
  | _ => None
  end.

(** The members [ServiceName], [ServiceType] and [ForwardPort] of the elements. *)
Definition generate_port_forward_services_rsp (infos : list ForwardInfoT) : list (bytes * Z * Z) :=
  map (fun i => (fi_service_name i, fi_service_type i, fi_port i)) infos.

(** ** [CommandsController] *)

(** What [preprocess] assigns to the request. *)
Definition preprocess (raw_req : bytes) : option value :=
  match json_read raw_req with
  | Some v => match type_of v with kObjectType => Some v | _ => None end
  | None => None
  end.

Definition err_parse : bytes := b "parser request data failed.".

(** How a handler ends: with an error in the response, or with a call that
    has the number [id] of the log. *)
Inductive handled :=
| Parse_failed (message : bytes)
| Forwarded (id : Z) (calls : list ServiceCallReq) (do_transaction : bool).

Definition call_single_service_async (now method : Z) (raw_req path : bytes) (g : logger) : option (handled * logger) :=
  let '(id, g) := startServiceCall now g in
  '(parsed, calls) ← parse_single_api_request method raw_req path;
  Some (if (parsed : bool) then Forwarded id calls false else Parse_failed err_parse, g).

(** [request] is the request's value; [None]: [asBool] throws. *)
Definition call_services_async (now : Z) (request : value) (g : logger) : option (handled * logger) :=
  let '(id, g) := startServiceCall now g in
  do_transaction ← asBool (value_get request (b "do_transaction"));
  let '(parsed, calls) := parse_api_request (value_get request (b "call_api_list")) [] in
  Some (if parsed then Forwarded id calls do_transaction else Parse_failed err_parse, g).

Definition after_call_single_service (id now : Z) (rsp_list : list ServiceCallRsp) (g : logger)
  : option ((bytes + bytes) * logger) :=
  r ← generate_single_rsp rsp_list; Some (r, endServiceCall id now g).

Definition after_call_services (id now : Z) (calls : list ServiceCallReq) (rsp_list : list ServiceCallRsp) (g : logger)
  : option (list service_entry * logger) :=
  r ← generate_rsp calls rsp_list; Some (r, endServiceCall id now g).

(** ** [APIController] *)

Definition err_parse_list : bytes := b "parser request failed.".

Definition list_port_forward_services (request : value) (w : port_watcher) : option (bytes + list (bytes * Z * Z)) :=
  '(parsed, agentid) ← parse_list_forward_service request [];
  Some (if (parsed : bool) then inr (generate_port_forward_services_rsp (getAllPortForwardServices agentid w))
        else inl err_parse_list).

End Controllers.
