(* ===== verification/CommandsControllerSpec.v ===== *)
(** * What the controllers promise

    A request for several services is answered with one entry for each of its
    calls, in order, whatever order the calls end in.  A request that does not
    parse stops the log of the whole server. *)

From stdpp Require Import gmap options.
From S2P Require Import Prelude Boost HttpProtocol RequestParser FibpForwardManager FibpForwardManagerSpec.
From S2P Require Import HttpTypes HttpRoundTrip FibpClient FibpHttpClient FibpLogger FibpLoggerSpec CommandsController.

(** ** The calls of a request *)

Section Parse.
Context {values : DriverValues} {msgpack : MsgpackStrings}.

Lemma parse_api_request_calls v old calls : parse_api_request v old = (true, calls) ->
  length calls = value_size v /\ forall i call, calls !! i = Some call -> parse_call (value_at v i) = Some call.
Proof.
  unfold parse_api_request. destruct (type_of v); [done| |done].
  destruct (mapM _ _) as [l|] eqn:E; [|done]. intros [= <-].
  apply mapM_Some_1 in E. pose proof (Forall2_length _ _ _ E) as Hlen. rewrite length_seq in Hlen. split; [done|].
  intros i call Hi. destruct (Forall2_lookup_r _ _ _ _ _ E Hi) as (j & Hj & H).
  apply lookup_seq in Hj as [-> _]. done.
Qed.

(** [generate_rsp] renders each response with its request. *)
Lemma generate_rsp_zip reqs rsps : length reqs = length rsps -> generate_rsp reqs rsps = Some (zip_with render reqs rsps).
Proof.
  revert reqs. induction rsps as [|r rsps IH]; intros [|req reqs]; try done. cbn. intros [= H]. by rewrite (IH reqs H).
Qed.

End Parse.

(** [GetReqMethod] has a method for every text. *)
Lemma GetReqMethod_range m : 0 <= GetReqMethod m <= 4.
Proof. unfold GetReqMethod, DELETE, GET, PUT, HEAD, POST. repeat case_bool_decide; lia. Qed.

Lemma parse_call_method {values : DriverValues} {msgpack : MsgpackStrings} v call : parse_call v = Some call -> 0 <= method call <= 4.
Proof.
  unfold parse_call. intros H. repeat (apply bind_Some in H as (? & _ & H)). injection H as <-. cbn [method]. apply GetReqMethod_range.
Qed.

(** C39: A call that was read from a JSON document is well typed for the HTTP
    client: its method is one of the five that have a name, so that whatever
    the document says, the client can print the request of the call, and
    sending it is defined. *)
Theorem json_calls_printable {values : DriverValues} {msgpack : MsgpackStrings} v old calls call timeout_ms cr wr c :
  parse_api_request v old = (true, calls) -> call ∈ calls ->
  0 <= method call <= 4 /\
  send_request (service_api call) (method call) (service_req_data call) timeout_ms cr wr c <> Send_undefined.
Proof.
  intros Hp Hc. destruct (parse_api_request_calls _ _ _ Hp) as [_ Hcalls].
  apply list_elem_of_lookup_1 in Hc as [i Hi]. pose proof (parse_call_method _ _ (Hcalls i call Hi)) as Hm. split; [done|].
  unfold send_request, send_http_request, call_request. destruct (split_query _) as [path query].
  rewrite print_request_bytes by done. by destruct (send_data _ _ _ _) as [[]|].
Qed.

(** ** The responses of the calls *)

Section Responses.
Context (calls : list ServiceCallReq) (do_transaction transaction_mgr_ cb : bool).

Definition refused : bool := do_transaction && negb (check_http calls).

(** Every call has a response, which its end has set unless the transaction is
    refused. *)
Record answered (es : list services_event) (s : services) : Prop := {
  an_length : length (rsp_list s) = length calls;
  an_refused : refused = true -> es = [] /\
    rsp_list s = map (fun req => with_error err_transaction (with_service_name (service_name req) new_call_rsp)) calls;
  an_done : refused = false -> forall i, (i < length calls)%nat -> i ∈ unfinished s \/ exists r, Sub_done i r ∈ es
}.

Lemma zip_with_replicate {A B C} (f : A -> B -> C) l y : zip_with f l (replicate (length l) y) = map (fun x => f x y) l.
Proof. induction l as [|x l IH]; [done|]. cbn. by rewrite IH. Qed.

Lemma answered_start : answered [] (start calls do_transaction cb []).
Proof.
  unfold start. fold refused. destruct refused eqn:E.
  - constructor; cbn [rsp_list unfinished]; [|intros _; split; [done|]|by rewrite E].
    + rewrite length_zip_with, resize_length. lia.
    + unfold resize. rewrite take_nil. cbn [app length]. rewrite Nat.sub_0_r. apply zip_with_replicate.
  - constructor; cbn [rsp_list unfinished]; [apply resize_length|by rewrite E|].
    intros _ i Hi. left. apply elem_of_seq. lia.
Qed.

Lemma services_step_unfinished e s s' : services_step do_transaction transaction_mgr_ cb e s = Some s' ->
  match e with
  | Sub_done i r => i ∈ unfinished s /\ length (rsp_list s') = length (rsp_list s) /\
      forall j, j ∈ unfinished s -> j <> i -> j ∈ unfinished s'
  | Resume => main s = Main_ready /\ rsp_list s' = rsp_list s /\ unfinished s' = unfinished s
  end.
Proof.
  destruct e as [i r|]; cbn [services_step].
  - unfold sub_done. case_bool_decide as Hi; [|done]. intros [= <-]. cbn [rsp_list unfinished].
    split_and!; [done|by rewrite length_insert|]. intros j Hj Hne. apply list_elem_of_In, filter_In. split; [by apply list_elem_of_In|].
    apply negb_true_iff, Nat.eqb_neq, Hne.
  - unfold resume, finish. destruct (main s) eqn:Em; try done. destruct (_ >? _); intros [= <-]; [done|]. by destruct (_ && _ && _).
Qed.

Lemma answered_runs es s : services_runs calls do_transaction transaction_mgr_ cb [] es s ->
  answered es s /\ (refused = true -> main s = Main_returned /\ unfinished s = []).
Proof.
  induction 1 as [|es s e s' _ [[A1 A2 A3] IH] Hs].
  - split; [apply answered_start|]. unfold start. fold refused. by intros ->.
  - pose proof (services_step_unfinished e s s' Hs) as Hu.
    assert (refused = false) as Hr.
    { destruct refused; [|done]. destruct (IH eq_refl) as [Hm Hun]. destruct e.
      - destruct Hu as [Hi _]. rewrite Hun in Hi. by apply elem_of_nil in Hi.
      - destruct Hu as [Hm' _]. congruence. }
    split; [|by rewrite Hr]. constructor; [| by rewrite Hr|].
    + destruct e as [i r|]; [destruct Hu as (_ & -> & _)|destruct Hu as (_ & -> & _)]; done.
    + intros _ j Hj. destruct (A3 Hr j Hj) as [Hun|[r' Hr']]; [|right; exists r'; set_solver].
      destruct e as [i r|]; [|left; by destruct Hu as (_ & _ & ->)]. destruct Hu as (_ & _ & Hkeep).
      destruct (decide (j = i)) as [->|Hne]; [right; exists r; set_solver|left; by apply Hkeep].
Qed.

End Responses.

(** The entry of a response: what an RPC service answers is unpacked, and an
    answer that cannot be unpacked is an error; an entry has an error exactly
    when its call has one or this happens. *)
Definition shows {msgpack : MsgpackStrings} (call : ServiceCallReq) (r : ServiceCallRsp) (x : service_entry) : Prop :=
  se_service_name x = rsp_service_name r /\ se_is_cached x = is_cached r /\
  ((service_type call <> RPC_Service \/ rsp r = []) -> se_service_rsp x = rsp r /\ default [] (se_service_error x) = error r /\ se_service_error x <> Some []) /\
  (service_type call = RPC_Service -> rsp r <> [] ->
    (forall t, unpack_string (rsp r) = inl t -> se_service_rsp x = t /\ default [] (se_service_error x) = error r /\ se_service_error x <> Some []) /\
    (forall what, unpack_string (rsp r) = inr what -> se_service_rsp x = [] /\ se_service_error x = Some (err_convert ++ what))).

Lemma render_shows {msgpack : MsgpackStrings} call r : shows call r (render call r).
Proof.
  assert (forall e : bytes, default [] (if bool_decide (e = []) then None else Some e) = e /\ (if bool_decide (e = []) then None else Some e) <> Some []) as He.
  { intros e. case_bool_decide; [by subst|by split; [|congruence]]. }
  unfold shows, render. destruct (service_type call =? RPC_Service) eqn:Et; to_prop; [case_bool_decide as Er|]; cbn [andb negb].
  - split_and!; try done; intros; split; done || apply He.
  - destruct (unpack_string (rsp r)) as [t|what] eqn:Eu; cbn; split_and!; try done; try (intros [?|?]; done).
    + intros _ _. split; [|done]. intros t' [= <-]. split; [done|apply He].
    + intros _ _. split; [done|]. intros w [= <-]. done.
  - split_and!; try done. intros _. split; [done|apply He].
Qed.

(** C8: A request for several services is answered completely and in order:
    there is one call for each element of [call_api_list], read from it, and
    when the callback runs, whatever order the calls have ended in, the
    response has one entry for each call, in its place, that shows the
    response that the call has ended with (or from the error that refuses a
    transaction), and the call's number of the log is given back. *)
Theorem multi_call_answered {values : DriverValues} {msgpack : MsgpackStrings} {arith : DoubleArith}
    now request g id calls tr g1 mgr es s now' g2 :
  call_services_async now request g = Some (Forwarded id calls tr, g1) ->
  services_runs calls tr mgr true [] es s -> callbacks s = 1%nat ->
  length calls = value_size (value_get request (b "call_api_list")) /\
  exists entries, after_call_services id now' calls (rsp_list s) g2 = Some (entries, endServiceCall id now' g2) /\
    length entries = length calls /\
    forall i call, calls !! i = Some call ->
      parse_call (value_at (value_get request (b "call_api_list")) i) = Some call /\
      exists r x, entries !! i = Some x /\ shows call r x /\
        (if refused calls tr then r = with_error err_transaction (with_service_name (service_name call) new_call_rsp)
         else Sub_done i r ∈ es).
Proof.
  intros Hc Hruns Hcb. unfold call_services_async in Hc. destruct (startServiceCall now g) as [id' g'].
  destruct (asBool _) as [t|]; cbn [mbind option_bind] in Hc; [|done].
  destruct (parse_api_request _ _) as [[] l] eqn:Ep; [|done]. simplify_eq.
  destruct (parse_api_request_calls _ _ _ Ep) as [Hlen Hcalls]. split; [done|].
  destruct (answered_runs _ _ _ _ _ _ Hruns) as [[A1 A2 A3] _].
  pose proof (services_runs_ok _ _ _ _ _ _ _ Hruns) as Hok.
  exists (zip_with render calls (rsp_list s)). unfold after_call_services. rewrite generate_rsp_zip by done. cbn [mbind option_bind].
  split_and!; [done|rewrite length_zip_with; lia|]. intros i call Hi. split; [by apply Hcalls|].
  destruct (lookup_lt_is_Some_2 (rsp_list s) i) as [r Hr]; [rewrite A1; by eapply lookup_lt_Some|].
  exists r, (render call r). split; [by rewrite lookup_zip_with, Hi, Hr|]. split; [apply render_shows|].
  destruct (refused calls tr) eqn:Eref.
  - destruct (A2 eq_refl) as [_ El]. rewrite El in Hr. rewrite list_lookup_fmap, Hi in Hr. by injection Hr.
  - assert (unfinished s = []) as Hu.
    { apply (so_left _ _ _ Hok). left. pose proof (so_callbacks _ _ _ Hok) as Hn. rewrite Hcb in Hn. unfold has_returned in Hn. by destruct (main s). }
    destruct (A3 eq_refl i) as [Hin|[r' Hr']]; [by eapply lookup_lt_Some|rewrite Hu in Hin; by apply elem_of_nil in Hin|].
    destruct (so_results _ _ _ Hok i r' Hr') as [E _]. congruence.
Qed.

(** ** Requests that do not parse *)

Section Malformed.
Context {boost : BoostStrings} {values : DriverValues} {msgpack : MsgpackStrings} {arith : DoubleArith}.

(** A handler of [CommandsController] has failed to parse a request. *)
Definition malformed (now : Z) (g g' : logger) : Prop :=
  (exists request message, call_services_async now request g = Some (Parse_failed message, g')) \/
  (exists m raw_req path message, call_single_service_async now m raw_req path g = Some (Parse_failed message, g')).

Lemma malformed_starts now g g' : malformed now g g' -> g' = snd (startServiceCall now g).
Proof.
  unfold malformed, call_services_async, call_single_service_async. destruct (startServiceCall now g) as [id g1]. cbn [snd].
  intros [(request & message & H)|(m & raw_req & path & message & H)].
  - destruct (asBool _); cbn [mbind option_bind] in H; [|done]. destruct (parse_api_request _ _) as [[] l]; by simplify_eq.
  - destruct (parse_single_api_request _ _ _) as [[[] l]|]; cbn [mbind option_bind] in H; by simplify_eq.
Qed.

End Malformed.

(** One request that does not parse stops the log of the server.  The
    handler has taken a number (one was free) and forgets it; so whatever calls
    follow and however long the sender runs, the sender never gets past that
    number, and only the calls with smaller numbers are ever sent. *)
Theorem malformed_request_stops_log {boost : BoostStrings} {values : DriverValues} {msgpack : MsgpackStrings} {arith : DoubleArith}
    es1 now es2 ip port k g k' id :
  Z.of_nat (length es1 + S (length es2)) < 2 ^ 64 ->
  booked_run es1 (new_booked ip port) = Some k ->
  malformed now (bk_log k) g -> fst (startServiceCall now (bk_log k)) = id -> id <> 0 ->
  Forall (fun e => client_id e <> Some id) es2 ->
  booked_run es2 (mk_booked g (open_after (Lg_start now) k) (book_after (Lg_start now) k)) = Some k' ->
  next_send (bk_log k') <= id /\
  exists calls, api_rows (bk_log k') = map (fun l => api_row (point_of l)) calls /\ Forall (fun l => log_id l < id) calls.
Proof.
  intros Hn E1 Hm Hid Hne Hes E2. apply malformed_starts in Hm as ->.
  apply (unended_call_stops_log es1 now es2 ip port k); [|done|done|done| |done].
  - rewrite length_app. done.
  - eapply Forall_impl; [exact Hes|]. by intros e H t ->.
Qed.

(** ** Samples *)

(** Values as JSON documents. *)
#[export] Instance json_values : DriverValues := {|
  value := FibpServiceInfo.json;
  type_of v := match v with FibpServiceInfo.J_object _ => kObjectType | FibpServiceInfo.J_array _ => kArrayType | _ => kOtherType end;
  value_size v := match v with FibpServiceInfo.J_array l => length l | _ => 0%nat end;
  value_at v i := match v with FibpServiceInfo.J_array l => nth i l FibpServiceInfo.J_null | _ => FibpServiceInfo.J_null end;
  value_get v key := match v with
                     | FibpServiceInfo.J_object m => default FibpServiceInfo.J_null (snd <$> List.find (fun x => bool_decide (x.1 = key)) m)
                     | _ => FibpServiceInfo.J_null
                     end;
  hasKey v key := match v with FibpServiceInfo.J_object m => existsb (fun x => bool_decide (x.1 = key)) m | _ => false end;
  asString v := match v with FibpServiceInfo.J_string s => Some s | _ => Some [] end;
  asInt v := match v with FibpServiceInfo.J_int n => Some n | _ => Some 0 end;
  asBool v := match v with FibpServiceInfo.J_bool x => Some x | _ => Some false end;
  json_read _ := None
|}.
#[export] Instance plain_msgpack : MsgpackStrings := {| pack_string_tuple s := s; unpack_string s := inl s |}.

Definition json_call (data : bytes) : FibpServiceInfo.json :=
  FibpServiceInfo.J_object
    [(b "service_name", FibpServiceInfo.J_string (b "svc")); (b "service_api", FibpServiceInfo.J_string (b "/x"));
     (b "service_method", FibpServiceInfo.J_string (b "GET")); (b "service_req_data", FibpServiceInfo.J_string data)].
Definition sample_request : FibpServiceInfo.json :=
  FibpServiceInfo.J_object [(b "call_api_list", FibpServiceInfo.J_array [json_call (b "d"); json_call (b "e")])].
Definition sample_logger : logger := snd (startServiceCall 10 (new_logger (b "log") (b "1"))).

Lemma json_calls_printable_witness :
  0 <= 3 <= 4 /\
  forall timeout_ms cr wr c, send_request [] 3 [] timeout_ms cr wr c <> Send_undefined.
Proof.
  split; [lia|]. intros timeout_ms cr wr c.
  apply (@json_calls_printable json_values plain_msgpack
    (FibpServiceInfo.J_array [FibpServiceInfo.J_object [(b "service_method", FibpServiceInfo.J_string (b "PATCH"))]]) []
    [mk_call_req [] [] POST [] [] 0 false] (mk_call_req [] [] POST [] [] 0 false) timeout_ms cr wr c);
    [vm_compute; reflexivity|set_solver].
Defined.

(** The second call ends first. *)
Lemma multi_call_answered_witness :
  exists entries,
    call_services_async 10 sample_request (new_logger (b "log") (b "1")) = Some (Forwarded 1 two_reqs false, sample_logger) /\
    after_call_services 1 20 two_reqs (rsp_list (two_state false true)) sample_logger
      = Some (entries, endServiceCall 1 20 sample_logger) /\
    entries = [mk_service_entry [] (b "d!") false None; mk_service_entry [] (b "e!") false None].
Proof.
  assert (call_services_async 10 sample_request (new_logger (b "log") (b "1")) = Some (Forwarded 1 two_reqs false, sample_logger)) as Hc
    by (vm_compute; reflexivity).
  destruct (@multi_call_answered json_values plain_msgpack integer_double 10 sample_request (new_logger (b "log") (b "1")) 1 two_reqs false sample_logger true two_events
    (two_state false true) 20 sample_logger Hc (two_runs false) ltac:(vm_compute; reflexivity)) as (_ & entries & E & _).
  exists entries. split_and!; [done|done|]. unfold after_call_services in E. vm_compute in E. by injection E.
Defined.

(** The first request has no list of calls; the second call is logged. *)
Lemma malformed_request_stops_log_witness :
  exists k k', @malformed reference_strings json_values plain_msgpack integer_double 10 (bk_log sample_start) k /\
    booked_run [Lg_start 12; Lg_end 2 15; Lg_post true None]
      (mk_booked k (open_after (Lg_start 10) sample_start) (book_after (Lg_start 10) sample_start)) = Some k' /\
    next_send (bk_log k') <= 1.
Proof.
  set (k := snd (startServiceCall 10 (bk_log sample_start))). exists k.
  assert (@malformed reference_strings json_values plain_msgpack integer_double 10 (bk_log sample_start) k) as Hm
    by (left; exists (FibpServiceInfo.J_object []), err_parse; vm_compute; reflexivity).
  set (k0 := mk_booked k (open_after (Lg_start 10) sample_start) (book_after (Lg_start 10) sample_start)).
  assert ((fun k => next_send (bk_log k)) <$> booked_run [Lg_start 12; Lg_end 2 15; Lg_post true None] k0 = Some 1) as H
    by (vm_compute; reflexivity).
  destruct (booked_run [Lg_start 12; Lg_end 2 15; Lg_post true None] k0) as [k'|] eqn:E; [|done].
  exists k'. split_and!; [done|done|].
  apply (@malformed_request_stops_log reference_strings json_values plain_msgpack integer_double [] 10 [Lg_start 12; Lg_end 2 15; Lg_post true None] (b "log") (b "1") sample_start k k' 1);
    [done|done|done|done|done| |done].
  repeat constructor; done.
Defined.
