(* ===== verification/FibpRpcServer.v ===== *)
(** * [FibpRpcServer]: the gateway over MessagePack-RPC

    The server of msgpack-rpc, outside the repository, calls [dispatch] for
    each request and sends what [result] or [error] is given.  A call of a
    single service names the service and its API in the method and passes the
    parameters on as they are. *)

From stdpp Require Import gmap options.
From S2P Require Import Prelude HttpProtocol RequestParser FibpClient FibpForwardManager FibpForwardManagerSpec.
From S2P Require Import FibpLogger FibpLoggerSpec CommandsControllerSpec.

(** Besides what the clients use of msgpack; [None]: an exception. *)
Class RpcServer (msgpack : Rpc.Msgpack) := {
  (** [params().convert(&params)] for a tuple of a list of calls *)
  convert_services : Rpc.object -> option (list ServiceCallReq);
  (** [unpack] *)
  unpack_object : bytes -> option Rpc.object;
  unpack_packed o : unpack_object (Rpc.pack_object o) = Some o;
  (** [what()] of [std::out_of_range] *)
  out_of_range : bytes
}.

(** [std::string::find] of one character, as what is before and after it. *)
Fixpoint split_slash (s : bytes) : option (bytes * bytes) :=
  match s with
  | [] => None
  | c :: s => if (c == "/"%char)%byte then Some ([], s) else x ← split_slash s; Some (c :: x.1, x.2)
  end.

Section Server.
Context {msgpack : Rpc.Msgpack} {server : RpcServer msgpack} {arith : DoubleArith}.

Inductive rpc_reply :=
| Rpc_true
| Rpc_responses (l : list ServiceCallRsp)
| Rpc_object (o : Rpc.object)
| Rpc_error (message : bytes).

(** How [dispatch] ends: with a reply, or with a call whose callback is
    [rpc_single_service_callback] or [rpc_callback]. *)
Inductive dispatched :=
| Replied (r : rpc_reply)
| Passed_on (id : Z) (single : bool) (calls : list ServiceCallReq).

Definition METHOD_TEST : bytes := b "test".
Definition METHOD_CALL_SERVICES_ASYNC : bytes := b "call_services_async".
Definition METHOD_CALL_SINGLE_SERVICE_ASYNC : bytes := b "call_single_service_async".
Definition ARGUMENT_ERROR : bytes := b "ARGUMENT_ERROR".
Definition NO_METHOD_ERROR : bytes := b "NO_METHOD_ERROR".
Definition SERVER_RETURN_ERROR : bytes := b "SERVER_RETURN_ERROR".

Definition rpc_call (name api data : bytes) : ServiceCallReq := mk_call_req name api POST data (b "dev") RPC_Service false.

(** [method]: [None] when it is not a string. *)
Definition dispatch (now : Z) (method : option bytes) (params : Rpc.object) (g : logger) : dispatched * logger :=
  match method with
  | None => (Replied (Rpc_error ARGUMENT_ERROR), g)
  | Some method =>
      if bool_decide (method = METHOD_TEST) then (Replied Rpc_true, g)
      else if bool_decide (method = METHOD_CALL_SERVICES_ASYNC) then
        let '(id, g) := startServiceCall now g in
        match convert_services params with
        | None => (Replied (Rpc_error ARGUMENT_ERROR), g)
        | Some calls => (Passed_on id false calls, g)
        end
      else if bool_decide (METHOD_CALL_SINGLE_SERVICE_ASYNC `prefix_of` method) then
        match substr method (length METHOD_CALL_SINGLE_SERVICE_ASYNC + 1) with
        | None => (Replied (Rpc_error out_of_range), g)
        | Some server_method =>
            match split_slash server_method with
            | None => (Replied (Rpc_error ARGUMENT_ERROR), g)
            | Some (name, api) =>
                let '(id, g) := startServiceCall now g in
                (Passed_on id true [rpc_call name api (Rpc.pack_object params)], g)
            end
        end
      else (Replied (Rpc_error NO_METHOD_ERROR), g)
  end.

Definition rpc_callback (id now : Z) (rsp_list : list ServiceCallRsp) (g : logger) : rpc_reply * logger :=
  (Rpc_responses rsp_list, endServiceCall id now g).

(** [None]: the exception of [unpack] leaves the callback. *)
Definition rpc_single_service_callback (id now : Z) (rsp_list : list ServiceCallRsp) (g : logger) : option (rpc_reply * logger) :=
  match rsp_list with
  | [r] =>
      if bool_decide (error r = []) then
        o ← unpack_object (rsp r); Some (Rpc_object o, endServiceCall id now g)
      else Some (Rpc_error (error r), endServiceCall id now g)
  | _ => Some (Rpc_error SERVER_RETURN_ERROR, endServiceCall id now g)
  end.

End Server.

(** ** Passing calls on *)

Lemma split_slash_app s rest : Forall (fun c => c <> "/"%char) s -> split_slash (s ++ "/"%char :: rest) = Some (s, rest).
Proof.
  induction 1 as [|c s Hc _ IH]; [done|]. cbn [app split_slash].
  destruct (c == "/"%char)%byte eqn:E; [to_prop; done|]. by rewrite IH.
Qed.

Lemma not_prefix_short {A} (x y z : list A) : (length y < length x)%nat -> y <> x ++ z.
Proof. intros H ->. rewrite length_app in H. lia. Qed.

Lemma dispatch_single {msgpack : Rpc.Msgpack} {server : RpcServer msgpack} {arith : DoubleArith} now c name api params g :
  Forall (fun c => c <> "/"%char) name ->
  dispatch now (Some (METHOD_CALL_SINGLE_SERVICE_ASYNC ++ c :: name ++ "/"%char :: api)) params g =
  (Passed_on (fst (startServiceCall now g)) true [rpc_call name api (Rpc.pack_object params)], snd (startServiceCall now g)).
Proof.
  intros Hn. unfold dispatch. rewrite bool_decide_false by (apply not_eq_sym, not_prefix_short; vm_compute; lia).
  rewrite bool_decide_false by (apply not_eq_sym, not_prefix_short; vm_compute; lia).
  rewrite bool_decide_true by (by eexists). unfold substr.
  assert (length (METHOD_CALL_SINGLE_SERVICE_ASYNC ++ c :: name ++ "/"%char :: api) <?
            length METHOD_CALL_SINGLE_SERVICE_ASYNC + 1 = false)%nat as ->
    by (apply Nat.ltb_ge; rewrite length_app; cbn [length]; lia).
  change (c :: name ++ "/"%char :: api) with ([c] ++ (name ++ "/"%char :: api)).
  rewrite app_assoc, (drop_app_length' (METHOD_CALL_SINGLE_SERVICE_ASYNC ++ [c]))
    by (rewrite length_app; cbn [length]; lia).
  rewrite split_slash_app by done. by destruct (startServiceCall now g).
Qed.

(** The RPC gateway is transparent.  A request of the method
    [call_single_service_async/service/api] becomes one call of the service's
    API with the packed parameters; when the callback of the call runs, it
    replies with the object whose packing the service has returned, or with the
    call's error, and gives the number of the log back. *)
Theorem rpc_gateway_transparent {msgpack : Rpc.Msgpack} {server : RpcServer msgpack} {arith : DoubleArith}
    now name api params g mgr es s r now' g' :
  Forall (fun c => c <> "/"%char) name ->
  let calls := [rpc_call name api (Rpc.pack_object params)] in
  let id := fst (startServiceCall now g) in
  services_runs calls false mgr true [] es s -> callbacks s = 1%nat -> Sub_done 0 r ∈ es ->
  dispatch now (Some (METHOD_CALL_SINGLE_SERVICE_ASYNC ++ b "/" ++ name ++ b "/" ++ api)) params g
    = (Passed_on id true calls, snd (startServiceCall now g)) /\
  (forall o, error r = [] -> rsp r = Rpc.pack_object o ->
     rpc_single_service_callback id now' (rsp_list s) g' = Some (Rpc_object o, endServiceCall id now' g')) /\
  (error r <> [] ->
     rpc_single_service_callback id now' (rsp_list s) g' = Some (Rpc_error (error r), endServiceCall id now' g')).
Proof.
  intros Hn calls id Hruns Hcb Hr.
  destruct (answered_runs _ _ _ _ _ _ Hruns) as [[Hlen _ _] _].
  destruct (so_results _ _ _ (services_runs_ok _ _ _ _ _ _ _ Hruns) 0%nat r Hr) as [Hl _].
  assert (rsp_list s = [r]) as -> by (destruct (rsp_list s) as [|x [|? ?]]; try done; by injection Hl as ->).
  split_and!; [by apply (dispatch_single now "/"%char)| |].
  - intros o He Ho. unfold rpc_single_service_callback. rewrite bool_decide_true by done. by rewrite Ho, unpack_packed.
  - intros He. unfold rpc_single_service_callback. by rewrite bool_decide_false.
Qed.

(** Parameters of another type: the request has an answer, its number of the
    log is not given back. *)
Lemma type_error_keeps_number {msgpack : Rpc.Msgpack} {server : RpcServer msgpack} {arith : DoubleArith} now params g :
  convert_services params = None ->
  dispatch now (Some METHOD_CALL_SERVICES_ASYNC) params g = (Replied (Rpc_error ARGUMENT_ERROR), snd (startServiceCall now g)).
Proof. intros H. unfold dispatch. cbn. rewrite H. by destruct (startServiceCall now g). Qed.

(** ** A sample *)

(** Objects are texts, packed as they are. *)
Definition text_msgpack : Rpc.Msgpack :=
  @Rpc.Build_Msgpack unit bytes tt (fun u => inr (None, u)) (fun _ => 0) (fun _ => 0) (fun _ u => u) (fun _ => inl [])
    inr (fun o => o) (fun _ _ _ => []).
#[program] Definition text_server : RpcServer text_msgpack :=
  @Build_RpcServer text_msgpack (fun _ => None) Some _ (b "out of range").
Next Obligation. done. Qed.

Definition sample_rpc_state : services :=
  mk_services [with_rsp (b "7") (with_service_name (b "svc") new_call_rsp)] 0 Main_returned [] 1.

Lemma rpc_gateway_transparent_witness :
  @dispatch text_msgpack text_server integer_double 5 (Some (b "call_single_service_async/svc/add")) (b "34") sample_logger
    = (Passed_on 2 true [rpc_call (b "svc") (b "add") (b "34")], snd (startServiceCall 5 sample_logger)) /\
  @rpc_single_service_callback text_msgpack text_server integer_double 2 9 (rsp_list sample_rpc_state) sample_logger
    = Some (@Rpc_object text_msgpack (b "7"), endServiceCall 2 9 sample_logger).
Proof.
  set (r := with_rsp (b "7") (with_service_name (b "svc") new_call_rsp)).
  assert (services_runs [rpc_call (b "svc") (b "add") (b "34")] false true true [] ([Sub_done 0 r] ++ [Resume]) sample_rpc_state) as Hruns.
  { apply (services_steps _ _ _ _ _ [Sub_done 0 r] (mk_services [r] 0 Main_ready [] 0)); [|reflexivity].
    apply (services_steps _ _ _ _ _ [] (start [rpc_call (b "svc") (b "add") (b "34")] false true [])); [apply services_start|reflexivity]. }
  destruct (@rpc_gateway_transparent text_msgpack text_server integer_double 5 (b "svc") (b "add") (b "34") sample_logger true _
    sample_rpc_state r 9 sample_logger ltac:(repeat constructor; done) Hruns eq_refl ltac:(set_solver)) as (H1 & H2 & _).
  split; [exact H1|]. by apply H2.
Defined.
