(* ===== verification/ByteSizeParser.v ===== *)
(** * [ByteSizeParser]: sizes such as ["1.5 GB"]

    The arithmetic on [uint64_t] is checked before every operation.  What
    [atof] makes of a fraction is the class [Atof]; [format], which prints a
    [double], is not modelled. *)

From stdpp Require Import options.
From S2P Require Import Prelude FibpServiceInfo.

(** The C locale. *)
Definition isspace (c : ascii) : bool := (uc c =? 32) || ((9 <=? uc c) && (uc c <=? 13)).
Definition isdigit (c : ascii) : bool := (48 <=? uc c) && (uc c <=? 57).
Definition toupper (c : ascii) : ascii := if (97 <=? uc c) && (uc c <=? 122) then of_code (uc c - 32) else c.

(** [(byte_size_t)(std::atof(p) * unitSize)] for a [p] at the decimal point;
    [atof] reads the digits after it, and would read an exponent. *)
Class Atof := {
  atof_times : bytes -> Z -> Z;
  atof_times_bound digits rest u :
    Forall (fun c => isdigit c = true) digits -> Forall (fun c => isdigit c = false) rest -> 0 <= u ->
    0 <= atof_times ("."%char :: digits ++ rest) u <= u
}.

Definition kMaxByteSize : Z := 2 ^ 64 - 1.

(** [unitSizeMap_] *)
Definition unitSizeMap_ : list (bytes * Z) :=
  [(b "B", 1); (b "K", Z.shiftl 1 10); (b "KB", Z.shiftl 1 10); (b "M", Z.shiftl 1 20); (b "MB", Z.shiftl 1 20);
   (b "G", Z.shiftl 1 30); (b "GB", Z.shiftl 1 30); (b "T", Z.shiftl 1 40); (b "TB", Z.shiftl 1 40);
   (b "P", Z.shiftl 1 50); (b "PB", Z.shiftl 1 50); (b "E", Z.shiftl 1 60); (b "EB", Z.shiftl 1 60)].
Definition unit_size (u : bytes) : option Z := snd <$> List.find (fun x => bool_decide (x.1 = u)) unitSizeMap_.

Inductive size_error := Digit_required | Invalid_unit (text : bytes) | Overflow (text : bytes).

Definition checkAdd_ (a n : Z) (str : bytes) : Z + size_error :=
  if a >? kMaxByteSize - n then inr (Overflow str) else inl (w64 (a + n)).
Definition checkMultiply_ (a n : Z) (str : bytes) : Z + size_error :=
  if (n >? 0) && (a >? kMaxByteSize / n) then inr (Overflow str) else inl (w64 (a * n)).

Definition ebind {A B} (x : A + size_error) (f : A -> B + size_error) : B + size_error :=
  match x with inl a => f a | inr e => inr e end.

(** The characters that satisfy [f], and the rest. *)
Fixpoint span (f : ascii -> bool) (s : bytes) : bytes * bytes :=
  match s with
  | [] => ([], [])
  | c :: s' => if f c then let (x, y) := span f s' in (c :: x, y) else ([], s)
  end.

(** The loop over the digits. *)
Fixpoint read_digits (str : bytes) (value : Z) (digits : bytes) : Z + size_error :=
  match digits with
  | [] => inl value
  | c :: digits =>
      ebind (checkMultiply_ value 10 str) (fun value =>
      ebind (checkAdd_ value (uc c - 48) str) (fun value => read_digits str value digits))
  end.

(** The loop that collects the unit. *)
Definition unit_of (p : bytes) : bytes := map toupper (List.filter (fun c => negb (isspace c)) p).

Section Parser.
Context {atof : Atof}.

Definition parseImpl_ (str : bytes) : Z + size_error :=
  let p := snd (span isspace (c_string str)) in
  let (digits, p) := span isdigit p in
  match digits with
  | [] => inr Digit_required
  | _ =>
      ebind (read_digits str 0 digits) (fun value =>
      let '(fraction, p) :=
        match p with
        | "."%char :: rest => (Some p, snd (span isdigit rest))
        | _ => (None, p)
        end in
      let unit := unit_of p in
      if bool_decide (unit = []) then inl value
      else match unit_size unit with
           | None => inr (Invalid_unit p)
           | Some unitSize =>
               ebind (checkMultiply_ value unitSize str) (fun value =>
               match fraction with
               | None => inl value
               | Some f => checkAdd_ value (atof_times f unitSize) str
               end)
           end)
  end.

(** [parse<IntT>], where [maxAllowed] is the largest value of the type. *)
Definition parse (maxAllowed : Z) (str : bytes) : Z + size_error :=
  ebind (parseImpl_ str) (fun result => if result >? maxAllowed then inr (Overflow str) else inl result).

End Parser.

(** ** Correctness *)

Lemma checkMultiply_ok a n str : 0 <= a <= kMaxByteSize -> 0 < n ->
  checkMultiply_ a n str = if a * n <=? kMaxByteSize then inl (a * n) else inr (Overflow str).
Proof.
  unfold checkMultiply_, kMaxByteSize. intros Ha Hn. replace (n >? 0) with true by lia. cbn [andb].
  destruct (Z.leb_spec (a * n) (2 ^ 64 - 1)) as [H|H].
  - assert (a <= (2 ^ 64 - 1) / n) by (apply Z.div_le_lower_bound; lia).
    replace (a >? (2 ^ 64 - 1) / n) with false by lia. by rewrite wrap_small by nia.
  - assert ((2 ^ 64 - 1) / n < a) by (apply Z.div_lt_upper_bound; nia).
    by replace (a >? (2 ^ 64 - 1) / n) with true by lia.
Qed.

Lemma checkAdd_ok a n str : 0 <= a <= kMaxByteSize -> 0 <= n ->
  checkAdd_ a n str = if a + n <=? kMaxByteSize then inl (a + n) else inr (Overflow str).
Proof.
  unfold checkAdd_, kMaxByteSize. intros Ha Hn. destruct (Z.leb_spec (a + n) (2 ^ 64 - 1)) as [H|H].
  - replace (a >? 2 ^ 64 - 1 - n) with false by lia. by rewrite wrap_small by lia.
  - by replace (a >? 2 ^ 64 - 1 - n) with true by lia.
Qed.

(** The value of a text of digits. *)
Definition size_digits (acc : Z) (digits : bytes) : Z := fold_left (fun acc c => acc * 10 + (uc c - 48)) digits acc.

Lemma size_digits_ge acc digits : 0 <= acc -> Forall (fun c => isdigit c = true) digits -> acc <= size_digits acc digits.
Proof.
  intros Ha Hd. revert acc Ha. induction Hd as [|c digits Hc _ IH]; intros acc Ha; cbn; [lia|].
  unfold isdigit in Hc. specialize (IH (acc * 10 + (uc c - 48)) ltac:(lia)). unfold size_digits in IH. lia.
Qed.

Lemma read_digits_ok str digits v : 0 <= v <= kMaxByteSize -> Forall (fun c => isdigit c = true) digits ->
  read_digits str v digits = if size_digits v digits <=? kMaxByteSize then inl (size_digits v digits) else inr (Overflow str).
Proof.
  intros Hv Hd. revert v Hv. induction Hd as [|c digits Hc Hd IH]; intros v Hv; cbn [read_digits size_digits fold_left].
  - by replace (v <=? kMaxByteSize) with true by lia.
  - fold (size_digits (v * 10 + (uc c - 48)) digits). assert (0 <= uc c - 48 <= 9) by (unfold isdigit in Hc; lia).
    pose proof (size_digits_ge (v * 10 + (uc c - 48)) digits ltac:(lia) Hd) as Hge.
    rewrite checkMultiply_ok by lia. destruct (Z.leb_spec (v * 10) kMaxByteSize); cbn [ebind].
    2: { by replace (size_digits _ digits <=? kMaxByteSize) with false by lia. }
    rewrite checkAdd_ok by lia. destruct (Z.leb_spec (v * 10 + (uc c - 48)) kMaxByteSize); cbn [ebind]; [by apply IH; lia|].
    by replace (size_digits _ digits <=? kMaxByteSize) with false by lia.
Qed.

Lemma span_ok f x y : Forall (fun c => f c = true) x -> (forall c, head y = Some c -> f c = false) -> span f (x ++ y) = (x, y).
Proof.
  intros Hx Hy. induction Hx as [|c x Hc _ IH]; cbn [app span].
  - destruct y as [|c y]; [done|]. cbn. by rewrite (Hy c eq_refl).
  - by rewrite Hc, IH.
Qed.

(** *** Units *)

Lemma unit_size_in u n : unit_size u = Some n -> (u, n) ∈ unitSizeMap_.
Proof.
  unfold unit_size. destruct (List.find _ _) as [[u' n']|] eqn:E; [|done]. intros [= <-].
  apply List.find_some in E as [Hin Hu]. apply bool_decide_eq_true in Hu. cbn in *. subst. by apply list_elem_of_In.
Qed.

Definition unit_ok (x : bytes * Z) : bool := (1 <=? x.2) && (x.2 <=? kMaxByteSize) && forallb (fun c => negb (isdigit c)) x.1.

Lemma units_ok u n : unit_size u = Some n -> 1 <= n <= kMaxByteSize /\ Forall (fun c => isdigit c = false) u.
Proof.
  intros H. apply unit_size_in in H. assert (forallb unit_ok unitSizeMap_ = true) as Hall by (vm_compute; reflexivity).
  rewrite forallb_forall in Hall. apply list_elem_of_In, Hall in H. unfold unit_ok in H. cbn [fst snd] in H.
  apply andb_true_iff in H as [H1 H2]. split; [lia|]. apply Forall_forall. intros c Hc.
  rewrite forallb_forall in H2. apply list_elem_of_In, H2 in Hc. by apply negb_true_iff.
Qed.

Lemma digit_in_unit c p : isdigit c = true -> c ∈ p -> c ∈ unit_of p.
Proof.
  intros Hd Hc. unfold unit_of. apply list_elem_of_In, in_map_iff. exists c. split.
  - unfold toupper, isdigit in *. by replace ((97 <=? uc c) && (uc c <=? 122)) with false by lia.
  - apply filter_In. split; [by apply list_elem_of_In|]. unfold isspace, isdigit in *. lia.
Qed.

Lemma unit_without_digits p n : unit_size (unit_of p) = Some n -> Forall (fun c => isdigit c = false) p.
Proof.
  intros H. apply units_ok in H as [_ H]. rewrite Forall_forall in *. intros c Hc.
  destruct (isdigit c) eqn:E; [|done]. rewrite <- (H c) by (by apply digit_in_unit). done.
Qed.

(** *** The reference *)

(** What the fraction adds. *)
Definition fraction_bytes {atof : Atof} (fraction unit : bytes) (u : Z) : Z :=
  match fraction with [] => 0 | _ => atof_times (fraction ++ unit) u end.

(** The size that a number, a fraction and a unit mean, over the integers. *)
Definition size_reference {atof : Atof} (str digits fraction unit : bytes) : Z + size_error :=
  let n := size_digits 0 digits in
  if bool_decide (unit_of unit = []) then (if n <=? kMaxByteSize then inl n else inr (Overflow str))
  else match unit_size (unit_of unit) with
       | None => if n <=? kMaxByteSize then inr (Invalid_unit unit) else inr (Overflow str)
       | Some u =>
           let f := fraction_bytes fraction unit u in
           if n * u + f <=? kMaxByteSize then inl (n * u + f) else inr (Overflow str)
       end.

Lemma c_string_id s : NUL ∉ s -> c_string s = s.
Proof.
  induction s as [|c s IH]; [done|]. intros H. cbn [c_string]. destruct (c == NUL)%byte eqn:E; [to_prop; set_solver|].
  rewrite IH by set_solver. done.
Qed.

(** A fraction, and the unit that follows it. *)
Definition fraction_ok (fraction unit : bytes) : Prop :=
  fraction = [] /\ head unit <> Some "."%char \/ exists ds, fraction = "."%char :: ds /\ Forall (fun c => isdigit c = true) ds.

Lemma fraction_bound {atof : Atof} fraction unit u : fraction_ok fraction unit -> unit_size (unit_of unit) = Some u ->
  0 <= fraction_bytes fraction unit u <= u.
Proof.
  intros Hf Eu. pose proof (units_ok _ _ Eu) as [Hu _]. unfold fraction_bytes.
  destruct Hf as [[-> _]|(ds & -> & Hds)]; [lia|]. apply atof_times_bound; [done|by eapply unit_without_digits|lia].
Qed.

(** The decimal point. *)
Lemma split_fraction fraction unit : fraction_ok fraction unit -> (forall c, head unit = Some c -> isdigit c = false) ->
  match fraction ++ unit with "."%char :: rest => (Some (fraction ++ unit), snd (span isdigit rest)) | _ => (None, fraction ++ unit) end
  = (match fraction with [] => None | _ => Some (fraction ++ unit) end, unit).
Proof.
  intros Hf Hu. destruct Hf as [[-> Hdot]|(ds & -> & Hds)]; cbn [app]; [|by rewrite span_ok].
  destruct unit as [|c unit]; [done|]. destruct (decide (c = "."%char)) as [->|Hc]; [done|].
  clear -Hc. by destruct c as [[] [] [] [] [] [] [] []].
Qed.

(** C38: The parser of sizes never overflows silently.  A text of white space, a
    number, an optional fraction and a unit (in any case, with white space in
    it) is read as the exact size over the integers when this fits in 64 bits,
    and is reported as an overflow when it does not; another unit is reported
    as invalid, and the fraction adds at most one unit. *)
Theorem byte_size_exact {atof : Atof} spaces digits fraction unit :
  let str := spaces ++ digits ++ fraction ++ unit in
  NUL ∉ str -> Forall (fun c => isspace c = true) spaces -> digits <> [] -> Forall (fun c => isdigit c = true) digits ->
  (forall c, head unit = Some c -> isdigit c = false) -> fraction_ok fraction unit ->
  parseImpl_ str = size_reference str digits fraction unit /\
  (forall u, unit_size (unit_of unit) = Some u -> 0 <= fraction_bytes fraction unit u <= u).
Proof.
  intros str Hnul Hsp Hne Hd Hu Hf. split; [|intros u; by apply fraction_bound].
  assert (forall c, head (fraction ++ unit) = Some c -> isdigit c = false) as Hhead.
  { intros c Hc. destruct Hf as [[-> _]|(ds & -> & _)]; [by apply Hu|]. by injection Hc as <-. }
  assert (snd (span isspace str) = digits ++ fraction ++ unit) as Esp.
  { unfold str. rewrite span_ok; [done|done|]. intros c. destruct digits as [|d digits]; [done|]. intros [= <-].
    apply Forall_inv in Hd. unfold isdigit, isspace in *. lia. }
  unfold parseImpl_. rewrite c_string_id by done. rewrite Esp, span_ok by done.
  assert (forall A (x y : A), match digits with [] => x | _ :: _ => y end = y) as -> by (by destruct digits).
  rewrite read_digits_ok by (done || (unfold kMaxByteSize; lia)). rewrite split_fraction by done. unfold size_reference.
  pose proof (size_digits_ge 0 digits ltac:(lia) Hd) as Hn. set (n := size_digits 0 digits) in *.
  destruct (Z.leb_spec n kMaxByteSize) as [Hfit|Hbig]; cbn [ebind]; cbv beta iota;
    (case_bool_decide; [done|]); (destruct (unit_size (unit_of unit)) as [u|] eqn:Eu; [|done]);
    destruct (units_ok _ _ Eu) as [Hu1 _]; pose proof (fraction_bound _ _ _ Hf Eu) as Hf0.
  - rewrite checkMultiply_ok by lia. destruct (Z.leb_spec (n * u) kMaxByteSize); cbn [ebind].
    + destruct fraction as [|c fraction]; cbn [fraction_bytes] in *; [rewrite Z.add_0_r; by replace (n * u <=? kMaxByteSize) with true by lia|].
      apply checkAdd_ok; [nia|lia].
    + by replace (n * u + _ <=? kMaxByteSize) with false by lia.
  - by replace (n * u + _ <=? kMaxByteSize) with false by nia.
Qed.

(** *** A sample *)

(** The leading digits as a decimal fraction, rounded down. *)
Definition leading_fraction (p : bytes) (u : Z) : Z :=
  let ds := fst (span isdigit (tail p)) in u * size_digits 0 ds / 10 ^ Z.of_nat (length ds).

Lemma span_digits f s : Forall (fun c => f c = true) (fst (span f s)).
Proof.
  induction s as [|c s IH]; cbn [span]; [constructor|]. destruct (f c) eqn:E; [|constructor].
  destruct (span f s) as [x y]. cbn [fst] in *. by constructor.
Qed.

Lemma size_digits_lt digits acc : 0 <= acc -> Forall (fun c => isdigit c = true) digits ->
  size_digits acc digits < (acc + 1) * 10 ^ Z.of_nat (length digits).
Proof.
  intros Ha Hd. revert acc Ha. induction Hd as [|c digits Hc _ IH]; intros acc Ha; cbn [length]; [cbn; lia|].
  unfold isdigit in Hc. specialize (IH (acc * 10 + (uc c - 48)) ltac:(lia)).
  change (size_digits acc (c :: digits)) with (size_digits (acc * 10 + (uc c - 48)) digits).
  rewrite Nat2Z.inj_succ, Z.pow_succ_r by lia. nia.
Qed.

#[program] Definition decimal_atof : Atof := {| atof_times := leading_fraction |}.
Next Obligation.
  intros digits rest u Hd Hr Hu. unfold leading_fraction. cbn [tail].
  rewrite span_ok; [|done|].
  2: { intros c Hc. destruct rest as [|c' rest]; [done|]. injection Hc as <-. by apply Forall_inv in Hr. }
  cbn [fst]. pose proof (size_digits_lt digits 0 ltac:(lia) Hd). pose proof (size_digits_ge 0 digits ltac:(lia) Hd).
  split; [apply Z.div_pos; nia|apply Z.div_le_upper_bound; nia].
Qed.

Lemma byte_size_exact_witness :
  @parseImpl_ decimal_atof (b " 1.5 kB") = inl 1536 /\
  (let str := b "16 E" in @parseImpl_ decimal_atof str = inr (Overflow str)) /\
  @parseImpl_ decimal_atof (b "15E") = inl (15 * 2 ^ 60).
Proof.
  split_and!.
  - change (b " 1.5 kB") with (b " " ++ b "1" ++ b ".5" ++ b " kB"). rewrite (proj1 (@byte_size_exact decimal_atof (b " ") (b "1") (b ".5") (b " kB") ltac:(apply (bool_decide_eq_true_1 (NUL ∉ _)); vm_compute; reflexivity)
      ltac:(by repeat constructor) ltac:(done) ltac:(by repeat constructor) ltac:(by intros ? [= <-])
      ltac:(right; exists (b "5"); split; [done|by repeat constructor]))). vm_compute. reflexivity.
  - vm_compute. reflexivity.
  - vm_compute. reflexivity.
Defined.
