(* ===== verification/AsyncMultiIOServicesServer.v ===== *)
(** * [AsyncMultiIOServicesServer]: accepting connections

    The servers accept on a main [io_service] and give each connection to one
    of the [io_service]s of a pool, in turn; a connection is run by a fiber on
    the thread of its [io_service]. *)

From stdpp Require Import options.
From S2P Require Import Prelude.

(** ** [io_service_pool] *)

(** [io_services_.size()] and [next_io_service_]. *)
Record io_service_pool := mk_io_service_pool { io_services_ : nat; next_io_service_ : Z }.

(** One service is the main one, and then there are no others. *)
Definition new_io_service_pool (pool_size : nat) : io_service_pool :=
  mk_io_service_pool (if (pool_size <=? 1)%nat then 0 else pool_size) 0.

(** [None]: [main_io_service_]. *)
Definition get_io_service (p : io_service_pool) : option Z * io_service_pool :=
  match io_services_ p with
  | O => (None, p)
  | n =>
      let next := w64 (next_io_service_ p + 1) in
      (Some (next mod Z.of_nat n), mk_io_service_pool n next)
  end.

(** ** The server *)

(** [sv_accepting]: an [async_accept] is outstanding, for [newConnection_],
    whose socket belongs to the given service; [sv_started]: the services of
    the connections that were started; [sv_errors]: calls of the error
    handler. *)
Record async_server := mk_async_server {
  service_pool_ : io_service_pool;
  newConnection_ : option Z;
  sv_accepting : bool;
  errorHandler_ : bool;
  sv_started : list (option Z);
  sv_errors : nat
}.

Definition new_async_server (io_pool_size : nat) : async_server :=
  mk_async_server (new_io_service_pool io_pool_size) None false false [] 0.

Definition setErrorHandler (s : async_server) : async_server :=
  mk_async_server (service_pool_ s) (newConnection_ s) (sv_accepting s) true (sv_started s) (sv_errors s).

Definition asyncAccept (s : async_server) : async_server :=
  let '(service, pool) := get_io_service (service_pool_ s) in
  mk_async_server pool service true (errorHandler_ s) (sv_started s) (sv_errors s).

Definition onError (s : async_server) : async_server :=
  mk_async_server (service_pool_ s) (newConnection_ s) (sv_accepting s) (errorHandler_ s) (sv_started s)
    (sv_errors s + if errorHandler_ s then 1 else 0).

(** [None]: no accept is outstanding. *)
Definition onAccept (failed : bool) (s : async_server) : option async_server :=
  if sv_accepting s then
    let s := mk_async_server (service_pool_ s) (newConnection_ s) false (errorHandler_ s) (sv_started s) (sv_errors s) in
    Some (if failed then onError s
          else asyncAccept (mk_async_server (service_pool_ s) (newConnection_ s) false (errorHandler_ s)
                              (sv_started s ++ [newConnection_ s]) (sv_errors s)))
  else None.

(** [init], then the completions of accepts. *)
Fixpoint accepts (es : list bool) (s : async_server) : option async_server :=
  match es with
  | [] => Some s
  | failed :: es => s ← onAccept failed s; accepts es s
  end.
Definition serve (es : list bool) (s : async_server) : option async_server := accepts es (asyncAccept s).

(** ** In turn *)

Lemma accepts_started n s : errorHandler_ s = false -> (2 <= io_services_ (service_pool_ s))%nat -> sv_accepting s = true ->
  newConnection_ s = Some (next_io_service_ (service_pool_ s) mod Z.of_nat (io_services_ (service_pool_ s))) ->
  0 <= next_io_service_ (service_pool_ s) -> next_io_service_ (service_pool_ s) + Z.of_nat n < 2 ^ 64 ->
  exists s', accepts (replicate n false) s = Some s' /\ sv_accepting s' = true /\
    sv_started s' = sv_started s ++
      map (fun i => Some (i mod Z.of_nat (io_services_ (service_pool_ s)))) (seqZ (next_io_service_ (service_pool_ s)) (Z.of_nat n)).
Proof.
  revert s. induction n as [|n IH]; intros s He Hk Ha Hc H0 Hn.
  - exists s. cbn. by rewrite app_nil_r.
  - cbn [replicate accepts]. unfold onAccept. rewrite Ha. cbn [mbind option_bind service_pool_ newConnection_].
    unfold asyncAccept, get_io_service. cbn [service_pool_].
    destruct (service_pool_ s) as [[|k] next] eqn:Ep; cbn [io_services_ next_io_service_] in *; [lia|].
    rewrite wrap_small by lia.
    match goal with |- context [accepts _ ?s1] => set (s1' := s1) end.
    destruct (IH s1') as (s' & E & Hacc & Hst); try (cbn [s1' service_pool_ io_services_ next_io_service_ newConnection_ sv_accepting errorHandler_]; (done || lia)).
    exists s'. split_and!; [done|done|]. rewrite Hst. cbn [s1' service_pool_ io_services_ next_io_service_ sv_started].
    rewrite (seqZ_cons next) by lia. cbn [map]. rewrite Hc, <- app_assoc. cbn [app].
    rewrite <- Z.add_1_r. by replace (Z.pred (Z.of_nat (S n))) with (Z.of_nat n) by lia.
Qed.

(** The connections given to service [j]. *)
Definition connections_of (j : Z) (l : list (option Z)) : nat := length (filter (fun x => x = Some j) l).

Lemma div_step x k : 0 < k -> (x + 1) / k = x / k + if decide ((x + 1) mod k = 0) then 1 else 0.
Proof. intros Hk. case_decide; Z.div_mod_to_equations; nia. Qed.

Lemma mod_shift x j k : 0 <= j < k -> (x - j) mod k = 0 <-> x mod k = j.
Proof.
  intros Hj. split; intros H.
  - apply Z.mod_divide in H as [q Hq]; [|lia]. replace x with (j + q * k) by lia. rewrite Z.mod_add by lia. apply Z.mod_small. lia.
  - pose proof (Z.div_mod x k ltac:(lia)). replace (x - j) with (0 + x / k * k) by lia. rewrite Z.mod_add by lia. apply Z.mod_small. lia.
Qed.

Lemma in_turn_count k j n : 0 <= j < k ->
  Z.of_nat (connections_of j (map (fun i => Some (i mod k)) (seqZ 1 (Z.of_nat n)))) =
  (Z.of_nat n - j + k) / k - if decide (j = 0) then 1 else 0.
Proof.
  intros Hj. induction n as [|n IH].
  - transitivity 0; [done|]. change (Z.of_nat 0) with 0. case_decide as E.
    + subst. rewrite Z.sub_0_r, Z.add_0_l, Z.div_same by lia. lia.
    + rewrite Z.div_small by lia. lia.
  - rewrite seqZ_S, map_app, Nat2Z.inj_succ, <- Z.add_1_r. unfold connections_of in *.
    rewrite filter_app, length_app, Nat2Z.inj_add, IH. cbn [map].
    replace (Z.of_nat n + 1 - j + k) with ((Z.of_nat n - j + k) + 1) by lia. rewrite div_step by lia.
    replace (1 + Z.of_nat n) with (Z.of_nat n + 1) by lia.
    assert ((Z.of_nat n - j + k + 1) mod k = 0 <-> (Z.of_nat n + 1) mod k = j) as Heq.
    { replace (Z.of_nat n - j + k + 1) with (Z.of_nat n + 1 - j + 1 * k) by lia. rewrite Z.mod_add by lia. by apply mod_shift. }
    rewrite filter_cons, filter_nil. destruct (decide (Some ((Z.of_nat n + 1) mod k) = Some j)) as [E|E];
      destruct (decide ((Z.of_nat n - j + k + 1) mod k = 0)) as [E'|E']; cbn [length]; try lia.
    + injection E as E. tauto.
    + apply Heq in E'. congruence.
Qed.

(** Connections are spread evenly.  After [n] accepted connections, each of
    the [k] services of the pool runs [n / k] or [n / k + 1] of them. *)
Theorem connections_balanced k n j s : (2 <= k)%nat -> Z.of_nat n + 1 < 2 ^ 64 -> 0 <= j < Z.of_nat k ->
  serve (replicate n false) (new_async_server k) = Some s ->
  length (sv_started s) = n /\
  Z.of_nat n / Z.of_nat k <= Z.of_nat (connections_of j (sv_started s)) <= Z.of_nat n / Z.of_nat k + 1.
Proof.
  intros Hk Hn Hj E. unfold serve, new_async_server, new_io_service_pool in E.
  replace (k <=? 1)%nat with false in E by (symmetry; apply Nat.leb_gt; lia).
  unfold asyncAccept, get_io_service in E. cbn [service_pool_ io_services_ next_io_service_] in E.
  destruct k as [|k]; [lia|]. change (w64 (0 + 1)) with 1 in E.
  edestruct (accepts_started n) as (s' & E' & _ & Hst); [..|rewrite E' in E];
    try (cbn [service_pool_ io_services_ next_io_service_ newConnection_ sv_accepting errorHandler_]; (done || lia)).
  simplify_eq. rewrite Hst. cbn [service_pool_ io_services_ next_io_service_ sv_started app].
  rewrite length_map, length_seqZ. split; [lia|]. rewrite in_turn_count by done.
  destruct (decide (j = 0)) as [->|Hne]; Z.div_mod_to_equations; nia.
Qed.

(** An error of one accept ends the service: no other accept is started, so
    that no connection is ever accepted again. *)
Lemma accept_error_stops_server es1 es2 s s' : accepts (es1 ++ true :: es2) s = Some s' ->
  es2 = [] /\ sv_accepting s' = false /\ exists s1, accepts es1 s = Some s1 /\ sv_started s' = sv_started s1.
Proof.
  revert s. induction es1 as [|e es1 IH]; intros s E; cbn [app accepts] in E.
  - unfold onAccept in E. destruct (sv_accepting s); cbn [mbind option_bind] in E; [|done].
    destruct es2 as [|e es2]; [|done]. cbn in E. simplify_eq. split_and!; [done|done|by exists s].
  - destruct (onAccept e s) as [s0|] eqn:E0; cbn [mbind option_bind] in E; [|done].
    destruct (IH s0 E) as (-> & Ha & s1 & E1 & Hst). split_and!; [done|done|]. exists s1. cbn [accepts]. by rewrite E0.
Qed.

Lemma connections_balanced_witness :
  exists s, serve (replicate 7 false) (new_async_server 3) = Some s /\
    sv_started s = map Some [1; 2; 0; 1; 2; 0; 1] /\ 2 <= Z.of_nat (connections_of 1 (sv_started s)) <= 3.
Proof.
  eexists. split; [vm_compute; reflexivity|]. split; [vm_compute; reflexivity|].
  apply (connections_balanced 3 7 1); [lia|done|lia|vm_compute; reflexivity].
Defined.
