(* ===== verification/MultiThreadObjMgr.v ===== *)
(** * [MultiThreadObjMgr]: an object for each thread

    The forward manager keeps a client manager and a fiber pool for each
    thread.  The objects are in buckets chosen by the hash of the thread's id;
    a bucket is searched under its lock, so that the calls are atomic.  The
    hash function is a parameter. *)

From stdpp Require Import gmap options.
From S2P Require Import Prelude.

Definition PRIME_LIST : list Z :=
  [53; 97; 193; 389; 769; 1543; 3079; 6151; 12289; 24593; 49157; 98317; 196613; 393241; 786433; 1572869; 3145739; 6291469;
   12582917; 25165843; 50331653; 100663319; 201326611; 402653189; 805306457; 1610612741; 3221225473; 4294967291].

(** [std::lower_bound] on a sorted range: the first element that is not
    smaller. *)
Definition lower_bound (l : list Z) (n : Z) : option Z := List.find (fun x => n <=? x) l.

Definition cal_next_prime (n : Z) : Z :=
  if n >? 0 then match lower_bound PRIME_LIST n with Some p => p | None => List.last PRIME_LIST 0 end else n.

Section Manager.
Context {Thread : Type} `{EqDecision Thread} (hash : Thread -> Z).

(** The objects are numbered in the order of their creation. *)
Record obj_mgr := mk_obj_mgr { obj_list_ : list (list (Thread * nat)); created : nat }.

Definition new_obj_mgr : obj_mgr := mk_obj_mgr [] 0.
Definition init (num : Z) (m : obj_mgr) : obj_mgr := mk_obj_mgr (replicate (Z.to_nat (cal_next_prime (num * 2))) []) (created m).

Definition getBucketIndex (t : Thread) (total : nat) : nat := Z.to_nat (hash t mod Z.of_nat total).

(** [None]: there are no buckets, and the index is a division by zero. *)
Definition getThreadObj (t : Thread) (m : obj_mgr) : option (nat * obj_mgr) :=
  match obj_list_ m with
  | [] => None
  | l =>
      let i := getBucketIndex t (length l) in
      item ← l !! i;
      match List.find (fun x => bool_decide (x.1 = t)) item with
      | Some (_, o) => Some (o, m)
      | None => Some (created m, mk_obj_mgr (<[i := item ++ [(t, created m)]]> l) (S (created m)))
      end
  end.

Fixpoint calls (ts : list Thread) (m : obj_mgr) : option (list nat * obj_mgr) :=
  match ts with
  | [] => Some ([], m)
  | t :: ts => '(o, m) ← getThreadObj t m; '(os, m) ← calls ts m; Some (o :: os, m)
  end.

(** ** One object for each thread *)

(** The object of a thread in its bucket. *)
Definition object_of (t : Thread) (m : obj_mgr) : option nat :=
  item ← obj_list_ m !! getBucketIndex t (length (obj_list_ m));
  snd <$> List.find (fun x => bool_decide (x.1 = t)) item.

(** The manager represents the map [a] from threads to objects, no two of them
    with the same object. *)
Record represents (m : obj_mgr) (a : Thread -> option nat) : Prop := {
  rp_buckets : obj_list_ m <> [];
  rp_object t : object_of t m = a t;
  rp_created t o : a t = Some o -> (o < created m)%nat;
  rp_distinct t t' o : a t = Some o -> a t' = Some o -> t = t'
}.

Lemma bucket_in_range t m : obj_list_ m <> [] -> (getBucketIndex t (length (obj_list_ m)) < length (obj_list_ m))%nat.
Proof.
  intros H. assert (0 < length (obj_list_ m))%nat by (destruct (obj_list_ m); [done|cbn; lia]).
  unfold getBucketIndex. pose proof (Z.mod_pos_bound (hash t) (Z.of_nat (length (obj_list_ m)))). lia.
Qed.

Lemma find_snoc (t t' : Thread) (o : nat) item :
  List.find (fun x => bool_decide (x.1 = t)) (item ++ [(t', o)]) =
  match List.find (fun x => bool_decide (x.1 = t)) item with
  | Some x => Some x
  | None => if bool_decide (t' = t) then Some (t', o) else None
  end.
Proof. induction item as [|x item IH]; [done|]. cbn. by destruct (bool_decide (x.1 = t)). Qed.

(** The specification: a thread keeps its object and a new thread gets a new
    one. *)
Lemma getThreadObj_represents t m a : represents m a -> exists o m' a',
  getThreadObj t m = Some (o, m') /\ represents m' a' /\ a' t = Some o /\ (created m <= created m')%nat /\
  (forall t', t' <> t -> a' t' = a t') /\ (forall o', a t = Some o' -> o = o' /\ m' = m) /\ (a t = None -> o = created m).
Proof.
  intros [R1 R2 R3 R4]. pose proof (bucket_in_range t m R1) as Hi. pose proof (R2 t) as Hobj. unfold object_of in Hobj.
  destruct (lookup_lt_is_Some_2 _ _ Hi) as [item Hitem]. rewrite Hitem in Hobj. cbn [mbind option_bind] in Hobj.
  assert (getThreadObj t m = match List.find (fun x => bool_decide (x.1 = t)) item with
    | Some (_, o) => Some (o, m)
    | None => Some (created m, mk_obj_mgr (<[getBucketIndex t (length (obj_list_ m)) := item ++ [(t, created m)]]> (obj_list_ m)) (S (created m)))
    end) as ->.
  { unfold getThreadObj. destruct (obj_list_ m); [done|]. by rewrite Hitem. }
  destruct (List.find _ item) as [[t0 o]|] eqn:Ef; cbn [fmap option_fmap option_map snd] in Hobj.
  - exists o, m, a. split_and!; [done|by constructor|done|lia|done| |congruence]. intros o' Ho'. split; [congruence|done].
  - set (m' := mk_obj_mgr _ _). exists (created m), m', (fun t' => if decide (t' = t) then Some (created m) else a t').
    assert (length (obj_list_ m') = length (obj_list_ m)) as Hlen by apply length_insert.
    split_and!; [done| |by case_decide|cbn; lia|intros t' Ht'; by case_decide|congruence|done].
    constructor.
    + intros E. apply (f_equal length) in E. rewrite Hlen in E. by destruct (obj_list_ m).
    + intros t'. unfold object_of. rewrite Hlen. pose proof (R2 t') as Hobj'. unfold object_of in Hobj'.
      destruct (decide (getBucketIndex t' (length (obj_list_ m)) = getBucketIndex t (length (obj_list_ m)))) as [E|E].
      * rewrite E in *. cbn [m' obj_list_]. rewrite list_lookup_insert_eq by done. rewrite Hitem in Hobj'. cbn [mbind option_bind] in *.
        rewrite find_snoc. destruct (decide (t' = t)) as [->|Hne].
        -- rewrite Ef. by rewrite bool_decide_true.
        -- rewrite bool_decide_false by done. rewrite <- Hobj'. by case_match.
      * cbn [m' obj_list_]. rewrite list_lookup_insert_ne by done. rewrite decide_False by (by intros ->). done.
    + intros t' o. cbn [m' created]. case_decide; [intros [= <-]; lia|intros Ho; apply R3 in Ho; lia].
    + intros t1 t2 o. cbn. do 2 case_decide; intros H1 H2; simplify_eq; try done.
      * apply R3 in H2. lia.
      * apply R3 in H1. lia.
      * by eapply R4.
Qed.

Lemma represents_init num m : 0 < num -> represents (init num m) (fun _ => None).
Proof.
  intros Hn. assert (0 < cal_next_prime (num * 2)) as Hp.
  { unfold cal_next_prime. replace (num * 2 >? 0) with true by lia. destruct (lower_bound _ _) as [p|] eqn:E; [|vm_compute; done].
    apply List.find_some in E as [_ E]. lia. }
  constructor; [|intros t|done|done].
  - cbn. intros E. apply (f_equal length) in E. rewrite length_replicate in E. cbn in E. lia.
  - unfold object_of. cbn [init obj_list_]. destruct (replicate _ _ !! _) as [item|] eqn:E; [|done].
    by apply lookup_replicate in E as [-> _].
Qed.

Lemma calls_represent ts m a : represents m a -> exists os m' a', calls ts m = Some (os, m') /\ represents m' a' /\
  length os = length ts /\ (forall t o, a t = Some o -> a' t = Some o) /\
  (forall i t, ts !! i = Some t -> exists o, os !! i = Some o /\ a' t = Some o).
Proof.
  revert m a. induction ts as [|t ts IH]; intros m a Hm; cbn [calls]; [by exists [], m, a|].
  destruct (getThreadObj_represents t m a Hm) as (o & m1 & a1 & E1 & Hm1 & Ho & _ & Hother & Hsame & _).
  destruct (IH m1 a1 Hm1) as (os & m2 & a2 & E2 & Hm2 & Hlen & Hkeep & Hos).
  exists (o :: os), m2, a2. rewrite E1. cbn [mbind option_bind]. rewrite E2. cbn [mbind option_bind].
  split_and!; [done|done|cbn; lia| |].
  - intros t' o' Ha. apply Hkeep. destruct (decide (t' = t)) as [->|Hne]; [|by rewrite Hother].
    destruct (Hsame o' Ha) as [-> _]. done.
  - intros [|i] t' Ht; cbn in *; [|by apply Hos]. simplify_eq. exists o. split; [done|by apply Hkeep].
Qed.

End Manager.
Arguments obj_mgr Thread : clear implicits.
Arguments new_obj_mgr {Thread}.

(** A thread always gets the same object and no two threads share one,
    however the calls interleave and whatever the hash function: after [init]
    for at least one thread, in any sequence of calls, two calls return the
    same object exactly when they were made by the same thread. *)
Theorem objects_per_thread {Thread} `{EqDecision Thread} (hash : Thread -> Z) num ts :
  0 < num -> exists os m, calls hash ts (init num new_obj_mgr) = Some (os, m) /\ length os = length ts /\
  forall i j t t' o o', ts !! i = Some t -> ts !! j = Some t' -> os !! i = Some o -> os !! j = Some o' -> (o = o' <-> t = t').
Proof.
  intros Hn. destruct (calls_represent hash ts _ _ (represents_init hash num new_obj_mgr Hn)) as (os & m & a & E & Hm & Hlen & _ & Hos).
  exists os, m. split_and!; [done|done|]. intros i j t t' o o' Hi Hj Ho Ho'.
  destruct (Hos i t Hi) as (x & Hx & Ha). destruct (Hos j t' Hj) as (x' & Hx' & Ha'). simplify_eq. split.
  - intros ->. by eapply (rp_distinct _ _ _ Hm).
  - intros ->. congruence.
Qed.

Lemma objects_per_thread_witness :
  exists os m, calls (fun t : Z => 7) [10; 20; 10; 30; 20] (init 4 new_obj_mgr) = Some (os, m) /\ os = [0; 1; 0; 2; 1]%nat.
Proof.
  destruct (objects_per_thread (fun t : Z => 7) 4 [10; 20; 10; 30; 20] ltac:(lia)) as (os & m & E & _).
  exists os, m. split; [done|]. vm_compute in E. by injection E.
Defined.

(** [init] rounds up to a number of the list, while there is one. *)
Lemma cal_next_prime_ok n : 0 < n <= 4294967291 ->
  cal_next_prime n ∈ PRIME_LIST /\ n <= cal_next_prime n /\ Forall (fun p => n <= p -> cal_next_prime n <= p) PRIME_LIST.
Proof.
  intros Hn. unfold cal_next_prime, lower_bound. replace (n >? 0) with true by lia.
  destruct (List.find _ PRIME_LIST) as [p|] eqn:E.
  - pose proof (List.find_some _ _ E) as [Hin Hp]. split_and!; [by apply list_elem_of_In|lia|].
    revert E. unfold PRIME_LIST. cbn [List.find].
    repeat (match goal with |- context [n <=? ?x] => destruct (Z.leb_spec n x) end;
            [intros [= <-]; repeat constructor; lia|]). done.
  - pose proof (List.find_none _ _ E 4294967291 ltac:(vm_compute; tauto)) as H. cbv beta in H. lia.
Qed.
