(* ===== verification/FibpPortForwardConnection.v ===== *)
(** * [PortForwardConnection]: relaying a forwarded connection

    A connection to a forwarded port is served by two fibers:
    [PortForwardConnection::start] copies from the client to the host, and
    [handle_forward_rsp], detached by [create_forward_connection], copies back.
    The second one has a reference to the client's socket, a member of the
    connection, which lives as long as the first one runs: its fiber holds the
    only pointer to it. *)

From stdpp Require Import options.
From S2P Require Import Prelude FibpServiceInfo FibpPortForward.

(** ** The two fibers *)

(** [rl_alive]: the connection exists; [rl_up], [rl_down]: the loops run;
    [rl_client_open], [rl_host_open]: the client's socket and the session with
    the host receive; then what was read and what was written, as the
    reads and writes in order. *)
Record relay := mk_relay {
  rl_alive : bool;
  rl_up : bool;
  rl_down : bool;
  rl_client_open : bool;
  rl_host_open : bool;
  rl_from_client : list bytes;
  rl_to_host : list bytes;
  rl_from_host : list bytes;
  rl_to_client : list bytes
}.

(** The use of a destroyed socket is undefined. *)
Inductive relay_state := Relay (r : relay) | Relay_undefined.

(** [start] up to its loop: without a host the client's socket is shut down
    and the connection ends. *)
Definition start_relay (forwarded : forward_result) : relay :=
  match forwarded with
  | Connected_to _ => mk_relay true true true true true [] [] [] []
  | _ => mk_relay false false false false false [] [] [] []
  end.

(** The end of [start]: [forward_client->shutdown(false)], [shutdown()], and
    the connection is destroyed with the fiber. *)
Definition end_up (r : relay) : relay :=
  mk_relay false false (rl_down r) false false (rl_from_client r) (rl_to_host r) (rl_from_host r) (rl_to_client r).

(** The end of [handle_forward_rsp]: [client->shutdown(false)] and
    [src_socket.shutdown(...)]. *)
Definition end_down (r : relay) : relay_state :=
  if rl_alive r
  then Relay (mk_relay true (rl_up r) false false false (rl_from_client r) (rl_to_host r) (rl_from_host r) (rl_to_client r))
  else Relay_undefined.

(** An iteration of a loop: what is read, if the read succeeds, and whether the
    write does. *)
Inductive relay_event :=
| Up (data : option bytes) (written : bool)
| Down (data : option bytes) (written : bool).

(** An iteration of the loop of [start]; [None]: the fiber has ended.
    [shutdown] wakes up a fiber that reads from the socket; what had arrived may
    still be read, and writes go on. *)
Definition forward_data (data : option bytes) (written : bool) (r : relay) : option relay_state :=
  if negb (rl_up r) then None
  else match data with
       | None => Some (Relay (end_up r))
       | Some buf =>
           let r := mk_relay (rl_alive r) true (rl_down r) (rl_client_open r) (rl_host_open r) (rl_from_client r ++ [buf])
                      (if written then rl_to_host r ++ [buf] else rl_to_host r) (rl_from_host r) (rl_to_client r) in
           Some (Relay (if written then r else end_up r))
       end.

(** An iteration of the loop of [handle_forward_rsp]. *)
Definition handle_forward_rsp (data : option bytes) (written : bool) (r : relay) : option relay_state :=
  if negb (rl_down r) then None
  else match data with
       | None => Some (end_down r)
       | Some buf =>
           if negb (rl_alive r) then Some Relay_undefined
           else
             let r := mk_relay true (rl_up r) true (rl_client_open r) (rl_host_open r) (rl_from_client r) (rl_to_host r)
                        (rl_from_host r ++ [buf]) (if written then rl_to_client r ++ [buf] else rl_to_client r) in
             Some (if written then Relay r else end_down r)
       end.

Definition relay_step (e : relay_event) (r : relay) : option relay_state :=
  match e with
  | Up data written => forward_data data written r
  | Down data written => handle_forward_rsp data written r
  end.

Fixpoint relay_run (es : list relay_event) (s : relay_state) : option relay_state :=
  match es with
  | [] => Some s
  | e :: es => match s with Relay r => s ← relay_step e r; relay_run es s | Relay_undefined => None end
  end.

(** ** What arrives *)

(** What was written is what was read, but for the last piece of a loop that
    has ended. *)
Definition copied (running : bool) (read written : list bytes) : Prop :=
  written = read \/ running = false /\ exists buf, read = written ++ [buf].

Record relay_ok (r : relay) : Prop := {
  ro_up : copied (rl_up r) (rl_from_client r) (rl_to_host r);
  ro_down : copied (rl_down r) (rl_from_host r) (rl_to_client r);
  ro_alive : rl_up r = rl_alive r
}.

Lemma copied_running read written buf : copied true read written -> copied true (read ++ [buf]) (written ++ [buf]).
Proof. intros [-> | [? _]]; [by left|done]. Qed.
Lemma copied_lost read written buf : copied true read written -> copied false (read ++ [buf]) written.
Proof. intros [-> | [? _]]; [|done]. right. split; [done|by exists buf]. Qed.
Lemma copied_end x read written : copied x read written -> copied false read written.
Proof. intros [-> | [_ H]]; [by left|by right]. Qed.

Lemma relay_ok_step e r r' : relay_ok r -> relay_step e r = Some (Relay r') -> relay_ok r'.
Proof.
  intros [H1 H2 H3] E. destruct e as [data written|data written]; cbn [relay_step] in E; unfold forward_data, handle_forward_rsp in E.
  - destruct (rl_up r) eqn:Eu; cbn [negb] in E; [|done].
    destruct data as [buf|]; [destruct written|]; simplify_eq; constructor; cbn; try done.
    + by apply copied_running.
    + by apply copied_lost.
    + by eapply copied_end.
  - destruct (rl_down r) eqn:Ed; cbn [negb] in E; [|done]. unfold end_down in E. cbn [rl_alive] in E.
    destruct (rl_alive r) eqn:Ea; cbn [negb] in E; [|by destruct data].
    destruct data as [buf|]; [destruct written|]; simplify_eq; constructor; cbn; try done.
    + by apply copied_running.
    + by apply copied_lost.
    + by eapply copied_end.
Qed.

Lemma relay_ok_run es r r' : relay_ok r -> relay_run es (Relay r) = Some (Relay r') -> relay_ok r'.
Proof.
  revert r. induction es as [|e es IH]; intros r Hr E; cbn [relay_run] in E; [by simplify_eq|].
  destruct (relay_step e r) as [[r1|]|] eqn:E1; cbn [mbind option_bind] in E; [|by destruct es|done].
  apply (IH r1); [by eapply relay_ok_step|done].
Qed.

Lemma relay_ok_start f : relay_ok (start_relay f).
Proof. destruct f; constructor; cbn; by try left. Qed.

(** C31: A forwarded connection is relayed unchanged in both directions: at
    every moment of every interleaving of the two fibers, what the host has got
    is what was read from the client, and what the client has got is what was
    read from the host, in order and piece by piece, except that a loop that
    has ended may have lost its last piece. *)
Theorem relay_faithful es f r : relay_run es (Relay (start_relay f)) = Some (Relay r) ->
  copied (rl_up r) (rl_from_client r) (rl_to_host r) /\ copied (rl_down r) (rl_from_host r) (rl_to_client r).
Proof. intros E. by destruct (relay_ok_run es _ r (relay_ok_start f) E). Qed.

(** A client that closes its connection first makes the server use a
    destroyed socket: when the loop of [start] ends while the other fiber runs,
    the next step of that fiber, which the shutdown of the session wakes up, is
    undefined, whatever it reads. *)
Theorem client_close_uses_destroyed_socket es f r data written :
  relay_run es (Relay (start_relay f)) = Some (Relay r) -> rl_up r = false -> rl_down r = true ->
  relay_step (Down data written) r = Some Relay_undefined.
Proof.
  intros E Hu Hd. destruct (relay_ok_run es _ r (relay_ok_start f) E) as [_ _ H3].
  cbn [relay_step]. unfold handle_forward_rsp. rewrite Hd. cbn [negb]. unfold end_down. rewrite <- H3, Hu. by destruct data.
Qed.

(** ** Samples *)

Definition to_some_host : relay := start_relay (Connected_to (b "h", b "1")).

Lemma relay_faithful_witness :
  exists r, relay_run [Up (Some (b "get")) true; Down (Some (b "o")) true; Up (Some (b "x")) true; Down (Some (b "k")) true; Down None true;
                       Up None true] (Relay to_some_host) = Some (Relay r) /\
    rl_to_host r = [b "get"; b "x"] /\ copied false (rl_from_host r) (rl_to_client r).
Proof.
  eexists. split; [vm_compute; reflexivity|]. split; [reflexivity|].
  apply (relay_faithful [Up (Some (b "get")) true; Down (Some (b "o")) true; Up (Some (b "x")) true; Down (Some (b "k")) true; Down None true;
                         Up None true] (Connected_to (b "h", b "1"))). vm_compute. reflexivity.
Defined.

Lemma client_close_uses_destroyed_socket_witness :
  relay_run [Up (Some (b "get")) true; Up None true; Down None true] (Relay to_some_host) = Some Relay_undefined.
Proof.
  set (r := mk_relay false false true false false [b "get"] [b "get"] [] []).
  transitivity (relay_step (Down None true) r); [reflexivity|].
  apply (client_close_uses_destroyed_socket [Up (Some (b "get")) true; Up None true] (Connected_to (b "h", b "1")));
    [reflexivity|reflexivity|reflexivity].
Defined.
