(* ===== verification/FibpLoggerStats.v ===== *)
(** * The statistics of the services

    [sendLogToDB] averages the latencies of each service for each second, and
    [reportServiceStats], a fiber of [FibpServiceMgr], posts the averages of
    the last seconds to a report server. *)

From stdpp Require Import gmap sorting options.
From S2P Require Import Prelude FibpServiceInfo FibpLogger FibpLoggerSpec.

Section Stats.
Context {arith : DoubleArith}.

(** ** [reportServiceStats] *)

(** An element of the message: [Name], [Latency], [RequestPerSec], [Timestamp]. *)
Record stat_value := mk_stat_value { sv_name : bytes; sv_latency : double; sv_request_per_sec : Z; sv_timestamp : Z }.

Definition by_service (x y : bytes * list ServiceStat) : Prop := bytes_ltb y.1 x.1 = false.
#[export] Instance by_service_dec x y : Decision (by_service x y).
Proof. unfold by_service. apply _. Defined.

(** The two loops over [serviceStats]. *)
Definition stat_values (m : gmap bytes (list ServiceStat)) : list stat_value :=
  x ← merge_sort by_service (map_to_list m); s ← x.2; [mk_stat_value x.1 (avgLatency s) (requestPerSec s) (timestamp s)].

(** An iteration: the message that is posted, [None] when there are no
    statistics. *)
Definition reportServiceStats (g : logger) : option (list stat_value) :=
  match stat_values (getRecentServiceStats g) with [] => None | l => Some l end.

(** ** Every average has requests *)

(** The sum of the latencies of some requests of one second. *)
Definition total (rs : list RequestData) : double :=
  fold_left (fun x r => double_add x (latency (rd_start_time r) (rd_end_time r))) rs double_zero.

(** The request [r] of the service [name] is a row of the log. *)
Definition logged (g : logger) (name : bytes) (r : RequestData) : Prop :=
  exists l, service_row (service_point_of l (name, r)) ∈ service_rows g.

(** [rs] are requests of a service, for which [P] holds, in the second of a
    statistic. *)
Definition counts (P : RequestData -> Prop) (s : ServiceStat) (rs : list RequestData) : Prop :=
  rs <> [] /\ requestPerSec s = Z.of_nat (length rs) /\ Forall (fun r => rd_start_time r / 1000000 = timestamp s /\ P r) rs.
(** A statistic of the current second, and one of a second that is over. *)
Definition open_stat (P : RequestData -> Prop) (s : ServiceStat) : Prop := exists rs, counts P s rs /\ avgLatency s = total rs.
Definition closed_stat (P : RequestData -> Prop) (s : ServiceStat) : Prop :=
  exists rs, counts P s rs /\ avgLatency s = double_div (total rs) (Z.of_nat (length rs)).

Record stats_ok (P : bytes -> RequestData -> Prop) (t : stats) : Prop := {
  st_cur : map_Forall (fun name s => open_stat (P name) s) (curTimeStats t);
  st_service : map_Forall (fun name l => Forall (closed_stat (P name)) l) (serviceStats t);
  st_recent : map_Forall (fun name l => Forall (closed_stat (P name)) l) (recentServiceStats_ t)
}.

Lemma total_snoc rs r : total (rs ++ [r]) = double_add (total rs) (latency (rd_start_time r) (rd_end_time r)).
Proof. unfold total. by rewrite fold_left_app. Qed.

Lemma counts_mono (P Q : RequestData -> Prop) s rs : (forall r, P r -> Q r) -> counts P s rs -> counts Q s rs.
Proof. intros H (H1 & H2 & H3). split_and!; [done|done|]. eapply Forall_impl; [exact H3|]. cbn beta. intros r [? ?]. split; [done|by apply H]. Qed.

Lemma stats_ok_mono (P Q : bytes -> RequestData -> Prop) t : (forall name r, P name r -> Q name r) -> stats_ok P t -> stats_ok Q t.
Proof.
  intros H. assert (forall name s, closed_stat (P name) s -> closed_stat (Q name) s) as Hc.
  { intros name s (rs & Hrs & Ha). exists rs. split; [|done]. by eapply counts_mono; [apply H|]. }
  intros [H1 H2 H3]. constructor.
  - intros name s Hs. destruct (H1 name s Hs) as (rs & Hrs & Ha). exists rs. split; [|done]. by eapply counts_mono; [apply H|].
  - intros name l Hl. eapply Forall_impl; [by apply (H2 name)|]. apply Hc.
  - intros name l Hl. eapply Forall_impl; [by apply (H3 name)|]. apply Hc.
Qed.

Section Requests.
Context (P : bytes -> RequestData -> Prop).

Lemma close_second_ok name s t : open_stat (P name) s -> stats_ok P t -> stats_ok P (close_second name s t).
Proof.
  intros (rs & (Hne & Hn & Hs) & Ha) [H1 H2 H3]. unfold close_second. set (s' := mk_ServiceStat _ _ _).
  assert (closed_stat (P name) s') as Hc by (exists rs; split; [done|]; cbn; by rewrite Ha, Hn).
  assert (map_Forall (fun name l => Forall (closed_stat (P name)) l)
            (<[name := default [] (serviceStats t !! name) ++ [s']]> (serviceStats t))) as Hins.
  { apply map_Forall_insert_2; [|done]. apply Forall_app. split; [|by apply Forall_singleton].
    destruct (serviceStats t !! name) as [l|] eqn:E; [by apply (H2 name)|constructor]. }
  destruct (_ >? 10); constructor; cbn; try done.
  intros n l Hl. apply lookup_fmap_Some in Hl as (l' & <- & _). constructor.
Qed.

(** A statistic of the second of [r] to which [r] is added. *)
Lemma open_stat_add (Q : RequestData -> Prop) r s : Q r -> timestamp s = rd_start_time r / 1000000 ->
  requestPerSec s = 0 /\ avgLatency s = double_zero \/ open_stat Q s ->
  open_stat Q (mk_ServiceStat (double_add (avgLatency s) (latency (rd_start_time r) (rd_end_time r))) (requestPerSec s + 1) (timestamp s)).
Proof.
  intros Hr Et [[E1 E2]|(rs & (Hne & Hn & Hs) & Ha)].
  - exists [r]. split; [split_and!; cbn; [done|lia|by apply Forall_singleton]|]. cbn. by rewrite E2.
  - exists (rs ++ [r]). split; [split_and!; cbn|cbn; by rewrite Ha, total_snoc].
    + by destruct rs.
    + rewrite length_app. cbn. lia.
    + apply Forall_app. split; [done|by apply Forall_singleton].
Qed.

Lemma add_request_ok name r t : P name r -> stats_ok P t -> stats_ok P (add_request name r t).
Proof.
  intros Hr Ht. unfold add_request. set (second := rd_start_time r / 1000000).
  assert (forall t s, stats_ok P t -> open_stat (P name) s ->
    stats_ok P (mk_stats (<[name := s]> (curTimeStats t)) (serviceStats t) (recentServiceStats_ t))) as Hset.
  { intros t' s [G1 G2 G3] Hs. constructor; cbn; [by apply map_Forall_insert_2|done|done]. }
  destruct (curTimeStats t !! name) as [s|] eqn:E; cbn [from_option id].
  - pose proof (st_cur P t Ht name s E) as Hs. destruct (Z.eqb_spec second (timestamp s)) as [Eq|Hne].
    + apply Hset; [done|]. apply open_stat_add; [done|done|by right].
    + apply Hset; [by apply close_second_ok|]. apply open_stat_add; [done|done|by left].
  - cbn [timestamp]. rewrite Z.eqb_refl. apply Hset; [done|]. apply open_stat_add; [done|done|by left].
Qed.

Lemma add_requests_ok l t : Forall (fun x => P x.1 x.2) (requests_of l) -> stats_ok P t -> stats_ok P (add_requests l t).
Proof.
  unfold add_requests. intros H. revert t. induction H as [|x xs Hx _ IH]; intros t Ht; [done|]. cbn [fold_left].
  by apply IH, add_request_ok.
Qed.

End Requests.

(** What the sender has collected is counted. *)
Definition batch_ok (g : logger) : Prop := lg_cnt g = Z.of_nat (length (lg_api g)) /\ (lg_api g = [] -> lg_services g = []).

Record report_ok (g : logger) : Prop := { rpt_batch : batch_ok g; rpt_stats : stats_ok (logged g) (lg_stats g) }.

Lemma report_ok_same g g' : lg_cnt g' = lg_cnt g -> lg_api g' = lg_api g -> lg_services g' = lg_services g -> lg_posted g' = lg_posted g ->
  lg_stats g' = lg_stats g -> report_ok g -> report_ok g'.
Proof.
  intros E1 E2 E3 E4 E5 [[B1 B2] S]. constructor; [unfold batch_ok; by rewrite E1, E2, E3|]. rewrite E5.
  eapply stats_ok_mono; [|exact S]. intros name r [l Hl]. exists l. unfold service_rows, posted_rows in *. by rewrite E3, E4.
Qed.

Lemma report_ok_collect g : report_ok g -> report_ok (collect g).
Proof.
  intros [[B1 B2] S]. unfold collect. set (l := slot _ _). destruct (_ <? _).
  2: { by apply (report_ok_same g). }
  constructor; cbn [lg_cnt lg_api lg_services lg_stats].
  - split; cbn [lg_cnt lg_api lg_services]; [rewrite length_app; cbn; lia|]. by destruct (lg_api g).
  - apply add_requests_ok.
    + apply Forall_forall. intros x Hx. exists l. unfold service_rows. cbn [lg_services].
      apply elem_of_app. right. rewrite map_app. apply elem_of_app. right.
      apply list_elem_of_In, in_map, in_map_iff. exists x. split; [by destruct x|by apply list_elem_of_In].
    + eapply stats_ok_mono; [|exact S]. intros name r [l0 Hl0]. exists l0. unfold service_rows, posted_rows in *.
      cbn [lg_services lg_posted]. rewrite map_app, app_assoc. apply elem_of_app. by left.
Qed.

Lemma report_ok_step e g g' : report_ok g -> log_step e g = Some g' -> report_ok g'.
Proof.
  intros Hg E. destruct (client_id e) as [id|] eqn:Hid.
  - rewrite (client_step e id g g' Hid E). destruct (id =? 0); [done|by apply (report_ok_same g)].
  - destruct e; cbn [client_id] in Hid; try done; cbn [log_step] in E.
    + unfold startServiceCall in E. destruct (_ || _); simplify_eq; by apply (report_ok_same g).
    + destruct (collecting g); [|done]. simplify_eq. by apply report_ok_collect.
    + destruct (collecting g); [done|]. simplify_eq. destruct Hg as [[B1 B2] S].
      destruct (post_fields sent found g B1 B2) as (_ & _ & _ & P4 & P5 & P6 & _ & P8).
      constructor; [unfold batch_ok; by rewrite P4, P5, P6|].
      assert (lg_stats (post sent found g) = lg_stats g) as ->.
      { unfold post, findLogService. destruct (_ =? _); [done|]. destruct sent; [done|]. destruct found; [|done]. by case_bool_decide. }
      eapply stats_ok_mono; [|exact S]. intros name r [l Hl]. exists l. by rewrite P8.
Qed.

Lemma report_ok_run es g g' : report_ok g -> log_run es g = Some g' -> report_ok g'.
Proof.
  revert g. induction es as [|e es IH]; intros g Hg E; cbn [log_run] in E; [by simplify_eq|].
  destruct (log_step e g) as [g1|] eqn:E1; cbn [mbind option_bind] in E; [|done]. apply (IH g1); [by eapply report_ok_step|done].
Qed.

Lemma stat_values_of m v : v ∈ stat_values m -> exists l s, m !! sv_name v = Some l /\ s ∈ l /\
  v = mk_stat_value (sv_name v) (avgLatency s) (requestPerSec s) (timestamp s).
Proof.
  unfold stat_values. intros ([name l] & Hv & Hl)%list_elem_of_bind. apply list_elem_of_bind in Hv as (s & Hv & Hs).
  apply list_elem_of_singleton in Hv as ->. rewrite merge_sort_Permutation in Hl. apply elem_of_map_to_list in Hl.
  by exists l, s.
Qed.

End Stats.

(** C32: What is reported of a service is the average of its requests: in every
    run, an element of the report is the sum of the latencies of requests of
    the service, at least one, that are rows of the log and began in the second
    it names, divided by their number, which is the number it names. *)
Theorem reported_averages {arith : DoubleArith} es ip port g values v :
  log_run es (new_logger ip port) = Some g -> reportServiceStats g = Some values -> v ∈ values ->
  exists rs, rs <> [] /\ Forall (fun r => rd_start_time r / 1000000 = sv_timestamp v /\ logged g (sv_name v) r) rs /\
    sv_request_per_sec v = Z.of_nat (length rs) /\ sv_latency v = double_div (total rs) (Z.of_nat (length rs)).
Proof.
  intros E Hv Hin. assert (report_ok g) as [_ Hok].
  { refine (report_ok_run es _ g _ E). constructor; [done|]. constructor; cbn; apply map_Forall_empty. }
  unfold reportServiceStats in Hv. destruct (stat_values _) as [|x xs] eqn:Es; [done|]. injection Hv as <-. rewrite <- Es in Hin.
  apply stat_values_of in Hin as (l & s & Hl & Hs & Ev). pose proof (st_recent _ _ Hok _ _ Hl) as Hc. rewrite Forall_forall in Hc.
  destruct (Hc s Hs) as (rs & (Hne & Hn & Ht) & Ha). exists rs. rewrite Ev. cbn. done.
Qed.

(** ** A sample *)

(** Two calls in one second and one call twelve seconds later. *)
Definition sample_seconds : list log_event :=
  let call id t := [Lg_start t; Lg_send id (b "svc") (b "h") (b "80") t; Lg_reply id (b "svc") (t + 4); Lg_end id (t + 5)] in
  call 1 1000000 ++ call 2 1000010 ++ call 3 2000000 ++ call 4 13000000 ++ call 5 14000000
    ++ [Lg_collect; Lg_collect; Lg_collect; Lg_collect; Lg_collect].

Definition sample_report : list stat_value :=
  map (fun x => @mk_stat_value integer_double (b "svc") 4 x.1 x.2) [(2, 1); (1, 2); (1, 13)].

Lemma sample_seconds_run :
  (log_run sample_seconds (new_logger (b "log") (b "1")) ≫= reportServiceStats) = Some sample_report.
Proof. vm_compute. reflexivity. Qed.

Lemma reported_averages_witness :
  exists g, log_run sample_seconds (new_logger (b "log") (b "1")) = Some g /\ reportServiceStats g = Some sample_report /\
    exists rs : list RequestData, length rs = 2%nat.
Proof.
  pose proof sample_seconds_run as H. destruct (log_run sample_seconds (new_logger (b "log") (b "1"))) as [g|] eqn:E; [|done].
  cbn [mbind option_bind] in H. exists g. split_and!; [done|done|].
  destruct (reported_averages sample_seconds (b "log") (b "1") g sample_report (@mk_stat_value integer_double (b "svc") 4 2 1) E H)
    as (rs & _ & _ & Hn & _); [by left|]. exists rs. cbn in Hn. lia.
Defined.
