(* ===== verification/XmlConfigParser.v ===== *)
(** * [XmlConfigParser]: the configuration of the process

    [FibpConfig::parseConfigFile] reads the settings from an XML document.  The
    document is a tree of TinyXML's C++ interface, outside the repository: the
    class [Ticpp]; so are [boost::lexical_cast] and the detection of the local
    address. *)

From stdpp Require Import options.
From S2P Require Import Prelude Boost.

(** ** What TinyXML provides *)

(** An element is a node of a document.  [FirstChildElement] and [NextSibling]
    are called with [false]: a null pointer instead of an exception. *)
Class Ticpp := {
  element : Type;
  Value : element -> bytes;
  (** The empty string when there is no such attribute. *)
  GetAttribute : element -> bytes -> bytes;
  children : element -> list element;
  FirstChildElement : element -> bytes -> option element;
  NextSibling : element -> bytes -> option element;
  first_child_spec e name : FirstChildElement e name = head (filter (fun c => Value c = name) (children e));
  next_sibling_spec e name c l : filter (fun c => Value c = name) (children e) = c :: l -> NextSibling c name = head l
}.

(** ** Helper functions *)

Definition downCase (str : bytes) : bytes := map tolower str.

Definition parseTruth (str : bytes) : Z :=
  let temp := downCase str in
  if bool_decide (temp = b "y") || bool_decide (temp = b "yes") then 1
  else if bool_decide (temp = b "n") || bool_decide (temp = b "no") then 0
  else -1.

(** The position of the first character that satisfies [f]. *)
Fixpoint index_of (f : ascii -> bool) (s : bytes) : option nat :=
  match s with
  | [] => None
  | c :: s => if f c then Some 0%nat else S <$> index_of f s
  end.

(** [" ,\t"] *)
Definition is_comma (c : ascii) : bool := (c == SP)%byte || (c == ","%char)%byte || (c == HT)%byte.

Definition find_first_of (s : bytes) (pos : nat) : option nat := Nat.add pos <$> index_of is_comma (drop pos s).
Definition find_first_not_of (s : bytes) (pos : nat) : option nat := Nat.add pos <$> index_of (fun c => negb (is_comma c)) (drop pos s).

(** The loop; [fuel] bounds its iterations. *)
Fixpoint comma_loop (fuel : nat) (str : bytes) (startIndex : nat) : option (list bytes) :=
  match fuel with
  | O => None
  | S fuel =>
      match find_first_not_of str startIndex with
      | None => Some []
      | Some startIndex =>
          let endIndex := default (length str) (find_first_of str (startIndex + 1)) in
          rest ← comma_loop fuel str (endIndex + 1);
          Some (take (endIndex - startIndex) (drop startIndex str) :: rest)
      end
  end.
Definition parseByComma (str : bytes) : option (list bytes) := comma_loop (S (length str)) str 0.

Definition isalnum (c : ascii) : bool :=
  ((48 <=? uc c) && (uc c <=? 57)) || ((65 <=? uc c) && (uc c <=? 90)) || ((97 <=? uc c) && (uc c <=? 122)).
Definition validateID (id : bytes) : bool :=
  forallb (fun c => isalnum c || (c == "-"%char)%byte || (c == "_"%char)%byte || (c == "."%char)%byte) id.

(** ** Errors *)

(** [XmlConfigParserException], and [bad_lexical_cast], which the exception
    specification of [parseConfigFile] does not allow. *)
Inductive config_error := XmlConfigParserException (details : bytes) | Bad_lexical_cast.

Abbreviation config_result A := (A + config_error)%type.
Definition cbind {A B} (x : config_result A) (f : A -> config_result B) : config_result B :=
  match x with inl a => f a | inr e => inr e end.
Notation "x '<-?' e ; f" := (cbind e (fun x => f)) (at level 100, e at level 99, f at level 200, right associativity).

Definition throw_MultipleElement (name : bytes) : config_error :=
  XmlConfigParserException (b "Multiple definitions of <" ++ name ++ b "> element").
Definition throw_NoElement (name : bytes) : config_error :=
  XmlConfigParserException (b "Definitions of element <" ++ name ++ b "> is missing").
Definition quoted (name : bytes) : bytes := DQUOTE :: name ++ [DQUOTE].

Section Parser.
Context {ticpp : Ticpp}.

Definition throw_TypeMismatch (ele : element) (name valueStr : bytes) : config_error :=
  XmlConfigParserException (b "<" ++ Value ele ++ b ">, wrong data type is given for attribute " ++ quoted name
    ++ match valueStr with [] => [] | _ => b " value: " ++ valueStr end).
Definition throw_NoAttribute (ele : element) (name : bytes) : config_error :=
  XmlConfigParserException (b "<" ++ Value ele ++ b ">, requires attribute " ++ quoted name).

(** ** Elements and attributes *)

Definition getUniqChildElement (ele : element) (name : bytes) : config_result element :=
  match FirstChildElement ele name with
  | None => inr (throw_NoElement name)
  | Some temp => match NextSibling temp name with Some _ => inr (throw_MultipleElement name) | None => inl temp end
  end.

(** [None]: the attribute has no value and need not have one. *)
Definition getAttribute (ele : element) (name : bytes) (throwIfNoAttribute : bool) : config_result (option bytes) :=
  match GetAttribute ele name with
  | [] => if throwIfNoAttribute then inr (throw_NoAttribute ele name) else inl None
  | val => inl (Some val)
  end.

(** The overload for strings assigns the empty string. *)
Definition getAttribute_string (ele : element) (name : bytes) (throwIfNoAttribute : bool) : config_result bytes :=
  v <-? getAttribute ele name throwIfNoAttribute; inl (default [] v).

(** [val] is what the variable holds before. *)
Definition getAttribute_bool (ele : element) (name : bytes) (val : bool) (throwIfNoAttribute : bool) : config_result bool :=
  v <-? getAttribute ele name throwIfNoAttribute;
  match v with
  | None => inl val
  | Some temp =>
      let t := parseTruth temp in
      if t =? 1 then inl true else if t =? 0 then inl false else inr (throw_TypeMismatch ele name temp)
  end.

Context (lexical_cast_int64 : bytes -> option Z).

(** [getAttribute_IntType] for an unsigned type of [w] bits. *)
Definition getAttribute_IntType (w : Z) (ele : element) (name : bytes) (val : Z) (throwIfNoAttribute : bool) : config_result Z :=
  v <-? getAttribute ele name throwIfNoAttribute;
  match v with
  | None => inl val
  | Some temp => match lexical_cast_int64 temp with Some n => inl (wrap w n) | None => inr Bad_lexical_cast end
  end.

(** ** The settings *)

Record BrokerAgentConfig := mk_broker { threadNum_ : Z; enableTest_ : bool; port_ : Z }.
Record LogServerConnectionConfig := mk_log_server { ls_host : bytes; ls_port : bytes; log_service : bytes; log_tag : bytes }.
Record DistributedCommonConfig := mk_common {
  userName_ : bytes; localHost_ : bytes; baPort_ : Z; workerPort_ : Z; masterPort_ : Z
}.
Record ZooKeeperConfig := mk_zookeeper { disabled_ : bool; zkHosts_ : bytes; zkRecvTimeout_ : Z }.
Record DFSConfig := mk_dfs { dfs_type_ : bytes; isSupportFuse_ : bool; mountDir_ : bytes; dfs_server_ : bytes; dfs_port_ : Z }.
Record DistributedUtilConfig := mk_util { zkConfig_ : ZooKeeperConfig; dfsConfig_ : DFSConfig; dns_servers_ : bytes }.

Record FibpConfig := mk_config {
  resource_dir_ : bytes;
  working_dir_ : bytes;
  logServerConnectionConfig_ : LogServerConnectionConfig;
  brokerAgentConfig_ : BrokerAgentConfig;
  distributedCommonConfig_ : DistributedCommonConfig;
  distributedUtilConfig_ : DistributedUtilConfig
}.

(** What the members hold before comes from [c]: the code does not initialise
    all of them. *)
Definition parseSystemSettings (system : element) : config_result (bytes * bytes * LogServerConnectionConfig) :=
  e <-? getUniqChildElement system (b "Resource");
  resource_dir <-? getAttribute_string e (b "path") true;
  e <-? getUniqChildElement system (b "WorkingDir");
  working_dir <-? getAttribute_string e (b "path") true;
  e <-? getUniqChildElement system (b "LogServerConnection");
  host <-? getAttribute_string e (b "host") true;
  port <-? getAttribute_string e (b "port") true;
  service <-? getAttribute_string e (b "log_service") true;
  tag <-? getAttribute_string e (b "log_tag") true;
  inl (resource_dir, working_dir, mk_log_server host port service tag).

Definition parseBrokerAgent (brokerAgent : element) (c : BrokerAgentConfig) : config_result BrokerAgentConfig :=
  enableTest <-? getAttribute_bool brokerAgent (b "enabletest") (enableTest_ c) false;
  threadNum <-? getAttribute_IntType 64 brokerAgent (b "threadnum") (threadNum_ c) false;
  port <-? getAttribute_IntType 32 brokerAgent (b "port") (port_ c) false;
  inl (mk_broker threadNum enableTest port).

(** [net::distribute::Util::getLocalHostIp] *)
Context (getLocalHostIp : bytes -> option bytes).

Definition parseDistributedCommon (e : element) (baPort : Z) (c : DistributedCommonConfig) : config_result DistributedCommonConfig :=
  userName <-? getAttribute_string e (b "username") true;
  workerPort <-? getAttribute_IntType 32 e (b "workerport") (workerPort_ c) true;
  masterPort <-? getAttribute_IntType 32 e (b "masterport") (masterPort_ c) true;
  interface <-? getAttribute_string e (b "localinterface") true;
  localHost <-? match getLocalHostIp interface with Some ip => inl ip | None => getAttribute_string e (b "localhost") true end;
  inl (mk_common userName localHost baPort workerPort masterPort).

Definition parseDistributedUtil (e : element) (c : DistributedUtilConfig) : config_result DistributedUtilConfig :=
  zk <-? getUniqChildElement e (b "ZooKeeper");
  disabled <-? getAttribute_bool zk (b "disable") (disabled_ (zkConfig_ c)) true;
  hosts <-? getAttribute_string zk (b "servers") true;
  timeout <-? getAttribute_IntType 32 zk (b "sessiontimeout") (zkRecvTimeout_ (zkConfig_ c)) true;
  dns <-? getUniqChildElement e (b "ServiceDiscovery");
  servers <-? getAttribute_string dns (b "servers") true;
  dfs <-? getUniqChildElement e (b "DFS");
  type <-? getAttribute_string dfs (b "type") false;
  fuse <-? getAttribute_bool dfs (b "supportfuse") (isSupportFuse_ (dfsConfig_ c)) false;
  mountdir <-? getAttribute_string dfs (b "mountdir") false;
  server <-? getAttribute_string dfs (b "server") false;
  port <-? getAttribute_IntType 32 dfs (b "port") (dfs_port_ (dfsConfig_ c)) false;
  inl (mk_util (mk_zookeeper disabled hosts timeout) (mk_dfs type fuse mountdir server port) servers).

Definition parseDeploymentSettings (deploy : element) (c : FibpConfig)
  : config_result (BrokerAgentConfig * DistributedCommonConfig * DistributedUtilConfig) :=
  e <-? getUniqChildElement deploy (b "BrokerAgent");
  broker <-? parseBrokerAgent e (brokerAgentConfig_ c);
  e <-? getUniqChildElement deploy (b "DistributedCommon");
  common <-? parseDistributedCommon e (port_ broker) (distributedCommonConfig_ c);
  e <-? getUniqChildElement deploy (b "DistributedUtil");
  util <-? parseDistributedUtil e (distributedUtilConfig_ c);
  inl (broker, common, util).

(** [parseConfigFile] on a document that was loaded: the file and the schema
    exist and the document is valid for the schema. [None]: the value
    [false]. *)
Definition parseConfigFile (file_exists schema_exists schema_valid : bool) (document : element) (c : FibpConfig)
  : config_result (option FibpConfig) :=
  if negb file_exists || negb schema_exists || negb schema_valid then inl None
  else
    match FirstChildElement document (b "FibpConfig") with
    | None => inr (throw_NoElement (b "FibpConfig"))
    | Some config =>
        e <-? getUniqChildElement config (b "System");
        sys <-? parseSystemSettings e;
        let '(resource_dir, working_dir, log_server) := sys in
        e <-? getUniqChildElement config (b "Deployment");
        dep <-? parseDeploymentSettings e c;
        let '(broker, common, util) := dep in
        inl (Some (mk_config resource_dir working_dir log_server broker common util))
    end.

End Parser.
