(* ===== verification/XmlConfigSpec.v ===== *)
(** * What the configuration parser promises

    A document that describes a configuration, whatever else it contains, is
    read as that configuration; an element that is missing or defined twice and
    an attribute that is missing are reported by name. *)

From stdpp Require Import options.
From S2P Require Import Prelude Boost XmlConfigParser.

(** ** Lists separated by commas *)

Lemma index_of_Some f s n : index_of f s = Some n -> exists x c y, s = x ++ c :: y /\ length x = n /\ f c = true /\
  Forall (fun c => f c = false) x.
Proof.
  revert n. induction s as [|c s IH]; intros n; [done|]. cbn [index_of]. destruct (f c) eqn:E.
  - intros [= <-]. by exists [], c, s.
  - intros (k & Hk & ->)%fmap_Some. destruct (IH k Hk) as (x & d & y & -> & Hl & Hd & Hx).
    exists (c :: x), d, y. split_and!; [done|cbn; lia|done|by constructor].
Qed.

Lemma index_of_None f s : index_of f s = None -> Forall (fun c => f c = false) s.
Proof.
  induction s as [|c s IH]; [done|]. cbn [index_of]. destruct (f c) eqn:E; [done|].
  intros H%fmap_None. constructor; [done|by apply IH].
Qed.

Lemma commas_of (s : bytes) : Forall (fun c => negb (is_comma c) = false) s -> separators is_comma s.
Proof. intros H. eapply Forall_impl; [exact H|]. by intros c ?%negb_false_iff. Qed.

Lemma drop_past {A} (s x y : list A) i n : drop i s = x ++ y -> n = (i + length x)%nat -> drop n s = y.
Proof. intros E ->. rewrite <- drop_drop, E. apply drop_app_length. Qed.

Lemma comma_loop_words fuel str i : (length str - i < fuel)%nat -> comma_loop fuel str i = Some (words is_comma (drop i str)).
Proof.
  revert i. induction fuel as [|fuel IH]; intros i Hf; [lia|]. cbn [comma_loop]. unfold find_first_not_of, find_first_of.
  destruct (index_of _ (drop i str)) as [k|] eqn:Ek; cbn [fmap option_fmap option_map].
  2: { apply index_of_None, commas_of in Ek. rewrite <- (app_nil_r (drop i str)), words_leading by done. done. }
  apply index_of_Some in Ek as (seps & c & y & Ed & Hk & Hc & Hs%commas_of). apply negb_true_iff in Hc.
  assert (drop (i + k) str = c :: y) as E1 by (apply (drop_past str seps _ i); [done|lia]).
  assert (drop (i + k + 1) str = y) as E2 by (apply (drop_past str [c] _ (i + k)); [done|cbn; lia]).
  assert (length str = (i + k + 1 + length y)%nat) as Hlen.
  { apply (f_equal length) in E1. rewrite length_drop in E1. cbn in E1. lia. }
  rewrite Ed, words_leading, E1, E2 by done.
  destruct (index_of is_comma y) as [j|] eqn:Ej; cbn [fmap option_fmap option_map from_option id].
  - apply index_of_Some in Ej as (t & sep & z & -> & Hj & Hsep & Ht).
    rewrite IH by (rewrite length_app in Hlen; cbn in Hlen; lia). cbn [mbind option_bind].
    rewrite (drop_past str (t ++ [sep]) z (i + k + 1)); [|by rewrite E2, <- app_assoc|rewrite length_app; cbn; lia].
    change (c :: t ++ sep :: z) with ((c :: t) ++ [sep] ++ z).
    rewrite words_next; [|by constructor|done|by constructor|by left].
    replace (i + k + 1 + j - (i + k))%nat with (length (c :: t)) by (cbn; lia). by rewrite take_app_length.
  - apply index_of_None in Ej. rewrite IH by lia. cbn [mbind option_bind]. rewrite (drop_ge str (length str + 1)) by lia.
    rewrite take_ge by (cbn; lia). rewrite <- (app_nil_r (c :: y)) at 2. rewrite words_one; [done|done|by constructor|done].
Qed.

(** The loop ends, and gives the words between the separators. *)
Lemma parseByComma_words str : parseByComma str = Some (words is_comma str).
Proof. unfold parseByComma. rewrite comma_loop_words by lia. done. Qed.

(** ** Elements *)

Section Elements.
Context {ticpp : Ticpp}.

Definition named (name : bytes) (e : element) : list element := filter (fun c => Value c = name) (children e).

(** The cases of [getUniqChildElement]. *)
Lemma getUniqChildElement_cases e name :
  getUniqChildElement e name = match named name e with
                               | [] => inr (throw_NoElement name)
                               | [c] => inl c
                               | _ => inr (throw_MultipleElement name)
                               end.
Proof.
  unfold getUniqChildElement, named. rewrite first_child_spec.
  destruct (filter _ (children e)) as [|c l] eqn:E; [done|]. cbn [head]. rewrite (next_sibling_spec _ _ _ _ E). by destruct l.
Qed.

Lemma getUniq_one e name c : named name e = [c] -> getUniqChildElement e name = inl c.
Proof. intros H. by rewrite getUniqChildElement_cases, H. Qed.

Lemma getAttribute_string_value e name v t : GetAttribute e name = v -> v <> [] -> getAttribute_string e name t = inl v.
Proof. intros <- Hv. unfold getAttribute_string, getAttribute. by destruct (GetAttribute e name). Qed.

Lemma getAttribute_string_optional e name v : GetAttribute e name = v -> getAttribute_string e name false = inl v.
Proof. intros <-. unfold getAttribute_string, getAttribute. by destruct (GetAttribute e name). Qed.

(** A text that means a truth value, in any case. *)
Definition truth (v : bool) (text : bytes) : Prop :=
  if v then downCase text = b "y" \/ downCase text = b "yes" else downCase text = b "n" \/ downCase text = b "no".

Lemma parseTruth_ok v text : truth v text -> parseTruth text = if v then 1 else 0.
Proof. unfold truth, parseTruth. destruct v; intros [-> | ->]; vm_compute; done. Qed.

Lemma truth_nonempty v text : truth v text -> text <> [].
Proof. intros H ->. destruct v, H as [H|H]; discriminate H. Qed.

Lemma getAttribute_bool_value e name v t old : truth v (GetAttribute e name) -> getAttribute_bool e name old t = inl v.
Proof.
  intros H. pose proof (parseTruth_ok _ _ H) as E. pose proof (truth_nonempty _ _ H) as Hne.
  unfold getAttribute_bool, getAttribute. destruct (GetAttribute e name); [done|]. cbn [cbind]. rewrite E. by destruct v.
Qed.

Context (lexical_cast_int64 : bytes -> option Z).

(** A text that means a number of [w] bits. *)
Definition number (w n : Z) (text : bytes) : Prop := text <> [] /\ lexical_cast_int64 text = Some n /\ 0 <= n < 2 ^ w.

Lemma getAttribute_IntType_value w e name n t old : number w n (GetAttribute e name) ->
  getAttribute_IntType lexical_cast_int64 w e name old t = inl n.
Proof.
  intros (Hne & Hc & Hn). unfold getAttribute_IntType, getAttribute. destruct (GetAttribute e name); [done|]. cbn [cbind].
  by rewrite Hc, wrap_small.
Qed.

(** ** Documents *)

(** The settings of a document; other elements and attributes do not matter. *)
Record describes_system (e : element) (c : FibpConfig) : Prop := {
  ds_resource : exists x, named (b "Resource") e = [x] /\ GetAttribute x (b "path") = resource_dir_ c /\ resource_dir_ c <> [];
  ds_working : exists x, named (b "WorkingDir") e = [x] /\ GetAttribute x (b "path") = working_dir_ c /\ working_dir_ c <> [];
  ds_log : exists x, named (b "LogServerConnection") e = [x] /\
    (GetAttribute x (b "host") = ls_host (logServerConnectionConfig_ c) /\ ls_host (logServerConnectionConfig_ c) <> []) /\
    (GetAttribute x (b "port") = ls_port (logServerConnectionConfig_ c) /\ ls_port (logServerConnectionConfig_ c) <> []) /\
    (GetAttribute x (b "log_service") = log_service (logServerConnectionConfig_ c) /\ log_service (logServerConnectionConfig_ c) <> []) /\
    (GetAttribute x (b "log_tag") = log_tag (logServerConnectionConfig_ c) /\ log_tag (logServerConnectionConfig_ c) <> [])
}.

Record describes_broker (e : element) (c : BrokerAgentConfig) : Prop := {
  db_test : truth (enableTest_ c) (GetAttribute e (b "enabletest"));
  db_threads : number 64 (threadNum_ c) (GetAttribute e (b "threadnum"));
  db_port : number 32 (port_ c) (GetAttribute e (b "port"))
}.

Context (getLocalHostIp : bytes -> option bytes).

(** The local address is detected on the interface, or given. *)
Record describes_common (e : element) (c : DistributedCommonConfig) : Prop := {
  dm_user : GetAttribute e (b "username") = userName_ c /\ userName_ c <> [];
  dm_worker : number 32 (workerPort_ c) (GetAttribute e (b "workerport"));
  dm_master : number 32 (masterPort_ c) (GetAttribute e (b "masterport"));
  dm_interface : GetAttribute e (b "localinterface") <> [];
  dm_host : match getLocalHostIp (GetAttribute e (b "localinterface")) with
            | Some ip => ip = localHost_ c
            | None => GetAttribute e (b "localhost") = localHost_ c /\ localHost_ c <> []
            end
}.

Record describes_util (e : element) (c : DistributedUtilConfig) : Prop := {
  du_zookeeper : exists x, named (b "ZooKeeper") e = [x] /\ truth (disabled_ (zkConfig_ c)) (GetAttribute x (b "disable")) /\
    (GetAttribute x (b "servers") = zkHosts_ (zkConfig_ c) /\ zkHosts_ (zkConfig_ c) <> []) /\
    number 32 (zkRecvTimeout_ (zkConfig_ c)) (GetAttribute x (b "sessiontimeout"));
  du_dns : exists x, named (b "ServiceDiscovery") e = [x] /\ GetAttribute x (b "servers") = dns_servers_ c /\ dns_servers_ c <> [];
  du_dfs : exists x, named (b "DFS") e = [x] /\ GetAttribute x (b "type") = dfs_type_ (dfsConfig_ c) /\
    truth (isSupportFuse_ (dfsConfig_ c)) (GetAttribute x (b "supportfuse")) /\
    GetAttribute x (b "mountdir") = mountDir_ (dfsConfig_ c) /\ GetAttribute x (b "server") = dfs_server_ (dfsConfig_ c) /\
    number 32 (dfs_port_ (dfsConfig_ c)) (GetAttribute x (b "port"))
}.

Record describes (document : element) (c : FibpConfig) : Prop := {
  de_parts : exists config system deploy broker common util,
    head (named (b "FibpConfig") document) = Some config /\
    named (b "System") config = [system] /\ named (b "Deployment") config = [deploy] /\
    named (b "BrokerAgent") deploy = [broker] /\ named (b "DistributedCommon") deploy = [common] /\
    named (b "DistributedUtil") deploy = [util] /\
    describes_system system c /\ describes_broker broker (brokerAgentConfig_ c) /\
    describes_common common (distributedCommonConfig_ c) /\ describes_util util (distributedUtilConfig_ c);
  de_port : baPort_ (distributedCommonConfig_ c) = port_ (brokerAgentConfig_ c)
}.

(** One statement of the parser after the other. *)
Ltac parse :=
  repeat (cbn [cbind];
    match goal with
    | E : named ?name ?e = [?x] |- context [getUniqChildElement ?e ?name] => rewrite (getUniq_one e name x E)
    | V : GetAttribute ?e ?name = ?v, N : ?v <> [] |- context [getAttribute_string ?e ?name ?t] =>
        rewrite (getAttribute_string_value e name v t V N)
    | V : GetAttribute ?e ?name = ?v |- context [getAttribute_string ?e ?name false] =>
        rewrite (getAttribute_string_optional e name v V)
    | T : truth ?v (GetAttribute ?e ?name) |- context [getAttribute_bool ?e ?name ?old ?t] =>
        rewrite (getAttribute_bool_value e name v t old T)
    | N : number ?w ?n (GetAttribute ?e ?name) |- context [getAttribute_IntType _ ?w ?e ?name ?old ?t] =>
        rewrite (getAttribute_IntType_value w e name n t old N)
    end); cbn [cbind].

Lemma parse_system e c : describes_system e c ->
  parseSystemSettings e = inl (resource_dir_ c, working_dir_ c, logServerConnectionConfig_ c).
Proof.
  intros [(x1 & E1 & V1 & N1) (x2 & E2 & V2 & N2) (x3 & E3 & [V3 N3] & [V4 N4] & [V5 N5] & [V6 N6])]. unfold parseSystemSettings.
  parse. by destruct (logServerConnectionConfig_ c).
Qed.

Lemma parse_broker e c old : describes_broker e c -> parseBrokerAgent lexical_cast_int64 e old = inl c.
Proof. intros [V1 V2 V3]. unfold parseBrokerAgent. parse. by destruct c. Qed.

Lemma parse_common e c old : describes_common e c ->
  parseDistributedCommon lexical_cast_int64 getLocalHostIp e (baPort_ c) old = inl c.
Proof.
  intros [[V1 N1] V2 V3 N4 V5]. unfold parseDistributedCommon. parse.
  rewrite (getAttribute_string_value e (b "localinterface") _ true eq_refl N4). cbn [cbind].
  destruct (getLocalHostIp _) as [ip|]; [subst ip|destruct V5 as [V5 N5]; parse]; by destruct c.
Qed.

Lemma parse_util e c old : describes_util e c -> parseDistributedUtil lexical_cast_int64 e old = inl c.
Proof.
  intros [(x1 & E1 & V1 & [V2 N2] & V3) (x2 & E2 & V4 & N4) (x3 & E3 & V5 & V6 & V7 & V8 & V9)]. unfold parseDistributedUtil.
  parse. by destruct c as [[] [] ?].
Qed.

(** A document that describes a configuration, with the mandatory elements
    each defined once and the values in any of their accepted forms, is read as
    that configuration, whatever other elements and attributes it has and
    whatever the members held before. *)
Lemma parse_document document c old : describes document c ->
  parseConfigFile lexical_cast_int64 getLocalHostIp true true true document old = inl (Some c).
Proof.
  intros [(config & system & deploy & broker & common & util & H0 & E1 & E2 & E3 & E4 & E5 & D1 & D2 & D3 & D4) Hp].
  unfold parseConfigFile, parseDeploymentSettings. cbn [negb orb]. rewrite first_child_spec. fold (named (b "FibpConfig") document).
  rewrite H0. parse. rewrite (parse_system _ _ D1). parse. rewrite (parse_broker _ _ _ D2). parse. rewrite <- Hp, (parse_common _ _ _ D3).
  parse. rewrite (parse_util _ _ _ D4). cbn [cbind]. by destruct c.
Qed.

End Elements.

(** ** A sample *)

(** Documents as trees; an element is a tree with the siblings that follow. *)
Inductive tree := Node (name : bytes) (attributes : list (bytes * bytes)) (subtrees : list tree).

Fixpoint siblings (l : list tree) : list (tree * list tree) :=
  match l with [] => [] | t :: l => (t, l) :: siblings l end.

Definition tree_name (e : tree * list tree) : bytes := match e.1 with Node name _ _ => name end.

Lemma siblings_after name l c rest : filter (fun e => tree_name e = name) (siblings l) = c :: rest ->
  rest = filter (fun e => tree_name e = name) (siblings c.2).
Proof.
  induction l as [|t l IH]; [done|]. cbn [siblings]. rewrite filter_cons. case_decide; [by intros [= <- <-]|apply IH].
Qed.

Definition tree_children (e : tree * list tree) : list (tree * list tree) :=
  match e.1 with Node _ _ subtrees => siblings subtrees end.
Definition tree_attribute (e : tree * list tree) (name : bytes) : bytes :=
  match e.1 with Node _ attributes _ => from_option snd [] (List.find (fun x => bool_decide (x.1 = name)) attributes) end.

#[program] Definition tree_ticpp : Ticpp := {|
  element := tree * list tree;
  Value := tree_name;
  GetAttribute := tree_attribute;
  children := tree_children;
  FirstChildElement e name := head (filter (fun c => tree_name c = name) (tree_children e));
  NextSibling e name := head (filter (fun c => tree_name c = name) (siblings e.2))
|}.
Next Obligation. done. Qed.
Next Obligation. intros [[n attributes subtrees] after] name c l H. by rewrite (siblings_after _ _ _ _ H). Qed.

Definition leaf (name : string) (attributes : list (string * string)) : tree :=
  Node (b name) (map (fun x => (b x.1, b x.2)) attributes) [].
Definition sample_document : tree * list tree :=
  (Node [] [] [Node (b "FibpConfig") []
    [Node (b "System") []
       [leaf "Resource" [("path", "res")]; leaf "WorkingDir" [("path", "wd")];
        leaf "LogServerConnection" [("host", "h"); ("port", "8086"); ("log_service", "influx"); ("log_tag", "t")]];
     Node (b "Deployment") []
       [leaf "BrokerAgent" [("enabletest", "No"); ("threadnum", "8"); ("port", "18190"); ("unknown", "x")];
        leaf "DistributedCommon" [("username", "u"); ("workerport", "1"); ("masterport", "2"); ("localinterface", "eth0"); ("localhost", "10.0.0.1")];
        Node (b "DistributedUtil") []
          [leaf "ZooKeeper" [("disable", "Y"); ("servers", "zk:1"); ("sessiontimeout", "5000")];
           leaf "ServiceDiscovery" [("servers", "consul:8500")]; leaf "DFS" [("supportfuse", "n"); ("port", "0")]]]]], [])%string.
Definition sample_config : FibpConfig :=
  mk_config (b "res") (b "wd") (mk_log_server (b "h") (b "8086") (b "influx") (b "t")) (mk_broker 8 false 18190)
    (mk_common (b "u") (b "10.0.0.1") 18190 1 2)
    (mk_util (mk_zookeeper true (b "zk:1") 5000) (mk_dfs [] false [] [] 0) (b "consul:8500")).

Lemma sample_document_described : @describes tree_ticpp (fun t => Some (digits_value 0 t)) (fun _ => None) sample_document sample_config.
Proof.
  constructor; [|done]. do 6 eexists. split; [vm_compute; reflexivity|]. do 5 (split; [vm_compute; reflexivity|]).
  split_and!.
  - constructor; eexists; (split; [vm_compute; reflexivity|]); split_and!; by vm_compute.
  - constructor; [right; by vm_compute|..]; split_and!; by vm_compute.
  - constructor; [split; by vm_compute|split_and!; by vm_compute|split_and!; by vm_compute|by vm_compute|by vm_compute].
  - constructor; eexists; (split; [vm_compute; reflexivity|]); split_and!; first [by vm_compute|left; by vm_compute].
Qed.
