(* ===== verification/FibpServerProcess.v ===== *)
(** * [FibpProcess]: from the command line and the configuration to the servers

    [ProcessOptions] keeps the options of the command line, which
    [boost::program_options] has parsed into a map; [FibpProcess::initialize]
    reads the configuration and chooses the addresses of the three servers, of
    the service registry and of the report server. *)

From stdpp Require Import gmap options.
From S2P Require Import Prelude Boost XmlConfigParser XmlConfigSpec.

(** ** [ProcessOptions] *)

Record ProcessOptions := mk_options {
  configFileDir_ : bytes;
  configFile_ : bytes;
  isVerboseOn_ : bool;
  logPrefix_ : bytes;
  pidFile_ : bytes;
  reportAddr_ : bytes;
  registryAddr_ : bytes
}.

(** The members are empty before; [verbose] has no value. *)
Definition setProcessOptions (variableMap_ : gmap bytes bytes) : ProcessOptions :=
  let value name := default [] (variableMap_ !! name) in
  mk_options (value (b "config-directory")) (value (b "config-file"))
    (bool_decide (is_Some (variableMap_ !! b "verbose"))) (value (b "log-prefix")) (value (b "pid-file"))
    (default (b "127.0.0.1:18001") (variableMap_ !! b "reportAddr"))
    (default (b "127.0.0.1:8500") (variableMap_ !! b "registryAddr")).

(** ** [FibpProcess] *)

(** What [initConnectionServer] creates and passes on. *)
Record servers := mk_servers {
  driver_port : Z;
  http_port : Z;
  rpc_port : Z;
  sv_threads : Z;
  sv_registry : bytes;
  sv_local_host : bytes;
  sv_report : bytes * bytes
}.

(** [find(":")] and the two [substr]. *)
Fixpoint split_colon (s : bytes) : option (bytes * bytes) :=
  match s with
  | [] => None
  | c :: s => if (c == ":"%char)%byte then Some ([], s) else x ← split_colon s; Some (c :: x.1, x.2)
  end.

(** The port of an endpoint and of the RPC server has 16 bits; [None]: the
    value [false]. *)
Definition initConnectionServer (po : ProcessOptions) (c : FibpConfig) : option servers :=
  let threadPoolSize := threadNum_ (brokerAgentConfig_ c) in
  let port := port_ (brokerAgentConfig_ c) in
  let dns_servers := match registryAddr_ po with [] => dns_servers_ (distributedUtilConfig_ c) | r => r end in
  report ← split_colon (reportAddr_ po);
  Some (mk_servers (w16 port) (w16 (w32 (port + 1))) (w16 (w32 (port + 2))) threadPoolSize dns_servers
          (localHost_ (distributedCommonConfig_ c)) report).

Section Process.
Context {ticpp : Ticpp} (lexical_cast_int64 : bytes -> option Z) (getLocalHostIp : bytes -> option bytes).

(** [initialize]: [inr] is an exception that leaves it, [inl None] the value
    [false]; [old] is the configuration before. *)
Definition initialize (directory file_exists schema_exists schema_valid : bool) (document : element) (po : ProcessOptions)
    (old : FibpConfig) : config_result (option (FibpConfig * servers)) :=
  if negb directory then inl None
  else
    parsed <-? parseConfigFile lexical_cast_int64 getLocalHostIp file_exists schema_exists schema_valid document old;
    inl (c ← parsed; s ← initConnectionServer po c; Some (c, s)).

End Process.

(** ** Addresses *)

Lemma split_colon_app s rest : Forall (fun c => c <> ":"%char) s -> split_colon (s ++ ":"%char :: rest) = Some (s, rest).
Proof.
  induction 1 as [|c s Hc _ IH]; [done|]. cbn [app split_colon].
  destruct (c == ":"%char)%byte eqn:E; [to_prop; done|]. by rewrite IH.
Qed.

(** A process that is started in a directory with a valid document that
    describes a configuration, and with the address [ip:port] of a report
    server, serves the three protocols on three consecutive different ports
    from the configured one (which leaves room for them), with the configured
    number of threads. *)
Theorem process_initialized {ticpp : Ticpp} lexical_cast_int64 getLocalHostIp document c old po ip rport :
  describes lexical_cast_int64 getLocalHostIp document c ->
  reportAddr_ po = ip ++ b ":" ++ rport -> Forall (fun c => c <> ":"%char) ip ->
  1 <= port_ (brokerAgentConfig_ c) <= 65533 ->
  exists s, initialize lexical_cast_int64 getLocalHostIp true true true true document po old = inl (Some (c, s)) /\
    driver_port s = port_ (brokerAgentConfig_ c) /\ http_port s = port_ (brokerAgentConfig_ c) + 1 /\
    rpc_port s = port_ (brokerAgentConfig_ c) + 2 /\ sv_threads s = threadNum_ (brokerAgentConfig_ c) /\
    sv_report s = (ip, rport) /\ sv_local_host s = localHost_ (distributedCommonConfig_ c).
Proof.
  intros Hd Hr Hip Hp. unfold initialize. cbn [negb]. rewrite (parse_document _ _ _ _ _ Hd). cbn [cbind mbind option_bind].
  unfold initConnectionServer. rewrite Hr. change (b ":" ++ rport) with (":"%char :: rport). rewrite split_colon_app by done. cbn [mbind option_bind].
  eexists. split; [done|]. cbn [driver_port http_port rpc_port sv_threads sv_report sv_local_host].
  change (2 ^ 16) with 65536. rewrite !(wrap_small 32), !(wrap_small 16); [done|..];
    change (2 ^ 16) with 65536; change (2 ^ 32) with 4294967296; lia.
Qed.

(** Unless the command line names a registry, the one of the configuration is
    not used: the default of the option is not empty. *)
Lemma configured_registry_ignored variables c s :
  variables !! b "registryAddr" = None -> initConnectionServer (setProcessOptions variables) c = Some s ->
  sv_registry s = b "127.0.0.1:8500".
Proof.
  intros H. unfold initConnectionServer, setProcessOptions. cbn [registryAddr_ reportAddr_]. rewrite H.
  destruct (split_colon _); cbn [mbind option_bind]; [|done]. by intros [= <-].
Qed.

Definition no_options : ProcessOptions := setProcessOptions ∅.

Lemma process_initialized_witness :
  exists s, @initialize tree_ticpp (fun t => Some (digits_value 0 t)) (fun _ => None) true true true true sample_document
      no_options sample_config = inl (Some (sample_config, s)) /\
    driver_port s = 18190 /\ http_port s = 18191 /\ rpc_port s = 18192 /\ sv_report s = (b "127.0.0.1", b "18001").
Proof.
  destruct (@process_initialized tree_ticpp (fun t => Some (digits_value 0 t)) (fun _ => None) sample_document sample_config sample_config
    no_options (b "127.0.0.1") (b "18001") sample_document_described ltac:(vm_compute; reflexivity) ltac:(by repeat constructor)
    ltac:(vm_compute; done)) as (s & E & H1 & H2 & H3 & _ & H5 & _).
  exists s. split_and!; done.
Defined.
