(* ===== verification/FiberPoolMgr.v ===== *)
(** * [FiberPoolMgr]: the fiber pools of a server's threads

    The first versions of the servers ([FiberHttpServer], [FiberDriverServer])
    keep a pool for each of their threads; a connection takes the pool of the
    thread it is created in and posts its tasks there.  The table is a
    [boost::unordered_map], whose order of iteration is not specified: the
    place of a new entry is an argument of [initFiberPool]. *)

From stdpp Require Import options.
From S2P Require Import Prelude FiberPool FiberPoolSpec.

Section Manager.
Context {Thread T : Type} `{EqDecision Thread}.

(** The entries in the order of iteration, and the static [index] of
    [getFiberPool]. *)
Record pool_mgr := mk_pool_mgr { fiber_pool_list_ : list (Thread * pool T); index : Z }.

Definition new_pool_mgr : pool_mgr := mk_pool_mgr [] 0.

Definition FIBER_NUM_FOR_THREAD : nat := N.to_nat 500.

Definition find_pool (tid : Thread) (m : pool_mgr) : option nat :=
  fst <$> list_find (fun x => x.1 = tid) (fiber_pool_list_ m).

Definition set_pool (i : nat) (p : pool T) (m : pool_mgr) : pool_mgr :=
  mk_pool_mgr (alter (fun x => (x.1, p)) i (fiber_pool_list_ m)) (index m).

Definition initFiberPool (place : nat) (tid : Thread) (m : pool_mgr) : pool_mgr :=
  match find_pool tid m with
  | Some i => set_pool i new_pool m
  | None => mk_pool_mgr (take place (fiber_pool_list_ m) ++ (tid, new_pool) :: drop place (fiber_pool_list_ m)) (index m)
  end.

(** The loop of [getFiberPool]: where the iterator is when it stops, for a
    table with [rest] entries from the iterator on. *)
Fixpoint advance (round : Z) (i rest : nat) : option nat :=
  match rest with
  | O => None
  | S rest => if round - 1 <=? 0 then Some i else advance (round - 1) (S i) rest
  end.

(** The pool's place; [None]: the table is empty, and the remainder is a
    division by zero. *)
Definition getFiberPool (this_thread : Thread) (m : pool_mgr) : option nat :=
  match find_pool this_thread m with
  | Some i => Some i
  | None =>
      match length (fiber_pool_list_ m) with
      | O => None
      | size => Some (default O (advance (index m mod Z.of_nat size) 0 size))
      end
  end.

(** [FiberPool::init] on a pool that may have got tasks already. *)
Definition init_pool (poolSize : nat) (p : pool T) : pool T :=
  mk_pool (fiber_pool_ p ++ replicate poolSize F_ready ++ [F_check]) (waiting_ p) (fiber_task_list_ p) (thread_task_list_ p)
    Ck_loop (need_stop_ p) (running_fiber_num_ p).

(** The pool is then run by the steps of [FiberPool]. *)
Definition runFiberPool (tid : Thread) (m : pool_mgr) : pool_mgr :=
  match find_pool tid m with
  | Some i =>
      match fiber_pool_list_ m !! i with
      | Some (_, p) => set_pool i (init_pool FIBER_NUM_FOR_THREAD p) m
      | None => m
      end
  | None => m
  end.

Definition stopFiberPool (m : pool_mgr) : pool_mgr :=
  mk_pool_mgr (map (fun x => (x.1, stop x.2)) (fiber_pool_list_ m)) (index m).

(** What a connection does with the pool: its tasks go to the list of the
    threads. *)
Definition post_task (this_thread : Thread) (t : T) (m : pool_mgr) : option pool_mgr :=
  i ← getFiberPool this_thread m;
  x ← fiber_pool_list_ m !! i;
  Some (set_pool i (schedule_task t x.2) m).

(** ** One entry for each thread *)

Definition threads (m : pool_mgr) : list Thread := map fst (fiber_pool_list_ m).

Lemma find_pool_Some tid m i : find_pool tid m = Some i ->
  exists p, fiber_pool_list_ m !! i = Some (tid, p).
Proof.
  unfold find_pool. destruct (list_find _ _) as [[j [t p]]|] eqn:E; [|done]. intros [= <-].
  apply list_find_Some in E as (Hl & Ht & _). cbn in *. subst. by exists p.
Qed.

Lemma find_pool_None tid m : find_pool tid m = None <-> tid ∉ threads m.
Proof.
  unfold find_pool, threads. rewrite fmap_None, list_find_None, Forall_forall. split.
  - intros Hall Hin. apply list_elem_of_fmap_1 in Hin as ([t p] & -> & Hin). by apply (Hall _ Hin).
  - intros Hnot x Hx <-. by apply Hnot, list_elem_of_fmap_2.
Qed.

Lemma threads_set_pool i p m : threads (set_pool i p m) = threads m.
Proof.
  unfold threads. apply list_eq. intros j. cbn. change (map fst) with (fmap (M := list) (@fst Thread (pool T))). rewrite !list_lookup_fmap.
  destruct (decide (i = j)) as [->|Hne].
  - rewrite list_lookup_alter_eq. by destruct (fiber_pool_list_ m !! j).
  - by rewrite list_lookup_alter_ne.
Qed.

Lemma threads_init place tid m : NoDup (threads m) -> NoDup (threads (initFiberPool place tid m)) /\
  (forall t, t ∈ threads (initFiberPool place tid m) <-> t = tid \/ t ∈ threads m).
Proof.
  intros Hnd. unfold initFiberPool. destruct (find_pool tid m) as [i|] eqn:E.
  - rewrite threads_set_pool. split; [done|]. intros t. split; [auto|]. intros [->|Ht]; [|done].
    apply find_pool_Some in E as [p Hp]. unfold threads. change tid with (fst (tid, p)).
    by eapply list_elem_of_fmap_2, list_elem_of_lookup_2.
  - apply find_pool_None in E. unfold threads in *. cbn [fiber_pool_list_].
    assert (map fst (take place (fiber_pool_list_ m) ++ (tid, new_pool) :: drop place (fiber_pool_list_ m)) ≡ₚ
      tid :: map fst (fiber_pool_list_ m)) as Hp.
    { rewrite map_app. cbn [map fst]. rewrite <- Permutation_middle, <- map_app. by rewrite take_drop. }
    split.
    + rewrite Hp. by constructor.
    + intros t. rewrite Hp. apply elem_of_cons.
Qed.

(** A thread with a pool gets its own. *)
Lemma own_pool tid m : tid ∈ threads m -> exists i p, getFiberPool tid m = Some i /\ fiber_pool_list_ m !! i = Some (tid, p).
Proof.
  intros Hin. unfold getFiberPool. destruct (find_pool tid m) as [i|] eqn:E.
  - destruct (find_pool_Some _ _ _ E) as [p Hp]. by exists i, p.
  - by apply find_pool_None in E.
Qed.

(** A thread without one gets the pool that is first in the order of iteration
    at every call: [index], by which they would go round, is never
    incremented. *)
Lemma foreign_threads_share_first tid m : (tid ∉ threads m) -> fiber_pool_list_ m <> [] -> index m = 0 ->
  getFiberPool tid m = Some O.
Proof.
  intros Hn Hne Hi. unfold getFiberPool. rewrite (proj2 (find_pool_None _ _) Hn), Hi.
  destruct (fiber_pool_list_ m); [done|]. cbn [length]. by rewrite Zmod_0_l.
Qed.

(** ** Posting *)

(** A task posted by a thread with a pool is in that pool and in no other; it
    is the last of the tasks of threads there. *)
Lemma post_to_own_pool tid t m : tid ∈ threads m -> exists i p,
  fiber_pool_list_ m !! i = Some (tid, p) /\
  post_task tid t m = Some (set_pool i (schedule_task t p) m) /\
  forall j, j <> i -> fiber_pool_list_ (set_pool i (schedule_task t p) m) !! j = fiber_pool_list_ m !! j.
Proof.
  intros Hin. destruct (own_pool tid m Hin) as (i & p & Ei & Ep). exists i, p. unfold post_task. rewrite Ei. cbn [mbind option_bind].
  rewrite Ep. split_and!; [done|done|]. intros j Hj. cbn. by rewrite list_lookup_alter_ne.
Qed.

(** [runFiberPool] on a new pool is the initial state of [FiberPool]; on one
    that was given tasks before, the tasks are kept. *)
Lemma init_pool_new n : init_pool n new_pool = init n.
Proof. done. Qed.

Lemma init_pool_posted n ts :
  init_pool n (foldl (fun p t => schedule_task t p) new_pool ts) = foldl (fun p t => schedule_task t p) (init n) ts.
Proof.
  rewrite <- init_pool_new. generalize (new_pool (T := T)) as p.
  induction ts as [|t ts IH]; intros p; [done|]. cbn [foldl]. by rewrite IH.
Qed.

(** Every pool that a server has started keeps the invariant of [FiberPool]
    when tasks were posted between [initFiberPool] and [runFiberPool]. *)
Lemma started_pool_ok n ts : pool_ok (init_pool n (foldl (fun p t => schedule_task t p) new_pool ts)).
Proof.
  rewrite init_pool_posted. revert ts. apply rev_ind; [apply init_ok|].
  intros t ts IH. rewrite foldl_app. cbn [foldl]. by apply (step_ok (Ev_schedule_thread t) _ _ None IH).
Qed.

Lemma stop_stops m : Forall (fun x => need_stop_ x.2 = true) (fiber_pool_list_ (stopFiberPool m)).
Proof.
  apply Forall_map, Forall_true. intros [tid p]. cbn. unfold stop, notify_all. cbn [waiting_].
  generalize (waiting_ p) as w. intros w.
  match goal with |- need_stop_ (foldl _ ?q _) = _ => assert (need_stop_ q = true) as Hq by done; revert Hq; generalize q end.
  induction w as [|i w IH]; intros q Hq; [done|]. cbn [foldl]. by apply IH.
Qed.

End Manager.
Arguments pool_mgr : clear implicits.
