(* ===== verification/FiberManager.v ===== *)
(** * [fiber_manager]: the scheduler of a thread's fibers

    The repository's copy of Boost.Fiber has a waiting queue of its own: a
    doubly linked list through the fibers, in which the fibers that are ready
    come first and the others are ordered by deadline, so that the scheduler
    stops at the first one that is not due.  The run queue of [round_robin] is
    a second list through the same links.

    The model is that of one thread: pointers are the keys of a heap, and
    [None] is a failed assertion or a null or dangling pointer.  A fiber runs
    until it suspends itself; [active_fiber_] is empty while the main fiber of
    the thread runs.  Only the main fiber calls [fm_run]: a worker that yields,
    sleeps, locks or waits is suspended instead. *)

From stdpp Require Import gmap options.
From S2P Require Import Prelude.

(** ** [worker_fiber] *)

Inductive state_t := READY | RUNNING | WAITING | TERMINATED.

#[export] Instance state_t_eq_dec : EqDecision state_t.
Proof. solve_decision. Defined.

(** [time_point::max()]. *)
Definition tp_max : Z := 2 ^ 63 - 1.

(** [phead_]: the fiber is attached to the waiting queue.  [waiting_]: the
    fibers that join this one. *)
Record worker_fiber := mk_worker_fiber {
  use_count_ : nat;
  prev_ : option nat;
  nxt_ : option nat;
  tp_ : Z;
  state_ : state_t;
  interruption_requested : bool;
  waiting_ : list nat;
  phead_ : bool
}.

Definition is_ready (w : worker_fiber) : bool := bool_decide (state_ w = READY).
Definition is_running (w : worker_fiber) : bool := bool_decide (state_ w = RUNNING).
Definition is_terminated (w : worker_fiber) : bool := bool_decide (state_ w = TERMINATED).

Definition with_use_count n w := mk_worker_fiber n (prev_ w) (nxt_ w) (tp_ w) (state_ w) (interruption_requested w) (waiting_ w) (phead_ w).
Definition with_prev p w := mk_worker_fiber (use_count_ w) p (nxt_ w) (tp_ w) (state_ w) (interruption_requested w) (waiting_ w) (phead_ w).
Definition with_next n w := mk_worker_fiber (use_count_ w) (prev_ w) n (tp_ w) (state_ w) (interruption_requested w) (waiting_ w) (phead_ w).
Definition with_tp t w := mk_worker_fiber (use_count_ w) (prev_ w) (nxt_ w) t (state_ w) (interruption_requested w) (waiting_ w) (phead_ w).
Definition with_state s w := mk_worker_fiber (use_count_ w) (prev_ w) (nxt_ w) (tp_ w) s (interruption_requested w) (waiting_ w) (phead_ w).
Definition with_requested r w := mk_worker_fiber (use_count_ w) (prev_ w) (nxt_ w) (tp_ w) (state_ w) r (waiting_ w) (phead_ w).
Definition with_waiting l w := mk_worker_fiber (use_count_ w) (prev_ w) (nxt_ w) (tp_ w) (state_ w) (interruption_requested w) l (phead_ w).
Definition with_queue q w := mk_worker_fiber (use_count_ w) (prev_ w) (nxt_ w) (tp_ w) (state_ w) (interruption_requested w) (waiting_ w) q.

(** ** The manager of a thread *)

(** [head_], [tail_]: the waiting queue; [rhead_], [rtail_]: the run queue;
    [impl_]: the fibers that a [fiber] object refers to; [joins_]: the fibers
    that are suspended in [fm_join], with the fiber they join. *)
Record manager := mk_manager {
  heap : gmap nat worker_fiber;
  head_ : option nat;
  tail_ : option nat;
  rhead_ : option nat;
  rtail_ : option nat;
  active_fiber_ : option nat;
  impl_ : gset nat;
  joins_ : gmap nat nat
}.

Definition new_manager : manager := mk_manager ∅ None None None None None ∅ ∅.

Definition set_heap h s := mk_manager h (head_ s) (tail_ s) (rhead_ s) (rtail_ s) (active_fiber_ s) (impl_ s) (joins_ s).
Definition set_head x s := mk_manager (heap s) x (tail_ s) (rhead_ s) (rtail_ s) (active_fiber_ s) (impl_ s) (joins_ s).
Definition set_tail x s := mk_manager (heap s) (head_ s) x (rhead_ s) (rtail_ s) (active_fiber_ s) (impl_ s) (joins_ s).
Definition set_rhead x s := mk_manager (heap s) (head_ s) (tail_ s) x (rtail_ s) (active_fiber_ s) (impl_ s) (joins_ s).
Definition set_rtail x s := mk_manager (heap s) (head_ s) (tail_ s) (rhead_ s) x (active_fiber_ s) (impl_ s) (joins_ s).
Definition set_active x s := mk_manager (heap s) (head_ s) (tail_ s) (rhead_ s) (rtail_ s) x (impl_ s) (joins_ s).
Definition set_impl x s := mk_manager (heap s) (head_ s) (tail_ s) (rhead_ s) (rtail_ s) (active_fiber_ s) x (joins_ s).
Definition set_joins x s := mk_manager (heap s) (head_ s) (tail_ s) (rhead_ s) (rtail_ s) (active_fiber_ s) (impl_ s) x.

(** Reading and writing through a pointer, and [BOOST_ASSERT]. *)
Definition get (f : nat) (s : manager) : option worker_fiber := heap s !! f.
Definition upd (f : nat) (g : worker_fiber -> worker_fiber) (s : manager) : option manager :=
  w ← heap s !! f; Some (set_heap (<[f := g w]> (heap s)) s).
Definition assert (c : bool) (s : manager) : option manager := if c then Some s else None.

(** ** [fifo], the queue of [round_robin] *)

Definition awakened (item : nat) (s : manager) : option manager :=
  w ← get item s;
  s ← assert (is_ready w || is_running w) s;
  s ← assert (bool_decide (nxt_ w = None)) s;
  s ← assert (bool_decide (prev_ w = None)) s;
  match rhead_ s with
  | None => Some (set_rtail (Some item) (set_rhead (Some item) s))
  | Some h =>
      if bool_decide (h = item) then Some s
      else
        t ← rtail_ s;
        s ← upd t (with_next (Some item)) s;
        s ← upd item (with_prev (Some t)) s;
        Some (set_rtail (Some item) s)
  end.

Definition pick_next (s : manager) : option (option nat * manager) :=
  match rhead_ s with
  | None => Some (None, s)
  | Some item =>
      w ← get item s;
      let s := set_rhead (nxt_ w) s in
      s ← match nxt_ w with
          | None => Some (set_rtail None s)
          | Some h => upd h (with_prev None) s
          end;
      s ← upd item (with_next None) s;
      s ← upd item (with_prev None) s;
      Some (Some item, s)
  end.

(** ** [waiting_queue] *)

(** The loop of [push], from [f] on. *)
Fixpoint push_loop (fuel : nat) (item f : nat) (prev : option nat) (s : manager) : option manager :=
  match fuel with
  | O => None
  | S fuel =>
      wf ← get f s;
      wi ← get item s;
      let nxt := nxt_ wf in
      if negb (is_ready wf) && (tp_ wi <=? tp_ wf) then
        if bool_decide (head_ s = Some f) then
          s ← assert (bool_decide (prev = None)) s;
          s ← upd item (with_next (Some f)) s;
          s ← upd f (with_prev (Some item)) s;
          Some (set_head (Some item) s)
        else
          p ← prev;
          s ← upd item (with_next (Some f)) s;
          s ← upd f (with_prev (Some item)) s;
          s ← upd p (with_next (Some item)) s;
          upd item (with_prev (Some p)) s
      else if bool_decide (tail_ s = Some f) then
        s ← assert (bool_decide (nxt = None)) s;
        s ← upd f (with_next (Some item)) s;
        s ← upd item (with_prev (Some f)) s;
        Some (set_tail (Some item) s)
      else match nxt with
           | None => Some s
           | Some g => push_loop fuel item g (Some f) s
           end
  end.

(** [push] of a fiber [w] that has been attached. *)
Definition push_attached (item : nat) (w : worker_fiber) (s : manager) : option manager :=
  match head_ s with
  | None => Some (set_tail (Some item) (set_head (Some item) s))
  | Some h =>
      if bool_decide (h = item) then Some s
      else if is_ready w then
        s ← upd item (with_next (Some h)) s;
        s ← upd h (with_prev (Some item)) s;
        Some (set_head (Some item) s)
      else if tp_ w =? tp_max then
        t ← tail_ s;
        s ← upd t (with_next (Some item)) s;
        s ← upd item (with_prev (Some t)) s;
        Some (set_tail (Some item) s)
      else push_loop (size (heap s)) item h None s
  end.

Definition push (item : nat) (s : manager) : option manager :=
  w ← get item s;
  s ← assert (bool_decide (nxt_ w = None)) s;
  s ← assert (bool_decide (prev_ w = None)) s;
  if phead_ w then Some s
  else s ← upd item (with_queue true) s; push_attached item w s.

Definition move_to_run (f : nat) (s : manager) : option manager :=
  w ← get f s;
  s ← assert (negb (is_running w)) s;
  match prev_ w with
  | None => Some s
  | Some p =>
      if phead_ w then
        s ← match nxt_ w with
            | None => Some (set_tail (Some p) s)
            | Some n => upd n (with_prev (Some p)) s
            end;
        s ← upd p (with_next (nxt_ w)) s;
        h ← head_ s;
        s ← upd f (with_next (Some h)) s;
        s ← upd f (with_prev None) s;
        s ← upd h (with_prev (Some f)) s;
        Some (set_head (Some f) s)
      else Some s
  end.

Definition set_ready (f : nat) (s : manager) : option manager :=
  w ← get f s;
  s ← upd f (with_state READY) s;
  s ← assert (negb (is_terminated w)) s;
  move_to_run f s.

Definition fetch_ready (f : nat) (now : Z) (s : manager) : option (bool * manager) :=
  w ← get f s;
  s ← assert (negb (is_running w)) s;
  s ← assert (negb (is_terminated w)) s;
  s ← if (tp_ w <=? now) || interruption_requested w then set_ready f s else Some s;
  w ← get f s;
  Some (is_ready w, s).

(** The loop of [move_to], from [f] on. *)
Fixpoint move_to_loop (fuel : nat) (now : Z) (f : option nat) (s : manager) : option manager :=
  match f with
  | None => Some s
  | Some f =>
      match fuel with
      | O => None
      | S fuel =>
          w ← get f s;
          let nxt := nxt_ w in
          '(ready, s) ← fetch_ready f now s;
          if ready : bool then
            s ← assert (bool_decide (head_ s = Some f)) s;
            w ← get f s;
            let s := set_head (nxt_ w) s in
            s ← match nxt_ w with
                | None => Some (set_tail None s)
                | Some h => upd h (with_prev None) s
                end;
            s ← upd f (with_next None) s;
            s ← upd f (with_prev None) s;
            s ← upd f (with_queue false) s;
            s ← upd f (with_tp tp_max) s;
            s ← awakened f s;
            move_to_loop fuel now nxt s
          else Some s
      end
  end.

Definition move_to (now : Z) (s : manager) : option manager :=
  move_to_loop (S (size (heap s))) now (head_ s) s.

(** ** Reference counts *)

Definition intrusive_ptr_release (f : nat) (s : manager) : option manager :=
  w ← get f s;
  s ← assert (negb (use_count_ w =? 0)%nat) s;
  if (use_count_ w =? 1)%nat then
    s ← assert (is_terminated w) s;
    Some (set_heap (delete f (heap s)) s)
  else upd f (with_use_count (use_count_ w - 1)) s.

(** ** [fm_*] *)

(** [fiber::fiber] and [start_]: the trampoline has set the new fiber to
    running; it is counted once for its stack and once for the object. *)
Definition fm_spawn (f : nat) (s : manager) : option manager :=
  s ← assert (bool_decide (heap s !! f = None)) s;
  let s := set_heap (<[f := mk_worker_fiber 2 None None tp_max RUNNING false [] false]> (heap s)) s in
  let s := set_impl ({[f]} ∪ impl_ s) s in
  s ← set_ready f s;
  w ← get f s;
  s ← assert (is_ready w) s;
  s ← assert (bool_decide (active_fiber_ s <> Some f)) s;
  awakened f s.

(** [fm_resume_] to where the fiber runs. *)
Definition fm_resume_ (f : nat) (s : manager) : option manager :=
  s ← assert (bool_decide (active_fiber_ s <> Some f)) s;
  w ← get f s;
  s ← assert (is_ready w) s;
  s ← upd f (with_state RUNNING) s;
  Some (set_active (Some f) s).

(** [suspend], and the rest of [fm_resume_] in the main fiber. *)
Definition suspend (s : manager) : option manager :=
  a ← active_fiber_ s;
  w ← get a s;
  s ← if is_terminated w then intrusive_ptr_release a s else Some s;
  Some (set_active None s).

(** The end of [fm_join] and of [fiber::join], in a fiber that was resumed
    there: the joined fiber's object lets go of it. *)
Definition join_returns (f : nat) (s : manager) : option manager :=
  match joins_ s !! f with
  | None => Some s
  | Some g =>
      w ← get g s;
      s ← assert (is_terminated w) s;
      intrusive_ptr_release g (set_impl (impl_ s ∖ {[g]}) (set_joins (delete f (joins_ s)) s))
  end.

(** [fm_run] in the main fiber: the fiber it resumes. *)
Definition fm_run (now : Z) (s : manager) : option (option nat * manager) :=
  s ← move_to now s;
  '(f, s) ← pick_next s;
  match f with
  | None => Some (None, s)
  | Some f =>
      s ← fm_resume_ f s;
      s ← join_returns f s;
      Some (Some f, s)
  end.

Definition fm_next_wakeup (now wait_interval : Z) (s : manager) : option Z :=
  match head_ s with
  | None => Some (now + wait_interval)
  | Some h => w ← get h s; Some (if tp_ w =? tp_max then now + wait_interval else tp_ w)
  end.

Definition set_waiting (f : nat) (s : manager) : option manager :=
  w ← get f s;
  s ← assert (is_running w) s;
  upd f (with_state WAITING) s.

Definition fm_wait_until (timeout_time : Z) (s : manager) : option manager :=
  a ← active_fiber_ s;
  s ← set_waiting a s;
  s ← upd a (with_tp timeout_time) s;
  s ← push a s;
  suspend s.

Definition fm_wait : manager -> option manager := fm_wait_until tp_max.

Definition fm_yield (s : manager) : option manager :=
  a ← active_fiber_ s;
  w ← get a s;
  s ← assert (is_running w) s;
  s ← set_ready a s;
  s ← push a s;
  suspend s.

(** [worker_fiber::join]. *)
Definition join (f p : nat) (s : manager) : option (bool * manager) :=
  w ← get f s;
  if is_terminated w then Some (false, s)
  else s ← upd f (with_waiting (waiting_ w ++ [p])) s; Some (true, s).

(** [fm_join] in a worker, to where it suspends. *)
Definition fm_join (f : nat) (s : manager) : option manager :=
  a ← active_fiber_ s;
  s ← assert (bool_decide (f <> a)) s;
  s ← set_waiting a s;
  s ← push a s;
  '(joined, s) ← join f a s;
  s ← if joined : bool then Some s else set_ready a s;
  suspend (set_joins (<[a := f]> (joins_ s)) s).

(** [worker_fiber::release]. *)
Fixpoint set_all_ready (l : list nat) (s : manager) : option manager :=
  match l with
  | [] => Some s
  | p :: l => s ← set_ready p s; set_all_ready l s
  end.

Definition release (f : nat) (s : manager) : option manager :=
  w ← get f s;
  s ← assert (is_terminated w) s;
  s ← upd f (with_waiting []) s;
  set_all_ready (waiting_ w) s.

(** The end of the trampoline, when the fiber's function has returned. *)
Definition fiber_returns (s : manager) : option manager :=
  a ← active_fiber_ s;
  w ← get a s;
  s ← assert (is_running w) s;
  s ← upd a (with_state TERMINATED) s;
  s ← release a s;
  suspend s.

(** [fiber::detach]: [None] also for an object that is not joinable, for which
    it throws. *)
Definition detach (f : nat) (s : manager) : option manager :=
  s ← assert (bool_decide (f ∈ impl_ s)) s;
  intrusive_ptr_release f (set_impl (impl_ s ∖ {[f]}) s).

(** [fiber::interrupt]. *)
Definition interrupt (f : nat) (s : manager) : option manager :=
  s ← upd f (with_requested true) s;
  set_ready f s.

(** ** Runs of a thread *)

Inductive event :=
| Ev_spawn (f : nat)
| Ev_run (now : Z)             (* the main fiber calls fm_run *)
| Ev_ready (f : nat)           (* a condition, a mutex or a completed operation wakes f *)
| Ev_wait_until (tp : Z)       (* of the active fiber, as the next three *)
| Ev_yield
| Ev_join (f : nat)
| Ev_return
| Ev_detach (f : nat).

(** What the users of the fibers promise: a fiber that waits for the end of
    another one is woken by nothing else, and a [fiber] object is joined or
    detached once. *)
Definition not_joined (g : nat) (s : manager) : Prop := map_Forall (fun _ g' => g' <> g) (joins_ s).

Definition enabled (e : event) (s : manager) : Prop :=
  match e with
  | Ev_spawn f => heap s !! f = None
  | Ev_run now => active_fiber_ s = None /\ now < tp_max
  | Ev_ready f =>
      joins_ s !! f = None /\ (state_ <$> heap s !! f = Some READY \/ state_ <$> heap s !! f = Some WAITING)
  | Ev_wait_until tp => is_Some (active_fiber_ s) /\ tp <= tp_max
  | Ev_yield | Ev_return => is_Some (active_fiber_ s)
  | Ev_join g => is_Some (active_fiber_ s) /\ active_fiber_ s <> Some g /\ g ∈ impl_ s /\ not_joined g s
  | Ev_detach g => g ∈ impl_ s /\ not_joined g s
  end.

#[export] Instance enabled_dec e s : Decision (enabled e s).
Proof. unfold enabled, not_joined. destruct e; apply _. Defined.

(** The fiber that is resumed, if one is. *)
Definition step (e : event) (s : manager) : option (option nat * manager) :=
  match e with
  | Ev_spawn f => (fun s => (None, s)) <$> fm_spawn f s
  | Ev_run now => fm_run now s
  | Ev_ready f => (fun s => (None, s)) <$> set_ready f s
  | Ev_wait_until tp => (fun s => (None, s)) <$> fm_wait_until tp s
  | Ev_yield => (fun s => (None, s)) <$> fm_yield s
  | Ev_join g => (fun s => (None, s)) <$> fm_join g s
  | Ev_return => (fun s => (None, s)) <$> fiber_returns s
  | Ev_detach g => (fun s => (None, s)) <$> detach g s
  end.

(** A run, with the fibers it resumes. *)
Inductive runs (s0 : manager) : list event -> list nat -> manager -> Prop :=
| runs_nil : runs s0 [] [] s0
| runs_snoc es fs s e o s' :
    runs s0 es fs s -> enabled e s -> step e s = Some (o, s') -> runs s0 (es ++ [e]) (fs ++ option_list o) s'.

(** The same as a function, [None] where an event is not enabled or fails. *)
Fixpoint run_events (es : list event) (s : manager) : option (list nat * manager) :=
  match es with
  | [] => Some ([], s)
  | e :: es =>
      if decide (enabled e s) then
        '(o, s) ← step e s;
        '(fs, s) ← run_events es s;
        Some (option_list o ++ fs, s)
      else None
  end.
