(* ===== verification/FiberQueues.v ===== *)
(** * The two queues of the scheduler as lists

    The links of the fibers form two disjoint doubly linked lists; each
    operation on pointers is an operation on the lists they represent and
    leaves everything else of the fibers as it was. *)

From stdpp Require Import gmap options.
From S2P Require Import Prelude FiberManager.

(** ** List segments *)

Definition link (h : gmap nat worker_fiber) (f : nat) : option (option nat * option nat) :=
  (fun w => (prev_ w, nxt_ w)) <$> h !! f.

(** What precedes the segment, the segment, and what follows it. *)
Fixpoint dseg (h : gmap nat worker_fiber) (pp : option nat) (l : list nat) (nn : option nat) : Prop :=
  match l with
  | [] => True
  | f :: l' => link h f = Some (pp, match head l' with Some g => Some g | None => nn end) /\ dseg h (Some f) l' nn
  end.

Definition first_or (l : list nat) (nn : option nat) : option nat := match head l with Some g => Some g | None => nn end.
Definition last_or (l : list nat) (pp : option nat) : option nat := match last l with Some g => Some g | None => pp end.

Lemma last_or_cons f l pp : last_or (f :: l) pp = last_or l (Some f).
Proof. unfold last_or. rewrite last_cons. by destruct (last l). Qed.

Lemma last_or_snoc l f pp : last_or (l ++ [f]) pp = Some f.
Proof. unfold last_or. by rewrite last_snoc. Qed.

Lemma dseg_app h pp l1 l2 nn :
  dseg h pp (l1 ++ l2) nn <-> dseg h pp l1 (first_or l2 nn) /\ dseg h (last_or l1 pp) l2 nn.
Proof.
  revert pp. induction l1 as [|f l1 IH]; intros pp; cbn [app dseg]; [tauto|].
  rewrite IH, last_or_cons. destruct l1; cbn [app head]; unfold first_or; tauto.
Qed.

Lemma dseg_cons h pp f l nn : dseg h pp (f :: l) nn <-> link h f = Some (pp, first_or l nn) /\ dseg h (Some f) l nn.
Proof. done. Qed.

Lemma dseg_frame h h' pp l nn : (forall f, f ∈ l -> link h' f = link h f) -> dseg h pp l nn -> dseg h' pp l nn.
Proof.
  revert pp. induction l as [|f l IH]; intros pp Hf Hd; [done|]. destruct Hd as [Hl Hd]. split.
  - rewrite Hf by left. done.
  - apply IH; [|done]. intros g Hg. apply Hf. by right.
Qed.

Lemma dseg_lookup h pp l nn f : dseg h pp l nn -> f ∈ l -> is_Some (h !! f).
Proof.
  revert pp. induction l as [|g l IH]; intros pp Hd Hin; [by apply not_elem_of_nil in Hin|].
  destruct Hd as [Hl Hd]. apply elem_of_cons in Hin as [->|Hin]; [|by eapply IH].
  unfold link in Hl. by destruct (h !! g).
Qed.

(** ** What an operation on the links leaves alone *)

(** Everything of a fiber but its links and its attachment. *)
Record info := mk_info {
  i_count : nat;
  i_tp : Z;
  i_state : state_t;
  i_requested : bool;
  i_joiners : list nat
}.

Definition meta (w : worker_fiber) : info :=
  mk_info (use_count_ w) (tp_ w) (state_ w) (interruption_requested w) (waiting_ w).

Definition view (s : manager) : gmap nat info := meta <$> heap s.

Definition same_meta (s s' : manager) : Prop :=
  (forall f, meta <$> heap s' !! f = meta <$> heap s !! f) /\
  active_fiber_ s' = active_fiber_ s /\ impl_ s' = impl_ s /\ joins_ s' = joins_ s.

#[export] Instance same_meta_preorder : PreOrder same_meta.
Proof.
  split; [by intros s|]. intros s1 s2 s3 (E1 & A1 & I1 & J1) (E2 & A2 & I2 & J2).
  split_and!; [|congruence..]. intros f. by rewrite E2, E1.
Qed.

Lemma same_meta_view s s' : same_meta s s' -> view s' = view s.
Proof. intros [Hm _]. apply map_eq. intros f. unfold view. by rewrite !lookup_fmap. Qed.

Lemma link_Some h f x y : link h f = Some (x, y) -> exists w, h !! f = Some w /\ prev_ w = x /\ nxt_ w = y.
Proof. unfold link. destruct (h !! f) as [w|]; [|done]. intros [= <- <-]. by exists w. Qed.

Lemma is_Some_link h f : is_Some (h !! f) -> exists x y, link h f = Some (x, y).
Proof. intros [w Hw]. exists (prev_ w), (nxt_ w). unfold link. by rewrite Hw. Qed.

(** Nothing but links changes. *)
Definition relinked (s s' : manager) : Prop :=
  same_meta s s' /\ (forall f, phead_ <$> heap s' !! f = phead_ <$> heap s !! f).

#[export] Instance relinked_preorder : PreOrder relinked.
Proof.
  split; [by intros s|]. intros s1 s2 s3 [M1 P1] [M2 P2]. split; [by transitivity s2|]. intros f. by rewrite P2, P1.
Qed.

(** Nothing but the links of [f] changes, to [v]. *)
Definition links_to (s s' : manager) (f : nat) (v : option nat * option nat) : Prop :=
  relinked s s' /\ link (heap s') f = Some v /\ (forall g, g <> f -> link (heap s') g = link (heap s) g) /\
  head_ s' = head_ s /\ tail_ s' = tail_ s /\ rhead_ s' = rhead_ s /\ rtail_ s' = rtail_ s.

Lemma upd_links f g s w : heap s !! f = Some w -> meta (g w) = meta w -> phead_ (g w) = phead_ w ->
  exists s', upd f g s = Some s' /\ links_to s s' f (prev_ (g w), nxt_ (g w)).
Proof.
  intros Hw Hm Hp. eexists. unfold upd. rewrite Hw. split; [done|]. unfold links_to, relinked, same_meta, link. cbn.
  split_and!; try done.
  - intros x. destruct (decide (x = f)) as [->|Hne]; [by rewrite lookup_insert_eq, Hw; cbn; f_equal|by rewrite lookup_insert_ne].
  - intros x. destruct (decide (x = f)) as [->|Hne]; [by rewrite lookup_insert_eq, Hw; cbn; f_equal|by rewrite lookup_insert_ne].
  - by rewrite lookup_insert_eq.
  - intros x Hne. by rewrite lookup_insert_ne.
Qed.

Lemma upd_prev f p s x y : link (heap s) f = Some (x, y) -> exists s', upd f (with_prev p) s = Some s' /\ links_to s s' f (p, y).
Proof. intros (w & Hw & _ & <-)%link_Some. by apply (upd_links f (with_prev p) s w). Qed.

Lemma upd_next f n s x y : link (heap s) f = Some (x, y) -> exists s', upd f (with_next n) s = Some s' /\ links_to s s' f (x, n).
Proof. intros (w & Hw & <- & _)%link_Some. by apply (upd_links f (with_next n) s w). Qed.

(** Runs the next write of a link, of which [H] says what it was; the facts on
    the others are rewritten. *)
Ltac relink s' E R L F :=
  let P := fresh "P" in
  match goal with
  | |- context [upd ?f (with_prev ?p) ?s] => edestruct (upd_prev f p s) as (s' & E & R & L & F & P)
  | |- context [upd ?f (with_next ?p) ?s] => edestruct (upd_next f p s) as (s' & E & R & L & F & P)
  end; [| rewrite E; cbn [mbind option_bind]; destruct P as (? & ? & ? & ?)].

(** ** The representation *)

Record queues (s : manager) (wl rl : list nat) : Prop := {
  q_wait : dseg (heap s) None wl None;
  q_head : head_ s = head wl;
  q_tail : tail_ s = last wl;
  q_run : dseg (heap s) None rl None;
  q_rhead : rhead_ s = head rl;
  q_rtail : rtail_ s = last rl;
  q_nodup : NoDup (wl ++ rl);
  q_attached f w : heap s !! f = Some w -> phead_ w = true <-> f ∈ wl;
  q_free f : is_Some (heap s !! f) -> (f ∉ wl) -> (f ∉ rl) -> link (heap s) f = Some (None, None)
}.

Lemma new_queues : queues new_manager [] [].
Proof. split; try done; [constructor|]. intros f []. done. Qed.

(** ** Operations on segments *)

Lemma dseg_snoc h h' l t item :
  dseg h None (l ++ [t]) None -> (forall g, g ∈ l -> link h' g = link h g) ->
  link h' t = Some (last_or l None, Some item) -> link h' item = Some (Some t, None) ->
  dseg h' None ((l ++ [t]) ++ [item]) None.
Proof.
  intros Hd Hf Ht Hi. rewrite <- app_assoc. cbn [app]. rewrite dseg_app, !dseg_cons. cbn [first_or head dseg].
  apply dseg_app in Hd as [Hd _]. split_and!; [|done|done|done]. by eapply dseg_frame.
Qed.

Lemma dseg_push h h' f l item :
  dseg h None (f :: l) None -> (forall g, g ∈ l -> link h' g = link h g) ->
  link h' f = Some (Some item, first_or l None) -> link h' item = Some (None, Some f) ->
  dseg h' None (item :: f :: l) None.
Proof.
  intros [_ Hd] Hf Ht Hi. rewrite !dseg_cons. split_and!; [done|done|]. by eapply dseg_frame.
Qed.

Lemma dseg_pop h h' f l :
  dseg h None (f :: l) None -> (forall g, g ∈ tail l -> link h' g = link h g) ->
  (forall g, head l = Some g -> link h' g = Some (None, first_or (tail l) None)) -> dseg h' None l None.
Proof.
  intros [_ Hd] Hf Hh. destruct l as [|g l]; [done|]. destruct Hd as [_ Hd]. split; [by apply Hh|]. by eapply dseg_frame.
Qed.

(** [item] between [l1 ++ [p]] and [f :: l2]. *)
Lemma dseg_insert h h' l1 p f l2 item :
  dseg h None ((l1 ++ [p]) ++ f :: l2) None -> (forall g, g ∈ l1 ++ l2 -> link h' g = link h g) ->
  link h' p = Some (last_or l1 None, Some item) -> link h' f = Some (Some item, first_or l2 None) ->
  link h' item = Some (Some p, Some f) -> dseg h' None ((l1 ++ [p]) ++ item :: f :: l2) None.
Proof.
  intros Hd Hfr Hp Hf Hi. rewrite dseg_app in Hd. destruct Hd as [Hd1 [_ Hd2]]. rewrite dseg_app in Hd1. destruct Hd1 as [Hd1 _].
  rewrite dseg_app, dseg_app, !dseg_cons, last_or_snoc. cbn [first_or head dseg].
  split_and!; try done; [apply (dseg_frame h); [|exact Hd1]|apply (dseg_frame h); [|exact Hd2]]; intros g Hg; apply Hfr; set_solver.
Qed.

(** Without [f], which was between [l1 ++ [p]] and [l2]. *)
Lemma dseg_remove h h' l1 p f l2 :
  dseg h None ((l1 ++ [p]) ++ f :: l2) None -> (forall g, g ∈ l1 ++ tail l2 -> link h' g = link h g) ->
  link h' p = Some (last_or l1 None, first_or l2 None) ->
  (forall g, head l2 = Some g -> link h' g = Some (Some p, first_or (tail l2) None)) ->
  dseg h' None ((l1 ++ [p]) ++ l2) None.
Proof.
  intros Hd Hfr Hp Hn. rewrite dseg_app in Hd. destruct Hd as [Hd1 [_ Hd2]]. rewrite dseg_app in Hd1. destruct Hd1 as [Hd1 _].
  rewrite dseg_app, dseg_app, !dseg_cons, last_or_snoc. cbn [first_or head dseg].
  split_and!; try done.
  - eapply dseg_frame; [|done]. intros g Hg. apply Hfr. set_solver.
  - destruct l2 as [|n l2]; [done|]. destruct Hd2 as [_ Hd2]. split; [by apply Hn|].
    eapply dseg_frame; [|done]. intros g Hg. apply Hfr. set_solver.
Qed.

(** ** The queues after an operation *)

Lemma same_meta_dom s s' f : same_meta s s' -> is_Some (heap s' !! f) <-> is_Some (heap s !! f).
Proof.
  intros [Hm _]. specialize (Hm f). split; intros [w Hw]; rewrite Hw in Hm; cbn in Hm;
    destruct (heap s !! f), (heap s' !! f); simplify_eq/=; eauto.
Qed.

(** The waiting queue has changed. *)
Lemma queues_wait s s' wl wl' rl : queues s wl rl -> same_meta s s' ->
  dseg (heap s') None wl' None -> head_ s' = head wl' -> tail_ s' = last wl' -> rhead_ s' = rhead_ s -> rtail_ s' = rtail_ s ->
  (forall g, (g ∉ wl) -> (g ∉ wl') -> link (heap s') g = link (heap s) g) ->
  (forall g, g ∈ wl -> (g ∉ wl') -> link (heap s') g = Some (None, None)) ->
  (forall f w, heap s' !! f = Some w -> phead_ w = true <-> f ∈ wl') -> NoDup (wl' ++ rl) -> queues s' wl' rl.
Proof.
  intros Q M Hd Hh Ht Hrh Hrt Hout Hgone Ha Hn. pose proof (q_nodup _ _ _ Q) as (_ & Hdisj & _)%NoDup_app.
  pose proof Hn as (_ & Hdisj' & _)%NoDup_app. split; try done.
  - eapply dseg_frame; [|apply Q]. intros g Hg. apply Hout; intros Hg'; [by eapply Hdisj|by eapply Hdisj'].
  - rewrite Hrh. apply Q.
  - rewrite Hrt. apply Q.
  - intros f Hf Hw Hr. destruct (decide (f ∈ wl)); [by apply Hgone|]. rewrite Hout by done.
    apply (q_free _ _ _ Q); [|done|done]. by apply (same_meta_dom s s').
Qed.

(** The run queue has changed. *)
Lemma queues_run s s' wl rl rl' : queues s wl rl -> relinked s s' ->
  dseg (heap s') None rl' None -> rhead_ s' = head rl' -> rtail_ s' = last rl' -> head_ s' = head_ s -> tail_ s' = tail_ s ->
  (forall g, (g ∉ rl) -> (g ∉ rl') -> link (heap s') g = link (heap s) g) ->
  (forall g, g ∈ rl -> (g ∉ rl') -> link (heap s') g = Some (None, None)) -> NoDup (wl ++ rl') -> queues s' wl rl'.
Proof.
  intros Q [M P] Hd Hh Ht Hrh Hrt Hout Hgone Hn. pose proof (q_nodup _ _ _ Q) as (_ & Hdisj & _)%NoDup_app.
  pose proof Hn as (_ & Hdisj' & _)%NoDup_app. split; try done.
  - eapply dseg_frame; [|apply Q]. intros g Hg. apply Hout; intros Hg'; [by eapply Hdisj|by eapply Hdisj'].
  - rewrite Hrh. apply Q.
  - rewrite Hrt. apply Q.
  - intros f w Hw. specialize (P f). rewrite Hw in P. destruct (heap s !! f) as [w0|] eqn:E; [|done]. injection P as ->.
    by apply (q_attached _ _ _ Q).
  - intros f Hf Hw Hr. destruct (decide (f ∈ rl)); [by apply Hgone|]. rewrite Hout by done.
    apply (q_free _ _ _ Q); [|done|done]. by apply (same_meta_dom s s').
Qed.

(** A change of the fibers that keeps their links. *)
Lemma queues_same s s' wl rl : queues s wl rl -> (forall f, link (heap s') f = link (heap s) f) ->
  (forall f, phead_ <$> heap s' !! f = phead_ <$> heap s !! f) ->
  head_ s' = head_ s -> tail_ s' = tail_ s -> rhead_ s' = rhead_ s -> rtail_ s' = rtail_ s -> queues s' wl rl.
Proof.
  intros Q L P Hh Ht Hrh Hrt. destruct Q. split; try congruence.
  - by apply (dseg_frame (heap s)).
  - by apply (dseg_frame (heap s)).
  - intros f w Hw. specialize (P f). rewrite Hw in P. destruct (heap s !! f) as [w0|] eqn:E; [|done]. injection P as ->. eauto.
  - intros f [w Hw] Hf1 Hf2. rewrite L. apply q_free0; [|done|done]. specialize (P f). rewrite Hw in P. by destruct (heap s !! f).
Qed.

Lemma assert_true c s : c = true -> assert c s = Some s.
Proof. by intros ->. Qed.

(** Passes assertions that follow from the hypotheses. *)
Ltac pass :=
  repeat (rewrite assert_true by (unfold is_ready, is_running, is_terminated; repeat case_bool_decide; (done || congruence));
          cbn [mbind option_bind]).

(** ** The run queue *)

Lemma awakened_spec item s w wl rl : queues s wl rl -> heap s !! item = Some w -> state_ w = READY -> (item ∉ wl) -> (item ∉ rl) ->
  exists s', awakened item s = Some s' /\ queues s' wl (rl ++ [item]) /\ relinked s s'.
Proof.
  intros Q Hw Hs Hwl Hrl. pose proof (q_free _ _ _ Q item ltac:(by eexists) Hwl Hrl) as Hl.
  assert (prev_ w = None /\ nxt_ w = None) as [Hp Hn] by (unfold link in Hl; rewrite Hw in Hl; by injection Hl).
  assert (NoDup (wl ++ rl ++ [item])) as Hnd.
  { rewrite (assoc_L (++)). apply NoDup_app. split_and!; [apply Q| |apply NoDup_singleton]. set_solver. }
  unfold awakened. unfold get at 1. rewrite Hw. cbn [mbind option_bind].
  pass.
  rewrite (q_rhead _ _ _ Q). destruct rl as [|t rl _] using rev_ind.
  - eexists. split; [done|]. split; [|done]. apply (queues_run s _ wl []); try done. set_solver.
  - replace (head (rl ++ [t])) with (Some (default t (head rl))) by (by destruct rl).
    rewrite bool_decide_false by (intros E; apply Hrl; rewrite <- E; destruct rl; cbn; set_solver).
    rewrite (q_rtail _ _ _ Q), last_snoc. cbn [mbind option_bind].
    pose proof (q_run _ _ _ Q) as Hd. pose proof Hd as Ht. rewrite dseg_app in Ht. destruct Ht as [_ [Ht _]]. cbn [head] in Ht.
    assert (item <> t) as Hne by set_solver.
    assert (t ∉ rl) as Htr by (apply NoDup_app in Hnd as (_ & _ & Hnd); rewrite <- app_assoc in Hnd; apply NoDup_app in Hnd; set_solver).
    relink s1 E1 R1 L1 F1; [exact Ht|]. relink s2 E2 R2 L2 F2; [by rewrite F1|].
    eexists. split; [done|]. assert (relinked s s2) as R by (by transitivity s1). split; [|done].
    apply (queues_run s _ wl (rl ++ [t])); try done; cbn; rewrite ?last_snoc; try congruence.
    + eapply dseg_snoc; [exact Hd| |by rewrite F2|done]. intros g Hg. rewrite F2, F1; set_solver.
    + rewrite H5, H1, (q_rhead _ _ _ Q). by destruct rl.
    + intros g Hg1 Hg2. rewrite F2, F1; set_solver.
    + set_solver.
Qed.

Lemma pick_next_none s wl : queues s wl [] -> pick_next s = Some (None, s).
Proof. intros Q. unfold pick_next. by rewrite (q_rhead _ _ _ Q). Qed.

Lemma pick_next_spec f s wl rl : queues s wl (f :: rl) ->
  exists s', pick_next s = Some (Some f, s') /\ queues s' wl rl /\ relinked s s'.
Proof.
  intros Q. unfold pick_next. rewrite (q_rhead _ _ _ Q). cbn [head]. pose proof (q_run _ _ _ Q) as Hd. pose proof Hd as [Hl Hd'].
  destruct (link_Some _ _ _ _ Hl) as (w & Hw & _ & Hn). unfold get. rewrite Hw. cbn [mbind option_bind]. rewrite Hn.
  pose proof (q_nodup _ _ _ Q) as Hnd. assert (NoDup (wl ++ rl)) as Hnd' by (apply NoDup_app in Hnd as (? & ? & [??]%NoDup_cons); apply NoDup_app; set_solver).
  assert (f ∉ rl) as Hf by (apply NoDup_app in Hnd as (_ & _ & [??]%NoDup_cons); done).
  destruct rl as [|g rl]; cbn [head mbind option_bind].
  - relink s1 E1 R1 L1 F1; [done|]. relink s2 E2 R2 L2 F2; [done|]. eexists. split; [done|].
    assert (relinked s s2) as R by (transitivity s1; [exact R1|exact R2]). split; [|done].
    apply (queues_run s _ wl [f]); try done; try (cbn in *; congruence).
    + intros g Hg _. rewrite F2, F1; [done|set_solver..].
    + intros g Hg _. assert (g = f) as -> by set_solver. done.
  - destruct Hd' as [Hg Hd']. assert (f <> g) as Hfg by set_solver. assert (g ∉ rl) as Hgr by (apply NoDup_app in Hnd' as (_ & _ & [??]%NoDup_cons); done).
    relink s1 E1 R1 L1 F1; [exact Hg|]. relink s2 E2 R2 L2 F2; [by rewrite F1|]. relink s3 E3 R3 L3 F3; [done|].
    eexists. split; [done|]. assert (relinked s s3) as R by (transitivity s1; [exact R1|by transitivity s2]). split; [|done].
    apply (queues_run s _ wl (f :: g :: rl)); try done; try (cbn in *; congruence).
    + apply (dseg_pop (heap s) _ f); [done|intros x Hx; cbn in Hx; rewrite F3, F2, F1; [done|set_solver..]|].
      intros x [= <-]. by rewrite F3, F2.
    + rewrite H10, H6, H2. cbn. rewrite (q_rtail _ _ _ Q). done.
    + intros x Hx _. rewrite F3, F2, F1; [done|set_solver..].
    + intros x Hx Hx'. assert (x = f) as -> by set_solver. done.
Qed.

(** ** The waiting queue *)

Lemma phead_attached s s' (wl : list nat) : (forall f w, heap s !! f = Some w -> phead_ w = true <-> f ∈ wl) -> relinked s s' ->
  forall f w, heap s' !! f = Some w -> phead_ w = true <-> f ∈ wl.
Proof.
  intros Ha [_ P] f w Hw. specialize (P f). rewrite Hw in P. destruct (heap s !! f) as [w0|] eqn:E; [|done]. injection P as ->. eauto.
Qed.

Lemma elem_of_tail (x : nat) l : x ∈ tail l -> x ∈ l.
Proof. destruct l; [done|]. by right. Qed.

Lemma head_in_list (x : nat) l : head l = Some x -> x ∈ l.
Proof. destruct l; [done|]. intros [= ->]. by left. Qed.

Lemma move_to_run_absent f s w wl rl : queues s wl rl -> heap s !! f = Some w -> state_ w <> RUNNING -> (f ∉ wl) ->
  move_to_run f s = Some s.
Proof.
  intros Q Hw Hs Hf. unfold move_to_run, get. rewrite Hw. cbn [mbind option_bind]. pass.
  destruct (prev_ w); [|done]. destruct (phead_ w) eqn:E; [|done]. by apply (q_attached _ _ _ Q _ _ Hw) in E.
Qed.

(** [f] is taken out from behind [p]. *)
Lemma unlink_spec s l1 p f l2 rl : queues s ((l1 ++ [p]) ++ f :: l2) rl -> exists s1 s2,
  match first_or l2 None with None => Some (set_tail (Some p) s) | Some n => upd n (with_prev (Some p)) s end = Some s1 /\
  upd p (with_next (first_or l2 None)) s1 = Some s2 /\ relinked s s2 /\ dseg (heap s2) None ((l1 ++ [p]) ++ l2) None /\
  (forall g, (g ∉ (l1 ++ [p]) ++ l2) -> link (heap s2) g = link (heap s) g) /\
  head_ s2 = head_ s /\ tail_ s2 = last ((l1 ++ [p]) ++ l2) /\ rhead_ s2 = rhead_ s /\ rtail_ s2 = rtail_ s.
Proof.
  intros Q. pose proof (q_wait _ _ _ Q) as Hd. pose proof Hd as Hd1. rewrite dseg_app in Hd1. destruct Hd1 as [Hd1 [_ Hd2]].
  rewrite dseg_app in Hd1. destruct Hd1 as [_ [Hlp _]]. cbn [head first_or] in Hlp.
  pose proof (q_nodup _ _ _ Q) as [Hnd _]%NoDup_app. rewrite <- app_assoc in Hnd.
  apply NoDup_app in Hnd as (_ & Hl1 & [Hp [_ Hnd]%NoDup_cons]%NoDup_cons).
  assert (p ∉ l1) as Hpl by (intros Hx; apply (Hl1 p Hx); by left). assert (p ∉ l2) as Hpr by (clear -Hp; set_solver).
  assert (exists s1, (match first_or l2 None with None => Some (set_tail (Some p) s) | Some n => upd n (with_prev (Some p)) s end) = Some s1
    /\ relinked s s1 /\ (forall g, head l2 = Some g -> link (heap s1) g = Some (Some p, first_or (tail l2) None))
    /\ (forall g, head l2 <> Some g -> link (heap s1) g = link (heap s) g)
    /\ head_ s1 = head_ s /\ tail_ s1 = last ((l1 ++ [p]) ++ l2) /\ rhead_ s1 = rhead_ s /\ rtail_ s1 = rtail_ s)
    as (s1 & E1 & R1 & L1 & F1 & Hh1 & Ht1 & Hrh1 & Hrt1).
  { destruct l2 as [|n l2]; cbn [first_or head].
    - eexists. split; [done|]. split_and!; try done. by rewrite app_nil_r, last_snoc.
    - destruct Hd2 as [Hln _]. relink s1 E1 R1 L1 F1; [exact Hln|]. exists s1. split; [done|]. split_and!; try done.
      + by intros g [= <-].
      + intros g Hg. apply F1. congruence.
      + rewrite H0, (q_tail _ _ _ Q). rewrite !last_app. cbn. by rewrite !last_cons. }
  edestruct (upd_next p (first_or l2 None) s1) as (s2 & E2 & R2 & L2 & F2 & ? & ? & ? & ?).
  { rewrite F1; [exact Hlp|]. by intros Hx%head_in_list. }
  exists s1, s2. split_and!; try done; try congruence; [by transitivity s1| |].
  - apply (dseg_remove (heap s) _ l1 p f); [done| |done|].
    + intros g Hg. apply elem_of_app in Hg as [Hg|Hg].
      * rewrite F2 by (by intros ->). apply F1. intros Hx%head_in_list. apply (Hl1 g Hg). by right; right.
      * rewrite F2 by (intros ->; by apply elem_of_tail in Hg). apply F1. destruct l2; [done|]. intros [= ->]. by apply NoDup_cons in Hnd as [? _].
    + intros g Hg. rewrite F2; [by apply L1|]. intros ->. by apply head_in_list in Hg.
  - intros g Hg. rewrite F2, F1; [done| |clear -Hg; set_solver]. intros Hx%head_in_list. clear -Hx Hg. set_solver.
Qed.

(** [f], which is in neither queue, is put in front of the waiting queue. *)
Lemma link_front s f h tl x y : dseg (heap s) None (h :: tl) None -> NoDup (f :: h :: tl) -> link (heap s) f = Some (x, y) ->
  exists s1 s2 s3, upd f (with_next (Some h)) s = Some s1 /\ upd f (with_prev None) s1 = Some s2 /\
  upd h (with_prev (Some f)) s2 = Some s3 /\ relinked s s3 /\ dseg (heap s3) None (f :: h :: tl) None /\
  (forall g, g <> f -> g <> h -> link (heap s3) g = link (heap s) g) /\
  tail_ s3 = tail_ s /\ rhead_ s3 = rhead_ s /\ rtail_ s3 = rtail_ s.
Proof.
  intros Hd [Hf [Hh _]%NoDup_cons]%NoDup_cons Hl. pose proof Hd as [Hlh _]. apply not_elem_of_cons in Hf as [Hfh Hft].
  destruct (upd_next f (Some h) s _ _ Hl) as (s1 & E1 & R1 & L1 & F1 & _ & ? & ? & ?).
  destruct (upd_prev f None s1 _ _ L1) as (s2 & E2 & R2 & L2 & F2 & _ & ? & ? & ?).
  destruct (upd_prev h (Some f) s2 None (first_or tl None)) as (s3 & E3 & R3 & L3 & F3 & _ & ? & ? & ?); [by rewrite F2, F1|].
  exists s1, s2, s3. split_and!; try done; try congruence; [by transitivity s1; [|transitivity s2]| |].
  - apply (dseg_push (heap s)); [done| |done|by rewrite F3].
    intros g Hg. rewrite F3, F2, F1; [done|by intros ->..].
  - intros g Hg1 Hg2. by rewrite F3, F2, F1.
Qed.

Lemma move_to_run_spec f s w l1 l2 rl : queues s (l1 ++ f :: l2) rl -> heap s !! f = Some w -> state_ w <> RUNNING ->
  exists s', move_to_run f s = Some s' /\ queues s' (f :: l1 ++ l2) rl /\ relinked s s'.
Proof.
  intros Q Hw Hs. unfold move_to_run, get. rewrite Hw. cbn [mbind option_bind]. pass.
  pose proof (q_wait _ _ _ Q) as Hd. rewrite dseg_app in Hd. destruct Hd as [_ [Hf _]].
  pose proof Hf as (w' & Hw' & Hp & Hn)%link_Some. simplify_eq. change (nxt_ w = first_or l2 None) in Hn.
  destruct l1 as [|p l1 _] using rev_ind.
  { rewrite Hp. cbn [last_or last]. exists s. by split_and!. }
  rewrite Hp, last_or_snoc, (proj2 (q_attached _ _ _ Q _ _ Hw)) by (clear; set_solver). rewrite Hn.
  destruct (unlink_spec s l1 p f l2 rl Q) as (s1 & s2 & E1 & E2 & R2 & Hd & F2 & Hh & Ht & Hrh & Hrt).
  rewrite E1. cbn [mbind option_bind]. rewrite E2. cbn [mbind option_bind].
  assert (NoDup ((f :: (l1 ++ [p]) ++ l2) ++ rl)) as Hnd.
  { assert (((l1 ++ [p]) ++ f :: l2) ++ rl ≡ₚ (f :: (l1 ++ [p]) ++ l2) ++ rl) as <-; [|apply Q].
    by rewrite <- (Permutation_middle (l1 ++ [p]) l2 f). }
  pose proof Hnd as [Hndw _]%NoDup_app.
  destruct ((l1 ++ [p]) ++ l2) as [|h tl] eqn:El; [by destruct l1|].
  assert (head_ s2 = Some h) as ->.
  { rewrite Hh, (q_head _ _ _ Q). destruct l1; cbn in *; by simplify_eq. }
  cbn [mbind option_bind].
  destruct (link_front s2 f h tl (last_or (l1 ++ [p]) None) (first_or l2 None)) as (s3 & s4 & s5 & E3 & E4 & E5 & R5 & Hd5 & F5 & Ht5 & Hrh5 & Hrt5);
    [done|done|rewrite F2; [exact Hf|by apply NoDup_cons in Hndw as [? _]]|].
  rewrite E3. cbn [mbind option_bind]. rewrite E4. cbn [mbind option_bind]. rewrite E5. cbn [mbind option_bind].
  eexists. split; [done|]. assert (relinked s (set_head (Some f) s5)) as R by (change (relinked s s5); by transitivity s2). split; [|done].
  assert (forall x, x ∈ (l1 ++ [p]) ++ f :: l2 <-> x ∈ f :: h :: tl) as Hel by (rewrite <- El; clear; set_solver).
  apply (queues_wait s _ ((l1 ++ [p]) ++ f :: l2)); try done; try (cbn; congruence).
  - by destruct R.
  - intros g Hg _. rewrite Hel in Hg. apply not_elem_of_cons in Hg as [Hgf Hg]. pose proof Hg as [Hgh _]%not_elem_of_cons.
    cbn [heap set_head]. by rewrite F5, F2.
  - intros g Hg1 Hg2. by apply Hel in Hg1.
  - intros x wx Hx. by rewrite (phead_attached s _ _ (q_attached _ _ _ Q) R x wx Hx), Hel.
Qed.

(** ** [push] *)

Definition wqueue (s : manager) (wl : list nat) : Prop :=
  dseg (heap s) None wl None /\ head_ s = head wl /\ tail_ s = last wl.

(** The waiting queue has become [wl'], with [item] in it. *)
Definition pushed (s s' : manager) (item : nat) (wl wl' : list nat) : Prop :=
  relinked s s' /\ wqueue s' wl' /\ (forall g, (g ∉ wl) -> g <> item -> link (heap s') g = link (heap s) g) /\
  rhead_ s' = rhead_ s /\ rtail_ s' = rtail_ s.

(** [item] is not in the queue. *)
Definition loose (s : manager) (item : nat) (wl : list nat) : Prop :=
  wqueue s wl /\ NoDup (item :: wl) /\ link (heap s) item = Some (None, None).

Lemma push_front s item f l : loose s item (f :: l) -> exists s1 s2,
  upd item (with_next (Some f)) s = Some s1 /\ upd f (with_prev (Some item)) s1 = Some s2 /\
  pushed s (set_head (Some item) s2) item (f :: l) (item :: f :: l).
Proof.
  intros ((Hd & Hh & Ht) & [Hi [Hf _]%NoDup_cons]%NoDup_cons & Hl). pose proof Hd as [Hlf _].
  apply not_elem_of_cons in Hi as [Hif Hil].
  destruct (upd_next item (Some f) s _ _ Hl) as (s1 & E1 & R1 & L1 & F1 & ? & ? & ? & ?).
  destruct (upd_prev f (Some item) s1 None (first_or l None)) as (s2 & E2 & R2 & L2 & F2 & ? & ? & ? & ?); [by rewrite F1|].
  exists s1, s2. split_and!; try done. assert (relinked s s2) as R by (by transitivity s1). unfold pushed, wqueue. cbn [heap head_ tail_ rhead_ rtail_ set_head].
  split_and!; try done; try congruence.
  - apply (dseg_push (heap s)); [done| |done|by rewrite F2].
    intros g Hg. rewrite F2, F1; [done|by intros ->..].
  - change (tail_ s2 = last (f :: l)). congruence.
  - intros g [Hg _]%not_elem_of_cons Hgi. by rewrite F2, F1.
Qed.

Lemma push_between s item l1 p f l2 : loose s item ((l1 ++ [p]) ++ f :: l2) -> exists s1 s2 s3 s4,
  upd item (with_next (Some f)) s = Some s1 /\ upd f (with_prev (Some item)) s1 = Some s2 /\
  upd p (with_next (Some item)) s2 = Some s3 /\ upd item (with_prev (Some p)) s3 = Some s4 /\
  pushed s s4 item ((l1 ++ [p]) ++ f :: l2) ((l1 ++ [p]) ++ item :: f :: l2).
Proof.
  intros ((Hd & Hh & Ht) & [Hi Hnd]%NoDup_cons & Hl). pose proof Hd as Hd1. rewrite dseg_app in Hd1. destruct Hd1 as [Hd1 [Hlf _]].
  rewrite dseg_app in Hd1. destruct Hd1 as [_ [Hlp _]]. rewrite last_or_snoc in Hlf. cbn [head] in Hlp.
  assert (item <> p /\ item <> f /\ (item ∉ l1) /\ (item ∉ l2)) as (? & ? & ? & ?) by (clear -Hi; set_solver).
  rewrite <- app_assoc in Hnd. apply NoDup_app in Hnd as (_ & Hl1 & [Hp [Hf _]%NoDup_cons]%NoDup_cons). cbn [app] in Hp, Hl1.
  assert (p <> f /\ (p ∉ l2)) as [??] by (clear -Hp; set_solver).
  assert ((p ∉ l1) /\ (f ∉ l1)) as [??] by (split; intros Hx; apply (Hl1 _ Hx); clear; set_solver).
  destruct (upd_next item (Some f) s _ _ Hl) as (s1 & E1 & R1 & L1 & F1 & ? & ? & ? & ?).
  destruct (upd_prev f (Some item) s1 (Some p) (first_or l2 None)) as (s2 & E2 & R2 & L2 & F2 & ? & ? & ? & ?); [by rewrite F1|].
  destruct (upd_next p (Some item) s2 (last_or l1 None) (Some f)) as (s3 & E3 & R3 & L3 & F3 & ? & ? & ? & ?); [by rewrite F2, F1|].
  destruct (upd_prev item (Some p) s3 None (Some f)) as (s4 & E4 & R4 & L4 & F4 & ? & ? & ? & ?); [by rewrite F3, F2|].
  exists s1, s2, s3, s4. split_and!; try done. unfold pushed, wqueue. split_and!; try done; try congruence.
  - transitivity s1; [done|]. transitivity s2; [done|]. by transitivity s3.
  - apply (dseg_insert (heap s)); [done| |by rewrite F4|by rewrite F4, F3|done].
    intros g Hg. apply elem_of_app in Hg as [Hg|Hg]; (rewrite F4, F3, F2, F1; [done|by intros ->..]).
  - transitivity (head_ s); [congruence|]. rewrite Hh. by destruct l1.
  - transitivity (tail_ s); [congruence|]. rewrite Ht, !last_app. done.
  - intros g Hg Hgi. assert (g <> p /\ g <> f) as [??] by (clear -Hg; set_solver). by rewrite F4, F3, F2, F1.
Qed.

Lemma push_back s item l t : loose s item (l ++ [t]) -> exists s1 s2,
  upd t (with_next (Some item)) s = Some s1 /\ upd item (with_prev (Some t)) s1 = Some s2 /\
  pushed s (set_tail (Some item) s2) item (l ++ [t]) ((l ++ [t]) ++ [item]).
Proof.
  intros ((Hd & Hh & Ht) & [Hi Hnd]%NoDup_cons & Hl). pose proof Hd as Hd1. rewrite dseg_app in Hd1. destruct Hd1 as [_ [Hlt _]]. cbn [head] in Hlt.
  assert (item <> t /\ (item ∉ l)) as [??] by (clear -Hi; set_solver).
  assert (t ∉ l) as Htl by (apply NoDup_app in Hnd as (_ & Hx & _); clear -Hx; set_solver).
  destruct (upd_next t (Some item) s _ _ Hlt) as (s1 & E1 & R1 & L1 & F1 & ? & ? & ? & ?).
  destruct (upd_prev item (Some t) s1 None None) as (s2 & E2 & R2 & L2 & F2 & ? & ? & ? & ?); [by rewrite F1|].
  exists s1, s2. split_and!; try done. assert (relinked s s2) as R by (by transitivity s1). unfold pushed, wqueue. cbn [heap head_ tail_ rhead_ rtail_ set_tail].
  split_and!; try done; try congruence.
  - apply (dseg_snoc (heap s)); [done| |by rewrite F2|done]. intros g Hg. rewrite F2, F1; [done|by intros ->..].
  - transitivity (head_ s); [congruence|]. rewrite Hh. by destruct l.
  - by rewrite last_snoc.
  - intros g Hg Hgi. assert (g <> t) by (clear -Hg; set_solver). by rewrite F2, F1.
Qed.

(** Where a fiber that waits until [t] is put: before the first one that waits
    at least as long. *)
Definition waits_longer (m : gmap nat info) (t : Z) (f : nat) : bool :=
  match m !! f with Some i => negb (bool_decide (i_state i = READY)) && (t <=? i_tp i) | None => false end.

Fixpoint place (m : gmap nat info) (t : Z) (item : nat) (l : list nat) : list nat :=
  match l with
  | [] => [item]
  | f :: l => if waits_longer m t f then item :: f :: l else f :: place m t item l
  end.

Lemma push_loop_spec fuel item wi l1 f l2 s : loose s item (l1 ++ f :: l2) -> heap s !! item = Some wi ->
  (length (f :: l2) <= fuel)%nat -> exists s', push_loop fuel item f (last l1) s = Some s' /\
  pushed s s' item (l1 ++ f :: l2) (l1 ++ place (view s) (tp_ wi) item (f :: l2)).
Proof.
  revert l1 f l2. induction fuel as [|fuel IH]; intros l1 f l2 Hlo Hwi Hlen; [cbn in Hlen; lia|].
  pose proof Hlo as ((Hd & Hh & Ht) & [Hi Hnd]%NoDup_cons & Hl).
  pose proof Hd as Hd1. rewrite dseg_app in Hd1. destruct Hd1 as [_ [Hlf _]].
  pose proof Hlf as (wf & Hwf & Hpf & Hnf)%link_Some. change (nxt_ wf = first_or l2 None) in Hnf.
  cbn [push_loop]. unfold get. rewrite Hwf. cbn [mbind option_bind]. rewrite Hwi. cbn [mbind option_bind].
  cbn [place]. unfold waits_longer at 1. unfold view at 1. rewrite lookup_fmap, Hwf. cbn [fmap option_fmap option_map meta i_state i_tp].
  fold (is_ready wf). destruct (negb (is_ready wf) && (tp_ wi <=? tp_ wf)) eqn:Et.
  - destruct l1 as [|p l1 _] using rev_ind.
    + rewrite bool_decide_true by done. pass. destruct (push_front s item f l2 Hlo) as (s1 & s2 & E1 & E2 & P).
      rewrite E1. cbn [mbind option_bind]. rewrite E2. cbn [mbind option_bind]. by eexists.
    + rewrite bool_decide_false.
      2:{ rewrite Hh. apply NoDup_app in Hnd as (_ & Hx & _). intros Hf. apply (Hx f); [|by left]. destruct l1; cbn in *; simplify_eq; by left. }
      rewrite last_snoc. cbn [mbind option_bind].
      destruct (push_between s item l1 p f l2 Hlo) as (s1 & s2 & s3 & s4 & E1 & E2 & E3 & E4 & P).
      rewrite E1. cbn [mbind option_bind]. rewrite E2. cbn [mbind option_bind]. rewrite E3. cbn [mbind option_bind]. rewrite E4. by eexists.
  - rewrite Ht, last_app. destruct l2 as [|g l2].
    + cbn [last]. rewrite bool_decide_true by done. pass. destruct (push_back s item l1 f Hlo) as (s1 & s2 & E1 & E2 & P).
      rewrite E1. cbn [mbind option_bind]. rewrite E2. cbn [mbind option_bind]. eexists. split; [done|]. cbn [place]. rewrite <- app_assoc in P. exact P.
    + rewrite last_cons_cons, bool_decide_false. 2:{ destruct (last (g :: l2)) as [x|] eqn:Ex; [|by apply last_None in Ex]. intros [= ->]. apply last_Some_elem_of in Ex.
        apply NoDup_app in Hnd as (_ & _ & [Hx _]%NoDup_cons). done. }
      rewrite Hnf. cbn [first_or head]. replace (Some f) with (last (l1 ++ [f])) by apply last_snoc.
      destruct (IH (l1 ++ [f]) g l2) as (s' & E' & P'); [by rewrite <- app_assoc|done|cbn in *; lia|].
      rewrite E'. eexists. split; [done|]. rewrite <- !app_assoc in P'. exact P'.
Qed.

Definition inserted (m : gmap nat info) (i : info) (item : nat) (wl : list nat) : list nat :=
  if bool_decide (i_state i = READY) then item :: wl
  else if i_tp i =? tp_max then wl ++ [item] else place m (i_tp i) item wl.

Lemma place_perm h t item l : place h t item l ≡ₚ item :: l.
Proof. induction l as [|f l IH]; cbn [place]; [done|]. case_match; [done|]. rewrite IH. apply Permutation_swap. Qed.

Lemma inserted_perm h w item wl : inserted h w item wl ≡ₚ item :: wl.
Proof. unfold inserted. repeat case_match; [done|by rewrite Permutation_app_comm|apply place_perm]. Qed.

Lemma queue_size h (l : list nat) : NoDup l -> (forall f, f ∈ l -> is_Some (h !! f)) -> (length l <= size (h : gmap nat worker_fiber))%nat.
Proof.
  intros Hn Hl. rewrite <- (size_list_to_set (C := gset nat)) by done. rewrite <- (size_dom h). apply subseteq_size.
  intros f Hf%elem_of_list_to_set. by apply elem_of_dom, Hl.
Qed.

Lemma push_attached_spec item s w wi wl : loose s item wl -> heap s !! item = Some wi -> tp_ wi = tp_ w ->
  exists s', push_attached item w s = Some s' /\ pushed s s' item wl (inserted (view s) (meta w) item wl).
Proof.
  intros Hlo Hwi Htp. pose proof Hlo as ((Hd & Hh & Ht) & [Hi Hnd]%NoDup_cons & Hl). unfold push_attached. rewrite Hh. destruct wl as [|h wl].
  - eexists. split; [done|]. assert (inserted (view s) (meta w) item [] = [item]) as -> by (unfold inserted; by repeat case_match).
    split_and!; [done| |done|done|done]. by split_and!.
  - cbn [head]. rewrite bool_decide_false by (intros ->; apply Hi; by left). unfold inserted. cbn [meta i_state i_tp]. fold (is_ready w). destruct (is_ready w).
    { destruct (push_front s item h wl Hlo) as (s1 & s2 & E1 & E2 & P).
      rewrite E1. cbn [mbind option_bind]. rewrite E2. cbn [mbind option_bind]. by eexists. }
    destruct (tp_ w =? tp_max).
    { rewrite Ht. destruct (last (h :: wl)) as [t|] eqn:El; [|by apply last_None in El]. apply last_Some in El as [l El]. rewrite El in *.
      cbn [mbind option_bind]. destruct (push_back s item l t Hlo) as (s1 & s2 & E1 & E2 & P).
      rewrite E1. cbn [mbind option_bind]. rewrite E2. cbn [mbind option_bind]. by eexists. }
    destruct (push_loop_spec (size (heap s)) item wi [] h wl s Hlo Hwi) as (s' & E & P); [|rewrite Htp in P; by exists s'].
    apply queue_size; [done|]. intros f Hf. by eapply dseg_lookup.
Qed.

Lemma push_spec item s w wl rl : queues s wl rl -> heap s !! item = Some w -> (item ∉ wl) -> (item ∉ rl) ->
  exists s', push item s = Some s' /\ queues s' (inserted (view s) (meta w) item wl) rl /\ same_meta s s'.
Proof.
  intros Q Hw Hwl Hrl. pose proof (q_free _ _ _ Q item ltac:(by eexists) Hwl Hrl) as Hl.
  pose proof Hl as (w' & Hw' & Hp & Hn)%link_Some. simplify_eq.
  assert (phead_ w = false) as Hph by (apply not_true_iff_false; by rewrite (q_attached _ _ _ Q _ _ Hw)).
  unfold push, get. rewrite Hw. cbn [mbind option_bind]. pass. rewrite Hph.
  set (s1 := set_heap (<[item := with_queue true w]> (heap s)) s).
  assert (upd item (with_queue true) s = Some s1) as -> by (unfold upd; by rewrite Hw). cbn [mbind option_bind].
  assert (same_meta s s1) as M1.
  { split; [|done]. intros f. cbn. destruct (decide (f = item)) as [->|Hne]; [by rewrite lookup_insert_eq, Hw|by rewrite lookup_insert_ne]. }
  assert (forall f, link (heap s1) f = link (heap s) f) as L1.
  { intros f. unfold link. cbn. destruct (decide (f = item)) as [->|Hne]; [by rewrite lookup_insert_eq, Hw|by rewrite lookup_insert_ne]. }
  pose proof (q_nodup _ _ _ Q) as Hnd. pose proof Hnd as [Hndw _]%NoDup_app.
  destruct (push_attached_spec item s1 w (with_queue true w) wl) as (s' & E & [M2 P2] & (Hd & Hh & Ht) & F & Hrh & Hrt);
    [|apply lookup_insert_eq|done|].
  { split_and!; [|by constructor|by rewrite L1]. split_and!; [|apply Q|apply Q]. apply (dseg_frame (heap s)); [done|apply Q]. }
  assert (inserted (view s1) (meta w) item wl = inserted (view s) (meta w) item wl) as Hins.
  { unfold inserted. by rewrite (same_meta_view s s1 M1). }
  rewrite Hins in *. exists s'. split; [done|]. assert (same_meta s s') as M by (by transitivity s1). split; [|done].
  apply (queues_wait s _ wl); try done.
  - intros g Hg1 Hg2. rewrite F, L1; [done|done|]. intros ->. apply Hg2. rewrite inserted_perm. by left.
  - intros g Hg1 Hg2. exfalso. apply Hg2. rewrite inserted_perm. by right.
  - intros f wf Hf. rewrite inserted_perm. specialize (P2 f). rewrite Hf in P2. cbn in P2. destruct (decide (f = item)) as [->|Hne].
    + rewrite lookup_insert_eq in P2. injection P2 as ->. split; [by left|done].
    + rewrite lookup_insert_ne in P2 by done. destruct (heap s !! f) as [w0|] eqn:E0; [|done]. injection P2 as ->.
      rewrite (q_attached _ _ _ Q _ _ E0). rewrite elem_of_cons. naive_solver.
  - rewrite inserted_perm. constructor; [|done]. intros [?|?]%elem_of_app; done.
Qed.

(** ** The head of the waiting queue leaves it *)

Lemma dequeue_spec f s w wl rl : queues s (f :: wl) rl -> heap s !! f = Some w -> exists s1 s2 s3 s4,
  match nxt_ w with
  | None => Some (set_tail None (set_head (nxt_ w) s))
  | Some h => upd h (with_prev None) (set_head (nxt_ w) s)
  end = Some s1 /\
  upd f (with_next None) s1 = Some s2 /\ upd f (with_prev None) s2 = Some s3 /\ upd f (with_queue false) s3 = Some s4 /\
  queues s4 wl rl /\ same_meta s s4.
Proof.
  intros Q Hw. pose proof (q_wait _ _ _ Q) as Hd. pose proof Hd as [Hl Hd'].
  pose proof Hl as (w' & Hw' & Hp & Hn)%link_Some. simplify_eq. change (nxt_ w = first_or wl None) in Hn. rewrite Hn.
  pose proof (q_nodup _ _ _ Q) as [Hf Hnd]%NoDup_cons. pose proof Hnd as [Hndw _]%NoDup_app.
  assert (f ∉ wl) as Hfw by (clear -Hf; set_solver).
  assert (exists s1, match first_or wl None with None => Some (set_tail None (set_head (first_or wl None) s))
      | Some h => upd h (with_prev None) (set_head (first_or wl None) s) end = Some s1 /\ relinked s s1 /\
      wqueue s1 wl /\ (forall g, (g ∉ wl) -> link (heap s1) g = link (heap s) g) /\ rhead_ s1 = rhead_ s /\ rtail_ s1 = rtail_ s)
    as (s1 & E1 & R1 & (Hd1 & Hh1 & Ht1) & F1 & Hrh1 & Hrt1).
  { destruct wl as [|h wl]; [by eexists|]. cbn [first_or head]. destruct Hd' as [Hlh _].
    destruct (upd_prev h None (set_head (Some h) s) _ _ Hlh) as (s1 & E1 & R1 & L1 & F1 & ? & ? & ? & ?).
    exists s1. split_and!; try done.
    - unfold wqueue. split_and!; [|done|by rewrite H0; apply Q]. apply NoDup_cons in Hndw as [Hh _].
      apply (dseg_pop (heap s) _ f); [done| |by intros g [= <-]]. intros g Hg. rewrite F1; [done|]. by intros ->.
    - intros g [Hg _]%not_elem_of_cons. by rewrite F1. }
  destruct (upd_next f None s1 None (first_or wl None)) as (s2 & E2 & R2 & L2 & F2 & ? & ? & ? & ?); [by rewrite F1|].
  destruct (upd_prev f None s2 _ _ L2) as (s3 & E3 & R3 & L3 & F3 & ? & ? & ? & ?).
  pose proof L3 as (w3 & Hw3 & Hp3 & Hn3)%link_Some.
  assert (relinked s s3) as R by (transitivity s1; [done|]; by transitivity s2).
  set (s4 := set_heap (<[f := with_queue false w3]> (heap s3)) s3).
  assert (same_meta s s4) as M4.
  { transitivity s3; [by destruct R|]. split; [|done]. intros x. cbn.
    destruct (decide (x = f)) as [->|Hne]; [by rewrite lookup_insert_eq, Hw3|by rewrite lookup_insert_ne]. }
  exists s1, s2, s3, s4. split_and!; try done; [by unfold upd; rewrite Hw3|].
  assert (forall g, link (heap s4) g = if decide (g = f) then Some (None, None) else link (heap s1) g) as L4.
  { intros g. unfold link. cbn. case_decide as Hg; [subst; by rewrite lookup_insert_eq; cbn; rewrite Hp3, Hn3|].
    rewrite lookup_insert_ne by done. fold (link (heap s3) g). by rewrite F3, F2. }
  apply (queues_wait s _ (f :: wl)); try done; try (cbn; congruence).
  - apply (dseg_frame (heap s1)); [|done]. intros g Hg. rewrite L4, decide_False; [done|]. by intros ->.
  - intros g [Hg1 Hg2]%not_elem_of_cons _. rewrite L4, decide_False by done. by apply F1.
  - intros g [->|Hg]%elem_of_cons Hg2; [|done]. by rewrite L4, decide_True.
  - intros x wx Hx. cbn in Hx. destruct (decide (x = f)) as [->|Hne].
    + rewrite lookup_insert_eq in Hx. injection Hx as <-. done.
    + rewrite lookup_insert_ne in Hx by done. rewrite (phead_attached s _ _ (q_attached _ _ _ Q) R x wx Hx). rewrite elem_of_cons. naive_solver.
Qed.
