(* ===== verification/FiberScheduler.v ===== *)
(** * The scheduler without pointers

    [sched] is a scheduler with two lists: [fm_run] appends every fiber of the
    waiting list that is ready or whose deadline has passed to the run list and
    resumes the first of the run list.  [fiber_manager] implements it: each of
    its operations succeeds and has the effect of the one here. *)

From Stdlib Require Import Sorting.Sorted.
From stdpp Require Import gmap options.
From S2P Require Import Prelude FiberManager FiberQueues.

Definition i_set_count n i := mk_info n (i_tp i) (i_state i) (i_requested i) (i_joiners i).
Definition i_set_tp t i := mk_info (i_count i) t (i_state i) (i_requested i) (i_joiners i).
Definition i_set_state st i := mk_info (i_count i) (i_tp i) st (i_requested i) (i_joiners i).
Definition i_set_joiners l i := mk_info (i_count i) (i_tp i) (i_state i) (i_requested i) l.

Record sched := mk_sched {
  s_info : gmap nat info;
  s_wait : list nat;
  s_run : list nat;
  s_active : option nat;
  s_impl : gset nat;
  s_joins : gmap nat nat
}.

Definition new_sched : sched := mk_sched ∅ [] [] None ∅ ∅.

Definition a_info m a := mk_sched m (s_wait a) (s_run a) (s_active a) (s_impl a) (s_joins a).
Definition a_wait l a := mk_sched (s_info a) l (s_run a) (s_active a) (s_impl a) (s_joins a).
Definition a_runq l a := mk_sched (s_info a) (s_wait a) l (s_active a) (s_impl a) (s_joins a).
Definition a_active x a := mk_sched (s_info a) (s_wait a) (s_run a) x (s_impl a) (s_joins a).
Definition a_impl x a := mk_sched (s_info a) (s_wait a) (s_run a) (s_active a) x (s_joins a).
Definition a_joins x a := mk_sched (s_info a) (s_wait a) (s_run a) (s_active a) (s_impl a) x.

(** ** The operations *)

Definition a_upd (f : nat) (g : info -> info) (a : sched) : sched := a_info (alter g f (s_info a)) a.

Definition to_front (f : nat) (l : list nat) : list nat :=
  if decide (f ∈ l) then f :: filter (fun g => g <> f) l else l.

Definition a_ready (f : nat) (a : sched) : sched :=
  a_wait (to_front f (s_wait a)) (a_upd f (i_set_state READY) a).

Definition a_push (f : nat) (a : sched) : sched :=
  match s_info a !! f with
  | Some i => a_wait (inserted (s_info a) i f (s_wait a)) a
  | None => a
  end.

(** The fibers that [fm_run] wakes. *)
Definition due (now : Z) (m : gmap nat info) (f : nat) : Prop :=
  match m !! f with Some i => i_state i = READY \/ i_tp i <= now | None => False end.

#[export] Instance due_dec now m f : Decision (due now m f).
Proof. unfold due. destruct (m !! f); apply _. Defined.

Definition wake (i : info) : info := i_set_tp tp_max (i_set_state READY i).
Definition wake_all (l : list nat) (m : gmap nat info) : gmap nat info := foldl (fun m f => alter wake f m) m l.

Definition a_move_to (now : Z) (a : sched) : sched :=
  let l := filter (due now (s_info a)) (s_wait a) in
  a_runq (s_run a ++ l) (a_wait (filter (fun f => ~ due now (s_info a) f) (s_wait a)) (a_info (wake_all l (s_info a)) a)).

Definition a_release (f : nat) (a : sched) : sched :=
  match s_info a !! f with
  | Some i => if (i_count i =? 1)%nat then a_info (delete f (s_info a)) a else a_upd f (i_set_count (i_count i - 1)) a
  | None => a
  end.

Definition a_join_returns (f : nat) (a : sched) : sched :=
  match s_joins a !! f with
  | None => a
  | Some g => a_release g (a_impl (s_impl a ∖ {[g]}) (a_joins (delete f (s_joins a)) a))
  end.

Definition a_run (now : Z) (a : sched) : option nat * sched :=
  let a := a_move_to now a in
  match s_run a with
  | [] => (None, a)
  | f :: l => (Some f, a_join_returns f (a_active (Some f) (a_upd f (i_set_state RUNNING) (a_runq l a))))
  end.

Definition a_suspend (f : nat) (a : sched) : sched :=
  a_active None (if decide (i_state <$> s_info a !! f = Some TERMINATED) then a_release f a else a).

Definition a_wait_until (t : Z) (f : nat) (a : sched) : sched :=
  a_suspend f (a_push f (a_upd f (i_set_tp t) (a_upd f (i_set_state WAITING) a))).

Definition a_yield (f : nat) (a : sched) : sched := a_suspend f (a_push f (a_ready f a)).

Definition a_join (g f : nat) (a : sched) : sched :=
  let a := a_push f (a_upd f (i_set_state WAITING) a) in
  let a :=
    if decide (i_state <$> s_info a !! g = Some TERMINATED) then a_ready f a
    else a_upd g (fun i => i_set_joiners (i_joiners i ++ [f]) i) a in
  a_suspend f (a_joins (<[f := g]> (s_joins a)) a).

Definition a_return (f : nat) (a : sched) : sched :=
  let a := a_upd f (i_set_state TERMINATED) a in
  let l := match s_info a !! f with Some i => i_joiners i | None => [] end in
  a_suspend f (foldl (fun a p => a_ready p a) (a_upd f (i_set_joiners []) a) l).

Definition a_spawn (f : nat) (a : sched) : sched :=
  a_runq (s_run a ++ [f]) (a_impl ({[f]} ∪ s_impl a) (a_info (<[f := mk_info 2 tp_max READY false []]> (s_info a)) a)).

Definition a_detach (f : nat) (a : sched) : sched := a_release f (a_impl (s_impl a ∖ {[f]}) a).

Definition a_step (e : event) (a : sched) : option nat * sched :=
  match e, s_active a with
  | Ev_spawn f, _ => (None, a_spawn f a)
  | Ev_run now, _ => a_run now a
  | Ev_ready f, _ => (None, a_ready f a)
  | Ev_wait_until t, Some f => (None, a_wait_until t f a)
  | Ev_yield, Some f => (None, a_yield f a)
  | Ev_join g, Some f => (None, a_join g f a)
  | Ev_return, Some f => (None, a_return f a)
  | Ev_detach g, _ => (None, a_detach g a)
  | _, None => (None, a)
  end.

(** ** The implementation relation *)

Record implements (s : manager) (a : sched) : Prop := {
  im_info : view s = s_info a;
  im_queues : queues s (s_wait a) (s_run a);
  im_active : active_fiber_ s = s_active a;
  im_impl : impl_ s = s_impl a;
  im_joins : joins_ s = s_joins a
}.

Lemma im_get s a f i : implements s a -> s_info a !! f = Some i -> exists w, heap s !! f = Some w /\ meta w = i.
Proof. intros Im Hi. rewrite <- (im_info _ _ Im) in Hi. unfold view in Hi. by apply lookup_fmap_Some in Hi as (w & <- & Hw); exists w. Qed.

Lemma im_lookup s a f : implements s a -> meta <$> heap s !! f = s_info a !! f.
Proof. intros Im. rewrite <- (im_info _ _ Im). unfold view. by rewrite lookup_fmap. Qed.

Lemma im_relinked s s' a wl rl : implements s a -> same_meta s s' -> queues s' wl rl -> implements s' (a_runq rl (a_wait wl a)).
Proof.
  intros Im M Q. pose proof M as (_ & ? & ? & ?). destruct Im. split; cbn; try congruence. by rewrite (same_meta_view s s').
Qed.

(** A write that keeps the links. *)
Lemma im_upd f g G s a i : implements s a -> s_info a !! f = Some i -> (forall w, meta (g w) = G (meta w)) ->
  (forall w, prev_ (g w) = prev_ w /\ nxt_ (g w) = nxt_ w /\ phead_ (g w) = phead_ w) ->
  exists s', upd f g s = Some s' /\ implements s' (a_upd f G a).
Proof.
  intros Im Hi Hm Hl. destruct (im_get _ _ _ _ Im Hi) as (w & Hw & Hwi). unfold upd. rewrite Hw. eexists. split; [done|].
  destruct Im. split; try done.
  - unfold view in *. cbn [heap set_heap a_upd a_info s_info]. rewrite fmap_insert, Hm, Hwi, im_info0. symmetry.
    apply map_eq. intros x. destruct (decide (x = f)) as [->|Hne];
      [by rewrite lookup_alter_eq, Hi, lookup_insert_eq|by rewrite lookup_alter_ne, lookup_insert_ne].
  - destruct (Hl w) as (Hp & Hn & Hq). eapply queues_same; [done|..]; try done; intros x; unfold link; cbn [heap set_heap];
      (destruct (decide (x = f)) as [->|Hne]; [rewrite lookup_insert_eq, Hw; cbn; congruence|by rewrite lookup_insert_ne]).
Qed.

(** ** Each operation is implemented *)

Lemma filter_all {A} (P : A -> Prop) `{forall x, Decision (P x)} (l : list A) : (forall x, x ∈ l -> P x) -> filter P l = l.
Proof. induction l as [|x l IH]; intros Hl; [done|]. rewrite filter_cons_True, IH; [done| |]; intros; apply Hl; by constructor. Qed.

Lemma filter_none {A} (P : A -> Prop) `{forall x, Decision (P x)} (l : list A) : (forall x, x ∈ l -> ~ P x) -> filter P l = [].
Proof. induction l as [|x l IH]; intros Hl; [done|]. rewrite filter_cons_False, IH; [done| |]; intros; apply Hl; by constructor. Qed.

Lemma to_front_app f l1 l2 : NoDup (l1 ++ f :: l2) -> to_front f (l1 ++ f :: l2) = f :: l1 ++ l2.
Proof.
  intros Hnd. unfold to_front. rewrite decide_True by (apply elem_of_app; right; by left). f_equal.
  apply NoDup_app in Hnd as (_ & H1 & [H2 _]%NoDup_cons). rewrite filter_app, filter_cons_False by naive_solver.
  rewrite !filter_all; [done| |]; intros x Hx ->; [done|]. apply (H1 f Hx). by left.
Qed.

Lemma to_front_absent f l : (f ∉ l) -> to_front f l = l.
Proof. intros Hf. unfold to_front. by rewrite decide_False. Qed.

Lemma sim_ready f s a i : implements s a -> s_info a !! f = Some i -> i_state i <> TERMINATED ->
  exists s', set_ready f s = Some s' /\ implements s' (a_ready f a).
Proof.
  intros Im Hi Hst. destruct (im_get _ _ _ _ Im Hi) as (w & Hw & <-). unfold set_ready, get. rewrite Hw. cbn [mbind option_bind].
  destruct (im_upd f (with_state READY) (i_set_state READY) s a (meta w)) as (s1 & E1 & Im1); [done..|]. rewrite E1. cbn [mbind option_bind].
  cbn [meta i_state] in Hst. pass. destruct (im_get s1 (a_upd f (i_set_state READY) a) f (i_set_state READY (meta w)) Im1) as (w1 & Hw1 & Hm1).
  { cbn. by rewrite lookup_alter_eq, Hi. }
  assert (state_ w1 <> RUNNING) as Hr by (apply (f_equal i_state) in Hm1; cbn in Hm1; congruence).
  pose proof (im_queues _ _ Im1) as Q1. cbn [s_wait s_run a_upd a_info] in Q1. unfold a_ready.
  destruct (decide (f ∈ s_wait a)) as [Hin|Hout].
  - pose proof (q_nodup _ _ _ Q1) as [Hnd _]%NoDup_app. apply list_elem_of_split in Hin as (l1 & l2 & El). rewrite El in *.
    destruct (move_to_run_spec f s1 w1 l1 l2 (s_run a) Q1 Hw1 Hr) as (s2 & E2 & Q2 & M2 & _). exists s2. split; [done|].
    rewrite to_front_app by done. by apply (im_relinked s1).
  - rewrite (move_to_run_absent f s1 w1 _ _ Q1 Hw1 Hr Hout). exists s1. split; [done|]. by rewrite to_front_absent.
Qed.

Lemma sim_push f s a i : implements s a -> s_info a !! f = Some i -> (f ∉ s_wait a) -> (f ∉ s_run a) ->
  exists s', push f s = Some s' /\ implements s' (a_push f a).
Proof.
  intros Im Hi Hw Hr. destruct (im_get _ _ _ _ Im Hi) as (w & Hf & <-).
  destruct (push_spec f s w _ _ (im_queues _ _ Im) Hf Hw Hr) as (s' & E & Q & M). exists s'. split; [done|].
  unfold a_push. rewrite Hi. rewrite (im_info _ _ Im) in Q. by apply (im_relinked s).
Qed.

Lemma sim_release f s a i : implements s a -> s_info a !! f = Some i -> i_count i <> O -> (i_count i = 1%nat -> i_state i = TERMINATED) ->
  (f ∉ s_wait a) -> (f ∉ s_run a) -> exists s', intrusive_ptr_release f s = Some s' /\ implements s' (a_release f a).
Proof.
  intros Im Hi Hc Ht Hw Hr. destruct (im_get _ _ _ _ Im Hi) as (w & Hf & <-). cbn [meta i_count i_state] in *.
  unfold intrusive_ptr_release, get, a_release. rewrite Hf, Hi. cbn [mbind option_bind meta i_count].
  rewrite assert_true by (destruct (Nat.eqb_spec (use_count_ w) 0); [done|done]). cbn [mbind option_bind].
  destruct (Nat.eqb_spec (use_count_ w) 1) as [E|E].
  - rewrite assert_true by (unfold is_terminated; rewrite bool_decide_true; auto). cbn [mbind option_bind]. eexists. split; [done|].
    destruct Im as [Iv Iq Ia Ii Ij]. split; try done; cbn.
    + unfold view in *. cbn. by rewrite fmap_delete, Iv.
    + assert (forall x, x ∈ s_wait a \/ x ∈ s_run a -> link (delete f (heap s)) x = link (heap s) x) as Hl.
      { intros x Hx. unfold link. rewrite lookup_delete_ne; [done|]. intros <-. tauto. }
      split; try apply Iq.
      * apply (dseg_frame (heap s)); [auto|apply Iq].
      * apply (dseg_frame (heap s)); [auto|apply Iq].
      * intros x wx Hx. cbn in Hx. apply lookup_delete_Some in Hx as [Hne Hx]. by apply (q_attached _ _ _ Iq).
      * intros x [wx Hx] Hx1 Hx2. cbn in *. apply lookup_delete_Some in Hx as [Hne Hx]. unfold link. rewrite lookup_delete_ne by done. apply (q_free _ _ _ Iq); eauto.
  - by apply (im_upd f (with_use_count (use_count_ w - 1)) (i_set_count (use_count_ w - 1)) s a (meta w)).
Qed.

(** ** The order of the waiting list *)

(** [f] may precede [g]: it is ready, or both wait and [f] not longer. *)
Definition before (m : gmap nat info) (f g : nat) : Prop :=
  forall i j, m !! f = Some i -> m !! g = Some j -> i_state i = READY \/ (i_state j = WAITING /\ i_tp i <= i_tp j).

Definition waiting_ok (m : gmap nat info) (f : nat) : Prop :=
  exists i, m !! f = Some i /\ (i_state i = READY \/ i_state i = WAITING) /\ i_tp i <= tp_max /\ i_requested i = false.

Lemma not_due_after now m f l : waiting_ok m f -> Forall (waiting_ok m) l -> Forall (before m f) l -> ~ due now m f ->
  forall g, g ∈ l -> ~ due now m g.
Proof.
  intros (i & Hi & Hst & _) Hl Hb Hf g Hg. rewrite Forall_forall in Hl, Hb. destruct (Hl g Hg) as (j & Hj & _).
  specialize (Hb g Hg i j Hi Hj). unfold due in *. rewrite Hi in Hf. rewrite Hj. intros [?|?]; apply Hf; [|].
  - destruct Hb as [?|[? _]]; [by left|congruence].
  - destruct Hb as [?|[? ?]]; [by left|right; lia].
Qed.

Lemma due_alter now m f g G : g <> f -> due now (alter G f m) g <-> due now m g.
Proof. intros Hne. unfold due. by rewrite lookup_alter_ne. Qed.

(** What is said of other fibers does not depend on [f]. *)
Lemma waiting_alter m f G l : (f ∉ l) -> Forall (waiting_ok m) l -> Forall (waiting_ok (alter G f m)) l.
Proof.
  intros Hf Hl. rewrite Forall_forall in *. intros x Hx. unfold waiting_ok. rewrite lookup_alter_ne by (by intros ->). by apply Hl.
Qed.

Lemma sorted_alter m f G l : (f ∉ l) -> StronglySorted (before m) l -> StronglySorted (before (alter G f m)) l.
Proof.
  intros Hf Hs. induction Hs as [|x l Hs IH Hb]; constructor; [apply IH; set_solver|].
  rewrite Forall_forall in *. intros y Hy i j. rewrite !lookup_alter_ne by set_solver. by apply Hb.
Qed.

(** [f] is at the head and is woken. *)
Definition a_wake (f : nat) (wl : list nat) (a : sched) : sched :=
  a_runq (s_run a ++ [f]) (a_wait wl (a_info (alter wake f (s_info a)) a)).

Lemma a_move_to_due now a f wl : s_wait a = f :: wl -> (f ∉ wl) -> due now (s_info a) f ->
  a_move_to now a = a_move_to now (a_wake f wl a).
Proof.
  intros Ew Hf Hd. unfold a_move_to, a_wake. cbn. rewrite Ew, filter_cons_True, (filter_cons_False (fun x => ~ due now _ x)) by tauto.
  assert (forall x, x ∈ wl -> due now (alter wake f (s_info a)) x <-> due now (s_info a) x) as Hdue.
  { intros x Hx. apply due_alter. by intros ->. }
  assert (filter (due now (alter wake f (s_info a))) wl = filter (due now (s_info a)) wl) as ->.
  { clear -Hdue. induction wl as [|x l IH]; [done|]. rewrite !filter_cons. rewrite IH by (intros; apply Hdue; by right).
    specialize (Hdue x ltac:(by left)). repeat case_decide; tauto. }
  assert (filter (fun x => ~ due now (alter wake f (s_info a)) x) wl = filter (fun x => ~ due now (s_info a) x) wl) as ->.
  { clear -Hdue. induction wl as [|x l IH]; [done|]. rewrite !filter_cons. rewrite IH by (intros; apply Hdue; by right).
    specialize (Hdue x ltac:(by left)). repeat case_decide; tauto. }
  unfold wake_all. cbn [foldl]. by rewrite <- app_assoc.
Qed.

Lemma a_move_to_none now a : (forall g, g ∈ s_wait a -> ~ due now (s_info a) g) -> a_move_to now a = a.
Proof.
  intros Hn. unfold a_move_to. rewrite (filter_none (due now (s_info a))) by done. rewrite filter_all by done.
  unfold wake_all. cbn. rewrite app_nil_r. by destruct a.
Qed.

Lemma alter_same (G : info -> info) f (m : gmap nat info) i : m !! f = Some i -> G i = i -> alter G f m = m.
Proof.
  intros Hi HG. apply map_eq. intros x. destruct (decide (x = f)) as [->|Hne];
    [by rewrite lookup_alter_eq, Hi; cbn; rewrite HG|by rewrite lookup_alter_ne].
Qed.

Lemma alter_alter (G H : info -> info) f (m : gmap nat info) : alter G f (alter H f m) = alter (fun i => G (H i)) f m.
Proof.
  apply map_eq. intros x. destruct (decide (x = f)) as [->|Hne]; [|by rewrite !lookup_alter_ne].
  rewrite !lookup_alter_eq. by destruct (m !! f).
Qed.

(** The test of [move_to] on the head of the queue. *)
Lemma sim_fetch now f wl s a : implements s a -> s_wait a = f :: wl -> waiting_ok (s_info a) f ->
  exists s', fetch_ready f now s = Some (bool_decide (due now (s_info a) f), s') /\
    implements s' (if decide (due now (s_info a) f) then a_upd f (i_set_state READY) a else a).
Proof.
  intros Im Ew (i & Hi & Hst & _ & Hrq). destruct (im_get _ _ _ _ Im Hi) as (w & Hw & <-). cbn in Hst, Hrq.
  unfold fetch_ready, get. rewrite Hw. cbn [mbind option_bind].
  rewrite !assert_true by (unfold is_running, is_terminated; apply negb_true_iff, bool_decide_false; intuition congruence). cbn [mbind option_bind].
  rewrite assert_true by (unfold is_running, is_terminated; apply negb_true_iff, bool_decide_false; intuition congruence). cbn [mbind option_bind].
  rewrite Hrq, orb_false_r. assert (due now (s_info a) f <-> state_ w = READY \/ tp_ w <= now) as Hdue by (unfold due; by rewrite Hi).
  destruct (tp_ w <=? now) eqn:Et; to_prop.
  - destruct (sim_ready f s a (meta w) Im Hi) as (s1 & E1 & Im1); [cbn; intuition congruence|]. rewrite E1. cbn [mbind option_bind].
    rewrite (decide_True (P := due _ _ _)), bool_decide_true by tauto.
    assert (a_ready f a = a_upd f (i_set_state READY) a) as Ea.
    { pose proof (q_nodup _ _ _ (im_queues _ _ Im)) as [Hnd _]%NoDup_app. pose proof (to_front_app f [] wl) as Ht. cbn [app] in Ht.
      unfold a_ready. rewrite Ew in Hnd |- *. rewrite Ht by done. rewrite <- Ew. done. }
    rewrite Ea in Im1. exists s1. split; [|done].
    destruct (im_get _ _ f (i_set_state READY (meta w)) Im1) as (w1 & Hw1 & Hm1); [cbn; by rewrite lookup_alter_eq, Hi|].
    rewrite Hw1. cbn [mbind option_bind]. apply (f_equal i_state) in Hm1. cbn in Hm1. unfold is_ready. by rewrite bool_decide_true.
  - cbn [mbind option_bind]. rewrite Hw. cbn [mbind option_bind]. exists s. unfold is_ready. destruct Hst as [Hst|Hst].
    + rewrite (decide_True (P := due _ _ _)), !bool_decide_true by tauto. split; [done|]. unfold a_upd.
      rewrite (alter_same _ f _ (meta w)); [by destruct a|done|]. unfold i_set_state, meta. cbn. by rewrite Hst.
    + assert (~ (state_ w = READY \/ tp_ w <= now)) as Hn by (intros [?|?]; [congruence|lia]).
      rewrite (decide_False (P := due _ _ _)), !bool_decide_false by (rewrite ?Hdue; intuition congruence). done.
Qed.

Lemma sim_wake fuel now f wl s a : implements s a -> s_wait a = f :: wl -> (exists i, s_info a !! f = Some i /\ i_state i = READY) ->
  exists s', (s ← assert (bool_decide (head_ s = Some f)) s;
    w ← get f s;
    let s := set_head (nxt_ w) s in
    s ← match nxt_ w with None => Some (set_tail None s) | Some h => upd h (with_prev None) s end;
    s ← upd f (with_next None) s;
    s ← upd f (with_prev None) s;
    s ← upd f (with_queue false) s;
    s ← upd f (with_tp tp_max) s;
    s ← awakened f s;
    move_to_loop fuel now (head wl) s) = move_to_loop fuel now (head wl) s' /\
  implements s' (a_runq (s_run a ++ [f]) (a_wait wl (a_upd f (i_set_tp tp_max) a))).
Proof.
  intros Im Ew (i & Hi & Hst). destruct (im_get _ _ _ _ Im Hi) as (w & Hw & <-). pose proof (im_queues _ _ Im) as Q. rewrite Ew in Q.
  rewrite assert_true by (rewrite (q_head _ _ _ Q); by apply bool_decide_true). cbn [mbind option_bind].
  unfold get. rewrite Hw. cbn [mbind option_bind].
  destruct (dequeue_spec f s w wl (s_run a) Q Hw) as (s1 & s2 & s3 & s4 & E1 & E2 & E3 & E4 & Q4 & M4).
  rewrite E1. cbn [mbind option_bind]. rewrite E2. cbn [mbind option_bind]. rewrite E3. cbn [mbind option_bind]. rewrite E4. cbn [mbind option_bind].
  pose proof (im_relinked _ _ _ _ _ Im M4 Q4) as Im4.
  destruct (im_upd f (with_tp tp_max) (i_set_tp tp_max) s4 _ (meta w) Im4) as (s5 & E5 & Im5); [done..|]. rewrite E5. cbn [mbind option_bind].
  destruct (im_get _ _ f (i_set_tp tp_max (meta w)) Im5) as (w5 & Hw5 & Hm5); [cbn; by rewrite lookup_alter_eq, Hi|].
  pose proof (q_nodup _ _ _ Q) as [Hf _]%NoDup_cons.
  destruct (awakened_spec f s5 w5 wl (s_run a) (im_queues _ _ Im5) Hw5) as (s6 & E6 & Q6 & M6 & _).
  - apply (f_equal i_state) in Hm5. cbn in *. congruence.
  - clear -Hf. set_solver.
  - clear -Hf. set_solver.
  - rewrite E6. cbn [mbind option_bind]. exists s6. split; [done|]. by apply (im_relinked _ _ _ _ _ Im5).
Qed.

Lemma sim_move_to_loop fuel now s a : implements s a -> Forall (waiting_ok (s_info a)) (s_wait a) ->
  StronglySorted (before (s_info a)) (s_wait a) -> (length (s_wait a) <= fuel)%nat ->
  exists s', move_to_loop fuel now (head (s_wait a)) s = Some s' /\ implements s' (a_move_to now a).
Proof.
  revert s a. induction fuel as [|fuel IH]; intros s a Im Hok Hs Hlen; destruct (s_wait a) as [|f wl] eqn:Ew; try (cbn in Hlen; lia).
  1,2: exists s; rewrite a_move_to_none; [done|]; rewrite Ew; intros g Hg; by apply not_elem_of_nil in Hg.
  apply Forall_cons in Hok as [Hf Hok]. apply StronglySorted_inv in Hs as [Hs Hb].
  pose proof (im_queues _ _ Im) as Q. rewrite Ew in Q. pose proof (q_nodup _ _ _ Q) as [[Hfw _]%not_elem_of_app _]%NoDup_cons.
  pose proof (q_wait _ _ _ Q) as [(w & Hw & _ & Hn)%link_Some _].
  destruct (sim_fetch now f wl s a Im Ew Hf) as (s1 & E1 & Im1).
  cbn [head move_to_loop]. assert (get f s = Some w) as -> by done. cbn [mbind option_bind]. rewrite E1. cbn [mbind option_bind]. rewrite Hn.
  destruct (decide (due now (s_info a) f)) as [Hd|Hd].
  - rewrite bool_decide_true by done. rewrite (a_move_to_due now a f wl Ew Hfw Hd).
    assert (match head wl with Some g => Some g | None => None end = head wl) as -> by (by destruct (head wl)).
    destruct (sim_wake fuel now f wl s1 _ Im1 Ew) as (s2 & E2 & Im2).
    { destruct Hf as (i & Hi & _). exists (i_set_state READY i). split; [|done]. cbn. by rewrite lookup_alter_eq, Hi. }
    assert (a_runq (s_run (a_upd f (i_set_state READY) a) ++ [f]) (a_wait wl (a_upd f (i_set_tp tp_max) (a_upd f (i_set_state READY) a))) = a_wake f wl a) as Ea.
    { unfold a_wake, a_upd, a_info, a_runq, a_wait. cbn. by rewrite alter_alter. }
    rewrite Ea in Im2. destruct (IH s2 (a_wake f wl a)) as (s' & E' & Im'); try done; cbn [a_wake s_info s_wait a_runq a_wait a_info].
    + by apply waiting_alter.
    + by apply sorted_alter.
    + cbn in Hlen. lia.
    + exists s'. split; [|done]. etransitivity; [exact E2|exact E'].
  - rewrite bool_decide_false by done. exists s1. split; [done|]. rewrite a_move_to_none; [done|]. rewrite Ew.
    intros g [->|Hg]%elem_of_cons; [done|]. by eapply not_due_after.
Qed.
