(* ===== verification/FiberSchedulerOk.v ===== *)
(** * The invariant of the scheduler

    Every fiber that lives is in one list or runs, the waiting list is ordered,
    reference counts are right, and a fiber that joins another waits until that
    one has ended. *)

From Stdlib Require Import Sorting.Sorted.
From stdpp Require Import gmap options.
From S2P Require Import Prelude FiberManager FiberQueues FiberScheduler.

(** ** The waiting list stays ordered *)

Lemma elem_of_place m t item l x : x ∈ place m t item l <-> x = item \/ x ∈ l.
Proof. rewrite place_perm. apply elem_of_cons. Qed.

Lemma place_sorted m item i wl : m !! item = Some i -> i_state i = WAITING -> StronglySorted (before m) wl ->
  Forall (waiting_ok m) wl -> StronglySorted (before m) (place m (i_tp i) item wl).
Proof.
  intros Hi Hw Hs Hok. induction Hs as [|f l Hs IH Hb]; cbn [place]; [by repeat constructor|].
  apply Forall_cons in Hok as [(j & Hj & Hst & _) Hok]. unfold waits_longer. rewrite Hj.
  destruct (negb _ && _) eqn:E; to_prop.
  - apply bool_decide_eq_false in H. assert (i_state j = WAITING) by tauto.
    constructor; [by constructor|]. rewrite Forall_forall in *. intros y [->|Hy]%elem_of_cons i' j' Hi' Hj'; simplify_eq; [by right|].
    destruct (Hb y Hy j j' Hj Hj') as [?|[? ?]]; [done|right; split; [done|lia]].
  - constructor; [by apply IH|]. rewrite Forall_forall in *. intros y [->|Hy]%elem_of_place; [|by apply Hb].
    intros i' j' Hi' Hj'. simplify_eq. destruct E as [E|E]; to_prop; [apply bool_decide_eq_true in E; by left|].
    right. split; [done|lia].
Qed.

Lemma snoc_sorted m l item : StronglySorted (before m) l -> Forall (fun f => before m f item) l -> StronglySorted (before m) (l ++ [item]).
Proof.
  intros Hs Hl. induction Hs as [|f l Hs IH Hb]; cbn [app]; [by repeat constructor|]. apply Forall_cons in Hl as [Hf Hl].
  constructor; [by apply IH|]. apply Forall_app. split; [done|]. by apply Forall_singleton.
Qed.

Lemma inserted_sorted m item i wl : m !! item = Some i -> waiting_ok m item -> StronglySorted (before m) wl ->
  Forall (waiting_ok m) wl -> StronglySorted (before m) (inserted m i item wl).
Proof.
  intros Hi (i' & Hi' & Hst & Htp & _) Hs Hok. simplify_eq. unfold inserted. case_bool_decide as Er.
  - constructor; [done|]. apply Forall_forall. intros y Hy i1 j1 H1 H2. simplify_eq. by left.
  - assert (i_state i = WAITING) by tauto. destruct (i_tp i =? tp_max) eqn:E; to_prop; [|by apply place_sorted].
    apply snoc_sorted; [done|]. eapply Forall_impl; [done|]. intros f (j & Hj & _ & Hjt & _) i1 j1 H1 H2. simplify_eq. right. split; [done|lia].
Qed.

Lemma filter_sorted m (P : nat -> Prop) `{forall x, Decision (P x)} l : StronglySorted (before m) l -> StronglySorted (before m) (filter P l).
Proof.
  intros Hs. induction Hs as [|f l Hs IH Hb]; [constructor|]. rewrite filter_cons. case_decide; [|done].
  constructor; [done|]. rewrite Forall_forall in *. intros y [_ Hy]%list_elem_of_filter. by apply Hb.
Qed.

Lemma sorted_mono (R R' : nat -> nat -> Prop) l : (forall x y, R x y -> R' x y) -> StronglySorted R l -> StronglySorted R' l.
Proof. intros HR Hs. induction Hs as [|x l Hs IH Hb]; constructor; [done|]. eapply Forall_impl; [done|]. auto. Qed.

(** ** The invariant *)

Record sched_ok (a : sched) : Prop := {
  ok_nodup : NoDup (s_wait a ++ s_run a);
  ok_active f : s_active a = Some f -> (f ∉ s_wait a) /\ (f ∉ s_run a) /\
    exists i, s_info a !! f = Some i /\ i_state i = RUNNING /\ i_tp i = tp_max;
  ok_wait : Forall (waiting_ok (s_info a)) (s_wait a);
  ok_sorted : StronglySorted (before (s_info a)) (s_wait a);
  ok_run f : f ∈ s_run a -> exists i, s_info a !! f = Some i /\ i_state i = READY /\ i_tp i = tp_max;
  ok_all f i : s_info a !! f = Some i ->
    i_requested i = false /\ (i_state i = TERMINATED \/ f ∈ s_wait a \/ f ∈ s_run a \/ s_active a = Some f);
  ok_impl f : f ∈ s_impl a -> is_Some (s_info a !! f);
  (* a fiber is counted for its object and, while it lives, for its stack *)
  ok_count f i : s_info a !! f = Some i ->
    i_count i = ((if decide (f ∈ s_impl a) then 1 else 0) + (if decide (i_state i = TERMINATED) then 0 else 1))%nat /\ i_count i <> O;
  (* a fiber that joins is ready once the other has ended and waits for it before *)
  ok_joins p g : s_joins a !! p = Some g -> g ∈ s_impl a /\ exists i j, s_info a !! p = Some i /\ s_info a !! g = Some j /\
    ((i_state j = TERMINATED /\ i_state i = READY) \/
     (i_state j <> TERMINATED /\ i_state i = WAITING /\ i_tp i = tp_max /\ i_joiners j = [p]));
  ok_joiners g j p : s_info a !! g = Some j -> p ∈ i_joiners j -> i_joiners j = [p] /\ s_joins a !! p = Some g;
  ok_once p p' g : s_joins a !! p = Some g -> s_joins a !! p' = Some g -> p = p'
}.

Lemma new_sched_ok : sched_ok new_sched.
Proof. split; try done; cbn; [apply NoDup_nil_2|constructor|set_solver]. Qed.

Lemma lookup_altered (G : info -> info) f (m : gmap nat info) x : alter G f m !! x = if decide (x = f) then G <$> m !! x else m !! x.
Proof. case_decide as E; [subst; apply lookup_alter_eq|by apply lookup_alter_ne]. Qed.

Lemma wait_not_run a (Ok : sched_ok a) f : f ∈ s_wait a -> f ∈ s_run a -> False.
Proof. pose proof (ok_nodup _ Ok) as (_ & Hd & _)%NoDup_app. apply Hd. Qed.

Lemma wait_info a (Ok : sched_ok a) f : f ∈ s_wait a -> waiting_ok (s_info a) f.
Proof. intros Hf. pose proof (ok_wait _ Ok) as Hw. rewrite Forall_forall in Hw. by apply Hw. Qed.

Lemma wait_state a (Ok : sched_ok a) f i : f ∈ s_wait a -> s_info a !! f = Some i -> i_state i = READY \/ i_state i = WAITING.
Proof. intros (j & Hj & Hst & _)%(wait_info a Ok) Hi. by simplify_eq. Qed.

Lemma run_state a (Ok : sched_ok a) f i : f ∈ s_run a -> s_info a !! f = Some i -> i_state i = READY /\ i_tp i = tp_max.
Proof. intros (j & Hj & Hst)%(ok_run _ Ok) Hi. by simplify_eq. Qed.

Lemma active_state a (Ok : sched_ok a) f i : s_active a = Some f -> s_info a !! f = Some i -> i_state i = RUNNING /\ i_tp i = tp_max.
Proof. intros (_ & _ & j & Hj & Hst)%(ok_active _ Ok) Hi. by simplify_eq. Qed.

Lemma terminated_out a (Ok : sched_ok a) f i : s_info a !! f = Some i -> i_state i = TERMINATED -> (f ∉ s_wait a) /\ (f ∉ s_run a) /\ s_active a <> Some f.
Proof.
  intros Hi Ht. split_and!; intros Hf; [destruct (wait_state a Ok _ _ Hf Hi)|destruct (run_state a Ok _ _ Hf Hi)|destruct (active_state a Ok _ _ Hf Hi)]; congruence.
Qed.

Lemma active_not_joining a (Ok : sched_ok a) f : s_active a = Some f -> s_joins a !! f = None.
Proof.
  intros Ha. destruct (s_joins a !! f) as [g|] eqn:E; [|done].
  destruct (ok_joins _ Ok f g E) as (_ & i & j & Hi & _ & H). destruct (active_state a Ok f i Ha Hi). destruct H as [[_ ?]|(_ & ? & _)]; congruence.
Qed.

Lemma not_joined_joiners a (Ok : sched_ok a) g j : map_Forall (fun _ g' => g' <> g) (s_joins a) -> s_info a !! g = Some j -> i_joiners j = [].
Proof.
  intros Hn Hj. destruct (i_joiners j) as [|p l] eqn:E; [done|]. destruct (ok_joiners _ Ok g j p Hj) as [_ Hp]; [rewrite E; by left|].
  by apply Hn in Hp.
Qed.

(** ** Every operation keeps the invariant *)

Lemma spawn_ok f a : sched_ok a -> s_info a !! f = None -> sched_ok (a_spawn f a).
Proof.
  intros Ok Hf. assert (f ∉ s_wait a) as Hw by (intros (i & Hi & _)%(wait_info a Ok); congruence).
  assert (f ∉ s_run a) as Hr by (intros (i & Hi & _)%(ok_run a Ok); congruence).
  assert (forall x i, <[f := mk_info 2 tp_max READY false []]> (s_info a) !! x = Some i ->
    (x = f /\ i = mk_info 2 tp_max READY false []) \/ (x <> f /\ s_info a !! x = Some i)) as Hl.
  { intros x i Hx. apply lookup_insert_Some in Hx. naive_solver. }
  assert (forall x i, s_info a !! x = Some i -> <[f := mk_info 2 tp_max READY false []]> (s_info a) !! x = Some i) as Hl'.
  { intros x i Hx. rewrite lookup_insert_ne; [done|]. congruence. }
  assert (f ∉ s_impl a) as Him by (intros [i Hi]%(ok_impl a Ok); congruence).
  split; cbn [a_spawn a_runq a_impl a_info s_info s_wait s_run s_active s_impl s_joins].
  - rewrite (assoc_L (++)). apply NoDup_app. split_and!; [apply Ok| |apply NoDup_singleton]. set_solver.
  - intros x (H1 & H2 & i & Hi & H3)%(ok_active a Ok). split_and!; [done| |by eauto].
    intros [?| ->%list_elem_of_singleton]%elem_of_app; [done|congruence].
  - eapply Forall_impl; [apply Ok|]. intros x (i & Hi & ?). exists i. eauto.
  - pose proof (ok_sorted a Ok) as Hs. pose proof (ok_wait a Ok) as Hok. revert Hok Hw. induction Hs as [|x l Hs IH Hb]; intros; [constructor|].
    apply Forall_cons in Hok as [_ Hok]. constructor; [apply IH; set_solver|]. rewrite Forall_forall in *. intros y Hy i j Hi Hj.
    rewrite lookup_insert_ne in Hi, Hj by set_solver. by apply (Hb y Hy).
  - intros x [(i & Hi & ?)%(ok_run a Ok)| ->%list_elem_of_singleton]%elem_of_app; [eauto|]. rewrite lookup_insert_eq. eauto.
  - intros x i [[-> ->]|[Hne Hx]]%Hl; [cbn; split; [done|right; right; left; set_solver]|].
    destruct (ok_all a Ok x i Hx) as [? H]. split; [done|]. set_solver.
  - intros x [ ->%elem_of_singleton|[i Hi]%(ok_impl a Ok)]%elem_of_union; [rewrite lookup_insert_eq; eauto|eauto].
  - intros x i [[-> ->]|[Hne Hx]]%Hl; cbn; [rewrite decide_True by set_solver; done|].
    destruct (ok_count a Ok x i Hx) as [-> Hc]. split; [|done].
    f_equal. destruct (decide (x ∈ s_impl a)), (decide (x ∈ {[f]} ∪ s_impl a)); set_solver.
  - intros p g (Hg & i & j & Hi & Hj & H)%(ok_joins a Ok). split; [set_solver|]. exists i, j. eauto.
  - intros g j p [[-> ->]|[Hne Hx]]%Hl; [by intros ?%not_elem_of_nil|]. by apply (ok_joiners a Ok).
  - apply Ok.
Qed.

(** One living fiber [f] changes its state, its deadline and its place, and the
    others keep theirs. *)
Definition keeps_rest (G : info -> info) (i : info) : Prop :=
  i_count (G i) = i_count i /\ i_requested (G i) = i_requested i /\ i_joiners (G i) = i_joiners i /\
  i_state i <> TERMINATED /\ i_state (G i) <> TERMINATED.

Definition others_stay (f : nat) (a a' : sched) : Prop :=
  (forall x, x <> f -> x ∈ s_wait a' <-> x ∈ s_wait a) /\ (forall x, x <> f -> x ∈ s_run a' <-> x ∈ s_run a) /\
  (forall x, x <> f -> s_active a' = Some x <-> s_active a = Some x) /\ s_impl a' = s_impl a /\ s_joins a' = s_joins a.

Definition placed (f : nat) (i : info) (a : sched) : Prop :=
  (f ∈ s_wait a /\ (f ∉ s_run a) /\ s_active a <> Some f /\ waiting_ok (s_info a) f) \/
  (f ∈ s_run a /\ (f ∉ s_wait a) /\ s_active a <> Some f /\ i_state i = READY /\ i_tp i = tp_max) \/
  (s_active a = Some f /\ (f ∉ s_wait a) /\ (f ∉ s_run a) /\ i_state i = RUNNING /\ i_tp i = tp_max).

Lemma moved_ok f G i a a' : sched_ok a -> s_info a !! f = Some i -> s_info a' = alter G f (s_info a) -> keeps_rest G i ->
  others_stay f a a' -> NoDup (s_wait a' ++ s_run a') -> StronglySorted (before (s_info a')) (s_wait a') -> placed f (G i) a' ->
  (s_joins a !! f = None \/ i_state i = READY /\ i_state (G i) = READY) -> sched_ok a'.
Proof.
  intros Ok Hi Ei (Hc & Hq & Hj & Ht & Ht') (Hw & Hr & Ha & Him & Hjo) Hnd Hs Hp Hjf.
  assert (s_info a' !! f = Some (G i)) as Hi' by (by rewrite Ei, lookup_alter_eq, Hi).
  assert (forall x, x <> f -> s_info a' !! x = s_info a !! x) as Hl by (intros x Hx; by rewrite Ei, lookup_alter_ne).
  split; rewrite ?Him, ?Hjo; try done.
  - intros x Hx. destruct (decide (x = f)) as [->|Hne]; [unfold placed in Hp; naive_solver|].
    rewrite (Hw x Hne), (Hr x Hne), (Hl x Hne). apply (ok_active a Ok). by apply Ha.
  - apply Forall_forall. intros x Hx. destruct (decide (x = f)) as [->|Hne]; [unfold placed in Hp; naive_solver|].
    unfold waiting_ok. rewrite (Hl x Hne). apply (wait_info a Ok). by apply Hw.
  - intros x Hx. destruct (decide (x = f)) as [->|Hne]; [exists (G i); unfold placed in Hp; naive_solver|].
    rewrite (Hl x Hne). apply (ok_run a Ok). by apply Hr.
  - intros x j Hx. destruct (decide (x = f)) as [->|Hne].
    + simplify_eq. rewrite Hq. split; [by eapply (ok_all a Ok)|]. unfold placed in Hp. naive_solver.
    + rewrite (Hl x Hne) in Hx. rewrite (Hw x Hne), (Hr x Hne), (Ha x Hne). by apply (ok_all a Ok).
  - intros x Hx. destruct (decide (x = f)) as [->|Hne]; [eauto|]. rewrite (Hl x Hne). by apply (ok_impl a Ok).
  - intros x j Hx. destruct (decide (x = f)) as [->|Hne]; [|rewrite (Hl x Hne) in Hx; by apply (ok_count a Ok)].
    simplify_eq. destruct (ok_count a Ok f i Hi) as [Hc1 Hc2]. rewrite Hc. split; [|done]. rewrite Hc1. f_equal.
    by rewrite !decide_False.
  - intros p g Hpg. destruct (ok_joins a Ok p g Hpg) as (Hg & ip & jg & Hip & Hjg & H).
    split; [done|]. assert (exists jg', s_info a' !! g = Some jg' /\ i_joiners jg' = i_joiners jg /\ (i_state jg' = TERMINATED <-> i_state jg = TERMINATED))
      as (jg' & Hjg' & Ejg & Etg).
    { destruct (decide (g = f)) as [->|Hne]; [|rewrite (Hl g Hne); by eauto].
      assert (jg = i) as -> by congruence. exists (G i). by split_and!; [done|done|tauto]. }
    rewrite <- Ejg in H. destruct (decide (p = f)) as [->|Hne]; [|rewrite (Hl p Hne); exists ip, jg'; rewrite Etg; auto].
    assert (ip = i) as -> by congruence. exists (G i), jg'. split_and!; [done|done|]. left. destruct Hjf as [?|[Hr1 Hr2]]; [congruence|].
    destruct H as [[? ?]|(? & ? & _)]; [tauto|congruence].
  - intros g j p Hg Hin. destruct (decide (g = f)) as [->|Hne]; [|rewrite (Hl g Hne) in Hg; by apply (ok_joiners a Ok g)].
    simplify_eq. rewrite Hj in *. by apply (ok_joiners a Ok f).
  - apply (ok_once a Ok).
Qed.

(** *** Waking *)

Lemma elem_of_to_front f l x : x ∈ to_front f l <-> x ∈ l.
Proof.
  unfold to_front. case_decide as Hf; [|done]. rewrite elem_of_cons, list_elem_of_filter.
  destruct (decide (x = f)) as [->|]; naive_solver.
Qed.

Lemma to_front_nodup f l rl : NoDup (l ++ rl) -> NoDup (to_front f l ++ rl).
Proof.
  intros Hnd. unfold to_front. case_decide as Hf; [|done]. apply list_elem_of_split in Hf as (l1 & l2 & ->).
  pose proof Hnd as [Hl _]%NoDup_app. pose proof (to_front_app f l1 l2 Hl) as E. unfold to_front in E.
  rewrite decide_True in E by set_solver. rewrite E. cbn [app].
  assert ((l1 ++ f :: l2) ++ rl ≡ₚ f :: (l1 ++ l2) ++ rl) as <-; [|done]. by rewrite <- (Permutation_middle l1 l2 f).
Qed.

Lemma front_sorted m f l : (exists i, m !! f = Some i /\ i_state i = READY) ->
  StronglySorted (before m) (filter (fun g => g <> f) l) -> (f ∈ l -> StronglySorted (before m) (to_front f l)).
Proof.
  intros (i & Hi & Hr) Hs Hf. unfold to_front. rewrite decide_True by done. constructor; [done|].
  apply Forall_forall. intros y _ i' j' Hi' _. simplify_eq. by left.
Qed.

Lemma ready_ok f i a : sched_ok a -> s_info a !! f = Some i -> i_state i = READY \/ i_state i = WAITING ->
  s_joins a !! f = None -> sched_ok (a_ready f a).
Proof.
  intros Ok Hi Hst Hj. eapply (moved_ok f (i_set_state READY)); [done|done|done| | | | | |by left].
  - split_and!; try done. by destruct Hst; congruence.
  - split_and!; try done. intros x _. apply elem_of_to_front.
  - apply to_front_nodup, Ok.
  - cbn [a_ready a_wait a_upd a_info s_wait s_info]. destruct (decide (f ∈ s_wait a)) as [Hf|Hf].
    + apply front_sorted; [exists (i_set_state READY i); by rewrite lookup_alter_eq, Hi| |done].
      apply sorted_alter; [by intros [? _]%list_elem_of_filter|]. apply filter_sorted, Ok.
    + rewrite to_front_absent by done. by apply sorted_alter, Ok.
  - destruct (ok_all a Ok f i Hi) as [Hq [?|[Hf|[Hf|Hf]]]]; [by destruct Hst; congruence|left|right; left|].
    + cbn. split_and!; [by apply elem_of_to_front|intros ?; by eapply (wait_not_run a Ok)|intros (? & _)%(ok_active a Ok); done|].
      destruct (wait_info a Ok f Hf) as (j & Hj' & _ & Htp & Hrq). exists (i_set_state READY i). rewrite lookup_alter_eq, Hi.
      simplify_eq. split_and!; [done|by left|done|done].
    + cbn. split_and!; [done|rewrite elem_of_to_front; intros ?; by eapply (wait_not_run a Ok)|intros (_ & ? & _)%(ok_active a Ok); done|done|].
      by eapply (run_state a Ok).
    + destruct (active_state a Ok f i Hf Hi). by destruct Hst; congruence.
Qed.

Lemma wake_ok now f wl a : sched_ok a -> now < tp_max -> s_wait a = f :: wl -> due now (s_info a) f -> sched_ok (a_wake f wl a).
Proof.
  intros Ok Hnow Ew Hd. assert (f ∈ s_wait a) as Hf by (rewrite Ew; by left). destruct (wait_info a Ok f Hf) as (i & Hi & Hst & _ & Hq).
  pose proof (ok_nodup a Ok) as Hnd. rewrite Ew in Hnd. cbn [app] in Hnd. apply NoDup_cons in Hnd as [[Hfw Hfr]%not_elem_of_app Hnd].
  unfold due in Hd. rewrite Hi in Hd.
  eapply (moved_ok f wake); [done|done|done| | | | | |].
  - split_and!; try done. by destruct Hst; congruence.
  - split_and!; try done; cbn; intros x Hx; [rewrite Ew; set_solver|set_solver].
  - cbn. rewrite (assoc_L (++)). apply NoDup_app. split_and!; [done| |apply NoDup_singleton]. set_solver.
  - cbn. apply sorted_alter; [done|]. pose proof (ok_sorted a Ok) as Hs. rewrite Ew in Hs. by apply StronglySorted_inv in Hs as [? _].
  - right; left. cbn. split_and!; try done; [set_solver|]. by intros (? & _)%(ok_active a Ok).
  - destruct (s_joins a !! f) as [g|] eqn:Ej; [right|by left].
    destruct (ok_joins a Ok f g Ej) as (_ & i' & j & Hi' & _ & [[_ ?]|(_ & ? & ? & _)]); simplify_eq; [done|].
    destruct Hd as [?|?]; [congruence|lia].
Qed.

Lemma move_to_ok now a : sched_ok a -> now < tp_max -> sched_ok (a_move_to now a).
Proof.
  intros Ok Hnow. remember (length (s_wait a)) as n eqn:En. revert a Ok En. induction n as [|n IH]; intros a Ok En.
  - rewrite a_move_to_none; [done|]. destruct (s_wait a); [|done]. intros g Hg%elem_of_nil. done.
  - destruct (s_wait a) as [|f wl] eqn:Ew; [done|]. pose proof (ok_nodup a Ok) as Hnd. rewrite Ew in Hnd. cbn [app] in Hnd.
    apply NoDup_cons in Hnd as [[Hfw _]%not_elem_of_app _]. destruct (decide (due now (s_info a) f)) as [Hd|Hd].
    + rewrite (a_move_to_due now a f wl) by done. apply IH; [by eapply wake_ok|]. cbn in *. lia.
    + rewrite a_move_to_none; [done|]. rewrite Ew. pose proof (ok_wait a Ok) as Hok. pose proof (ok_sorted a Ok) as Hs.
      rewrite Ew in Hok, Hs. apply Forall_cons in Hok as [Hf Hok]. apply StronglySorted_inv in Hs as [_ Hb].
      intros g [->|Hg]%elem_of_cons; [done|]. by eapply not_due_after.
Qed.

(** *** Suspending *)

(** The active fiber goes to the waiting list. *)
Lemma suspended_ok f G i a : sched_ok a -> s_active a = Some f -> s_info a !! f = Some i -> keeps_rest G i ->
  i_state (G i) = READY \/ i_state (G i) = WAITING -> i_tp (G i) <= tp_max ->
  sched_ok (a_active None (a_push f (a_upd f G a))).
Proof.
  intros Ok Ha Hi HG Hst Htp. destruct (ok_active a Ok f Ha) as (Hw & Hr & _).
  assert (s_info (a_upd f G a) !! f = Some (G i)) as Hi' by (cbn; by rewrite lookup_alter_eq, Hi).
  assert (waiting_ok (s_info (a_upd f G a)) f) as Hok.
  { exists (G i). destruct HG as (_ & Hq & _). split_and!; [done|done|done|]. rewrite Hq. by eapply (ok_all a Ok). }
  unfold a_push. rewrite Hi'. set (a' := a_active _ _).
  assert (s_wait a' ≡ₚ f :: s_wait a) as Hp by apply inserted_perm.
  apply (moved_ok f G i a); try done.
  - split_and!; try done.
    + intros x Hx. rewrite Hp, elem_of_cons. naive_solver.
    + intros x Hx. cbn. split; [done|]. rewrite Ha. congruence.
  - rewrite Hp. cbn [app a' a_active a_wait a_upd a_info s_run]. constructor; [|apply Ok]. by intros [?|?]%elem_of_app.
  - cbn [a' a_active a_wait s_info s_wait]. apply inserted_sorted; [done|done| |].
    + apply sorted_alter; [done|apply Ok].
    + apply waiting_alter; [done|apply Ok].
  - left. rewrite Hp. split_and!; [by left|done|done|done].
  - left. by apply (active_not_joining a Ok).
Qed.

Lemma suspend_alive f a i : s_info a !! f = Some i -> i_state i <> TERMINATED -> a_suspend f a = a_active None a.
Proof. intros Hi Ht. unfold a_suspend. rewrite Hi. cbn. rewrite decide_False; [done|]. congruence. Qed.

Lemma push_info f a : s_info (a_push f a) = s_info a.
Proof. unfold a_push. by destruct (s_info a !! f). Qed.

Lemma wait_until_ok t f a : sched_ok a -> s_active a = Some f -> t <= tp_max -> sched_ok (a_wait_until t f a).
Proof.
  intros Ok Ha Ht. destruct (ok_active a Ok f Ha) as (_ & _ & i & Hi & Hr & _). unfold a_wait_until.
  assert (a_upd f (i_set_tp t) (a_upd f (i_set_state WAITING) a) = a_upd f (fun i => i_set_tp t (i_set_state WAITING i)) a) as ->.
  { unfold a_upd. cbn. by rewrite alter_alter. }
  rewrite (suspend_alive f _ (i_set_tp t (i_set_state WAITING i))); [|by rewrite push_info; cbn; rewrite lookup_alter_eq, Hi|done].
  apply (suspended_ok f (fun i => i_set_tp t (i_set_state WAITING i)) i a); try done; [|by right].
  split_and!; try done. cbn. congruence.
Qed.

Lemma yield_ok f a : sched_ok a -> s_active a = Some f -> sched_ok (a_yield f a).
Proof.
  intros Ok Ha. destruct (ok_active a Ok f Ha) as (Hw & _ & i & Hi & Hr & Htp). unfold a_yield, a_ready.
  assert (a_wait (to_front f (s_wait a)) (a_upd f (i_set_state READY) a) = a_upd f (i_set_state READY) a) as ->.
  { by rewrite to_front_absent. }
  rewrite (suspend_alive f _ (i_set_state READY i)); [|by rewrite push_info; cbn; rewrite lookup_alter_eq, Hi|done].
  apply (suspended_ok f (i_set_state READY) i a); try done; [|by left|cbn; lia].
  split_and!; try done. cbn. congruence.
Qed.

(** *** Joining *)

(** Changes of who joins whom. *)
Lemma joiners_ok g j L J a : sched_ok a -> s_info a !! g = Some j ->
  (forall p, p ∈ L -> L = [p] /\ J !! p = Some g) ->
  (forall h i p, h <> g -> s_info a !! h = Some i -> p ∈ i_joiners i -> J !! p = Some h) ->
  (forall p h, J !! p = Some h -> h ∈ s_impl a /\ exists i k, s_info a !! p = Some i /\ s_info a !! h = Some k /\
    ((i_state k = TERMINATED /\ i_state i = READY) \/
     (i_state k <> TERMINATED /\ i_state i = WAITING /\ i_tp i = tp_max /\ (if decide (h = g) then L else i_joiners k) = [p]))) ->
  (forall p p' h, J !! p = Some h -> J !! p' = Some h -> p = p') ->
  sched_ok (a_joins J (a_upd g (i_set_joiners L) a)).
Proof.
  intros Ok Hj HL Hrest HJ Hinj.
  assert (forall x i', alter (i_set_joiners L) g (s_info a) !! x = Some i' -> exists i, s_info a !! x = Some i /\
    i_state i' = i_state i /\ i_tp i' = i_tp i /\ i_requested i' = i_requested i /\ i_count i' = i_count i /\
    i_joiners i' = (if decide (x = g) then L else i_joiners i)) as Hl.
  { intros x i'. rewrite lookup_altered. case_decide as E; [subst; rewrite Hj; intros [= <-]; by exists j|intros Hx; by exists i']. }
  assert (forall x i, s_info a !! x = Some i -> exists i', alter (i_set_joiners L) g (s_info a) !! x = Some i' /\
    i_state i' = i_state i /\ i_tp i' = i_tp i /\ i_requested i' = i_requested i /\
    i_joiners i' = (if decide (x = g) then L else i_joiners i)) as Hl'.
  { intros x i Hx. rewrite lookup_altered. case_decide as E; [subst; rewrite Hx; eexists; by split_and!|by exists i]. }
  split; cbn [a_joins a_upd a_info s_info s_wait s_run s_active s_impl s_joins].
  - apply Ok.
  - intros f (? & ? & i & Hi & Hs & Ht)%(ok_active a Ok). destruct (Hl' f i Hi) as (i' & Hi' & Es & Et & _).
    split_and!; try done. exists i'. by rewrite Es, Et.
  - eapply Forall_impl; [apply Ok|]. intros x (i & Hi & Hx). destruct (Hl' x i Hi) as (i' & Hi' & Es & Et & Eq & _).
    exists i'. by rewrite Es, Et, Eq.
  - eapply sorted_mono; [|apply Ok]. intros x y Hxy i' j' (i & Hi & Es & Et & _)%Hl (k & Hk & Es' & Et' & _)%Hl.
    rewrite Es, Et, Es', Et'. by apply Hxy.
  - intros f (i & Hi & Hs & Ht)%(ok_run a Ok). destruct (Hl' f i Hi) as (i' & Hi' & Es & Et & _). exists i'. by rewrite Es, Et.
  - intros f i' (i & Hi & Es & _ & Eq & _)%Hl. rewrite Es, Eq. by apply (ok_all a Ok).
  - intros f [i Hi]%(ok_impl a Ok). destruct (Hl' f i Hi) as (i' & Hi' & _). by exists i'.
  - intros f i' (i & Hi & Es & _ & _ & Ec & _)%Hl. rewrite Es, Ec. by apply (ok_count a Ok).
  - intros p h Hp. destruct (HJ p h Hp) as (Hh & i & k & Hi & Hk & H). split; [done|].
    destruct (Hl' p i Hi) as (i' & Hi' & Es & Et & _). destruct (Hl' h k Hk) as (k' & Hk' & Es' & _ & _ & Ej').
    exists i', k'. rewrite Es, Et, Es', Ej'. auto.
  - intros h k' p (k & Hk & _ & _ & _ & _ & Ej)%Hl. rewrite Ej. case_decide as E; [subst; apply HL|].
    intros Hp. split; [by eapply (ok_joiners a Ok)|by eapply Hrest].
  - done.
Qed.

Lemma unjoin_ok p g a : sched_ok a -> s_joins a !! p = Some g -> sched_ok (a_joins (delete p (s_joins a)) (a_upd g (i_set_joiners []) a)).
Proof.
  intros Ok Hp. destruct (ok_joins a Ok p g Hp) as (Hg & i & j & Hi & Hj & _). apply (joiners_ok g j); try done.
  - by intros q Hq%elem_of_nil.
  - intros h k q Hne Hk Hq. rewrite lookup_delete_ne; [by eapply (ok_joiners a Ok)|].
    intros <-. destruct (ok_joiners a Ok h k p Hk Hq) as [_ ?]. congruence.
  - intros q h [Hne Hq]%lookup_delete_Some. destruct (ok_joins a Ok q h Hq) as (Hh & x & k & Hx & Hk & H). split; [done|].
    exists x, k. rewrite decide_False; [done|]. intros ->. apply Hne. by eapply (ok_once a Ok).
  - intros q q' h [_ Hq]%lookup_delete_Some [_ Hq']%lookup_delete_Some. by eapply (ok_once a Ok).
Qed.

Lemma join_ok f g i j a : sched_ok a -> s_joins a !! f = None -> map_Forall (fun _ g' => g' <> g) (s_joins a) -> g ∈ s_impl a ->
  s_info a !! f = Some i -> s_info a !! g = Some j ->
  (i_state j = TERMINATED /\ i_state i = READY) \/ (i_state j <> TERMINATED /\ i_state i = WAITING /\ i_tp i = tp_max) ->
  sched_ok (a_joins (<[f := g]> (s_joins a)) (a_upd g (i_set_joiners (if decide (i_state j = TERMINATED) then [] else [f])) a)).
Proof.
  intros Ok Hf Hn Hg Hi Hj H. apply (joiners_ok g j); try done.
  - intros p. case_decide; [by intros ?%elem_of_nil|]. intros ->%list_elem_of_singleton. by rewrite lookup_insert_eq.
  - intros h k p Hne Hk Hp. destruct (ok_joiners a Ok h k p Hk Hp) as [_ Hp']. rewrite lookup_insert_ne; [done|]. congruence.
  - intros p h [[<- <-]|[Hne Hp]]%lookup_insert_Some.
    + split; [done|]. exists i, j. split_and!; [done|done|]. rewrite decide_True by done. destruct H as [?|(? & ? & ?)]; [by left|right].
      by rewrite decide_False.
    + destruct (ok_joins a Ok p h Hp) as (Hh & x & k & Hx & Hk & H'). split; [done|].
      exists x, k. rewrite decide_False; [done|]. by apply Hn in Hp.
  - intros p p' h [[<- <-]|[Hne Hp]]%lookup_insert_Some [[<- E]|[Hne' Hp']]%lookup_insert_Some; try done.
    + by apply Hn in Hp'.
    + subst. by apply Hn in Hp.
    + by eapply (ok_once a Ok).
Qed.

(** *** Ending *)

(** A fiber that is in no list and that nobody joins is freed. *)
Lemma drop_ok f act a : sched_ok a -> (f ∉ s_wait a) -> (f ∉ s_run a) -> s_joins a !! f = None ->
  map_Forall (fun _ g' => g' <> f) (s_joins a) -> act <> Some f -> (forall x, x <> f -> act = Some x <-> s_active a = Some x) ->
  sched_ok (mk_sched (delete f (s_info a)) (s_wait a) (s_run a) act (s_impl a ∖ {[f]}) (s_joins a)).
Proof.
  intros Ok Hw Hr Hf Hn Ha Hact.
  assert (forall x, x <> f -> delete f (s_info a) !! x = s_info a !! x) as Hl by (intros; by apply lookup_delete_ne).
  split; cbn [s_info s_wait s_run s_active s_impl s_joins].
  - apply Ok.
  - intros x Hx. assert (x <> f) as Hne by congruence. rewrite (Hl x Hne). apply (ok_active a Ok). by apply Hact.
  - apply Forall_forall. intros x Hx. unfold waiting_ok. rewrite Hl by (by intros ->). by apply (wait_info a Ok).
  - eapply sorted_mono; [|apply Ok]. intros x y Hxy i j [_ Hi]%lookup_delete_Some [_ Hj]%lookup_delete_Some. by apply Hxy.
  - intros x Hx. rewrite Hl by (by intros ->). by apply (ok_run a Ok).
  - intros x i [Hne Hi]%lookup_delete_Some. rewrite (Hact x) by done. by apply (ok_all a Ok).
  - intros x [Hx Hne]%elem_of_difference. rewrite Hl by set_solver. by apply (ok_impl a Ok).
  - intros x i [Hne Hi]%lookup_delete_Some. destruct (ok_count a Ok x i Hi) as [-> Hc]. split; [|done]. f_equal.
    destruct (decide (x ∈ s_impl a)), (decide (x ∈ s_impl a ∖ {[f]})); set_solver.
  - intros p g Hp. destruct (ok_joins a Ok p g Hp) as (Hg & i & j & Hi & Hj & H). pose proof (Hn p g Hp).
    split; [set_solver|]. exists i, j. rewrite !Hl by (congruence || done). done.
  - intros g j p [Hne Hj]%lookup_delete_Some. by apply (ok_joiners a Ok).
  - apply Ok.
Qed.

(** The count of a fiber, whether it has an object, whether it has ended. *)
Lemma counted_ok f G i act impl a : sched_ok a -> s_info a !! f = Some i -> i_requested (G i) = i_requested i ->
  i_tp (G i) = i_tp i -> i_joiners (G i) = i_joiners i ->
  (i_state (G i) = i_state i /\ act = s_active a) \/ (s_active a = Some f /\ act = None /\ i_state (G i) = TERMINATED) ->
  map_Forall (fun _ g' => g' <> f) (s_joins a) -> (forall x, x <> f -> x ∈ impl <-> x ∈ s_impl a) ->
  i_count (G i) = ((if decide (f ∈ impl) then 1 else 0) + (if decide (i_state (G i) = TERMINATED) then 0 else 1))%nat -> i_count (G i) <> O ->
  sched_ok (mk_sched (alter G f (s_info a)) (s_wait a) (s_run a) act impl (s_joins a)).
Proof.
  intros Ok Hi Hq Ht Hj Hst Hn Him Hc1 Hc2.
  assert (forall x, x <> f -> alter G f (s_info a) !! x = s_info a !! x) as Hl by (intros; by apply lookup_alter_ne).
  assert (alter G f (s_info a) !! f = Some (G i)) as Hf by (by rewrite lookup_alter_eq, Hi).
  assert (forall x, act = Some x -> s_active a = Some x /\ (x = f -> i_state (G i) = i_state i)) as Hact by (intros x Hx; destruct Hst as [[? ->]|(? & -> & ?)]; naive_solver).
  assert (f ∈ s_wait a \/ f ∈ s_run a -> i_state (G i) = i_state i) as Hlist.
  { intros Hx. destruct Hst as [[? _]|(Ha & _)]; [done|]. destruct (ok_active a Ok f Ha) as (? & ? & _). tauto. }
  split; cbn [s_info s_wait s_run s_active s_impl s_joins].
  - apply Ok.
  - intros x [Hx Hs]%Hact. destruct (ok_active a Ok x Hx) as (? & ? & k & Hk & Hks & Hkt). split_and!; try done.
    destruct (decide (x = f)) as [->|Hne]; [|rewrite (Hl x Hne); eauto]. exists (G i). simplify_eq. rewrite Ht, Hs by done. done.
  - apply Forall_forall. intros x Hx. destruct (wait_info a Ok x Hx) as (k & Hk & ? & ? & ?).
    destruct (decide (x = f)) as [->|Hne]; [|exists k; by rewrite (Hl x Hne)]. assert (k = i) as -> by congruence. exists (G i). rewrite Hf, Hq, Ht, Hlist by auto. done.
  - pose proof (ok_sorted a Ok) as Hs. pose proof (ok_wait a Ok) as Hok. destruct (decide (f ∈ s_wait a)) as [Hx|Hx]; [|by apply sorted_alter].
    specialize (Hlist (or_introl Hx)). assert (forall x i', alter G f (s_info a) !! x = Some i' ->
      exists k, s_info a !! x = Some k /\ i_state i' = i_state k /\ i_tp i' = i_tp k) as Hk.
    { intros x i'. rewrite lookup_altered. destruct (decide (x = f)) as [->|]; [rewrite Hi; intros [= <-]; eauto|eauto]. }
    eapply sorted_mono; [|done]. intros x y Hxy i' j' (k & H1 & -> & ->)%Hk (k' & H2 & -> & ->)%Hk. by apply Hxy.
  - intros x Hx. destruct (ok_run a Ok x Hx) as (k & Hk & ? & ?).
    destruct (decide (x = f)) as [->|Hne]; [|exists k; by rewrite (Hl x Hne)]. assert (k = i) as -> by congruence. exists (G i). rewrite Hf, Ht, Hlist by auto. done.
  - intros x k Hx. destruct (decide (x = f)) as [->|Hne].
    + simplify_eq. rewrite Hq. destruct (ok_all a Ok f i Hi) as [? H]. split; [done|]. destruct Hst as [[-> ->]|(_ & _ & ->)]; [done|by left].
    + rewrite (Hl x Hne) in Hx. destruct (ok_all a Ok x k Hx) as [? H]. split; [done|].
      destruct Hst as [[_ ->]|(Ha & _)]; [done|]. destruct H as [?|[?|[?|?]]]; [auto..|congruence].
  - intros x Hx. destruct (decide (x = f)) as [->|Hne]; [by eexists|]. rewrite (Hl x Hne). apply (ok_impl a Ok). by apply Him.
  - intros x k Hx. destruct (decide (x = f)) as [->|Hne]; [by simplify_eq|]. rewrite (Hl x Hne) in Hx.
    destruct (ok_count a Ok x k Hx) as [-> Hc]. split; [|done]. f_equal. specialize (Him x Hne).
    destruct (decide (x ∈ impl)), (decide (x ∈ s_impl a)); tauto.
  - intros p g Hp. destruct (ok_joins a Ok p g Hp) as (Hg & k & j & Hk & Hjg & H). pose proof (Hn p g Hp) as Hgf.
    split; [by apply Him|]. rewrite (Hl g Hgf). destruct (decide (p = f)) as [->|Hne]; [|exists k, j; by rewrite (Hl p Hne)].
    assert (k = i) as -> by congruence. exists (G i), j. assert (i_state (G i) = i_state i) as ->.
    { destruct Hst as [[? _]|(Ha & _)]; [done|]. apply (active_not_joining a Ok) in Ha. congruence. }
    rewrite Ht. done.
  - intros g j p Hg. destruct (decide (g = f)) as [->|Hne]; [|rewrite (Hl g Hne) in Hg; by apply (ok_joiners a Ok)].
    simplify_eq. rewrite Hj. intros Hp. by apply (ok_joiners a Ok).
  - apply Ok.
Qed.

(** *** The remaining operations *)

Lemma not_terminated_joined f i a : sched_ok a -> s_info a !! f = Some i -> i_state i <> TERMINATED -> i_joiners i = [] ->
  map_Forall (fun _ g' => g' <> f) (s_joins a).
Proof.
  intros Ok Hi Ht Hj p g Hp ->. destruct (ok_joins a Ok p f Hp) as (_ & _ & j & _ & Hj' & [[? _]|(_ & _ & _ & ?)]); simplify_eq; congruence.
Qed.

Lemma terminated_not_joining f i a : sched_ok a -> s_info a !! f = Some i -> i_state i = TERMINATED -> s_joins a !! f = None.
Proof.
  intros Ok Hi Ht. destruct (s_joins a !! f) as [g|] eqn:E; [|done].
  destruct (ok_joins a Ok f g E) as (_ & k & _ & Hk & _ & [[_ ?]|(_ & ? & _)]); simplify_eq; congruence.
Qed.

Lemma detach_ok g a : sched_ok a -> g ∈ s_impl a -> map_Forall (fun _ g' => g' <> g) (s_joins a) -> sched_ok (a_detach g a).
Proof.
  intros Ok Hg Hn. destruct (ok_impl a Ok g Hg) as [i Hi]. destruct (ok_count a Ok g i Hi) as [Hc Hc0].
  rewrite decide_True in Hc by done. unfold a_detach, a_release. cbn [a_impl s_info]. rewrite Hi, Hc.
  destruct (decide (i_state i = TERMINATED)) as [Ht|Ht]; cbn.
  - destruct (terminated_out a Ok g i Hi Ht) as (? & ? & ?). apply (drop_ok g (s_active a) a); try done. by eapply terminated_not_joining.
  - apply (counted_ok g (i_set_count 1) i (s_active a) (s_impl a ∖ {[g]}) a); try done; [by left|set_solver|]. rewrite !decide_False by (done || set_solver). done.
Qed.

Lemma terminate_ok f i a : sched_ok a -> s_active a = Some f -> s_info a !! f = Some i -> i_joiners i = [] ->
  sched_ok (a_suspend f (a_upd f (i_set_joiners []) (a_upd f (i_set_state TERMINATED) a))).
Proof.
  intros Ok Ha Hi Hj. destruct (ok_active a Ok f Ha) as (Hw & Hr & i' & Hi' & Hrun & _). simplify_eq.
  assert (map_Forall (fun _ g' => g' <> f) (s_joins a)) as Hn by (eapply not_terminated_joined; [done|done|congruence|done]).
  destruct (ok_count a Ok f i Hi) as [Hc Hc0]. rewrite (decide_False (P := i_state i = _)) in Hc by congruence.
  unfold a_suspend, a_release, a_upd. cbn [a_info s_info]. rewrite !alter_alter, lookup_alter_eq, Hi. cbn [fmap option_fmap option_map i_state i_set_joiners i_set_state i_count].
  rewrite decide_True by done. rewrite Hc. destruct (decide (f ∈ s_impl a)) as [Him|Him]; cbn.
  - rewrite alter_alter.
    apply (counted_ok f (fun i => i_set_count 1 (i_set_joiners [] (i_set_state TERMINATED i))) i None (s_impl a) a); try done; cbn; [by right|by rewrite decide_True].
  - assert (delete f (alter (fun i => i_set_joiners [] (i_set_state TERMINATED i)) f (s_info a)) = delete f (s_info a)) as ->.
    { apply map_eq. intros x. destruct (decide (x = f)) as [->|]; [by rewrite !lookup_delete_eq|by rewrite !lookup_delete_ne, lookup_alter_ne]. }
    pose proof (drop_ok f None a Ok Hw Hr (active_not_joining a Ok f Ha) Hn) as Hd.
    assert (s_impl a ∖ {[f]} = s_impl a) as E by set_solver. rewrite E in Hd. apply Hd; [done|]. intros x Hx. rewrite Ha. naive_solver.
Qed.

Lemma suspend_counted f k b : s_info b !! f = Some k -> i_state k = TERMINATED -> i_count k = 2%nat ->
  a_suspend f b = a_active None (a_upd f (i_set_count 1) b).
Proof. intros Hk Ht Hc. unfold a_suspend, a_release. rewrite Hk. cbn [fmap option_fmap option_map]. rewrite Ht, decide_True by done. by rewrite Hc. Qed.

Lemma return_ok f i a : sched_ok a -> s_active a = Some f -> s_info a !! f = Some i -> sched_ok (a_return f a).
Proof.
  intros Ok Ha Hi. destruct (active_state a Ok f i Ha Hi) as [Hrun _]. unfold a_return. cbn [a_upd a_info s_info]. rewrite lookup_alter_eq, Hi.
  cbn [fmap option_fmap option_map i_joiners i_set_state]. destruct (i_joiners i) as [|p l] eqn:El; [by eapply terminate_ok|].
  destruct (ok_joiners a Ok f i p Hi) as [El' Hp]; [rewrite El; by left|]. assert (l = []) as -> by congruence. cbn [foldl].
  destruct (ok_joins a Ok p f Hp) as (Him & k & j & Hk & Hj & H). assert (i_state k = WAITING) as Hkw by (destruct H as [[? _]|(_ & ? & _)]; congruence).
  assert (p <> f) as Hpf by congruence.
  destruct (ok_count a Ok f i Hi) as [Hc _]. rewrite decide_True, decide_False in Hc by congruence.
  (* without the join, [p] is woken, [f] ends, and the join is put back *)
  pose proof (unjoin_ok p f a Ok Hp) as Ok0. set (a0 := a_joins _ _) in Ok0.
  assert (s_info a0 !! p = Some k) as Hk0 by (cbn; by rewrite lookup_alter_ne).
  assert (sched_ok (a_ready p a0)) as Ok1 by (apply (ready_ok p k); [done|done|by right|cbn; apply lookup_delete_eq]). set (a1 := a_ready p a0) in *.
  assert (s_info a1 !! f = Some (i_set_joiners [] i)) as Hi1 by (cbn; by rewrite lookup_alter_ne, lookup_alter_eq, Hi).
  pose proof (terminate_ok f _ a1 Ok1 Ha Hi1 eq_refl) as Ok2.
  rewrite (suspend_counted f (i_set_state TERMINATED (i_set_joiners [] i))) in Ok2;
    [|cbn -[a1]; by rewrite !lookup_alter_eq, Hi1|done|exact Hc]. set (a2 := a_active None _) in Ok2.
  assert (s_info a2 !! f = Some (i_set_count 1 (i_set_state TERMINATED (i_set_joiners [] i)))) as Hi2 by (cbn -[a1]; by rewrite !lookup_alter_eq, Hi1).
  assert (s_info a2 !! p = Some (i_set_state READY k)) as Hk2 by (cbn; by rewrite !lookup_alter_ne, lookup_alter_eq, lookup_alter_ne, Hk by done).
  assert (map_Forall (fun _ g' => g' <> f) (s_joins a2)) as Hn2.
  { intros q g Hq ->. cbn in Hq. apply lookup_delete_Some in Hq as [Hne Hq]. by apply Hne, (ok_once a Ok p q f). }
  assert (s_joins a2 !! p = None) as Hp2 by (cbn; apply lookup_delete_eq).
  pose proof (join_ok p f _ _ a2 Ok2 Hp2 Hn2 Him Hk2 Hi2 (or_introl (conj eq_refl eq_refl))) as Ok3.
  rewrite (suspend_counted f (i_set_joiners [] (i_set_state TERMINATED i))); [|cbn; by rewrite lookup_alter_ne, !lookup_alter_eq, Hi|done|exact Hc].
  match goal with Ok3 : sched_ok ?x |- sched_ok ?y => assert (y = x) as ->; [|exact Ok3] end.
  cbn. unfold a_joins, a_active, a_upd, a_info. cbn. f_equal; [|by rewrite insert_delete_eq, insert_id].
  rewrite (decide_True (P := TERMINATED = TERMINATED)) by done. apply map_eq. intros x. rewrite !lookup_altered.
  destruct (decide (x = f)) as [->|]; [|by destruct (decide (x = p))]. destruct (decide (f = p)); [congruence|]. by rewrite Hi.
Qed.

Lemma join_step_ok g f a : sched_ok a -> s_active a = Some f -> f <> g -> g ∈ s_impl a -> map_Forall (fun _ g' => g' <> g) (s_joins a) ->
  sched_ok (a_join g f a).
Proof.
  intros Ok Ha Hne Hg Hn. destruct (ok_active a Ok f Ha) as (Hw & Hr & i & Hi & Hrun & Htp). destruct (ok_impl a Ok g Hg) as [j Hj].
  pose proof (not_joined_joiners a Ok g j Hn Hj) as Hjs. pose proof (active_not_joining a Ok f Ha) as Hfj.
  assert (sched_ok (a_active None (a_push f (a_upd f (i_set_state WAITING) a)))) as Ok1.
  { apply (suspended_ok f (i_set_state WAITING) i); try done; [|by right|cbn; lia]. split_and!; try done. cbn. congruence. }
  unfold a_join. set (a1 := a_push f _) in *. assert (s_info a1 = alter (i_set_state WAITING) f (s_info a)) as Ei by (unfold a1; by rewrite push_info).
  assert (s_info a1 !! f = Some (i_set_state WAITING i)) as Hi1 by (by rewrite Ei, lookup_alter_eq, Hi).
  assert (s_info a1 !! g = Some j) as Hj1 by (by rewrite Ei, lookup_alter_ne).
  assert (s_joins a1 = s_joins a /\ s_impl a1 = s_impl a) as [Ejo Eim] by (unfold a1, a_push; by case_match).
  rewrite Hj1. cbn [fmap option_fmap option_map]. destruct (decide (i_state j = TERMINATED)) as [Ht|Ht].
  - rewrite decide_True by congruence. set (b := a_active None a1) in Ok1.
    assert (sched_ok (a_ready f b)) as Ok2 by (apply (ready_ok f (i_set_state WAITING i)); [done|done|by right|cbn -[a1]; by rewrite Ejo]).
    pose proof (join_ok f g (i_set_state READY (i_set_state WAITING i)) j (a_ready f b) Ok2) as Ok3. cbn [a_ready a_wait a_upd a_info s_joins s_impl s_info b a_active] in Ok3.
    rewrite Ejo, Eim in Ok3. specialize (Ok3 Hfj Hn Hg). rewrite lookup_alter_eq, lookup_alter_ne, Hi1 in Ok3 by done.
    specialize (Ok3 eq_refl Hj1 (or_introl (conj Ht eq_refl))). rewrite decide_True in Ok3 by done.
    rewrite (suspend_alive f _ (i_set_state READY (i_set_state WAITING i))); [|cbn -[a1]; by rewrite lookup_alter_eq, Hi1|done].
    match goal with H : sched_ok ?x |- sched_ok ?y => assert (y = x) as ->; [|exact H] end.
    unfold a_joins, a_active, a_upd, a_info, a_ready, a_wait. cbn -[a1]. rewrite Ejo. f_equal. symmetry. apply (alter_same _ g _ j).
    + by rewrite lookup_alter_ne.
    + unfold i_set_joiners. rewrite <- Hjs. by destruct j.
  - rewrite decide_False by congruence.
    pose proof (join_ok f g (i_set_state WAITING i) j (a_active None a1) Ok1) as Ok2. cbn [s_joins s_impl s_info a_active] in Ok2.
    rewrite Ejo, Eim in Ok2. specialize (Ok2 Hfj Hn Hg Hi1 Hj1 (or_intror (conj Ht (conj eq_refl Htp)))). rewrite decide_False in Ok2 by done.
    rewrite (suspend_alive f _ (i_set_state WAITING i)); [|cbn -[a1]; by rewrite lookup_alter_ne, Hi1|done].
    match goal with H : sched_ok ?x |- sched_ok ?y => assert (y = x) as ->; [|exact H] end.
    unfold a_joins, a_active, a_upd, a_info. cbn -[a1]. rewrite Ejo. f_equal. apply map_eq. intros x. rewrite !lookup_altered.
    destruct (decide (x = g)) as [->|]; [|done]. rewrite Hj1. cbn. by rewrite Hjs.
Qed.

Lemma resume_ok f l a : sched_ok a -> s_active a = None -> s_run a = f :: l -> s_joins a !! f = None ->
  sched_ok (a_active (Some f) (a_upd f (i_set_state RUNNING) (a_runq l a))).
Proof.
  intros Ok Ha Er Hj. destruct (ok_run a Ok f) as (i & Hi & Hr & Htp); [rewrite Er; by left|].
  pose proof (ok_nodup a Ok) as Hnd. rewrite Er in Hnd. apply NoDup_app in Hnd as (Hn1 & Hn2 & [Hn3 Hn4]%NoDup_cons).
  assert (f ∉ s_wait a) as Hfw by (intros Hf; apply (Hn2 f Hf); by left).
  apply (moved_ok f (i_set_state RUNNING) i a); try done; cbn [a_active a_upd a_info a_runq s_wait s_run s_active s_info s_impl s_joins].
  - split_and!; try done. congruence.
  - split_and!; try done; cbn; intros x Hx; [rewrite Er; set_solver|rewrite Ha; naive_solver].
  - apply NoDup_app. split_and!; [done| |done]. intros x Hx Hl. apply (Hn2 x Hx). by right.
  - apply sorted_alter; [done|apply Ok].
  - right; right. done.
  - by left.
Qed.

Lemma run_ok now a : sched_ok a -> now < tp_max -> s_active a = None -> sched_ok (a_run now a).2.
Proof.
  intros Ok Hnow Ha. pose proof (move_to_ok now a Ok Hnow) as Ok1. unfold a_run. set (a1 := a_move_to now a) in *.
  destruct (s_run a1) as [|f l] eqn:Er; [done|]. cbn [snd]. unfold a_join_returns. cbn [a_active a_upd a_info a_runq s_joins].
  destruct (s_joins a1 !! f) as [g|] eqn:Ej; [|by apply resume_ok].
  destruct (ok_joins a1 Ok1 f g Ej) as (Hg & k & j & Hk & Hj & H). destruct (ok_run a1 Ok1 f) as (i & Hi & Hr & Htp); [rewrite Er; by left|].
  assert (i_state j = TERMINATED) as Ht by (destruct H as [[? _]|(_ & ? & _)]; congruence). assert (g <> f) as Hgf by congruence.
  destruct (terminated_out a1 Ok1 g j Hj Ht) as (Hgw & Hgr & _). destruct (ok_count a1 Ok1 g j Hj) as [Hc _]. rewrite !decide_True in Hc by done.
  (* the join ends, the fiber is resumed, the other one is freed *)
  pose proof (unjoin_ok f g a1 Ok1 Ej) as Ok2. pose proof (resume_ok f l _ Ok2 Ha Er (lookup_delete_eq _ _)) as Ok3.
  pose proof (drop_ok g (Some f) _ Ok3) as Ok4. cbn [a_joins a_active a_upd a_info a_runq s_info s_wait s_run s_active s_impl s_joins] in Ok4.
  unfold a_release. cbn [a_impl a_joins a_active a_upd a_info a_runq s_info s_impl s_joins]. rewrite lookup_alter_ne, Hj, Hc by done. cbn [Nat.add Nat.eqb].
  match goal with |- sched_ok ?y => assert (y = mk_sched (delete g (alter (i_set_state RUNNING) f (alter (i_set_joiners []) g (s_info a1)))) (s_wait a1) l (Some f) (s_impl a1 ∖ {[g]}) (delete f (s_joins a1))) as -> end.
  { unfold a_info, a_impl, a_joins, a_active, a_upd, a_runq. cbn -[a1]. f_equal. apply map_eq. intros x.
    destruct (decide (x = g)) as [->|]; [by rewrite !lookup_delete_eq|]. rewrite !lookup_delete_ne, !lookup_altered by done. by rewrite (decide_False (P := x = g)). }
  apply Ok4; try done.
  - rewrite Er in Hgr. by apply not_elem_of_cons in Hgr as [_ ?].
  - rewrite lookup_delete_ne by done. by eapply terminated_not_joining.
  - intros p h [Hne Hp]%lookup_delete_Some ->. by apply Hne, (ok_once a1 Ok1 f p g).
  - congruence.
Qed.
