(* ===== verification/FiberManagerSpec.v ===== *)
(** * [fiber_manager] implements the scheduler

    No assertion of the scheduler fails and no pointer dangles; what
    [fm_run] resumes is what the scheduler with lists resumes, and a fiber that
    is ready runs soon. *)

From Stdlib Require Import Sorting.Sorted.
From stdpp Require Import gmap options.
From S2P Require Import Prelude FiberManager FiberQueues FiberScheduler FiberSchedulerOk.

(** ** Parts of the operations *)

Lemma im_set_active x s a : implements s a -> implements (set_active x s) (a_active x a).
Proof. intros Im. split; try apply Im; [|done]. eapply queues_same; [apply Im|done..]. Qed.

Lemma im_set_joins x s a : implements s a -> implements (set_joins x s) (a_joins x a).
Proof. intros Im. split; try apply Im; [|done]. eapply queues_same; [apply Im|done..]. Qed.

Lemma im_set_impl x s a : implements s a -> implements (set_impl x s) (a_impl x a).
Proof. intros Im. split; try apply Im; [|done]. eapply queues_same; [apply Im|done..]. Qed.

Lemma sim_suspend f i s a : implements s a -> s_active a = Some f -> s_info a !! f = Some i ->
  (i_state i = TERMINATED -> i_count i <> O /\ (f ∉ s_wait a) /\ (f ∉ s_run a)) ->
  exists s', suspend s = Some s' /\ implements s' (a_suspend f a).
Proof.
  intros Im Ha Hi Ht. destruct (im_get _ _ _ _ Im Hi) as (w & Hw & <-). unfold suspend, a_suspend.
  rewrite (im_active _ _ Im), Ha. cbn [mbind option_bind]. unfold get. rewrite Hw. cbn [mbind option_bind]. rewrite Hi. cbn [fmap option_fmap option_map].
  unfold is_terminated. cbn [meta i_state] in *. destruct (decide (state_ w = TERMINATED)) as [E|E].
  - rewrite bool_decide_true, decide_True by congruence. destruct (Ht E) as (Hc & H1 & H2).
    destruct (sim_release f s a (meta w) Im Hi Hc) as (s1 & E1 & Im1); [done|done|done|]. rewrite E1. cbn [mbind option_bind].
    eexists. split; [done|]. by apply im_set_active.
  - rewrite bool_decide_false, decide_False by congruence. cbn [mbind option_bind]. eexists. split; [done|]. by apply im_set_active.
Qed.

Lemma sim_set_waiting f i s a : implements s a -> s_info a !! f = Some i -> i_state i = RUNNING ->
  exists s', set_waiting f s = Some s' /\ implements s' (a_upd f (i_set_state WAITING) a).
Proof.
  intros Im Hi Hr. destruct (im_get _ _ _ _ Im Hi) as (w & Hw & <-). cbn in Hr. unfold set_waiting, get. rewrite Hw. cbn [mbind option_bind]. pass.
  by apply (im_upd f (with_state WAITING) (i_set_state WAITING) s a (meta w)).
Qed.

(** ** The operations of a running fiber *)

Lemma sim_wait_until t f s a : sched_ok a -> implements s a -> s_active a = Some f ->
  exists s', fm_wait_until t s = Some s' /\ implements s' (a_wait_until t f a).
Proof.
  intros Ok Im Ha. destruct (ok_active a Ok f Ha) as (Hw & Hr & i & Hi & Hrun & _).
  unfold fm_wait_until. rewrite (im_active _ _ Im), Ha. cbn [mbind option_bind].
  destruct (sim_set_waiting f i s a Im Hi Hrun) as (s1 & E1 & Im1). rewrite E1. cbn [mbind option_bind].
  destruct (im_upd f (with_tp t) (i_set_tp t) s1 _ (i_set_state WAITING i) Im1) as (s2 & E2 & Im2); [cbn; by rewrite lookup_alter_eq, Hi|done|done|].
  rewrite E2. cbn [mbind option_bind].
  destruct (sim_push f s2 _ (i_set_tp t (i_set_state WAITING i)) Im2) as (s3 & E3 & Im3); [cbn; by rewrite !lookup_alter_eq, Hi|done|done|].
  rewrite E3. cbn [mbind option_bind].
  apply (sim_suspend f (i_set_tp t (i_set_state WAITING i)) s3); [done| |rewrite push_info; cbn; by rewrite !lookup_alter_eq, Hi|done].
  unfold a_push. cbn. by rewrite !lookup_alter_eq, Hi.
Qed.

Lemma sim_yield f s a : sched_ok a -> implements s a -> s_active a = Some f ->
  exists s', fm_yield s = Some s' /\ implements s' (a_yield f a).
Proof.
  intros Ok Im Ha. destruct (ok_active a Ok f Ha) as (Hw & Hr & i & Hi & Hrun & _).
  unfold fm_yield. rewrite (im_active _ _ Im), Ha. cbn [mbind option_bind].
  destruct (im_get _ _ _ _ Im Hi) as (w & Hf & <-). cbn in Hrun. unfold get. rewrite Hf. cbn [mbind option_bind]. pass.
  destruct (sim_ready f s a (meta w) Im Hi) as (s1 & E1 & Im1); [cbn; congruence|]. rewrite E1. cbn [mbind option_bind].
  assert (s_info (a_ready f a) !! f = Some (i_set_state READY (meta w))) as Hi1 by (cbn; by rewrite lookup_alter_eq, Hi).
  destruct (sim_push f s1 _ _ Im1 Hi1) as (s2 & E2 & Im2); [cbn; by rewrite to_front_absent|done|]. rewrite E2. cbn [mbind option_bind].
  apply (sim_suspend f (i_set_state READY (meta w)) s2); [done| |by rewrite push_info|done]. unfold a_push. by rewrite Hi1.
Qed.

Lemma sim_join g f s a : sched_ok a -> implements s a -> s_active a = Some f -> f <> g -> is_Some (s_info a !! g) ->
  exists s', fm_join g s = Some s' /\ implements s' (a_join g f a).
Proof.
  intros Ok Im Ha Hne [j Hj]. destruct (ok_active a Ok f Ha) as (Hw & Hr & i & Hi & Hrun & _).
  unfold fm_join. rewrite (im_active _ _ Im), Ha. cbn [mbind option_bind]. pass.
  destruct (sim_set_waiting f i s a Im Hi Hrun) as (s1 & E1 & Im1). rewrite E1. cbn [mbind option_bind].
  destruct (sim_push f s1 _ (i_set_state WAITING i) Im1) as (s2 & E2 & Im2); [cbn; by rewrite lookup_alter_eq, Hi|done|done|].
  rewrite E2. cbn [mbind option_bind]. unfold a_join. set (a2 := a_push _ _) in *.
  assert (s_info a2 !! f = Some (i_set_state WAITING i)) as Hi2 by (unfold a2; rewrite push_info; cbn; by rewrite lookup_alter_eq, Hi).
  assert (s_info a2 !! g = Some j) as Hj2 by (unfold a2; rewrite push_info; cbn; by rewrite lookup_alter_ne).
  assert (s_active a2 = Some f) as Ha2 by (unfold a2, a_push; by case_match).
  destruct (im_get _ _ _ _ Im2 Hj2) as (w & Hg & <-). unfold join, get. rewrite Hg. cbn [mbind option_bind]. rewrite Hj2. cbn [fmap option_fmap option_map meta i_state].
  unfold is_terminated. destruct (decide (state_ w = TERMINATED)) as [E|E].
  - rewrite bool_decide_true, decide_True by congruence. cbn [mbind option_bind].
    destruct (sim_ready f s2 a2 _ Im2 Hi2) as (s3 & E3 & Im3); [done|]. rewrite E3. cbn [mbind option_bind].
    apply (sim_suspend f (i_set_state READY (i_set_state WAITING i))); [|done|cbn; by rewrite lookup_alter_eq, Hi2|done].
    rewrite (im_joins _ _ Im3). by apply im_set_joins.
  - rewrite bool_decide_false, decide_False by congruence.
    destruct (im_upd g (with_waiting (waiting_ w ++ [f])) (fun i => i_set_joiners (waiting_ w ++ [f]) i) s2 a2 (meta w) Im2 Hj2) as (s3 & E3 & Im3); [done|done|].
    rewrite E3. cbn [mbind option_bind].
    assert (a_upd g (fun i => i_set_joiners (i_joiners i ++ [f]) i) a2 = a_upd g (fun i => i_set_joiners (waiting_ w ++ [f]) i) a2) as ->.
    { unfold a_upd. f_equal. apply map_eq. intros x. rewrite !lookup_altered. case_decide; [subst; by rewrite Hj2|done]. }
    apply (sim_suspend f (i_set_state WAITING i)); [|done|cbn; by rewrite lookup_alter_ne, Hi2|done].
    rewrite (im_joins _ _ Im3). by apply im_set_joins.
Qed.

Lemma sim_all_ready l s a : implements s a -> Forall (fun p => exists i, s_info a !! p = Some i /\ i_state i <> TERMINATED) l ->
  exists s', set_all_ready l s = Some s' /\ implements s' (foldl (fun a p => a_ready p a) a l).
Proof.
  revert s a. induction l as [|p l IH]; intros s a Im Hl; [by exists s|]. apply Forall_cons in Hl as [(i & Hi & Ht) Hl].
  destruct (sim_ready p s a i Im Hi Ht) as (s1 & E1 & Im1). cbn [set_all_ready foldl]. rewrite E1. cbn [mbind option_bind].
  apply IH; [done|]. eapply Forall_impl; [done|]. intros q (k & Hk & Hkt). cbn. rewrite lookup_altered.
  case_decide as E; [subst; rewrite Hk; by eexists|by eauto].
Qed.

Lemma ready_all_facts l f a : (f ∉ l) -> let a' := foldl (fun a p => a_ready p a) a l in
  s_info a' !! f = s_info a !! f /\ s_active a' = s_active a /\ (f ∈ s_wait a' <-> f ∈ s_wait a) /\ s_run a' = s_run a.
Proof.
  revert a. induction l as [|p l IH]; intros a Hf; [done|]. apply not_elem_of_cons in Hf as [Hp Hl]. cbn [foldl].
  destruct (IH (a_ready p a) Hl) as (-> & -> & -> & ->). cbn. rewrite lookup_alter_ne, elem_of_to_front by done. done.
Qed.

(** The fibers that join a running fiber. *)
Lemma joiners_alive f i a : sched_ok a -> s_active a = Some f -> s_info a !! f = Some i ->
  (f ∉ i_joiners i) /\ forall p, p ∈ i_joiners i -> i_joiners i = [p] /\ f ∈ s_impl a /\ s_joins a !! p = Some f /\
    exists k, s_info a !! p = Some k /\ i_state k = WAITING /\ i_tp k = tp_max.
Proof.
  intros Ok Ha Hi. destruct (active_state a Ok f i Ha Hi) as [Hr _].
  assert (forall p, p ∈ i_joiners i -> i_joiners i = [p] /\ f ∈ s_impl a /\ s_joins a !! p = Some f /\
    exists k, s_info a !! p = Some k /\ i_state k = WAITING /\ i_tp k = tp_max) as Hp.
  { intros p Hp. destruct (ok_joiners a Ok f i p Hi Hp) as [El Hj]. destruct (ok_joins a Ok p f Hj) as (Him & k & j & Hk & Hj' & H).
    split_and!; try done. exists k. destruct H as [[? _]|(_ & ? & ? & _)]; [congruence|done]. }
  split; [|done]. intros Hf. destruct (Hp f Hf) as (_ & _ & _ & k & Hk & ? & _). congruence.
Qed.

Lemma sim_return f s a : sched_ok a -> implements s a -> s_active a = Some f ->
  exists s', fiber_returns s = Some s' /\ implements s' (a_return f a).
Proof.
  intros Ok Im Ha. destruct (ok_active a Ok f Ha) as (Hw & Hr & i & Hi & Hrun & _). destruct (joiners_alive f i a Ok Ha Hi) as [Hself Hjs].
  unfold fiber_returns. rewrite (im_active _ _ Im), Ha. cbn [mbind option_bind].
  destruct (im_get _ _ _ _ Im Hi) as (w & Hf & <-). cbn in Hrun. unfold get at 1. rewrite Hf. cbn [mbind option_bind]. pass.
  destruct (im_upd f (with_state TERMINATED) (i_set_state TERMINATED) s a (meta w) Im Hi) as (s1 & E1 & Im1); [done|done|]. rewrite E1. cbn [mbind option_bind].
  unfold a_return. set (a1 := a_upd f (i_set_state TERMINATED) a) in *.
  assert (s_info a1 !! f = Some (i_set_state TERMINATED (meta w))) as Hi1 by (cbn; by rewrite lookup_alter_eq, Hi).
  destruct (im_get _ _ _ _ Im1 Hi1) as (w1 & Hf1 & Hm1). unfold release, get. rewrite Hf1. cbn [mbind option_bind].
  assert (waiting_ w1 = waiting_ w /\ state_ w1 = TERMINATED) as [-> Hst1] by (by inversion Hm1). pass.
  destruct (im_upd f (with_waiting []) (i_set_joiners []) s1 a1 _ Im1 Hi1) as (s2 & E2 & Im2); [done|done|]. rewrite E2. cbn [mbind option_bind].
  rewrite Hi1. cbn [i_joiners i_set_state meta]. set (a2 := a_upd f (i_set_joiners []) a1) in *.
  assert (s_info a2 !! f = Some (i_set_joiners [] (i_set_state TERMINATED (meta w)))) as Hi2 by (cbn -[a1]; by rewrite lookup_alter_eq, Hi1).
  destruct (sim_all_ready (waiting_ w) s2 a2 Im2) as (s3 & E3 & Im3).
  { apply Forall_forall. intros p Hp. destruct (Hjs p Hp) as (_ & _ & _ & k & Hk & Hks & _). exists k.
    assert (p <> f) by (by intros ->). cbn. rewrite !lookup_alter_ne by done. split; [done|congruence]. }
  rewrite E3. cbn [mbind option_bind]. destruct (ready_all_facts (waiting_ w) f a2 Hself) as (Ei & Ea & Ew & Er).
  eapply sim_suspend; [done|by rewrite Ea|by rewrite Ei|]. intros _. cbn. split; [by destruct (ok_count a Ok f _ Hi)|].
  rewrite Ew, Er. done.
Qed.

Lemma sim_spawn f s a : sched_ok a -> implements s a -> s_info a !! f = None ->
  exists s', fm_spawn f s = Some s' /\ implements s' (a_spawn f a).
Proof.
  intros Ok Im Hf. assert (heap s !! f = None) as Hh.
  { rewrite <- (im_lookup s a f Im) in Hf. by destruct (heap s !! f). }
  assert (f ∉ s_wait a) as Hw by (intros (i & Hi & _)%(wait_info a Ok); congruence).
  assert (f ∉ s_run a) as Hr by (intros (i & Hi & _)%(ok_run a Ok); congruence).
  unfold fm_spawn. pass. set (w := mk_worker_fiber 2 None None tp_max RUNNING false [] false).
  set (s1 := set_impl _ _). set (a1 := a_impl ({[f]} ∪ s_impl a) (a_info (<[f := meta w]> (s_info a)) a)).
  assert (implements s1 a1) as Im1.
  { pose proof (im_queues _ _ Im) as Q. assert (forall x, x <> f -> link (heap s1) x = link (heap s) x) as L.
    { intros x Hx. unfold link. cbn. by rewrite lookup_insert_ne. }
    split; cbn [s1 a1 a_impl a_info s_info s_wait s_run s_active s_impl s_joins set_impl set_heap active_fiber_ impl_ joins_]; try apply Im.
    - unfold view. cbn. rewrite fmap_insert. by rewrite <- (im_info _ _ Im).
    - split; try apply Q.
      + apply (dseg_frame (heap s)); [intros x Hx; apply L; by intros ->|apply Q].
      + apply (dseg_frame (heap s)); [intros x Hx; apply L; by intros ->|apply Q].
      + intros x wx Hx. cbn in Hx. apply lookup_insert_Some in Hx as [[<- <-]|[Hne Hx]]; [done|by apply (q_attached _ _ _ Q)].
      + intros x [wx Hx] Hx1 Hx2. cbn in Hx. apply lookup_insert_Some in Hx as [[<- <-]|[Hne Hx]].
        * unfold link. cbn. by rewrite lookup_insert_eq.
        * rewrite L by done. apply (q_free _ _ _ Q); by eauto.
    - by rewrite (im_impl _ _ Im). }
  destruct (sim_ready f s1 a1 (meta w) Im1) as (s2 & E2 & Im2); [cbn; by rewrite lookup_insert_eq|done|]. rewrite E2. cbn [mbind option_bind].
  assert (s_info (a_ready f a1) !! f = Some (mk_info 2 tp_max READY false [])) as Hi2 by (cbn; by rewrite lookup_alter_eq, lookup_insert_eq).
  destruct (im_get _ _ _ _ Im2 Hi2) as (w2 & Hw2 & Hm2). unfold get. rewrite Hw2. cbn [mbind option_bind].
  assert (state_ w2 = READY) as Hr2 by (by inversion Hm2). pose proof (im_active _ _ Im2) as Ha2. cbn in Ha2.
  assert (active_fiber_ s2 <> Some f) as Hna by (rewrite Ha2; intros (? & ? & i & Hi & _)%(ok_active a Ok); congruence). pass.
  pose proof (im_queues _ _ Im2) as Q2. cbn [a_ready a_wait s_wait s_run a_upd a_info a1 a_impl] in Q2. rewrite to_front_absent in Q2 by done.
  destruct (awakened_spec f s2 w2 _ _ Q2 Hw2 Hr2 Hw Hr) as (s3 & E3 & Q3 & M3 & _). exists s3. split; [done|].
  pose proof (im_relinked _ _ _ _ _ Im2 M3 Q3) as Im3. assert (a_spawn f a = a_runq (s_run a ++ [f]) (a_wait (s_wait a) (a_ready f a1))) as ->; [|done].
  unfold a_spawn, a_ready, a_runq, a_wait, a_impl, a_info, a_upd, a1. cbn. f_equal. apply map_eq. intros x.
  rewrite lookup_altered. case_decide as E; [subst; by rewrite !lookup_insert_eq|by rewrite !lookup_insert_ne].
Qed.

Lemma sim_detach g s a : sched_ok a -> implements s a -> g ∈ s_impl a -> exists s', detach g s = Some s' /\ implements s' (a_detach g a).
Proof.
  intros Ok Im Hg. destruct (ok_impl a Ok g Hg) as [i Hi]. unfold detach.
  rewrite assert_true by (rewrite (im_impl _ _ Im); by apply bool_decide_true). cbn [mbind option_bind]. rewrite (im_impl _ _ Im).
  pose proof (im_set_impl (s_impl a ∖ {[g]}) s a Im) as Im'. unfold a_detach. destruct (ok_count a Ok g i Hi) as [Hc Hc0]. rewrite decide_True in Hc by done.
  destruct (decide (i_state i = TERMINATED)) as [Ht|Ht].
  - destruct (terminated_out a Ok g i Hi Ht) as (? & ? & _). by apply (sim_release g _ _ i).
  - unfold intrusive_ptr_release, a_release, get. destruct (im_get _ _ g i Im' Hi) as (w & Hw & <-). rewrite Hw. cbn [s_info a_impl]. rewrite Hi. cbn [mbind option_bind].
    cbn [meta i_count] in *. rewrite Hc. cbn [Nat.eqb Nat.add negb]. rewrite assert_true by done. cbn [mbind option_bind].
    by apply (im_upd g (with_use_count 1) (i_set_count 1) _ _ (meta w) Im').
Qed.

Lemma sim_join_returns f g j s a : implements s a -> s_joins a !! f = Some g -> s_info a !! g = Some j -> i_state j = TERMINATED ->
  i_count j <> O -> (g ∉ s_wait a) -> (g ∉ s_run a) -> exists s', join_returns f s = Some s' /\ implements s' (a_join_returns f a).
Proof.
  intros Im Hf Hj Ht Hc Hw Hr. unfold join_returns, a_join_returns. rewrite (im_joins _ _ Im), Hf.
  destruct (im_get _ _ g j Im Hj) as (w & Hg & <-). cbn in Ht. unfold get. rewrite Hg. cbn [mbind option_bind]. pass.
  rewrite (im_joins _ _ Im), (im_impl _ _ Im). apply (sim_release g _ _ (meta w)); try done. by apply im_set_impl, im_set_joins.
Qed.

(** A ready fiber [f] at the head of the run list is resumed. *)
Lemma sim_resume f l s a : sched_ok a -> implements s a -> s_active a = None -> s_run a = f :: l ->
  exists s1 s2 s3, pick_next s = Some (Some f, s1) /\ fm_resume_ f s1 = Some s2 /\ join_returns f s2 = Some s3 /\
    implements s3 (a_join_returns f (a_active (Some f) (a_upd f (i_set_state RUNNING) (a_runq l a)))).
Proof.
  intros Ok Im Ha Er. pose proof (im_queues _ _ Im) as Q. rewrite Er in Q.
  destruct (pick_next_spec f s _ _ Q) as (s1 & E1 & Q1 & M1 & _). pose proof (im_relinked _ _ _ _ _ Im M1 Q1) as Im1.
  destruct (ok_run a Ok f) as (i & Hi & Hrdy & Htp); [rewrite Er; by left|].
  destruct (im_get _ _ f i Im1 Hi) as (w & Hw & <-). cbn in Hrdy.
  destruct (im_upd f (with_state RUNNING) (i_set_state RUNNING) s1 _ (meta w) Im1 Hi) as (s2 & E2 & Im2); [done|done|].
  apply (im_set_active (Some f)) in Im2. exists s1, (set_active (Some f) s2).
  assert (fm_resume_ f s1 = Some (set_active (Some f) s2)) as E2'.
  { unfold fm_resume_. assert (active_fiber_ s1 <> Some f) by (rewrite (im_active _ _ Im1); cbn; congruence). pass.
    unfold get. rewrite Hw. cbn [mbind option_bind]. pass. by rewrite E2. }
  set (a2 := a_active (Some f) (a_upd f (i_set_state RUNNING) (a_runq l a))).
  destruct (s_joins a !! f) as [g|] eqn:Ej.
  - destruct (ok_joins a Ok f g Ej) as (_ & k & j & Hk & Hj & H). assert (i_state j = TERMINATED) as Ht.
    { destruct H as [[? _]|(_ & Hk' & _)]; [done|]. simplify_eq. cbn in *. congruence. }
    assert (g <> f) as Hgf by (intros ->; simplify_eq; cbn in *; congruence).
    destruct (terminated_out a Ok g j Hj Ht) as (Hgw & Hgr & _). destruct (ok_count a Ok g j Hj) as [_ Hc].
    destruct (sim_join_returns f g j (set_active (Some f) s2) a2) as (s3 & E3 & Im3); [done|done| |done|done|done| |by exists s3].
    + cbn. by rewrite lookup_alter_ne.
    + cbn. rewrite Er in Hgr. by apply not_elem_of_cons in Hgr as [_ ?].
  - exists (set_active (Some f) s2). split_and!; [done|done| |].
    + unfold join_returns. rewrite (im_joins _ _ Im2). cbn. by rewrite Ej.
    + unfold a_join_returns. cbn [a2 a_active a_upd a_info a_runq s_joins]. by rewrite Ej.
Qed.

Lemma sim_run now s a : sched_ok a -> implements s a -> now < tp_max -> s_active a = None ->
  exists s', fm_run now s = Some ((a_run now a).1, s') /\ implements s' (a_run now a).2.
Proof.
  intros Ok Im Hnow Ha. unfold fm_run, a_run, move_to. rewrite (q_head _ _ _ (im_queues _ _ Im)).
  destruct (sim_move_to_loop (S (size (heap s))) now s a Im (ok_wait a Ok) (ok_sorted a Ok)) as (s1 & E1 & Im1).
  { pose proof (q_nodup _ _ _ (im_queues _ _ Im)) as [Hnd _]%NoDup_app. apply Nat.le_le_succ_r, queue_size; [done|].
    intros f Hf. eapply dseg_lookup; [apply (im_queues _ _ Im)|done]. }
  rewrite E1. cbn [mbind option_bind]. pose proof (move_to_ok now a Ok Hnow) as Ok1. destruct (s_run (a_move_to now a)) as [|f l] eqn:Er.
  - pose proof (im_queues _ _ Im1) as Q1. rewrite Er in Q1. rewrite (pick_next_none s1 _ Q1). cbn [mbind option_bind]. by exists s1.
  - destruct (sim_resume f l s1 _ Ok1 Im1 Ha Er) as (s2 & s3 & s4 & E2 & E3 & E4 & Im4).
    rewrite E2. cbn [mbind option_bind]. rewrite E3. cbn [mbind option_bind]. rewrite E4. cbn [mbind option_bind]. by exists s4.
Qed.

(** ** Every run *)

Lemma sim_step e s a : sched_ok a -> implements s a -> enabled e s -> exists s',
  step e s = Some ((a_step e a).1, s') /\ implements s' (a_step e a).2 /\ sched_ok (a_step e a).2.
Proof.
  intros Ok Im En. pose proof (im_active _ _ Im) as Ea. pose proof (im_joins _ _ Im) as Ej. pose proof (im_impl _ _ Im) as Ei.
  destruct e as [f|now|f|t| |g| |g]; cbn [enabled step a_step] in *.
  - assert (s_info a !! f = None) as Hf by (rewrite <- (im_lookup s a f Im); by rewrite En).
    destruct (sim_spawn f s a Ok Im Hf) as (s' & -> & Im'). exists s'. split_and!; [done|done|by apply spawn_ok].
  - destruct En as [Ha Hnow]. rewrite Ea in Ha. destruct (sim_run now s a Ok Im Hnow Ha) as (s' & E & Im').
    exists s'. split_and!; [done|done|by apply run_ok].
  - destruct En as [Hj Hst]. rewrite Ej in Hj. assert (exists i, s_info a !! f = Some i /\ (i_state i = READY \/ i_state i = WAITING)) as (i & Hi & Hs).
    { pose proof (im_lookup s a f Im) as El. destruct (heap s !! f) as [w|]; cbn in *; [|naive_solver]. exists (meta w). split; [done|].
      destruct Hst as [[= ?]|[= ?]]; [by left|by right]. }
    destruct (sim_ready f s a i Im Hi) as (s' & -> & Im'); [destruct Hs; congruence|]. exists s'. split_and!; [done|done|by eapply ready_ok].
  - destruct En as [[f Hf] Ht]. rewrite Ea in Hf. rewrite Hf. destruct (sim_wait_until t f s a Ok Im Hf) as (s' & -> & Im').
    exists s'. split_and!; [done|done|by apply wait_until_ok].
  - destruct En as [f Hf]. rewrite Ea in Hf. rewrite Hf. destruct (sim_yield f s a Ok Im Hf) as (s' & -> & Im').
    exists s'. split_and!; [done|done|by apply yield_ok].
  - destruct En as ([f Hf] & Hne & Hg & Hn). rewrite Ea in *. rewrite Ei in Hg. unfold not_joined in Hn. rewrite Ej in Hn. rewrite Hf in *.
    assert (f <> g) as Hfg by congruence. destruct (sim_join g f s a Ok Im Hf Hfg (ok_impl a Ok g Hg)) as (s' & -> & Im').
    exists s'. split_and!; [done|done|by apply join_step_ok].
  - destruct En as [f Hf]. rewrite Ea in Hf. rewrite Hf. destruct (sim_return f s a Ok Im Hf) as (s' & -> & Im').
    destruct (ok_active a Ok f Hf) as (_ & _ & i & Hi & _). exists s'. split_and!; [done|done|by eapply return_ok].
  - destruct En as [Hg Hn]. rewrite Ei in Hg. unfold not_joined in Hn. rewrite Ej in Hn.
    destruct (sim_detach g s a Ok Im Hg) as (s' & -> & Im'). exists s'. split_and!; [done|done|by apply detach_ok].
Qed.

(** What the scheduler with lists does on the same events. *)
Definition a_next (x : list nat * sched) (e : event) : list nat * sched :=
  (x.1 ++ option_list (a_step e x.2).1, (a_step e x.2).2).
Definition a_trace (es : list event) (a : sched) : list nat * sched := foldl a_next ([], a) es.

Lemma new_implements : implements new_manager new_sched.
Proof. split; try done. apply new_queues. Qed.

Lemma sim_runs s0 a0 es fs s : sched_ok a0 -> implements s0 a0 -> runs s0 es fs s ->
  fs = (a_trace es a0).1 /\ implements s (a_trace es a0).2 /\ sched_ok (a_trace es a0).2.
Proof.
  intros Ok0 Im0 H. induction H as [|es fs s e o s' H (-> & Im & Ok) En E]; [done|].
  destruct (sim_step e s _ Ok Im En) as (s1 & E1 & Im1 & Ok1). rewrite E in E1. injection E1 as -> ->.
  unfold a_trace. rewrite foldl_app. done.
Qed.

Lemma reachable_implements es fs s : runs new_manager es fs s -> exists a, implements s a /\ sched_ok a /\ a_trace es new_sched = (fs, a).
Proof.
  intros H. destruct (sim_runs _ _ _ _ _ new_sched_ok new_implements H) as (-> & Im & Ok). eexists. split_and!; [done|done|].
  by destruct (a_trace es new_sched).
Qed.

(** C18: The scheduler implements one without pointers.  After any sequence of
    events in which each is one that the code promises to allow, the two linked
    lists through the fibers are those of a scheduler that keeps two lists and
    wakes every fiber of the waiting list that is ready or due; the same fibers
    have been resumed, and no event that may come next fails: no assertion is
    violated and no null or dangling pointer is used. *)
Theorem scheduler_refines_lists es fs s : runs new_manager es fs s ->
  exists a, a_trace es new_sched = (fs, a) /\ queues s (s_wait a) (s_run a) /\ view s = s_info a /\
    (forall e, enabled e s -> is_Some (step e s)).
Proof.
  intros H. destruct (reachable_implements es fs s H) as (a & Im & Ok & E). exists a. split_and!; [done|apply Im|apply Im|].
  intros e En. destruct (sim_step e s a Ok Im En) as (s' & -> & _). done.
Qed.

(** ** Waking in time *)

Lemma wake_all_other l f m : (f ∉ l) -> wake_all l m !! f = m !! f.
Proof.
  revert m. induction l as [|g l IH]; intros m Hf; [done|]. apply not_elem_of_cons in Hf as [Hne Hf].
  unfold wake_all in *. cbn [foldl]. rewrite IH by done. by apply lookup_alter_ne.
Qed.

(** What waits after [fm_run] waited before, and was not due. *)
Lemma run_waiting now a f : sched_ok a -> now < tp_max -> s_active a = None -> f ∈ s_wait (a_run now a).2 ->
  ~ due now (s_info a) f /\ s_info (a_run now a).2 !! f = s_info a !! f.
Proof.
  intros Ok Hnow Ha. pose proof (move_to_ok now a Ok Hnow) as Ok1. unfold a_run. set (a1 := a_move_to now a) in *.
  assert (f ∈ s_wait a1 -> ~ due now (s_info a) f /\ s_info a1 !! f = s_info a !! f) as H1.
  { intros [Hd _]%list_elem_of_filter. split; [done|]. apply wake_all_other. by intros [? _]%list_elem_of_filter. }
  destruct (s_run a1) as [|h l] eqn:Er; cbn [snd]; [done|]. unfold a_join_returns. cbn [a_active a_upd a_info a_runq s_joins].
  assert (f ∈ s_wait a1 -> f <> h) as Hne by (intros Hf ->; eapply (wait_not_run a1 Ok1); [done|rewrite Er; by left]).
  destruct (s_joins a1 !! h) as [g|] eqn:Ej.
  - destruct (ok_joins a1 Ok1 h g Ej) as (Hg & k & j & Hk & Hj & H). destruct (ok_run a1 Ok1 h) as (i & Hi & Hr & _); [rewrite Er; by left|].
    assert (i_state j = TERMINATED) as Ht by (destruct H as [[? _]|(_ & ? & _)]; congruence).
    assert (f ∈ s_wait a1 -> f <> g) as Hng by (intros Hf ->; by destruct (terminated_out a1 Ok1 g j Hj Ht) as (? & _)).
    unfold a_release. cbn [a_impl a_joins a_active a_upd a_info a_runq s_info s_wait]. rewrite lookup_alter_ne, Hj by congruence.
    destruct (i_count j =? 1)%nat; cbn -[a1]; intros Hf; destruct (H1 Hf) as [Hd <-]; (split; [done|]).
    + rewrite lookup_delete_ne, lookup_alter_ne; [done|apply not_eq_sym; auto..].
    + rewrite !lookup_alter_ne; [done|apply not_eq_sym; auto..].
  - cbn -[a1]. intros Hf. destruct (H1 Hf) as [Hd <-]. split; [done|]. apply lookup_alter_ne. apply not_eq_sym; auto.
Qed.

(** No wake-up is lost.  The waiting queue is searched only up to the first
    fiber that is not due, yet after [fm_run] at time [now] every fiber that
    waits has a deadline later than [now], every fiber that is ready has left
    the waiting queue for the run queue, and if no fiber was resumed none is
    ready. *)
Theorem no_wakeup_lost es fs s now o s' f w : runs new_manager es fs s -> active_fiber_ s = None -> now < tp_max ->
  fm_run now s = Some (o, s') -> heap s' !! f = Some w ->
  (state_ w = WAITING -> now < tp_ w) /\ (state_ w = READY -> phead_ w = false /\ o <> None).
Proof.
  intros H Ha Hnow E Hw. destruct (reachable_implements es fs s H) as (a & Im & Ok & _). rewrite (im_active _ _ Im) in Ha.
  destruct (sim_run now s a Ok Im Hnow Ha) as (s1 & E1 & Im1). rewrite E in E1. injection E1 as -> ->.
  pose proof (run_ok now a Ok Hnow Ha) as Ok1. pose proof (run_waiting now a f Ok Hnow Ha) as Hrw.
  assert (s_info (a_run now a).2 !! f = Some (meta w)) as Hi by (rewrite <- (im_lookup _ _ f Im1); by rewrite Hw).
  assert (f ∈ s_wait (a_run now a).2 -> state_ w = WAITING /\ now < tp_ w) as Hlate.
  { intros Hf. destruct (Hrw Hf) as [Hd Ei]. rewrite Hi in Ei. unfold due in Hd. rewrite <- Ei in Hd. cbn in Hd.
    destruct (wait_state _ Ok1 f _ Hf Hi) as [Hx|Hx]; cbn in Hx; [tauto|]. split; [done|]. lia. }
  destruct (ok_all _ Ok1 f _ Hi) as [_ Hp]. cbn in Hp. split; intros Hs.
  - destruct Hp as [?|[Hf|[Hf|Hf]]]; [congruence|by apply Hlate| |].
    + destruct (run_state _ Ok1 f _ Hf Hi) as [Hx _]. cbn in Hx. congruence.
    + destruct (active_state _ Ok1 f _ Hf Hi) as [Hx _]. cbn in Hx. congruence.
  - assert (f ∉ s_wait (a_run now a).2) as Hnw by (intros [? _]%Hlate; congruence). split.
    + apply not_true_iff_false. by rewrite (q_attached _ _ _ (im_queues _ _ Im1) f w Hw).
    + destruct Hp as [?|[?|[Hf|Hf]]]; [congruence|done| |].
      * revert Hf. unfold a_run. destruct (s_run (a_move_to now a)) as [|h l] eqn:Er; cbn [fst snd]; [|done]. rewrite Er. by intros ?%elem_of_nil.
      * destruct (active_state _ Ok1 f _ Hf Hi) as [Hx _]. cbn in Hx. congruence.
Qed.

(** ** Fairness *)

Definition is_run (e : event) : bool := match e with Ev_run _ => true | _ => false end.
Definition count_runs (es : list event) : nat := length (List.filter is_run es).

Lemma release_run g a : s_run (a_release g a) = s_run a.
Proof. unfold a_release. by repeat case_match. Qed.

Lemma suspend_run f a : s_run (a_suspend f a) = s_run a.
Proof. unfold a_suspend. case_decide; [apply release_run|done]. Qed.

Lemma push_run f a : s_run (a_push f a) = s_run a.
Proof. unfold a_push. by case_match. Qed.

Lemma ready_all_run l a : s_run (foldl (fun a p => a_ready p a) a l) = s_run a.
Proof. revert a. induction l as [|p l IH]; intros a; [done|]. cbn [foldl]. by rewrite IH. Qed.

Lemma run_queue_run now a : option_list (a_run now a).1 ++ s_run (a_run now a).2 = s_run a ++ filter (due now (s_info a)) (s_wait a) /\
  (s_run a <> [] -> (a_run now a).1 <> None).
Proof.
  unfold a_run. change (s_run a ++ filter (due now (s_info a)) (s_wait a)) with (s_run (a_move_to now a)).
  destruct (s_run (a_move_to now a)) as [|h l] eqn:Er; cbn [fst snd option_list app].
  - split; [done|]. intros Hne. cbn in Er. by apply app_eq_nil in Er as [? _].
  - split; [|done]. f_equal. unfold a_join_returns. case_match; [by rewrite release_run|done].
Qed.

Lemma run_queue_other e a : is_run e = false -> (a_step e a).1 = None /\ exists new, s_run (a_step e a).2 = s_run a ++ new.
Proof.
  assert (s_run a = s_run a ++ []) as E by (by rewrite app_nil_r).
  intros He. destruct e as [f|now|f|t| |g| |g]; try done; cbn [a_step].
  - split; [done|]. by exists [f].
  - split; [done|]. by exists [].
  - destruct (s_active a); (split; [done|]); exists []; [|done]. unfold a_wait_until. cbn [snd]. by rewrite suspend_run, push_run.
  - destruct (s_active a); (split; [done|]); exists []; [|done]. unfold a_yield. cbn [snd]. by rewrite suspend_run, push_run.
  - destruct (s_active a); (split; [done|]); exists []; [|done]. unfold a_join. cbn [snd]. rewrite suspend_run. cbn [a_joins s_run].
    case_decide; cbn [a_ready a_wait a_upd a_info s_run]; by rewrite push_run.
  - destruct (s_active a); (split; [done|]); exists []; [|done]. unfold a_return. cbn [snd]. by rewrite suspend_run, ready_all_run.
  - split; [done|]. exists []. unfold a_detach. cbn [snd]. by rewrite release_run.
Qed.

(** The run list is a queue, and every [fm_run] takes one fiber from it. *)
Lemma trace_queue es a f : f ∈ s_run a -> exists new, (a_trace es a).1 ++ s_run (a_trace es a).2 = s_run a ++ new /\
  ((f ∉ (a_trace es a).1) -> length (a_trace es a).1 = count_runs es).
Proof.
  intros Hf. induction es as [|e es IH] using rev_ind; [exists []; by rewrite app_nil_r|].
  destruct IH as (new & Eq & Hlen). unfold a_trace in *. rewrite foldl_app. cbn [foldl]. set (x := foldl a_next ([], a) es) in *.
  unfold count_runs in *. rewrite List.filter_app, length_app. unfold a_next. cbn [fst snd]. destruct (is_run e) eqn:Ee.
  - destruct e; try done. cbn [a_step]. destruct (run_queue_run now x.2) as [Eq1 Hne]. eexists. split.
    + rewrite <- app_assoc, Eq1, (assoc_L (++)), Eq, <- app_assoc. done.
    + intros [Hf1 Hf2]%not_elem_of_app. rewrite length_app, Hlen by done. cbn. f_equal.
      destruct (a_run now x.2).1; [done|]. exfalso. apply Hne; [|done]. intros E. rewrite E, app_nil_r in Eq. apply Hf1. rewrite Eq. set_solver.
  - destruct (run_queue_other e x.2 Ee) as [-> [l ->]]. cbn [option_list]. rewrite app_nil_r. cbn [List.filter]. rewrite Ee. cbn [length].
    exists (new ++ l). split; [by rewrite (assoc_L (++)), Eq, app_assoc|]. rewrite Nat.add_0_r. done.
Qed.

Lemma run_list_short s a : implements s a -> (length (s_run a) <= size (heap s))%nat.
Proof.
  intros Im. pose proof (im_queues _ _ Im) as Q. pose proof (q_nodup _ _ _ Q) as (_ & _ & Hnd)%NoDup_app.
  apply queue_size; [done|]. intros f Hf. eapply dseg_lookup; [apply (q_run _ _ _ Q)|done].
Qed.

(** A fiber that is ready is resumed by [fm_run] or is in the run list after it. *)
Lemma ready_queued now s a f w : sched_ok a -> implements s a -> heap s !! f = Some w -> state_ w = READY ->
  (a_run now a).1 = Some f \/ f ∈ s_run (a_run now a).2.
Proof.
  intros Ok Im Hw Hr. assert (s_info a !! f = Some (meta w)) as Hi by (rewrite <- (im_lookup _ _ f Im); by rewrite Hw).
  assert (f ∈ s_run a ++ filter (due now (s_info a)) (s_wait a)) as Hin.
  { destruct (ok_all a Ok f _ Hi) as [_ [?|[Hf|[Hf|Hf]]]]; cbn in *; [congruence| |set_solver|].
    - apply elem_of_app. right. apply list_elem_of_filter. split; [|done]. unfold due. rewrite Hi. by left.
    - destruct (active_state a Ok f _ Hf Hi) as [Hx _]. cbn in Hx. congruence. }
  destruct (run_queue_run now a) as [Eq _]. rewrite <- Eq in Hin. apply elem_of_app in Hin as [Hin|Hin]; [left|by right].
  destruct (a_run now a).1; [|by apply elem_of_nil in Hin]. by apply list_elem_of_singleton in Hin as ->.
Qed.

(** A fiber of the run list is resumed when [fm_run] has been called as often
    as there are fibers. *)
Lemma queued_runs s a es fs s' f : sched_ok a -> implements s a -> f ∈ s_run a -> runs s es fs s' ->
  (size (heap s) <= count_runs es)%nat -> f ∈ fs.
Proof.
  intros Ok Im Hin H Hlong. destruct (sim_runs _ _ _ _ _ Ok Im H) as (-> & _ & _). destruct (trace_queue es a f Hin) as (new & Eq & Hlen).
  destruct (decide (f ∈ (a_trace es a).1)) as [|Hn]; [done|]. apply list_elem_of_lookup_1 in Hin as [k Hk].
  pose proof (run_list_short _ _ Im) as Hshort. pose proof (lookup_lt_Some _ _ _ Hk) as Hlt. specialize (Hlen Hn).
  apply (list_elem_of_lookup_2 _ k). rewrite <- (lookup_app_l (a_trace es a).1 (s_run (a_trace es a).2) k) by lia.
  rewrite Eq. by apply lookup_app_l_Some.
Qed.

(** C19: A fiber that is ready runs soon.  If a fiber is ready when the main
    fiber calls [fm_run], it is resumed by that call or by one of the next ones,
    whatever the other fibers do: by the [n]-th at the latest, [n] being the
    number of fibers there are after the first call. *)
Theorem ready_fiber_runs es0 fs0 s now o s1 es fs s2 f w : runs new_manager es0 fs0 s -> active_fiber_ s = None -> now < tp_max ->
  heap s !! f = Some w -> state_ w = READY -> fm_run now s = Some (o, s1) -> runs s1 es fs s2 ->
  (size (heap s1) <= count_runs es)%nat -> o = Some f \/ f ∈ fs.
Proof.
  intros H Ha Hnow Hw Hr E H2 Hlong. destruct (reachable_implements es0 fs0 s H) as (a & Im & Ok & _). rewrite (im_active _ _ Im) in Ha.
  destruct (sim_run now s a Ok Im Hnow Ha) as (s1' & E1 & Im1). rewrite E in E1. injection E1 as -> <-.
  destruct (ready_queued now s a f w Ok Im Hw Hr) as [?|Hin]; [by left|right].
  by apply (queued_runs s1 _ es fs s2 f (run_ok now a Ok Hnow Ha) Im1 Hin).
Qed.

(** ** Examples *)

Lemma run_events_runs es s0 fs s : run_events es s0 = Some (fs, s) -> runs s0 es fs s.
Proof.
  assert (forall es1 fs1 s1, runs s0 es1 fs1 s1 -> forall es fs s, run_events es s1 = Some (fs, s) -> runs s0 (es1 ++ es) (fs1 ++ fs) s) as H.
  { intros es1 fs1 s1 H1 es'. revert es1 fs1 s1 H1. induction es' as [|e es' IH]; intros es1 fs1 s1 H1 fs' s' E; cbn [run_events] in E.
    - injection E as <- <-. by rewrite !app_nil_r.
    - case_decide as En; [|done]. destruct (step e s1) as [[o s1']|] eqn:Es; [|done]. cbn [mbind option_bind] in E.
      destruct (run_events es' s1') as [[fs2 s2]|] eqn:Er; [|done]. cbn [mbind option_bind] in E. injection E as <- <-.
      rewrite (assoc_L (++)), (cons_middle e es1 es'), (assoc_L (++)). eapply IH; [|done]. by econstructor. }
  intros E. apply (H [] [] s0 (runs_nil s0) es fs s E).
Qed.

(** Three fibers: 1 waits until 50, 2 until 20, 3 yields and then joins 1. *)
Definition sample_schedule : list event :=
  [Ev_spawn 1; Ev_spawn 2; Ev_spawn 3; Ev_run 0; Ev_wait_until 50; Ev_run 1; Ev_wait_until 20; Ev_run 2; Ev_yield; Ev_run 3; Ev_join 1].

Lemma scheduler_refines_lists_witness : exists fs s a, run_events sample_schedule new_manager = Some (fs, s) /\ fs = [1; 2; 3; 3]%nat /\
  s_wait a = [2; 1; 3]%nat /\ queues s (s_wait a) (s_run a).
Proof.
  assert (fst <$> run_events sample_schedule new_manager = Some [1; 2; 3; 3]%nat) as E by (vm_compute; reflexivity).
  destruct (run_events sample_schedule new_manager) as [[fs s]|] eqn:Er; [|done]. cbn in E. injection E as ->.
  destruct (scheduler_refines_lists sample_schedule [1; 2; 3; 3]%nat s (run_events_runs _ _ _ _ Er)) as (a & Ea & Q & _).
  exists [1; 2; 3; 3]%nat, s, a. split_and!; [done|done| |done].
  assert (s_wait (a_trace sample_schedule new_sched).2 = [2; 1; 3]%nat) as Ew by (vm_compute; reflexivity). by rewrite Ea in Ew.
Defined.

(** At 20 fiber 2 is due and is resumed; 1 still waits. *)
Lemma no_wakeup_lost_witness : exists s o s' w, (exists fs, run_events sample_schedule new_manager = Some (fs, s)) /\
  fm_run 20 s = Some (o, s') /\ o = Some 2%nat /\ heap s' !! 1%nat = Some w /\ 20 < tp_ w.
Proof.
  assert ((fun x => (active_fiber_ x.2, (fun y => (y.1, state_ <$> heap y.2 !! 1%nat)) <$> fm_run 20 x.2)) <$> run_events sample_schedule new_manager
    = Some (None, Some (Some 2%nat, Some WAITING))) as E by (vm_compute; reflexivity).
  destruct (run_events sample_schedule new_manager) as [[fs s]|] eqn:Er; [|done]. cbn [fmap option_fmap option_map fst snd] in E. injection E as Ea E.
  destruct (fm_run 20 s) as [[o s']|] eqn:E2; [|done]. cbn [fmap option_fmap option_map fst snd] in E. injection E as Eo E. destruct (heap s' !! 1%nat) as [w|] eqn:Ew; [|done].
  cbn [fmap option_fmap option_map fst snd] in E. injection E as E. exists s, o, s', w. split_and!; [by exists fs|done|done|done|].
  by apply (no_wakeup_lost sample_schedule fs s 20 o s' 1%nat w (run_events_runs _ _ _ _ Er) Ea ltac:(done) E2 Ew).
Defined.

(** Fiber 3 is woken by the end of fiber 1 and runs after it. *)
Definition sample_end : list event := sample_schedule ++ [Ev_run 50; Ev_return; Ev_run 51; Ev_return].
Definition sample_rest : list event := [Ev_yield; Ev_run 53; Ev_yield; Ev_run 54; Ev_yield; Ev_run 55].

Lemma ready_fiber_runs_witness : exists s o s1 fs s2, (exists fs0, run_events sample_end new_manager = Some (fs0, s)) /\
  fm_run 52 s = Some (o, s1) /\ run_events sample_rest s1 = Some (fs, s2) /\ (o = Some 3%nat \/ 3%nat ∈ fs).
Proof.
  assert ((fun x => (active_fiber_ x.2, state_ <$> heap x.2 !! 3%nat,
      (fun y => (size (heap y.2), bool_decide (is_Some (run_events sample_rest y.2)))) <$> fm_run 52 x.2)) <$> run_events sample_end new_manager
    = Some (None, Some READY, Some (2%nat, true))) as E by (vm_compute; reflexivity).
  destruct (run_events sample_end new_manager) as [[fs0 s]|] eqn:Er; [|done]. cbn [fmap option_fmap option_map fst snd] in E. injection E as Ea Es E.
  destruct (fm_run 52 s) as [[o s1]|] eqn:E2; [|done]. cbn [fmap option_fmap option_map fst snd] in E. injection E as Ez E.
  apply bool_decide_eq_true in E as [[fs s2] E3]. change (run_events sample_rest s1 = Some (fs, s2)) in E3. destruct (heap s !! 3%nat) as [w|] eqn:Ew; [|done].
  cbn [fmap option_fmap option_map] in Es. injection Es as Es. exists s, o, s1, fs, s2. split_and!; [by exists fs0|done|done|].
  apply (ready_fiber_runs sample_end fs0 s 52 o s1 sample_rest fs s2 3%nat w (run_events_runs _ _ _ _ Er) Ea ltac:(done) Ew Es E2 (run_events_runs _ _ _ _ E3)).
  rewrite Ez. vm_compute. lia.
Defined.

(** ** What interruption breaks *)

(** [interrupt] wakes a fiber that joins another before that one has ended: the
    assertion at the end of [fm_join] fails in the next [fm_run]. *)
Example interrupted_join_fails :
  (x ← run_events [Ev_spawn 1; Ev_spawn 2; Ev_run 0; Ev_join 2] new_manager; s ← interrupt 1 x.2;
   y ← fm_run 1 s; s ← fm_yield y.2; fm_run 2 s) = None /\
  (x ← run_events [Ev_spawn 1; Ev_spawn 2; Ev_run 0; Ev_join 2] new_manager; s ← interrupt 1 x.2;
   y ← fm_run 1 s; s ← fm_yield y.2; Some y.1) = Some (Some 2%nat).
Proof. split; vm_compute; reflexivity. Qed.
