(* ===== verification/FiberSync.v ===== *)
(** * [mutex] and [condition]: waiting for other fibers

    The mutex and the condition variable of [core/boost-fiber] for the worker
    fibers of one thread, on top of the scheduler.  A fiber that has to wait
    is entered in a list and suspended by [fm_wait]; when it is resumed it goes
    on where it was suspended, which for both is to try for the lock again; fibers
    are not interrupted.
    [None] is a failed assertion, as in [FiberManager]. *)

From stdpp Require Import gmap options.
From S2P Require Import Prelude FiberManager.

(** [state_ == LOCKED], [owner_] and [waiting_]. *)
Record mutex := mk_mutex { locked : bool; owner_ : option nat; m_waiting : list nat }.

Definition new_mutex : mutex := mk_mutex false None [].

(** Where a suspended fiber goes on: in the loop of [lock], or in [wait] behind
    [fm_wait], before it locks the mutex again. *)
Inductive cont := In_lock (m : nat) | In_wait (c m : nat).

(** [y_log]: the returns of [lock] ([true]) and of [unlock], for the theorems. *)
Record sync := mk_sync {
  y_manager : manager;
  y_mutexes : gmap nat mutex;
  y_conditions : gmap nat (list nat);
  y_conts : gmap nat cont;
  y_log : list (nat * nat * bool)
}.

Definition new_sync : sync := mk_sync new_manager ∅ ∅ ∅ [].

Definition get_mutex (m : nat) (y : sync) : mutex := default new_mutex (y_mutexes y !! m).
Definition get_waiting (c : nat) (y : sync) : list nat := default [] (y_conditions y !! c).

Definition set_manager s y := mk_sync s (y_mutexes y) (y_conditions y) (y_conts y) (y_log y).
Definition set_mutex m x y := mk_sync (y_manager y) (<[m := x]> (y_mutexes y)) (y_conditions y) (y_conts y) (y_log y).
Definition set_condition c l y := mk_sync (y_manager y) (y_mutexes y) (<[c := l]> (y_conditions y)) (y_conts y) (y_log y).
Definition set_conts k y := mk_sync (y_manager y) (y_mutexes y) (y_conditions y) k (y_log y).
Definition add_log x y := mk_sync (y_manager y) (y_mutexes y) (y_conditions y) (y_conts y) (y_log y ++ [x]).

(** ** [mutex] *)

Definition lock_if_unlocked_ (f m : nat) (y : sync) : option (bool * sync) :=
  let x := get_mutex m y in
  if locked x then Some (false, y)
  else
    match owner_ x with
    | Some _ => None
    | None => Some (true, add_log (f, m, true) (set_mutex m (mk_mutex true (Some f) (m_waiting x)) y))
    end.

(** One round of the loop of [lock] in the active fiber [f]. *)
Definition lock (f m : nat) (y : sync) : option sync :=
  '(taken, y) ← lock_if_unlocked_ f m y;
  if taken : bool then Some y
  else
    let x := get_mutex m y in
    if bool_decide (f ∈ m_waiting x) then None
    else
      let y := set_mutex m (mk_mutex (locked x) (owner_ x) (m_waiting x ++ [f])) y in
      s ← fm_wait (y_manager y);
      Some (set_conts (<[f := In_lock m]> (y_conts y)) (set_manager s y)).

Definition try_lock (f m : nat) (y : sync) : option (bool * sync) :=
  '(taken, y) ← lock_if_unlocked_ f m y;
  if taken : bool then Some (true, y)
  else s ← fm_yield (y_manager y); Some (false, set_manager s y).

(** [n->set_ready], where there is one. *)
Definition wake_fiber (n : option nat) (y : sync) : option sync :=
  match n with
  | None => Some y
  | Some n => s ← set_ready n (y_manager y); Some (set_manager s y)
  end.

Definition unlock (f m : nat) (y : sync) : option sync :=
  let x := get_mutex m y in
  if locked x && bool_decide (owner_ x = Some f) then
    wake_fiber (head (m_waiting x)) (add_log (f, m, false) (set_mutex m (mk_mutex false None (tail (m_waiting x))) y))
  else None.

(** ** [condition] *)

(** [wait] to where the fiber is suspended; [lt] holds the mutex [m]. *)
Definition wait (f c m : nat) (y : sync) : option sync :=
  let l := get_waiting c y in
  if bool_decide (f ∈ l) then None
  else
    y ← unlock f m (set_condition c (l ++ [f]) y);
    s ← fm_wait (y_manager y);
    Some (set_conts (<[f := In_wait c m]> (y_conts y)) (set_manager s y)).

Definition cv_notify_one (c : nat) (y : sync) : option sync :=
  let l := get_waiting c y in
  wake_fiber (head l) (set_condition c (tail l) y).

Fixpoint wake_fibers (l : list nat) (y : sync) : option sync :=
  match l with
  | [] => Some y
  | n :: l => y ← wake_fiber (Some n) y; wake_fibers l y
  end.

Definition cv_notify_all (c : nat) (y : sync) : option sync :=
  wake_fibers (get_waiting c y) (set_condition c [] y).

(** ** The fibers of a thread *)

Definition goes_on (f : nat) (y : sync) : option sync :=
  match y_conts y !! f with
  | None => Some y
  | Some k => lock f (match k with In_lock m | In_wait _ m => m end) (set_conts (delete f (y_conts y)) y)
  end.

Inductive sync_event :=
| Sy_sched (e : event)
| Sy_lock (m : nat)       (* of the active fiber, as the next three *)
| Sy_try_lock (m : nat)
| Sy_unlock (m : nat)
| Sy_wait (c m : nat)
| Sy_notify_one (c : nat)
| Sy_notify_all (c : nat).

(** What the users promise: a fiber that waits here is woken by nothing else,
    and only the holder of a mutex unlocks it. *)
Definition sync_enabled (e : sync_event) (y : sync) : Prop :=
  match e with
  | Sy_sched e => enabled e (y_manager y) /\ match e with Ev_ready f => y_conts y !! f = None | _ => True end
  | Sy_lock _ | Sy_try_lock _ => is_Some (active_fiber_ (y_manager y))
  | Sy_unlock m | Sy_wait _ m => is_Some (active_fiber_ (y_manager y)) /\ owner_ (get_mutex m y) = active_fiber_ (y_manager y)
  | Sy_notify_one _ | Sy_notify_all _ => True
  end.

#[export] Instance sync_enabled_dec e y : Decision (sync_enabled e y).
Proof. unfold sync_enabled. destruct e as [e| | | | | |]; [destruct e; apply _|apply _..]. Defined.

Definition sync_step (e : sync_event) (y : sync) : option sync :=
  match e, active_fiber_ (y_manager y) with
  | Sy_sched e, _ =>
      '(o, s) ← step e (y_manager y);
      match o with Some f => goes_on f (set_manager s y) | None => Some (set_manager s y) end
  | Sy_lock m, Some f => lock f m y
  | Sy_try_lock m, Some f => snd <$> try_lock f m y
  | Sy_unlock m, Some f => unlock f m y
  | Sy_wait c m, Some f => wait f c m y
  | Sy_notify_one c, _ => cv_notify_one c y
  | Sy_notify_all c, _ => cv_notify_all c y
  | _, None => None
  end.

Inductive sync_runs (y0 : sync) : list sync_event -> sync -> Prop :=
| sync_runs_nil : sync_runs y0 [] y0
| sync_runs_snoc es y e y' : sync_runs y0 es y -> sync_enabled e y -> sync_step e y = Some y' -> sync_runs y0 (es ++ [e]) y'.

(** The same as a function, [None] where an event is not enabled or fails. *)
Fixpoint run_sync (es : list sync_event) (y : sync) : option sync :=
  match es with
  | [] => Some y
  | e :: es => if decide (sync_enabled e y) then y ← sync_step e y; run_sync es y else None
  end.
