(* ===== verification/FiberSyncSpec.v ===== *)
(** * What the mutex and the condition variable promise

    No assertion of them fails, a mutex has one holder at a time, and when it
    is free no fiber sleeps for it unless another one that waits for it is
    about to run. *)

From stdpp Require Import gmap options.
From S2P Require Import Prelude FiberManager FiberQueues FiberScheduler FiberSchedulerOk FiberManagerSpec FiberSync.

(** ** Fibers that the scheduler leaves alone *)

(** State and deadline of a fiber. *)
Definition st_of (a : sched) (f : nat) : option (state_t * Z) := (fun i => (i_state i, i_tp i)) <$> s_info a !! f.

Lemma st_upd x G a f : x <> f -> st_of (a_upd x G a) f = st_of a f.
Proof. intros Hne. unfold st_of. cbn. by rewrite lookup_alter_ne. Qed.

Lemma st_push x a f : st_of (a_push x a) f = st_of a f.
Proof. unfold st_of. by rewrite push_info. Qed.

Lemma st_release x a f : x <> f -> st_of (a_release x a) f = st_of a f.
Proof.
  intros Hne. unfold a_release. destruct (s_info a !! x) as [i|]; [|done]. case_match; [|by apply st_upd].
  unfold st_of. cbn. by rewrite lookup_delete_ne.
Qed.

Lemma st_suspend x a f : x <> f -> st_of (a_suspend x a) f = st_of a f.
Proof. intros Hne. unfold a_suspend. case_decide; [|done]. by apply (st_release x a f). Qed.

Lemma st_ready x a f : x <> f -> st_of (a_ready x a) f = st_of a f.
Proof. intros Hne. by apply (st_upd x (i_set_state READY) a f). Qed.

Lemma st_ready_all l a f : (f ∉ l) -> st_of (foldl (fun a p => a_ready p a) a l) f = st_of a f.
Proof. intros Hf. destruct (ready_all_facts l f a Hf) as (E & _). unfold st_of. by rewrite E. Qed.

(** [f] is suspended without a deadline and joins nobody. *)
Record parked (st : state_t) (f : nat) (a : sched) : Prop := {
  pk_state : st_of a f = Some (st, tp_max);
  pk_alive : st = READY \/ st = WAITING;
  pk_joins : s_joins a !! f = None;
  pk_active : s_active a <> Some f
}.

Lemma parked_info st f a : parked st f a -> exists i, s_info a !! f = Some i /\ i_state i = st /\ i_tp i = tp_max.
Proof. intros [H _ _ _]. unfold st_of in H. destruct (s_info a !! f) as [i|]; [|done]. injection H as <- <-. by exists i. Qed.

Lemma parked_move_to st f now a : now < tp_max -> parked st f a -> parked st f (a_move_to now a).
Proof.
  intros Hnow Hp. destruct (parked_info st f a Hp) as (i & Hi & Hst & Htp). destruct Hp as [P1 P2 P3 P4]. split; try done.
  unfold st_of in *. cbn. set (l := filter _ _). assert (f ∈ l -> i_state i = READY) as Hr.
  { intros [Hd _]%list_elem_of_filter. unfold due in Hd. rewrite Hi in Hd. destruct Hd; [done|lia]. }
  assert (forall l m k, m !! f = Some k -> i_state k = i_state i -> i_tp k = tp_max -> (f ∈ l -> i_state i = READY) ->
    exists k', wake_all l m !! f = Some k' /\ i_state k' = i_state i /\ i_tp k' = tp_max) as H.
  { clear. intros l. induction l as [|g l IH]; intros m k Hk Hs Ht Hr; [by exists k|]. unfold wake_all. cbn [foldl].
    destruct (decide (g = f)) as [->|Hne].
    - apply (IH _ (wake k)); [by rewrite lookup_alter_eq, Hk|by rewrite Hr by (by left)|done|intros ?; apply Hr; by left].
    - apply (IH _ k); [by rewrite lookup_alter_ne|done|done|intros ?; apply Hr; by right]. }
  destruct (H l (s_info a) i Hi eq_refl Htp Hr) as (k & -> & Hk & Ht). cbn. by rewrite Hk, Ht, Hst.
Qed.

Lemma release_rest g a : s_joins (a_release g a) = s_joins a /\ s_active (a_release g a) = s_active a.
Proof. unfold a_release. by repeat case_match. Qed.

Lemma suspend_rest g a : s_joins (a_suspend g a) = s_joins a /\ s_active (a_suspend g a) = None.
Proof. unfold a_suspend. split; [|done]. case_decide; [apply release_rest|done]. Qed.

Lemma push_rest g a : s_joins (a_push g a) = s_joins a.
Proof. unfold a_push. by case_match. Qed.

Lemma ready_all_joins l a : s_joins (foldl (fun a p => a_ready p a) a l) = s_joins a.
Proof. revert a. induction l as [|p l IH]; intros a; [done|]. cbn [foldl]. by rewrite IH. Qed.

Lemma parked_run now st f a : sched_ok a -> now < tp_max -> s_active a = None -> (a_run now a).1 <> Some f -> parked st f a ->
  parked st f (a_run now a).2.
Proof.
  intros Ok Hnow Ha Hf Hp. pose proof (move_to_ok now a Ok Hnow) as Ok1. pose proof (parked_move_to st f now a Hnow Hp) as Hp1.
  unfold a_run in *. set (a1 := a_move_to now a) in *. destruct (s_run a1) as [|h l] eqn:Er; [done|]. cbn [fst snd] in *.
  assert (h <> f) as Hne by congruence. destruct Hp1 as [P1 P2 P3 P4]. unfold a_join_returns. cbn [a_active a_upd a_info a_runq s_joins].
  assert (st_of (a_active (Some h) (a_upd h (i_set_state RUNNING) (a_runq l a1))) f = Some (st, tp_max)) as Hst.
  { rewrite <- P1. apply (st_upd h (i_set_state RUNNING) (a_runq l a1) f Hne). }
  destruct (s_joins a1 !! h) as [g|] eqn:Ej; [|split; try done; cbn; congruence].
  destruct (ok_joins a1 Ok1 h g Ej) as (_ & k & j & Hk & Hj & H). destruct (ok_run a1 Ok1 h) as (i & Hi & Hr & _); [rewrite Er; by left|].
  assert (i_state j = TERMINATED) as Ht by (destruct H as [[? _]|(_ & ? & _)]; congruence).
  assert (g <> f) as Hgf by (intros ->; unfold st_of in P1; rewrite Hj in P1; cbn in P1; destruct P2; congruence).
  destruct (release_rest g (a_impl (s_impl a1 ∖ {[g]}) (a_joins (delete h (s_joins a1)) (a_active (Some h) (a_upd h (i_set_state RUNNING) (a_runq l a1)))))) as [Ejo Eac].
  split; [|done| |].
  - rewrite st_release by done. exact Hst.
  - cbn [a_active a_upd a_info a_runq s_impl] in *. rewrite Ejo. cbn. by rewrite lookup_delete_ne.
  - cbn [a_active a_upd a_info a_runq s_impl] in *. rewrite Eac. cbn. congruence.
Qed.

Lemma parked_step e s a st f : sched_ok a -> implements s a -> enabled e s -> e <> Ev_ready f -> (a_step e a).1 <> Some f ->
  parked st f a -> parked st f (a_step e a).2.
Proof.
  intros Ok Im En He Hf Hp. pose proof (im_active _ _ Im) as Ea. destruct (parked_info st f a Hp) as (i & Hi & Hst & Htp).
  destruct e as [x|now|x|t| |g| |g]; cbn [enabled a_step] in *; try destruct Hp as [P1 P2 P3 P4].
  - assert (f <> x) as Hne by (intros ->; rewrite <- (im_lookup s a x Im) in Hi; by rewrite En in Hi).
    split; try done. unfold st_of in *. cbn. by rewrite lookup_insert_ne.
  - destruct En as [Ha Hnow]. rewrite Ea in Ha. apply parked_run; try done.
  - cbn [snd]. split; try done. rewrite st_ready; [done|congruence].
  - destruct (s_active a) as [x|] eqn:E; [|split; try done; cbn; congruence]. assert (x <> f) by congruence. unfold a_wait_until. cbn [snd].
    destruct (suspend_rest x (a_push x (a_upd x (i_set_tp t) (a_upd x (i_set_state WAITING) a)))) as [Ej Eac].
    split; [by rewrite st_suspend, st_push, !st_upd|done|by rewrite Ej, push_rest|by rewrite Eac].
  - destruct (s_active a) as [x|] eqn:E; [|split; try done; cbn; congruence]. assert (x <> f) by congruence. unfold a_yield. cbn [snd].
    destruct (suspend_rest x (a_push x (a_ready x a))) as [Ej Eac].
    split; [by rewrite st_suspend, st_push, st_ready|done|by rewrite Ej, push_rest|by rewrite Eac].
  - destruct (s_active a) as [x|] eqn:E; [|split; try done; cbn; congruence]. assert (x <> f) by congruence. unfold a_join. cbn [snd].
    set (a1 := a_push x _). set (a2 := if decide _ then _ else _). destruct (suspend_rest x (a_joins (<[x:=g]> (s_joins a2)) a2)) as [Ej Eac].
    assert (st_of a1 f = st_of a f) as E1 by (unfold a1; by rewrite st_push, st_upd).
    assert (st_of a2 f = st_of a f /\ s_joins a2 = s_joins a) as [E2 Ej2].
    { unfold a2. case_decide; (split; [|unfold a1; cbn; by rewrite push_rest]); [by rewrite st_ready|].
      rewrite <- E1. unfold st_of. cbn -[a1]. rewrite lookup_altered. case_decide; [|done]. by destruct (s_info a1 !! f). }
    split; [rewrite st_suspend by done; unfold st_of in *; cbn -[a2]; by rewrite E2|done| |by rewrite Eac].
    rewrite Ej. cbn -[a2]. by rewrite lookup_insert_ne, Ej2.
  - destruct (s_active a) as [x|] eqn:E; [|split; try done; cbn; congruence]. assert (x <> f) by congruence. unfold a_return. cbn [snd].
    set (a1 := a_upd x (i_set_state TERMINATED) a). set (l := match s_info a1 !! x with Some _ => _ | None => _ end).
    assert (f ∉ l) as Hl.
    { unfold l. cbn. rewrite lookup_alter_eq. destruct (s_info a !! x) as [k|] eqn:Ek; cbn; [|apply not_elem_of_nil].
      intros Hin. destruct (ok_joiners a Ok x k f Ek Hin) as [_ ?]. congruence. }
    destruct (suspend_rest x (foldl (fun a p => a_ready p a) (a_upd x (i_set_joiners []) a1) l)) as [Ej Eac].
    split; [rewrite st_suspend, st_ready_all, st_upd by done; unfold a1; by rewrite st_upd|done|by rewrite Ej, ready_all_joins|by rewrite Eac].
  - destruct (release_rest g (a_impl (s_impl a ∖ {[g]}) a)) as [Ej Eac]. unfold a_detach. cbn [snd].
    split; [|done|by rewrite Ej|by rewrite Eac]. destruct (decide (g = f)) as [->|Hne]; [|by rewrite st_release].
    destruct En as [Hg _]. rewrite (im_impl _ _ Im) in Hg. destruct (ok_count a Ok f i Hi) as [Hc _].
    rewrite decide_True, decide_False in Hc by (done || destruct P2; congruence).
    unfold a_release. cbn [a_impl s_info]. rewrite Hi, Hc. cbn. unfold st_of. cbn. rewrite lookup_alter_eq, Hi. cbn. by rewrite Hst, Htp.
Qed.

Lemma parked_wait f a : sched_ok a -> s_active a = Some f -> parked WAITING f (a_wait_until tp_max f a).
Proof.
  intros Ok Ha. destruct (ok_active a Ok f Ha) as (_ & _ & i & Hi & _). unfold a_wait_until.
  rewrite (suspend_alive f _ (i_set_tp tp_max (i_set_state WAITING i))); [|rewrite push_info; cbn; by rewrite !lookup_alter_eq, Hi|done].
  split; [|by right| |done].
  - unfold st_of. cbn [a_active s_info]. rewrite push_info. cbn. by rewrite !lookup_alter_eq, Hi.
  - cbn [a_active s_joins]. rewrite push_rest. by apply (active_not_joining a Ok).
Qed.

Lemma parked_ready st f a : parked st f a -> parked READY f (a_ready f a).
Proof.
  intros Hp. destruct (parked_info st f a Hp) as (i & Hi & _ & Htp). destruct Hp as [_ _ P3 P4]. split; [|by left|done|done].
  unfold st_of. cbn. rewrite lookup_alter_eq, Hi. cbn. by rewrite Htp.
Qed.

(** Only a fiber that has been woken is resumed. *)
Lemma parked_resumed e st f a s : sched_ok a -> implements s a -> enabled e s -> parked st f a -> (a_step e a).1 = Some f ->
  st = READY /\ s_active (a_step e a).2 = Some f.
Proof.
  intros Ok Im En Hp Hf. destruct (is_run e) eqn:Ee; [|by destruct (run_queue_other e a Ee) as [E _]; rewrite E in Hf].
  destruct e as [|now| | | | | |]; try done. cbn [enabled a_step] in *. destruct En as [Ha Hnow]. rewrite (im_active _ _ Im) in Ha.
  pose proof (move_to_ok now a Ok Hnow) as Ok1. pose proof (parked_move_to st f now a Hnow Hp) as Hp1. unfold a_run in *.
  destruct (s_run (a_move_to now a)) as [|h l] eqn:Er; [done|]. cbn [fst snd] in *. injection Hf as ->. split.
  - destruct (parked_info _ _ _ Hp1) as (i & Hi & <- & _). by destruct (run_state _ Ok1 f i) as [? _]; [rewrite Er; by left|done|].
  - unfold a_join_returns. case_match; [|done]. by rewrite (proj2 (release_rest _ _)).
Qed.

(** ** The invariant *)

Definition queue_of (k : cont) (y : sync) : list nat :=
  match k with In_lock m => m_waiting (get_mutex m y) | In_wait c _ => get_waiting c y end.

(** The fiber that holds [m] after the returns in [log], [None] if they do not
    alternate. *)
Fixpoint replay (m : nat) (log : list (nat * nat * bool)) (holder : option nat) : option (option nat) :=
  match log with
  | [] => Some holder
  | (f, m', taken) :: log =>
      if decide (m' = m) then
        if taken then if decide (holder = None) then replay m log (Some f) else None
        else if decide (holder = Some f) then replay m log None else None
      else replay m log holder
  end.

(** [l]: the fibers that have been taken out of a queue and are about to be
    woken. *)
Record sync_ok (l : list nat) (y : sync) (a : sched) : Prop := {
  so_implements : implements (y_manager y) a;
  so_sched : sched_ok a;
  so_parked f k : y_conts y !! f = Some k -> parked (if decide (f ∈ queue_of k y \/ f ∈ l) then WAITING else READY) f a;
  so_lock m f : f ∈ m_waiting (get_mutex m y) -> y_conts y !! f = Some (In_lock m);
  so_wait c f : f ∈ get_waiting c y -> exists m, y_conts y !! f = Some (In_wait c m);
  so_lock_nodup m : NoDup (m_waiting (get_mutex m y));
  so_wait_nodup c : NoDup (get_waiting c y);
  so_pending f : f ∈ l -> exists k, y_conts y !! f = Some k /\ (f ∉ queue_of k y);
  so_pending_nodup : NoDup l;
  so_owner m : locked (get_mutex m y) = bool_decide (is_Some (owner_ (get_mutex m y)));
  so_log m : replay m (y_log y) None = Some (owner_ (get_mutex m y))
}.

Lemma new_sync_ok : sync_ok [] new_sync new_sched.
Proof.
  split; try done; cbn.
  - apply new_implements.
  - apply new_sched_ok.
  - by intros m f ?%elem_of_nil.
  - by intros c f ?%elem_of_nil.
  - intros m. apply NoDup_nil_2.
  - intros c. apply NoDup_nil_2.
  - by intros f ?%elem_of_nil.
  - apply NoDup_nil_2.
Qed.

(** The active fiber is in no queue. *)
Lemma active_no_cont l y a f : sync_ok l y a -> s_active a = Some f -> y_conts y !! f = None.
Proof. intros Ok Ha. destruct (y_conts y !! f) as [k|] eqn:E; [|done]. by destruct (pk_active _ _ _ (so_parked _ _ _ Ok f k E)). Qed.

Lemma active_no_queue l y a f : sync_ok l y a -> s_active a = Some f ->
  (forall m, f ∉ m_waiting (get_mutex m y)) /\ (forall c, f ∉ get_waiting c y) /\ (f ∉ l).
Proof.
  intros Ok Ha. pose proof (active_no_cont l y a f Ok Ha) as Hn. split_and!.
  - intros m Hf%(so_lock _ _ _ Ok). congruence.
  - intros c [m Hf]%(so_wait _ _ _ Ok). congruence.
  - intros (k & Hk & _)%(so_pending _ _ _ Ok). congruence.
Qed.

(** ** Steps of the scheduler *)

(** [s'] comes from [s] by events that resume nobody. *)
Definition quiet (s s' : manager) : Prop := exists es, runs s es [] s' /\ count_runs es = 0%nat.

Lemma runs_app s0 es1 fs1 s1 es2 fs2 s2 : runs s0 es1 fs1 s1 -> runs s1 es2 fs2 s2 -> runs s0 (es1 ++ es2) (fs1 ++ fs2) s2.
Proof.
  intros H1 H2. induction H2 as [|es fs s e o s' H2 IH En E]; [by rewrite !app_nil_r|]. rewrite !(assoc_L (++)). by econstructor.
Qed.

Lemma quiet_refl s : quiet s s.
Proof. exists []. split; [constructor|done]. Qed.

Lemma quiet_trans s1 s2 s3 : quiet s1 s2 -> quiet s2 s3 -> quiet s1 s3.
Proof.
  intros (es1 & H1 & C1) (es2 & H2 & C2). exists (es1 ++ es2). split; [apply (runs_app _ _ [] _ _ [] _ H1 H2)|].
  unfold count_runs in *. rewrite List.filter_app, length_app. lia.
Qed.

Lemma quiet_step e s s' : enabled e s -> step e s = Some (None, s') -> is_run e = false -> quiet s s'.
Proof. intros En E He. exists [e]. split; [apply (runs_snoc s [] [] s e None s' (runs_nil s) En E)|]. unfold count_runs. cbn. by rewrite He. Qed.

Lemma sched_step_ok e l y a : sync_ok l y a -> enabled e (y_manager y) -> (forall f, e = Ev_ready f -> y_conts y !! f = None) ->
  exists s', step e (y_manager y) = Some ((a_step e a).1, s') /\
    sync_ok l (set_conts (foldr delete (y_conts y) (option_list (a_step e a).1)) (set_manager s' y)) (a_step e a).2.
Proof.
  intros Ok En He. pose proof (so_implements _ _ _ Ok) as Im. pose proof (so_sched _ _ _ Ok) as Oka.
  destruct (sim_step e (y_manager y) a Oka Im En) as (s' & E & Im' & Ok'). exists s'. split; [done|].
  set (o := (a_step e a).1) in *. assert (forall g k, foldr delete (y_conts y) (option_list o) !! g = Some k <-> o <> Some g /\ y_conts y !! g = Some k) as Hd.
  { intros g k. destruct o as [h|]; cbn; [|naive_solver]. rewrite lookup_delete_Some. naive_solver. }
  assert (forall g k, y_conts y !! g = Some k -> g ∈ queue_of k y \/ g ∈ l -> o <> Some g) as Hq.
  { intros g k Hg Hin Ho. pose proof (so_parked _ _ _ Ok g k Hg) as Hp. rewrite decide_True in Hp by done.
    by destruct (parked_resumed e WAITING g a (y_manager y) Oka Im En Hp Ho) as [? _]. }
  split; try apply Ok; try done; cbn.
  - intros g k [Hg Hk]%Hd. apply (parked_step e (y_manager y)); try done; [intros ->; by rewrite (He g eq_refl) in Hk|by apply (so_parked _ _ _ Ok)].
  - intros m g Hg. apply Hd. pose proof (so_lock _ _ _ Ok m g Hg) as Hk. split; [|done]. apply (Hq g _ Hk). by left.
  - intros c g Hg. destruct (so_wait _ _ _ Ok c g Hg) as [m Hk]. exists m. apply Hd. split; [|done]. apply (Hq g _ Hk). by left.
  - intros g Hg. destruct (so_pending _ _ _ Ok g Hg) as (k & Hk & Hn). exists k. split; [|done]. apply Hd. split; [|done].
    apply (Hq g _ Hk). by right.
Qed.

(** ** Waking *)

Lemma wake_one_ok f l y a : sync_ok (f :: l) y a -> exists s' a', wake_fiber (Some f) y = Some (set_manager s' y) /\
  sync_ok l (set_manager s' y) a' /\ s_active a' = s_active a /\ quiet (y_manager y) s'.
Proof.
  intros Ok. pose proof (so_implements _ _ _ Ok) as Im. pose proof (so_sched _ _ _ Ok) as Oka.
  destruct (so_pending _ _ _ Ok f) as (k & Hk & Hq); [by left|]. pose proof (so_parked _ _ _ Ok f k Hk) as Hp.
  rewrite decide_True in Hp by (right; by left). destruct (parked_info _ _ _ Hp) as (i & Hi & Hst & _).
  pose proof (so_pending_nodup _ _ _ Ok) as [Hfl Hnd]%NoDup_cons.
  assert (enabled (Ev_ready f) (y_manager y)) as En.
  { destruct (im_get _ _ _ _ Im Hi) as (w & Hw & <-). cbn [enabled]. rewrite (im_joins _ _ Im), Hw. split; [apply Hp|right; cbn; by rewrite <- Hst]. }
  destruct (sim_step (Ev_ready f) (y_manager y) a Oka Im En) as (s' & E & Im' & Ok'). exists s', (a_ready f a).
  pose proof (quiet_step _ _ _ En E eq_refl) as Hqt. cbn [step a_step fst snd] in *. unfold wake_fiber.
  destruct (set_ready f (y_manager y)) as [s|]; [|done]. injection E as ->. split_and!; [done| |done|done].
  split; try apply Ok; try done; cbn.
  - intros g k' Hk'. destruct (decide (g = f)) as [->|Hne].
    + rewrite Hk in Hk'. injection Hk' as <-. rewrite decide_False by (intros [?|?]; done). by eapply parked_ready.
    + pose proof (so_parked _ _ _ Ok g k' Hk') as Hg. rewrite (decide_ext _ (g ∈ queue_of k' y \/ g ∈ f :: l)) by (rewrite elem_of_cons; tauto).
      pose proof (parked_step (Ev_ready f) (y_manager y) a) as H. cbn [a_step fst snd] in H. apply H; [done|done|done|congruence|done|done].
  - intros g Hg. apply (so_pending _ _ _ Ok). by right.
Qed.

Lemma wake_fibers_ok l y a : sync_ok l y a -> exists s' a', wake_fibers l y = Some (set_manager s' y) /\
  sync_ok [] (set_manager s' y) a' /\ s_active a' = s_active a /\ quiet (y_manager y) s'.
Proof.
  revert y a. induction l as [|f l IH]; intros y a Ok; cbn [wake_fibers].
  - exists (y_manager y), a. split_and!; [by destruct y|by destruct y|done|apply quiet_refl].
  - destruct (wake_one_ok f l y a Ok) as (s1 & a1 & -> & Ok1 & Ea1 & Q1). cbn [mbind option_bind].
    destruct (IH _ _ Ok1) as (s2 & a2 & -> & Ok2 & Ea2 & Q2). exists s2, a2. split_and!; [done|done|congruence|by eapply quiet_trans].
Qed.

Lemma wake_fiber_fibers n y : wake_fiber n y = wake_fibers (option_list n) y.
Proof. destruct n as [n|]; [|done]. change (option_list (Some n)) with [n]. cbn [wake_fibers]. by destruct (wake_fiber (Some n) y). Qed.

(** ** Entering and leaving a queue *)

Lemma get_set_mutex m m' x y : get_mutex m' (set_mutex m x y) = if decide (m' = m) then x else get_mutex m' y.
Proof. unfold get_mutex. cbn. case_decide as E; [subst; by rewrite lookup_insert_eq|by rewrite lookup_insert_ne]. Qed.

Lemma get_set_condition c c' l y : get_waiting c' (set_condition c l y) = if decide (c' = c) then l else get_waiting c' y.
Proof. unfold get_waiting. cbn. case_decide as E; [subst; by rewrite lookup_insert_eq|by rewrite lookup_insert_ne]. Qed.

(** The queue [k] waits in becomes [l]. *)
Definition set_queue (k : cont) (l : list nat) (y : sync) : sync :=
  match k with
  | In_lock m => set_mutex m (mk_mutex (locked (get_mutex m y)) (owner_ (get_mutex m y)) l) y
  | In_wait c _ => set_condition c l y
  end.

Definition same_queue (k k' : cont) : Prop :=
  match k, k' with
  | In_lock m, In_lock m' => m' = m
  | In_wait c _, In_wait c' _ => c' = c
  | _, _ => False
  end.

#[export] Instance same_queue_dec k k' : Decision (same_queue k k').
Proof. destruct k, k'; cbn; apply _. Defined.

Lemma queue_set k k' l y : queue_of k' (set_queue k l y) = if decide (same_queue k k') then l else queue_of k' y.
Proof.
  destruct k as [m|c n], k' as [m'|c' n']; cbn [queue_of set_queue same_queue]; try done; rewrite ?get_set_mutex, ?get_set_condition; repeat case_decide; done.
Qed.

Lemma set_queue_mutex k l y m : locked (get_mutex m (set_queue k l y)) = locked (get_mutex m y) /\
  owner_ (get_mutex m (set_queue k l y)) = owner_ (get_mutex m y).
Proof. destruct k as [m'|c n]; [|done]. cbn [set_queue]. rewrite get_set_mutex. case_decide; [by subst|done]. Qed.

Lemma set_queue_rest k l y : y_manager (set_queue k l y) = y_manager y /\ y_conts (set_queue k l y) = y_conts y /\ y_log (set_queue k l y) = y_log y.
Proof. by destruct k. Qed.

(** Whoever waits in a queue goes on there. *)
Lemma queued_cont l y a k f : sync_ok l y a -> f ∈ queue_of k y -> exists k', same_queue k k' /\ y_conts y !! f = Some k'.
Proof.
  intros Ok Hf. destruct k as [m|c n]; cbn [queue_of] in Hf.
  - exists (In_lock m). split; [done|]. by apply (so_lock _ _ _ Ok).
  - destruct (so_wait _ _ _ Ok c f Hf) as [m Hm]. by exists (In_wait c m).
Qed.

Lemma queue_nodup l y a k : sync_ok l y a -> NoDup (queue_of k y).
Proof. intros Ok. destruct k; [apply (so_lock_nodup _ _ _ Ok)|apply (so_wait_nodup _ _ _ Ok)]. Qed.

Lemma same_queue_of k k' y : same_queue k k' -> queue_of k' y = queue_of k y.
Proof. destruct k, k'; cbn; try done; by intros ->. Qed.

(** The invariant with one notion of queue. *)
Lemma sync_ok_queues l y a : implements (y_manager y) a -> sched_ok a ->
  (forall f k, y_conts y !! f = Some k -> parked (if decide (f ∈ queue_of k y \/ f ∈ l) then WAITING else READY) f a) ->
  (forall k f, f ∈ queue_of k y -> exists k', same_queue k k' /\ y_conts y !! f = Some k') -> (forall k, NoDup (queue_of k y)) ->
  (forall f, f ∈ l -> exists k, y_conts y !! f = Some k /\ (f ∉ queue_of k y)) -> NoDup l ->
  (forall m, locked (get_mutex m y) = bool_decide (is_Some (owner_ (get_mutex m y)))) ->
  (forall m, replay m (y_log y) None = Some (owner_ (get_mutex m y))) -> sync_ok l y a.
Proof.
  intros Im Oka Hp Hq Hn Hl Hnl Ho Hlog. split; try done.
  - intros m f Hf. destruct (Hq (In_lock m) f Hf) as ([m'|c n] & Hs & Hk); [|done]. cbn in Hs. by subst.
  - intros c f Hf. destruct (Hq (In_wait c 0) f Hf) as ([m'|c' n] & Hs & Hk); [done|]. cbn in Hs. subst. by exists n.
  - intros m. apply (Hn (In_lock m)).
  - intros c. apply (Hn (In_wait c 0)).
Qed.

Lemma dequeue_ok l1 l2 k y a : sync_ok [] y a -> queue_of k y = l1 ++ l2 -> sync_ok l1 (set_queue k l2 y) a.
Proof.
  intros Ok E. destruct (set_queue_rest k l2 y) as (Em & Ec & El). pose proof (queue_nodup _ _ _ k Ok) as Hnd. rewrite E in Hnd.
  pose proof Hnd as (Hn1 & Hd & Hn2)%NoDup_app. apply sync_ok_queues.
  - rewrite Em. apply Ok.
  - apply Ok.
  - intros f k'. rewrite Ec, queue_set. intros Hk. pose proof (so_parked _ _ _ Ok f k' Hk) as Hp.
    assert ((f ∈ queue_of k' y \/ f ∈ @nil nat) <-> (f ∈ (if decide (same_queue k k') then l2 else queue_of k' y) \/ f ∈ l1)) as Hiff.
    { rewrite elem_of_nil. destruct (decide (same_queue k k')) as [Hs|Hs]; [rewrite (same_queue_of _ _ y Hs), E, elem_of_app; tauto|]. split; [tauto|]. intros [?|Hf]; [tauto|].
      destruct (queued_cont _ _ _ k f Ok) as (k1 & Hs1 & Hk1); [rewrite E; apply elem_of_app; by left|]. rewrite Hk in Hk1. injection Hk1 as <-. done. }
    by rewrite <- (decide_ext _ _ WAITING READY Hiff).
  - intros k' f. rewrite queue_set, Ec. case_decide as Hs; [|apply (queued_cont _ _ _ k' f Ok)]. intros Hf.
    apply (queued_cont _ _ _ k' f Ok). rewrite (same_queue_of _ _ y Hs), E. apply elem_of_app. by right.
  - intros k'. rewrite queue_set. case_decide; [done|]. by eapply queue_nodup.
  - intros f Hf. destruct (queued_cont _ _ _ k f Ok) as (k1 & Hs1 & Hk1); [rewrite E; apply elem_of_app; by left|].
    exists k1. rewrite Ec, queue_set, decide_True by done. split; [done|]. by apply Hd.
  - done.
  - intros m. destruct (set_queue_mutex k l2 y m) as [-> ->]. apply Ok.
  - intros m. rewrite El, (proj2 (set_queue_mutex k l2 y m)). apply Ok.
Qed.

(** The active fiber enters the queue of [k] and is suspended. *)
Lemma enqueue_ok f k y a : sync_ok [] y a -> s_active a = Some f -> exists s' a', fm_wait (y_manager y) = Some s' /\
  sync_ok [] (set_conts (<[f := k]> (y_conts y)) (set_manager s' (set_queue k (queue_of k y ++ [f]) y))) a' /\ quiet (y_manager y) s'.
Proof.
  intros Ok Ha. pose proof (so_implements _ _ _ Ok) as Im. pose proof (so_sched _ _ _ Ok) as Oka.
  assert (enabled (Ev_wait_until tp_max) (y_manager y)) as En by (cbn; rewrite (im_active _ _ Im), Ha; by split).
  destruct (sim_step (Ev_wait_until tp_max) (y_manager y) a Oka Im En) as (s' & E & Im' & Ok').
  pose proof (parked_step (Ev_wait_until tp_max) (y_manager y) a) as Hps. cbn [a_step] in *. rewrite Ha in *. cbn [fst snd] in *.
  pose proof (quiet_step _ _ _ En E eq_refl) as Hqt. exists s', (a_wait_until tp_max f a). cbn [step] in E. unfold fm_wait.
  destruct (fm_wait_until tp_max (y_manager y)) as [s|]; [|done]. injection E as ->. split_and!; [done| |done].
  set (l2 := queue_of k y ++ [f]). set (y1 := set_conts _ _).
  assert (forall k', queue_of k' y1 = if decide (same_queue k k') then l2 else queue_of k' y) as Eq.
  { intros k'. rewrite <- queue_set. by destruct k, k'. }
  pose proof (active_no_cont _ _ _ f Ok Ha) as Hnc.
  assert (forall k', f ∉ queue_of k' y) as Hnq by (intros k' (k1 & _ & Hk1)%(queued_cont _ _ _ _ _ Ok); congruence).
  apply sync_ok_queues; try done.
  - intros g k' Hk'. rewrite Eq. cbn [y1 y_conts set_conts] in Hk'. apply lookup_insert_Some in Hk' as [[<- <-]|[Hne Hk']].
    + rewrite decide_True; [by apply parked_wait|]. left. rewrite decide_True by (by destruct k). unfold l2. set_solver.
    + assert ((g ∈ queue_of k' y \/ g ∈ @nil nat) <-> (g ∈ (if decide (same_queue k k') then l2 else queue_of k' y) \/ g ∈ @nil nat)) as Hiff.
      { destruct (decide (same_queue k k')) as [Hs|Hs]; [|done]. rewrite (same_queue_of _ _ y Hs). unfold l2. rewrite elem_of_app, list_elem_of_singleton. naive_solver. }
      rewrite <- (decide_ext _ _ WAITING READY Hiff). apply Hps; try done. by apply (so_parked _ _ _ Ok).
  - intros k' g. rewrite Eq. cbn [y1 y_conts set_conts]. intros Hg. assert (g ∈ queue_of k' y \/ (g = f /\ same_queue k k')) as [Hg'|[-> Hs]].
    { case_decide as Hs; [|by left]. unfold l2 in Hg. rewrite elem_of_app, list_elem_of_singleton in Hg. rewrite (same_queue_of _ _ y Hs). tauto. }
    + assert (f <> g) by (intros ->; by apply (Hnq k')). rewrite lookup_insert_ne by done. by apply (queued_cont _ _ _ _ _ Ok).
    + exists k. rewrite lookup_insert_eq. split; [|done]. by destruct k, k'.
  - intros k'. rewrite Eq. case_decide; [|by eapply queue_nodup]. unfold l2. apply NoDup_app. split_and!; [by eapply queue_nodup| |apply NoDup_singleton].
    intros x Hx ->%list_elem_of_singleton. by apply (Hnq k).
  - by intros g ?%elem_of_nil.
  - apply NoDup_nil_2.
  - intros m. assert (get_mutex m y1 = get_mutex m (set_queue k l2 y)) as -> by (by destruct k). destruct (set_queue_mutex k l2 y m) as [-> ->]. apply Ok.
  - intros m. assert (get_mutex m y1 = get_mutex m (set_queue k l2 y)) as -> by (by destruct k). rewrite (proj2 (set_queue_mutex k l2 y m)).
    assert (y_log y1 = y_log y) as -> by (by destruct k). apply Ok.
Qed.

(** ** The operations *)

Lemma replay_app m l1 l2 h : replay m (l1 ++ l2) h = replay m l1 h ≫= replay m l2.
Proof.
  revert h. induction l1 as [|[[f m'] taken] l1 IH]; intros h; [done|]. cbn [app replay]. repeat case_match; try done; apply IH.
Qed.

(** The mutex is taken or let go of. *)
Lemma set_owner_ok f m (taken : bool) y a : sync_ok [] y a -> owner_ (get_mutex m y) = (if taken then None else Some f) ->
  sync_ok [] (add_log (f, m, taken) (set_mutex m (mk_mutex taken (if taken then Some f else None) (m_waiting (get_mutex m y))) y)) a.
Proof.
  intros Ok Ho. set (x := mk_mutex _ _ _). set (y' := add_log _ _).
  assert (forall m', get_mutex m' y' = if decide (m' = m) then x else get_mutex m' y) as Eg by (intros m'; by rewrite <- get_set_mutex).
  assert (forall k, queue_of k y' = queue_of k y) as Eq by (intros [m'|]; [|done]; cbn [queue_of]; rewrite Eg; case_decide; by subst).
  apply sync_ok_queues; try apply Ok.
  - intros g k. rewrite Eq. apply (so_parked _ _ _ Ok).
  - intros k g. rewrite Eq. apply (queued_cont _ _ _ k g Ok).
  - intros k. rewrite Eq. by eapply queue_nodup.
  - by intros g ?%elem_of_nil.
  - intros m'. rewrite Eg. case_decide; [by destruct taken|apply Ok].
  - intros m'. cbn [y' add_log y_log set_mutex]. rewrite replay_app, (so_log _ _ _ Ok m'), Eg. cbn [mbind option_bind replay].
    destruct (decide (m = m')) as [->|Hne]; [rewrite (decide_True (P := m' = m')) by done|by rewrite decide_False by congruence].
    rewrite Ho. destruct taken; by rewrite decide_True by done.
Qed.

(** A mutex that is free has nobody in its queue, or somebody who is awake. *)
Definition wakes (m : nat) (y : sync) : Prop :=
  locked (get_mutex m y) = false -> m_waiting (get_mutex m y) = [] \/
    exists g, y_conts y !! g = Some (In_lock m) /\ (g ∉ m_waiting (get_mutex m y)).

Definition inv (y : sync) : Prop := (exists a, sync_ok [] y a) /\ forall m, wakes m y.

(** What an operation of the active fiber does: nobody is resumed, and every
    change of a mutex is recorded. *)
Record op_ok (y y' : sync) : Prop := {
  op_inv : inv y';
  op_quiet : quiet (y_manager y) (y_manager y');
  op_conts g k : y_conts y !! g = Some k -> y_conts y' !! g = Some k;
  op_log : exists new, y_log y' = y_log y ++ new /\
    forall m, locked (get_mutex m y) = false -> (forall g, (g, m, true) ∉ new) -> locked (get_mutex m y') = false
}.

Lemma lock_if_unlocked_ok f m y a : sync_ok [] y a ->
  lock_if_unlocked_ f m y = Some (negb (locked (get_mutex m y)),
    if locked (get_mutex m y) then y else add_log (f, m, true) (set_mutex m (mk_mutex true (Some f) (m_waiting (get_mutex m y))) y)) /\
  (locked (get_mutex m y) = false -> owner_ (get_mutex m y) = None).
Proof.
  intros Ok. unfold lock_if_unlocked_. pose proof (so_owner _ _ _ Ok m) as Ho. destruct (locked (get_mutex m y)); [done|].
  symmetry in Ho. apply bool_decide_eq_false in Ho. destruct (owner_ (get_mutex m y)); [|done]. by destruct Ho.
Qed.

Lemma taken_ok f m y a : sync_ok [] y a -> locked (get_mutex m y) = false -> (forall m', m' <> m -> wakes m' y) ->
  op_ok y (add_log (f, m, true) (set_mutex m (mk_mutex true (Some f) (m_waiting (get_mutex m y))) y)).
Proof.
  intros Ok Hf Hw. destruct (lock_if_unlocked_ok f m y a Ok) as [_ Ho]. set (y' := add_log _ _).
  assert (forall m', get_mutex m' y' = if decide (m' = m) then mk_mutex true (Some f) (m_waiting (get_mutex m y)) else get_mutex m' y) as Eg
    by (intros m'; by rewrite <- get_set_mutex).
  split; [split| |done|].
  - exists a. apply (set_owner_ok f m true y a Ok). by apply Ho.
  - intros m'. unfold wakes. rewrite Eg. case_decide; [done|]. by apply Hw.
  - apply quiet_refl.
  - exists [(f, m, true)]. split; [done|]. intros m' Hl Hn. rewrite Eg. case_decide; [|done]. subst. destruct (Hn f). by left.
Qed.

Lemma lock_ok f m y a : sync_ok [] y a -> s_active a = Some f -> (forall m', m' <> m -> wakes m' y) ->
  exists y', lock f m y = Some y' /\ op_ok y y' /\ (locked (get_mutex m y) = false -> (f, m, true) ∈ drop (length (y_log y)) (y_log y')).
Proof.
  intros Ok Ha Hw. unfold lock. destruct (lock_if_unlocked_ok f m y a Ok) as [-> _]. cbn [mbind option_bind].
  destruct (locked (get_mutex m y)) eqn:El; cbn [negb].
  - rewrite bool_decide_false by (by apply (active_no_queue _ _ _ f Ok Ha)). cbn [y_manager set_mutex]. rewrite El.
    destruct (enqueue_ok f (In_lock m) y a Ok Ha) as (s' & a' & -> & Ok' & Q). cbn [mbind option_bind]. cbn [set_queue queue_of] in Ok'. rewrite El in Ok'.
    eexists. split; [done|]. split; [|done]. set (y' := set_conts _ _) in *.
    assert (forall m', get_mutex m' y' = if decide (m' = m) then mk_mutex true (owner_ (get_mutex m y)) (m_waiting (get_mutex m y) ++ [f]) else get_mutex m' y) as Eg
      by (intros m'; by rewrite <- get_set_mutex).
    pose proof (active_no_cont _ _ _ f Ok Ha) as Hnc.
    assert (forall g k, y_conts y !! g = Some k -> y_conts y' !! g = Some k) as Hc.
    { intros g k Hg. cbn. rewrite lookup_insert_ne; [done|]. intros ->. congruence. }
    split; [split; [by exists a'|]|done|done|].
    + intros m' Hl. rewrite Eg in Hl |- *. case_decide as E; [done|]. destruct (Hw m' E Hl) as [?|(g & Hg & Hn)]; [by left|right; exists g; auto].
    + exists []. split; [by rewrite app_nil_r|]. intros m' Hl _. rewrite Eg. case_decide; [by subst; congruence|done].
  - eexists. split; [done|]. split; [by eapply taken_ok|]. intros _. cbn. rewrite drop_app_length. by left.
Qed.

Lemma unlock_ok f m y a : sync_ok [] y a -> (forall m', wakes m' y) -> s_active a = Some f -> owner_ (get_mutex m y) = Some f ->
  exists s' a', let y' := set_manager s' (add_log (f, m, false) (set_mutex m (mk_mutex false None (tail (m_waiting (get_mutex m y)))) y)) in
    unlock f m y = Some y' /\ sync_ok [] y' a' /\ s_active a' = Some f /\ op_ok y y'.
Proof.
  intros Ok Hw Ha Ho. unfold unlock. rewrite (so_owner _ _ _ Ok m), Ho. rewrite !bool_decide_true by done. cbn [andb].
  set (w := m_waiting (get_mutex m y)). pose proof (set_owner_ok f m false y a Ok Ho) as Ok1. set (y1 := add_log _ _) in Ok1.
  assert (get_mutex m y1 = mk_mutex false None w) as E1 by (change (get_mutex m y1) with (get_mutex m (set_mutex m (mk_mutex false None w) y)); rewrite get_set_mutex; by rewrite decide_True).
  assert (option_list (head w) ++ tail w = w) as Ew by (by destruct w).
  pose proof (dequeue_ok (option_list (head w)) (tail w) (In_lock m) y1 a Ok1) as Ok2. cbn [queue_of set_queue] in Ok2. rewrite E1 in Ok2. cbn [locked owner_ m_waiting] in Ok2.
  specialize (Ok2 (eq_sym Ew)). set (y2 := add_log _ _).
  assert (set_mutex m (mk_mutex false None (tail w)) y1 = y2) as E2 by (unfold y1, y2, set_mutex, add_log; cbn; by rewrite insert_insert_eq).
  rewrite E2 in Ok2. rewrite wake_fiber_fibers. destruct (wake_fibers_ok _ _ _ Ok2) as (s' & a' & -> & Ok3 & Ea & Q). exists s', a'.
  cbv zeta. split_and!; [done|done|congruence|].
  assert (forall m', get_mutex m' (set_manager s' y2) = if decide (m' = m) then mk_mutex false None (tail w) else get_mutex m' y) as Eg
    by (intros m'; by rewrite <- get_set_mutex).
  split; [split; [by exists a'|]|done|done|].
  - intros m' Hl. rewrite Eg in Hl |- *. case_decide as E; [|by apply Hw]. subst m'. cbn [m_waiting]. pose proof (so_lock _ _ _ Ok m) as Hc.
    pose proof (so_lock_nodup _ _ _ Ok m) as Hnd. change (m_waiting (get_mutex m y)) with w in Hc, Hnd. destruct w as [|h w']; [by left|].
    right. exists h. split; [apply (Hc h); by left|]. by apply NoDup_cons in Hnd as [? _].
  - exists [(f, m, false)]. split; [done|]. intros m' Hl _. rewrite Eg. by case_decide.
Qed.

Lemma op_trans y1 y2 y3 : op_ok y1 y2 -> op_ok y2 y3 -> op_ok y1 y3.
Proof.
  intros [I1 Q1 C1 (n1 & E1 & L1)] [I2 Q2 C2 (n2 & E2 & L2)]. split; [done|by eapply quiet_trans|auto|].
  exists (n1 ++ n2). split; [by rewrite E2, E1, (assoc_L (++))|]. intros m Hl Hn.
  apply L2; [apply L1; [done|]|]; intros g Hg; apply (Hn g), elem_of_app; auto.
Qed.

Lemma unlock_condition f m c l y : unlock f m (set_condition c l y) = set_condition c l <$> unlock f m y.
Proof.
  unfold unlock. change (get_mutex m (set_condition c l y)) with (get_mutex m y). case_match; [|done].
  destruct (head (m_waiting (get_mutex m y))) as [h|]; [|done]. cbn. by destruct (set_ready h (y_manager y)).
Qed.

Lemma park_ok f c m y a : sync_ok [] y a -> (forall m', wakes m' y) -> s_active a = Some f -> exists s',
  fm_wait (y_manager y) = Some s' /\
  op_ok y (set_conts (<[f := In_wait c m]> (y_conts y)) (set_manager s' (set_condition c (get_waiting c y ++ [f]) y))).
Proof.
  intros Ok Hw Ha. destruct (enqueue_ok f (In_wait c m) y a Ok Ha) as (s' & a' & -> & Ok' & Q). exists s'. split; [done|].
  pose proof (active_no_cont _ _ _ f Ok Ha) as Hnc. cbn [set_queue queue_of] in Ok'. set (y' := set_conts _ _) in *.
  assert (forall g k, y_conts y !! g = Some k -> y_conts y' !! g = Some k) as Hc.
  { intros g k Hg. cbn. rewrite lookup_insert_ne; [done|]. intros ->. congruence. }
  split; [split; [by exists a'|]|done|done|by exists []; rewrite app_nil_r].
  intros m' Hl. change (get_mutex m' y') with (get_mutex m' y) in *. destruct (Hw m' Hl) as [?|(g & Hg & ?)]; [by left|right; exists g; auto].
Qed.

Lemma cv_wait_ok f c m y a : sync_ok [] y a -> (forall m', wakes m' y) -> s_active a = Some f -> owner_ (get_mutex m y) = Some f ->
  exists y', wait f c m y = Some y' /\ op_ok y y'.
Proof.
  intros Ok Hw Ha Ho. unfold wait. rewrite bool_decide_false by (by apply (active_no_queue _ _ _ f Ok Ha)).
  rewrite unlock_condition. destruct (unlock_ok f m y a Ok Hw Ha Ho) as (s1 & a1 & -> & Ok1 & Ha1 & Op1). set (y1 := set_manager _ _) in *.
  cbn [fmap option_fmap option_map mbind option_bind]. destruct (park_ok f c m y1 a1 Ok1 (proj2 (op_inv _ _ Op1)) Ha1) as (s2 & E2 & Op2).
  change (y_manager (set_condition c (get_waiting c y ++ [f]) y1)) with (y_manager y1). rewrite E2. cbn [mbind option_bind].
  eexists. split; [done|]. by apply (op_trans y y1).
Qed.

Lemma notify_ok l1 l2 c y a : sync_ok [] y a -> (forall m', wakes m' y) -> get_waiting c y = l1 ++ l2 ->
  exists y', wake_fibers l1 (set_condition c l2 y) = Some y' /\ op_ok y y'.
Proof.
  intros Ok Hw E. pose proof (dequeue_ok l1 l2 (In_wait c 0) y a Ok E) as Ok1. cbn [set_queue] in Ok1.
  destruct (wake_fibers_ok _ _ _ Ok1) as (s' & a' & -> & Ok2 & _ & Q). eexists. split; [done|].
  split; [split; [by exists a'|]|done|done|by exists []; rewrite app_nil_r]. intros m' Hl. by destruct (Hw m' Hl); [left|right].
Qed.

(** ** Every step *)

Definition is_sync_run (e : sync_event) : bool := match e with Sy_sched e => is_run e | _ => false end.
Definition count_sync_runs (es : list sync_event) : nat := length (List.filter is_sync_run es).

(** The part of the scheduler in an event: [o] is the fiber that is resumed. *)
Definition stepped (e : sync_event) (o : option nat) (s s1 : manager) : Prop :=
  match e with Sy_sched e => enabled e s /\ step e s = Some (o, s1) | _ => o = None /\ s1 = s end.

(** While a mutex stays free, nobody who waits for it is resumed. *)
Record step_ok (e : sync_event) (o : option nat) (y y' : sync) : Prop := {
  st_inv : inv y';
  st_stepped : exists s1, stepped e o (y_manager y) s1 /\ quiet s1 (y_manager y');
  st_conts g k : y_conts y !! g = Some k -> o <> Some g -> y_conts y' !! g = Some k;
  st_log : exists new, y_log y' = y_log y ++ new /\
    forall m, locked (get_mutex m y) = false -> (forall g, (g, m, true) ∉ new) ->
      locked (get_mutex m y') = false /\ forall g, y_conts y !! g = Some (In_lock m) -> o <> Some g
}.

Lemma op_step e y y' : match e with Sy_sched _ => False | _ => True end -> op_ok y y' -> step_ok e None y y'.
Proof.
  intros He [I Q C (new & E & L)]. split; [done| |auto|].
  - exists (y_manager y). split; [by destruct e|done].
  - exists new. split; [done|]. intros m Hl Hn. split; [by apply L|done].
Qed.

Lemma run_one e s o s' : enabled e s -> step e s = Some (o, s') -> runs s [e] (option_list o) s'.
Proof. intros En E. apply (runs_snoc s [] [] s e o s' (runs_nil s) En E). Qed.

Lemma step_runs e o y y' : step_ok e o y y' ->
  exists es, runs (y_manager y) es (option_list o) (y_manager y') /\ count_runs es = count_sync_runs [e].
Proof.
  intros [_ (s1 & Hs & es & Q & Hc) _ _]. destruct e as [e| | | | | |]; try (destruct Hs as [-> ->]; by exists es).
  destruct Hs as [En Es]. exists ([e] ++ es). split; [pose proof (runs_app _ _ _ _ _ _ _ (run_one e _ o _ En Es) Q) as R; by rewrite app_nil_r in R|].
  unfold count_runs, count_sync_runs in *. rewrite List.filter_app, length_app, Hc. cbn. by case_match.
Qed.

Definition cont_mutex (k : cont) : nat := match k with In_lock m | In_wait _ m => m end.

(** A fiber that was suspended here is resumed and tries for the lock. *)
Lemma resumed_ok e f k y s' a : inv y -> enabled e (y_manager y) -> step e (y_manager y) = Some (Some f, s') -> y_conts y !! f = Some k ->
  sync_ok [] (set_conts (delete f (y_conts y)) (set_manager s' y)) a -> s_active a = Some f ->
  exists y', lock f (cont_mutex k) (set_conts (delete f (y_conts y)) (set_manager s' y)) = Some y' /\ step_ok (Sy_sched e) (Some f) y y'.
Proof.
  intros [_ Hw] En Es Hk Ok Ha. set (y1 := set_conts _ _) in *.
  assert (forall m', m' <> cont_mutex k -> wakes m' y1) as Hw1.
  { intros m' Hne Hl. destruct (Hw m' Hl) as [?|(g & Hg & ?)]; [by left|]. right. exists g. split; [|done]. cbn.
    rewrite lookup_delete_ne; [done|]. intros ->. rewrite Hk in Hg. injection Hg as ->. done. }
  destruct (lock_ok f (cont_mutex k) y1 a Ok Ha Hw1) as (y' & -> & [I Q C (new & E & L)] & Ht). exists y'. split; [done|].
  split; [done| | |].
  - by exists s'.
  - intros g k' Hg Hne. apply C. cbn. rewrite lookup_delete_ne; [done|congruence].
  - exists new. split; [done|]. intros m Hl Hn. split; [by apply L|]. intros g Hg [= ->]. rewrite Hk in Hg. injection Hg as ->.
    apply (Hn g). specialize (Ht Hl). rewrite E, drop_app_length in Ht. done.
Qed.

Lemma sched_event_ok e y : inv y -> sync_enabled (Sy_sched e) y ->
  exists o y', sync_step (Sy_sched e) y = Some y' /\ step_ok (Sy_sched e) o y y'.
Proof.
  intros I [En He]. pose proof I as [[a Ok] Hw].
  destruct (sched_step_ok e [] y a Ok En) as (s' & Es & Ok'); [by intros f ->|].
  assert (forall f k, y_conts y !! f = Some k -> (a_step e a).1 = Some f -> s_active (a_step e a).2 = Some f) as Hact.
  { intros f k Hk Ho. eapply parked_resumed; [apply Ok|apply Ok|done|by apply (so_parked _ _ _ Ok)|done]. }
  assert (inv (set_manager s' y) -> (forall f k, y_conts y !! f = Some k -> (a_step e a).1 <> Some f) ->
    step_ok (Sy_sched e) (a_step e a).1 y (set_manager s' y)) as Hplain.
  { intros I' Hn. split; [done| |done|].
    - exists s'. split; [done|apply quiet_refl].
    - exists []. split; [by rewrite app_nil_r|]. intros m Hl _. split; [done|]. intros g Hg. by eapply Hn. }
  exists (a_step e a).1. cbn [sync_step]. rewrite Es. cbn [mbind option_bind]. destruct (a_step e a).1 as [f|] eqn:Eo.
  - unfold goes_on. cbn [y_conts set_manager]. change (foldr delete (y_conts y) (option_list (Some f))) with (delete f (y_conts y)) in Ok'. destruct (y_conts y !! f) as [k|] eqn:Ek.
    + apply (resumed_ok e f k y s' (a_step e a).2); try done. by eapply Hact.
    + exists (set_manager s' y). split; [done|]. apply Hplain; [|intros g k Hg [= ->]; congruence].
      rewrite delete_id in Ok' by done. split; [by exists (a_step e a).2|done].
  - exists (set_manager s' y). split; [done|]. apply Hplain; [|done]. split; [by exists (a_step e a).2|done].
Qed.

(** No step that is allowed fails. *)
Lemma sync_step_ok e y : inv y -> sync_enabled e y -> exists o y', sync_step e y = Some y' /\ step_ok e o y y'.
Proof.
  intros I En. destruct e as [e|m|m|m|c m|c|c]; [by apply sched_event_ok|..]; exists None; destruct I as [[a Ok] Hw];
    pose proof (im_active _ _ (so_implements _ _ _ Ok)) as Ea; cbn [sync_enabled sync_step] in *.
  - destruct En as [f Hf]. rewrite Hf. rewrite Ea in Hf. destruct (lock_ok f m y a Ok Hf) as (y' & E & Op & _); [auto|].
    exists y'. split; [done|by apply op_step].
  - destruct En as [f Hf]. rewrite Hf. unfold try_lock. destruct (lock_if_unlocked_ok f m y a Ok) as [-> _]. cbn [mbind option_bind].
    destruct (locked (get_mutex m y)) eqn:El; cbn [negb].
    + destruct (sched_step_ok Ev_yield [] y a Ok) as (s' & Es & Ok'); [by exists f|done|].
      assert ((a_step Ev_yield a).1 = None) as Eo by (by destruct (run_queue_other Ev_yield a eq_refl)). rewrite Eo in Es, Ok'.
      pose proof (quiet_step Ev_yield (y_manager y) s' ltac:(by exists f) Es eq_refl) as Q. cbn [step] in Es.
      destruct (fm_yield (y_manager y)) as [s|]; [|done]. injection Es as ->. eexists. split; [done|]. apply op_step; [done|].
      split; [split; [by exists (a_step Ev_yield a).2|done]|done|done|by exists []; rewrite app_nil_r].
    + eexists. split; [done|]. apply op_step; [done|]. by eapply taken_ok.
  - destruct En as [[f Hf] Ho]. rewrite Hf in Ho |- *. rewrite Ea in Hf. destruct (unlock_ok f m y a Ok Hw Hf Ho) as (s' & a' & E & _ & _ & Op).
    eexists. split; [done|by apply op_step].
  - destruct En as [[f Hf] Ho]. rewrite Hf in Ho |- *. rewrite Ea in Hf. destruct (cv_wait_ok f c m y a Ok Hw Hf Ho) as (y' & E & Op).
    exists y'. split; [done|by apply op_step].
  - unfold cv_notify_one. rewrite wake_fiber_fibers. destruct (notify_ok (option_list (head (get_waiting c y))) (tail (get_waiting c y)) c y a Ok Hw) as (y' & -> & Op);
      [by destruct (get_waiting c y)|]. exists y'. split; [done|by apply op_step].
  - unfold cv_notify_all. destruct (notify_ok (get_waiting c y) [] c y a Ok Hw) as (y' & -> & Op); [by rewrite app_nil_r|]. exists y'. split; [done|by apply op_step].
Qed.

(** ** Every run *)

Lemma count_sync_snoc es e : count_sync_runs (es ++ [e]) = (count_sync_runs es + count_sync_runs [e])%nat.
Proof. unfold count_sync_runs. by rewrite List.filter_app, length_app. Qed.

(** A run is one of the scheduler; [fs] are the fibers it resumes. *)
Record run_facts (n : nat) (y y' : sync) (fs : list nat) : Prop := {
  rn_inv : inv y';
  rn_runs : exists es, runs (y_manager y) es fs (y_manager y') /\ count_runs es = n;
  rn_log : exists new, y_log y' = y_log y ++ new /\
    forall m, locked (get_mutex m y) = false -> (forall g, (g, m, true) ∉ new) ->
      locked (get_mutex m y') = false /\ forall g, y_conts y !! g = Some (In_lock m) -> (g ∉ fs) /\ y_conts y' !! g = Some (In_lock m)
}.

Lemma sync_runs_ok es y y' : inv y -> sync_runs y es y' -> exists fs, run_facts (count_sync_runs es) y y' fs.
Proof.
  intros I H. induction H as [|es y1 e y2 H (fs & [I1 (es1 & R1 & N1) (n1 & E1 & L1)]) En E].
  - exists []. split; [done|by exists []; split; [constructor|]|]. exists []. split; [by rewrite app_nil_r|]. intros m Hl _. split; [done|].
    intros g Hg. split; [apply not_elem_of_nil|done].
  - destruct (sync_step_ok e y1 I1 En) as (o & y2' & E' & St). rewrite E in E'. injection E' as <-.
    destruct (step_runs e o y1 y2 St) as (es2 & R2 & N2). destruct St as [I2 _ C2 (n2 & E2 & L2)]. exists (fs ++ option_list o). split; [done| |].
    + exists (es1 ++ es2). split; [by eapply runs_app|]. rewrite count_sync_snoc, <- N1, <- N2. unfold count_runs. by rewrite List.filter_app, length_app.
    + exists (n1 ++ n2). split; [by rewrite E2, E1, (assoc_L (++))|]. intros m Hl Hn.
      destruct (L1 m Hl) as [Hl1 Hg1]; [intros g Hg; apply (Hn g), elem_of_app; by left|].
      destruct (L2 m Hl1) as [Hl2 Hg2]; [intros g Hg; apply (Hn g), elem_of_app; by right|]. split; [done|]. intros g Hg.
      destruct (Hg1 g Hg) as [Hf Hc]. pose proof (Hg2 g Hc) as Ho. split; [|by apply C2]. rewrite elem_of_app. intros [?|Hin]; [done|].
      destruct o as [h|]; [|by apply elem_of_nil in Hin]. by apply list_elem_of_singleton in Hin as ->.
Qed.

Lemma new_inv : inv new_sync.
Proof. split; [exists new_sched; apply new_sync_ok|]. intros m _. by left. Qed.

Lemma sync_reachable_inv es y : sync_runs new_sync es y -> inv y.
Proof. intros H. destruct (sync_runs_ok es _ y new_inv H) as (fs & [I _ _]). done. Qed.

(** C24: The mutex and the condition variable keep the scheduler's rules.  In
    every run in which only the holder of a mutex unlocks it and waits with it,
    and in which a fiber that waits here is woken by nothing else, no assertion
    of the mutex, the condition or the scheduler fails: every event that may come
    next succeeds, and what the scheduler is asked to do is a run it allows. *)
Theorem sync_never_fails es y : sync_runs new_sync es y ->
  (forall e, sync_enabled e y -> is_Some (sync_step e y)) /\ exists es' fs, runs new_manager es' fs (y_manager y).
Proof.
  intros H. destruct (sync_runs_ok es _ y new_inv H) as (fs & [I (es' & R & _) _]). split; [|by exists es', fs].
  intros e En. destruct (sync_step_ok e y I En) as (o & y' & -> & _). done.
Qed.

(** C21: A mutex has one holder at a time.  In every run the returns of [lock]
    and [unlock] for a mutex alternate, each [unlock] is by the fiber whose
    [lock] came before it, and [owner_] is the fiber that has locked and not
    unlocked it. *)
Theorem mutual_exclusion es y m : sync_runs new_sync es y -> replay m (y_log y) None = Some (owner_ (get_mutex m y)).
Proof. intros H. destruct (sync_reachable_inv es y H) as [[a Ok] _]. apply Ok. Qed.

(** No fiber sleeps forgotten.  A fiber that is suspended in [lock] or in
    [wait] either waits and is in the queue of its mutex or condition, where
    [unlock] or a notification finds it, or it is in no queue and ready to run;
    it has no deadline and nothing else wakes it.  A fiber in a queue is
    suspended there, and is in it once. *)
Theorem sleeper_is_queued es y : sync_runs new_sync es y ->
  (forall f k, y_conts y !! f = Some k -> exists w, heap (y_manager y) !! f = Some w /\ tp_ w = tp_max /\
    ((state_ w = WAITING /\ f ∈ queue_of k y) \/ (state_ w = READY /\ (f ∉ queue_of k y)))) /\
  (forall k f, f ∈ queue_of k y -> exists k', same_queue k k' /\ y_conts y !! f = Some k') /\ (forall k, NoDup (queue_of k y)).
Proof.
  intros H. destruct (sync_reachable_inv es y H) as [[a Ok] _]. split_and!.
  - intros f k Hk. pose proof (so_parked _ _ _ Ok f k Hk) as Hp. destruct (parked_info _ _ _ Hp) as (i & Hi & Hst & Htp).
    destruct (im_get _ _ _ _ (so_implements _ _ _ Ok) Hi) as (w & Hw & <-). exists w. cbn in Hst, Htp. split_and!; [done|done|].
    destruct (decide (f ∈ queue_of k y)) as [Hq|Hq]; [left|right]; (split; [|done]).
    + by rewrite decide_True in Hst by (by left).
    + rewrite decide_False in Hst; [done|]. rewrite elem_of_nil. tauto.
  - intros k f. apply (queued_cont _ _ _ k f Ok).
  - intros k. by eapply queue_nodup.
Qed.

(** A fiber that waits for a free mutex has one that is awake beside it. *)
Lemma free_mutex_awake y a m f : sync_ok [] y a -> wakes m y -> locked (get_mutex m y) = false -> y_conts y !! f = Some (In_lock m) ->
  exists g w, y_conts y !! g = Some (In_lock m) /\ heap (y_manager y) !! g = Some w /\ state_ w = READY.
Proof.
  intros Ok Hw Hl Hf. assert (exists g, y_conts y !! g = Some (In_lock m) /\ (g ∉ m_waiting (get_mutex m y))) as (g & Hg & Hq).
  { destruct (Hw Hl) as [Hn|?]; [|done]. exists f. split; [done|]. rewrite Hn. apply not_elem_of_nil. }
  pose proof (so_parked _ _ _ Ok g _ Hg) as Hp. rewrite decide_False in Hp by (rewrite elem_of_nil; cbn; tauto).
  destruct (parked_info _ _ _ Hp) as (i & Hi & Hst & _). destruct (im_get _ _ _ _ (so_implements _ _ _ Ok) Hi) as (w & Hw' & <-). by exists g, w.
Qed.

(** C22: A mutex that is free does not stay free while somebody waits for it.
    If a fiber is suspended in [lock] for a mutex that nobody holds when the
    main fiber calls [fm_run], then some fiber takes the mutex in that call or
    before [fm_run] has been called [n] times more, [n] being the number of
    fibers there are after the first call, whatever the fibers do meanwhile. *)
Theorem free_mutex_taken es0 y now y1 es y' m f : sync_runs new_sync es0 y -> sync_enabled (Sy_sched (Ev_run now)) y ->
  locked (get_mutex m y) = false -> y_conts y !! f = Some (In_lock m) -> sync_step (Sy_sched (Ev_run now)) y = Some y1 ->
  sync_runs y1 es y' -> (size (heap (y_manager y1)) <= count_sync_runs es)%nat ->
  exists g, (g, m, true) ∈ drop (length (y_log y)) (y_log y').
Proof.
  intros H0 En Hl Hf E H Hlong. pose proof (sync_reachable_inv es0 y H0) as I. pose proof I as [[a Ok] Hw].
  destruct (free_mutex_awake y a m f Ok (Hw m) Hl Hf) as (g & w & Hg & Hw' & Hr).
  destruct (sync_step_ok _ y I En) as (o & y1' & E' & [I1 (s1 & [_ Es] & es1 & Q & N) C1 (n1 & E1 & L1)]). rewrite E in E'. injection E' as <-.
  destruct (sync_runs_ok es y1 y' I1 H) as (fs & [_ (es2 & R2 & N2) (n2 & E2 & L2)]). rewrite E2, E1, <- (assoc_L (++)), drop_app_length.
  destruct (decide (Exists (fun x => x.1.2 = m /\ x.2 = true) (n1 ++ n2))) as [Hx|Hx].
  { apply Exists_exists in Hx as ([[h m'] b] & Hin & [Em Eb]). cbn in Em, Eb. subst. by exists h. }
  exfalso. rewrite Exists_exists in Hx. assert (forall h, (h, m, true) ∉ n1 ++ n2) as Hn by (intros h Hin; apply Hx; by exists (h, m, true)).
  destruct (L1 m Hl) as [Hl1 Ho]; [intros h Hin; apply (Hn h), elem_of_app; by left|].
  destruct (L2 m Hl1) as [_ Hfs]; [intros h Hin; apply (Hn h), elem_of_app; by right|].
  destruct (Hfs g) as [Hnf _]; [apply C1; auto|]. apply Hnf. clear Hnf Hfs L1 L2 Hn Hx.
  pose proof (so_implements _ _ _ Ok) as Im. pose proof (so_sched _ _ _ Ok) as Oka. destruct En as [[Ha Hnow] _]. rewrite (im_active _ _ Im) in Ha.
  destruct (sim_run now _ a Oka Im Hnow Ha) as (s1' & Es' & Im1). cbn [step] in Es. rewrite Es in Es'. injection Es' as -> <-.
  destruct (ready_queued now _ a g w Oka Im Hw' Hr) as [?|Hin]; [by destruct (Ho g Hg)|].
  pose proof (run_ok now a Oka Hnow Ha) as Ok1. destruct (sim_runs _ _ _ _ _ Ok1 Im1 Q) as (Efs & Im2 & Ok2).
  destruct (trace_queue es1 _ g Hin) as (new & Eq & _). rewrite <- Efs in Eq. cbn [app] in Eq.
  apply (queued_runs (y_manager y1) _ es2 fs (y_manager y') g Ok2 Im2); [rewrite Eq; apply elem_of_app; by left|done|lia].
Qed.

(** ** Examples *)

Lemma run_sync_runs es y0 y : run_sync es y0 = Some y -> sync_runs y0 es y.
Proof.
  assert (forall es1 y1, sync_runs y0 es1 y1 -> forall es y, run_sync es y1 = Some y -> sync_runs y0 (es1 ++ es) y) as H.
  { intros es1 y1 H1 es'. revert es1 y1 H1. induction es' as [|e es' IH]; intros es1 y1 H1 y' E; cbn [run_sync] in E.
    - injection E as <-. by rewrite app_nil_r.
    - case_decide as En; [|done]. destruct (sync_step e y1) as [y2|] eqn:Es; [|done]. cbn [mbind option_bind] in E.
      rewrite (cons_middle e es1 es'), (assoc_L (++)). eapply IH; [|done]. by econstructor. }
  intros E. apply (H [] y0 (sync_runs_nil y0) es y E).
Qed.

(** Fiber 1 takes mutex 0, fiber 2 waits for it; then 1 waits for condition 5
    and so lets go of the mutex. *)
Definition sample_sync : list sync_event :=
  [Sy_sched (Ev_spawn 1); Sy_sched (Ev_spawn 2); Sy_sched (Ev_run 0); Sy_lock 0; Sy_sched Ev_yield;
   Sy_sched (Ev_run 1); Sy_lock 0; Sy_sched (Ev_run 2); Sy_wait 5 0].

(** Fiber 2, which has the mutex now, notifies and unlocks. *)
Definition sample_sync_rest : list sync_event :=
  [Sy_notify_one 5; Sy_unlock 0; Sy_sched Ev_return; Sy_sched (Ev_run 4); Sy_unlock 0; Sy_sched Ev_yield; Sy_sched (Ev_run 5)].

Lemma sync_never_fails_witness : exists y, run_sync sample_sync new_sync = Some y /\ is_Some (sync_step (Sy_sched (Ev_run 3)) y).
Proof.
  assert ((fun y => active_fiber_ (y_manager y)) <$> run_sync sample_sync new_sync = Some None) as E by (vm_compute; reflexivity).
  destruct (run_sync sample_sync new_sync) as [y|] eqn:Er; [|done]. cbn [fmap option_fmap option_map] in E. injection E as Ea. exists y. split; [done|].
  apply (proj1 (sync_never_fails sample_sync y (run_sync_runs _ _ _ Er)) (Sy_sched (Ev_run 3))). by repeat split.
Defined.

Lemma mutual_exclusion_witness : exists y, run_sync sample_sync new_sync = Some y /\ y_log y = [(1, 0, true); (1, 0, false)]%nat /\
  Some (owner_ (get_mutex 0 y)) = replay 0 [(1, 0, true); (1, 0, false)]%nat None.
Proof.
  assert (y_log <$> run_sync sample_sync new_sync = Some [(1, 0, true); (1, 0, false)]%nat) as E by (vm_compute; reflexivity).
  destruct (run_sync sample_sync new_sync) as [y|] eqn:Er; [|done]. cbn [fmap option_fmap option_map] in E. injection E as El. exists y. split_and!; [done|done|].
  rewrite <- El. symmetry. apply (mutual_exclusion sample_sync y 0 (run_sync_runs _ _ _ Er)).
Defined.

Lemma sleeper_is_queued_witness : exists y w, run_sync sample_sync new_sync = Some y /\ y_conts y !! 1%nat = Some (In_wait 5 0) /\
  1%nat ∈ queue_of (In_wait 5 0) y /\ heap (y_manager y) !! 1%nat = Some w /\ state_ w = WAITING.
Proof.
  assert ((fun y => (y_conts y !! 1%nat, get_waiting 5 y)) <$> run_sync sample_sync new_sync = Some (Some (In_wait 5 0), [1%nat])) as E by (vm_compute; reflexivity).
  destruct (run_sync sample_sync new_sync) as [y|] eqn:Er; [|done]. cbn [fmap option_fmap option_map] in E. injection E as Ec Ew.
  destruct (proj1 (sleeper_is_queued sample_sync y (run_sync_runs _ _ _ Er)) 1%nat (In_wait 5 0) Ec) as (w & Hw & _ & Hs).
  assert (1%nat ∈ queue_of (In_wait 5 0) y) as Hq by (cbn; rewrite Ew; by left). exists y, w. split_and!; [done|done|done|done|].
  destruct Hs as [[Hs _]|[_ Hn]]; [exact Hs|destruct (Hn Hq)].
Defined.

Lemma free_mutex_taken_witness : exists y y1 y', run_sync sample_sync new_sync = Some y /\ sync_step (Sy_sched (Ev_run 3)) y = Some y1 /\
  run_sync sample_sync_rest y1 = Some y' /\ exists g, (g, 0, true)%nat ∈ drop (length (y_log y)) (y_log y').
Proof.
  assert ((fun y => (active_fiber_ (y_manager y), locked (get_mutex 0 y), y_conts y !! 2%nat)) <$> run_sync sample_sync new_sync
    = Some (None, false, Some (In_lock 0))) as A by (vm_compute; reflexivity).
  assert ((y ← run_sync sample_sync new_sync; y1 ← sync_step (Sy_sched (Ev_run 3)) y; Some (size (heap (y_manager y1)))) = Some 2%nat) as B by (vm_compute; reflexivity).
  assert ((y ← run_sync sample_sync new_sync; y1 ← sync_step (Sy_sched (Ev_run 3)) y; _ ← run_sync sample_sync_rest y1; Some tt) = Some tt) as C by (vm_compute; reflexivity).
  destruct (run_sync sample_sync new_sync) as [y|] eqn:Er; [|discriminate A]. cbn [mbind option_bind fmap option_fmap option_map] in A, B, C. injection A as Ea El Ec.
  destruct (sync_step (Sy_sched (Ev_run 3)) y) as [y1|] eqn:E1; [|discriminate B]. cbn [mbind option_bind fmap option_fmap option_map] in B, C. injection B as Ez.
  destruct (run_sync sample_sync_rest y1) as [y'|] eqn:E2; [|discriminate C]. exists y, y1, y'. split; [reflexivity|]. split; [exact E1|]. split; [exact E2|].
  apply (free_mutex_taken sample_sync y 3 y1 sample_sync_rest y' 0 2 (run_sync_runs _ _ _ Er) ltac:(by repeat split) El Ec E1 (run_sync_runs _ _ _ E2)).
  rewrite Ez. vm_compute. lia.
Defined.
