(* ===== verification/FiberSyncTidy.v ===== *)
(** * Critical sections on one thread

    The code of the repository never suspends a fiber that holds a mutex, except
    by waiting for a condition with that mutex.  On one thread a critical section
    is then atomic: a fiber that asks for a mutex gets it at once.  The models of
    components that guard their state with a mutex take a critical section as one
    step for this reason. *)

From stdpp Require Import gmap options.
From S2P Require Import Prelude FiberManager FiberQueues FiberScheduler FiberSchedulerOk FiberManagerSpec FiberSync FiberSyncSpec.

(** The active fiber has none of the mutexes that satisfy [P]. *)
Definition has_none (P : nat -> bool) (y : sync) : Prop :=
  map_Forall (fun m x => P m = true -> owner_ x <> active_fiber_ (y_manager y)) (y_mutexes y).

(** What the code does: a fiber lets go of its mutexes before it is suspended,
    and locks no mutex twice. *)
Definition tidy (e : sync_event) (y : sync) : Prop :=
  match e with
  | Sy_sched (Ev_wait_until _ | Ev_yield | Ev_join _ | Ev_return) => has_none (fun _ => true) y
  | Sy_lock m | Sy_try_lock m => has_none (fun m' => bool_decide (m' = m)) y
  | Sy_wait c m => has_none (fun m' => bool_decide (m' <> m)) y
  | _ => True
  end.

#[export] Instance tidy_dec e y : Decision (tidy e y).
Proof. unfold tidy, has_none. destruct e as [e| | | | | |]; [destruct e; apply _|apply _..]. Defined.

Inductive tidy_runs : list sync_event -> sync -> Prop :=
| tidy_runs_nil : tidy_runs [] new_sync
| tidy_runs_snoc es y e y' : tidy_runs es y -> sync_enabled e y -> tidy e y -> sync_step e y = Some y' -> tidy_runs (es ++ [e]) y'.

Fixpoint run_tidy (es : list sync_event) (y : sync) : option sync :=
  match es with
  | [] => Some y
  | e :: es => if decide (sync_enabled e y /\ tidy e y) then y ← sync_step e y; run_tidy es y else None
  end.

Lemma tidy_sync_runs es y : tidy_runs es y -> sync_runs new_sync es y.
Proof. intros H. induction H; by econstructor. Qed.

Lemma has_none_owner P m y f : has_none P y -> P m = true -> active_fiber_ (y_manager y) = Some f -> owner_ (get_mutex m y) <> Some f.
Proof.
  intros Hn Hm Ha. unfold get_mutex. destruct (y_mutexes y !! m) as [x|] eqn:E; [|done]. cbn. rewrite <- Ha. by apply (Hn m x E).
Qed.

(** ** Who runs after an event *)

Definition suspends (e : event) : bool := match e with Ev_wait_until _ | Ev_yield | Ev_join _ | Ev_return => true | _ => false end.

Lemma run_active now a : s_active a = None -> s_active (a_run now a).2 = (a_run now a).1.
Proof.
  intros Ha. unfold a_run. destruct (s_run (a_move_to now a)) as [|f l]; [done|]. cbn [fst snd]. unfold a_join_returns.
  case_match; [|done]. by rewrite (proj2 (release_rest _ _)).
Qed.

Lemma step_active e s o s' a : sched_ok a -> implements s a -> enabled e s -> step e s = Some (o, s') ->
  active_fiber_ s' = if is_run e then o else if suspends e then None else active_fiber_ s.
Proof.
  intros Ok Im En Es. destruct (sim_step e s a Ok Im En) as (s1 & E & Im1 & _). rewrite Es in E. injection E as -> <-.
  rewrite (im_active _ _ Im1), (im_active _ _ Im). pose proof (im_active _ _ Im) as Ea.
  destruct e as [f|now|f|t| |g| |g]; cbn [enabled is_run suspends a_step] in *; try done.
  - destruct En as [Ha _]. rewrite Ea in Ha. by apply run_active.
  - destruct En as [[f Hf] _]. rewrite Ea in Hf. rewrite Hf. apply suspend_rest.
  - destruct En as [f Hf]. rewrite Ea in Hf. rewrite Hf. apply suspend_rest.
  - destruct En as [[f Hf] _]. rewrite Ea in Hf. rewrite Hf. apply suspend_rest.
  - destruct En as [f Hf]. rewrite Ea in Hf. rewrite Hf. apply suspend_rest.
  - apply (proj2 (release_rest g (a_impl _ a))).
Qed.

(** ** The invariant *)

(** Only the active fiber has mutexes, and nobody waits for one. *)
Record tidy_ok (y : sync) : Prop := {
  td_owner m : owner_ (get_mutex m y) = None \/ (owner_ (get_mutex m y) = active_fiber_ (y_manager y));
  td_conts f k : y_conts y !! f = Some k -> exists c m, k = In_wait c m
}.

Lemma new_tidy : tidy_ok new_sync.
Proof. split; [by left|done]. Qed.

Lemma upd_active f g s s' : upd f g s = Some s' -> active_fiber_ s' = active_fiber_ s.
Proof. unfold upd. destruct (heap s !! f); [|done]. by intros [= <-]. Qed.

Lemma set_ready_active f s s' : set_ready f s = Some s' -> active_fiber_ s' = active_fiber_ s.
Proof.
  assert (forall c (s s' : manager), assert c s = Some s' -> active_fiber_ s' = active_fiber_ s) as Ha by (by intros [] ? ? [= <-]).
  unfold set_ready, move_to_run. intros E.
  repeat match goal with
  | H : (_ ≫= _) = Some _ |- _ => apply bind_Some in H as (? & ? & ?)
  | H : upd _ _ _ = Some _ |- _ => apply upd_active in H
  | H : assert _ _ = Some _ |- _ => apply Ha in H
  | H : get _ _ = Some _ |- _ => clear H
  | H : Some _ = Some _ |- _ => injection H as <-
  | H : match ?x with _ => _ end = Some _ |- _ => destruct x
  end; cbn in *; congruence.
Qed.

Lemma wake_fibers_rest l y y' : wake_fibers l y = Some y' -> exists s, y' = set_manager s y /\ active_fiber_ s = active_fiber_ (y_manager y).
Proof.
  revert y. induction l as [|f l IH]; intros y E; cbn [wake_fibers] in E.
  - injection E as <-. exists (y_manager y). by destruct y.
  - unfold wake_fiber in E. destruct (set_ready f (y_manager y)) as [s|] eqn:Es; [|done]. cbn [mbind option_bind] in E.
    destruct (IH _ E) as (s2 & -> & Ha). exists s2. split; [done|]. cbn in Ha. rewrite Ha. by eapply set_ready_active.
Qed.

Lemma tidy_same y y' : tidy_ok y -> (forall m, owner_ (get_mutex m y') = owner_ (get_mutex m y)) ->
  (active_fiber_ (y_manager y') = active_fiber_ (y_manager y) \/ forall m, owner_ (get_mutex m y) = None) ->
  (forall f k, y_conts y' !! f = Some k -> y_conts y !! f = Some k \/ exists c m, k = In_wait c m) -> tidy_ok y'.
Proof.
  intros [T1 T2] Ho Ha Hc. split.
  - intros m. rewrite Ho. destruct Ha as [->|Hn]; [apply T1|by left].
  - intros f k Hk. destruct (Hc f k Hk) as [?|?]; [by eapply T2|done].
Qed.

(** A mutex that the active fiber does not have is free, and it gets it. *)
Lemma tidy_lock f m y : locked (get_mutex m y) = bool_decide (is_Some (owner_ (get_mutex m y))) -> owner_ (get_mutex m y) = None ->
  lock_if_unlocked_ f m y = Some (true, add_log (f, m, true) (set_mutex m (mk_mutex true (Some f) (m_waiting (get_mutex m y))) y)).
Proof. intros El Eo. unfold lock_if_unlocked_. by rewrite El, Eo. Qed.

Lemma tidy_free f m y : tidy_ok y -> active_fiber_ (y_manager y) = Some f -> owner_ (get_mutex m y) <> Some f -> owner_ (get_mutex m y) = None.
Proof. intros [T _] Ha Hne. destruct (T m) as [?|E]; [done|congruence]. Qed.

Lemma tidy_taken f m y : tidy_ok y -> active_fiber_ (y_manager y) = Some f -> owner_ (get_mutex m y) <> Some f ->
  tidy_ok (add_log (f, m, true) (set_mutex m (mk_mutex true (Some f) (m_waiting (get_mutex m y))) y)).
Proof.
  intros [T1 T2] Ha Hne. split; [|done]. intros m'. change (get_mutex m' (add_log ?x ?z)) with (get_mutex m' z). rewrite get_set_mutex.
  case_decide; [right; by symmetry|apply T1].
Qed.

Lemma tidy_unlock f m y y' : inv y -> tidy_ok y -> active_fiber_ (y_manager y) = Some f -> owner_ (get_mutex m y) = Some f -> unlock f m y = Some y' ->
  tidy_ok y' /\ active_fiber_ (y_manager y') = Some f /\ y_conts y' = y_conts y /\ (forall m', m' <> m -> owner_ (get_mutex m' y') = owner_ (get_mutex m' y)) /\
  owner_ (get_mutex m y') = None.
Proof.
  intros [[a Ok] _] [T1 T2] Ha Ho E. unfold unlock in E. rewrite (so_owner _ _ _ Ok m), Ho in E. rewrite !bool_decide_true in E by done. cbn [andb] in E.
  rewrite wake_fiber_fibers in E. apply wake_fibers_rest in E as (s & -> & Ea). cbn in Ea. set (y1 := set_manager _ _).
  assert (forall m', owner_ (get_mutex m' y1) = if decide (m' = m) then None else owner_ (get_mutex m' y)) as Eo.
  { intros m'. unfold y1. change (get_mutex m' (set_manager s (add_log ?x ?z))) with (get_mutex m' z). rewrite get_set_mutex. by case_decide. }
  split_and!; [|by rewrite <- Ha|done| |].
  - split; [|done]. intros m'. rewrite Eo. case_decide; [by left|]. cbn. rewrite Ea. apply T1.
  - intros m' Hne. rewrite Eo. by rewrite decide_False.
  - rewrite Eo. by rewrite decide_True.
Qed.

Lemma step_resumes e s o s' : step e s = Some (o, s') -> is_run e = false -> o = None.
Proof. intros E He. destruct e; try done; cbn [step] in E; apply fmap_Some in E as (? & _ & E); by injection E. Qed.

Lemma tidy_sched e y y' : inv y -> tidy_ok y -> sync_enabled (Sy_sched e) y -> tidy (Sy_sched e) y -> sync_step (Sy_sched e) y = Some y' -> tidy_ok y'.
Proof.
  intros [[a Ok] _] T [En _] Ht E. cbn [sync_step] in E. destruct (step e (y_manager y)) as [[o s1]|] eqn:Es; [|done]. cbn [mbind option_bind] in E.
  pose proof (step_active e _ o s1 a (so_sched _ _ _ Ok) (so_implements _ _ _ Ok) En Es) as Ha. destruct (is_run e) eqn:Er.
  - destruct e as [|now| | | | | |]; try done. destruct En as [Hn _]. assert (forall m, owner_ (get_mutex m y) = None) as Hfree.
    { intros m. destruct (td_owner y T m) as [?|Hm]; congruence. }
    assert (tidy_ok (set_manager s1 y)) as T1 by (apply (tidy_same y); [done|done|by right|by left]).
    destruct o as [f|]; [|by injection E as <-]. unfold goes_on in E. cbn [y_conts set_manager] in E.
    destruct (y_conts y !! f) as [k|] eqn:Ek; [|by injection E as <-]. destruct (td_conts y T f k Ek) as (c & m & ->).
    unfold lock in E. set (y1 := set_conts _ _) in E. rewrite tidy_lock in E; [|apply (so_owner _ _ _ Ok)|apply Hfree]. cbn [mbind option_bind] in E. injection E as <-.
    apply tidy_taken; [|done|change (owner_ (get_mutex m y) <> Some f); by rewrite Hfree]. apply (tidy_same y); [done|done|by right|]. intros g k'. cbn. rewrite lookup_delete_Some. naive_solver.
  - rewrite (step_resumes e _ _ _ Es Er) in E. injection E as <-. apply (tidy_same y); [done|done| |by left]. cbn [y_manager set_manager].
    destruct (suspends e) eqn:Esu; [right|by left]. intros m. destruct (active_fiber_ (y_manager y)) as [f|] eqn:Ea.
    + apply (tidy_free f m y T Ea). apply (has_none_owner (fun _ => true) m y f); [by destruct e|done|done].
    + destruct (td_owner y T m) as [?|Hm]; congruence.
Qed.

Lemma tidy_wait f c m y y' : inv y -> tidy_ok y -> active_fiber_ (y_manager y) = Some f -> owner_ (get_mutex m y) = Some f ->
  (forall m', m' <> m -> owner_ (get_mutex m' y) <> Some f) -> wait f c m y = Some y' -> tidy_ok y'.
Proof.
  intros I T Ha Ho Hn E. unfold wait in E. case_bool_decide; [done|]. rewrite unlock_condition in E.
  destruct (unlock f m y) as [y1|] eqn:E1; [|done]. cbn [fmap option_fmap option_map mbind option_bind] in E.
  destruct (tidy_unlock f m y y1 I T Ha Ho E1) as (T1 & Ha1 & Ec & Hm & Hm0). change (y_manager (set_condition ?c ?l y1)) with (y_manager y1) in E.
  destruct (fm_wait (y_manager y1)) as [s2|] eqn:E2; [|done]. cbn [mbind option_bind] in E. injection E as <-.
  apply (tidy_same y1); [done|done| |].
  - right. intros m'. destruct (decide (m' = m)) as [->|Hne]; [done|]. rewrite (Hm m' Hne). apply (tidy_free f m' y T Ha). by apply Hn.
  - intros g k. cbn. rewrite lookup_insert_Some. intros [[_ <-]|[_ ?]]; [right; by eauto|by left].
Qed.

Lemma tidy_step e y y' : inv y -> tidy_ok y -> sync_enabled e y -> tidy e y -> sync_step e y = Some y' -> tidy_ok y'.
Proof.
  intros I T En Ht E. destruct e as [e|m|m|m|c m|c|c]; [by eapply tidy_sched|..]; pose proof I as [[a Ok] _]; cbn [sync_enabled sync_step] in *.
  - destruct En as [f Hf]. rewrite Hf in E. assert (owner_ (get_mutex m y) <> Some f) as Hne by (eapply has_none_owner; [done|by apply bool_decide_true|done]).
    unfold lock in E. rewrite tidy_lock in E; [|apply (so_owner _ _ _ Ok)|by eapply tidy_free]. injection E as <-. by apply tidy_taken.
  - destruct En as [f Hf]. rewrite Hf in E. assert (owner_ (get_mutex m y) <> Some f) as Hne by (eapply has_none_owner; [done|by apply bool_decide_true|done]).
    unfold try_lock in E. rewrite tidy_lock in E; [|apply (so_owner _ _ _ Ok)|by eapply tidy_free]. injection E as <-. by apply tidy_taken.
  - destruct En as [[f Hf] Ho]. rewrite Hf in Ho, E. by eapply tidy_unlock.
  - destruct En as [[f Hf] Ho]. rewrite Hf in Ho, E. apply (tidy_wait f c m y y'); try done. intros m' Hne. eapply has_none_owner; [done| |done].
    by apply bool_decide_true.
  - unfold cv_notify_one in E. rewrite wake_fiber_fibers in E. apply wake_fibers_rest in E as (s & -> & Ha). apply (tidy_same y); [done|done|by left|by left].
  - unfold cv_notify_all in E. apply wake_fibers_rest in E as (s & -> & Ha). apply (tidy_same y); [done|done|by left|by left].
Qed.

Lemma tidy_reachable es y : tidy_runs es y -> inv y /\ tidy_ok y.
Proof.
  intros H. split; [eapply sync_reachable_inv, tidy_sync_runs; done|]. induction H as [|es y e y' H IH En Ht E]; [apply new_tidy|].
  eapply tidy_step; [eapply sync_reachable_inv, tidy_sync_runs; done|done..].
Qed.

(** C23: Critical sections on one thread are atomic.  If fibers let go of their
    mutexes before they are suspended, other than by waiting for a condition with
    the mutex, and lock no mutex they have, then in every run a mutex is only ever
    held by the running fiber, no fiber is ever suspended in [lock], and a fiber
    that locks gets the mutex at once: the scheduler is not entered. *)
Theorem critical_sections_atomic es y : tidy_runs es y ->
  (forall m, owner_ (get_mutex m y) = None \/ owner_ (get_mutex m y) = active_fiber_ (y_manager y)) /\
  (forall f m, y_conts y !! f <> Some (In_lock m)) /\
  (forall f m, active_fiber_ (y_manager y) = Some f -> owner_ (get_mutex m y) <> Some f -> exists y', lock f m y = Some y' /\
    owner_ (get_mutex m y') = Some f /\ y_manager y' = y_manager y).
Proof.
  intros H. destruct (tidy_reachable es y H) as [[[a Ok] _] T]. split_and!.
  - apply T.
  - intros f m Hk. by destruct (td_conts y T f _ Hk) as (? & ? & ?).
  - intros f m Ha Hne. unfold lock. rewrite tidy_lock; [|apply (so_owner _ _ _ Ok)|by eapply tidy_free]. cbn [mbind option_bind].
    eexists. split; [done|]. split; [|done]. change (get_mutex m (add_log ?x ?z)) with (get_mutex m z). by rewrite get_set_mutex, decide_True.
Qed.

(** ** An example *)

Lemma run_tidy_runs es y : run_tidy es new_sync = Some y -> tidy_runs es y.
Proof.
  assert (forall es1 y1, tidy_runs es1 y1 -> forall es y, run_tidy es y1 = Some y -> tidy_runs (es1 ++ es) y) as H.
  { intros es1 y1 H1 es'. revert es1 y1 H1. induction es' as [|e es' IH]; intros es1 y1 H1 y' E; cbn [run_tidy] in E.
    - injection E as <-. by rewrite app_nil_r.
    - case_decide as En; [|done]. destruct (sync_step e y1) as [y2|] eqn:Es; [|done]. cbn [mbind option_bind] in E.
      rewrite (cons_middle e es1 es'), (assoc_L (++)). eapply IH; [|done]. destruct En. by econstructor. }
  intros E. apply (H [] new_sync tidy_runs_nil es y E).
Qed.

(** Fiber 1 waits for condition 5; fiber 2 has mutex 0 and notifies. *)
Definition sample_tidy : list sync_event :=
  [Sy_sched (Ev_spawn 1); Sy_sched (Ev_spawn 2); Sy_sched (Ev_run 0); Sy_lock 0; Sy_wait 5 0;
   Sy_sched (Ev_run 1); Sy_lock 0; Sy_notify_one 5; Sy_unlock 0; Sy_sched Ev_yield; Sy_sched (Ev_run 2);
   Sy_sched Ev_yield; Sy_sched (Ev_run 3); Sy_unlock 0].

Lemma critical_sections_atomic_witness : exists y y', run_tidy sample_tidy new_sync = Some y /\ lock 1 0 y = Some y' /\ y_manager y' = y_manager y.
Proof.
  assert ((fun y => (active_fiber_ (y_manager y), owner_ (get_mutex 0 y))) <$> run_tidy sample_tidy new_sync = Some (Some 1%nat, None)) as E by (vm_compute; reflexivity).
  destruct (run_tidy sample_tidy new_sync) as [y|] eqn:Er; [|discriminate E]. cbn [fmap option_fmap option_map] in E. injection E as Ea Eo.
  destruct (proj2 (proj2 (critical_sections_atomic sample_tidy y (run_tidy_runs _ _ Er))) 1%nat 0%nat Ea) as (y' & El & _ & Em); [by rewrite Eo|].
  exists y, y'. split; [reflexivity|]. split; [exact El|exact Em].
Defined.
