(* ===== verification/FiberQueueNodes.v ===== *)
(** * The nodes of the fiber queues

    [unbounded_queue] and [bounded_queue] of [core/boost-fiber] keep their
    values in a singly linked list with a pointer to each end.  Pointers are keys
    of a heap; a node is deleted with the last pointer to it, which for both
    queues is when its value has been taken. *)

From stdpp Require Import gmap options.
From S2P Require Import Prelude.

Inductive queue_state := OPEN | CLOSED.

#[export] Instance queue_state_eq_dec : EqDecision queue_state.
Proof. solve_decision. Defined.

Inductive queue_op_status := success | empty | full | closed | timeout.

#[export] Instance queue_op_status_eq_dec : EqDecision queue_op_status.
Proof. solve_decision. Defined.

(** How a call goes on: it returns, with the value it has taken, it throws, or
    its fiber waits for a condition. *)
Inductive outcome {T : Type} := Returns (st : queue_op_status) (v : option T) | Throws | Waits.
Arguments outcome : clear implicits.

Section nodes.
Context {T : Type}.

Record node := mk_node { va : T; next : option nat }.

Record chain := mk_chain { nodes : gmap nat node; head_ : option nat; tail_ : option nat }.

Definition empty_chain : chain := mk_chain ∅ None None.

Definition set_next (x : nat) (n : option nat) (h : gmap nat node) : option (gmap nat node) :=
  w ← h !! x; Some (<[x := mk_node (va w) n]> h).

(** [new node_type( va)]. *)
Definition new_node (x : nat) (v : T) (c : chain) : chain := mk_chain (<[x := mk_node v None]> (nodes c)) (head_ c) (tail_ c).

Definition delete_node (x : nat) (c : chain) : chain := mk_chain (delete x (nodes c)) (head_ c) (tail_ c).

(** [None] is a null pointer that is followed. *)
Definition link_tail (x : nat) (c : chain) : option chain :=
  match head_ c with
  | None => Some (mk_chain (nodes c) (Some x) (Some x))
  | Some _ =>
      t ← tail_ c;
      h ← set_next t (Some x) (nodes c);
      Some (mk_chain h (head_ c) (Some x))
  end.

Definition unlink_head (c : chain) : option (nat * chain) :=
  x ← head_ c;
  w ← nodes c !! x;
  h ← set_next x None (nodes c);
  Some (x, mk_chain h (next w) (match next w with None => None | Some _ => tail_ c end)).

(** ** The list that the nodes form *)

(** From the node [x] the list [l] of nodes with their values, to the end. *)
Fixpoint seg (h : gmap nat node) (x : option nat) (l : list (nat * T)) : Prop :=
  match l with
  | [] => x = None
  | (y, v) :: l => x = Some y /\ exists n, h !! y = Some (mk_node v n) /\ seg h n l
  end.

Record holds (c : chain) (l : list (nat * T)) : Prop := {
  hd_seg : seg (nodes c) (head_ c) l;
  hd_tail : tail_ c = last (l.*1);
  hd_nodup : NoDup (l.*1)
}.

Lemma empty_holds : holds empty_chain [].
Proof. split; [done|done|apply NoDup_nil_2]. Qed.

Lemma seg_frame h h' x l : (forall y, y ∈ l.*1 -> h' !! y = h !! y) -> seg h x l -> seg h' x l.
Proof.
  revert x. induction l as [|[y v] l IH]; intros x Hh; [done|]. cbn. intros (-> & n & Hy & Hs). split; [done|]. exists n.
  rewrite Hh by (by left). split; [done|]. apply IH; [|done]. intros z Hz. apply Hh. by right.
Qed.

Lemma seg_lookup h x l y v : seg h x l -> (y, v) ∈ l -> exists n, h !! y = Some (mk_node v n).
Proof.
  revert x. induction l as [|[z u] l IH]; intros x; [by intros _ ?%elem_of_nil|]. cbn. intros (_ & n & Hz & Hs) [[= -> ->]|Hin]%elem_of_cons; [by exists n|].
  by eapply IH.
Qed.

Lemma seg_snoc h x l y v : seg h x (l ++ [(y, v)]) -> h !! y = Some (mk_node v None).
Proof.
  revert x. induction l as [|[z u] l IH]; intros x; cbn; intros (_ & n & Hz & Hs); [by subst|by eapply IH].
Qed.

(** The node behind the last one. *)
Lemma seg_link h x l y v z w : (z ∉ (l ++ [(y, v)]).*1) -> NoDup ((l ++ [(y, v)]).*1) -> seg h x (l ++ [(y, v)]) -> h !! z = Some (mk_node w None) ->
  seg (<[y := mk_node v (Some z)]> h) x (l ++ [(y, v)] ++ [(z, w)]).
Proof.
  revert x. induction l as [|[y' v'] l IH]; intros x Hz Hnd Hs Hw; cbn in *.
  - destruct Hs as (-> & n & _). split; [done|]. exists (Some z). rewrite lookup_insert_eq. split; [done|]. split; [done|]. exists None.
    rewrite lookup_insert_ne by (intros ->; apply Hz; by left). done.
  - apply not_elem_of_cons in Hz as [Hne Hz]. apply NoDup_cons in Hnd as [Hy Hnd]. destruct Hs as (-> & n & Hn & Hs). split; [done|]. exists n.
    rewrite lookup_insert_ne; [by split; [|apply IH]|]. intros <-. apply Hy. rewrite fmap_app. cbn. apply elem_of_app. right. by left.
Qed.

Lemma link_tail_ok x v c l : holds c l -> nodes c !! x = Some (mk_node v None) -> (x ∉ l.*1) ->
  exists c', link_tail x c = Some c' /\ holds c' (l ++ [(x, v)]) /\ (forall y, (y ∉ l.*1) -> nodes c' !! y = nodes c !! y).
Proof.
  intros [S E N] Hx Hl. unfold link_tail. destruct l as [|[z u] l] using rev_ind; [|clear IHl].
  - cbn in S. rewrite S. eexists. split; [done|]. split; [|done]. split; [cbn; by eauto|done|apply NoDup_singleton].
  - assert (exists a, head_ c = Some a) as [a Ha] by (destruct l as [|[y w] l]; cbn in S; destruct S as [-> _]; by eexists).
    rewrite Ha. rewrite fmap_app in E. cbn in E. rewrite last_snoc in E. rewrite E. cbn [mbind option_bind]. unfold set_next.
    rewrite (seg_snoc _ _ _ _ _ S). cbn [mbind option_bind]. eexists. split; [done|]. split; [split|].
    + cbn [nodes head_]. rewrite <- app_assoc, <- Ha. cbn [va]. by apply seg_link.
    + cbn [tail_]. rewrite fmap_app. symmetry. apply (last_snoc x ((l ++ [(z, u)]).*1)).
    + rewrite fmap_app. apply NoDup_app. split_and!; [done| |apply NoDup_singleton]. intros y Hy ->%list_elem_of_singleton. done.
    + intros y Hy. cbn. rewrite lookup_insert_ne; [done|]. intros <-. apply Hy. rewrite fmap_app. apply elem_of_app. right. by left.
Qed.

Lemma unlink_head_ok x v c l : holds c ((x, v) :: l) -> exists c', unlink_head c = Some (x, c') /\ holds (delete_node x c') l /\
  nodes c' !! x = Some (mk_node v None) /\ (forall y, y <> x -> nodes c' !! y = nodes c !! y).
Proof.
  intros [S E N]. destruct S as (Eh & n & Hx & S). unfold unlink_head, set_next. rewrite Eh. cbn [mbind option_bind]. rewrite Hx. cbn [mbind option_bind].
  eexists. split; [done|]. cbn in N. apply NoDup_cons in N as [Hnx N]. split; [split|].
  - cbn. apply (seg_frame (nodes c)); [|done]. intros y Hy. rewrite lookup_delete_ne, lookup_insert_ne; [done|intros ->; done..].
  - cbn. destruct l as [|[y w] l]; cbn in S; [by subst|]. destruct S as [-> _]. done.
  - done.
  - cbn. split; [apply lookup_insert_eq|]. intros y Hy. by apply lookup_insert_ne.
Qed.

Lemma holds_new x v c l : holds c l -> nodes c !! x = None -> holds (new_node x v c) l /\ (x ∉ l.*1).
Proof.
  intros [S E N] Hx. assert (x ∉ l.*1) as Hl.
  { intros ([y u] & -> & Hin)%list_elem_of_fmap. destruct (seg_lookup _ _ _ _ _ S Hin) as [n Hn]. cbn in Hx. congruence. }
  split; [|done]. split; [|done|done]. apply (seg_frame (nodes c)); [|done]. intros y Hy. cbn. apply lookup_insert_ne. by intros ->.
Qed.

Lemma holds_delete x c l : holds c l -> (x ∉ l.*1) -> holds (delete_node x c) l.
Proof.
  intros [S E N] Hl. split; [|done|done]. apply (seg_frame (nodes c)); [|done]. intros y Hy. cbn. apply lookup_delete_ne. by intros ->.
Qed.

Lemma holds_empty c l : holds c l -> head_ c = None <-> l = [].
Proof. intros [S _ _]. destruct l as [|[x v] l]; cbn in S; [done|]. destruct S as [-> _]. done. Qed.
End nodes.

(** Distinct waiting fibers are at most as many as suspended ones. *)
Lemma waiting_bound {A} (l : list nat) (m : gmap nat A) : NoDup l -> (forall x, x ∈ l -> is_Some (m !! x)) -> (length l <= size m)%nat.
Proof.
  intros Hnd Hl. rewrite <- (size_list_to_set (C := gset nat)) by done. rewrite <- size_dom. apply subseteq_size.
  intros x Hx%elem_of_list_to_set. by apply elem_of_dom, Hl.
Qed.

Lemma waiting_strict {A} (l : list nat) (m : gmap nat A) : NoDup l -> (forall x, x ∈ l -> is_Some (m !! x)) -> (length l < size m)%nat ->
  exists x, is_Some (m !! x) /\ (x ∉ l).
Proof.
  intros Hnd Hl Hlt. destruct (set_choose_or_empty (dom m ∖ list_to_set l : gset nat)) as [[x Hx]|He].
  - apply elem_of_difference in Hx as [Hx Hn]. exists x. split; [by apply elem_of_dom|]. by rewrite elem_of_list_to_set in Hn.
  - assert (dom m ⊆@{gset nat} list_to_set l) as Hs%subseteq_size by set_solver. rewrite size_list_to_set, size_dom in Hs by done. lia.
Qed.

Arguments node : clear implicits.
Arguments chain : clear implicits.
