(* ===== verification/FiberUnboundedQueue.v ===== *)
(** * [unbounded_queue]: values passed between fibers

    The queue of [core/boost-fiber/boost/fiber/unbounded_queue.hpp].  A call is
    what its fiber does between two points at which it can be suspended: its
    mutex is never held there, so that a critical section is one step
    ([critical_sections_atomic]).  [None] is a failed assertion or a null
    pointer. *)

From stdpp Require Import gmap options.
From S2P Require Import Prelude FiberQueueNodes.

(** The member function a suspended fiber goes on in. *)
Inductive popping := In_pop | In_value_pop | In_pop_until.

#[export] Instance popping_eq_dec : EqDecision popping.
Proof. solve_decision. Defined.

Section queue.
Context {T : Type}.

(** [q_conts]: the fibers that wait or have been woken. *)
Record queue := mk_queue {
  state_ : queue_state;
  q_chain : chain T;
  not_empty_cond_ : list nat;
  q_conts : gmap nat popping
}.

Definition new_queue : queue := mk_queue OPEN empty_chain [] ∅.

Definition set_chain c q := mk_queue (state_ q) c (not_empty_cond_ q) (q_conts q).
Definition set_waiting l q := mk_queue (state_ q) (q_chain q) l (q_conts q).
Definition set_conts k q := mk_queue (state_ q) (q_chain q) (not_empty_cond_ q) k.

Definition is_closed_ (q : queue) : bool := bool_decide (state_ q = CLOSED).
Definition is_empty_ (q : queue) : bool := bool_decide (head_ (q_chain q) = None).

(** [notify_one], [notify_all], and [wait] and [wait_until] of [condition]; only
    [wait] asserts that the fiber does not wait yet. *)
Definition notify_one (q : queue) : queue := set_waiting (tail (not_empty_cond_ q)) q.
Definition notify_all (q : queue) : queue := set_waiting [] q.
Definition wait (f : nat) (k : popping) (q : queue) : option queue :=
  if bool_decide (k <> In_pop_until /\ f ∈ not_empty_cond_ q) then None
  else Some (set_conts (<[f := k]> (q_conts q)) (set_waiting (not_empty_cond_ q ++ [f]) q)).

Definition close_ (q : queue) : queue :=
  notify_all (mk_queue CLOSED (q_chain q) (not_empty_cond_ q) (q_conts q)).

Definition push_tail_ (x : nat) (q : queue) : option queue := c ← link_tail x (q_chain q); Some (set_chain c q).

Definition push_and_notify_ (x : nat) (q : queue) : option (outcome T * queue) :=
  q ← push_tail_ x q;
  Some (Returns success None, notify_one q).

(** A node that was not linked is deleted when the call returns. *)
Definition push_ (x : nat) (q : queue) : option (outcome T * queue) :=
  if is_closed_ q then Some (Returns closed None, set_chain (delete_node x (q_chain q)) q) else push_and_notify_ x q.

(** [x]: the address of the new node. *)
Definition push (x : nat) (v : T) (q : queue) : option (outcome T * queue) := push_ x (set_chain (new_node x v (q_chain q)) q).

Definition pop_head_ (q : queue) : option (nat * queue) := '(x, c) ← unlink_head (q_chain q); Some (x, set_chain c q).

Definition value_pop_ (q : queue) : option (T * queue) :=
  if is_empty_ q then None
  else
    '(x, q) ← pop_head_ q;
    w ← nodes (q_chain q) !! x;
    Some (va w, set_chain (delete_node x (q_chain q)) q).

(** [pop], [value_pop] and [pop_wait_until] from where the fiber [f] has the
    mutex, at the beginning or behind [wait]. *)
Definition pop (f : nat) (k : popping) (q : queue) : option (outcome T * queue) :=
  if negb (is_closed_ q) && is_empty_ q then q ← wait f k q; Some (Waits, q)
  else if is_closed_ q && is_empty_ q then Some (match k with In_value_pop => Throws | _ => Returns closed None end, q)
  else '(v, q) ← value_pop_ q; Some (Returns success (Some v), q).

Definition try_pop (q : queue) : option (outcome T * queue) :=
  if is_closed_ q && is_empty_ q then Some (Returns closed None, q)
  else if is_empty_ q then Some (Returns empty None, q)
  else '(v, q) ← value_pop_ q; Some (Returns success (Some v), q).

(** The fiber [f] is resumed; [late]: its deadline has passed. *)
Definition resume (f : nat) (late : bool) (q : queue) : option (outcome T * queue) :=
  k ← q_conts q !! f;
  let q := set_conts (delete f (q_conts q)) q in
  if late && bool_decide (k = In_pop_until) then
    Some (Returns timeout None, set_waiting (filter (fun g => g <> f) (not_empty_cond_ q)) q)
  else pop f k q.

(** ** Runs *)

Inductive event :=
| Ev_push (x : nat) (v : T)
| Ev_pop (f : nat) (k : popping)
| Ev_try_pop
| Ev_close
| Ev_resume (f : nat) (late : bool).

Definition enabled (e : event) (q : queue) : Prop :=
  match e with
  | Ev_push x _ => nodes (q_chain q) !! x = None
  | Ev_pop f _ => q_conts q !! f = None
  | Ev_resume f late =>
      is_Some (q_conts q !! f) /\ ((f ∉ not_empty_cond_ q) \/ (late = true /\ q_conts q !! f = Some In_pop_until))
  | Ev_try_pop | Ev_close => True
  end.

#[export] Instance enabled_dec e q : Decision (enabled e q).
Proof. unfold enabled. destruct e; apply _. Defined.

Definition step (e : event) (q : queue) : option (outcome T * queue) :=
  match e with
  | Ev_push x v => push x v q
  | Ev_pop f k => pop f k q
  | Ev_try_pop => try_pop q
  | Ev_close => Some (Returns success None, close_ q)
  | Ev_resume f late => resume f late q
  end.

(** A run: the events with their outcomes. *)
Inductive runs : list (event * outcome T) -> queue -> Prop :=
| runs_nil : runs [] new_queue
| runs_snoc es q e o q' : runs es q -> enabled e q -> step e q = Some (o, q') -> runs (es ++ [(e, o)]) q'.

(** The values whose [push] succeeded, and those that were handed out. *)
Definition accepted (es : list (event * outcome T)) : list T :=
  omap (fun x => match x with (Ev_push _ v, Returns success _) => Some v | _ => None end) es.
Definition taken (es : list (event * outcome T)) : list T :=
  omap (fun x => match x with (_, Returns _ v) => v | _ => None end) es.

Fixpoint run_events (es : list event) (q : queue) : option (list (event * outcome T) * queue) :=
  match es with
  | [] => Some ([], q)
  | e :: es =>
      if decide (enabled e q) then
        '(o, q) ← step e q;
        '(os, q) ← run_events es q;
        Some ((e, o) :: os, q)
      else None
  end.
End queue.

Arguments queue : clear implicits.
Arguments event : clear implicits.
