(* ===== verification/FiberUnboundedQueueSpec.v ===== *)
(** * What [unbounded_queue] promises

    It is a first-in first-out queue, no assertion of it fails, and while only
    calls without a deadline wait for a value none of them is forgotten. *)

From stdpp Require Import gmap options.
From S2P Require Import Prelude FiberQueueNodes FiberUnboundedQueue.

Section spec.
Context {T : Type}.
Implicit Types q : queue T.

(** [l]: the nodes of the queue with their values. *)
Record queue_ok (l : list (nat * T)) (q : queue T) : Prop := {
  qo_chain : holds (q_chain q) l;
  qo_nodes x : is_Some (nodes (q_chain q) !! x) -> x ∈ l.*1;
  qo_waiting x : x ∈ not_empty_cond_ q -> is_Some (q_conts q !! x);
  qo_nodup : NoDup (not_empty_cond_ q);
  qo_closed : state_ q = CLOSED -> not_empty_cond_ q = []
}.

Definition inv q : Prop := exists l, queue_ok l q.

Lemma new_ok : queue_ok [] (new_queue (T := T)).
Proof. split; try done; [apply empty_holds|intros x [w Hw]; cbn in Hw; by rewrite lookup_empty in Hw|by intros x ?%elem_of_nil|apply NoDup_nil_2]. Qed.

Lemma empty_ok l q : queue_ok l q -> is_empty_ q = bool_decide (l = []).
Proof. intros Ok. unfold is_empty_. apply bool_decide_ext. apply holds_empty, Ok. Qed.

Lemma push_ok x v l q : queue_ok l q -> nodes (q_chain q) !! x = None -> exists o q', push x v q = Some (o, q') /\
  (if decide (state_ q = CLOSED) then o = Returns closed None /\ queue_ok l q' /\ q_conts q' = q_conts q /\ not_empty_cond_ q' = not_empty_cond_ q
   else o = Returns success None /\ queue_ok (l ++ [(x, v)]) q' /\ q_conts q' = q_conts q /\ not_empty_cond_ q' = tail (not_empty_cond_ q)).
Proof.
  intros Ok Hx. destruct (holds_new x v _ l (qo_chain _ _ Ok) Hx) as [Hh Hl]. unfold push, push_, is_closed_. cbn [state_ set_chain].
  destruct (decide (state_ q = CLOSED)) as [Hc|Hc].
  - rewrite bool_decide_true by done. do 2 eexists. split; [done|]. split_and!; [done| |done|done]. destruct Ok. split; try done.
    + by apply holds_delete.
    + intros y. cbn. rewrite delete_insert_eq. intros [w [_ ?]%lookup_delete_Some]. eauto.
  - rewrite bool_decide_false by done. unfold push_and_notify_, push_tail_. cbn [q_chain set_chain].
    destruct (link_tail_ok x v (new_node x v (q_chain q)) l Hh) as (c & -> & Hc' & Hn); [cbn; apply lookup_insert_eq|done|]. cbn [mbind option_bind].
    do 2 eexists. split; [done|]. split_and!; [done| |done|done]. destruct Ok as [H1 H2 H4 H5 H6]. split; cbn; try done.
    + intros y Hy. rewrite fmap_app, elem_of_app. destruct (decide (y ∈ l.*1)) as [|Hyl]; [by left|]. rewrite (Hn y Hyl) in Hy. cbn in Hy.
      destruct (decide (y = x)) as [->|Hne]; [right; by left|]. rewrite lookup_insert_ne in Hy by done. left. by apply H2.
    + intros y Hy. apply H4. destruct (not_empty_cond_ q); [done|]. by right.
    + destruct (not_empty_cond_ q); [done|]. by apply NoDup_cons in H5 as [_ ?].
Qed.

Lemma value_pop_ok x v l q : queue_ok ((x, v) :: l) q -> exists q', value_pop_ q = Some (v, q') /\ queue_ok l q' /\ q_conts q' = q_conts q /\
  not_empty_cond_ q' = not_empty_cond_ q.
Proof.
  intros Ok. unfold value_pop_. rewrite (empty_ok _ _ Ok). rewrite bool_decide_false by done. unfold pop_head_.
  destruct (unlink_head_ok x v _ l (qo_chain _ _ Ok)) as (c & -> & Hh & Hx & Hn). cbn [mbind option_bind]. cbn [q_chain set_chain]. rewrite Hx. cbn [mbind option_bind va].
  eexists. split; [done|]. split_and!; try done. destruct Ok as [H1 H2 H4 H5 H6]. split; cbn; try done.
  - intros y [w [Hne Hy]%lookup_delete_Some]. rewrite Hn in Hy by done. assert (y ∈ ((x, v) :: l).*1) as Hin by (by apply H2).
    cbn in Hin. apply elem_of_cons in Hin as [?|?]; [congruence|done].
Qed.

(** A call that looks for a value. *)
Lemma pop_ok f k l q : queue_ok l q -> q_conts q !! f = None -> exists o q', pop f k q = Some (o, q') /\
  match l with
  | [] =>
      if decide (state_ q = CLOSED) then q' = q /\ o = (match k with In_value_pop => Throws | _ => Returns closed None end)
      else o = Waits /\ queue_ok [] q' /\ q_conts q' = <[f := k]> (q_conts q) /\ not_empty_cond_ q' = not_empty_cond_ q ++ [f]
  | (x, v) :: l => o = Returns success (Some v) /\ queue_ok l q' /\ q_conts q' = q_conts q /\ not_empty_cond_ q' = not_empty_cond_ q
  end.
Proof.
  intros Ok Hf. unfold pop. rewrite (empty_ok _ _ Ok). unfold is_closed_. destruct l as [|[x v] l].
  - rewrite (bool_decide_true (_ = [])) by done. destruct (decide (state_ q = CLOSED)) as [Hc|Hc].
    + rewrite bool_decide_true by done. cbn. do 2 eexists. split; [reflexivity|done].
    + assert (f ∉ not_empty_cond_ q) as Hn by (intros Hin; destruct (qo_waiting _ _ Ok f Hin); congruence). unfold wait.
      rewrite !bool_decide_false by tauto. cbn. do 2 eexists. split; [done|]. split_and!; try done. destruct Ok as [H1 H2 H4 H5 H6]. split; cbn; try done.
      * intros y [Hy|Hy%list_elem_of_singleton]%elem_of_app; [|subst; by rewrite lookup_insert_eq]. rewrite lookup_insert_ne; [by apply H4|]. by intros ->.
      * apply NoDup_app. split_and!; [done| |apply NoDup_singleton]. by intros y Hy ->%list_elem_of_singleton.
  - rewrite (bool_decide_false (_ = [])) by done. rewrite !andb_false_r. destruct (value_pop_ok x v l q Ok) as (q' & -> & Ok' & Ec & Ew).
    cbn [mbind option_bind]. by do 2 eexists.
Qed.

Lemma try_pop_ok l q : queue_ok l q -> exists o q', try_pop q = Some (o, q') /\ q_conts q' = q_conts q /\ not_empty_cond_ q' = not_empty_cond_ q /\ queue_ok (tail l) q' /\
  o = match l with [] => Returns (if decide (state_ q = CLOSED) then closed else empty) None | (_, v) :: _ => Returns success (Some v) end.
Proof.
  intros Ok. unfold try_pop. rewrite (empty_ok _ _ Ok). unfold is_closed_. destruct l as [|[x v] l].
  - rewrite (bool_decide_true (_ = [])) by done. rewrite andb_true_r. destruct (decide (state_ q = CLOSED)) as [Hc|Hc];
      [rewrite bool_decide_true by done|rewrite bool_decide_false by done]; by do 2 eexists.
  - rewrite (bool_decide_false (_ = [])) by done. rewrite andb_false_r. destruct (value_pop_ok x v l q Ok) as (q' & -> & Ok' & Ec & Ew).
    cbn [mbind option_bind]. by do 2 eexists.
Qed.

Lemma queue_forget_ok f l q : queue_ok l q -> (f ∉ not_empty_cond_ q) -> queue_ok l (set_conts (delete f (q_conts q)) q).
Proof.
  intros [H1 H2 H4 H5 H6] Hf. split; try done. cbn. intros y Hy. rewrite lookup_delete_ne; [by apply H4|]. by intros ->.
Qed.

Lemma late_ok f l q : queue_ok l q -> queue_ok l (set_waiting (filter (fun g => g <> f) (not_empty_cond_ q)) (set_conts (delete f (q_conts q)) q)).
Proof.
  intros [H1 H2 H4 H5 H6]. split; try done; cbn.
  - intros y [Hne Hy]%list_elem_of_filter. rewrite lookup_delete_ne by done. by apply H4.
  - by apply NoDup_filter.
  - intros Hc. by rewrite (H6 Hc).
Qed.

Lemma close_ok l q : queue_ok l q -> queue_ok l (close_ q).
Proof. intros [H1 H2 H4 H5 H6]. split; try done; cbn; [by intros x ?%elem_of_nil|apply NoDup_nil_2]. Qed.

(** ** Every run *)

(** [l']: the nodes after the event. *)
Lemma queue_step_ok e l q : queue_ok l q -> enabled e q -> exists o q' l', step e q = Some (o, q') /\ queue_ok l' q' /\
  l.*2 ++ accepted [(e, o)] = taken [(e, o)] ++ l'.*2.
Proof.
  assert (forall f k q, queue_ok l q -> q_conts q !! f = None -> exists o q' l', pop f k q = Some (o, q') /\ queue_ok l' q' /\
    l.*2 = taken [(e, o)] ++ l'.*2) as Hpop.
  { intros f k q' Ok Hf. destruct (pop_ok f k l q' Ok Hf) as (o & q1 & -> & H). destruct l as [|[x v] l].
    - exists o, q1, []. split; [done|]. destruct (decide (state_ q' = CLOSED)); [destruct H as [-> ->]; by destruct k|by destruct H as (-> & ? & _)].
    - exists o, q1, l. destruct H as (-> & ? & _). done. }
  intros Ok En. destruct e as [x v|f k| | |f late]; cbn [step enabled] in *.
  - destruct (push_ok x v l q Ok En) as (o & q' & -> & H). destruct (decide (state_ q = CLOSED)).
    + exists o, q', l. destruct H as (-> & ? & _). split_and!; [done|done|]. cbn. by rewrite app_nil_r.
    + exists o, q', (l ++ [(x, v)]). destruct H as (-> & ? & _). split_and!; [done|done|]. cbn. by rewrite fmap_app.
  - destruct (Hpop f k q Ok En) as (o & q' & l' & -> & Ok' & E). exists o, q', l'. split_and!; [done|done|]. cbn [accepted omap list_omap]. by rewrite app_nil_r.
  - destruct (try_pop_ok l q Ok) as (o & q' & -> & _ & _ & Ok' & ->). exists (match l with [] => Returns (if decide (state_ q = CLOSED) then closed else empty) None | (_, v) :: _ => Returns success (Some v) end), q', (tail l).
    split_and!; [done|done|]. cbn [accepted omap list_omap]. rewrite app_nil_r. by destruct l as [|[x v] l].
  - exists (Returns success None), (close_ q), l. split_and!; [done|by apply close_ok|]. cbn. by rewrite app_nil_r.
  - destruct En as [[k Hk] Hw]. unfold resume. rewrite Hk. cbn [mbind option_bind]. destruct (late && bool_decide (k = In_pop_until)) eqn:El.
    + eexists _, _, l. split_and!; [done|by apply (late_ok f l q)|]. cbn. by rewrite app_nil_r.
    + assert (f ∉ not_empty_cond_ q) as Hf.
      { destruct Hw as [?|[-> Hu]]; [done|]. assert (k = In_pop_until) by congruence. subst. by rewrite bool_decide_true in El. }
      destruct (Hpop f k (set_conts (delete f (q_conts q)) q)) as (o & q' & l' & -> & Ok' & E); [by apply queue_forget_ok|cbn; apply lookup_delete_eq|].
      exists o, q', l'. split_and!; [done|done|]. cbn [accepted omap list_omap]. by rewrite app_nil_r.
Qed.

Lemma queue_reachable_ok es q : runs es q -> exists l, queue_ok l q /\ accepted es = taken es ++ l.*2.
Proof.
  intros H. induction H as [|es q e o q' H (l & Ok & Eq) En E]; [exists []; split; [apply new_ok|done]|].
  destruct (queue_step_ok e l q Ok En) as (o' & q1 & l' & E1 & Ok' & Eq'). rewrite E in E1. injection E1 as <- <-. exists l'. split; [done|].
  unfold accepted, taken in *. rewrite !omap_app, Eq, <- !(assoc_L (++)). by f_equal.
Qed.

(** C25: An unbounded queue passes values on in order.  In every run, whatever
    the fibers do, the values handed out so far are a prefix of those accepted,
    in the order in which they were pushed, and the nodes of the queue hold
    exactly the rest; and no call that may come next fails an assertion or
    follows a null pointer. *)
Theorem unbounded_queue_fifo es q : runs es q -> exists l, seg (nodes (q_chain q)) (head_ (q_chain q)) l /\
  accepted es = taken es ++ l.*2 /\ forall e, enabled e q -> is_Some (step e q).
Proof.
  intros H. destruct (queue_reachable_ok es q H) as (l & Ok & E). exists l. split_and!; [apply Ok|done|]. intros e En.
  destruct (queue_step_ok e l q Ok En) as (o & q' & l' & -> & _). done.
Qed.

(** ** Nobody is forgotten *)

Definition untimed (e : event T) : Prop := match e with Ev_pop _ k => k <> In_pop_until | _ => True end.

(** While somebody waits, there is a woken fiber for each value. *)
Record served (l : list (nat * T)) (q : queue T) : Prop := {
  sv_untimed f : q_conts q !! f <> Some In_pop_until;
  sv_count : not_empty_cond_ q <> [] -> (length l + length (not_empty_cond_ q) <= size (q_conts q))%nat
}.

Lemma served_weaken l l' q q' : served l q -> (length l' <= length l)%nat -> q_conts q' = q_conts q -> not_empty_cond_ q' = not_empty_cond_ q -> served l' q'.
Proof. intros [S1 S2] Hl Ec Ew. split; rewrite Ec; [done|]. rewrite Ew. intros Hw. specialize (S2 Hw). lia. Qed.

Lemma served_pop f k l q o q' : queue_ok l q -> served l q -> q_conts q !! f = None -> k <> In_pop_until -> pop f k q = Some (o, q') ->
  exists l', queue_ok l' q' /\ served l' q'.
Proof.
  intros Ok S Hf Hk E. destruct (pop_ok f k l q Ok Hf) as (o' & q1 & E1 & H). rewrite E in E1. injection E1 as <- <-. destruct l as [|[x v] l].
  - destruct (decide (state_ q = CLOSED)); [destruct H as [-> _]; by exists []|]. destruct H as (_ & Ok' & Ec & Ew). exists []. split; [done|]. split.
    + intros g. rewrite Ec, lookup_insert_Some. intros [[_ ?]|[_ ?]]; [done|]. by apply (sv_untimed _ _ S g).
    + intros _. rewrite Ew, Ec, length_app, map_size_insert_None by done. cbn.
      pose proof (waiting_bound _ _ (qo_nodup _ _ Ok) (qo_waiting _ _ Ok)). lia.
  - destruct H as (_ & Ok' & Ec & Ew). exists l. split; [done|]. eapply served_weaken; [done|cbn; lia|done|done].
Qed.

(** A woken fiber is taken from the suspended ones. *)
Lemma served_woken f l q : queue_ok l q -> served l q -> is_Some (q_conts q !! f) -> (f ∉ not_empty_cond_ q) ->
  served (tail l) (set_conts (delete f (q_conts q)) q) /\ (l = [] -> served [] (set_conts (delete f (q_conts q)) q)).
Proof.
  intros Ok [S1 S2] Hf Hw. assert (forall l', (S (length l') <= length l \/ l' = [])%nat -> served l' (set_conts (delete f (q_conts q)) q)) as H.
  { intros l' Hl. split; cbn.
    - intros g. rewrite lookup_delete_Some. intros [_ ?]. by apply (S1 g).
    - intros Hne. specialize (S2 Hne). destruct Hl as [Hl| ->]; [rewrite map_size_delete_Some by done; lia|].
      cbn [length Nat.add]. apply waiting_bound; [apply Ok|]. intros y Hy. rewrite lookup_delete_ne by (by intros ->). by apply (qo_waiting _ _ Ok). }
  split; [|intros ->; apply H; by right]. destruct l as [|x l]; apply H; [by right|left; cbn; lia].
Qed.

Lemma served_step e l q o q' : queue_ok l q -> served l q -> enabled e q -> untimed e -> step e q = Some (o, q') ->
  exists l', queue_ok l' q' /\ served l' q'.
Proof.
  intros Ok S En Hu E. destruct e as [x v|f k| | |f late]; cbn [step enabled untimed] in *.
  - destruct (push_ok x v l q Ok En) as (o' & q1 & E1 & H). rewrite E in E1. injection E1 as <- <-. destruct (decide (state_ q = CLOSED)) as [Hc|Hc].
    + destruct H as (_ & Ok' & Ec & Ew). exists l. split; [done|]. by eapply served_weaken.
    + destruct H as (_ & Ok' & Ec & Ew). exists (l ++ [(x, v)]). split; [done|]. split; rewrite Ec; [apply S|]. rewrite Ew, length_app. cbn.
      intros Hw. destruct (not_empty_cond_ q) as [|h w] eqn:Eq; [done|]. pose proof (sv_count _ _ S) as Hs. rewrite Eq in Hs. cbn in *. specialize (Hs ltac:(done)). lia.
  - by eapply served_pop.
  - destruct (try_pop_ok l q Ok) as (o' & q1 & E1 & Ec & Ew & Ok' & _). rewrite E in E1. injection E1 as <- <-. exists (tail l). split; [done|].
    eapply served_weaken; [done| |done|done]. destruct l; cbn; lia.
  - injection E as <- <-. exists l. split; [by apply close_ok|]. split; [apply S|done].
  - destruct En as [[k Hk] Hw]. assert (f ∉ not_empty_cond_ q) as Hf.
    { destruct Hw as [?|[_ ?]]; [done|]. by destruct (sv_untimed _ _ S f). }
    assert (k <> In_pop_until) as Hku by (intros ->; by apply (sv_untimed _ _ S f)). unfold resume in E. rewrite Hk in E. cbn [mbind option_bind] in E.
    rewrite (bool_decide_false (k = In_pop_until)), andb_false_r in E by done. destruct (served_woken f l q Ok S (mk_is_Some _ _ Hk) Hf) as [S1 S2].
    pose proof (queue_forget_ok f l q Ok Hf) as Ok1. assert (q_conts (set_conts (delete f (q_conts q)) q) !! f = None) as Hn by apply lookup_delete_eq.
    destruct l as [|[x v] l]; [by eapply (served_pop f k []); [done|by apply S2|done|done|done]|].
    destruct (pop_ok f k _ _ Ok1 Hn) as (o' & q1 & E1 & _ & Ok' & Ec & Ew). rewrite E in E1. injection E1 as <- <-. exists l. split; [done|].
    by apply (served_weaken l l (set_conts (delete f (q_conts q)) q)).
Qed.

(** No reader of an unbounded queue is forgotten.  While calls with a
    deadline are not used: whenever the queue holds a value and a fiber waits for
    one, some other fiber has been woken, and when it is resumed it returns with
    the oldest value. *)
Theorem no_reader_stranded es q f : runs es q -> Forall (fun x => untimed x.1) es -> head_ (q_chain q) <> None -> f ∈ not_empty_cond_ q ->
  exists g v q', is_Some (q_conts q !! g) /\ (g ∉ not_empty_cond_ q) /\ resume g false q = Some (Returns success (Some v), q').
Proof.
  intros H Hu Hh Hf. assert (exists l, queue_ok l q /\ served l q) as (l & Ok & S).
  { clear Hh Hf. induction H as [|es q e o q' H IH En E]; [exists []; split; [apply new_ok|]; split; done|].
    apply Forall_app in Hu as [Hu He]. rewrite Forall_singleton in He. destruct (IH Hu) as (l & Ok & S). exact (served_step e l q o q' Ok S En He E). }
  destruct l as [|[x v] l]; [by destruct Hh; apply (holds_empty _ _ (qo_chain _ _ Ok))|]. assert (not_empty_cond_ q <> []) as Hne by (by intros E; rewrite E in Hf; apply elem_of_nil in Hf).
  pose proof (sv_count _ _ S Hne) as Hc. cbn in Hc. destruct (waiting_strict _ _ (qo_nodup _ _ Ok) (qo_waiting _ _ Ok)) as (g & [k Hk] & Hg); [lia|].
  unfold resume. pose proof (queue_forget_ok g _ q Ok Hg) as Ok1. destruct (pop_ok g k _ _ Ok1) as (o & q' & E & -> & _); [cbn; apply lookup_delete_eq|].
  exists g, v, q'. split_and!; [done|done|]. rewrite Hk. cbn [mbind option_bind andb]. done.
Qed.
End spec.

(** ** Examples *)

Section examples.
Context {T : Type}.

Lemma queue_events_run (es : list (event T)) es' q : run_events es new_queue = Some (es', q) -> runs es' q.
Proof.
  assert (forall (es1 : list (event T * outcome T)) q1, runs es1 q1 -> forall es es' q, run_events es q1 = Some (es', q) -> runs (es1 ++ es') q) as H.
  { intros es1 q1 H1 es2. revert es1 q1 H1. induction es2 as [|e es2 IH]; intros es1 q1 H1 es3 q3 E; cbn [run_events] in E.
    - injection E as <- <-. by rewrite app_nil_r.
    - case_decide as En; [|done]. destruct (step e q1) as [[o q2]|] eqn:Es; [|done]. cbn [mbind option_bind] in E.
      destruct (run_events es2 q2) as [[os q4]|] eqn:Er; [|done]. cbn [mbind option_bind] in E. injection E as <- <-.
      rewrite (cons_middle (e, o) es1 os), (assoc_L (++)). eapply IH; [|done]. by econstructor. }
  intros E. by apply (H [] new_queue runs_nil es es' q).
Qed.
End examples.

(** Two fibers wait, then two values arrive. *)
Definition sample_queue : list (event Z) := [Ev_pop 1 In_pop; Ev_pop 2 In_value_pop; Ev_push 10 7].

Lemma unbounded_queue_fifo_witness : exists es q l, run_events (sample_queue ++ [Ev_push 11 8; Ev_resume 2 false]) new_queue = Some (es, q) /\
  accepted es = [7; 8] /\ accepted es = taken es ++ l.*2 /\ l = [(11%nat, 8)].
Proof.
  assert ((fun x => (accepted x.1, taken x.1, head_ (q_chain x.2), nodes (q_chain x.2) !! 11%nat)) <$> run_events (sample_queue ++ [Ev_push 11 8; Ev_resume 2 false]) new_queue
    = Some ([7; 8], [7], Some 11%nat, Some (mk_node 8 None))) as E by (vm_compute; reflexivity).
  destruct (run_events (sample_queue ++ [Ev_push 11 8; Ev_resume 2 false]) new_queue) as [[es q]|] eqn:Er; [|discriminate E].
  cbn [fmap option_fmap option_map fst snd] in E. injection E as Ea Et Eh En.
  destruct (unbounded_queue_fifo es q (queue_events_run _ _ _ Er)) as (l & Hs & El & _). exists es, q, l. split_and!; [reflexivity|exact Ea|exact El|].
  rewrite Ea, Et in El. destruct l as [|[x v] [|y l]]; [discriminate El| |discriminate El]. cbn in El. injection El as <-. rewrite Eh in Hs. by destruct Hs as [[= <-] _].
Defined.

Lemma no_reader_stranded_witness : exists es q g v q', run_events sample_queue new_queue = Some (es, q) /\
  2%nat ∈ not_empty_cond_ q /\ resume g false q = Some (Returns success (Some v), q').
Proof.
  assert ((fun x => (x.1.*1, head_ (q_chain x.2), not_empty_cond_ x.2)) <$> run_events sample_queue new_queue = Some (sample_queue, Some 10%nat, [2%nat])) as E by (vm_compute; reflexivity).
  destruct (run_events sample_queue new_queue) as [[es q]|] eqn:Er; [|discriminate E]. cbn [fmap option_fmap option_map fst snd] in E. injection E as Ee Eh Ew.
  assert (2%nat ∈ not_empty_cond_ q) as Hw by (rewrite Ew; by left).
  destruct (no_reader_stranded es q 2%nat (queue_events_run _ _ _ Er)) as (g & v & q' & _ & _ & R); [|by rewrite Eh|exact Hw|by exists es, q, g, v, q'].
  assert (Forall (untimed (T := Z)) (es.*1)) as H by (rewrite Ee; by repeat constructor). rewrite Forall_fmap in H. exact H.
Defined.

(** A call with a deadline takes the notification with it: it was woken by the
    value, but resumed after its deadline it returns without the value, and the
    other fiber waits although the queue is not empty and nobody is awake. *)
Example timed_reader_strands :
  (fun x => (x.1.*2, is_empty_ x.2, not_empty_cond_ x.2, map_to_list (q_conts x.2))) <$>
    run_events [Ev_pop 1 In_pop_until; Ev_pop 2 In_pop; Ev_push 10 7; Ev_resume 1 true] (new_queue (T := Z)) =
  Some ([Waits; Waits; Returns success None; Returns timeout None], false, [2%nat], [(2%nat, In_pop)]).
Proof. vm_compute. reflexivity. Qed.
