(* ===== verification/FiberBoundedQueue.v ===== *)
(** * [bounded_queue]: a queue whose writers wait when it is full

    The queue of [core/boost-fiber/boost/fiber/bounded_queue.hpp], modelled as
    [FiberUnboundedQueue]: a call is one step up to where its fiber waits.  The
    queue is full from the high-watermark [hwm_] on and wakes its writers at the
    low-watermark [lwm_]. *)

From stdpp Require Import gmap options.
From S2P Require Import Prelude FiberQueueNodes FiberUnboundedQueue.

(** The member function a suspended fiber goes on in; [x] is the node of the
    value it pushes. *)
Inductive cont := B_pop (k : popping) | B_push (x : nat) (timed : bool).

Definition has_deadline (k : cont) : bool := match k with B_pop k => bool_decide (k = In_pop_until) | B_push _ timed => timed end.

Section queue.
Context {T : Type}.

Record bqueue := mk_bqueue {
  b_state : queue_state;
  count_ : Z;
  b_chain : chain T;
  b_not_empty : list nat;
  b_not_full : list nat;
  hwm_ : Z;
  lwm_ : Z;
  b_conts : gmap nat cont
}.

(** The constructor, for values of [size_t]; [None]: it throws
    [invalid_argument]. *)
Definition new_bounded (hwm lwm : Z) : option bqueue :=
  if hwm <? lwm then None else Some (mk_bqueue OPEN 0 empty_chain [] [] hwm lwm ∅).

Definition set_b_chain c q := mk_bqueue (b_state q) (count_ q) c (b_not_empty q) (b_not_full q) (hwm_ q) (lwm_ q) (b_conts q).
Definition set_count n q := mk_bqueue (b_state q) n (b_chain q) (b_not_empty q) (b_not_full q) (hwm_ q) (lwm_ q) (b_conts q).
Definition set_not_empty l q := mk_bqueue (b_state q) (count_ q) (b_chain q) l (b_not_full q) (hwm_ q) (lwm_ q) (b_conts q).
Definition set_not_full l q := mk_bqueue (b_state q) (count_ q) (b_chain q) (b_not_empty q) l (hwm_ q) (lwm_ q) (b_conts q).
Definition set_b_conts k q := mk_bqueue (b_state q) (count_ q) (b_chain q) (b_not_empty q) (b_not_full q) (hwm_ q) (lwm_ q) k.

Definition b_is_closed (q : bqueue) : bool := bool_decide (b_state q = CLOSED).
Definition b_is_empty (q : bqueue) : bool := bool_decide (head_ (b_chain q) = None).
Definition is_full_ (q : bqueue) : bool := count_ q >=? hwm_ q.

Definition b_close (q : bqueue) : bqueue :=
  mk_bqueue CLOSED (count_ q) (b_chain q) [] [] (hwm_ q) (lwm_ q) (b_conts q).

Definition b_push_tail (x : nat) (q : bqueue) : option bqueue :=
  c ← link_tail x (b_chain q); Some (set_count (w64 (count_ q + 1)) (set_b_chain c q)).

Definition b_push_and_notify (x : nat) (q : bqueue) : option (outcome T * bqueue) :=
  q ← b_push_tail x q;
  Some (Returns success None, set_not_empty (tail (b_not_empty q)) q).

(** [wait] and [wait_until] of the two conditions; only [wait] asserts that the
    fiber does not wait yet. *)
Definition wait_not_full (f x : nat) (timed : bool) (q : bqueue) : option bqueue :=
  if bool_decide (timed = false /\ f ∈ b_not_full q) then None
  else Some (set_b_conts (<[f := B_push x timed]> (b_conts q)) (set_not_full (b_not_full q ++ [f]) q)).
Definition wait_not_empty (f : nat) (k : popping) (q : bqueue) : option bqueue :=
  if bool_decide (k <> In_pop_until /\ f ∈ b_not_empty q) then None
  else Some (set_b_conts (<[f := B_pop k]> (b_conts q)) (set_not_empty (b_not_empty q ++ [f]) q)).

(** The loop of [push_] and of [push_wait_until_] in the fiber [f]. *)
Definition push_loop (f x : nat) (timed : bool) (q : bqueue) : option (outcome T * bqueue) :=
  if is_full_ q then q ← wait_not_full f x timed q; Some (Waits, q)
  else b_push_and_notify x q.

Definition b_push (f x : nat) (v : T) (timed : bool) (q : bqueue) : option (outcome T * bqueue) :=
  let q := set_b_chain (new_node x v (b_chain q)) q in
  if b_is_closed q then Some (Returns closed None, set_b_chain (delete_node x (b_chain q)) q) else push_loop f x timed q.

Definition b_try_push (x : nat) (v : T) (q : bqueue) : option (outcome T * bqueue) :=
  let q := set_b_chain (new_node x v (b_chain q)) q in
  if b_is_closed q then Some (Returns closed None, set_b_chain (delete_node x (b_chain q)) q)
  else if is_full_ q then Some (Returns full None, set_b_chain (delete_node x (b_chain q)) q)
  else b_push_and_notify x q.

Definition b_pop_head (q : bqueue) : option (nat * bqueue) := '(x, c) ← unlink_head (b_chain q); Some (x, set_b_chain c q).

(** The writers that [value_pop_] wakes. *)
Definition wake_writers (q : bqueue) : bqueue :=
  if count_ q <=? lwm_ q then
    if lwm_ q =? hwm_ q then set_not_full (tail (b_not_full q)) q else set_not_full [] q
  else q.

Definition b_value_pop (q : bqueue) : option (T * bqueue) :=
  if b_is_empty q then None
  else
    '(x, q) ← b_pop_head q;
    let q := wake_writers q in
    w ← nodes (b_chain q) !! x;
    Some (va w, set_b_chain (delete_node x (b_chain q)) q).

(** [pop], [value_pop] and [pop_wait_until] in the fiber [f]. *)
Definition b_pop (f : nat) (k : popping) (q : bqueue) : option (outcome T * bqueue) :=
  if negb (b_is_closed q) && b_is_empty q then q ← wait_not_empty f k q; Some (Waits, q)
  else if b_is_closed q && b_is_empty q then Some (match k with In_value_pop => Throws | _ => Returns closed None end, q)
  else '(v, q) ← b_value_pop q; Some (Returns success (Some v), q).

Definition b_try_pop (q : bqueue) : option (outcome T * bqueue) :=
  if b_is_closed q && b_is_empty q then Some (Returns closed None, q)
  else if b_is_empty q then Some (Returns empty None, q)
  else '(v, q) ← b_value_pop q; Some (Returns success (Some v), q).

Definition without (f : nat) (l : list nat) : list nat := filter (fun g => g <> f) l.

(** The fiber [f] is resumed; [late]: its deadline has passed. *)
Definition b_resume (f : nat) (late : bool) (q : bqueue) : option (outcome T * bqueue) :=
  k ← b_conts q !! f;
  let q := set_b_conts (delete f (b_conts q)) q in
  if late && has_deadline k then
    let q := set_not_full (without f (b_not_full q)) (set_not_empty (without f (b_not_empty q)) q) in
    Some (Returns timeout None, match k with B_push x _ => set_b_chain (delete_node x (b_chain q)) q | _ => q end)
  else match k with B_pop k => b_pop f k q | B_push x timed => push_loop f x timed q end.

(** ** Runs *)

Inductive bevent :=
| Bv_push (f x : nat) (v : T) (timed : bool)
| Bv_try_push (x : nat) (v : T)
| Bv_pop (f : nat) (k : popping)
| Bv_try_pop
| Bv_close
| Bv_resume (f : nat) (late : bool).

Definition b_enabled (e : bevent) (q : bqueue) : Prop :=
  match e with
  | Bv_push f x _ _ => nodes (b_chain q) !! x = None /\ b_conts q !! f = None
  | Bv_try_push x _ => nodes (b_chain q) !! x = None
  | Bv_pop f _ => b_conts q !! f = None
  | Bv_resume f late =>
      is_Some (b_conts q !! f) /\
      (((f ∉ b_not_empty q) /\ (f ∉ b_not_full q)) \/ (late = true /\ has_deadline <$> b_conts q !! f = Some true))
  | Bv_try_pop | Bv_close => True
  end.

#[export] Instance b_enabled_dec e q : Decision (b_enabled e q).
Proof. unfold b_enabled. destruct e; apply _. Defined.

Definition b_step (e : bevent) (q : bqueue) : option (outcome T * bqueue) :=
  match e with
  | Bv_push f x v timed => b_push f x v timed q
  | Bv_try_push x v => b_try_push x v q
  | Bv_pop f k => b_pop f k q
  | Bv_try_pop => b_try_pop q
  | Bv_close => Some (Returns success None, b_close q)
  | Bv_resume f late => b_resume f late q
  end.

(** The value that an event has put into the queue, and the one it has taken. *)
Definition entered (q : bqueue) (e : bevent) (o : outcome T) : option T :=
  match e, o with
  | Bv_push _ _ v _, Returns success _ | Bv_try_push _ v, Returns success _ => Some v
  | Bv_resume f _, Returns success None =>
      match b_conts q !! f with Some (B_push x _) => va <$> nodes (b_chain q) !! x | _ => None end
  | _, _ => None
  end.
Definition left_with (o : outcome T) : option T := match o with Returns _ v => v | _ => None end.

(** A run of a queue [q0], with the values that went in and out. *)
Inductive b_runs (q0 : bqueue) : list bevent -> list T -> list T -> bqueue -> Prop :=
| b_runs_nil : b_runs q0 [] [] [] q0
| b_runs_snoc es ins outs q e o q' : b_runs q0 es ins outs q -> b_enabled e q -> b_step e q = Some (o, q') ->
    b_runs q0 (es ++ [e]) (ins ++ option_list (entered q e o)) (outs ++ option_list (left_with o)) q'.

Fixpoint run_bevents (es : list bevent) (q : bqueue) : option (list (outcome T) * list T * list T * bqueue) :=
  match es with
  | [] => Some ([], [], [], q)
  | e :: es =>
      if decide (b_enabled e q) then
        '(o, q') ← b_step e q;
        '(os, ins, outs, q'') ← run_bevents es q';
        Some (o :: os, option_list (entered q e o) ++ ins, option_list (left_with o) ++ outs, q'')
      else None
  end.
End queue.

Arguments bqueue : clear implicits.
Arguments bevent : clear implicits.
