(* ===== verification/FiberBoundedQueueSpec.v ===== *)
(** * What [bounded_queue] does

    It passes values on in order and no assertion of it fails.  But its counter
    is never decremented: it accepts as many values as its high-watermark says in
    its whole life, and then its writers wait for ever. *)

From stdpp Require Import gmap options.
From S2P Require Import Prelude FiberQueueNodes FiberUnboundedQueue FiberBoundedQueue.

Section spec.
Context {T : Type}.
Implicit Types q : bqueue T.

(** [l]: the nodes of the queue with their values; [n]: the values that have
    ever been put into it. *)
Record bq_ok (l : list (nat * T)) (n : nat) (q : bqueue T) : Prop := {
  bo_chain : holds (b_chain q) l;
  bo_count : count_ q = Z.of_nat n;
  bo_limit : Z.of_nat n <= hwm_ q < 2 ^ 64;
  bo_pending f x t : b_conts q !! f = Some (B_push x t) -> (exists v, nodes (b_chain q) !! x = Some (mk_node v None)) /\ (x ∉ l.*1);
  bo_once f g x t t' : b_conts q !! f = Some (B_push x t) -> b_conts q !! g = Some (B_push x t') -> f = g;
  bo_readers f : f ∈ b_not_empty q -> is_Some (b_conts q !! f);
  bo_writers f : f ∈ b_not_full q -> is_Some (b_conts q !! f)
}.

Definition loose (x : nat) (q : bqueue T) : Prop := forall f t, b_conts q !! f <> Some (B_push x t).

Lemma new_bounded_ok hwm lwm q : new_bounded hwm lwm = Some q -> 0 <= hwm < 2 ^ 64 -> bq_ok [] 0 q /\ hwm_ q = hwm.
Proof.
  unfold new_bounded. case_match; [done|]. intros [= <-] Hb. split; [|done].
  split; cbn; try done; [apply empty_holds|by intros f ?%elem_of_nil|by intros f ?%elem_of_nil].
Qed.

Lemma b_empty_ok l n q : bq_ok l n q -> b_is_empty q = bool_decide (l = []).
Proof. intros Ok. unfold b_is_empty. apply bool_decide_ext. apply holds_empty, Ok. Qed.

(** Fewer waiting fibers, the rest as it is. *)
Lemma fewer_ok l n q a b : bq_ok l n q -> (forall f, f ∈ a -> f ∈ b_not_empty q) -> (forall f, f ∈ b -> f ∈ b_not_full q) ->
  bq_ok l n (set_not_full b (set_not_empty a q)).
Proof. intros [H1 H2 H3 H4 H5 H6 H7] Ha Hb. split; cbn; auto. Qed.

Lemma node_ok x v l n q : bq_ok l n q -> nodes (b_chain q) !! x = None -> bq_ok l n (set_b_chain (new_node x v (b_chain q)) q) /\ (x ∉ l.*1) /\ loose x q.
Proof.
  intros [H1 H2 H3 H4 H5 H6 H7] Hx. destruct (holds_new x v _ l H1 Hx) as [Hh Hl]. split_and!; [split; cbn; try done|done|].
  - intros f y t Hf. destruct (H4 f y t Hf) as [[u Hu] ?]. split; [|done]. exists u. rewrite lookup_insert_ne; [done|]. intros ->. congruence.
  - intros f t Hf. destruct (H4 f x t Hf) as [[u Hu] _]. congruence.
Qed.

Lemma drop_node_ok x l n q : bq_ok l n q -> (x ∉ l.*1) -> loose x q -> bq_ok l n (set_b_chain (delete_node x (b_chain q)) q).
Proof.
  intros [H1 H2 H3 H4 H5 H6 H7] Hl Hx. split; cbn; try done; [by apply holds_delete|].
  intros f y t Hf. destruct (H4 f y t Hf) as [[u Hu] ?]. split; [|done]. exists u. rewrite lookup_delete_ne; [done|]. intros ->. by apply (Hx f t).
Qed.

Lemma forget_writer_ok f l n q : bq_ok l n q -> (f ∉ b_not_empty q) -> (f ∉ b_not_full q) -> bq_ok l n (set_b_conts (delete f (b_conts q)) q).
Proof.
  intros [H1 H2 H3 H4 H5 H6 H7] He Hf. split; cbn; try done.
  - intros g x t [_ Hg]%lookup_delete_Some. by eapply H4.
  - intros g h x t t' [_ Hg]%lookup_delete_Some [_ Hh]%lookup_delete_Some. by eapply H5.
  - intros g Hg. rewrite lookup_delete_ne; [by apply H6|]. by intros ->.
  - intros g Hg. rewrite lookup_delete_ne; [by apply H7|]. by intros ->.
Qed.

Lemma loose_forget f x t l n q : bq_ok l n q -> b_conts q !! f = Some (B_push x t) -> loose x (set_b_conts (delete f (b_conts q)) q).
Proof. intros Ok Hf g t'. cbn. rewrite lookup_delete_Some. intros [Hne Hg]. apply Hne. by eapply (bo_once _ _ _ Ok). Qed.

(** ** Writers *)

Lemma enter_ok x v l n q : bq_ok l n q -> nodes (b_chain q) !! x = Some (mk_node v None) -> (x ∉ l.*1) -> loose x q -> Z.of_nat n < hwm_ q ->
  exists q', b_push_and_notify x q = Some (Returns success None, q') /\ bq_ok (l ++ [(x, v)]) (S n) q' /\ hwm_ q' = hwm_ q.
Proof.
  intros [H1 H2 H3 H4 H5 H6 H7] Hx Hl Hlo Hn. unfold b_push_and_notify, b_push_tail.
  destruct (link_tail_ok x v _ l H1 Hx Hl) as (c & -> & Hh & Hf). cbn [mbind option_bind]. eexists. split; [done|]. split; [|done]. split; cbn; try done.
  - rewrite H2, wrap_small by lia. lia.
  - lia.
  - intros g y t Hg. destruct (H4 g y t Hg) as [[u Hu] Hy]. split; [exists u; by rewrite Hf|]. rewrite fmap_app, elem_of_app. intros [?|Hy']; [done|].
    apply list_elem_of_singleton in Hy' as ->. by apply (Hlo g t).
  - intros g Hg. apply H6. destruct (b_not_empty q); [done|]. by right.
Qed.

Lemma push_loop_ok f x v t l n q : bq_ok l n q -> nodes (b_chain q) !! x = Some (mk_node v None) -> (x ∉ l.*1) -> loose x q -> b_conts q !! f = None ->
  exists o q', push_loop f x t q = Some (o, q') /\ hwm_ q' = hwm_ q /\
    if decide (Z.of_nat n < hwm_ q) then o = Returns success None /\ bq_ok (l ++ [(x, v)]) (S n) q' else o = Waits /\ bq_ok l n q'.
Proof.
  intros Ok Hx Hl Hlo Hf. unfold push_loop, is_full_. rewrite (bo_count _ _ _ Ok). destruct (decide (Z.of_nat n < hwm_ q)) as [Hn|Hn].
  - destruct (Z.of_nat n >=? hwm_ q) eqn:E; [rewrite Z.geb_le in E; lia|].
    destruct (enter_ok x v l n q Ok Hx Hl Hlo Hn) as (q' & -> & Ok' & ?). by do 2 eexists.
  - destruct (Z.of_nat n >=? hwm_ q) eqn:E; [|rewrite Z.geb_leb in E; to_prop; lia]. unfold wait_not_full.
    assert (f ∉ b_not_full q) as Hw by (intros Hin; destruct (bo_writers _ _ _ Ok f Hin); congruence).
    rewrite bool_decide_false by tauto. cbn [mbind option_bind]. do 2 eexists. split; [done|]. split_and!; try done.
    destruct Ok as [H1 H2 H3 H4 H5 H6 H7]. split; cbn; try done.
    + intros g y t' [[<- [= <- <-]]|[_ Hg]]%lookup_insert_Some; [by eauto|by eapply H4].
    + intros g h y t' t'' [[<- [= <- <-]]|[Hg1 Hg]]%lookup_insert_Some [[<- Eh]|[Hh1 Hh]]%lookup_insert_Some; [done|by destruct (Hlo h t'')| |by eapply H5].
      injection Eh as <- <-. by destruct (Hlo g t').
    + intros g Hg. destruct (decide (g = f)) as [->|Hne]; [by rewrite lookup_insert_eq|]. rewrite lookup_insert_ne by done. by apply H6.
    + intros g Hg. destruct (decide (g = f)) as [->|Hne]; [by rewrite lookup_insert_eq|]. rewrite lookup_insert_ne by done. apply H7.
      apply elem_of_app in Hg as [?|Hg]; [done|]. by apply list_elem_of_singleton in Hg.
Qed.

(** ** Readers *)

Lemma wake_writers_rest q : exists b, wake_writers q = set_not_full b (set_not_empty (b_not_empty q) q) /\ forall f, f ∈ b -> f ∈ b_not_full q.
Proof.
  unfold wake_writers. destruct (count_ q <=? lwm_ q); [destruct (lwm_ q =? hwm_ q)|].
  - exists (tail (b_not_full q)). split; [done|]. intros f Hf. destruct (b_not_full q); [done|]. by right.
  - exists []. split; [done|]. by intros f ?%elem_of_nil.
  - exists (b_not_full q). split; [by destruct q|done].
Qed.

Lemma b_value_pop_ok x v l n q : bq_ok ((x, v) :: l) n q -> exists q', b_value_pop q = Some (v, q') /\ bq_ok l n q' /\ hwm_ q' = hwm_ q.
Proof.
  intros Ok. unfold b_value_pop. rewrite (b_empty_ok _ _ _ Ok). rewrite bool_decide_false by done. unfold b_pop_head.
  destruct (unlink_head_ok x v _ l (bo_chain _ _ _ Ok)) as (c & -> & Hh & Hx & Hn). cbn [mbind option_bind].
  destruct (wake_writers_rest (set_b_chain c q)) as (b & -> & Hb). cbn [b_chain set_not_full set_not_empty set_b_chain]. rewrite Hx. cbn [mbind option_bind va].
  eexists. split; [done|]. split; [|done]. destruct Ok as [H1 H2 H3 H4 H5 H6 H7]. split; cbn; try done.
  - intros f y t Hf. destruct (H4 f y t Hf) as [[u Hu] Hy]. cbn in Hy. apply not_elem_of_cons in Hy as [Hne Hy]. split; [|done]. exists u.
    rewrite lookup_delete_ne by done. by rewrite Hn.
  - intros f Hf. apply H7, Hb, Hf.
Qed.

Lemma b_pop_ok f k l n q : bq_ok l n q -> b_conts q !! f = None -> exists o q' l', b_pop f k q = Some (o, q') /\ bq_ok l' n q' /\ hwm_ q' = hwm_ q /\
  l.*2 = option_list (left_with o) ++ l'.*2.
Proof.
  intros Ok Hf. unfold b_pop. rewrite (b_empty_ok _ _ _ Ok). destruct l as [|[x v] l].
  - rewrite (bool_decide_true (_ = [])) by done. rewrite !andb_true_r. destruct (b_is_closed q); cbn [negb].
    + exists (match k with In_value_pop => Throws | _ => Returns closed None end), q, []. split_and!; try done. by destruct k.
    + assert (f ∉ b_not_empty q) as Hw by (intros Hin; destruct (bo_readers _ _ _ Ok f Hin); congruence).
      unfold wait_not_empty. rewrite bool_decide_false by tauto. cbn [mbind option_bind]. do 2 eexists. exists []. split_and!; try done.
      destruct Ok as [H1 H2 H3 H4 H5 H6 H7]. split; cbn; try done.
      * intros g y t [[_ ?]|[_ Hg]]%lookup_insert_Some; [done|by eapply H4].
      * intros g h y t t' [[_ ?]|[_ Hg]]%lookup_insert_Some [[_ ?]|[_ Hh]]%lookup_insert_Some; try done. by eapply H5.
      * intros g Hg. destruct (decide (g = f)) as [->|Hne]; [by rewrite lookup_insert_eq|]. rewrite lookup_insert_ne by done. apply H6.
        apply elem_of_app in Hg as [?|Hg]; [done|]. by apply list_elem_of_singleton in Hg.
      * intros g Hg. destruct (decide (g = f)) as [->|Hne]; [by rewrite lookup_insert_eq|]. rewrite lookup_insert_ne by done. by apply H7.
  - rewrite (bool_decide_false (_ = [])) by done. rewrite !andb_false_r. destruct (b_value_pop_ok x v l n q Ok) as (q' & -> & Ok' & ?).
    cbn [mbind option_bind]. eexists _, q', l. by split_and!.
Qed.

(** ** Every event *)

(** What an event leaves: [l'] and [n'] after it, with the values that moved. *)
Definition event_ok (l : list (nat * T)) (n : nat) (q : bqueue T) (e : bevent T) (r : option (outcome T * bqueue T)) : Prop :=
  exists o q' l' n', r = Some (o, q') /\ bq_ok l' n' q' /\ hwm_ q' = hwm_ q /\
    l.*2 ++ option_list (entered q e o) = option_list (left_with o) ++ l'.*2 /\ n' = (n + length (option_list (entered q e o)))%nat.

Lemma b_push_ok f x v t l n q : bq_ok l n q -> nodes (b_chain q) !! x = None -> b_conts q !! f = None ->
  event_ok l n q (Bv_push f x v t) (b_push f x v t q).
Proof.
  intros Ok Hx Hf. destruct (node_ok x v l n q Ok Hx) as (Ok1 & Hl & Hlo). unfold b_push. set (q1 := set_b_chain _ q) in *.
  destruct (b_is_closed q1).
  - eexists _, _, l, n. split; [done|]. split; [by apply drop_node_ok|]. split_and!; [done|cbn; by rewrite app_nil_r|cbn; lia].
  - destruct (push_loop_ok f x v t l n q1 Ok1) as (o & q' & E & Eh & H); [cbn; apply lookup_insert_eq|done|done|done|].
    destruct (decide (Z.of_nat n < hwm_ q1)); destruct H as [-> Ok'].
    + exists (Returns success None), q', (l ++ [(x, v)]), (S n). split_and!; [done|done|done|by rewrite fmap_app|cbn; lia].
    + exists Waits, q', l, n. split_and!; [done|done|done|cbn; by rewrite app_nil_r|cbn; lia].
Qed.

Lemma b_try_push_ok x v l n q : bq_ok l n q -> nodes (b_chain q) !! x = None -> event_ok l n q (Bv_try_push x v) (b_try_push x v q).
Proof.
  intros Ok Hx. destruct (node_ok x v l n q Ok Hx) as (Ok1 & Hl & Hlo). unfold b_try_push. set (q1 := set_b_chain _ q) in *.
  assert (forall st, st <> success -> event_ok l n q (Bv_try_push x v) (Some (Returns st None, set_b_chain (delete_node x (b_chain q1)) q1))) as Hno.
  { intros st Hst. exists (Returns st None). eexists. exists l, n. split; [done|]. split; [by apply drop_node_ok|].
    destruct st; [done|..]; (split_and!; [done|cbn; by rewrite app_nil_r|cbn; lia]). }
  destruct (b_is_closed q1); [by apply Hno|]. unfold is_full_. rewrite (bo_count _ _ _ Ok1).
  destruct (Z.of_nat n >=? hwm_ q1) eqn:E; [by apply Hno|]. rewrite Z.geb_leb in E. to_prop.
  destruct (enter_ok x v l n q1 Ok1) as (q' & -> & Ok' & Eh); [cbn; apply lookup_insert_eq|done|done|lia|].
  exists (Returns success None), q', (l ++ [(x, v)]), (S n). split_and!; [done|done|done|by rewrite fmap_app|cbn; lia].
Qed.

Lemma elem_of_without f g l : g ∈ without f l <-> g <> f /\ g ∈ l.
Proof. unfold without; by rewrite list_elem_of_filter. Qed.

Lemma b_resume_ok f late l n q : bq_ok l n q -> b_enabled (Bv_resume f late) q -> event_ok l n q (Bv_resume f late) (b_resume f late q).
Proof.
  intros Ok [[k Hk] Hw]. unfold b_resume. rewrite Hk. cbn [mbind option_bind]. destruct (late && has_deadline k) eqn:El.
  - set (q1 := set_not_full _ _). assert (bq_ok l n q1) as Ok1.
    { apply (fewer_ok l n q (without f (b_not_empty q)) (without f (b_not_full q))) in Ok as Ok0; [|by intros g [_ ?]%elem_of_without..].
      apply (forget_writer_ok f) in Ok0; [done|by intros [? _]%elem_of_without..]. }
    eexists _, _, l, n. split; [done|]. split; [|split_and!; [by destruct k|cbn; by rewrite app_nil_r|cbn; lia]].
    destruct k as [k|x t]; [done|]. apply drop_node_ok; [done|by apply (bo_pending _ _ _ Ok f x t)|]. by apply (loose_forget f x t l n q).
  - assert ((f ∉ b_not_empty q) /\ (f ∉ b_not_full q)) as [He Hf].
    { destruct Hw as [?|[-> Hu]]; [done|]. rewrite Hk in Hu. injection Hu as Hu. by rewrite Hu in El. }
    pose proof (forget_writer_ok f l n q Ok He Hf) as Ok1. set (q1 := set_b_conts _ q) in *.
    assert (b_conts q1 !! f = None) as Hn by apply lookup_delete_eq. destruct k as [k|x t].
    + destruct (b_pop_ok f k l n q1 Ok1 Hn) as (o & q' & l' & E & Ok' & Eh & El'). exists o, q', l', n. split_and!; [done|done|done| |].
      * cbn. rewrite Hk. destruct o as [[] []| |]; cbn; by rewrite ?app_nil_r.
      * cbn. rewrite Hk. destruct o as [[] []| |]; cbn; lia.
    + destruct (bo_pending _ _ _ Ok f x t Hk) as [[v Hv] Hl]. pose proof (loose_forget f x t l n q Ok Hk) as Hlo.
      destruct (push_loop_ok f x v t l n q1 Ok1 Hv Hl Hlo Hn) as (o & q' & E & Eh & H). destruct (decide (Z.of_nat n < hwm_ q1)); destruct H as [-> Ok'].
      * exists (Returns success None), q', (l ++ [(x, v)]), (S n). cbn. rewrite Hk, Hv. split_and!; [done|done|done|by rewrite fmap_app|cbn; lia].
      * exists Waits, q', l, n. split_and!; [done|done|done|cbn; by rewrite app_nil_r|cbn; lia].
Qed.

Lemma b_step_ok e l n q : bq_ok l n q -> b_enabled e q -> event_ok l n q e (b_step e q).
Proof.
  intros Ok En. destruct e as [f x v t|x v|f k| | |f late]; cbn [b_step].
  - destruct En. by apply b_push_ok.
  - by apply b_try_push_ok.
  - destruct (b_pop_ok f k l n q Ok En) as (o & q' & l' & -> & Ok' & Eh & El). exists o, q', l', n. split_and!; try done; cbn; rewrite ?app_nil_r; (done || lia).
  - unfold b_try_pop. rewrite (b_empty_ok _ _ _ Ok). destruct l as [|[x v] l].
    + rewrite (bool_decide_true (_ = [])) by done. rewrite andb_true_r. destruct (b_is_closed q); eexists _, q, [], n; split_and!; try done; cbn; lia.
    + rewrite (bool_decide_false (_ = [])) by done. rewrite andb_false_r. destruct (b_value_pop_ok x v l n q Ok) as (q' & -> & Ok' & Eh).
      cbn [mbind option_bind]. eexists _, q', l, n. split_and!; try done; cbn; rewrite ?app_nil_r; (done || lia).
  - eexists _, _, l, n. split; [done|]. split; [|split_and!; [done|cbn; by rewrite app_nil_r|cbn; lia]].
    destruct Ok as [H1 H2 H3 H4 H5 H6 H7]. split; cbn; try done; by intros f ?%elem_of_nil.
  - by apply b_resume_ok.
Qed.

Lemma b_reachable_ok q0 es ins outs q : bq_ok [] 0 q0 -> b_runs q0 es ins outs q ->
  exists l, bq_ok l (length ins) q /\ ins = outs ++ l.*2 /\ hwm_ q = hwm_ q0.
Proof.
  intros Ok0 H. induction H as [|es ins outs q e o q' H (l & Ok & Eq & Eh) En E]; [by exists []|].
  destruct (b_step_ok e l _ q Ok En) as (o' & q1 & l' & n' & E1 & Ok' & Eh' & Eq' & ->). rewrite E in E1. injection E1 as <- <-.
  exists l'. split_and!; [by rewrite length_app| |congruence]. rewrite Eq, <- !(assoc_L (++)). by rewrite Eq'.
Qed.

(** A bounded queue passes values on in order.  In every run the values
    taken are a prefix of those put in, in their order, the nodes hold exactly
    the rest, and no call that may come next fails an assertion or follows a null
    pointer. *)
Theorem bounded_queue_fifo hwm lwm q0 es ins outs q : new_bounded hwm lwm = Some q0 -> 0 <= hwm < 2 ^ 64 -> b_runs q0 es ins outs q ->
  exists l, seg (nodes (b_chain q)) (head_ (b_chain q)) l /\ ins = outs ++ l.*2 /\ forall e, b_enabled e q -> is_Some (b_step e q).
Proof.
  intros E Hh H. destruct (new_bounded_ok hwm lwm q0 E Hh) as [Ok0 _]. destruct (b_reachable_ok q0 es ins outs q Ok0 H) as (l & Ok & Eq & _).
  exists l. split_and!; [apply Ok|done|]. intros e En. destruct (b_step_ok e l _ q Ok En) as (o & q' & l' & n' & -> & _). done.
Qed.

(** A bounded queue fills up for good.  [pop_head_] does not decrement
    [count_]: in its whole life a queue accepts at most [hwm] values, however many
    are taken out.  When it has accepted that many, a fiber that pushes into the
    open queue waits, and one that is woken to push waits again, also when the
    queue is empty or has been closed. *)
Theorem bounded_queue_fills_up hwm lwm q0 es ins outs q : new_bounded hwm lwm = Some q0 -> 0 <= hwm < 2 ^ 64 -> b_runs q0 es ins outs q ->
  Z.of_nat (length ins) <= hwm /\
  (Z.of_nat (length ins) = hwm ->
    (forall f x v t o q', b_enabled (Bv_push f x v t) q -> b_push f x v t q = Some (o, q') -> o = Waits \/ o = Returns closed None) /\
    (forall f x o q', b_enabled (Bv_resume f false) q -> b_conts q !! f = Some (B_push x false) -> b_resume f false q = Some (o, q') -> o = Waits)).
Proof.
  intros E Hh H. destruct (new_bounded_ok hwm lwm q0 E Hh) as [Ok0 Eh0]. destruct (b_reachable_ok q0 es ins outs q Ok0 H) as (l & Ok & Eq & Eh).
  pose proof (bo_limit _ _ _ Ok). split; [lia|]. intros Hfull. split.
  - intros f x v t o q' En Ep. destruct (b_step_ok (Bv_push f x v t) l _ q Ok En) as (o' & q1 & l' & n' & E1 & Ok' & Eh' & _ & Hn). cbn [b_step] in E1.
    rewrite Ep in E1. injection E1 as <- <-. pose proof (bo_limit _ _ _ Ok'). unfold b_push in Ep. destruct (b_is_closed _); [injection Ep as <- _; by right|].
    unfold push_loop in Ep. destruct (is_full_ _); [|].
    + left. destruct (wait_not_full _ _ _ _); [|done]. cbn [mbind option_bind] in Ep. by injection Ep as <- _.
    + unfold b_push_and_notify in Ep. destruct (b_push_tail _ _); [|done]. injection Ep as <- _. cbn in Hn. lia.
  - intros f x o q' En Hk Ep. destruct (b_step_ok (Bv_resume f false) l _ q Ok En) as (o' & q1 & l' & n' & E1 & Ok' & Eh' & _ & Hn). cbn [b_step] in E1.
    rewrite Ep in E1. injection E1 as <- <-. pose proof (bo_limit _ _ _ Ok'). destruct (bo_pending _ _ _ Ok f x false Hk) as [[v Hv] _].
    unfold b_resume in Ep. rewrite Hk in Ep. cbn [mbind option_bind andb] in Ep. unfold push_loop in Ep. destruct (is_full_ _).
    + destruct (wait_not_full _ _ _ _); [|done]. cbn [mbind option_bind] in Ep. by injection Ep as <- _.
    + unfold b_push_and_notify in Ep. destruct (b_push_tail _ _); [|done]. injection Ep as <- _. cbn in Hn. rewrite Hk, Hv in Hn. cbn in Hn. lia.
Qed.
End spec.

(** ** Examples *)

Lemma run_bevents_runs {T} (es : list (bevent T)) q0 os ins outs q : run_bevents es q0 = Some (os, ins, outs, q) -> b_runs q0 es ins outs q.
Proof.
  assert (forall es1 ins1 outs1 q1, b_runs q0 es1 ins1 outs1 q1 -> forall es os ins outs q, run_bevents es q1 = Some (os, ins, outs, q) ->
    b_runs q0 (es1 ++ es) (ins1 ++ ins) (outs1 ++ outs) q) as H.
  { intros es1 ins1 outs1 q1 H1 es2. revert es1 ins1 outs1 q1 H1. induction es2 as [|e es2 IH]; intros es1 ins1 outs1 q1 H1 os2 ins2 outs2 q2 E; cbn [run_bevents] in E.
    - injection E as <- <- <- <-. by rewrite !app_nil_r.
    - case_decide as En; [|done]. destruct (b_step e q1) as [[o q3]|] eqn:Es; [|done]. cbn [mbind option_bind] in E.
      destruct (run_bevents es2 q3) as [[[[os3 ins3] outs3] q4]|] eqn:Er; [|done]. cbn [mbind option_bind] in E. injection E as <- <- <- <-.
      rewrite (cons_middle e es1 es2), !(assoc_L (++)). eapply IH; [|done]. by econstructor. }
  intros E. apply (H [] [] [] q0 (b_runs_nil q0) es os ins outs q E).
Qed.

Definition small_queue : bqueue Z := mk_bqueue OPEN 0 empty_chain [] [] 2 2 ∅.

(** Two values go in, a third writer waits; both are taken, and the third writer
    is woken. *)
Definition sample_bounded : list (bevent Z) :=
  [Bv_push 1 10 7 false; Bv_push 1 11 8 false; Bv_push 2 12 9 false; Bv_try_pop; Bv_try_pop].

Lemma bounded_queue_fifo_witness : exists ins outs q, b_runs small_queue sample_bounded ins outs q /\ ins = outs /\ outs = [7; 8].
Proof.
  assert ((fun x => (x.1.1.2, x.1.2, head_ (b_chain x.2))) <$> run_bevents sample_bounded small_queue = Some ([7; 8], [7; 8], None)) as E by (vm_compute; reflexivity).
  destruct (run_bevents sample_bounded small_queue) as [[[[os ins] outs] q]|] eqn:Er; [|discriminate E].
  cbn [fmap option_fmap option_map fst snd] in E. injection E as -> -> Eh. pose proof (run_bevents_runs _ _ _ _ _ _ Er) as R.
  exists [7; 8], [7; 8], q. split_and!; [exact R| |reflexivity].
  destruct (bounded_queue_fifo 2 2 small_queue sample_bounded [7; 8] [7; 8] q eq_refl ltac:(lia) R) as (l & Hs & El & _).
  rewrite Eh in Hs. destruct l as [|[x v] l]; [exact El|]. by destruct Hs as [? _].
Defined.

Lemma bounded_queue_fills_up_witness : exists ins outs q q' o, b_runs small_queue sample_bounded ins outs q /\ head_ (b_chain q) = None /\
  b_resume 2 false q = Some (o, q') /\ o = Waits.
Proof.
  assert ((fun x => (x.1.1.2, x.1.2, head_ (b_chain x.2), b_conts x.2 !! 2%nat, b_not_full x.2, b_not_empty x.2)) <$> run_bevents sample_bounded small_queue
    = Some ([7; 8], [7; 8], None, Some (B_push 12 false), [], [])) as E by (vm_compute; reflexivity).
  assert ((fun _ => tt) <$> (x ← run_bevents sample_bounded small_queue; b_resume 2 false x.2) = Some tt) as E2 by (vm_compute; reflexivity).
  destruct (run_bevents sample_bounded small_queue) as [[[[os ins] outs] q]|] eqn:Er; [|discriminate E].
  cbn [mbind option_bind snd] in E2. cbn [fmap option_fmap option_map fst snd] in E. injection E as -> -> Eh Ec Ef Ee.
  destruct (b_resume 2 false q) as [[o q']|] eqn:Es; [|discriminate E2]. pose proof (run_bevents_runs _ _ _ _ _ _ Er) as R.
  exists [7; 8], [7; 8], q, q', o. split; [exact R|]. split; [exact Eh|]. split; [exact Es|].
  destruct (bounded_queue_fills_up 2 2 small_queue sample_bounded [7; 8] [7; 8] q eq_refl ltac:(lia) R) as [_ Hf].
  apply (proj2 (Hf eq_refl) 2%nat 12%nat o q'); [|exact Ec|exact Es]. split; [by rewrite Ec|]. left. rewrite Ef, Ee. split; apply not_elem_of_nil.
Defined.
