(* ===== verification/FiberBarrier.v ===== *)
(** * [barrier]: fibers that wait for each other

    The barrier of [core/boost-fiber/barrier.cpp].  A call of [wait] is one step
    up to where its fiber waits for the condition; [cycle] is the local variable
    by which a waiting fiber sees that its cycle is over. *)

From stdpp Require Import gmap options.
From S2P Require Import Prelude FiberQueueNodes.

(** [br_waiting]: the fibers in the queue of [cond_]; [br_conts]: those that are
    suspended in [wait], with their [cycle]. *)
Record barrier := mk_barrier {
  initial_ : Z;
  current_ : Z;
  cycle_ : bool;
  br_waiting : list nat;
  br_conts : gmap nat bool
}.

(** The constructor; [None]: it throws [invalid_argument]. *)
Definition new_barrier (initial : Z) : option barrier :=
  if initial =? 0 then None else Some (mk_barrier initial initial true [] ∅).

(** [cond_.wait( lk)] in the fiber [f]. *)
Definition cond_wait (f : nat) (cycle : bool) (b : barrier) : option barrier :=
  if bool_decide (f ∈ br_waiting b) then None
  else Some (mk_barrier (initial_ b) (current_ b) (cycle_ b) (br_waiting b ++ [f]) (<[f := cycle]> (br_conts b))).

(** The loop of [wait]: the result, [None] while the fiber waits. *)
Definition wait_loop (f : nat) (cycle : bool) (b : barrier) : option (option bool * barrier) :=
  if bool_decide (cycle = cycle_ b) then b ← cond_wait f cycle b; Some (None, b) else Some (Some false, b).

Definition wait (f : nat) (b : barrier) : option (option bool * barrier) :=
  let cycle := cycle_ b in
  let current := w64 (current_ b - 1) in
  if current =? 0 then Some (Some true, mk_barrier (initial_ b) (initial_ b) (negb (cycle_ b)) [] (br_conts b))
  else wait_loop f cycle (mk_barrier (initial_ b) current (cycle_ b) (br_waiting b) (br_conts b)).

Definition resume (f : nat) (b : barrier) : option (option bool * barrier) :=
  cycle ← br_conts b !! f;
  wait_loop f cycle (mk_barrier (initial_ b) (current_ b) (cycle_ b) (br_waiting b) (delete f (br_conts b))).

(** ** Runs *)

Inductive event := Ev_wait (f : nat) | Ev_resume (f : nat).

(** At most [initial_] fibers use the barrier; a fiber is resumed when it has
    been notified. *)
Definition enabled (e : event) (b : barrier) : Prop :=
  match e with
  | Ev_wait f => br_conts b !! f = None /\ Z.of_nat (size (br_conts b)) < initial_ b
  | Ev_resume f => is_Some (br_conts b !! f) /\ (f ∉ br_waiting b)
  end.

#[export] Instance enabled_dec e b : Decision (enabled e b).
Proof. unfold enabled. destruct e; apply _. Defined.

Definition step (e : event) (b : barrier) : option (option bool * barrier) :=
  match e with Ev_wait f => wait f b | Ev_resume f => resume f b end.

Inductive runs (b0 : barrier) : list (event * option bool) -> barrier -> Prop :=
| runs_nil : runs b0 [] b0
| runs_snoc es b e o b' : runs b0 es b -> enabled e b -> step e b = Some (o, b') -> runs b0 (es ++ [(e, o)]) b'.

Fixpoint run_events (es : list event) (b : barrier) : option (list (event * option bool) * barrier) :=
  match es with
  | [] => Some ([], b)
  | e :: es =>
      if decide (enabled e b) then
        '(o, b) ← step e b;
        '(os, b) ← run_events es b;
        Some ((e, o) :: os, b)
      else None
  end.

(** ** What it promises *)

Definition is_arrival (x : event * option bool) : bool := match x.1 with Ev_wait _ => true | _ => false end.
Definition is_last (x : event * option bool) : bool := match x.2 with Some true => true | _ => false end.
Definition is_released (x : event * option bool) : bool := match x.2 with Some false => true | _ => false end.
Definition count (P : event * option bool -> bool) (es : list (event * option bool)) : Z := Z.of_nat (length (List.filter P es)).

Lemma count_snoc P es x : count P (es ++ [x]) = count P es + (if P x then 1 else 0).
Proof. unfold count. rewrite List.filter_app, length_app. cbn. destruct (P x); cbn; lia. Qed.

(** [n]: the number of fibers; [k]: cycles that are over; [old]: the fibers of
    the last one that have not returned yet. *)
Record barrier_ok (n k released : Z) (old : gset nat) (b : barrier) : Prop := {
  br_initial : initial_ b = n;
  br_range : 1 <= n < 2 ^ 64;
  br_current : current_ b = n - Z.of_nat (length (br_waiting b));
  br_some : 1 <= current_ b;
  br_nodup : NoDup (br_waiting b);
  br_cycle f c : br_conts b !! f = Some c <-> (f ∈ br_waiting b /\ c = cycle_ b) \/ (f ∈ old /\ c = negb (cycle_ b));
  br_disjoint f : f ∈ old -> f ∈ br_waiting b -> False;
  br_released : released + Z.of_nat (size old) = k * (n - 1)
}.

Lemma new_barrier_ok n b : new_barrier n = Some b -> 0 <= n < 2 ^ 64 -> barrier_ok n 0 0 ∅ b.
Proof.
  unfold new_barrier. destruct (n =? 0) eqn:E; [done|]. to_prop. intros [= <-] Hn. split; cbn; try done; try lia.
  - apply NoDup_nil_2.
  - intros f c. rewrite lookup_empty, elem_of_nil. set_solver.
Qed.

Lemma conts_size n k r old b : barrier_ok n k r old b -> Z.of_nat (size (br_conts b)) = Z.of_nat (length (br_waiting b)) + Z.of_nat (size old).
Proof.
  intros [_ _ _ _ Hnd Hc Hd _]. assert (dom (br_conts b) = list_to_set (br_waiting b) ∪ old) as E.
  { apply set_eq. intros f. rewrite elem_of_dom, elem_of_union, elem_of_list_to_set. split.
    - intros [c Hf]. apply Hc in Hf. tauto.
    - intros [Hf|Hf]; [exists (cycle_ b)|exists (negb (cycle_ b))]; apply Hc; tauto. }
  rewrite <- (size_dom (D := gset nat)), E, size_union, size_list_to_set by (done || set_solver). lia.
Qed.

Definition one (c : bool) : Z := if c then 1 else 0.

Lemma barrier_wait_ok f n k r old b : barrier_ok n k r old b -> enabled (Ev_wait f) b -> exists o b' old', wait f b = Some (o, b') /\
  let x := (Ev_wait f, o) in barrier_ok n (k + one (is_last x)) (r + one (is_released x)) old' b' /\
  (k + one (is_last x)) * n + Z.of_nat (length (br_waiting b')) = k * n + Z.of_nat (length (br_waiting b)) + 1.
Proof.
  intros Ok [Hf Hs]. rewrite (conts_size _ _ _ _ _ Ok) in Hs. destruct Ok as [Hi Hr Hc H1 Hnd Hcy Hd Hrel]. rewrite Hi in Hs. unfold wait.
  assert (f ∉ br_waiting b) as Hw by (intros Hin; rewrite (proj2 (Hcy f (cycle_ b))) in Hf; [done|tauto]).
  assert (f ∉ old) as Ho by (intros Hin; rewrite (proj2 (Hcy f (negb (cycle_ b)))) in Hf; [done|tauto]).
  rewrite wrap_small by lia. destruct (current_ b - 1 =? 0) eqn:E; to_prop.
  - assert (size old = 0%nat) as Hz by lia. apply size_empty_inv in Hz. exists (Some true). eexists. exists (list_to_set (br_waiting b)). split; [done|]. cbv zeta. cbn [is_last is_released one].
    rewrite Hi. split; [|cbn; lia]. split; cbn; try done; try lia.
    + apply NoDup_nil_2.
    + intros g c. rewrite Hcy, elem_of_nil, elem_of_list_to_set, negb_involutive. set_solver.
    + intros g _ ?%elem_of_nil. done.
    + rewrite size_list_to_set by done. rewrite Hz in Hrel. rewrite size_empty in Hrel. lia.
  - unfold wait_loop. cbn [cycle_]. rewrite bool_decide_true by done. unfold cond_wait. cbn [br_waiting]. rewrite bool_decide_false by done. cbn [mbind option_bind].
    exists None. eexists. exists old. split; [done|]. cbv zeta. cbn [is_last is_released one snd]. rewrite !Z.add_0_r. cbn [br_waiting]. rewrite length_app. split; [|cbn; lia].
    split; cbn [initial_ current_ cycle_ br_waiting br_conts]; try done; try lia.
    + rewrite length_app. cbn. lia.
    + apply NoDup_app. split_and!; [done| |apply NoDup_singleton]. by intros g Hg ->%list_elem_of_singleton.
    + intros g c. rewrite elem_of_app, list_elem_of_singleton. destruct (decide (g = f)) as [->|Hne].
      * rewrite lookup_insert_eq. split; [intros [= ->]; tauto|]. intros [[_ ->]|[? _]]; done.
      * rewrite lookup_insert_ne, Hcy by done. naive_solver.
    + intros g Hg [?|Hx%list_elem_of_singleton]%elem_of_app; [by apply (Hd g)|by subst].
Qed.

Lemma barrier_resume_ok f n k r old b : barrier_ok n k r old b -> enabled (Ev_resume f) b -> exists b' old', resume f b = Some (Some false, b') /\
  barrier_ok n k (r + 1) old' b' /\ br_waiting b' = br_waiting b.
Proof.
  intros [Hi Hr Hc H1 Hnd Hcy Hd Hrel] [[c Hf] Hw]. unfold resume. rewrite Hf. cbn [mbind option_bind]. apply Hcy in Hf as [[? _]|[Ho ->]]; [done|].
  unfold wait_loop. cbn [cycle_]. rewrite bool_decide_false by (by destruct (cycle_ b)). do 2 eexists. split; [done|]. split; [|done].
  instantiate (1 := old ∖ {[f]}). split; cbn; try done.
  - intros g c. rewrite lookup_delete_Some, Hcy. split.
    + intros [Hne [?|[Hg ->]]]; [tauto|]. right. split; [set_solver|done].
    + intros [[Hg ->]|[Hg ->]]; [|set_solver]. split; [by intros ->|tauto].
  - intros g Hg. apply Hd. set_solver.
  - rewrite size_difference by set_solver. rewrite size_singleton. assert (size old <> 0%nat) by (intros Hz%size_empty_inv; set_solver). lia.
Qed.

Lemma barrier_reachable_ok n b0 es b : new_barrier n = Some b0 -> 0 <= n < 2 ^ 64 -> runs b0 es b ->
  exists old, barrier_ok n (count is_last es) (count is_released es) old b /\
    count is_last es * n + Z.of_nat (length (br_waiting b)) = count is_arrival es.
Proof.
  intros E Hn H. induction H as [|es b e o b' H (old & Ok & Ea) En Es]; [exists ∅; split; [by apply new_barrier_ok|]|].
  - cbn. by unfold new_barrier in E; destruct (n =? 0); [|injection E as <-].
  - rewrite !count_snoc. destruct e as [f|f]; cbn [step] in Es.
    + destruct (barrier_wait_ok f _ _ _ _ _ Ok En) as (o' & b1 & old' & E1 & Ok' & Ew). rewrite Es in E1. injection E1 as <- <-. exists old'.
      split; [exact Ok'|]. unfold one in Ew. cbn [is_arrival fst]. lia.
    + destruct (barrier_resume_ok f _ _ _ _ _ Ok En) as (b1 & old' & E1 & Ok' & Ew). rewrite Es in E1. injection E1 as -> ->. exists old'.
      cbn [is_last is_released is_arrival fst snd]. rewrite Z.add_0_r, Ew. split; [done|lia].
Qed.

(** C28: A barrier holds its fibers until all have arrived.  When at most [n]
    fibers use a barrier for [n], then in every run: the fibers in the queue of
    its condition are those that have arrived in the cycle that is not complete;
    [wait] has returned [true] once for each complete cycle and [false] for no
    more than the other fibers of these cycles; the fibers that are suspended and
    not in the queue are the rest of the last complete cycle, and each returns
    [false] as soon as it is resumed; and no assertion fails. *)
Theorem barrier_synchronizes n b0 es b : new_barrier n = Some b0 -> 0 <= n < 2 ^ 64 -> runs b0 es b ->
  count is_last es = count is_arrival es / n /\ Z.of_nat (length (br_waiting b)) = count is_arrival es mod n /\
  count is_released es + (Z.of_nat (size (br_conts b)) - Z.of_nat (length (br_waiting b))) = count is_last es * (n - 1) /\
  (forall f, enabled (Ev_resume f) b -> exists b', resume f b = Some (Some false, b')) /\
  (forall e, enabled e b -> is_Some (step e b)).
Proof.
  intros E Hn H. destruct (barrier_reachable_ok n b0 es b E Hn H) as (old & Ok & Ea). pose proof Ok as [Hi Hr Hc H1 Hnd Hcy Hd Hrel].
  pose proof (conts_size _ _ _ _ _ Ok) as Hs. assert (0 <= Z.of_nat (length (br_waiting b)) < n) as Hb by lia. split_and!.
  - apply (Z.div_unique_pos _ _ _ (Z.of_nat (length (br_waiting b)))); lia.
  - apply (Z.mod_unique_pos _ _ (count is_last es)); lia.
  - lia.
  - intros f En. destruct (barrier_resume_ok f _ _ _ _ _ Ok En) as (b' & _ & -> & _). by exists b'.
  - intros [f|f] En; cbn [step].
    + destruct (barrier_wait_ok f _ _ _ _ _ Ok En) as (o & b' & _ & -> & _). done.
    + destruct (barrier_resume_ok f _ _ _ _ _ Ok En) as (b' & _ & -> & _). done.
Qed.

(** ** Examples *)

Lemma barrier_events_run es b0 es' b : run_events es b0 = Some (es', b) -> runs b0 es' b.
Proof.
  assert (forall es1 b1, runs b0 es1 b1 -> forall es es' b, run_events es b1 = Some (es', b) -> runs b0 (es1 ++ es') b) as H.
  { intros es1 b1 H1 es2. revert es1 b1 H1. induction es2 as [|e es2 IH]; intros es1 b1 H1 es3 b3 E; cbn [run_events] in E.
    - injection E as <- <-. by rewrite app_nil_r.
    - case_decide as En; [|done]. destruct (step e b1) as [[o b2]|] eqn:Es; [|done]. cbn [mbind option_bind] in E.
      destruct (run_events es2 b2) as [[os b4]|] eqn:Er; [|done]. cbn [mbind option_bind] in E. injection E as <- <-.
      rewrite (cons_middle (e, o) es1 os), (assoc_L (++)). eapply IH; [|done]. by econstructor. }
  intros E. by apply (H [] b0 (runs_nil b0) es es' b).
Qed.

Definition barrier_for_two : barrier := mk_barrier 2 2 true [] ∅.

(** Fiber 2 completes a cycle and comes again before fiber 1 has returned. *)
Lemma barrier_synchronizes_witness : exists es b b', runs barrier_for_two es b /\ length es = 2%nat /\ count is_last es = 1 /\ resume 1 b = Some (Some false, b').
Proof.
  assert ((fun x => (count is_arrival x.1, length x.1, br_conts x.2 !! 1%nat, br_waiting x.2)) <$> run_events [Ev_wait 1; Ev_wait 2] barrier_for_two
    = Some (2, 2%nat, Some true, [])) as E by (vm_compute; reflexivity).
  destruct (run_events [Ev_wait 1; Ev_wait 2] barrier_for_two) as [[es b]|] eqn:Er; [|discriminate E]. cbn [fmap option_fmap option_map fst snd] in E.
  injection E as Ea El Ec Ew. pose proof (barrier_events_run _ _ _ _ Er) as R.
  destruct (barrier_synchronizes 2 barrier_for_two es b eq_refl ltac:(lia) R) as (E1 & _ & _ & Hres & _).
  destruct (Hres 1%nat) as [b' Hb]; [split; [by rewrite Ec|rewrite Ew; apply not_elem_of_nil]|]. exists es, b, b'. rewrite Ea in E1. split_and!; [exact R|exact El|exact E1|exact Hb].
Defined.

(** With more fibers than [initial_], a fiber that is slow to return misses the
    end of its cycle: the flag has been flipped twice, and it waits again. *)
Example more_fibers_miss_the_end :
  (b1 ← snd <$> wait 1 barrier_for_two; b2 ← snd <$> wait 2 b1; b3 ← snd <$> wait 3 b2; b4 ← snd <$> wait 4 b3; x ← resume 1 b4; Some (x.1, br_waiting x.2))
  = Some (None, [1%nat]).
Proof. vm_compute. reflexivity. Qed.
