(* ===== verification/FiberFuture.v ===== *)
(** * Futures and promises

    The futures of [core/boost-fiber/boost/fiber/future]: a [shared_state] is
    made ready by its [promise] or [packaged_task] and read through [future] and
    [shared_future] objects, whose calls wait until it is ready.  A shared state
    counts the pointers to it and is deleted when the last one is released.
    Objects and shared states are keys of maps; a call is one step up to where its
    fiber waits for the condition of the state.  [R] is the type of the values,
    [E] that of the exceptions of the program. *)

From stdpp Require Import gmap options.
From S2P Require Import Prelude.

(** The exceptions the classes throw. *)
Inductive future_error :=
| future_uninitialized | promise_uninitialized | packaged_task_uninitialized
| promise_already_satisfied | future_already_retrieved.

#[export] Instance future_error_eq_dec : EqDecision future_error.
Proof. solve_decision. Defined.

Section futures.
Context {R E : Type}.

(** What [except_] can hold. *)
Inductive exn := broken_promise | user (e : E).

(** [waiters_]: the fibers in the queue of the condition. *)
Record shared_state := mk_shared_state {
  use_count_ : Z;
  ready_ : bool;
  value_ : option R;
  except_ : option exn;
  waiters_ : list nat
}.

Definition new_state : shared_state := mk_shared_state 0 false None None [].

Record promise := mk_promise { obtained_ : bool; future_ : option nat }.
Record packaged_task := mk_packaged_task { task_obtained : bool; task_ : option nat }.

(** The member function of a shared state that a suspended fiber goes on in. *)
Inductive reading := In_get | In_get_exception_ptr | In_wait | In_wait_until.

#[export] Instance reading_eq_dec : EqDecision reading.
Proof. solve_decision. Defined.

(** What keeps the state alive for a suspended call: the pointer [tmp] of
    [future::get], or the [state_] of the object the call was made on. *)
Inductive holder := Tmp | By_future (u : nat) | By_shared (h : nat).

#[export] Instance holder_eq_dec : EqDecision holder.
Proof. solve_decision. Defined.

Record call := mk_call { c_state : nat; c_reading : reading; c_holder : holder }.

(** [futures] and [shared_futures]: the [state_] of the objects; [f_conts]: the
    calls of the suspended fibers.  [deleted] remembers what the deleted states
    held; no operation reads it. *)
Record store := mk_store {
  states : gmap nat shared_state;
  deleted : gmap nat shared_state;
  promises : gmap nat promise;
  futures : gmap nat (option nat);
  shared_futures : gmap nat (option nat);
  tasks : gmap nat packaged_task;
  f_conts : gmap nat call
}.

Definition new_store : store := mk_store ∅ ∅ ∅ ∅ ∅ ∅ ∅.

Definition set_states x y := mk_store x (deleted y) (promises y) (futures y) (shared_futures y) (tasks y) (f_conts y).
Definition set_promises x y := mk_store (states y) (deleted y) x (futures y) (shared_futures y) (tasks y) (f_conts y).
Definition set_futures x y := mk_store (states y) (deleted y) (promises y) x (shared_futures y) (tasks y) (f_conts y).
Definition set_shared x y := mk_store (states y) (deleted y) (promises y) (futures y) x (tasks y) (f_conts y).
Definition set_tasks x y := mk_store (states y) (deleted y) (promises y) (futures y) (shared_futures y) x (f_conts y).
Definition set_f_conts x y := mk_store (states y) (deleted y) (promises y) (futures y) (shared_futures y) (tasks y) x.
Definition set_state (s : nat) (x : shared_state) (y : store) : store := set_states (<[s := x]> (states y)) y.

(** How a call goes on.  [Got s r]: [get] returns the value, or throws the
    exception, of the state [s]; [Got_exception]: [get_exception_ptr] returns;
    [Ready]: a wait returns; [Was_set s r]: the state [s] was made ready with
    [r]. *)
Inductive outcome :=
| Done
| Got (s : nat) (r : R + exn)
| Got_exception (s : nat) (e : option exn)
| Was_set (s : nat) (r : R + exn)
| Ready (s : nat)
| Timeout
| Throws (e : future_error)
| Waits.

(** ** [shared_state] *)

Definition with_count (c : Z) (x : shared_state) : shared_state := mk_shared_state c (ready_ x) (value_ x) (except_ x) (waiters_ x).

(** [None] is a dangling pointer, here and below. *)
Definition intrusive_ptr_add_ref (s : nat) (y : store) : option store :=
  x ← states y !! s; Some (set_state s (with_count (w64 (use_count_ x + 1)) x) y).

(** [deallocate_future] destroys the condition, which asserts that nobody waits. *)
Definition deallocate_future (s : nat) (x : shared_state) (y : store) : option store :=
  match waiters_ x with
  | [] => Some (mk_store (delete s (states y)) (<[s := x]> (deleted y)) (promises y) (futures y) (shared_futures y) (tasks y) (f_conts y))
  | _ :: _ => None
  end.

Definition intrusive_ptr_release (s : nat) (y : store) : option store :=
  x ← states y !! s;
  let x := with_count (w64 (use_count_ x - 1)) x in
  if (use_count_ x =? 0)%Z then deallocate_future s x y else Some (set_state s x y).

(** A pointer that may be null is copied, and destroyed. *)
Definition copy_ptr (x : option nat) (y : store) : option store :=
  match x with Some s => intrusive_ptr_add_ref s y | None => Some y end.
Definition drop_ptr (x : option nat) (y : store) : option store :=
  match x with Some s => intrusive_ptr_release s y | None => Some y end.

Definition mark_ready_and_notify_ (x : shared_state) : shared_state := mk_shared_state (use_count_ x) true (value_ x) (except_ x) [].

(** [None]: throws [promise_already_satisfied]. *)
Definition set_value_ (v : R) (x : shared_state) : option shared_state :=
  if ready_ x then None else Some (mark_ready_and_notify_ (mk_shared_state (use_count_ x) (ready_ x) (Some v) (except_ x) (waiters_ x))).

Definition set_exception_ (e : exn) (x : shared_state) : option shared_state :=
  if ready_ x then None else Some (mark_ready_and_notify_ (mk_shared_state (use_count_ x) (ready_ x) (value_ x) (Some e) (waiters_ x))).

Definition owner_destroyed_ (x : shared_state) : shared_state :=
  if ready_ x then x else default x (set_exception_ broken_promise x).

Definition reset_state (x : shared_state) : shared_state := mk_shared_state (use_count_ x) false (value_ x) (except_ x) (waiters_ x).

(** [get_] behind [wait_]; [None]: the value is read from an empty [optional]. *)
Definition get_ (x : shared_state) : option (R + exn) :=
  match except_ x with Some e => Some (inr e) | None => inl <$> value_ x end.

(** [set_value], [set_exception] and [owner_destroyed] of the state [s]. *)
Definition set_result (s : nat) (r : R + exn) (y : store) : option (outcome * store) :=
  x ← states y !! s;
  match match r with inl v => set_value_ v x | inr e => set_exception_ e x end with
  | None => Some (Throws promise_already_satisfied, y)
  | Some x => Some (Was_set s r, set_state s x y)
  end.

Definition owner_destroyed (s : nat) (y : store) : option (outcome * store) :=
  x ← states y !! s;
  Some (if ready_ x then Done else Was_set s (inr broken_promise), set_state s (owner_destroyed_ x) y).

(** [wait_] and what follows it, in the fiber [f], from where it has the mutex;
    only [wait] asserts that the fiber is not in the queue. *)
Definition read_state (f s : nat) (k : reading) (o : holder) (y : store) : option (outcome * store) :=
  x ← states y !! s;
  if ready_ x then
    match k with
    | In_get => r ← get_ x; Some (Got s r, y)
    | In_get_exception_ptr => Some (Got_exception s (except_ x), y)
    | In_wait | In_wait_until => Some (Ready s, y)
    end
  else if bool_decide (k <> In_wait_until /\ f ∈ waiters_ x) then None
  else Some (Waits, set_f_conts (<[f := mk_call s k o]> (f_conts y))
    (set_state s (mk_shared_state (use_count_ x) (ready_ x) (value_ x) (except_ x) (waiters_ x ++ [f])) y)).

(** When the call returns or throws, [tmp] is destroyed. *)
Definition leave (s : nat) (o : holder) (r : option (outcome * store)) : option (outcome * store) :=
  '(out, y) ← r;
  match out, o with
  | Waits, _ => Some (out, y)
  | _, Tmp => y ← intrusive_ptr_release s y; Some (out, y)
  | _, _ => Some (out, y)
  end.

(** The fiber [f] is resumed; [late]: its deadline has passed.  [wait_until_]
    returns [timeout] only when the state is still not ready. *)
Definition resume (f : nat) (late : bool) (y : store) : option (outcome * store) :=
  c ← f_conts y !! f;
  let s := c_state c in
  let y := set_f_conts (delete f (f_conts y)) y in
  leave s (c_holder c) (
    x ← states y !! s;
    if late && bool_decide (c_reading c = In_wait_until) then
      let x := mk_shared_state (use_count_ x) (ready_ x) (value_ x) (except_ x) (filter (fun g => g <> f) (waiters_ x)) in
      Some (if ready_ x then Ready s else Timeout, set_state s x y)
    else read_state f s (c_reading c) (c_holder c) y).

(** ** [promise] *)

Definition make_promise (p s : nat) (y : store) : option (outcome * store) :=
  y ← intrusive_ptr_add_ref s (set_state s new_state y);
  Some (Done, set_promises (<[p := mk_promise false (Some s)]> (promises y)) y).

(** [u]: the new future. *)
Definition promise_get_future (p u : nat) (y : store) : option (outcome * store) :=
  x ← promises y !! p;
  if obtained_ x then Some (Throws future_already_retrieved, y)
  else match future_ x with
       | None => Some (Throws promise_uninitialized, y)
       | Some s =>
           y ← intrusive_ptr_add_ref s (set_promises (<[p := mk_promise true (Some s)]> (promises y)) y);
           Some (Done, set_futures (<[u := Some s]> (futures y)) y)
       end.

Definition promise_set (p : nat) (r : R + exn) (y : store) : option (outcome * store) :=
  x ← promises y !! p;
  match future_ x with None => Some (Throws promise_uninitialized, y) | Some s => set_result s r y end.

Definition promise_swap (p p' : nat) (y : store) : option (outcome * store) :=
  x ← promises y !! p;
  x' ← promises y !! p';
  Some (Done, set_promises (<[p := x']> (<[p' := x]> (promises y))) y).

(** The move constructor: [p'] is the new promise. *)
Definition promise_move (p p' : nat) (y : store) : option (outcome * store) :=
  x ← promises y !! p;
  Some (Done, set_promises (<[p' := x]> (<[p := mk_promise false None]> (promises y))) y).

(** The destructor, and then that of its pointer. *)
Definition abandon (x : option nat) (y : store) : option (outcome * store) :=
  match x with
  | None => Some (Done, y)
  | Some s => '(out, y) ← owner_destroyed s y; y ← intrusive_ptr_release s y; Some (out, y)
  end.

Definition destroy_promise (p : nat) (y : store) : option (outcome * store) :=
  x ← promises y !! p; abandon (future_ x) (set_promises (delete p (promises y)) y).

(** ** [future] and [shared_future] *)

(** [get] moves the pointer to [tmp] before it waits. *)
Definition future_get (f u : nat) (y : store) : option (outcome * store) :=
  x ← futures y !! u;
  match x with
  | None => Some (Throws future_uninitialized, y)
  | Some s => leave s Tmp (read_state f s In_get Tmp (set_futures (<[u := None]> (futures y)) y))
  end.

(** [get_exception_ptr], [wait], [wait_for] and [wait_until]. *)
Definition future_read (f u : nat) (k : reading) (y : store) : option (outcome * store) :=
  x ← futures y !! u;
  match x with None => Some (Throws future_uninitialized, y) | Some s => read_state f s k (By_future u) y end.

Definition future_swap (u u' : nat) (y : store) : option (outcome * store) :=
  x ← futures y !! u;
  x' ← futures y !! u';
  Some (Done, set_futures (<[u := x']> (<[u' := x]> (futures y))) y).

(** The move constructor: [u'] is the new future. *)
Definition future_move (u u' : nat) (y : store) : option (outcome * store) :=
  x ← futures y !! u; Some (Done, set_futures (<[u' := x]> (<[u := None]> (futures y))) y).

Definition destroy_future (u : nat) (y : store) : option (outcome * store) :=
  x ← futures y !! u; y ← drop_ptr x (set_futures (delete u (futures y)) y); Some (Done, y).

(** [h]: the new shared future. *)
Definition share (u h : nat) (y : store) : option (outcome * store) :=
  x ← futures y !! u;
  match x with
  | None => Some (Throws future_uninitialized, y)
  | Some s => Some (Done, set_shared (<[h := Some s]> (shared_futures y)) (set_futures (<[u := None]> (futures y)) y))
  end.

Definition shared_copy (h h' : nat) (y : store) : option (outcome * store) :=
  x ← shared_futures y !! h; y ← copy_ptr x y; Some (Done, set_shared (<[h' := x]> (shared_futures y)) y).

Definition shared_swap (h h' : nat) (y : store) : option (outcome * store) :=
  x ← shared_futures y !! h;
  x' ← shared_futures y !! h';
  Some (Done, set_shared (<[h := x']> (<[h' := x]> (shared_futures y))) y).

Definition destroy_shared (h : nat) (y : store) : option (outcome * store) :=
  x ← shared_futures y !! h; y ← drop_ptr x (set_shared (delete h (shared_futures y)) y); Some (Done, y).

Definition shared_read (f h : nat) (k : reading) (y : store) : option (outcome * store) :=
  x ← shared_futures y !! h;
  match x with None => Some (Throws future_uninitialized, y) | Some s => read_state f s k (By_shared h) y end.

(** ** [packaged_task] *)

Definition make_task (t s : nat) (y : store) : option (outcome * store) :=
  y ← intrusive_ptr_add_ref s (set_state s new_state y);
  Some (Done, set_tasks (<[t := mk_packaged_task false (Some s)]> (tasks y)) y).

Definition task_get_future (t u : nat) (y : store) : option (outcome * store) :=
  x ← tasks y !! t;
  if task_obtained x then Some (Throws future_already_retrieved, y)
  else match task_ x with
       | None => Some (Throws packaged_task_uninitialized, y)
       | Some s =>
           y ← intrusive_ptr_add_ref s (set_tasks (<[t := mk_packaged_task true (Some s)]> (tasks y)) y);
           Some (Done, set_futures (<[u := Some s]> (futures y)) y)
       end.

(** [operator()] and [task_object::run], when the function has returned or
    thrown [r].  A second run throws twice: the exception that [set_value] throws
    is passed to [set_exception], which throws as well. *)
Definition task_run (t : nat) (r : R + exn) (y : store) : option (outcome * store) :=
  x ← tasks y !! t;
  match task_ x with None => Some (Throws packaged_task_uninitialized, y) | Some s => set_result s r y end.

Definition task_reset (t : nat) (y : store) : option (outcome * store) :=
  x ← tasks y !! t;
  match task_ x with
  | None => Some (Throws packaged_task_uninitialized, y)
  | Some s =>
      let y := set_tasks (<[t := mk_packaged_task false (Some s)]> (tasks y)) y in
      x ← states y !! s; Some (Done, set_state s (reset_state x) y)
  end.

(** The move constructor: [t'] is the new task. *)
Definition task_move (t t' : nat) (y : store) : option (outcome * store) :=
  x ← tasks y !! t;
  Some (Done, set_tasks (<[t' := x]> (<[t := mk_packaged_task false None]> (tasks y))) y).

Definition destroy_task (t : nat) (y : store) : option (outcome * store) :=
  x ← tasks y !! t; abandon (task_ x) (set_tasks (delete t (tasks y)) y).

(** ** Runs *)

Inductive event :=
| Fe_make_promise (p s : nat)
| Fe_promise_get_future (p u : nat)
| Fe_promise_set (p : nat) (r : R + exn)
| Fe_promise_swap (p p' : nat)
| Fe_promise_move (p p' : nat)
| Fe_destroy_promise (p : nat)
| Fe_get (f u : nat)
| Fe_read (f u : nat) (k : reading)
| Fe_future_swap (u u' : nat)
| Fe_future_move (u u' : nat)
| Fe_destroy_future (u : nat)
| Fe_share (u h : nat)
| Fe_shared_copy (h h' : nat)
| Fe_shared_swap (h h' : nat)
| Fe_destroy_shared (h : nat)
| Fe_shared_read (f h : nat) (k : reading)
| Fe_make_task (t s : nat)
| Fe_task_get_future (t u : nat)
| Fe_task_run (t : nat) (r : R + exn)
| Fe_task_reset (t : nat)
| Fe_task_move (t t' : nat)
| Fe_destroy_task (t : nat)
| Fe_resume (f : nat) (late : bool).

(** A suspended call uses the object of [o]. *)
Definition in_use (o : holder) (y : store) : Prop := map_Exists (fun _ c => c_holder c = o) (f_conts y).

(** There is room for one more pointer: a process cannot hold [2^64] of them. *)
Definition room (s : nat) (y : store) : Prop :=
  match states y !! s with Some x => (use_count_ x + 1 < 2 ^ 64)%Z | None => True end.
Definition room_for (x : option (option nat)) (y : store) : Prop :=
  match x with Some (Some s) => room s y | _ => True end.

(** New objects are not among the present ones, and the key of a deleted state is
    not used again; a call is made on an object that exists, in a fiber that runs; an object that a
    suspended call uses is not destroyed, swapped, moved, shared or given up by
    [get]; a fiber is resumed when it has been notified or is late. *)
Definition enabled (e : event) (y : store) : Prop :=
  match e with
  | Fe_make_promise p s => promises y !! p = None /\ states y !! s = None /\ deleted y !! s = None
  | Fe_promise_get_future p u => is_Some (promises y !! p) /\ futures y !! u = None /\ room_for (future_ <$> promises y !! p) y
  | Fe_promise_set p _ | Fe_destroy_promise p => is_Some (promises y !! p)
  | Fe_promise_swap p p' => is_Some (promises y !! p) /\ is_Some (promises y !! p')
  | Fe_promise_move p p' => is_Some (promises y !! p) /\ promises y !! p' = None
  | Fe_get f u => is_Some (futures y !! u) /\ f_conts y !! f = None /\ ~ in_use (By_future u) y
  | Fe_read f u k => is_Some (futures y !! u) /\ f_conts y !! f = None /\ k <> In_get
  | Fe_future_swap u u' => is_Some (futures y !! u) /\ is_Some (futures y !! u') /\ ~ in_use (By_future u) y /\ ~ in_use (By_future u') y
  | Fe_future_move u u' => is_Some (futures y !! u) /\ futures y !! u' = None /\ ~ in_use (By_future u) y
  | Fe_destroy_future u => is_Some (futures y !! u) /\ ~ in_use (By_future u) y
  | Fe_share u h => is_Some (futures y !! u) /\ shared_futures y !! h = None /\ ~ in_use (By_future u) y
  | Fe_shared_copy h h' => is_Some (shared_futures y !! h) /\ shared_futures y !! h' = None /\ room_for (shared_futures y !! h) y
  | Fe_shared_swap h h' => is_Some (shared_futures y !! h) /\ is_Some (shared_futures y !! h') /\ ~ in_use (By_shared h) y /\ ~ in_use (By_shared h') y
  | Fe_destroy_shared h => is_Some (shared_futures y !! h) /\ ~ in_use (By_shared h) y
  | Fe_shared_read f h _ => is_Some (shared_futures y !! h) /\ f_conts y !! f = None
  | Fe_make_task t s => tasks y !! t = None /\ states y !! s = None /\ deleted y !! s = None
  | Fe_task_get_future t u => is_Some (tasks y !! t) /\ futures y !! u = None /\ room_for (task_ <$> tasks y !! t) y
  | Fe_task_run t _ | Fe_task_reset t | Fe_destroy_task t => is_Some (tasks y !! t)
  | Fe_task_move t t' => is_Some (tasks y !! t) /\ tasks y !! t' = None
  | Fe_resume f late =>
      match f_conts y !! f with
      | Some c => (f ∉ default [] (waiters_ <$> states y !! c_state c)) \/ (late = true /\ c_reading c = In_wait_until)
      | None => False
      end
  end.

#[export] Instance enabled_dec e y : Decision (enabled e y).
Proof.
  assert (forall o, Decision (in_use o y)) by (intros o; unfold in_use; apply _).
  assert (forall x, Decision (room_for x y)) by (intros x; unfold room_for, room; destruct x as [[s|]|]; [destruct (states y !! s)| |]; apply _).
  unfold enabled. destruct e; try apply _. destruct (f_conts y !! f); apply _.
Defined.

Definition step (e : event) (y : store) : option (outcome * store) :=
  match e with
  | Fe_make_promise p s => make_promise p s y
  | Fe_promise_get_future p u => promise_get_future p u y
  | Fe_promise_set p r => promise_set p r y
  | Fe_promise_swap p p' => promise_swap p p' y
  | Fe_promise_move p p' => promise_move p p' y
  | Fe_destroy_promise p => destroy_promise p y
  | Fe_get f u => future_get f u y
  | Fe_read f u k => future_read f u k y
  | Fe_future_swap u u' => future_swap u u' y
  | Fe_future_move u u' => future_move u u' y
  | Fe_destroy_future u => destroy_future u y
  | Fe_share u h => share u h y
  | Fe_shared_copy h h' => shared_copy h h' y
  | Fe_shared_swap h h' => shared_swap h h' y
  | Fe_destroy_shared h => destroy_shared h y
  | Fe_shared_read f h k => shared_read f h k y
  | Fe_make_task t s => make_task t s y
  | Fe_task_get_future t u => task_get_future t u y
  | Fe_task_run t r => task_run t r y
  | Fe_task_reset t => task_reset t y
  | Fe_task_move t t' => task_move t t' y
  | Fe_destroy_task t => destroy_task t y
  | Fe_resume f late => resume f late y
  end.

Definition is_reset (e : event) : bool := match e with Fe_task_reset _ => true | _ => false end.

(** A run in which no task is reset, with its outcomes. *)
Inductive runs : list outcome -> store -> Prop :=
| runs_nil : runs [] new_store
| runs_snoc os y e o y' : runs os y -> enabled e y -> is_reset e = false -> step e y = Some (o, y') -> runs (os ++ [o]) y'.

Fixpoint run_calls (es : list event) (y : store) : option (list outcome * store) :=
  match es with
  | [] => Some ([], y)
  | e :: es => if decide (enabled e y) then '(o, y) ← step e y; '(os, y) ← run_calls es y; Some (o :: os, y) else None
  end.
End futures.

Arguments exn : clear implicits.
Arguments shared_state : clear implicits.
Arguments store : clear implicits.
Arguments outcome : clear implicits.
Arguments event : clear implicits.
