(* ===== verification/FiberFutureSpec.v ===== *)
(** * What futures promise

    A shared state gets one result, whoever reads it gets that result, and nobody
    who waits for it is forgotten; a task that is reset breaks this. *)

From stdpp Require Import gmap options.
From S2P Require Import Prelude FiberFuture.

Section spec.
Context {R E : Type}.
Implicit Types y : store R E.

(** ** Counting pointers *)

Definition tally {A} (w : A -> nat) (m : gmap nat A) : nat := map_fold (fun _ x n => w x + n)%nat 0%nat m.

Lemma tally_fresh {A} (w : A -> nat) m k x : m !! k = None -> tally w (<[k := x]> m) = (w x + tally w m)%nat.
Proof. intros Hk. unfold tally. rewrite map_fold_insert_L; [done| |done]. intros. lia. Qed.

Lemma tally_delete {A} (w : A -> nat) m k x : m !! k = Some x -> tally w m = (w x + tally w (delete k m))%nat.
Proof. intros Hk. rewrite <- (insert_delete_id m k x Hk) at 1. rewrite tally_fresh; [done|]. apply lookup_delete_eq. Qed.

Lemma tally_insert {A} (w : A -> nat) m k x : (tally w (<[k := x]> m) + from_option w 0%nat (m !! k))%nat = (w x + tally w m)%nat.
Proof.
  rewrite <- insert_delete_eq, tally_fresh by apply lookup_delete_eq. destruct (m !! k) as [z|] eqn:Ez; cbn [from_option].
  - rewrite (tally_delete w m k z Ez). lia.
  - rewrite delete_id by done. lia.
Qed.

Definition points (s : nat) (x : option nat) : nat := if decide (x = Some s) then 1 else 0.
Definition call_ptr (c : call) : option nat := match c_holder c with Tmp => Some (c_state c) | _ => None end.

Lemma tally_swap {A} (w : A -> nat) m k k' x x' : m !! k = Some x -> m !! k' = Some x' -> tally w (<[k := x']> (<[k' := x]> m)) = tally w m.
Proof.
  intros Hk Hk'. pose proof (tally_insert w (<[k' := x]> m) k x') as H1. pose proof (tally_insert w m k' x) as H2. rewrite Hk' in H2. cbn in H2.
  destruct (decide (k = k')) as [<-|Hne].
  - rewrite lookup_insert_eq in H1. cbn in H1. assert (x = x') as -> by congruence. lia.
  - rewrite lookup_insert_ne, Hk in H1 by done. cbn in H1. lia.
Qed.

Lemma tally_move {A} (w : A -> nat) m k k' x z : m !! k = Some x -> m !! k' = None -> w z = 0%nat -> tally w (<[k' := x]> (<[k := z]> m)) = tally w m.
Proof.
  intros Hk Hk' Hz. rewrite tally_fresh by (rewrite lookup_insert_ne; [done|congruence]). pose proof (tally_insert w m k z) as H. rewrite Hk, Hz in H. cbn in H. lia.
Qed.

Lemma points_self s : points s (Some s) = 1%nat.
Proof. unfold points. by rewrite decide_True. Qed.

Lemma points_none s : points s None = 0%nat.
Proof. done. Qed.

Lemma points_other s s' : s <> s' -> points s (Some s') = 0%nat.
Proof. intros. unfold points. rewrite decide_False; [done|congruence]. Qed.

(** The pointers to the state [s] that there are. *)
Definition pointers (s : nat) y : nat :=
  (tally (points s ∘ future_) (promises y) + tally (points s ∘ task_) (tasks y) + tally (points s) (futures y)
   + tally (points s) (shared_futures y) + tally (points s ∘ call_ptr) (f_conts y))%nat.

(** ** Invariant *)

Definition settled (x : shared_state R E) : option (R + exn E) := if ready_ x then get_ x else None.
Definition ever (s : nat) y : option (shared_state R E) := match states y !! s with Some x => Some x | None => deleted y !! s end.
Definition settled_at (s : nat) y : option (R + exn E) := ever s y ≫= settled.

(** A state that is ready has one result and no waiters. *)
Definition state_ok (x : shared_state R E) : Prop :=
  if ready_ x then waiters_ x = [] /\ is_Some (get_ x) /\ (value_ x = None \/ except_ x = None)
  else value_ x = None /\ except_ x = None.

(** The state [s] counts the pointers to it, and [o], a temporary one. *)
Definition counted (o : option nat) y (s : nat) : Prop :=
  match states y !! s with
  | Some x => use_count_ x = Z.of_nat (pointers s y + points s o) /\ 0 < use_count_ x < 2 ^ 64
  | None => (pointers s y + points s o)%nat = 0%nat
  end.

Definition held (c : call) y : Prop :=
  match c_holder c with
  | Tmp => c_reading c = In_get
  | By_future u => futures y !! u = Some (Some (c_state c))
  | By_shared h => shared_futures y !! h = Some (Some (c_state c))
  end.

Record store_ok (o : option nat) y : Prop := {
  fo_states s x : states y !! s = Some x -> state_ok x;
  fo_counts s : counted o y s;
  fo_conts f c : f_conts y !! f = Some c -> held c y;
  fo_waiters s x f : states y !! s = Some x -> f ∈ waiters_ x -> exists c, f_conts y !! f = Some c /\ c_state c = s
}.


(** What an outcome says about the results before and after the call. *)
Record explains (o : outcome R E) y y' : Prop := {
  ex_settled s : settled_at s y' = match o with Was_set s' r => if decide (s = s') then Some r else settled_at s y | _ => settled_at s y end;
  ex_set s r : o = Was_set s r -> settled_at s y = None;
  ex_got s r : o = Got s r -> settled_at s y = Some r;
  ex_exception s e : o = Got_exception s e -> exists r, settled_at s y = Some r /\ e = match r with inl _ => None | inr e => Some e end;
  ex_ready s : o = Ready s -> is_Some (settled_at s y)
}.

(** The call gives an outcome; [o] is left as a temporary pointer. *)
Definition gives (o : outcome R E -> option nat) y (r : option (outcome R E * store R E)) : Prop :=
  exists out y', r = Some (out, y') /\ store_ok (o out) y' /\ explains out y y'.
Abbreviation call_ok := (gives (fun _ => None)).

Definition quiet (o : outcome R E) : Prop := match o with Done | Timeout | Throws _ | Waits => True | _ => False end.

Lemma explains_same o y y' : (forall s, settled_at s y' = settled_at s y) -> quiet o -> explains o y y'.
Proof. intros Es Ho. split; [intros s; rewrite Es| | | |]; by destruct o. Qed.

Lemma explains_between o y0 y y' y1 : (forall s, settled_at s y0 = settled_at s y) -> (forall s, settled_at s y1 = settled_at s y') -> explains o y y' -> explains o y0 y1.
Proof. intros H0 H1 [X1 X2 X3 X4 X5]. split; intros s; rewrite ?H1, ?H0; eauto. Qed.

Lemma gives_same d y0 y r : (forall s, settled_at s y0 = settled_at s y) -> gives d y r -> gives d y0 r.
Proof. intros Es (o & y' & -> & Ok & Ex). exists o, y'. split_and!; [done|done|by eapply explains_between]. Qed.

Lemma done_ok d o y y' : store_ok (d o) y' -> (forall s, settled_at s y' = settled_at s y) -> quiet o -> gives d y (Some (o, y')).
Proof. intros Ok Es Ho. exists o, y'. split_and!; [done|done|by apply explains_same]. Qed.

Lemma settled_states y y' s : states y' = states y -> deleted y' = deleted y -> settled_at s y' = settled_at s y.
Proof. intros E1 E2. unfold settled_at, ever. by rewrite E1, E2. Qed.

Lemma new_store_ok : store_ok None new_store.
Proof. split; cbn; try done. Qed.

(** ** Live states *)

Lemma promise_points p x s y : promises y !! p = Some x -> future_ x = Some s -> (0 < pointers s y)%nat.
Proof. intros Hp Hx. unfold pointers. rewrite (tally_delete _ _ _ _ Hp). cbn. rewrite Hx, points_self. lia. Qed.

Lemma task_points t x s y : tasks y !! t = Some x -> task_ x = Some s -> (0 < pointers s y)%nat.
Proof. intros Ht Hx. unfold pointers. rewrite (tally_delete _ (tasks y) _ _ Ht). cbn. rewrite Hx, points_self. lia. Qed.

Lemma future_points u s y : futures y !! u = Some (Some s) -> (0 < pointers s y)%nat.
Proof. intros Hu. unfold pointers. rewrite (tally_delete (points s) _ _ _ Hu), points_self. lia. Qed.

Lemma shared_points h s y : shared_futures y !! h = Some (Some s) -> (0 < pointers s y)%nat.
Proof. intros Hh. unfold pointers. rewrite (tally_delete (points s) (shared_futures y) _ _ Hh), points_self. lia. Qed.

Lemma held_points o f c y : store_ok o y -> f_conts y !! f = Some c -> (0 < pointers (c_state c) y)%nat.
Proof.
  intros Ok Hc. pose proof (fo_conts _ _ Ok f c Hc) as Hh. unfold held in Hh. destruct (c_holder c) as [|u|h] eqn:Eo; [|by eapply future_points|by eapply shared_points].
  unfold pointers. rewrite (tally_delete _ (f_conts y) _ _ Hc). cbn. unfold call_ptr. rewrite Eo, points_self. lia.
Qed.

Lemma pointed_alive o s y : store_ok o y -> (0 < pointers s y + points s o)%nat -> exists x, states y !! s = Some x.
Proof. intros Ok Hp. pose proof (fo_counts _ _ Ok s) as Hc. unfold counted in Hc. destruct (states y !! s); [by eexists|lia]. Qed.

Lemma call_alive c y : store_ok (call_ptr c) y -> held c y -> exists x, states y !! c_state c = Some x.
Proof.
  intros Ok Hh. eapply pointed_alive; [done|]. unfold call_ptr, held in *. destruct (c_holder c) as [|u|h].
  - rewrite points_self. lia.
  - apply future_points in Hh. lia.
  - apply shared_points in Hh. lia.
Qed.


(** The state [s] is changed to [x']. *)
Lemma set_state_ok o s x x' y : store_ok o y -> states y !! s = Some x -> state_ok x' -> use_count_ x' = use_count_ x -> (forall f, f ∈ waiters_ x' -> f ∈ waiters_ x) -> store_ok o (set_state s x' y).
Proof.
  intros [H1 H2 H3 H4] Hs Hx Hc Hw. split; cbn.
  - intros s' z. rewrite lookup_insert_Some. intros [[<- <-]|[_ ?]]; [done|by eapply H1].
  - intros s'. unfold counted. cbn. pose proof (H2 s') as Hn. unfold counted in Hn. destruct (decide (s' = s)) as [->|Hne].
    + rewrite lookup_insert_eq. rewrite Hs in Hn. rewrite Hc. exact Hn.
    + rewrite lookup_insert_ne by done. exact Hn.
  - exact H3.
  - intros s' z f. rewrite lookup_insert_Some. intros [[<- <-]|[_ ?]] Hf; [eapply H4; [done|by apply Hw]|by eapply H4].
Qed.

Lemma settled_set s x y s' : settled_at s' (set_state s x y) = if decide (s' = s) then settled x else settled_at s' y.
Proof. unfold settled_at, ever. cbn. case_decide; [subst; by rewrite lookup_insert_eq|by rewrite lookup_insert_ne]. Qed.

Lemma settled_live s x y : states y !! s = Some x -> settled_at s y = settled x.
Proof. intros Hs. unfold settled_at, ever. by rewrite Hs. Qed.

Lemma settled_keep s x x' y s' : states y !! s = Some x -> settled x' = settled x -> settled_at s' (set_state s x' y) = settled_at s' y.
Proof. intros Hs Hx. rewrite settled_set. case_decide; [subst; by rewrite Hx, (settled_live s x)|done]. Qed.

(** ** Reference counts *)

Lemma add_ref_ok s y : store_ok None y -> (0 < pointers s y)%nat -> room s y ->
  exists y', intrusive_ptr_add_ref s y = Some y' /\ store_ok (Some s) y' /\ (forall s', settled_at s' y' = settled_at s' y) /\ exists x, y' = set_state s x y.
Proof.
  intros Ok Hp Hr. destruct (pointed_alive None s y Ok) as [x Hx]; [lia|]. unfold intrusive_ptr_add_ref. rewrite Hx. cbn [mbind option_bind]. unfold room in Hr. rewrite Hx in Hr.
  pose proof (fo_counts _ _ Ok s) as Hc. unfold counted in Hc. rewrite Hx in Hc. destruct Hc as [Hc Hb]. rewrite wrap_small by lia. eexists. split; [done|]. split_and!; [|intros s'; by eapply settled_keep|by eexists].
  destruct Ok as [H1 H2 H3 H4]. split; cbn.
  - intros s' z. rewrite lookup_insert_Some. intros [[<- <-]|[_ ?]]; [exact (H1 s x Hx)|by eapply H1].
  - intros s'. unfold counted. cbn. pose proof (H2 s') as Hn. unfold counted in Hn. change (pointers s' (set_state _ _ _)) with (pointers s' y). destruct (decide (s' = s)) as [->|Hne].
    + rewrite lookup_insert_eq, points_self. cbn. rewrite points_none in Hc. lia.
    + rewrite lookup_insert_ne, points_other by done. exact Hn.
  - exact H3.
  - intros s' z f. rewrite lookup_insert_Some. intros [[<- <-]|[_ ?]] Hf; [by eapply H4|by eapply H4].
Qed.

Lemma release_ok s y : store_ok (Some s) y -> exists y', intrusive_ptr_release s y = Some y' /\ store_ok None y' /\ forall s', settled_at s' y' = settled_at s' y.
Proof.
  intros Ok. destruct (pointed_alive (Some s) s y Ok) as [x Hx]; [rewrite points_self; lia|]. unfold intrusive_ptr_release. rewrite Hx. cbn [mbind option_bind].
  pose proof (fo_counts _ _ Ok s) as Hc. unfold counted in Hc. rewrite Hx, points_self in Hc. destruct Hc as [Hc Hb]. cbn [use_count_ with_count]. rewrite wrap_small by lia.
  destruct (Z.eqb_spec (use_count_ x - 1) 0) as [H0|H0].
  - unfold deallocate_future. cbn [waiters_ with_count]. destruct (waiters_ x) as [|f ws] eqn:Ew.
    + eexists. split; [done|]. split.
      * destruct Ok as [H1 H2 H3 H4]. split; cbn.
        -- intros s' z [_ ?]%lookup_delete_Some. by eapply H1.
        -- intros s'. unfold counted. cbn. change (pointers s' (mk_store _ _ _ _ _ _ _)) with (pointers s' y). destruct (decide (s' = s)) as [->|Hne].
           ++ rewrite lookup_delete_eq, points_none. lia.
           ++ rewrite lookup_delete_ne by done. pose proof (H2 s') as Hn. unfold counted in Hn. by rewrite points_other in Hn.
        -- exact H3.
        -- intros s' z f [_ ?]%lookup_delete_Some Hf. by eapply H4.
      * intros s'. unfold settled_at, ever. cbn. destruct (decide (s' = s)) as [->|Hne]; [by rewrite lookup_delete_eq, lookup_insert_eq, Hx|by rewrite lookup_delete_ne, lookup_insert_ne].
    + exfalso. destruct (fo_waiters _ _ Ok s x f Hx) as (c & Hf & <-); [rewrite Ew; by left|]. pose proof (held_points _ f c y Ok Hf). lia.
  - eexists. split; [done|]. split; [|intros s'; by eapply settled_keep]. destruct Ok as [H1 H2 H3 H4]. split; cbn.
    + intros s' z. rewrite lookup_insert_Some. intros [[<- <-]|[_ ?]]; [exact (H1 s x Hx)|by eapply H1].
    + intros s'. unfold counted. cbn. pose proof (H2 s') as Hn. unfold counted in Hn. change (pointers s' (set_state _ _ _)) with (pointers s' y). destruct (decide (s' = s)) as [->|Hne].
      * rewrite lookup_insert_eq, points_none. cbn. lia.
      * rewrite lookup_insert_ne by done. by rewrite points_other in Hn.
    + exact H3.
    + intros s' z f. rewrite lookup_insert_Some. intros [[<- <-]|[_ ?]] Hf; [by eapply H4|by eapply H4].
Qed.

Lemma create_ok s y : store_ok None y -> states y !! s = None -> deleted y !! s = None ->
  exists y', intrusive_ptr_add_ref s (set_state s new_state y) = Some y' /\ store_ok (Some s) y' /\ (forall s', settled_at s' y' = settled_at s' y) /\ promises y' = promises y /\ tasks y' = tasks y.
Proof.
  intros Ok Hs Hd. unfold intrusive_ptr_add_ref. cbn [states set_state set_states]. rewrite lookup_insert_eq. cbn [mbind option_bind]. eexists. split; [done|].
  change (w64 (use_count_ new_state + 1)) with 1. split_and!; [|intros s'; unfold settled_at, ever; cbn|done|done].
  - destruct Ok as [H1 H2 H3 H4]. split; cbn.
    + intros s' z. rewrite insert_insert_eq, lookup_insert_Some. intros [[<- <-]|[_ ?]]; [done|by eapply H1].
    + intros s'. unfold counted. cbn. rewrite insert_insert_eq. pose proof (H2 s') as Hn. unfold counted in Hn. change (pointers s' (set_state _ _ _)) with (pointers s' y). destruct (decide (s' = s)) as [->|Hne].
      * rewrite lookup_insert_eq, points_self. cbn. rewrite Hs, points_none in Hn. lia.
      * rewrite lookup_insert_ne, points_other by done. exact Hn.
    + exact H3.
    + intros s' z f. rewrite insert_insert_eq, lookup_insert_Some. intros [[<- <-]|[_ ?]] Hf; [by apply elem_of_nil in Hf|by eapply H4].
  - rewrite insert_insert_eq. destruct (decide (s' = s)) as [->|Hne]; [by rewrite lookup_insert_eq, Hs, Hd|by rewrite lookup_insert_ne].
Qed.

(** ** Results *)

Lemma set_result_ok o s r y : store_ok o y -> is_Some (states y !! s) -> gives (fun _ => o) y (set_result s r y).
Proof.
  intros Ok [x Hx]. unfold set_result. rewrite Hx. cbn [mbind option_bind]. pose proof (fo_states _ _ Ok s x Hx) as Hs. unfold state_ok in Hs.
  destruct (ready_ x) eqn:Er.
  - replace (match r with inl v => set_value_ v x | inr e => set_exception_ e x end) with (@None (shared_state R E)) by (destruct r; unfold set_value_, set_exception_; by rewrite Er).
    by apply done_ok.
  - destruct Hs as [Hv He]. assert (settled_at s y = None) as Hn by (rewrite (settled_live s x y Hx); unfold settled; by rewrite Er).
    assert (exists x', match r with inl v => set_value_ v x | inr e => set_exception_ e x end = Some x' /\ ready_ x' = true /\ get_ x' = Some r /\ waiters_ x' = [] /\
      use_count_ x' = use_count_ x /\ (value_ x' = None \/ except_ x' = None)) as (x' & -> & Hr & Hg & Hw & Hu & Hve).
    { destruct r; unfold set_value_, set_exception_; rewrite Er; eexists; (split; [done|]); unfold get_; cbn; rewrite ?He; eauto 6. }
    exists (Was_set s r), (set_state s x' y). split_and!; [done| |].
    + eapply set_state_ok; [done|done| |done|rewrite Hw; by intros f ?%elem_of_nil]. unfold state_ok. rewrite Hr, Hg. eauto.
    + split; try done; [|by intros ? ? [= -> ->]]. intros s'. rewrite settled_set. case_decide; [|done]. unfold settled. by rewrite Hr.
Qed.

Lemma owner_destroyed_ok o s y : store_ok o y -> is_Some (states y !! s) -> gives (fun _ => o) y (owner_destroyed s y).
Proof.
  intros Ok [x Hx]. unfold owner_destroyed. rewrite Hx. cbn [mbind option_bind]. pose proof (fo_states _ _ Ok s x Hx) as Hs. unfold owner_destroyed_.
  destruct (ready_ x) eqn:Er; [apply done_ok; [by eapply set_state_ok|intros; by eapply settled_keep|done]|].
  unfold state_ok in Hs. rewrite Er in Hs. destruct Hs as [Hv He]. unfold set_exception_. rewrite Er. cbn [default from_option id].
  assert (settled_at s y = None) as Hn by (rewrite (settled_live s x y Hx); unfold settled; by rewrite Er).
  do 2 eexists. split; [done|]. split.
  - eapply set_state_ok; [done|done| |done|by intros f ?%elem_of_nil]. unfold state_ok, get_. cbn. eauto.
  - split; try done; [|by intros ? ? [= <- <-]]. intros s'. rewrite settled_set. by case_decide.
Qed.

(** The owner of a state and its pointer are destroyed. *)
Lemma abandon_ok x y : store_ok x y -> call_ok y (abandon x y).
Proof.
  intros Ok. destruct x as [s|]; [|by apply done_ok]. cbn [abandon]. destruct (pointed_alive (Some s) s y Ok) as [x Hx]; [rewrite points_self; lia|].
  destruct (owner_destroyed_ok (Some s) s y Ok) as (out & y1 & -> & Ok1 & Ex); [by eexists|]. cbn [mbind option_bind].
  destruct (release_ok s y1 Ok1) as (y2 & -> & Ok2 & Es). do 2 eexists. split; [done|]. split; [done|]. by eapply explains_between.
Qed.

(** ** Reading *)

(** What a call still has to give up: [tmp] when it has returned. *)
Definition left_by (c : call) (out : outcome R E) : option nat := match out with Waits => None | _ => call_ptr c end.

Lemma wait_ok f c x y : store_ok (call_ptr c) y -> held c y -> f_conts y !! f = None -> states y !! c_state c = Some x -> ready_ x = false ->
  store_ok None (set_f_conts (<[f := c]> (f_conts y)) (set_state (c_state c) (mk_shared_state (use_count_ x) (ready_ x) (value_ x) (except_ x) (waiters_ x ++ [f])) y)).
Proof.
  intros Ok Hh Hf Hx Er. destruct Ok as [H1 H2 H3 H4]. split; cbn.
  - intros s' z. rewrite lookup_insert_Some. intros [[<- <-]|[_ ?]]; [|by eapply H1]. pose proof (H1 _ x Hx) as Hs. unfold state_ok in *. cbn. by rewrite Er in *.
  - intros s'. pose proof (H2 s') as Hn. unfold counted in *. cbn. unfold pointers in *. cbn. rewrite tally_fresh by done. cbn [compose]. rewrite points_none.
    destruct (decide (s' = c_state c)) as [->|Hne]; [rewrite lookup_insert_eq; rewrite Hx in Hn; cbn|rewrite lookup_insert_ne by done; destruct (states y !! s')]; lia.
  - intros g c'. rewrite lookup_insert_Some. intros [[<- <-]|[_ ?]]; [exact Hh|by eapply H3].
  - assert (forall s z, states y !! s = Some z -> (f ∉ waiters_ z)) as Hn by (intros s z Hz Hin; destruct (H4 s z f Hz Hin) as (? & ? & _); congruence).
    assert (forall s z g, states y !! s = Some z -> g ∈ waiters_ z -> exists c', <[f := c]> (f_conts y) !! g = Some c' /\ c_state c' = s) as Hk.
    { intros s z g Hz Hg. destruct (H4 s z g Hz Hg) as (c' & Hc' & Es). exists c'. rewrite lookup_insert_ne; [done|]. intros ->. by apply (Hn s z Hz). }
    intros s' z g. rewrite lookup_insert_Some. intros [[<- <-]|[Hne Hz]] Hg; cbn in Hg; [|by eapply Hk].
    apply elem_of_app in Hg as [Hg|Hg]; [by eapply Hk|]. apply list_elem_of_singleton in Hg as ->. exists c. by rewrite lookup_insert_eq.
Qed.

Lemma read_state_ok f c y : store_ok (call_ptr c) y -> held c y -> f_conts y !! f = None -> gives (left_by c) y (read_state f (c_state c) (c_reading c) (c_holder c) y).
Proof.
  intros Ok Hh Hf. destruct (call_alive c y Ok Hh) as [x Hx]. unfold read_state. rewrite Hx. cbn [mbind option_bind]. pose proof (fo_states _ _ Ok _ x Hx) as Hs. unfold state_ok in Hs.
  set (s := c_state c) in *. destruct (ready_ x) eqn:Er.
  - destruct Hs as (_ & [r Hr] & _). assert (settled_at s y = Some r) as Hset by (rewrite (settled_live s x y Hx); unfold settled; by rewrite Er).
    destruct (c_reading c); rewrite ?Hr; cbn [mbind option_bind]; do 2 eexists; (split; [done|]); (split; [done|]); split; try done.
    + by intros ? ? [= <- <-].
    + intros s' e [= <- <-]. exists r. split; [done|]. unfold get_ in Hr. destruct (except_ x); [by injection Hr as <-|]. destruct (value_ x); [by injection Hr as <-|done].
    + intros s' [= <-]. by rewrite Hset.
    + intros s' [= <-]. by rewrite Hset.
  - assert (f ∉ waiters_ x) as Hnx by (intros Hin; destruct (fo_waiters _ _ Ok s x f Hx Hin) as (? & ? & _); congruence).
    rewrite bool_decide_false by tauto. do 2 eexists. split; [done|]. split.
    + rewrite <- Er. destruct c as [s' k o]. by apply (wait_ok f (mk_call s' k o) x y).
    + apply explains_same; [|done]. intros s'. transitivity (settled_at s' (set_state s (mk_shared_state (use_count_ x) (ready_ x) (value_ x) (except_ x) (waiters_ x ++ [f])) y)); [by rewrite <- Er|].
      by eapply settled_keep.
Qed.

Lemma leave_ok c y r : gives (left_by c) y r -> call_ok y (leave (c_state c) (c_holder c) r).
Proof.
  intros (out & y' & -> & Ok & Ex). cbn. assert (out = Waits \/ store_ok (call_ptr c) y' /\ out <> Waits) as [->|[Ok' Hw]].
  { destruct out; try (by right); by left. }
  { by exists Waits, y'. }
  unfold call_ptr in Ok'. destruct (c_holder c).
  - destruct (release_ok _ y' Ok') as (y2 & Er & Ok2 & Es). exists out, y2. split; [destruct out; try done; by rewrite Er|]. split; [done|]. by eapply explains_between.
  - exists out, y'. by destruct out.
  - exists out, y'. by destruct out.
Qed.

(** The fiber [f] is not suspended any more and is in no queue. *)
Lemma forget_ok f c y : store_ok None y -> f_conts y !! f = Some c -> (forall s x, states y !! s = Some x -> (f ∉ waiters_ x)) -> store_ok (call_ptr c) (set_f_conts (delete f (f_conts y)) y).
Proof.
  intros [H1 H2 H3 H4] Hc Hn. split; cbn; [done| | |].
  - intros s. pose proof (H2 s) as Hs. unfold counted in *. cbn. unfold pointers in *. cbn. rewrite (tally_delete _ (f_conts y) _ _ Hc) in Hs. cbn [compose] in Hs. rewrite points_none in Hs.
    destruct (states y !! s); lia.
  - intros g c' [_ ?]%lookup_delete_Some. by apply (H3 g c').
  - intros s x g Hx Hg. destruct (H4 s x g Hx Hg) as (c' & Hc' & Es). exists c'. rewrite lookup_delete_ne; [done|]. intros ->. by apply (Hn s x Hx).
Qed.

Lemma future_late_ok f c x y : store_ok None y -> f_conts y !! f = Some c -> states y !! c_state c = Some x -> c_reading c = In_wait_until ->
  let x' := mk_shared_state (use_count_ x) (ready_ x) (value_ x) (except_ x) (filter (fun g => g <> f) (waiters_ x)) in
  gives (left_by c) y (Some (if ready_ x then Ready (c_state c) else Timeout, set_state (c_state c) x' (set_f_conts (delete f (f_conts y)) y))).
Proof.
  intros Ok Hc Hx Ew x'. pose proof (fo_states _ _ Ok _ x Hx) as Hs. do 2 eexists. split; [done|]. split.
  - assert (store_ok None (set_state (c_state c) x' y)) as Ok1.
    { eapply set_state_ok; [done|done| |done|by intros g [_ ?]%list_elem_of_filter]. unfold state_ok in *. cbn. destruct (ready_ x); [|done]. destruct Hs as (-> & ? & ?). done. }
    assert (store_ok (call_ptr c) (set_state (c_state c) x' (set_f_conts (delete f (f_conts y)) y))) as Ok2.
    { apply (forget_ok f c (set_state (c_state c) x' y)); [done|done|]. cbn. intros s' z. rewrite lookup_insert_Some.
      intros [[<- <-]|[Hne Hz]]; [by intros [? _]%list_elem_of_filter|]. intros Hin. destruct (fo_waiters _ _ Ok s' z f Hz Hin) as (c' & Hc' & Es). congruence. }
    by destruct (ready_ x).
  - unfold state_ok in Hs. assert (forall s', settled_at s' (set_state (c_state c) x' (set_f_conts (delete f (f_conts y)) y)) = settled_at s' y) as Hset.
    { intros s'. transitivity (settled_at s' (set_state (c_state c) x' y)); [done|]. by eapply settled_keep. }
    destruct (ready_ x) eqn:Er; [|by apply explains_same]. split; try done. intros s' [= <-]. rewrite (settled_live _ x y Hx). unfold settled. rewrite Er. apply Hs.
Qed.

Lemma future_resume_ok f late y : store_ok None y -> enabled (Fe_resume f late) y -> call_ok y (resume f late y).
Proof.
  intros Ok En. cbn [enabled] in En. destruct (f_conts y !! f) as [c|] eqn:Hc; [rename En into Hw|done]. unfold resume. rewrite Hc. cbn [mbind option_bind].
  destruct (pointed_alive None (c_state c) y Ok) as [x Hx]; [pose proof (held_points _ f c y Ok Hc); lia|]. apply leave_ok. cbn [states set_f_conts set_state]. rewrite Hx. cbn [mbind option_bind].
  destruct (late && bool_decide (c_reading c = In_wait_until)) eqn:El; [apply andb_true_iff in El as [_ Ek%bool_decide_eq_true]; exact (future_late_ok f c x y Ok Hc Hx Ek)|].
  assert (f ∉ waiters_ x) as Hf.
  { destruct Hw as [Hw|[-> Hk]]; [by rewrite Hx in Hw|]. by rewrite bool_decide_true in El. }
  apply (gives_same _ y (set_f_conts (delete f (f_conts y)) y)); [done|]. apply read_state_ok.
  - apply forget_ok; [done|done|]. intros s' x' Hx' Hin. destruct (fo_waiters _ _ Ok s' x' f Hx' Hin) as (c' & Hc' & Es). assert (c' = c) as -> by congruence.
    rewrite <- Es, Hx in Hx'. by injection Hx' as ->.
  - pose proof (fo_conts _ _ Ok f c Hc) as Hh. exact Hh.
  - apply lookup_delete_eq.
Qed.

(** ** Objects *)

Lemma uses f c o y : f_conts y !! f = Some c -> c_holder c = o -> in_use o y.
Proof. intros Hc Ho. by exists f, c. Qed.

Lemma promises_ok o o' m y : store_ok o y -> (forall s, tally (points s ∘ future_) m + points s o' = tally (points s ∘ future_) (promises y) + points s o)%nat -> store_ok o' (set_promises m y).
Proof.
  intros [H1 H2 H3 H4] Hm. split; [done| |done|done]. intros s. specialize (H2 s). specialize (Hm s). unfold counted, pointers in *. cbn. destruct (states y !! s); lia.
Qed.

Lemma tasks_ok o o' m y : store_ok o y -> (forall s, tally (points s ∘ task_) m + points s o' = tally (points s ∘ task_) (tasks y) + points s o)%nat -> store_ok o' (set_tasks m y).
Proof.
  intros [H1 H2 H3 H4] Hm. split; [done| |done|done]. intros s. specialize (H2 s). specialize (Hm s). unfold counted, pointers in *. cbn. destruct (states y !! s); lia.
Qed.

Lemma futures_ok o o' m y : store_ok o y -> (forall s, tally (points s) m + points s o' = tally (points s) (futures y) + points s o)%nat ->
  (forall u x, in_use (By_future u) y -> futures y !! u = Some x -> m !! u = Some x) -> store_ok o' (set_futures m y).
Proof.
  intros [H1 H2 H3 H4] Hm Hu. split; [done| | |done].
  - intros s. specialize (H2 s). specialize (Hm s). unfold counted, pointers in *. cbn. destruct (states y !! s); lia.
  - intros f c Hc. specialize (H3 f c Hc). unfold held in *. destruct (c_holder c) eqn:Eo; [done| |done]. apply Hu; [by eapply uses|done].
Qed.

Lemma shared_ok o o' m y : store_ok o y -> (forall s, tally (points s) m + points s o' = tally (points s) (shared_futures y) + points s o)%nat ->
  (forall h x, in_use (By_shared h) y -> shared_futures y !! h = Some x -> m !! h = Some x) -> store_ok o' (set_shared m y).
Proof.
  intros [H1 H2 H3 H4] Hm Hu. split; [done| | |done].
  - intros s. specialize (H2 s). specialize (Hm s). unfold counted, pointers in *. cbn. destruct (states y !! s); lia.
  - intros f c Hc. specialize (H3 f c Hc). unfold held in *. destruct (c_holder c) eqn:Eo; [done|done|]. apply Hu; [by eapply uses|done].
Qed.

(** An object that no call uses is replaced, or one is added. *)
Lemma kept_insert {A} (m : gmap nat A) k z (used : nat -> Prop) : (m !! k = None \/ ~ used k) -> forall u x, used u -> m !! u = Some x -> <[k := z]> m !! u = Some x.
Proof. intros Hk u x Hu Hx. rewrite lookup_insert_ne; [done|]. intros ->. destruct Hk; [congruence|done]. Qed.

Lemma kept_delete {A} (m : gmap nat A) k (used : nat -> Prop) : ~ used k -> forall u x, used u -> m !! u = Some x -> delete k m !! u = Some x.
Proof. intros Hk u x Hu Hx. rewrite lookup_delete_ne; [done|]. by intros ->. Qed.

Lemma kept_insert2 {A} (m : gmap nat A) k k' z z' (used : nat -> Prop) : (m !! k = None \/ ~ used k) -> ~ used k' -> forall u x, used u -> m !! u = Some x -> <[k := z]> (<[k' := z']> m) !! u = Some x.
Proof.
  intros Hk Hk' u x Hu Hx. rewrite lookup_insert_ne; [|intros ->; destruct Hk; [congruence|done]]. rewrite lookup_insert_ne; [done|]. by intros ->.
Qed.

(** One object of a map replaced, in the equations of the lemmas above. *)
Ltac recount m k Hk :=
  match goal with
  | |- context [tally ?w (<[k := ?x]> m)] => generalize (tally_insert w m k x)
  | |- context [tally ?w (delete k m)] => generalize (tally_delete w m k _ Hk)
  end; rewrite ?Hk; cbn [from_option id compose future_ task_]; rewrite ?points_none; lia.

Lemma new_future_ok u s y : store_ok (Some s) y -> futures y !! u = None -> store_ok None (set_futures (<[u := Some s]> (futures y)) y).
Proof. intros Ok Hu. eapply futures_ok; [done|intros s'; recount (futures y) u Hu|apply kept_insert; by left]. Qed.

Lemma promise_call_ok p u y : store_ok None y -> enabled (Fe_promise_get_future p u) y -> call_ok y (promise_get_future p u y).
Proof.
  intros Ok (Hp & Hu & Hr). destruct Hp as [x Hx]. unfold promise_get_future. rewrite Hx in *. cbn [mbind option_bind]. destruct (obtained_ x); [by apply done_ok|].
  destruct (future_ x) as [s|] eqn:Ef; [|by apply done_ok]. cbn in Hr. rewrite Ef in Hr.
  assert (store_ok None (set_promises (<[p := mk_promise true (Some s)]> (promises y)) y)) as Ok1 by (eapply promises_ok; [done|]; intros s'; rewrite <- Ef; recount (promises y) p Hx).
  destruct (add_ref_ok s _ Ok1) as (y2 & -> & Ok2 & Es & x' & ->); [by apply (promise_points p (mk_promise true (Some s))); [apply lookup_insert_eq|]|done|].
  cbn [mbind option_bind]. apply done_ok; [by apply new_future_ok|done|done].
Qed.

Lemma task_call_ok t u y : store_ok None y -> enabled (Fe_task_get_future t u) y -> call_ok y (task_get_future t u y).
Proof.
  intros Ok (Hp & Hu & Hr). destruct Hp as [x Hx]. unfold task_get_future. rewrite Hx in *. cbn [mbind option_bind]. destruct (task_obtained x); [by apply done_ok|].
  destruct (task_ x) as [s|] eqn:Ef; [|by apply done_ok]. cbn in Hr. rewrite Ef in Hr.
  assert (store_ok None (set_tasks (<[t := mk_packaged_task true (Some s)]> (tasks y)) y)) as Ok1 by (eapply tasks_ok; [done|]; intros s'; rewrite <- Ef; recount (tasks y) t Hx).
  destruct (add_ref_ok s _ Ok1) as (y2 & -> & Ok2 & Es & x' & ->); [by apply (task_points t (mk_packaged_task true (Some s))); [apply lookup_insert_eq|]|done|].
  cbn [mbind option_bind]. apply done_ok; [by apply new_future_ok|done|done].
Qed.

Lemma drop_ptr_ok x y0 y : store_ok x y -> (forall s, settled_at s y = settled_at s y0) -> call_ok y0 (y' ← drop_ptr x y; Some (Done, y')).
Proof.
  intros Ok Es. destruct x as [s|]; cbn [drop_ptr]; [|by apply done_ok]. destruct (release_ok s y Ok) as (y' & -> & Ok' & Es'). cbn [mbind option_bind].
  apply done_ok; [done|intros s'; by rewrite Es'|done].
Qed.

Lemma promise_step_ok e y : store_ok None y -> enabled e y -> match e with Fe_make_promise _ _ | Fe_promise_set _ _ | Fe_promise_swap _ _ | Fe_promise_move _ _ | Fe_destroy_promise _ => call_ok y (step e y) | _ => True end.
Proof.
  intros Ok En. destruct e; try done; cbn [enabled step] in *.
  - destruct En as (Hp & Hs & Hd). unfold make_promise. destruct (create_ok s y Ok Hs Hd) as (y1 & -> & Ok1 & Es & Ep & _). cbn [mbind option_bind]. rewrite <- Ep in Hp.
    apply done_ok; [|done|done]. eapply promises_ok; [done|]. intros s'. recount (promises y1) p Hp.
  - destruct En as [x Hx]. unfold promise_set. rewrite Hx. cbn [mbind option_bind]. destruct (future_ x) as [s|] eqn:Ef; [|by apply done_ok].
    apply set_result_ok; [done|]. eapply pointed_alive; [done|]. pose proof (promise_points p x s y Hx Ef). lia.
  - destruct En as [[x Hx] [x' Hx']]. unfold promise_swap. rewrite Hx, Hx'. cbn [mbind option_bind]. apply done_ok; [|done|done].
    eapply promises_ok; [done|]. intros s. by rewrite (tally_swap _ _ _ _ x x').
  - destruct En as [[x Hx] Hn]. unfold promise_move. rewrite Hx. cbn [mbind option_bind]. apply done_ok; [|done|done]. eapply promises_ok; [done|]. intros s. by rewrite (tally_move _ _ _ _ x).
  - destruct En as [x Hx]. unfold destroy_promise. rewrite Hx. cbn [mbind option_bind]. eapply gives_same; [|apply abandon_ok]; [done|].
    eapply promises_ok; [done|]. intros s. recount (promises y) p Hx.
Qed.

Lemma task_step_ok e y : store_ok None y -> enabled e y -> match e with Fe_make_task _ _ | Fe_task_run _ _ | Fe_task_move _ _ | Fe_destroy_task _ => call_ok y (step e y) | _ => True end.
Proof.
  intros Ok En. destruct e; try done; cbn [enabled step] in *.
  - destruct En as (Hp & Hs & Hd). unfold make_task. destruct (create_ok s y Ok Hs Hd) as (y1 & -> & Ok1 & Es & _ & Et). cbn [mbind option_bind]. rewrite <- Et in Hp.
    apply done_ok; [|done|done]. eapply tasks_ok; [done|]. intros s'. recount (tasks y1) t Hp.
  - destruct En as [x Hx]. unfold task_run. rewrite Hx. cbn [mbind option_bind]. destruct (task_ x) as [s|] eqn:Ef; [|by apply done_ok].
    apply set_result_ok; [done|]. eapply pointed_alive; [done|]. pose proof (task_points t x s y Hx Ef). lia.
  - destruct En as [[x Hx] Hn]. unfold task_move. rewrite Hx. cbn [mbind option_bind]. apply done_ok; [|done|done]. eapply tasks_ok; [done|]. intros s. by rewrite (tally_move _ _ _ _ x).
  - destruct En as [x Hx]. unfold destroy_task. rewrite Hx. cbn [mbind option_bind]. eapply gives_same; [|apply abandon_ok]; [done|].
    eapply tasks_ok; [done|]. intros s. recount (tasks y) t Hx.
Qed.

Lemma future_move_ok e y : store_ok None y -> enabled e y -> match e with Fe_get _ _ | Fe_read _ _ _ | Fe_future_swap _ _ | Fe_future_move _ _ | Fe_destroy_future _ | Fe_share _ _ => call_ok y (step e y) | _ => True end.
Proof.
  intros Ok En. destruct e; try done; cbn [enabled step] in *.
  - destruct En as ([x Hx] & Hf & Hu). unfold future_get. rewrite Hx. cbn [mbind option_bind]. destruct x as [s|]; [|by apply done_ok].
    eapply gives_same; [|apply (leave_ok (mk_call s In_get Tmp)), read_state_ok]; [done| |done|done]. eapply futures_ok; [done|intros s'|apply kept_insert; by right].
    change (call_ptr _) with (Some s). recount (futures y) u Hx.
  - destruct En as ([x Hx] & Hf & _). unfold future_read. rewrite Hx. cbn [mbind option_bind]. destruct x as [s|]; [|by apply done_ok].
    assert (forall r, gives (left_by (mk_call s k (By_future u))) y r -> call_ok y r) as H by (intros r (out & y' & -> & Ok' & Ex); exists out, y'; by destruct out).
    by apply H, (read_state_ok f (mk_call s k (By_future u))).
  - destruct En as ([x Hx] & [x' Hx'] & Hu & Hu'). unfold future_swap. rewrite Hx, Hx'. cbn [mbind option_bind]. apply done_ok; [|done|done].
    eapply futures_ok; [done|intros s; by rewrite (tally_swap _ _ _ _ x x')|]. apply kept_insert2; [by right|done].
  - destruct En as ([x Hx] & Hn & Hu). unfold future_move. rewrite Hx. cbn [mbind option_bind]. apply done_ok; [|done|done].
    eapply futures_ok; [done|intros s; by rewrite (tally_move _ _ _ _ x)|]. apply kept_insert2; [by left|done].
  - destruct En as ([x Hx] & Hu). unfold destroy_future. rewrite Hx. cbn [mbind option_bind]. apply drop_ptr_ok; [|done].
    eapply futures_ok; [done|intros s; recount (futures y) u Hx|by apply kept_delete].
  - destruct En as ([x Hx] & Hn & Hu). unfold share. rewrite Hx. cbn [mbind option_bind]. destruct x as [s|]; [|by apply done_ok]. apply done_ok; [|done|done].
    apply (shared_ok (Some s) None); [|intros s'; cbn [shared_futures set_futures]; recount (shared_futures y) h Hn|apply kept_insert; by left].
    eapply futures_ok; [done|intros s'; recount (futures y) u Hx|apply kept_insert; by right].
Qed.

Lemma shared_step_ok e y : store_ok None y -> enabled e y -> match e with Fe_shared_copy _ _ | Fe_shared_swap _ _ | Fe_destroy_shared _ | Fe_shared_read _ _ _ => call_ok y (step e y) | _ => True end.
Proof.
  intros Ok En. destruct e; try done; cbn [enabled step] in *.
  - destruct En as ([x Hx] & Hn & Hr). rewrite Hx in Hr. unfold shared_copy. rewrite Hx. cbn [mbind option_bind]. destruct x as [s|]; cbn [copy_ptr].
    + destruct (add_ref_ok s y Ok) as (y2 & -> & Ok2 & Es & x' & ->); [by eapply shared_points|done|]. cbn [mbind option_bind]. apply done_ok; [|done|done].
      eapply shared_ok; [done|intros s'; cbn [shared_futures set_state set_states]; recount (shared_futures y) h' Hn|apply kept_insert; by left].
    + cbn [mbind option_bind]. apply done_ok; [|done|done]. eapply shared_ok; [done|intros s'; recount (shared_futures y) h' Hn|apply kept_insert; by left].
  - destruct En as ([x Hx] & [x' Hx'] & Hu & Hu'). unfold shared_swap. rewrite Hx, Hx'. cbn [mbind option_bind]. apply done_ok; [|done|done].
    eapply shared_ok; [done|intros s; by rewrite (tally_swap _ _ _ _ x x')|]. apply kept_insert2; [by right|done].
  - destruct En as ([x Hx] & Hu). unfold destroy_shared. rewrite Hx. cbn [mbind option_bind]. apply drop_ptr_ok; [|done].
    eapply shared_ok; [done|intros s; recount (shared_futures y) h Hx|by apply kept_delete].
  - destruct En as [[x Hx] Hf]. unfold shared_read. rewrite Hx. cbn [mbind option_bind]. destruct x as [s|]; [|by apply done_ok].
    assert (forall r, gives (left_by (mk_call s k (By_shared h))) y r -> call_ok y r) as H by (intros r (out & y' & -> & Ok' & Ex); exists out, y'; by destruct out).
    by apply H, (read_state_ok f (mk_call s k (By_shared h))).
Qed.

Lemma future_step_ok e y : store_ok None y -> enabled e y -> is_reset e = false -> call_ok y (step e y).
Proof.
  intros Ok En Hr. pose proof (promise_step_ok e y Ok En). pose proof (task_step_ok e y Ok En). pose proof (future_move_ok e y Ok En). pose proof (shared_step_ok e y Ok En).
  destruct e; try done; [by apply promise_call_ok|by apply task_call_ok|by apply future_resume_ok].
Qed.

(** ** Every run *)

Record run_ok (os : list (outcome R E)) y : Prop := {
  ro_store : store_ok None y;
  ro_set s r : Was_set s r ∈ os <-> settled_at s y = Some r;
  ro_once i j s r r' : os !! i = Some (Was_set s r) -> os !! j = Some (Was_set s r') -> i = j;
  ro_got i s r : os !! i = Some (Got s r) -> exists j, (j < i)%nat /\ os !! j = Some (Was_set s r)
}.

Lemma lookup_snoc (os : list (outcome R E)) o i x : (os ++ [o]) !! i = Some x <-> os !! i = Some x \/ (i = length os /\ x = o).
Proof.
  rewrite lookup_app_Some, list_lookup_singleton_Some. split; [|intros [?|[-> ->]]; [by left|right; split_and!; [lia|lia|done]]].
  intros [?|(? & ? & <-)]; [by left|right; split; [lia|done]].
Qed.

Lemma future_runs_ok os y : runs os y -> run_ok os y.
Proof.
  intros H. induction H as [|os y e o y' H [Ok Rs Ro Rg] En Hr Es].
  - split; [apply new_store_ok|split; [by intros ?%elem_of_nil|done]|done|done].
  - destruct (future_step_ok e y Ok En Hr) as (o' & y1 & E1 & Ok' & [X1 X2 X3 X4 X5]). rewrite Es in E1. injection E1 as <- <-. split; [done| | |].
    + intros s r. rewrite elem_of_app, list_elem_of_singleton, Rs, X1. clear -X2. destruct o as [|s' r'|s' e'|s' r'|s'| |e'|]; try (split; [intros [?|?]; [done|discriminate]|by left]).
      destruct (decide (s = s')) as [->|Hne]; [|split; [intros [?|[= ? _]]; done|by left]]. rewrite (X2 _ _ eq_refl). split; [intros [?|[= ->]]; done|intros [= ->]; by right].
    + assert (forall k s r r', os !! k = Some (Was_set s r) -> o <> Was_set s r') as Hn.
      { intros k s r r' Hk%list_elem_of_lookup_2 ->. rewrite Rs, (X2 _ _ eq_refl) in Hk. done. }
      intros i j s r r' [Hi|[-> Hi]]%lookup_snoc [Hj|[-> Hj]]%lookup_snoc; [by eapply Ro|by destruct (Hn i s r r' Hi)|by destruct (Hn j s r' r Hj)|done].
    + intros i s r [Hi|[-> Hi]]%lookup_snoc.
      * destruct (Rg i s r Hi) as (j & Hj & Ej). exists j. split; [done|]. apply lookup_snoc. by left.
      * assert (Was_set s r ∈ os) as [j Hj]%list_elem_of_lookup_1 by (apply Rs, X3; by symmetry). exists j. pose proof (lookup_lt_Some _ _ _ Hj). split; [done|]. apply lookup_snoc. by left.
Qed.

(** A call on a state that has its result is resumed. *)
Lemma notified_resume f c s r y : store_ok None y -> f_conts y !! f = Some c -> c_state c = s -> settled_at s y = Some r -> enabled (Fe_resume f false) y /\
  exists y', resume f false y = Some (match c_reading c with
    | In_get => Got s r
    | In_get_exception_ptr => Got_exception s (match r with inl _ => None | inr e => Some e end)
    | In_wait | In_wait_until => Ready s end, y').
Proof.
  intros Ok Hc <- Hset. destruct (pointed_alive None (c_state c) y Ok) as [x Hx]; [pose proof (held_points _ f c y Ok Hc); lia|].
  rewrite (settled_live _ x y Hx) in Hset. pose proof (fo_states _ _ Ok _ x Hx) as Hs. unfold state_ok in Hs. unfold settled in Hset. destruct (ready_ x) eqn:Er; [|done]. destruct Hs as (Hw & _ & Hve).
  assert (enabled (Fe_resume f false) y) as En by (cbn [enabled]; rewrite Hc; left; rewrite Hx; cbn; rewrite Hw; apply not_elem_of_nil). split; [done|].
  destruct (future_resume_ok f false y Ok En) as (out & y' & Eq & _). exists y'. rewrite Eq. unfold resume in Eq. rewrite Hc in Eq. cbn [mbind option_bind andb states set_f_conts] in Eq.
  rewrite Hx in Eq. cbn [mbind option_bind] in Eq. unfold read_state in Eq. cbn [states set_f_conts] in Eq. rewrite Hx in Eq. cbn [mbind option_bind] in Eq. rewrite Er in Eq.
  assert (except_ x = match r with inl _ => None | inr e => Some e end) as Ee.
  { unfold get_ in Hset. destruct (except_ x); [by injection Hset as <-|]. destruct (value_ x); [by injection Hset as <-|done]. }
  rewrite Hset, Ee in Eq. f_equal. f_equal. unfold leave in Eq. destruct (c_reading c), (c_holder c); cbn [mbind option_bind] in Eq; try (by injection Eq as <- _);
    (destruct (intrusive_ptr_release _ _); [by injection Eq as <- _|done]).
Qed.

(** C26: A future delivers the one result of its promise.  In every run in which
    no task is reset, whatever the order of the calls on promises, tasks and
    futures: each shared state is given a result at most once (a value, an
    exception, or the broken promise of an owner that was destroyed), and every
    [get] that returns, through whichever future, returns the result its state was
    given before. *)
Theorem future_delivers os y : runs os y ->
  (forall i j s r r', os !! i = Some (Was_set s r) -> os !! j = Some (Was_set s r') -> i = j) /\
  (forall i s r, os !! i = Some (Got s r) -> exists j, (j < i)%nat /\ os !! j = Some (Was_set s r)).
Proof. intros H. destruct (future_runs_ok os y H) as [_ _ Ro Rg]. done. Qed.

(** C27: Nobody who waits for a result is forgotten, and no pointer dangles.  In
    the same runs, when a state has been given a result, every fiber that is
    suspended in a call on it has been notified, and when it is resumed its call
    returns: [get] with the result.  No call that may come next, a destructor
    among them, uses a state that was deleted, deletes a state somebody waits for,
    reads an empty value or fails an assertion; and a state is deleted exactly
    when no object and no call points to it any more: those there are have at
    least one pointer to them, as many as their count says. *)
Theorem waiting_readers_return os y : runs os y ->
  (forall s r f c, Was_set s r ∈ os -> f_conts y !! f = Some c -> c_state c = s -> enabled (Fe_resume f false) y /\
    exists y', resume f false y = Some (match c_reading c with
      | In_get => Got s r
      | In_get_exception_ptr => Got_exception s (match r with inl _ => None | inr e => Some e end)
      | In_wait | In_wait_until => Ready s end, y')) /\
  (forall e, enabled e y -> is_reset e = false -> is_Some (step e y)) /\
  (forall s, match states y !! s with Some x => use_count_ x = Z.of_nat (pointers s y) /\ (0 < pointers s y)%nat | None => pointers s y = 0%nat end).
Proof.
  intros H. destruct (future_runs_ok os y H) as [Ok Rs _ _]. split_and!.
  - intros s r f c Hset Hc Es. apply Rs in Hset. by apply (notified_resume f c s r y).
  - intros e En Hr. by destruct (future_step_ok e y Ok En Hr) as (o & y' & -> & _).
  - intros s. pose proof (fo_counts _ _ Ok s) as Hc. unfold counted in Hc. rewrite points_none in Hc. destruct (states y !! s); lia.
Qed.
End spec.

(** ** Examples *)

Lemma run_calls_runs {R E} (es : list (event R E)) os y : Forall (fun e => is_reset e = false) es -> run_calls es new_store = Some (os, y) -> runs os y.
Proof.
  assert (forall os1 y1, runs os1 y1 -> forall (es : list (event R E)) os y, Forall (fun e => is_reset e = false) es -> run_calls es y1 = Some (os, y) -> runs (os1 ++ os) y) as H.
  { intros os1 y1 H1 es2. revert os1 y1 H1. induction es2 as [|e es2 IH]; intros os1 y1 H1 os2 y2 Hr Eq; cbn [run_calls] in Eq.
    - injection Eq as <- <-. by rewrite app_nil_r.
    - apply Forall_cons in Hr as [He Hr]. case_decide as En; [|done]. destruct (step e y1) as [[o y3]|] eqn:Es; [|done]. cbn [mbind option_bind] in Eq.
      destruct (run_calls es2 y3) as [[os3 y4]|] eqn:Er; [|done]. cbn [mbind option_bind] in Eq. injection Eq as <- <-.
      rewrite (cons_middle o os1 os3), (assoc_L (++)). eapply IH; [|done|done]. by econstructor. }
  intros Hr Eq. by apply (H [] new_store runs_nil es os y).
Qed.

(** A reader waits, the promise is kept, another reader finds it kept. *)
Definition sample_calls : list (event Z Z) :=
  [Fe_make_promise 1 10; Fe_promise_get_future 1 2; Fe_share 2 3; Fe_shared_read 4 3 In_get; Fe_promise_set 1 (inl 7); Fe_shared_read 5 3 In_get].

Lemma future_delivers_witness : exists os y j, run_calls sample_calls new_store = Some (os, y) /\ os !! 5%nat = Some (Got 10 (inl 7)) /\
  (j < 5)%nat /\ os !! j = Some (Was_set 10 (inl 7)).
Proof.
  assert (fst <$> run_calls sample_calls new_store = Some [Done; Done; Done; Waits; Was_set 10 (inl 7); Got 10 (inl 7)]) as Eq by (vm_compute; reflexivity).
  destruct (run_calls sample_calls new_store) as [[os y]|] eqn:Er; [|discriminate Eq]. cbn [fmap option_fmap option_map fst] in Eq. injection Eq as ->.
  destruct (proj2 (future_delivers _ y (run_calls_runs sample_calls _ _ ltac:(by repeat constructor) Er)) 5%nat 10%nat (inl 7) eq_refl) as (j & Hj & Ej).
  by exists [Done; Done; Done; Waits; Was_set 10 (inl 7); Got 10 (inl 7)], y, j.
Defined.

(** A fiber waits in [get]; its future is destroyed, the promise is kept and
    destroyed too: only [tmp] still points to the state. *)
Definition sample_orphan : list (event Z Z) :=
  [Fe_make_promise 1 10; Fe_promise_get_future 1 2; Fe_get 4 2; Fe_destroy_future 2; Fe_promise_set 1 (inl 7); Fe_destroy_promise 1].

Lemma waiting_readers_return_witness : exists os y y', run_calls sample_orphan new_store = Some (os, y) /\ pointers 10 y = 1%nat /\
  use_count_ <$> states y !! 10%nat = Some 1 /\ resume 4 false y = Some (Got 10 (inl 7), y').
Proof.
  assert ((fun x => (x.1, f_conts x.2 !! 4%nat, use_count_ <$> states x.2 !! 10%nat)) <$> run_calls sample_orphan new_store
    = Some ([Done; Done; Waits; Done; Was_set 10 (inl 7); Done], Some (mk_call 10 In_get Tmp), Some 1)) as Eq by (vm_compute; reflexivity).
  destruct (run_calls sample_orphan new_store) as [[os y]|] eqn:Er; [|discriminate Eq]. cbn [fmap option_fmap option_map fst snd] in Eq. injection Eq as -> Ec Es.
  destruct (waiting_readers_return _ y (run_calls_runs sample_orphan _ _ ltac:(by repeat constructor) Er)) as (Hr & _ & Hp).
  destruct (Hr 10%nat (inl 7) 4%nat (mk_call 10 In_get Tmp)) as (_ & y' & R); [do 4 right; by left|exact Ec|reflexivity|].
  specialize (Hp 10%nat). destruct (states y !! 10%nat) as [x|] eqn:Ex; [|discriminate Es]. cbn in Es. injection Es as Es.
  exists [Done; Done; Waits; Done; Was_set 10 (inl 7); Done], y, y'. split_and!; [reflexivity|lia|cbn; rewrite Ex; cbn; by rewrite Es|exact R].
Defined.

(** The resumed call releases the last pointer: the state is deleted. *)
Example orphan_deleted :
  (fun x => (states x.2 !! 10%nat, last x.1)) <$> run_calls (sample_orphan ++ [Fe_resume 4 false]) new_store = Some (None, Some (Got 10 (inl 7))).
Proof. vm_compute. reflexivity. Qed.

(** [packaged_task::reset] keeps the exception of the run before: after a run
    that throws, a reset and a run that returns 7, [get] throws the old exception
    once more. *)
Example reset_keeps_exception :
  fst <$> run_calls [Fe_make_task 1 10; Fe_task_run 1 (inr (user 5)); Fe_task_reset 1; Fe_task_get_future 1 2; Fe_task_run 1 (inl 7); Fe_get 3 2] (new_store (R := Z) (E := Z))
  = Some [Done; Was_set 10 (inr (user 5)); Done; Done; Was_set 10 (inl 7); Got 10 (inr (user 5))].
Proof. vm_compute. reflexivity. Qed.

(** And it does not make a new state: the future of the run before is not ready
    any more, and waits for the next run. *)
Example reset_unsettles_future :
  fst <$> run_calls [Fe_make_task 1 10; Fe_task_get_future 1 2; Fe_task_run 1 (inl 7); Fe_task_reset 1; Fe_get 3 2] (new_store (R := Z) (E := Z))
  = Some [Done; Done; Was_set 10 (inl 7); Done; Waits].
Proof. vm_compute. reflexivity. Qed.
