(* ===== verification/FiberTimedMutex.v ===== *)
(** * [timed_mutex]: waiting for a mutex with a deadline

    [timed_mutex] of [core/boost-fiber/timed_mutex.cpp].  Its [lock], [try_lock]
    and [unlock] are those of [mutex], so that the state of [FiberSync] serves
    for it too; [try_lock_until] is added.  A fiber whose deadline has passed
    gives up, also when [unlock] has just chosen it to be woken, and wakes nobody
    in its place. *)

From stdpp Require Import gmap options.
From S2P Require Import Prelude FiberManager FiberSync.

(** [tm_until]: the fibers that are suspended in [try_lock_until], with the mutex
    and the deadline. *)
Record timed := mk_timed { tm_sync : sync; tm_until : gmap nat (nat * Z) }.

Definition new_timed : timed := mk_timed new_sync ∅.

(** One round of the loop in the active fiber [f] at the time [now]: the result,
    [None] where it is suspended. *)
Definition try_lock_until (f m : nat) (now timeout_time : Z) (t : timed) : option (option bool * timed) :=
  let y := tm_sync t in
  if timeout_time <? now then Some (Some false, t)
  else
    '(taken, y) ← lock_if_unlocked_ f m y;
    if taken : bool then Some (Some true, mk_timed y (tm_until t))
    else
      let x := get_mutex m y in
      if bool_decide (f ∈ m_waiting x) then None
      else
        let y := set_mutex m (mk_mutex (locked x) (owner_ x) (m_waiting x ++ [f])) y in
        s ← fm_wait_until timeout_time (y_manager y);
        Some (None, mk_timed (set_manager s y) (<[f := (m, timeout_time)]> (tm_until t))).

(** The fiber goes on behind [fm_wait_until], which says whether the deadline is
    still to come. *)
Definition until_resumed (f m : nat) (now timeout_time : Z) (t : timed) : option (option bool * timed) :=
  if now <? timeout_time then try_lock_until f m now timeout_time t
  else
    let y := tm_sync t in
    let x := get_mutex m y in
    Some (Some false, mk_timed (set_mutex m (mk_mutex (locked x) (owner_ x) (filter (fun g => g <> f) (m_waiting x))) y) (tm_until t)).

(** [fm_run] in the main fiber: the fiber that is resumed, with the result of its
    [try_lock_until] if that returns. *)
Definition run_timed (now : Z) (t : timed) : option (option nat * option bool * timed) :=
  '(o, s) ← fm_run now (y_manager (tm_sync t));
  let y := set_manager s (tm_sync t) in
  match o with
  | None => Some (None, None, mk_timed y (tm_until t))
  | Some f =>
      match tm_until t !! f with
      | Some (m, timeout_time) =>
          '(r, t) ← until_resumed f m now timeout_time (mk_timed y (delete f (tm_until t)));
          Some (Some f, r, t)
      | None => y ← goes_on f y; Some (Some f, None, mk_timed y (tm_until t))
      end
  end.

(** The operations of [FiberSync] on the same state. *)
Definition on_sync (e : sync_event) (t : timed) : option timed := y ← sync_step e (tm_sync t); Some (mk_timed y (tm_until t)).

(** ** A mutex that is free while a fiber waits for it

    Fiber 1 has the mutex, fiber 2 waits for it until 10 and fiber 3 without a
    deadline.  Fiber 1 unlocks shortly before 10, which wakes fiber 2; it is
    resumed after 10 and gives up. *)

Definition missed_wakeup : option timed :=
  t ← foldl (fun t e => t ← t; on_sync e t) (Some new_timed)
        [Sy_sched (Ev_spawn 1); Sy_sched (Ev_spawn 2); Sy_sched (Ev_spawn 3); Sy_sched (Ev_run 0); Sy_lock 0; Sy_sched Ev_yield; Sy_sched (Ev_run 1)];
  '(_, t) ← try_lock_until 2 0 1 10 t;
  t ← on_sync (Sy_sched (Ev_run 2)) t;
  t ← on_sync (Sy_lock 0) t;
  '(_, _, t) ← run_timed 3 t;
  t ← on_sync (Sy_unlock 0) t;
  t ← on_sync (Sy_sched Ev_return) t;
  '(f, r, t) ← run_timed 11 t;
  if bool_decide (f = Some 2%nat /\ r = Some false) then on_sync (Sy_sched Ev_return) t else None.

(** When the run queue is empty and the first fiber of the waiting queue waits
    without a deadline, nobody is resumed. *)
Lemma run_nobody f w now s : head_ s = Some f -> rhead_ s = None -> heap s !! f = Some w -> state_ w = WAITING -> interruption_requested w = false ->
  tp_ w = tp_max -> now < tp_max -> fm_run now s = Some (None, s).
Proof.
  intros Hh Hr Hf Hs Hq Ht Hnow. unfold fm_run, move_to. rewrite Hh. cbn [move_to_loop]. unfold fetch_ready, get. rewrite Hf. cbn [mbind option_bind].
  unfold is_running, is_terminated, is_ready. rewrite Hs, Hq, Ht. rewrite !bool_decide_false by done. unfold assert. cbn [negb mbind option_bind].
  destruct (tp_max <=? now) eqn:E; [to_prop; lia|]. cbn [orb mbind option_bind]. rewrite Hf. cbn [mbind option_bind]. rewrite Hs. rewrite !bool_decide_false by done.
  cbn [mbind option_bind]. unfold pick_next. by rewrite Hr.
Qed.

(** Only fiber 3 is left: it waits in the queue of a mutex that nobody holds,
    with no deadline, and no call of [fm_run] resumes it. *)
Example timed_lock_loses_wakeup : exists t, missed_wakeup = Some t /\
  locked (get_mutex 0 (tm_sync t)) = false /\ m_waiting (get_mutex 0 (tm_sync t)) = [3%nat] /\ active_fiber_ (y_manager (tm_sync t)) = None /\
  forall now, now < tp_max -> fm_run now (y_manager (tm_sync t)) = Some (None, y_manager (tm_sync t)).
Proof.
  assert ((fun t => let s := y_manager (tm_sync t) in (locked (get_mutex 0 (tm_sync t)), m_waiting (get_mutex 0 (tm_sync t)), active_fiber_ s, head_ s, rhead_ s,
      (fun w => (state_ w, interruption_requested w, tp_ w)) <$> heap s !! 3%nat)) <$> missed_wakeup
    = Some (false, [3%nat], None, Some 3%nat, None, Some (WAITING, false, tp_max))) as E by (vm_compute; reflexivity).
  destruct missed_wakeup as [t|]; [|discriminate E]. cbn [fmap option_fmap option_map] in E. injection E as El Em Ea Eh Er Ew. exists t. split_and!; try done.
  intros now Hnow. destruct (heap (y_manager (tm_sync t)) !! 3%nat) as [w|] eqn:Hw; [|discriminate Ew]. cbn [fmap option_fmap option_map] in Ew. injection Ew as E1 E2 E3.
  by apply (run_nobody 3%nat w).
Qed.
