(* ===== verification/FibpServerMain.v ===== *)
(** * [main]: the threads of the process, from its start to its end

    [main] starts the signal thread, initializes the process, whose last act is
    to add the exit hook, and runs the driver and the HTTP server, each in a
    thread of its own, until both have returned.  A signal to quit makes the
    signal thread run the hook, which stops the servers, and stops and joins the
    helper threads: those of the RPC server, of the ports that are forwarded, of
    the directory and of the client managers.  The model interleaves the threads
    at their accesses to what they share: the flag [normal_stop_], the
    [io_service]s, the tables of helpers, and the ends of threads that are joined.

    An [io_service] runs until it is stopped, since there is always work for it,
    and a run of one that is stopped returns at once.  The RPC server is the
    library's: its threads return when [end] has been called. *)

From stdpp Require Import gmap options.
From S2P Require Import Prelude.

Inductive signal := SIGINT | SIGHUP | SIGTERM | SIGQUIT | SIGPIPE.

#[export] Instance signal_eq_dec : EqDecision signal.
Proof. solve_decision. Defined.

Definition quits (s : signal) : bool := bool_decide (s <> SIGPIPE).

Inductive which := Driver | Http.

#[export] Instance which_eq_dec : EqDecision which.
Proof. solve_decision. Defined.

(** Where a server's thread is: in [run] before [normal_stop_] is set, before
    [init], at the head of the loop, in [parent_type::run] with the threads of
    the [io_service]s that have returned, before the test of [normal_stop_], in
    [reset] before the service [i], or at its end. *)
Inductive server_pc :=
| S_none | S_run | S_init | S_loop
| S_running (returned : list bool)
| S_check
| S_reset (i : nat)
| S_returned.

(** [stopped]: of the [io_service]s of the pool, the main one last. *)
Record server := mk_server { s_pc : server_pc; normal_stop_ : bool; stopped : list bool }.

Definition set_pc pc v := mk_server pc (normal_stop_ v) (stopped v).
Definition set_stopped i x v := mk_server (s_pc v) (normal_stop_ v) (<[i := x]> (stopped v)).

(** A helper thread and the threads it starts: of [FibpRpcServer::instance], of
    [FibpServiceMgr], of a port server, of a [FibpClientMgr]. *)
Inductive kind := H_rpc | H_watch | H_port | H_client.

#[export] Instance kind_eq_dec : EqDecision kind.
Proof. solve_decision. Defined.

(** [h_listed]: not yet taken by who stops it; [h_left]: the loops of its
    [io_service]s that have returned; [h_done]: the thread has returned. *)
Record helper := mk_helper {
  h_kind : kind;
  h_listed : bool;
  h_stopped : list bool;
  h_left : list bool;
  h_done : bool
}.

(** What the hook does, access by access; [A_take k] looks up the helpers of the
    kind [k] and goes on to stop and join each of them. *)
Inductive action :=
| A_normal_stop (k : which) | A_stop (k : which) (i : nat)
| A_take (k : kind) | A_hstop (h i : nat) | A_hjoin (h : nat).

Inductive main_pc :=
| M_initialize | M_create_driver | M_create_http | M_rpc_start
| M_join_driver | M_join_http | M_join_signal
| M_exited (code : Z)
| M_aborted.

Inductive signal_pc := G_wait | G_hooks (todo : list action) | G_returned.

(** [w_join]: the port server whose end the watching thread waits for in
    [stopPortForward]; [cleared]: [client_mgr_list_] has been cleared. *)
Record forward := mk_forward { helpers : list helper; w_join : option nat; cleared : bool }.

Record process := mk_process {
  m_pc : main_pc;
  g_pc : signal_pc;
  pending : list signal;
  hooks : nat;
  driver : server;
  http : server;
  fw : forward
}.

Definition get_server (k : which) (p : process) : server := match k with Driver => driver p | Http => http p end.
Definition set_main m p := mk_process m (g_pc p) (pending p) (hooks p) (driver p) (http p) (fw p).
Definition set_signal g p := mk_process (m_pc p) g (pending p) (hooks p) (driver p) (http p) (fw p).
Definition set_pending l p := mk_process (m_pc p) (g_pc p) l (hooks p) (driver p) (http p) (fw p).
Definition add_hook p := mk_process (m_pc p) (g_pc p) (pending p) (S (hooks p)) (driver p) (http p) (fw p).
Definition set_server (k : which) (v : server) (p : process) : process :=
  match k with
  | Driver => mk_process (m_pc p) (g_pc p) (pending p) (hooks p) v (http p) (fw p)
  | Http => mk_process (m_pc p) (g_pc p) (pending p) (hooks p) (driver p) v (fw p)
  end.

Definition set_fw f p := mk_process (m_pc p) (g_pc p) (pending p) (hooks p) (driver p) (http p) f.
Definition set_helpers l p := set_fw (mk_forward l (w_join (fw p)) (cleared (fw p))) p.

(** The [io_service]s of a pool for [pool_size] threads. *)
Definition services (pool_size : nat) : nat := if (pool_size <=? 1)%nat then 1 else S pool_size.

Definition new_server (pool_size : nat) : server := mk_server S_none false (replicate (services pool_size) false).

(** After [setupDefaultSignalHandlers]. *)
Definition start (pool_size : nat) : process :=
  mk_process M_initialize G_wait [] 0 (new_server pool_size) (new_server pool_size) (mk_forward [] None false).

(** ** The server's thread *)

(** [run] up to its next access; [ok]: [init] does not throw.  The [bool] says
    whether an exception leaves the thread. *)
Definition server_step (ok : bool) (v : server) : option (bool * server) :=
  match s_pc v with
  | S_run => Some (false, mk_server S_init false (stopped v))
  | S_init => Some (negb ok, set_pc S_loop v)
  | S_loop => Some (false, set_pc (S_running (replicate (length (stopped v)) false)) v)
  | S_running returned => if forallb id returned then Some (false, set_pc S_check v) else None
  | S_check => Some (false, if normal_stop_ v then set_pc S_returned v else set_pc (S_reset 0) v)
  | S_reset i =>
      if (i <? length (stopped v))%nat then Some (false, set_pc (S_reset (S i)) (set_stopped i false v))
      else Some (false, set_pc S_loop v)
  | S_none | S_returned => None
  end.

(** The thread of the service [i] returns. *)
Definition runner_step (i : nat) (v : server) : option server :=
  match s_pc v with
  | S_running returned =>
      match stopped v !! i, returned !! i with
      | Some true, Some false => Some (set_pc (S_running (<[i := true]> returned)) v)
      | _, _ => None
      end
  | _ => None
  end.

(** [parent_type::run] cannot create its threads and throws, which is caught. *)
Definition throws_step (v : server) : option server :=
  match s_pc v with S_loop => Some (set_pc (S_reset 0) v) | _ => None end.

(** ** The helper threads *)

(** A port server is made for four threads; the others have one [io_service]. *)
Definition width (k : kind) : nat := match k with H_port => services 4 | _ => 1 end.

Definition new_helper (k : kind) : helper := mk_helper k true (replicate (width k) false) (replicate (width k) false) false.

Definition spawn (k : kind) (p : process) : process := set_helpers (helpers (fw p) ++ [new_helper k]) p.
Definition set_helper (h : nat) (x : helper) (p : process) : process := set_helpers (<[h := x]> (helpers (fw p))) p.

Definition unlisted (x : helper) : helper := mk_helper (h_kind x) false (h_stopped x) (h_left x) (h_done x).
Definition stop_one (i : nat) (x : helper) : helper := mk_helper (h_kind x) (h_listed x) (<[i := true]> (h_stopped x)) (h_left x) (h_done x).
Definition stop_all (x : helper) : helper := mk_helper (h_kind x) (h_listed x) (replicate (length (h_stopped x)) true) (h_left x) (h_done x).

(** While it joins a port server the watching thread runs nothing else. *)
Definition blocked (x : helper) (p : process) : bool := bool_decide (h_kind x = H_watch) && bool_decide (w_join (fw p) <> None).

(** [run_service] of the [io_service] [i] of [h] returns. *)
Definition leave (h i : nat) (p : process) : option process :=
  x ← helpers (fw p) !! h;
  if blocked x p then None
  else match h_stopped x !! i, h_left x !! i with
       | Some true, Some false => Some (set_helper h (mk_helper (h_kind x) (h_listed x) (h_stopped x) (<[i := true]> (h_left x)) (h_done x)) p)
       | _, _ => None
       end.

(** The thread itself returns, once its loops have. *)
Definition finish (h : nat) (p : process) : option process :=
  x ← helpers (fw p) !! h;
  if forallb id (h_left x) && negb (h_done x) then Some (set_helper h (mk_helper (h_kind x) (h_listed x) (h_stopped x) (h_left x) true) p) else None.

(** The watching thread is in its loop. *)
Definition watching (p : process) : bool :=
  existsb (fun x => bool_decide (h_kind x = H_watch) && negb (forallb id (h_left x)) && negb (blocked x p)) (helpers (fw p)).

(** [startPortForward] by the watching thread. *)
Definition begin_port (p : process) : option process := if watching p then Some (spawn H_port p) else None.

(** [stopPortForward]: the server is taken out of the table and stopped, and the
    watching thread waits for it; and goes on when it has returned. *)
Definition end_port (h : nat) (p : process) : option process :=
  x ← helpers (fw p) !! h;
  if watching p && bool_decide (h_kind x = H_port) && h_listed x then
    Some (set_fw (mk_forward (<[h := stop_all (unlisted x)]> (helpers (fw p))) (Some h) (cleared (fw p))) p)
  else None.
Definition port_joined (p : process) : option process :=
  h ← w_join (fw p);
  x ← helpers (fw p) !! h;
  if h_done x then Some (set_fw (mk_forward (helpers (fw p)) None (cleared (fw p))) p) else None.

(** [getThreadObj] makes a client manager for the calling thread; [late]: in the
    cleared list, where it divides by the size 0. *)
Definition thread_client_mgr (late : bool) (p : process) : option process :=
  if bool_decide (hooks p = O) || negb (Bool.eqb late (cleared (fw p))) then None
  else Some (if late then set_main M_aborted p else spawn H_client p).

(** ** The signal thread *)

Definition stop_server (k : which) (n : nat) : list action := A_normal_stop k :: map (A_stop k) (seq 0 n).

(** [stopConnectionServer]: [FibpRpcServer::stop], then [FibpForwardManager::stop]
    with [stopAll] of the ports, [FibpServiceMgr::stop] and the destructors of the
    client managers; the other calls of the latter neither wait nor share. *)
Definition stopConnectionServer (p : process) : list action :=
  stop_server Driver (length (stopped (driver p))) ++ stop_server Http (length (stopped (http p))) ++
  [A_take H_rpc; A_take H_port; A_take H_watch; A_take H_client].

Definition stop_helper (h : nat) (x : helper) : list action := map (A_hstop h) (seq 0 (length (h_stopped x))) ++ [A_hjoin h].

(** The helpers of the kind [k] among [l], the first of which is [h]. *)
Fixpoint take_from (k : kind) (h : nat) (l : list helper) : list action * list helper :=
  match l with
  | [] => ([], [])
  | x :: l =>
      let '(todo, l) := take_from k (S h) l in
      if h_listed x && bool_decide (h_kind x = k) then (stop_helper h x ++ todo, unlisted x :: l) else (todo, x :: l)
  end.

(** [None]: the thread waits.  The [action]s that are left come first. *)
Definition run_action (a : action) (p : process) : option (list action * process) :=
  match a with
  | A_normal_stop k => let v := get_server k p in Some ([], set_server k (mk_server (s_pc v) true (stopped v)) p)
  | A_stop k i => Some ([], set_server k (set_stopped i true (get_server k p)) p)
  | A_take k =>
      let '(todo, l) := take_from k 0 (helpers (fw p)) in
      Some (todo, set_fw (mk_forward l (w_join (fw p)) (cleared (fw p) || bool_decide (k = H_client))) p)
  | A_hstop h i => x ← helpers (fw p) !! h; Some ([], set_helper h (stop_one i x) p)
  | A_hjoin h => x ← helpers (fw p) !! h; if h_done x then Some ([], p) else None
  end.

(** [sigwait] returns [s]. *)
Definition sig_thread (s : signal) (p : process) : option process :=
  match g_pc p with
  | G_wait =>
      if bool_decide (s ∈ pending p) then
        let p := set_pending (filter (fun x => x <> s) (pending p)) p in
        Some (if quits s then set_signal (G_hooks (concat (replicate (hooks p) (stopConnectionServer p)))) p else p)
      else None
  | _ => None
  end.

(** [ok]: the hook does not throw here; otherwise [_exit(1)]. *)
Definition hook_step (ok : bool) (p : process) : option process :=
  match g_pc p with
  | G_hooks [] => Some (set_signal G_returned p)
  | G_hooks (a :: todo) =>
      if ok then '(more, p) ← run_action a p; Some (set_signal (G_hooks (more ++ todo)) p) else Some (set_main (M_exited 1) p)
  | _ => None
  end.

(** ** The main thread *)

Definition is_returned (v : server) : bool := match s_pc v with S_returned => true | _ => false end.

(** [FibpProcess::run]; [ok]: [rpcServer_->start()] does not throw. *)
Definition process_run (ok : bool) (p : process) : option process :=
  match m_pc p with
  | M_create_driver => Some (set_main M_create_http (set_server Driver (set_pc S_run (driver p)) p))
  | M_create_http => Some (set_main M_rpc_start (set_server Http (set_pc S_run (http p)) p))
  | M_rpc_start => Some (if ok then set_main M_join_driver (spawn H_rpc p) else set_main (M_exited 1) p)
  | M_join_driver => if is_returned (driver p) then Some (set_main M_join_http p) else None
  | M_join_http => if is_returned (http p) then Some (set_main M_join_signal p) else None
  | M_join_signal => match g_pc p with G_returned => Some (set_main (M_exited 0) p) | _ => None end
  | M_initialize | M_exited _ | M_aborted => None
  end.

(** [initialize] has created the [FibpServiceMgr], and that its thread, if there
    are addresses of the coordination service. *)
Definition start_watching (p : process) : option process :=
  match m_pc p with
  | M_initialize => if existsb (fun x => bool_decide (h_kind x = H_watch)) (helpers (fw p)) then None else Some (spawn H_watch p)
  | _ => None
  end.

(** [main]; [ok]: [initialize] returns [true], which adds the hook. *)
Definition main_step (ok : bool) (p : process) : option process :=
  match m_pc p with
  | M_initialize => Some (if ok then set_main M_create_driver (add_hook p) else set_main (M_exited 1) p)
  | _ => process_run ok p
  end.

(** ** Runs *)

Inductive event :=
| Ev_signal (s : signal)            (* is sent to the process *)
| Ev_main (ok : bool)
| Ev_server (k : which) (ok : bool)
| Ev_runner (k : which) (i : nat)
| Ev_throws (k : which)
| Ev_sigwait (s : signal)
| Ev_hook (ok : bool)
| Ev_watch
| Ev_begin_port
| Ev_end_port (h : nat)
| Ev_port_joined
| Ev_client_mgr (late : bool)
| Ev_leave (h i : nat)
| Ev_finish (h : nat).

Definition over (p : process) : bool := match m_pc p with M_exited _ | M_aborted => true | _ => false end.

(** A signal that is pending already is not counted again. *)
Definition step (e : event) (p : process) : option process :=
  if over p then None
  else
    match e with
    | Ev_signal s => Some (if bool_decide (s ∈ pending p) then p else set_pending (pending p ++ [s]) p)
    | Ev_main ok => main_step ok p
    | Ev_server k ok =>
        '(escapes, v) ← server_step ok (get_server k p);
        Some (if escapes : bool then set_main M_aborted p else set_server k v p)
    | Ev_runner k i => v ← runner_step i (get_server k p); Some (set_server k v p)
    | Ev_throws k => v ← throws_step (get_server k p); Some (set_server k v p)
    | Ev_sigwait s => sig_thread s p
    | Ev_hook ok => hook_step ok p
    | Ev_watch => start_watching p
    | Ev_begin_port => begin_port p
    | Ev_end_port h => end_port h p
    | Ev_port_joined => port_joined p
    | Ev_client_mgr late => thread_client_mgr late p
    | Ev_leave h i => leave h i p
    | Ev_finish h => finish h p
    end.

Fixpoint run_events (es : list event) (p : process) : option process :=
  match es with [] => Some p | e :: es => p ← step e p; run_events es p end.

(** Nothing throws, and no client manager is asked for when they are gone. *)
Definition calm (e : event) : bool :=
  match e with Ev_main ok | Ev_server _ ok | Ev_hook ok => ok | Ev_throws _ => false | Ev_client_mgr late => negb late | _ => true end.

Definition is_signal (e : event) : bool := match e with Ev_signal _ => true | _ => false end.

(** What makes a new thread while the process serves. *)
Definition is_spawn (e : event) : bool := match e with Ev_watch | Ev_begin_port | Ev_client_mgr _ => true | _ => false end.
