(* ===== verification/FibpServerHelpers.v ===== *)
(** * The helper threads of the process

    Whoever joins a helper thread has stopped its [io_service]s before: an
    invariant of every run, by which a join always comes to an end.  And a measure
    of the steps the helpers still make, and of those the hook makes for them. *)

From stdpp Require Import gmap options.
From S2P Require Import Prelude FibpServerMain.

(** ** How the table of helpers changes *)

Definition all_stopped (x : helper) : Prop := forall i, (i < length (h_stopped x))%nat -> h_stopped x !! i = Some true.

(** [x] may become [x']. *)
Record later (x x' : helper) : Prop := {
  la_kind : h_kind x' = h_kind x;
  la_length : length (h_stopped x') = length (h_stopped x);
  la_left : length (h_left x') = length (h_left x);
  la_stopped i : h_stopped x !! i = Some true -> h_stopped x' !! i = Some true
}.

Definition grows (l l' : list helper) : Prop := forall h x, l !! h = Some x -> exists x', l' !! h = Some x' /\ later x x'.

Lemma later_refl x : later x x.
Proof. done. Qed.

Lemma grows_refl l : grows l l.
Proof. intros h x Hx. by exists x. Qed.

Lemma grows_insert l h x x' : l !! h = Some x -> later x x' -> grows l (<[h := x']> l).
Proof.
  intros Hx Hl g y Hy. destruct (decide (g = h)) as [->|Hne].
  - exists x'. rewrite list_lookup_insert_eq by (by eapply lookup_lt_Some). assert (y = x) as -> by congruence. done.
  - exists y. by rewrite list_lookup_insert_ne.
Qed.

Lemma grows_app l l' : grows l (l ++ l').
Proof. intros h x Hx. exists x. split; [by apply lookup_app_l_Some|done]. Qed.

Lemma later_stop_one i x : later x (stop_one i x).
Proof.
  split; cbn; try done; [by rewrite length_insert|]. intros j Hj. destruct (decide (j = i)) as [->|Hne]; [|by rewrite list_lookup_insert_ne].
  apply list_lookup_insert_eq. by eapply lookup_lt_Some.
Qed.

Lemma all_stopped_stop_all x : all_stopped (stop_all x).
Proof. intros i. cbn. rewrite length_replicate. intros Hi. by apply lookup_replicate. Qed.

Lemma later_stop_all x : later x (stop_all (unlisted x)).
Proof.
  split; cbn; try done; [by rewrite length_replicate|]. intros i Hi. apply lookup_replicate. split; [done|by eapply lookup_lt_Some].
Qed.

Lemma later_left x l d : length l = length (h_left x) -> later x (mk_helper (h_kind x) (h_listed x) (h_stopped x) l d).
Proof. by split. Qed.

(** ** Every join comes behind the stops *)

Fixpoint join_ok (l : list helper) (seen : list (nat * nat)) (todo : list action) : Prop :=
  match todo with
  | [] => True
  | A_hstop h i :: todo => is_Some (l !! h) /\ join_ok l ((h, i) :: seen) todo
  | A_hjoin h :: todo =>
      (exists x, l !! h = Some x /\ forall i, (i < length (h_stopped x))%nat -> h_stopped x !! i = Some true \/ (h, i) ∈ seen) /\ join_ok l seen todo
  | _ :: todo => join_ok l seen todo
  end.

Lemma join_ok_grows l l' seen seen' todo : grows l l' ->
  (forall h i x, (h, i) ∈ seen -> l' !! h = Some x -> (i < length (h_stopped x))%nat -> h_stopped x !! i = Some true \/ (h, i) ∈ seen') ->
  join_ok l seen todo -> join_ok l' seen' todo.
Proof.
  intros Hg. revert seen seen'. induction todo as [|a todo IH]; intros seen seen' Hs H; [done|].
  destruct a as [k|k i|k|h i|h]; cbn in H |- *; try (by eapply IH).
  - destruct H as [[x Hx] H]. destruct (Hg h x Hx) as (x' & Hx' & _). split; [by eexists|]. eapply IH; [|exact H].
    intros g j y [[= -> ->]|Hin]%elem_of_cons Hy Hj; [right; by left|]. destruct (Hs g j y Hin Hy Hj); [by left|right; by right].
  - destruct H as [(x & Hx & Hi) H]. split; [|by eapply IH]. destruct (Hg h x Hx) as (x' & Hx' & [_ Hlen _ Hst]). exists x'. split; [done|].
    intros i Hlt. destruct (Hi i) as [?|Hin]; [by rewrite Hlen in Hlt|left; by apply Hst|by apply (Hs h i x')].
Qed.

Lemma join_ok_seen l seen seen' todo : (forall x, x ∈ seen -> x ∈ seen') -> join_ok l seen todo -> join_ok l seen' todo.
Proof. intros Hs. apply join_ok_grows; [apply grows_refl|]. intros h i x Hin _ _. right. by apply Hs. Qed.

Lemma join_ok_app l seen t1 t2 : join_ok l seen t1 -> join_ok l seen t2 -> join_ok l seen (t1 ++ t2).
Proof.
  revert seen. induction t1 as [|a t1 IH]; intros seen H1 H2; [done|]. destruct a as [k|k i|k|h i|h]; cbn in *; try (by apply IH).
  - destruct H1 as [Hx H1]. split; [done|]. apply IH; [done|]. eapply join_ok_seen; [|exact H2]. intros x Hx'. by right.
  - destruct H1 as [Hx H1]. split; [done|]. by apply IH.
Qed.

(** ** Taking the helpers of a kind *)

Lemma stop_helper_ok l h x seen : l !! h = Some x -> join_ok l seen (stop_helper h x).
Proof.
  intros Hx. unfold stop_helper. assert (forall js seen, (forall i, (i < length (h_stopped x))%nat -> i ∈ js \/ (h, i) ∈ seen) -> join_ok l seen (map (A_hstop h) js ++ [A_hjoin h])) as H.
  { intros js. induction js as [|j js IH]; intros sn Hi; cbn.
    - split; [|done]. exists x. split; [done|]. intros i Hlt. destruct (Hi i Hlt) as [?%elem_of_nil|?]; [done|by right].
    - split; [by eexists|]. apply IH. intros i Hlt. destruct (Hi i Hlt) as [[->|?]%elem_of_cons|?]; [right; by left|by left|right; by right]. }
  apply H. intros i Hi. left. apply elem_of_seq. lia.
Qed.

Lemma take_from_spec k l0 l1 l : l0 = l1 ++ l ->
  join_ok l0 [] (take_from k (length l1) l).1 /\ grows l0 (l1 ++ (take_from k (length l1) l).2) /\
  (forall a, a ∈ (take_from k (length l1) l).1 -> match a with A_hstop _ _ | A_hjoin _ => True | _ => False end).
Proof.
  revert l1. induction l as [|x l IH]; intros l1 ->; cbn [take_from].
  - split_and!; [done|by intros h x Hx; exists x|by intros a ?%elem_of_nil].
  - destruct (IH (l1 ++ [x])) as (Hj & Hg & Ha); [by rewrite <- (assoc_L (++))|]. rewrite length_app, Nat.add_1_r in Hj, Hg, Ha.
    destruct (take_from k (S (length l1)) l) as [todo l']. cbn in Hj, Hg, Ha. rewrite <- !(assoc_L (++)) in Hg. cbn in Hg.
    assert (forall y, later x y -> grows (l1 ++ x :: l) (l1 ++ y :: l')) as Hy.
    { intros y Hy h z Hz. destruct (Hg h z Hz) as (z' & Hz' & Hl). destruct (decide (h = length l1)) as [->|Hne].
      - exists y. rewrite list_lookup_middle in Hz |- * by done. injection Hz as <-. done.
      - exists z'. split; [|done]. destruct (decide (h < length l1)%nat) as [Hlt|Hge]; [by rewrite lookup_app_l in Hz' |- * by done|].
        rewrite lookup_app_r in Hz' |- * by lia. by destruct (h - length l1)%nat eqn:E; [lia|]. }
    destruct (h_listed x && bool_decide (h_kind x = k)); cbn [fst snd].
    + split_and!.
      * apply join_ok_app; [|done]. apply stop_helper_ok. by apply list_lookup_middle.
      * by apply Hy.
      * intros a [Hin|Hin]%elem_of_app; [|by apply Ha]. unfold stop_helper in Hin. apply elem_of_app in Hin as [Hin|Hin%list_elem_of_singleton]; [|by subst].
        apply list_elem_of_In, in_map_iff in Hin as (i & <- & _). done.
    + split_and!; [done|apply Hy, later_refl|done].
Qed.

Lemma take_ok k l todo l' : take_from k 0 l = (todo, l') -> join_ok l [] todo /\ grows l l' /\
  (forall a, a ∈ todo -> match a with A_hstop _ _ | A_hjoin _ => True | _ => False end).
Proof. intros E. pose proof (take_from_spec k l [] l eq_refl) as H. cbn [length app] in H. by rewrite E in H. Qed.

(** ** The invariant *)

Record helpers_ok (p : process) : Prop := {
  ho_shape h x : helpers (fw p) !! h = Some x -> length (h_stopped x) = width (h_kind x) /\ length (h_left x) = width (h_kind x);
  ho_joins : match g_pc p with G_hooks todo => join_ok (helpers (fw p)) [] todo | _ => True end;
  ho_watch h : w_join (fw p) = Some h -> exists x, helpers (fw p) !! h = Some x /\ h_kind x = H_port /\ all_stopped x
}.

Lemma width_pos k : (1 <= width k <= 5)%nat.
Proof. destruct k; cbn; lia. Qed.

Lemma helpers_ok_frame p p' : g_pc p' = g_pc p -> fw p' = fw p -> helpers_ok p -> helpers_ok p'.
Proof. intros Eg Ef [H1 H2 H3]. by split; rewrite ?Eg, Ef. Qed.

(** The table grows, and what the watching thread waits for is stopped. *)
Lemma helpers_ok_fw p f : helpers_ok p -> grows (helpers (fw p)) (helpers f) ->
  (forall h x, helpers f !! h = Some x -> length (h_stopped x) = width (h_kind x) /\ length (h_left x) = width (h_kind x)) ->
  (forall h, w_join f = Some h -> w_join (fw p) = Some h \/ exists x, helpers f !! h = Some x /\ h_kind x = H_port /\ all_stopped x) ->
  helpers_ok (set_fw f p).
Proof.
  intros [H1 H2 H3] Hg Hs Hw. split; cbn; [done| |].
  - destruct (g_pc p); try done. eapply join_ok_grows; [exact Hg| |exact H2]. by intros h i x ?%elem_of_nil.
  - intros h Hh. destruct (Hw h Hh) as [Hw'|]; [|done]. destruct (H3 h Hw') as (x & Hx & Hk & Ha). destruct (Hg h x Hx) as (x' & Hx' & [Ek El _ Es]).
    exists x'. split_and!; [done|by rewrite Ek|]. intros i Hi. apply Es, Ha. by rewrite <- El.
Qed.

Lemma shape_insert (l : list helper) h (x x' : helper) : (forall g y, l !! g = Some y -> length (h_stopped y) = width (h_kind y) /\ length (h_left y) = width (h_kind y)) ->
  l !! h = Some x -> later x x' -> forall g y, <[h := x']> l !! g = Some y -> length (h_stopped y) = width (h_kind y) /\ length (h_left y) = width (h_kind y).
Proof.
  intros Hs Hx [Ek El Ef _] g y [(-> & <- & _)|[_ Hy]]%list_lookup_insert_Some; [|by eapply Hs]. rewrite Ek, El, Ef. by eapply Hs.
Qed.

Lemma set_helper_ok p h x x' : helpers_ok p -> helpers (fw p) !! h = Some x -> later x x' -> helpers_ok (set_helper h x' p).
Proof.
  intros Ok Hx Hl. apply helpers_ok_fw; [done|by eapply grows_insert| |by left]. eapply shape_insert; [apply (ho_shape _ Ok)|done|done].
Qed.

Lemma helper_spawn_ok k p : helpers_ok p -> helpers_ok (spawn k p).
Proof.
  intros Ok. apply helpers_ok_fw; [done|apply grows_app| |by left]. intros h x [Hx|[_ [_ <-]%list_lookup_singleton_Some]]%lookup_app_Some; [by eapply (ho_shape _ Ok)|].
  cbn. by rewrite !length_replicate.
Qed.

Definition helper_event (e : event) : bool :=
  match e with Ev_watch | Ev_begin_port | Ev_end_port _ | Ev_port_joined | Ev_client_mgr _ | Ev_leave _ _ | Ev_finish _ => true | _ => false end.

(** The steps of the helpers change their table only, or abort the process. *)
Lemma helper_step_core e p p' : helper_event e = true -> step e p = Some p' -> p' = set_fw (fw p') p \/ (calm e = false /\ p' = set_main M_aborted p).
Proof.
  intros He E. unfold step in E. destruct (over p); [done|]. destruct e; try done; cbn in E.
  - unfold start_watching in E. repeat case_match; try done. injection E as <-. by left.
  - unfold begin_port in E. case_match; [|done]. injection E as <-. by left.
  - unfold end_port in E. destruct (helpers (fw p) !! h) as [x|]; [|done]. cbn in E. case_match; [|done]. injection E as <-. by left.
  - unfold port_joined in E. destruct (w_join (fw p)) as [h|]; [|done]. cbn in E. destruct (helpers (fw p) !! h) as [x|]; [|done]. cbn in E.
    case_match; [|done]. injection E as <-. by left.
  - unfold thread_client_mgr in E. case_match; [done|]. destruct late; injection E as <-; [by right|by left].
  - unfold leave in E. destruct (helpers (fw p) !! h) as [x|]; [|done]. cbn in E. repeat case_match; try done. injection E as <-. by left.
  - unfold finish in E. destruct (helpers (fw p) !! h) as [x|]; [|done]. cbn in E. case_match; [|done]. injection E as <-. by left.
Qed.

Lemma helper_step_ok e p p' : helper_event e = true -> helpers_ok p -> step e p = Some p' -> helpers_ok p'.
Proof.
  intros He Ok E. unfold step in E. destruct (over p); [done|]. destruct e; try done; cbn in E.
  - unfold start_watching in E. repeat case_match; try done. injection E as <-. by apply helper_spawn_ok.
  - unfold begin_port in E. case_match; [|done]. injection E as <-. by apply helper_spawn_ok.
  - unfold end_port in E. destruct (helpers (fw p) !! h) as [x|] eqn:Hx; [|done]. cbn in E. destruct (_ && _) eqn:Eb; [|done]. injection E as <-.
    apply andb_true_iff in Eb as [[_ Hk%bool_decide_eq_true]%andb_true_iff _]. pose proof (later_stop_all x) as Hl.
    apply helpers_ok_fw; [done|by eapply grows_insert| |].
    + eapply shape_insert; [apply (ho_shape _ Ok)|done|done].
    + intros g [= <-]. right. exists (stop_all (unlisted x)). cbn. rewrite list_lookup_insert_eq by (by eapply lookup_lt_Some).
      split_and!; [done|done|]. apply (all_stopped_stop_all (unlisted x)).
  - unfold port_joined in E. destruct (w_join (fw p)) as [h|] eqn:Ew; [|done]. cbn in E. destruct (helpers (fw p) !! h) as [x|]; [|done]. cbn in E.
    case_match; [|done]. injection E as <-. apply helpers_ok_fw; [done|apply grows_refl|apply (ho_shape _ Ok)|done].
  - unfold thread_client_mgr in E. case_match; [done|]. destruct late; injection E as <-; [by apply (helpers_ok_frame p)|by apply helper_spawn_ok].
  - unfold leave in E. destruct (helpers (fw p) !! h) as [x|] eqn:Hx; [|done]. cbn in E. repeat case_match; try done. injection E as <-.
    eapply set_helper_ok; [done|exact Hx|]. apply later_left. by rewrite length_insert.
  - unfold finish in E. destruct (helpers (fw p) !! h) as [x|] eqn:Hx; [|done]. cbn in E. case_match; [|done]. injection E as <-.
    eapply set_helper_ok; [done|exact Hx|by apply later_left].
Qed.

(** *** The hook *)

Lemma take_shape k l : forall h todo l', take_from k h l = (todo, l') ->
  (forall g x, l !! g = Some x -> length (h_stopped x) = width (h_kind x) /\ length (h_left x) = width (h_kind x)) ->
  forall g x, l' !! g = Some x -> length (h_stopped x) = width (h_kind x) /\ length (h_left x) = width (h_kind x).
Proof.
  induction l as [|y l IH]; intros h todo l' E Hs; cbn [take_from] in E; [by injection E as _ <-|].
  destruct (take_from k (S h) l) as [todo1 l1] eqn:E1. assert (forall g x, l1 !! g = Some x -> length (h_stopped x) = width (h_kind x) /\ length (h_left x) = width (h_kind x)) as H1.
  { eapply IH; [exact E1|]. intros g x Hx. by apply (Hs (S g)). }
  pose proof (Hs O y eq_refl) as Hy. destruct (_ && _); injection E as _ <-; intros [|g] x Hx; cbn in Hx; simplify_eq; try done; by eapply H1.
Qed.

Lemma hook_action_ok p a todo more p1 : helpers_ok p -> g_pc p = G_hooks (a :: todo) -> run_action a p = Some (more, p1) -> helpers_ok (set_signal (G_hooks (more ++ todo)) p1).
Proof.
  intros Ok Eg E. pose proof (ho_joins _ Ok) as Hj. rewrite Eg in Hj. destruct a as [k|k i|k|h i|h]; cbn in E, Hj.
  - injection E as <- <-. destruct Ok as [H1 _ H3]. split; destruct k; done.
  - injection E as <- <-. destruct Ok as [H1 _ H3]. split; destruct k; done.
  - destruct (take_from k 0 (helpers (fw p))) as [acts l] eqn:Et. injection E as <- <-. destruct (take_ok k _ _ _ Et) as (Ha & Hg & _).
    assert (helpers_ok (set_fw (mk_forward l (w_join (fw p)) (cleared (fw p) || bool_decide (k = H_client))) p)) as [H1 H2 H3].
    { apply helpers_ok_fw; [done|exact Hg| |by left]. cbn. eapply take_shape; [exact Et|apply (ho_shape _ Ok)]. }
    split; [exact H1| |exact H3]. cbn. apply join_ok_app; (eapply join_ok_grows; [exact Hg| |done]); by intros ? ? ? ?%elem_of_nil.
  - destruct (helpers (fw p) !! h) as [x|] eqn:Hx; [|done]. cbn in E. injection E as <- <-. destruct (set_helper_ok p h x _ Ok Hx (later_stop_one i x)) as [H1 _ H3].
    split; [exact H1| |exact H3]. cbn. destruct Hj as [_ Hj]. eapply join_ok_grows; [by eapply grows_insert, later_stop_one| |exact Hj].
    intros g j y [[= -> ->]|?%elem_of_nil]%elem_of_cons Hy Hlt; [|done]. left. rewrite list_lookup_insert_eq in Hy by (by eapply lookup_lt_Some). injection Hy as <-.
    apply list_lookup_insert_eq. cbn in Hlt. by rewrite length_insert in Hlt.
  - destruct (helpers (fw p) !! h) as [x|] eqn:Hx; [|done]. cbn in E. destruct (h_done x); [|done]. injection E as <- <-. destruct Ok as [H1 _ H3].
    split; [exact H1| |exact H3]. cbn. by destruct Hj.
Qed.

(** ** Measure *)

Lemma forallb_lookup l i x : forallb id l = true -> l !! i = Some x -> x = true.
Proof. rewrite forallb_forall. intros H Hi. apply H. by apply list_elem_of_In, list_elem_of_lookup; exists i. Qed.

Lemma forallb_false l : forallb id l = false -> exists i, l !! i = Some false.
Proof.
  induction l as [|x l IH]; [done|]. cbn. destruct x; cbn; [|intros _; by exists O]. intros H. destruct (IH H) as [i Hi]. by exists (S i).
Qed.

Definition count_open (l : list bool) : nat := length (filter (fun x => x = false) l).

Lemma count_open_set i l : l !! i = Some false -> S (count_open (<[i := true]> l)) = count_open l.
Proof.
  unfold count_open. revert i. induction l as [|x l IH]; intros i Hi; [done|]. destruct i as [|i]; cbn in Hi.
  - injection Hi as ->. done.
  - cbn [insert list_insert]. rewrite !filter_cons. destruct (decide (x = false)); cbn [length]; by rewrite <- (IH i Hi).
Qed.

Lemma count_open_le l : (count_open l <= length l)%nat.
Proof. apply length_filter. Qed.
Arguments count_open : simpl never.

(** The steps of a helper, and of whoever stops and joins it. *)
Definition helper_rank (x : helper) : nat :=
  (if h_listed x then S (length (h_stopped x)) else 0) + count_open (h_left x) + (if h_done x then 0 else 1).
Definition total (l : list helper) : nat := sum_list_with helper_rank l.
Arguments helper_rank : simpl never.
Arguments total : simpl never.
Definition fw_rank (f : forward) : nat := total (helpers f) + match w_join f with Some _ => 1 | None => 0 end.

Lemma total_insert l h x x' : l !! h = Some x -> (total (<[h := x']> l) + helper_rank x = total l + helper_rank x')%nat.
Proof.
  unfold total. revert h. induction l as [|y l IH]; intros [|h] Hh; cbn in Hh; try done.
  - injection Hh as ->. change (<[0%nat := x']> (x :: l)) with (x' :: l). cbn [sum_list_with]. lia.
  - change (<[S h := x']> (y :: l)) with (y :: <[h := x']> l). cbn [sum_list_with]. specialize (IH h Hh). lia.
Qed.

Lemma new_rank k : (helper_rank (new_helper k) <= 12)%nat.
Proof. destruct k; vm_compute; lia. Qed.

Lemma spawn_rank k p : (fw_rank (fw (spawn k p)) <= fw_rank (fw p) + 12)%nat.
Proof. unfold fw_rank, total. cbn [fw spawn set_helpers set_fw helpers w_join]. rewrite sum_list_with_app. cbn [sum_list_with]. pose proof (new_rank k). lia. Qed.

Lemma take_rank k l : forall h todo l', take_from k h l = (todo, l') -> (length todo + total l' = total l)%nat.
Proof.
  unfold total. induction l as [|x l IH]; intros h todo l' E; cbn [take_from] in E; [by injection E as <- <-|].
  destruct (take_from k (S h) l) as [todo1 l1] eqn:E1. specialize (IH _ _ _ E1). destruct (h_listed x && _) eqn:Eb; injection E as <- <-; cbn [sum_list_with].
  - apply andb_true_iff in Eb as [Hl _]. unfold stop_helper. rewrite !length_app, length_map, length_seq.
    assert (helper_rank x = S (length (h_stopped x)) + helper_rank (unlisted x))%nat as -> by (unfold helper_rank; cbn; rewrite Hl; lia). cbn. lia.
  - lia.
Qed.

Lemma set_helper_rank p h x x' : helpers (fw p) !! h = Some x -> (fw_rank (fw (set_helper h x' p)) + helper_rank x = fw_rank (fw p) + helper_rank x')%nat.
Proof. intros Hx. unfold fw_rank. cbn. pose proof (total_insert _ h x x' Hx). lia. Qed.

Lemma action_rank a p more p1 : run_action a p = Some (more, p1) -> (length more + fw_rank (fw p1) = fw_rank (fw p))%nat.
Proof.
  intros E. destruct a as [k|k i|k|h i|h]; cbn in E.
  - injection E as <- <-. by destruct k.
  - injection E as <- <-. by destruct k.
  - destruct (take_from k 0 (helpers (fw p))) as [acts l] eqn:Et. injection E as <- <-. unfold fw_rank. cbn. pose proof (take_rank _ _ _ _ _ Et). lia.
  - destruct (helpers (fw p) !! h) as [x|] eqn:Hx; [|done]. cbn in E. injection E as <- <-. pose proof (set_helper_rank p h x (stop_one i x) Hx) as H.
    unfold helper_rank in H. cbn in H. rewrite length_insert in H. cbn. lia.
  - destruct (helpers (fw p) !! h) as [x|] eqn:Hx; [|done]. cbn in E. destruct (h_done x); [|done]. by injection E as <- <-.
Qed.

Lemma watching_free p : watching p = true -> w_join (fw p) = None.
Proof.
  unfold watching. intros (x & _ & Hx)%existsb_exists. unfold blocked in Hx. destruct (w_join (fw p)); [|done].
  destruct (bool_decide (h_kind x = H_watch)); cbn in Hx; rewrite ?andb_false_r in Hx; done.
Qed.

Lemma helper_step_rank e p p' : helper_event e = true -> calm e = true -> helpers_ok p -> step e p = Some p' ->
  (fw_rank (fw p') + (if is_spawn e then 0 else 1) <= fw_rank (fw p) + (if is_spawn e then 12 else 0))%nat.
Proof.
  intros He Hc Ok E. unfold step in E. destruct (over p); [done|]. destruct e; try done; cbn in E; cbn [is_spawn].
  - unfold start_watching in E. repeat case_match; try done. injection E as <-. pose proof (spawn_rank H_watch p). lia.
  - unfold begin_port in E. case_match; [|done]. injection E as <-. pose proof (spawn_rank H_port p). lia.
  - unfold end_port in E. destruct (helpers (fw p) !! h) as [x|] eqn:Hx; [|done]. cbn in E. destruct (_ && _) eqn:Eb; [|done]. injection E as <-.
    apply andb_true_iff in Eb as [[Hw _]%andb_true_iff Hl]. apply watching_free in Hw. destruct (ho_shape _ Ok h x Hx) as [Hs _]. pose proof (width_pos (h_kind x)).
    pose proof (total_insert _ h x (stop_all (unlisted x)) Hx) as H1. unfold fw_rank. cbn. rewrite Hw. unfold helper_rank in H1. cbn in H1. rewrite Hl in H1. lia.
  - unfold port_joined in E. destruct (w_join (fw p)) as [h|] eqn:Ew; [|done]. cbn in E. destruct (helpers (fw p) !! h) as [x|]; [|done]. cbn in E.
    case_match; [|done]. injection E as <-. unfold fw_rank. cbn. rewrite Ew. lia.
  - unfold thread_client_mgr in E. destruct (_ || _); [done|]. destruct late; [done|]. injection E as <-. pose proof (spawn_rank H_client p). lia.
  - unfold leave in E. destruct (helpers (fw p) !! h) as [x|] eqn:Hx; [|done]. cbn in E. destruct (blocked x p); [done|].
    destruct (h_stopped x !! i) as [[]|]; try done. destruct (h_left x !! i) as [[]|] eqn:El; try done. injection E as <-.
    pose proof (set_helper_rank p h x (mk_helper (h_kind x) (h_listed x) (h_stopped x) (<[i := true]> (h_left x)) (h_done x)) Hx) as H1.
    pose proof (count_open_set i _ El). unfold helper_rank in H1. cbn in H1. cbn. lia.
  - unfold finish in E. destruct (helpers (fw p) !! h) as [x|] eqn:Hx; [|done]. cbn in E. destruct (_ && _) eqn:Eb; [|done]. injection E as <-.
    apply andb_true_iff in Eb as [_ Hd%negb_true_iff].
    pose proof (set_helper_rank p h x (mk_helper (h_kind x) (h_listed x) (h_stopped x) (h_left x) true) Hx) as H1. unfold helper_rank in H1. cbn in H1. rewrite Hd in H1. cbn. lia.
Qed.

(** ** Progress *)

Definition can_step (p : process) : Prop := exists e, calm e = true /\ is_signal e = false /\ is_spawn e = false /\ is_Some (step e p).

Lemma stopped_progress p h x : over p = false -> helpers_ok p -> helpers (fw p) !! h = Some x -> h_done x = false -> all_stopped x -> blocked x p = false -> can_step p.
Proof.
  intros Ov Ok Hx Hd Ha Hb. destruct (forallb id (h_left x)) eqn:F.
  - exists (Ev_finish h). unfold step, finish. rewrite Ov, Hx. cbn [mbind option_bind]. rewrite F, Hd. done.
  - destruct (forallb_false _ F) as [i Hi]. exists (Ev_leave h i). unfold step, leave. rewrite Ov, Hx. cbn [mbind option_bind]. rewrite Hb, Ha, Hi; [done|].
    apply lookup_lt_Some in Hi. destruct (ho_shape _ Ok h x Hx). lia.
Qed.

(** Nobody waits for a helper for ever. *)
Lemma hook_progress p a todo : over p = false -> helpers_ok p -> g_pc p = G_hooks (a :: todo) -> can_step p.
Proof.
  intros Ov Ok Eg. destruct (run_action a p) as [[more p1]|] eqn:E.
  { exists (Ev_hook true). unfold step, hook_step. rewrite Ov, Eg, E. done. }
  pose proof (ho_joins _ Ok) as Hj. rewrite Eg in Hj. destruct a as [k|k i|k|h i|h]; cbn in E, Hj; try done.
  - by destruct (take_from _ _ _).
  - destruct Hj as [[x Hx] _]. by rewrite Hx in E.
  - destruct Hj as [(x & Hx & Hi) _]. rewrite Hx in E. cbn in E. destruct (h_done x) eqn:Hd; [done|].
    assert (all_stopped x) as Ha by (intros i Hlt; destruct (Hi i Hlt) as [?|?%elem_of_nil]; done).
    destruct (blocked x p) eqn:Hb; [|by eapply stopped_progress]. unfold blocked in Hb. apply andb_true_iff in Hb as [_ Hw%bool_decide_eq_true].
    destruct (w_join (fw p)) as [g|] eqn:Ew; [|done]. destruct (ho_watch _ Ok g Ew) as (y & Hy & Hk & Hs). destruct (h_done y) eqn:Hdy.
    + exists Ev_port_joined. unfold step, port_joined. rewrite Ov, Ew. cbn [mbind option_bind]. rewrite Hy. cbn [mbind option_bind]. by rewrite Hdy.
    + eapply stopped_progress; [done..|]. unfold blocked. by rewrite Hk.
Qed.
