(* ===== verification/FibpServerMainSpec.v ===== *)
(** * The end of the process

    When a signal to quit comes while both servers are in their loops, the
    process ends: every thread makes a bounded number of steps, and until [main]
    has returned some thread can make one, also where the hook waits for the
    helper threads.  When it comes before, the process cannot be ended by signals
    any more. *)

From stdpp Require Import gmap options.
From S2P Require Import Prelude FibpServerMain FibpServerHelpers.

Lemma get_set_server k j v p : get_server j (set_server k v p) = if decide (j = k) then v else get_server j p.
Proof. destruct j, k; done. Qed.

Lemma set_server_frame k v p : m_pc (set_server k v p) = m_pc p /\ g_pc (set_server k v p) = g_pc p /\
  pending (set_server k v p) = pending p /\ hooks (set_server k v p) = hooks p.
Proof. by destruct k. Qed.

Lemma set_server_fw k v p : fw (set_server k v p) = fw p.
Proof. by destruct k. Qed.

(** The steps of the helpers touch nothing else. *)
Lemma set_fw_frame f p : m_pc (set_fw f p) = m_pc p /\ g_pc (set_fw f p) = g_pc p /\ pending (set_fw f p) = pending p /\
  hooks (set_fw f p) = hooks p /\ forall k, get_server k (set_fw f p) = get_server k p.
Proof. split_and!; [done..|by intros []]. Qed.

Lemma services_pos n : (1 <= services n)%nat.
Proof. unfold services. destruct (n <=? 1)%nat; lia. Qed.

(** ** Before the signal *)

(** A server that nobody has stopped. *)
Record quiet (n : nat) (v : server) : Prop := {
  qu_length : length (stopped v) = services n;
  qu_stopped i : stopped v !! i <> Some true;
  qu_pc : match s_pc v with
          | S_none | S_run | S_init | S_loop => True
          | S_running returned => length returned = services n /\ forall i, returned !! i <> Some true
          | _ => False
          end
}.

(** The hook is there before a server's thread is. *)
Definition begun (p : process) : Prop :=
  match m_pc p with
  | M_initialize => hooks p = O /\ s_pc (driver p) = S_none /\ s_pc (http p) = S_none
  | M_create_driver => hooks p = 1%nat /\ s_pc (driver p) = S_none /\ s_pc (http p) = S_none
  | M_create_http => hooks p = 1%nat /\ s_pc (http p) = S_none
  | M_rpc_start | M_join_driver => hooks p = 1%nat
  | _ => False
  end.

Definition waiting (n : nat) (p : process) : Prop := g_pc p = G_wait -> (forall k, quiet n (get_server k p)) /\ begun p.

Lemma start_waiting n : waiting n (start n).
Proof.
  intros _. split; [|done]. intros k. assert (get_server k (start n) = new_server n) as -> by (by destruct k).
  split; cbn; [apply length_replicate| |done]. intros i Hi. by apply lookup_replicate in Hi as [Hi _].
Qed.

Lemma quiet_not_joined n v returned : quiet n v -> s_pc v = S_running returned -> forallb id returned = false.
Proof.
  intros [_ _ Hpc] E. rewrite E in Hpc. destruct Hpc as [Hl Hr]. destruct (forallb id returned) eqn:F; [|done].
  destruct returned as [|x returned]; [cbn in Hl; pose proof (services_pos n); lia|]. destruct (Hr O). cbn.
  f_equal. by apply (forallb_lookup (x :: returned) 0).
Qed.

Lemma quiet_server_step n ok v r : quiet n v -> server_step ok v = Some r -> quiet n r.2 /\ s_pc v <> S_none.
Proof.
  intros Q E. pose proof Q as [Hl Hs Hpc]. unfold server_step in E. destruct (s_pc v) as [| | | |rs| |i|] eqn:Epc; try done; try (injection E as <-; split; [|done]; split; done).
  - injection E as <-. split; [|done]. split; [done|done|]. cbn. rewrite length_replicate. split; [done|]. intros i Hi. by apply lookup_replicate in Hi as [Hi _].
  - by rewrite (quiet_not_joined n v rs Q Epc) in E.
Qed.

Lemma quiet_runner_step n i v v' : quiet n v -> runner_step i v = Some v' -> False.
Proof.
  intros [_ Hs _] E. unfold runner_step in E. destruct (s_pc v); try done. destruct (stopped v !! i) as [[]|] eqn:Ei; try done. by destruct (Hs i).
Qed.

Lemma quiet_set_run n v : quiet n v -> quiet n (set_pc S_run v).
Proof. intros [Hl Hs _]. by split. Qed.

(** A step of a server's thread while the signal thread waits. *)
Lemma waiting_set_server n k v p : waiting n p -> quiet n v -> s_pc (get_server k p) <> S_none -> waiting n (set_server k v p).
Proof.
  intros W Q Hne Hg. destruct (set_server_frame k v p) as (Hm & Hg' & _ & Hh). rewrite Hg' in Hg. destruct (W Hg) as [Hq Hb]. split.
  - intros j. rewrite get_set_server. by destruct (decide (j = k)).
  - unfold begun in *. rewrite Hm, Hh. destruct k, (m_pc p); cbn in *; tauto.
Qed.

Lemma waiting_step n e p p' : calm e = true -> waiting n p -> step e p = Some p' -> waiting n p'.
Proof.
  intros Hc W E. destruct (helper_event e) eqn:He.
  { destruct (helper_step_core e p p' He E) as [-> |[? _]]; [|congruence]. intros Hg. destruct (W Hg) as [Hq Hb]. split; [by intros []; [apply (Hq Driver)|apply (Hq Http)]|exact Hb]. }
  unfold step in E. destruct (over p); [done|]. destruct e as [s|ok|k ok|k i|k|s|ok| | | | | | |]; try done; cbn in Hc; subst; try done.
  - injection E as <-. destruct (bool_decide _); [done|]. exact W.
  - intros Hg. assert (g_pc p = G_wait) as Hgp.
    { unfold main_step, process_run in E. destruct (m_pc p); repeat case_match; simplify_eq; cbn in Hg; congruence. }
    destruct (W Hgp) as [Hq Hb]. pose proof (Hq Driver) as Qd. pose proof (Hq Http) as Qh. cbn in Qd, Qh. unfold begun in Hb. unfold main_step, process_run in E.
    destruct (m_pc p) eqn:Em; try done; cbn in E.
    + injection E as <-. split; [by intros []|]. cbn. destruct Hb as (-> & ? & ?). done.
    + injection E as <-. split; [|cbn; tauto]. intros []; cbn; [by apply quiet_set_run|done].
    + injection E as <-. split; [|cbn; tauto]. intros []; cbn; [done|by apply quiet_set_run].
    + injection E as <-. split; [by intros []|]. cbn. done.
    + destruct Qd as [_ _ Hpc]. unfold is_returned in E. by destruct (s_pc (driver p)).
  - destruct (server_step true (get_server k p)) as [[esc v]|] eqn:Es; [|done]. cbn in E.
    assert (esc = false) as -> by (unfold server_step in Es; repeat case_match; by simplify_eq). injection E as <-.
    intros Hg. destruct (W ltac:(by destruct k)) as [Hq _]. destruct (quiet_server_step n _ _ _ (Hq k) Es) as [Q Hne]. by apply (waiting_set_server n k v p W Q Hne).
  - destruct (runner_step i (get_server k p)) as [v|] eqn:Es; [|done]. injection E as <-. intros Hg. destruct (W ltac:(by destruct k)) as [Hq _].
    by destruct (quiet_runner_step n _ _ _ (Hq k) Es).
  - intros Hg. unfold sig_thread in E. destruct (g_pc p) eqn:Eg; [|done..]. destruct (bool_decide _); [|done]. injection E as <-.
    destruct (quits s); [done|]. exact (W Eg).
  - intros Hg. unfold hook_step in E. destruct (g_pc p) as [|[|a l]|] eqn:Eg; try done; [by injection E as <-|].
    destruct (run_action a p) as [[more p1]|]; [|done]. by injection E as <-.
Qed.

(** ** After the signal *)

(** The hook still has to stop the service [i] of [k]. *)
Definition will_stop (g : signal_pc) (k : which) (i : nat) : Prop :=
  match g with G_wait => True | G_hooks todo => A_stop k i ∈ todo | G_returned => False end.

(** Before it stops a service of [k] it sets [normal_stop_]. *)
Fixpoint ordered (k : which) (todo : list action) : Prop :=
  match todo with
  | [] => True
  | A_normal_stop j :: todo => j = k \/ ordered k todo
  | A_stop j _ :: todo => j <> k /\ ordered k todo
  | _ :: todo => ordered k todo
  end.

(** A server that serves until it is stopped, and then returns. *)
Record ending (n : nat) (g : signal_pc) (k : which) (v : server) : Prop := {
  en_length : length (stopped v) = services n;
  en_stops i : (i < services n)%nat -> stopped v !! i = Some true \/ will_stop g k i;
  en_normal i : stopped v !! i = Some true -> normal_stop_ v = true;
  en_ordered : match g with G_hooks todo => normal_stop_ v = true \/ ordered k todo | _ => True end;
  en_pc : match s_pc v with
          | S_loop => True
          | S_running returned => length returned = services n /\ forall i, returned !! i = Some true -> normal_stop_ v = true
          | S_check | S_returned => normal_stop_ v = true
          | _ => False
          end
}.

Record quitting (n : nat) (p : process) : Prop := {
  qt_servers k : ending n (g_pc p) k (get_server k p);
  qt_signal : g_pc p = G_wait -> hooks p = 1%nat /\ exists s, s ∈ pending p /\ quits s = true;
  qt_main : match m_pc p with M_rpc_start | M_join_driver | M_join_http | M_join_signal | M_exited 0 => True | _ => False end;
  qt_joined : match m_pc p with
              | M_join_http => s_pc (driver p) = S_returned
              | M_join_signal => s_pc (driver p) = S_returned /\ s_pc (http p) = S_returned
              | _ => True
              end
}.

(** The steps that are left. *)
Definition server_rank (v : server) : nat :=
  match s_pc v with
  | S_loop => length (stopped v) + 3
  | S_running returned => count_open returned + 2
  | S_check => 1
  | _ => 0
  end.
Definition main_rank (m : main_pc) : nat :=
  match m with M_rpc_start => 16 | M_join_driver => 3 | M_join_http => 2 | M_join_signal => 1 | _ => 0 end.
Definition signal_rank (n : nat) (g : signal_pc) : nat :=
  match g with G_wait => 2 * services n + 8 | G_hooks todo => length todo + 1 | G_returned => 0 end.
Definition rank (n : nat) (p : process) : nat :=
  main_rank (m_pc p) + signal_rank n (g_pc p) + length (pending p) + server_rank (driver p) + server_rank (http p) + fw_rank (fw p).

(** *** The server's thread *)

Lemma ending_server_step n g k v ok : ending n g k v ->
  match server_step ok v with
  | Some (esc, v') => ok = true -> esc = false /\ ending n g k v' /\ (server_rank v' < server_rank v)%nat /\ s_pc v <> S_returned
  | None => s_pc v = S_returned \/ exists i, s_pc v <> S_loop /\ exists returned, s_pc v = S_running returned /\ returned !! i = Some false
  end.
Proof.
  intros [Hl Hst Hn Ho Hpc]. unfold server_step. destruct (s_pc v) as [| | | |rs| |i|] eqn:Epc; try done.
  - intros _. split_and!; [done|split; try done; cbn; rewrite length_replicate; split; [done|]| |done].
    + intros i Hi. by apply lookup_replicate in Hi as [Hi _].
    + unfold server_rank. cbn [s_pc set_pc]. rewrite Epc. pose proof (count_open_le (replicate (length (stopped v)) false)) as Hle. rewrite length_replicate in Hle. lia.
  - destruct (forallb id rs) eqn:F.
    + intros _. destruct Hpc as [Hr Hi]. assert (normal_stop_ v = true) as En.
      { destruct rs as [|x rs]; [cbn in Hr; pose proof (services_pos n); lia|]. apply (Hi O). cbn. f_equal. by apply (forallb_lookup (x :: rs) 0). }
      split_and!; [done|by split| |done]. unfold server_rank. cbn [s_pc set_pc]. rewrite Epc. lia.
    + right. destruct (forallb_false rs F) as [i Hi]. exists i. split; [done|]. by exists rs.
  - intros _. rewrite Hpc. split_and!; [done|by split| |done]. unfold server_rank. cbn [s_pc set_pc]. rewrite Epc. lia.
  - by left.
Qed.

Lemma ending_runner_step n g k v i v' : ending n g k v -> runner_step i v = Some v' ->
  ending n g k v' /\ (server_rank v' < server_rank v)%nat /\ s_pc v <> S_returned.
Proof.
  intros [Hl Hst Hn Ho Hpc] E. unfold runner_step in E. destruct (s_pc v) as [| | | |rs| |j|] eqn:Epc; try done.
  destruct (stopped v !! i) as [[]|] eqn:Es; try done. destruct (rs !! i) as [[]|] eqn:Er; try done. injection E as <-. split_and!.
  - split; try done. cbn. rewrite length_insert. split; [by destruct Hpc|]. intros _ _. by apply (Hn i).
  - unfold server_rank. cbn [s_pc set_pc]. rewrite Epc. pose proof (count_open_set i rs Er). lia.
  - done.
Qed.

Lemma quitting_set_server n k v p : quitting n p -> ending n (g_pc p) k v -> s_pc (get_server k p) <> S_returned ->
  (server_rank v < server_rank (get_server k p))%nat -> quitting n (set_server k v p) /\ (S (rank n (set_server k v p)) <= rank n p)%nat.
Proof.
  intros [Hs Hg Hm Hj] He Hne Hr. destruct (set_server_frame k v p) as (Em & Eg & Ep & Eh). split.
  - split.
    + intros j. rewrite get_set_server, Eg. by destruct (decide (j = k)) as [->|].
    + by rewrite Eg, Eh, Ep.
    + by rewrite Em.
    + rewrite Em. destruct k, (m_pc p); cbn in *; tauto.
  - unfold rank. rewrite Em, Eg, Ep, set_server_fw. destruct k; cbn in *; lia.
Qed.

(** *** The signal thread *)

Lemma ordered_app k l l' : ordered k l' -> Forall (fun a => match a with A_stop j _ => j <> k | _ => True end) l -> ordered k (l ++ l').
Proof. intros H. induction 1 as [|a l Ha _ IH]; [done|]. destruct a; cbn; auto. Qed.

Lemma stop_server_elem k n i : (i < n)%nat -> A_stop k i ∈ stop_server k n.
Proof. intros H. right. apply list_elem_of_In, in_map, in_seq. lia. Qed.

Lemma hook_ok p : (forall k i, (i < length (stopped (get_server k p)))%nat -> A_stop k i ∈ stopConnectionServer p) /\
  (forall k, ordered k (stopConnectionServer p)) /\
  length (stopConnectionServer p) = (length (stopped (driver p)) + length (stopped (http p)) + 6)%nat.
Proof.
  split_and!.
  - intros [] i Hi; unfold stopConnectionServer; rewrite !elem_of_app; [left|right; left]; by apply stop_server_elem.
  - intros []; [by left|]. unfold stopConnectionServer. apply ordered_app; [by left|]. constructor; [done|]. apply Forall_forall.
    intros a Ha. apply list_elem_of_In, in_map_iff in Ha as (i & <- & _). done.
  - unfold stopConnectionServer, stop_server. rewrite !length_app. cbn [length]. rewrite !length_map, !length_seq. lia.
Qed.

Lemma ending_taken n k v todo : ending n G_wait k v -> (forall i, (i < services n)%nat -> A_stop k i ∈ todo) -> ordered k todo -> ending n (G_hooks todo) k v.
Proof. intros [Hl Hst Hn _ Hpc] He Ho. split; try done; [intros i Hi; right; by apply He|by right]. Qed.

Lemma filter_removes (s : signal) l : s ∈ l -> (length (filter (fun x => x <> s) l) < length l)%nat.
Proof.
  induction l as [|x l IH]; [by intros ?%elem_of_nil|]. rewrite filter_cons. pose proof (length_filter (fun x => x <> s) l).
  destruct (decide (x <> s)) as [Hx|Hx]; cbn [length]; [|lia]. intros [->|Hin]%elem_of_cons; [done|]. specialize (IH Hin). lia.
Qed.

Lemma quitting_sigwait n s p p' : quitting n p -> sig_thread s p = Some p' -> quitting n p' /\ (S (rank n p') <= rank n p)%nat.
Proof.
  intros [Hs Hg Hm Hj] E. unfold sig_thread in E. destruct (g_pc p) eqn:Eg; [|done..]. case_bool_decide as Hin; [|done].
  destruct (Hg eq_refl) as (Hh & s' & Hs' & Hq'). pose proof (filter_removes s _ Hin) as Hlt. cbn [set_pending hooks] in E. injection E as <-.
  destruct (quits s) eqn:Hq.
  - assert (forall k, length (stopped (get_server k p)) = services n) as Hlen by (intros k; by destruct (Hs k)).
    rewrite Hh. cbn [replicate concat]. rewrite app_nil_r. change (stopConnectionServer (set_pending _ p)) with (stopConnectionServer p).
    destruct (hook_ok p) as (Ha & Ho & Hl). split.
    + split; try done. intros k. cbn [g_pc set_signal]. assert (get_server k (set_signal (G_hooks (stopConnectionServer p)) (set_pending (filter (fun x => x <> s) (pending p)) p)) = get_server k p) as -> by (by destruct k).
      apply ending_taken; [apply Hs| |apply Ho]. intros i Hi. apply Ha. by rewrite Hlen.
    + unfold rank. cbn [g_pc m_pc pending driver http fw set_signal set_pending]. rewrite Eg. cbn [signal_rank]. rewrite Hl, (Hlen Driver : length (stopped (driver p)) = _), (Hlen Http : length (stopped (http p)) = _). lia.
  - split.
    + split; try done; [intros k; cbn [g_pc set_pending]; rewrite Eg; by destruct k; [apply (Hs Driver)|apply (Hs Http)]|].
      intros _. split; [done|]. exists s'. split; [|done]. cbn. apply list_elem_of_filter. split; [|done]. intros ->. congruence.
    + unfold rank. cbn. lia.
Qed.

(** An action of the hook that is not for the server [k]. *)
Lemma ending_skip n k a todo v : ending n (G_hooks (a :: todo)) k v ->
  match a with A_normal_stop j | A_stop j _ => j <> k | _ => True end -> ending n (G_hooks todo) k v.
Proof.
  intros [Hl Hst Hn Ho Hpc] Ha. split; try done.
  - intros i Hi. destruct (Hst i Hi) as [?|[<-|?]%elem_of_cons]; [by left|done|by right].
  - destruct Ho as [?|Ho]; [by left|]. destruct a; cbn in Ho; tauto.
Qed.

(** Actions for the helpers that are put before the others. *)
Lemma ending_more n k more todo v : ending n (G_hooks todo) k v -> (forall a, a ∈ more -> match a with A_hstop _ _ | A_hjoin _ => True | _ => False end) ->
  ending n (G_hooks (more ++ todo)) k v.
Proof.
  intros [Hl Hst Hn Ho Hpc] Hm. split; try done.
  - intros i Hi. destruct (Hst i Hi) as [?|?]; [by left|right]. cbn. apply elem_of_app. by right.
  - destruct Ho as [?|Ho]; [by left|right]. apply ordered_app; [done|]. apply Forall_forall. intros a Ha. by destruct a; specialize (Hm _ Ha).
Qed.

(** An action of the hook on one server. *)
Lemma ending_action n k a todo p more p1 : ending n (G_hooks (a :: todo)) k (get_server k p) -> run_action a p = Some (more, p1) ->
  ending n (G_hooks (more ++ todo)) k (get_server k p1).
Proof.
  intros H E. pose proof H as [Hl Hst Hn Ho Hpc]. destruct a as [j|j i|j|h i|h]; cbn in E.
  - injection E as <- <-. cbn [app]. rewrite get_set_server. destruct (decide (k = j)) as [<-|Hkj]; [|by apply (ending_skip _ _ _ _ _ H)].
    split; cbn; try done; [|by left|].
    + intros i Hi. destruct (Hst i Hi) as [?|[?|?]%elem_of_cons]; [by left|done|by right].
    + destruct (s_pc (get_server k p)); try done. destruct Hpc; by split.
  - injection E as <- <-. cbn [app]. rewrite get_set_server. destruct (decide (k = j)) as [<-|Hkj]; [|by apply (ending_skip _ _ _ _ _ H)].
    cbn in Ho. destruct Ho as [Ho|[? _]]; [|done]. split; cbn; try done; [by rewrite length_insert| |by left].
    intros i' Hi. destruct (decide (i' = i)) as [->|Hne]; [left; apply list_lookup_insert_eq; lia|].
    rewrite list_lookup_insert_ne by done. destruct (Hst i' Hi) as [?|[?|?]%elem_of_cons]; [by left|by simplify_eq|by right].
  - destruct (take_from j 0 (helpers (fw p))) as [acts l] eqn:Et. injection E as <- <-. destruct (take_ok j _ _ _ Et) as (_ & _ & Ha).
    apply ending_more; [|done]. assert (get_server k (set_fw _ p) = get_server k p) as -> by apply set_fw_frame. by apply (ending_skip _ _ _ _ _ H).
  - destruct (helpers (fw p) !! h) as [x|]; [|done]. injection E as <- <-. assert (get_server k (set_helper h (stop_one i x) p) = get_server k p) as -> by apply set_fw_frame.
    by apply (ending_skip _ _ _ _ _ H).
  - destruct (helpers (fw p) !! h) as [x|]; [|done]. cbn in E. destruct (h_done x); [|done]. injection E as <- <-. by apply (ending_skip _ _ _ _ _ H).
Qed.

(** An action changes nothing else. *)
Lemma run_action_frame a p more p1 : run_action a p = Some (more, p1) -> m_pc p1 = m_pc p /\ pending p1 = pending p /\ hooks p1 = hooks p /\
  (forall k, s_pc (get_server k p1) = s_pc (get_server k p) /\ server_rank (get_server k p1) = server_rank (get_server k p)).
Proof.
  intros E. destruct a as [j|j i|j|h i|h]; cbn in E.
  1, 2: injection E as <- <-; destruct (set_server_frame j (get_server j p) p); split_and!; [by destruct j..|];
    intros k; unfold server_rank; rewrite get_set_server; destruct (decide (k = j)) as [->|]; try done; cbn; by rewrite ?length_insert.
  - destruct (take_from j 0 (helpers (fw p))) as [acts l]. injection E as <- <-. split_and!; [done..|]. by intros [].
  - destruct (helpers (fw p) !! h) as [x|]; [|done]. injection E as <- <-. split_and!; [done..|]. by intros [].
  - destruct (helpers (fw p) !! h) as [x|]; [|done]. cbn in E. destruct (h_done x); [|done]. by injection E as <- <-.
Qed.

Lemma quitting_hook n p p' : quitting n p -> hook_step true p = Some p' -> quitting n p' /\ (S (rank n p') <= rank n p)%nat.
Proof.
  intros [Hs Hg Hm Hj] E. unfold hook_step in E. destruct (g_pc p) as [|[|a todo]|] eqn:Eg; try done.
  - injection E as <-. split; [|unfold rank; cbn; rewrite Eg; cbn; lia]. split; try done. intros k. cbn [g_pc set_signal].
    assert (get_server k (set_signal G_returned p) = get_server k p) as -> by (by destruct k). destruct (Hs k) as [H1 H2 H3 _ H5]. split; try done.
    intros i Hi. destruct (H2 i Hi) as [?|?%elem_of_nil]; [by left|done].
  - destruct (run_action a p) as [[more p1]|] eqn:Ea; [|done]. cbn in E. injection E as <-. destruct (run_action_frame a p more p1 Ea) as (Em & Ep & _ & Ek).
    pose proof (action_rank a p more p1 Ea) as Hr. destruct (Ek Driver) as [Ed Rd]. destruct (Ek Http) as [Eh Rh]. cbn in Ed, Eh, Rd, Rh. split.
    + split; cbn [g_pc m_pc driver http set_signal]; [|done|by rewrite Em|rewrite Em, Ed, Eh; exact Hj].
      intros k. assert (get_server k (set_signal (G_hooks (more ++ todo)) p1) = get_server k p1) as -> by (by destruct k). by apply (ending_action n k a todo p).
    + unfold rank. cbn [g_pc m_pc pending driver http fw set_signal]. rewrite Em, Ep, Rd, Rh, Eg. cbn [signal_rank length]. rewrite length_app. lia.
Qed.

(** *** The process *)

Lemma rank_set_main n m p : (main_rank m < main_rank (m_pc p))%nat -> (S (rank n (set_main m p)) <= rank n p)%nat.
Proof. unfold rank. cbn [m_pc g_pc pending driver http fw set_main]. lia. Qed.

Lemma quitting_main n p p' : quitting n p -> main_step true p = Some p' -> quitting n p' /\ (S (rank n p') <= rank n p)%nat.
Proof.
  intros [Hs Hg Hm Hj] E. assert (forall m k, ending n (g_pc p) k (get_server k (set_main m p))) as Hs' by (intros m k; by destruct k; [apply (Hs Driver)|apply (Hs Http)]).
  unfold main_step, process_run in E. destruct (m_pc p) eqn:Em; try done.
  - injection E as <-. split.
    + by split.
    + unfold rank. pose proof (spawn_rank H_rpc p). cbn [m_pc g_pc pending driver http fw set_main spawn set_helpers set_fw main_rank] in *. rewrite Em. cbn [main_rank]. lia.
  - destruct (is_returned (driver p)) eqn:Er; [|done]. injection E as <-. unfold is_returned in Er. split; [split; try done; cbn; by destruct (s_pc (driver p))|].
    apply rank_set_main. rewrite Em. cbn. lia.
  - destruct (is_returned (http p)) eqn:Er; [|done]. injection E as <-. unfold is_returned in Er. split; [split; try done; cbn; split; [done|by destruct (s_pc (http p))]|].
    apply rank_set_main. rewrite Em. cbn. lia.
  - destruct (g_pc p) eqn:Eg; try done. injection E as <-. split; [split; try done; cbn; rewrite Eg; done|]. apply rank_set_main. rewrite Em. cbn. lia.
Qed.

(** Signals and new threads come from outside. *)
Definition cost (e : event) : nat := if is_signal e || is_spawn e then 0 else 1.
Definition gain (e : event) : nat := if is_signal e then 1 else if is_spawn e then 12 else 0.

Lemma quitting_fw n f p : quitting n p -> quitting n (set_fw f p).
Proof.
  intros [Hs Hg Hm Hj]. by split.
Qed.

Lemma quitting_step n e p p' : calm e = true -> quitting n p -> helpers_ok p -> step e p = Some p' ->
  quitting n p' /\ (rank n p' + cost e <= rank n p + gain e)%nat.
Proof.
  intros Hc Q Ok E. destruct (helper_event e) eqn:He.
  { pose proof (helper_step_rank e p p' He Hc Ok E) as Hr. destruct (helper_step_core e p p' He E) as [Ep|[? _]]; [|congruence]. rewrite Ep. split; [by apply quitting_fw|].
    unfold rank. cbn [m_pc g_pc pending driver http fw set_fw]. unfold cost, gain. by destruct e; cbn in *; try done; lia. }
  unfold step in E. destruct (over p); [done|]. pose proof Q as [Hs Hg Hm Hj]. destruct e as [s|ok|k ok|k i|k|s|ok| | | | | | |]; try done; cbn in Hc; subst; unfold cost, gain; cbn [is_signal is_spawn orb].
  - injection E as <-. case_bool_decide; [split; [done|lia]|]. split.
    + split; try done. intros Eg. destruct (Hg Eg) as (Hh & x & Hx & Hq). split; [done|]. exists x.
      split; [|done]. cbn. apply elem_of_app. by left.
    + unfold rank. cbn [m_pc g_pc pending driver http fw set_pending]. rewrite length_app. cbn. lia.
  - apply (quitting_main n) in E; [|done]. destruct E. split; [done|lia].
  - pose proof (ending_server_step n _ k _ true (Hs k)) as H. destruct (server_step true (get_server k p)) as [[esc v]|]; [|done]. cbn in E.
    destruct (H eq_refl) as (-> & He' & Hr & Hne). injection E as <-. destruct (quitting_set_server n k v p Q He' Hne Hr). split; [done|lia].
  - destruct (runner_step i (get_server k p)) as [v|] eqn:Er; [|done]. injection E as <-. destruct (ending_runner_step n _ k _ i v (Hs k) Er) as (He' & Hr & Hne).
    destruct (quitting_set_server n k v p Q He' Hne Hr). split; [done|lia].
  - apply (quitting_sigwait n) in E; [|done]. destruct E. split; [done|lia].
  - apply (quitting_hook n) in E; [|done]. destruct E. split; [done|lia].
Qed.

(** The invariant of the helpers, in every run. *)
Lemma server_actions_ok l seen m p : join_ok l seen (concat (replicate m (stopConnectionServer p))).
Proof.
  assert (forall k n, join_ok l seen (stop_server k n)) as Hs.
  { intros k n. cbn. induction (seq 0 n) as [|i js IH]; [done|]. exact IH. }
  induction m as [|m IH]; [done|]. cbn. apply join_ok_app; [|exact IH]. unfold stopConnectionServer. apply join_ok_app; [apply Hs|]. apply join_ok_app; [apply Hs|done].
Qed.

Lemma start_helpers n : helpers_ok (start n).
Proof. split; cbn; done. Qed.

Lemma helpers_step e p p' : helpers_ok p -> step e p = Some p' -> helpers_ok p'.
Proof.
  intros Ok E. destruct (helper_event e) eqn:He; [by eapply helper_step_ok|]. unfold step in E. destruct (over p); [done|].
  destruct e as [s|ok|k ok|k i|k|s|ok| | | | | | |]; try done.
  - injection E as <-. destruct (bool_decide _); [done|]. by apply (helpers_ok_frame p).
  - unfold main_step, process_run in E. destruct (m_pc p); try done; repeat case_match; simplify_eq; try (by apply (helpers_ok_frame p)).
    apply (helpers_ok_frame (spawn H_rpc p)); [done|done|by apply helper_spawn_ok].
  - destruct (server_step ok (get_server k p)) as [[esc v]|]; [|done]. injection E as <-. destruct esc; [by apply (helpers_ok_frame p)|].
    apply (helpers_ok_frame p); [by destruct k|by destruct k|done].
  - destruct (runner_step i (get_server k p)) as [v|]; [|done]. injection E as <-. apply (helpers_ok_frame p); [by destruct k|by destruct k|done].
  - destruct (throws_step (get_server k p)) as [v|]; [|done]. injection E as <-. apply (helpers_ok_frame p); [by destruct k|by destruct k|done].
  - unfold sig_thread in E. destruct (g_pc p) eqn:Eg; try done. case_bool_decide as Hin; [|done]. injection E as <-. destruct Ok as [H1 H2 H3].
    destruct (quits s); [|by split; cbn; rewrite ?Eg]. split; [exact H1| |exact H3]. apply server_actions_ok.
  - unfold hook_step in E. destruct (g_pc p) as [|[|a todo]|] eqn:Eg; try done.
    + injection E as <-. destruct Ok as [H1 _ H3]. by split.
    + destruct ok; [|injection E as <-; by apply (helpers_ok_frame p)]. destruct (run_action a p) as [[more p1]|] eqn:Ea; [|done]. injection E as <-. by eapply hook_action_ok.
Qed.

(** A server that has not returned can make a step once its services are stopped. *)
Lemma server_progress n k v : ending n G_returned k v -> s_pc v <> S_returned ->
  is_Some (server_step true v) \/ exists i, is_Some (runner_step i v).
Proof.
  intros H Hne. pose proof (ending_server_step n _ k v true H) as Hst. destruct (server_step true v); [by left|]. right.
  destruct Hst as [?|(i & _ & rs & Epc & Hi)]; [done|]. exists i. destruct H as [_ Hs _ _ Hpc]. rewrite Epc in Hpc. destruct Hpc as [Hl _].
  unfold runner_step. rewrite Epc, Hi. destruct (Hs i) as [->|[]]; [|done]. rewrite <- Hl. by eapply lookup_lt_Some.
Qed.

Lemma quitting_progress n p : quitting n p -> helpers_ok p -> m_pc p = M_exited 0 \/ can_step p.
Proof.
  intros [Hs Hg Hm Hj] Ok. destruct (over p) eqn:Ov; [left; unfold over in Ov; destruct (m_pc p) as [| | | | | | |[]|]; done|]. right.
  destruct (g_pc p) as [|[|a todo]|] eqn:Eg.
  - destruct (Hg eq_refl) as (_ & s & Hin & _). exists (Ev_sigwait s). unfold step, sig_thread. rewrite Ov, Eg. by rewrite bool_decide_true.
  - exists (Ev_hook true). unfold step, hook_step. by rewrite Ov, Eg.
  - by eapply hook_progress.
  - assert (forall k, s_pc (get_server k p) <> S_returned -> can_step p) as Hserver.
    { intros k Hne. destruct (server_progress n k _ (Hs k) Hne) as [[[esc v] E]|(i & v & E)].
      - exists (Ev_server k true). unfold step. rewrite Ov, E. done.
      - exists (Ev_runner k i). unfold step. rewrite Ov, E. done. }
    destruct (decide (is_returned (driver p) = true)) as [Hd|Hd]; [|apply (Hserver Driver); intros E; apply Hd; unfold is_returned; cbn in E; by rewrite E].
    destruct (decide (is_returned (http p) = true)) as [Hh|Hh]; [|apply (Hserver Http); intros E; apply Hh; unfold is_returned; cbn in E; by rewrite E].
    exists (Ev_main true). split_and!; [done|done|done|]. unfold step, main_step, process_run. rewrite Ov, Hd, Hh, Eg. unfold over in Ov. by destruct (m_pc p).
Qed.

Definition count_events (f : event -> bool) (es : list event) : nat := length (List.filter f es).
Definition count_steps : list event -> nat := count_events (fun e => negb (is_signal e || is_spawn e)).

Lemma quitting_run n es p p' : forallb calm es = true -> quitting n p -> helpers_ok p -> run_events es p = Some p' ->
  quitting n p' /\ helpers_ok p' /\ (count_steps es <= rank n p + count_events is_signal es + 12 * count_events is_spawn es)%nat.
Proof.
  revert p. unfold count_steps, count_events. induction es as [|e es IH]; intros p Hc Q Ok E; [injection E as <-; split_and!; [done|done|cbn; lia]|].
  cbn in Hc, E. apply andb_true_iff in Hc as [Hc Hcs]. destruct (step e p) as [p1|] eqn:E1; [|done]. cbn in E.
  destruct (quitting_step n e p p1 Hc Q Ok E1) as [Q1 Hr]. destruct (IH p1 Hcs Q1 (helpers_step e p p1 Ok E1) E) as (Q' & Ok' & Hl). split_and!; [done|done|].
  unfold cost, gain in Hr. cbn [List.filter]. assert (is_signal e = false \/ is_spawn e = false) as Hex by (destruct e; first [by left|by right]).
  destruct (is_signal e), (is_spawn e); cbn [negb orb length] in *; destruct Hex; try done; lia.
Qed.

(** ** Theorems *)

Definition in_loop (v : server) : bool := match s_pc v with S_loop | S_running _ => true | _ => false end.

Lemma waiting_run n es p p' : forallb calm es = true -> waiting n p -> run_events es p = Some p' -> waiting n p'.
Proof.
  revert p. induction es as [|e es IH]; intros p Hc W E; [by injection E as <-|]. cbn in Hc, E. apply andb_true_iff in Hc as [Hc Hcs].
  destruct (step e p) as [p1|] eqn:E1; [|done]. by apply (IH p1 Hcs (waiting_step n e p p1 Hc W E1)).
Qed.

Lemma waiting_quitting n p s : waiting n p -> g_pc p = G_wait -> in_loop (driver p) = true -> in_loop (http p) = true -> s ∈ pending p -> quits s = true ->
  quitting n p /\ (rank n p <= 4 * services n + 30 + length (pending p) + fw_rank (fw p))%nat.
Proof.
  intros W Hg Hd Hh Hin Hq. destruct (W Hg) as [Qk Hb]. assert (forall k, in_loop (get_server k p) = true) as Hloop by (by intros []).
  assert (forall k, (server_rank (get_server k p) <= services n + 3)%nat) as Hr.
  { intros k. specialize (Hloop k). destruct (Qk k) as [Hl _ Hpc]. unfold server_rank. unfold in_loop in Hloop. destruct (s_pc (get_server k p)) as [| | | |rs| | |]; try done; [lia|].
    destruct Hpc as [Hrs _]. pose proof (count_open_le rs). lia. }
  split; [|pose proof (Hr Driver); pose proof (Hr Http); cbn in *; unfold rank; rewrite Hg; cbn [signal_rank]; unfold main_rank; destruct (m_pc p); lia].
  unfold begun in Hb. unfold in_loop in Hd, Hh. split.
  - intros k. rewrite Hg. destruct (Qk k) as [Hl Hst Hpc]. split; try done; [by right|intros i Hi; by destruct (Hst i)|]. specialize (Hloop k). unfold in_loop in Hloop.
    destruct (s_pc (get_server k p)); try done. destruct Hpc as [? Hr']. split; [done|]. intros i Hi. by destruct (Hr' i).
  - intros _. split; [|by exists s]. destruct (m_pc p); try done; destruct Hb as (_ & E & _) || destruct Hb as (_ & E); rewrite ?E in *; done.
  - destruct (m_pc p); try done; try (destruct Hb as (_ & E & E'); rewrite E in Hd; done). destruct Hb as (_ & E). rewrite E in Hh. done.
  - by destruct (m_pc p).
Qed.

Lemma fw_rank_bound p : helpers_ok p -> (fw_rank (fw p) <= 12 * length (helpers (fw p)) + 1)%nat.
Proof.
  intros Ok. assert (Forall (fun x => helper_rank x <= 12)%nat (helpers (fw p))) as H.
  { apply Forall_forall. intros x [h Hx]%list_elem_of_lookup. destruct (ho_shape _ Ok h x Hx) as [Hs Hl]. pose proof (width_pos (h_kind x)). pose proof (count_open_le (h_left x)).
    unfold helper_rank. destruct (h_listed x), (h_done x); lia. }
  unfold fw_rank, total. assert (sum_list_with helper_rank (helpers (fw p)) <= 12 * length (helpers (fw p)))%nat; [|destruct (w_join (fw p)); lia].
  induction H as [|x l Hx _ IH]; cbn [sum_list_with length]; lia.
Qed.

Lemma helpers_run es p p' : helpers_ok p -> run_events es p = Some p' -> helpers_ok p'.
Proof.
  revert p. induction es as [|e es IH]; intros p Ok E; [by injection E as <-|]. cbn in E. destruct (step e p) as [p1|] eqn:E1; [|done]. by apply (IH p1 (helpers_step e p p1 Ok E1)).
Qed.

(** C20: The process ends when it is told to.  If a signal to quit is pending
    while the driver and the HTTP server are in their loops and nothing throws,
    then, whatever other signals come and however the threads are scheduled: the
    threads make only boundedly many steps, and as long as [main] has not returned
    0 some thread can make one that neither sends a signal nor starts a thread.  No
    thread waits for another for ever: not [main] for the servers and the signal
    thread, not the hook for the threads of the RPC server, of the ports, of the
    directory and of the client managers that it joins, nor the watching thread
    for the port it closes meanwhile.  It is assumed that the library's RPC server
    ends when it is told to, and ([calm]) that no handler asks for a client manager
    behind the hook. *)
Theorem shutdown_completes n es0 p s es p' : run_events es0 (start n) = Some p -> forallb calm es0 = true ->
  in_loop (driver p) = true -> in_loop (http p) = true -> g_pc p = G_wait -> s ∈ pending p -> quits s = true ->
  run_events es p = Some p' -> forallb calm es = true ->
  (count_steps es <= 4 * services n + 31 + length (pending p) + 12 * length (helpers (fw p))
                     + count_events is_signal es + 12 * count_events is_spawn es)%nat /\
  (m_pc p' = M_exited 0 \/ can_step p').
Proof.
  intros E0 Hc0 Hd Hh Hg Hin Hq E Hc. pose proof (waiting_run n es0 _ p Hc0 (start_waiting n) E0) as W. pose proof (helpers_run es0 _ p (start_helpers n) E0) as Ok.
  destruct (waiting_quitting n p s W Hg Hd Hh Hin Hq) as [Q Hr]. pose proof (fw_rank_bound p Ok). destruct (quitting_run n es p p' Hc Q Ok E) as (Q' & Ok' & Hl).
  split; [lia|by apply (quitting_progress n)].
Qed.

(** ** A signal that comes too early *)

(** The main thread is behind a [join] only when that thread has returned. *)
Definition joined (p : process) : Prop :=
  match m_pc p with
  | M_join_http => s_pc (driver p) = S_returned
  | M_join_signal | M_exited 0 => s_pc (driver p) = S_returned /\ s_pc (http p) = S_returned
  | _ => True
  end.

Lemma joined_frame p p' : m_pc p' = m_pc p -> (forall k, s_pc (get_server k p) = S_returned -> s_pc (get_server k p') = S_returned) -> joined p -> joined p'.
Proof. intros Em Hk. pose proof (Hk Driver) as Hd. pose proof (Hk Http) as Hh. cbn in Hd, Hh. unfold joined. rewrite Em. destruct (m_pc p) as [| | | | | | |[]|]; tauto. Qed.

Lemma joined_server k v p : joined p -> s_pc (get_server k p) <> S_returned -> joined (set_server k v p).
Proof.
  intros H Hne. apply (joined_frame p); [by destruct k| |done]. intros j Hj. rewrite get_set_server. by destruct (decide (j = k)) as [->|].
Qed.

Lemma joined_step e p p' : joined p -> step e p = Some p' -> joined p'.
Proof.
  intros J E. destruct (helper_event e) eqn:He.
  { destruct (helper_step_core e p p' He E) as [-> |[_ ->]]; [|done]. by apply (joined_frame p). }
  unfold step in E. destruct (over p) eqn:Ov; [done|]. destruct e as [s|ok|k ok|k i|k|s|ok| | | | | | |]; try done.
  - injection E as <-. by destruct (bool_decide _).
  - unfold joined in J. unfold main_step, process_run, is_returned in E. destruct (m_pc p); try done; repeat case_match; simplify_eq; done.
  - destruct (server_step ok (get_server k p)) as [[esc v]|] eqn:Es; [|done]. injection E as <-. destruct esc; [done|]. apply joined_server; [done|].
    intros Er. unfold server_step in Es. by rewrite Er in Es.
  - destruct (runner_step i (get_server k p)) as [v|] eqn:Es; [|done]. injection E as <-. apply joined_server; [done|]. intros Er. unfold runner_step in Es. by rewrite Er in Es.
  - destruct (throws_step (get_server k p)) as [v|] eqn:Es; [|done]. injection E as <-. apply joined_server; [done|]. intros Er. unfold throws_step in Es. by rewrite Er in Es.
  - unfold sig_thread in E. destruct (g_pc p); try done. destruct (bool_decide _); [|done]. injection E as <-. by destruct (quits s).
  - unfold hook_step in E. destruct (g_pc p) as [|[|a todo]|]; try done; [by injection E as <-|]. destruct ok; [|by injection E as <-].
    destruct (run_action a p) as [[more p1]|] eqn:Ea; [|done]. injection E as <-. destruct (run_action_frame a p more p1 Ea) as (Em & _ & _ & Hk).
    apply (joined_frame p); [done| |done]. intros k Hr. destruct (Hk k) as [Ek _]. by destruct k; cbn in *; rewrite Ek.
Qed.

(** [run] of the server [k] will set, or has set, [normal_stop_] to [false] after the hook. *)
Definition missed (k : which) (p : process) : Prop :=
  g_pc p = G_returned /\
  match s_pc (get_server k p) with S_none | S_run => True | S_returned => False | _ => normal_stop_ (get_server k p) = false end.

Lemma missed_server j k v p : missed k p -> (j = k -> missed k (set_server k v p)) -> missed k (set_server j v p).
Proof.
  intros [Hg M] Hv. destruct (decide (j = k)) as [->|Hne]; [by apply Hv|]. split; [by destruct j|]. rewrite get_set_server. by destruct (decide (k = j)) as [->|].
Qed.

Lemma missed_set_server k v p : missed k p -> match s_pc v with S_none | S_run => True | S_returned => False | _ => normal_stop_ v = false end -> missed k (set_server k v p).
Proof. intros [Hg _] M. split; [by destruct k|]. by destruct k. Qed.

Lemma missed_step k e p p' : missed k p -> step e p = Some p' -> missed k p'.
Proof.
  intros M E. pose proof M as [Hg Hk]. destruct (helper_event e) eqn:He.
  { destruct (helper_step_core e p p' He E) as [-> |[_ ->]]; by destruct k. }
  unfold step in E. destruct (over p); [done|]. destruct e as [s|ok|j ok|j i|j|s|ok| | | | | | |]; try done.
  - injection E as <-. destruct (bool_decide _); [done|]. by destruct k.
  - unfold main_step, process_run in E. rewrite Hg in E. destruct (m_pc p); try done; repeat case_match; simplify_eq; by destruct k.
  - destruct (server_step ok (get_server j p)) as [[esc v]|] eqn:Es; [|done]. injection E as <-. destruct esc; [by destruct k|]. apply missed_server; [done|]. intros ->.
    apply missed_set_server; [done|]. unfold server_step in Es. destruct (s_pc (get_server k p)); try done; simplify_eq; cbn; try done.
    + by destruct (forallb id returned); simplify_eq.
    + by rewrite Hk.
    + by destruct (i <? length (stopped (get_server k p)))%nat; simplify_eq.
  - destruct (runner_step i (get_server j p)) as [v|] eqn:Es; [|done]. injection E as <-. apply missed_server; [done|]. intros ->. apply missed_set_server; [done|].
    unfold runner_step in Es. destruct (s_pc (get_server k p)); try done. repeat case_match; by simplify_eq.
  - destruct (throws_step (get_server j p)) as [v|] eqn:Es; [|done]. injection E as <-. apply missed_server; [done|]. intros ->. apply missed_set_server; [done|].
    unfold throws_step in Es. destruct (s_pc (get_server k p)); try done. by simplify_eq.
  - unfold sig_thread in E. by rewrite Hg in E.
  - unfold hook_step in E. by rewrite Hg in E.
Qed.

Lemma run_events_inv (P : process -> Prop) es p p' : (forall e p p', P p -> step e p = Some p' -> P p') -> P p -> run_events es p = Some p' -> P p'.
Proof.
  intros Hstep. revert p. induction es as [|e es IH]; intros p Hp E; [by injection E as <-|]. cbn in E. destruct (step e p) as [p1|] eqn:E1; [|done].
  apply (IH p1); [by eapply Hstep|done].
Qed.

(** C40: A signal to quit that comes before a server's [run] has begun is lost,
    and with it every later one.  If the signal thread has returned while the
    thread of a server is still before [normal_stop_ = false] (or was not created,
    or the hook was not added), then in every continuation [main] does not
    return 0, and no signal is taken any more. *)
Theorem early_signal_lost n es0 p k es p' : run_events es0 (start n) = Some p -> g_pc p = G_returned ->
  s_pc (get_server k p) = S_none \/ s_pc (get_server k p) = S_run -> run_events es p = Some p' ->
  m_pc p' <> M_exited 0 /\ g_pc p' = G_returned.
Proof.
  intros E0 Hg Hk E. assert (missed k p) as M0 by (split; [done|]; by destruct Hk as [-> | ->]).
  pose proof (run_events_inv (missed k) es p p' (missed_step k) M0 E) as [Hg' Hk']. pose proof (run_events_inv joined es0 (start n) p joined_step I E0) as J0.
  pose proof (run_events_inv joined es p p' joined_step J0 E) as J. split; [|done]. intros Em. unfold joined in J. rewrite Em in J. destruct J as [Jd Jh].
  destruct k; cbn in Hk'; [rewrite Jd in Hk'|rewrite Jh in Hk']; done.
Qed.

(** ** Examples *)

(** The start of a process with one thread for each server, until both serve, a
    port is forwarded and a call has been made: the helpers are the watching
    thread, the RPC server, the port server and a client manager. *)
Definition startup : list event :=
  [Ev_watch; Ev_main true; Ev_main true; Ev_main true; Ev_server Driver true; Ev_server Driver true; Ev_server Driver true;
   Ev_server Http true; Ev_server Http true; Ev_server Http true; Ev_main true; Ev_begin_port; Ev_client_mgr false].

(** The helper [h] is stopped and joined. *)
Definition ends_helper (h n : nat) : list event :=
  replicate (S n) (Ev_hook true) ++ map (Ev_leave h) (seq 0 n) ++ [Ev_finish h; Ev_hook true].

Definition shutdown : list event :=
  Ev_sigwait SIGTERM :: replicate 4 (Ev_hook true) ++ ends_helper 1 1 ++ ends_helper 2 5 ++ ends_helper 0 1 ++ ends_helper 3 1 ++
  [Ev_hook true; Ev_runner Driver 0; Ev_runner Http 0; Ev_server Driver true; Ev_server Http true; Ev_server Driver true; Ev_server Http true;
   Ev_main true; Ev_main true; Ev_main true].

Lemma shutdown_completes_witness :
  exists p p', run_events (startup ++ [Ev_signal SIGPIPE; Ev_signal SIGTERM]) (start 1) = Some p /\ run_events shutdown p = Some p' /\
    length (helpers (fw p)) = 4%nat /\ m_pc p' = M_exited 0 /\ (count_steps shutdown <= 85)%nat.
Proof.
  assert ((fun p => (in_loop (driver p), in_loop (http p), g_pc p, pending p, length (helpers (fw p)))) <$> run_events (startup ++ [Ev_signal SIGPIPE; Ev_signal SIGTERM]) (start 1)
    = Some (true, true, G_wait, [SIGPIPE; SIGTERM], 4%nat)) as E by (vm_compute; reflexivity).
  assert (m_pc <$> (p ← run_events (startup ++ [Ev_signal SIGPIPE; Ev_signal SIGTERM]) (start 1); run_events shutdown p) = Some (M_exited 0)) as E' by (vm_compute; reflexivity).
  destruct (run_events (startup ++ [Ev_signal SIGPIPE; Ev_signal SIGTERM]) (start 1)) as [p|] eqn:E0; [|discriminate E]. cbn [fmap option_fmap option_map mbind option_bind] in E, E'.
  injection E as Hd Hh Hg Hp Hl. destruct (run_events shutdown p) as [p'|] eqn:E1; [|discriminate E']. injection E' as Hm. exists p, p'. split_and!; [done|done|done|done|].
  destruct (shutdown_completes 1 _ p SIGTERM shutdown p' E0 ltac:(vm_compute; reflexivity) Hd Hh Hg) as [Hs _]; [rewrite Hp; by right; left|done|done|vm_compute; reflexivity|].
  rewrite Hp, Hl in Hs. etransitivity; [exact Hs|]. vm_compute. lia.
Defined.

(** The signal comes when the driver's thread has been created and has not run
    yet: the hook stops a server that then starts again. *)
Definition early : list event :=
  [Ev_main true; Ev_main true; Ev_signal SIGTERM; Ev_sigwait SIGTERM] ++ replicate 9 (Ev_hook true).

Lemma early_signal_lost_witness :
  exists p, run_events early (start 1) = Some p /\ forall es p', run_events es p = Some p' -> m_pc p' <> M_exited 0 /\ g_pc p' = G_returned.
Proof.
  assert ((fun p => (g_pc p, s_pc (driver p))) <$> run_events early (start 1) = Some (G_returned, S_run)) as E by (vm_compute; reflexivity).
  destruct (run_events early (start 1)) as [p|] eqn:E0; [|discriminate E]. cbn in E. injection E as Hg Hk. exists p. split; [done|]. intros es p' E'.
  exact (early_signal_lost 1 early p Driver es p' E0 Hg (or_intror Hk) E').
Defined.

(** An exception that is caught just before the signal has the same effect:
    [reset] makes the services run again that the hook has stopped. *)
Example reset_after_stop : exists p,
  run_events ([Ev_main true; Ev_main true; Ev_main true; Ev_server Driver true; Ev_server Driver true; Ev_throws Driver; Ev_signal SIGTERM; Ev_sigwait SIGTERM] ++
    replicate 9 (Ev_hook true) ++ [Ev_server Driver true; Ev_server Driver true; Ev_server Driver true]) (start 1) = Some p /\
  g_pc p = G_returned /\ normal_stop_ (driver p) = true /\ s_pc (driver p) = S_running [false] /\ stopped (driver p) = [false].
Proof. eexists. split; [vm_compute; reflexivity|]. done. Qed.

(** A handler that asks for a client manager when the hook has cleared the list
    of them: the servers have been told to stop, but nobody has waited for them. *)
Example late_call_aborts :
  m_pc <$> (p ← run_events (startup ++ [Ev_signal SIGTERM]) (start 1);
            run_events (Ev_sigwait SIGTERM :: replicate 4 (Ev_hook true) ++ ends_helper 1 1 ++ ends_helper 2 5 ++ ends_helper 0 1 ++ [Ev_hook true; Ev_client_mgr true]) p)
  = Some M_aborted.
Proof. vm_compute. reflexivity. Qed.
